(* ===== verification/_CoqProject ===== *)
-Q . S2P
Prelude.v
GoStrings.v
GoCrypto.v
FileIdentity.v
Probe.v
Streams.v
Media.v
Radarr.v
JoinFeasibility.v
JsonSchema.v
ProbeDocument.v
Inventory.v
WorkerContracts.v
CaseContracts.v
Decisions.v
DiscCandidates.v
CaseCodec.v
CaseEvidence.v
CaseAssembly.v
CaseIdentity.v
CaseSafety.v
Inspection.v
ManualImportPolicy.v
JoinPolicy.v
DiscPolicy.v
JoinVerification.v
JoinTimeline.v
RemuxVerification.v
ExecutionRecords.v
ExecutionStore.v
ManualExecution.v
JoinExecution.v
RemuxExecution.v
ExecutionProtocol.v
ExecutionProgress.v
Jobs.v
JobInvariants.v
RepairEngine.v
RepairProtocol.v
PlanningHistory.v
JobQueue.v
JobScenarios.v
PlanningState.v
CaseStorage.v
CaseStorageSafety.v
PlanningRunner.v
Reconsideration.v
LidarrContracts.v
LidarrState.v
LidarrRepair.v
LidarrSafety.v
Programs.v
LidarrLedger.v
LedgerSafety.v
ImportFlow.v
ImportSafety.v
QueueFinalize.v
QueueRemoval.v
ExecutionCheck.v
RadarrAdapter.v
WorkerFiles.v
WorkerJoinStage.v
WorkerDisc.v
WorkerBlurayStage.v
WorkerDVDStage.v
WorkerTransform.v
FileSystem.v
WorkerSafety.v
WorkerPublish.v
TransformSafety.v
RadarrSafety.v
Materialize.v
MaterializeSafety.v
LidarrAdapter.v
LidarrWitnesses.v
Scenarios.v
Witnesses.v
RadarrWitnesses.v
ImportWitnesses.v
WorkerWitnesses.v
