(* ===== verification/Prelude.v ===== *)
(** * Verification of media-repair

    [src/pkgs/media-repair] repairs downloads that Radarr and Lidarr could not
    import. A controller observes a stuck download, assembles a case, asks a
    planner for a decision, checks that decision against what it observed, and
    carries it out: importing files by hand, joining the parts of a movie,
    remuxing a Blu-ray playlist or a DVD title. A sandboxed worker stages,
    validates and publishes a joined or remuxed file, and the service imports
    it. Jobs, plans and executions are recorded durably, which is what makes
    the controller restartable.

    ** Files, in dependency order

    Shared:
    - [Prelude] (this file): Go results as a monad, guards, 64-bit integers
      with wrap-around, binary64, [time.Time], list lemmas and tactics.
    - [GoStrings], [GoCrypto]: the parts of Go's strings, path/filepath,
      crypto/sha256 and encoding/json that the code uses, executable.
    - [Programs]: interaction trees as programs of calls, a logic for what
      holds at every moment of a run, and running a program to its end.

    Observation and policy:
    - [FileIdentity]: internal/fileidentity and internal/repairartifact.
    - [Probe], [Streams], [Media], [Radarr], [JoinFeasibility]:
      internal/controller, the pure assessments of probes, streams, files,
      containers, queue records, downloads and joins.
    - [ProbeDocument]: internal/ffprobe, from a probe document to evidence.
      [Inventory]: internal/filesystem, the files of a download.
    - [JsonSchema], [WorkerContracts]: worker/contracts, messages exchanged
      with the worker, their JSON and the schemas the encoders enforce.
    - [CaseContracts], [Decisions], [CaseCodec]: contracts, the cases and
      decisions the planner sees, and their canonical form.
    - [DiscCandidates]: internal/mkvmerge and internal/dvdvideo,
      the playlists and titles that a case may offer, and what listing means.
    - [CaseEvidence], [CaseAssembly]: internal/casebuilder; [CaseIdentity]
      and [CaseSafety] hold the theorems about assembled cases.
    - [Inspection]: internal/inspection, observing one queue record.
    - [ManualImportPolicy], [JoinPolicy], [DiscPolicy]:
      internal/decisionpolicy. [JoinVerification], [JoinTimeline],
      [RemuxVerification]: the checks on what the worker produced, by its layout
      and by its packets.

    Executions of Radarr repairs (internal/casestore): [ExecutionRecords],
    [ExecutionStore], [ManualExecution], [JoinExecution], [RemuxExecution], one
    definition per operation; [ExecutionProtocol] and [ExecutionProgress],
    theorems about all operations together. [CaseStorage] and
    [CaseStorageSafety]: the stored cases, planning results and plans, which
    the executions are authorized by.

    Jobs and their repair: [Jobs] (internal/jobs), with [JobInvariants];
    [RepairEngine] (internal/repair), with [RepairProtocol], [PlanningHistory],
    [JobQueue]: the engine and its scheduler interleaved with the operator,
    the removal loops and crashes; [JobScenarios].

    Planning and Lidarr: [PlanningState] (internal/planningstate),
    [PlanningRunner] (internal/planning), [Reconsideration]
    (internal/reconsideration); [LidarrContracts], [LidarrState], [LidarrRepair],
    [LidarrSafety] (internal/lidarrrepair); [LidarrAdapter]
    (internal/repairlidarr), behind the scheduler; [LidarrLedger] and [LedgerSafety], the directory of
    imports (import_state.go); [ImportFlow] and [ImportSafety], the executor
    that submits and follows an import (internal/servarr/import_execution.go,
    import_executor.go).

    Queues and the Radarr adapter: [QueueFinalize], [QueueRemoval]
    (internal/queuefinalize); [ExecutionCheck] (internal/executioncheck);
    [RadarrAdapter] (internal/repairradarr) and [RadarrSafety].

    The worker: [WorkerFiles] (worker/mediafile), [WorkerJoinStage],
    [WorkerDisc], [WorkerBlurayStage], [WorkerDVDStage] (worker/joinstage,
    worker/bluraystage, worker/dvdstage) and [WorkerTransform]
    (worker/operation). [FileSystem] says what their system calls and tools do;
    [WorkerSafety], [WorkerPublish] and [TransformSafety] hold the theorems.
    [Materialize] and [MaterializeSafety]: worker/materialize with
    worker/cuesheet, the audio and video of an archive or a directory in a
    workspace from which it is imported.

    [LidarrWitnesses], [Scenarios], [Witnesses], [RadarrWitnesses],
    [ImportWitnesses], [WorkerWitnesses]: concrete cases, and each theorem with
    hypotheses applied to one of them.

    ** How the code is modelled

    A Go struct is a record whose fields carry a prefix, an enumeration of
    strings is an inductive type (with a constructor for any other string
    where a stored record may hold one) or a string, a pointer that may be nil
    is an option. A function that returns an error is a function into [result];
    error texts are kept without their arguments. A nil dereference or an
    index out of range is [None] or an error named panic, so that the theorems
    can say that it does not happen. Nil and empty slices are identified, and
    [reflect.DeepEqual] is equality; cloning is the identity, since no model
    value is shared. Integers are in [Z] with the wrap-around of the operation
    written out; a rate comparison is computed in binary64.

    State is passed explicitly. A store of files is the map from names to the
    records the files decode to; an operation that holds the lock of its store
    is one function from a store to a store. The job database is the class
    [JobDatabase] of the few queries that the code makes of gorm and SQLite.
    What a program asks of services is in a record of their answers; a
    context that may be cancelled is an answer too. Where the order of calls
    matters, a program is a tree of calls: a datatype of its own for the
    repair engine, interaction trees for the import executor and the worker,
    so that one run can be stopped between any two calls.

    JSON, its schemas and canonical form are interfaces: [RepairCodec] for the
    contracts, [Codec] for Lidarr, the adapters' [AdapterCodec] and [SpecificationCodec] for
    requests and specifications, [StringMarshaler] for what is said of
    a text, each with the laws its clients need. [PlanSource] is the
    interface from executions to stored plans, which the directories of
    [CaseStorage] implement, [ExecutionKind] the one between
    the shared read, write and update and the kinds of records.

    ** What the theorems show

    - Policy: what an authorization of each repair guarantees about the case;
      a join validation never panics and authorizes exactly the joins it
      should; an assembled case offers only what its observation backs, and no
      text in it contains a path that JSON writes unchanged.
    - Verification: staged joins and remuxes are accepted exactly when the
      exchange and the probed file match the authorization; for a join, when its
      parts, size, duration, container and streams are the authorized ones.
    - Executions: each operation refines an abstract move of its repair; in
      every store reachable by any operations in any order, each file is
      valid, was authorized when prepared, keeps verified evidence, never
      becomes another repair, and never changes once it ended; the plan of a
      case is what was bound, and is fixed once it is executed.
    - Jobs: in every interleaving an import is submitted once per attempt,
      removal from the queue excludes a repair, attempts follow jobs and are
      final once they ended; a decided input is not planned again, but for the
      late answer of a planner that failed.
    - Media: a probe that succeeds returns evidence of one document, with every
      value in its range and every reference resolved; an inventory has exactly
      the regular files that were there before and after; a join that succeeds
      has the packets of its parts in order.
    - Radarr: the adapter imports only what a fresh, stable and unchanged
      observation authorizes, and confirms exactly that import.
    - Planning: a stored decision is final, and so is one that reconsiders it;
      the planner is asked again only when a retry is due.
    - Lidarr: every queue entry is observed, and a change since it was planned is
      told, with no false alarm while identifiers are distinct; the adapter imports only missing tracks of one
      release, from evidence collected now or from stored files that are intact,
      and confirms exactly those; with any
      number of executors, stopped anywhere, no case is submitted twice, the
      records of the ledger are valid, final, and authorized by the plan store
      of the step that prepared them (or migrated from the older format), and
      an import that is never confirmed is given up.
    - Queues: a finalizer removes only what it recorded, what is eligible and
      what the queue still contains, up to its limit.
    - Worker: whatever fails and wherever it is stopped, a media operation
      writes no file that was there, replaces no media, and publishes only a
      file whose content the validation of the request accepted; whatever an
      archive contains, its materialization changes nothing outside of its
      workspace but temporary files, reports files of a new workspace with the
      size, digest and evidence they have, less members of a RAR archive that
      the code loses, and ends even if the archive does not.

    ** Bounds

    Recursion is structural, or on the length of a string; no definition runs
    out of fuel. Loops without an end are interaction trees: safety holds for
    any number of steps, and termination is a theorem about a handler.
    Hypotheses that bound inputs say that a value is a 64-bit integer, as every
    [int64] field is, or that a list fits in memory.

    ** Not modelled

    The decoders from bytes to messages and the texts of the JSON schemas that
    are not translated; identifying discs and running the media and archive
    tools in the worker; the store of joinstate and the run loop of
    internal/lidarrrepair, which no program uses; the HTTP, process and file
    system adapters, the planner client, the web interface and the command line
    programs; the small stand-alone host tools. The file system of the worker
    has no other process in its private directories, nor the scratch directory
    of a join, and a path below a root without symbolic links is one directory.
    Where the code reads before it takes a lock ([PrepareImport],
    [BindExecutionPlan]) or takes none ([reconsideration.update]), the
    operation is one step, as its definition explains. *)
From stdpp Require Import base numbers gmap strings list fin_maps.
From Stdlib Require Import ZArith Lia SpecFloat.

(** * Shared vocabulary: Go results, machine integers, clock values *)

Global Open Scope string_scope.
Global Open Scope list_scope.
Global Open Scope Z_scope.

(** ** Errors as values

    A Go function returning [(T, error)] is a function into [result T]; the
    error is kept as the text passed to [fmt.Errorf], without its arguments. *)
Definition error := string.

Inductive result (A : Type) : Type :=
| Ok (a : A)
| Err (e : error).
Arguments Ok {A} a.
Arguments Err {A} e.

#[global] Instance result_ret : MRet result := fun _ => Ok.
#[global] Instance result_bind : MBind result := fun _ _ f m =>
  match m with Ok a => f a | Err e => Err e end.
#[global] Instance result_fmap : FMap result := fun _ _ f m =>
  match m with Ok a => Ok (f a) | Err e => Err e end.

#[global] Instance result_eq_dec `{EqDecision A} : EqDecision (result A).
Proof. solve_decision. Defined.

(** The guard [if cond { return fmt.Errorf(e) }]. *)
Definition fail_if (b : bool) (e : error) : result unit :=
  if b then Err e else Ok tt.

Definition is_ok {A} (r : result A) : bool :=
  match r with Ok _ => true | Err _ => false end.

Lemma bind_Ok {A B} (m : result A) (f : A -> result B) b :
  m ≫= f = Ok b <-> exists a, m = Ok a /\ f a = Ok b.
Proof. destruct m; simpl; naive_solver. Qed.

Lemma fail_if_Ok b e u : fail_if b e = Ok u <-> b = false.
Proof. destruct b, u; simpl; naive_solver. Qed.

Lemma fail_if_false b e : b = false -> fail_if b e = Ok tt.
Proof. by intros ->. Qed.

Lemma is_ok_true {A} (r : result A) : is_ok r = true <-> exists a, r = Ok a.
Proof. destruct r; simpl; naive_solver. Qed.

Lemma mapM_Ok {A B} (f : A -> result B) l k :
  mapM f l = Ok k -> Forall2 (fun x y => f x = Ok y) l k.
Proof.
  revert k. induction l as [|x l IH]; intros k; cbn.
  - intros [= <-]. constructor.
  - intros H. apply bind_Ok in H as (y & Hy & H). apply bind_Ok in H as (k' & Hk & H).
    injection H as <-. constructor; [done|]. by apply IH.
Qed.

(** ** Booleans

    Go conditions are modelled with [bool_decide] on decidable equalities and
    orders, combined with [&&], [||] and [negb]. *)
Create HintDb go.
Create Rewrite HintDb go.
#[global] Hint Rewrite andb_true_iff andb_false_iff orb_true_iff orb_false_iff
  negb_true_iff negb_false_iff bool_decide_eq_true bool_decide_eq_false
  @fail_if_Ok : go.

(** [inv_result] takes a hypothesis that a computation returned [Ok] apart
    into its steps and the guards it passed. *)
Ltac inv_result :=
  repeat match goal with
  | H : _ ≫= _ = Ok _ |- _ => apply bind_Ok in H as (? & ? & H)
  | H : fail_if _ _ = Ok _ |- _ => apply fail_if_Ok in H
  | H : @mret result _ _ ?a = Ok ?b |- _ => change (Ok a = Ok b) in H
  | H : Ok _ = Ok _ |- _ => injection H as H
  | H : Err _ = Ok _ |- _ => discriminate H
  | H : Ok _ = Err _ |- _ => discriminate H
  end; simplify_eq/=.

(** [inv_ok H] inverts the single equation [H : Ok _ = Ok _]. *)
Ltac inv_ok H :=
  lazymatch type of H with
  | @mret result _ _ ?a = Ok ?b => change (Ok a = Ok b) in H
  | _ => idtac
  end; injection H; clear H; intros; subst.

Ltac destruct_units := repeat match goal with u : unit |- _ => destruct u end.

(** [split_bool] turns boolean tests of the code into propositions. *)
Ltac split_bool :=
  repeat match goal with
  | H : (_ && _)%bool = true |- _ => apply andb_true_iff in H as [? ?]
  | H : (_ || _)%bool = false |- _ => apply orb_false_iff in H as [? ?]
  | H : negb _ = true |- _ => apply negb_true_iff in H
  | H : negb _ = false |- _ => apply negb_false_iff in H
  | H : bool_decide _ = true |- _ => apply bool_decide_eq_true in H
  | H : bool_decide _ = false |- _ => apply bool_decide_eq_false in H
  end.

(** Case analysis on the scrutinee of the next [match] or [if]. *)
Ltac case_next :=
  match goal with
  | |- context [match ?x with _ => _ end] => destruct x eqn:?
  | H : context [match ?x with _ => _ end] |- _ => destruct x eqn:?
  end.

(** ** Machine integers *)
Definition max_int64 : Z := 9223372036854775807.

Definition int64_range (z : Z) : Prop := -(2 ^ 63) <= z < 2 ^ 63.

#[global] Instance int64_range_dec z : Decision (int64_range z).
Proof. unfold int64_range. apply _. Defined.

(** Two's-complement wrap-around of the 64-bit signed operations. *)
Definition wrap64 (z : Z) : Z := (z + 2 ^ 63) mod 2 ^ 64 - 2 ^ 63.
Definition add64 (x y : Z) : Z := wrap64 (x + y).
Definition sub64 (x y : Z) : Z := wrap64 (x - y).
Definition mul64 (x y : Z) : Z := wrap64 (x * y).
Definition neg64 (x : Z) : Z := wrap64 (- x).
(** Conversion to [uint64]. *)
Definition to_uint64 (z : Z) : Z := z mod 2 ^ 64.

Lemma wrap64_id z : int64_range z -> wrap64 z = z.
Proof.
  unfold wrap64, int64_range. intros H.
  rewrite Z.mod_small by lia. lia.
Qed.

Lemma wrap64_range z : int64_range (wrap64 z).
Proof.
  unfold wrap64, int64_range.
  pose proof (Z.mod_pos_bound (z + 2 ^ 63) (2 ^ 64)). lia.
Qed.

(** ** Floating point

    IEEE binary64 arithmetic, as Go's [float64] has it. *)
Definition float := spec_float.
Definition float_of_int (z : Z) : float := binary_normalize 53 1024 z 0 false.
Definition fdiv : float -> float -> float := SFdiv 53 1024.
Definition fsub : float -> float -> float := SFsub 53 1024.
Definition fmul : float -> float -> float := SFmul 53 1024.
Definition feqb : float -> float -> bool := SFeqb.

#[global] Instance float_eq_dec : EqDecision float.
Proof. unfold float. solve_decision. Defined.

(** ** Clock values

    A [time.Time] is its instant, in nanoseconds since the zero [time.Time],
    and its location; [None] is UTC, [Some o] a zone at offset [o]. *)
Record time := mkTime { t_ns : Z; t_zone : option Z }.

#[global] Instance time_eq_dec : EqDecision time.
Proof. solve_decision. Defined.

Definition IsZero (t : time) : bool := bool_decide (t_ns t = 0).
Definition UTC (t : time) : time := mkTime (t_ns t) None.
Definition Before (a b : time) : bool := bool_decide (t_ns a < t_ns b).
Definition After (a b : time) : bool := bool_decide (t_ns b < t_ns a).
Definition time_Equal (a b : time) : bool := bool_decide (t_ns a = t_ns b).

Lemma UTC_idemp t : UTC (UTC t) = UTC t.
Proof. done. Qed.

Lemma IsZero_UTC t : IsZero (UTC t) = IsZero t.
Proof. done. Qed.

(** ** Lists *)
Section lists.
Context {A : Type}.

Lemma forallb_Forall (f : A -> bool) l :
  forallb f l = true <-> Forall (fun x => f x = true) l.
Proof.
  rewrite List.forallb_forall, Forall_forall.
  by setoid_rewrite list_elem_of_In.
Qed.

(** [slices.EqualFunc]. *)
Fixpoint equal_func {B} (eq : A -> B -> bool) (xs : list A) (ys : list B) : bool :=
  match xs, ys with
  | [], [] => true
  | x :: xs, y :: ys => eq x y && equal_func eq xs ys
  | _, _ => false
  end.

Lemma equal_func_Forall2 {B} (eq : A -> B -> bool) xs ys :
  equal_func eq xs ys = true <-> Forall2 (fun x y => eq x y = true) xs ys.
Proof.
  revert ys. induction xs as [|x xs IH]; intros [|y ys]; simpl.
  - by split.
  - split; [done | by inversion 1].
  - split; [done | by inversion 1].
  - rewrite andb_true_iff, IH. split.
    + intros [? ?]. by constructor.
    + by inversion 1.
Qed.

Lemma existsb_bool (f : A -> bool) l :
  existsb f l = true <-> exists x, x ∈ l /\ f x = true.
Proof. rewrite List.existsb_exists. by setoid_rewrite list_elem_of_In. Qed.
End lists.

(** Sums of integers. *)
Definition sum_Z (l : list Z) : Z := foldr Z.add 0 l.

Lemma sum_Z_cons z l : sum_Z (z :: l) = z + sum_Z l.
Proof. done. Qed.

Lemma sum_Z_nil : sum_Z [] = 0.
Proof. done. Qed.

Lemma sum_Z_nonneg l : Forall (fun z => 0 <= z) l -> 0 <= sum_Z l.
Proof. induction 1; simpl; lia. Qed.

Lemma sum_Z_bound l b : Forall (fun z => z <= b) l -> sum_Z l <= b * Z.of_nat (length l).
Proof. induction 1; rewrite ?sum_Z_cons, ?sum_Z_nil; simpl length; lia. Qed.

Lemma add64_small x y : 0 <= x -> 0 <= y -> x + y <= max_int64 -> add64 x y = x + y.
Proof. intros. unfold add64, max_int64 in *. apply wrap64_id. unfold int64_range. lia. Qed.

Lemma sub64_small x y : 0 <= y <= x -> x <= max_int64 -> sub64 x y = x - y.
Proof. intros. unfold sub64, max_int64 in *. apply wrap64_id. unfold int64_range. lia. Qed.
