(* ===== verification/GoStrings.v ===== *)
(** * Go's [strings] and [path/filepath] packages

    The parts of the standard library the program relies on for text and
    path checks: [strings.TrimSpace], case mapping, [filepath.Clean], [Dir],
    [Base], [Join] and [path.Ext], on byte strings as Go has them. *)
From stdpp Require Import base strings list.
From Stdlib Require Import Ascii.
From S2P Require Import Prelude.

(** ** Bytes and substrings *)

Fixpoint s_drop (n : nat) (s : string) : string :=
  match n, s with
  | O, _ => s
  | S n, String _ s => s_drop n s
  | S _, EmptyString => EmptyString
  end.

Fixpoint s_take (n : nat) (s : string) : string :=
  match n, s with
  | O, _ => EmptyString
  | S n, String c s => String c (s_take n s)
  | S _, EmptyString => EmptyString
  end.

Fixpoint s_rev_app (s acc : string) : string :=
  match s with
  | EmptyString => acc
  | String c s => s_rev_app s (String c acc)
  end.

Definition s_rev (s : string) : string := s_rev_app s EmptyString.

Fixpoint s_forall (f : ascii -> bool) (s : string) : bool :=
  match s with
  | EmptyString => true
  | String c s => f c && s_forall f s
  end.

(** [strings.HasPrefix], [strings.HasSuffix]. *)
Definition HasPrefix (s p : string) : bool := String.prefix p s.
Definition HasSuffix (s p : string) : bool := String.prefix (s_rev p) (s_rev s).

(** [strings.ContainsRune (s, r)] for a one-byte rune [r]. *)
Definition ContainsByte (s : string) (c : ascii) : bool :=
  negb (s_forall (fun x => negb (Ascii.eqb x c)) s).

(** The order [<=] of strings, which compares bytes. *)
Definition string_le (a b : string) : Prop := String.leb a b = true.
#[global] Instance string_le_dec : RelDecision string_le.
Proof. intros a b. unfold string_le. apply _. Defined.

Definition byte (n : nat) : ascii := ascii_of_nat n.
Definition bytes (l : list nat) : string :=
  fold_right (fun n s => String (byte n) s) EmptyString l.

Definition nul : ascii := byte 0.
Definition slash : ascii := "/"%char.
Definition dot : ascii := "."%char.

(** ** [strings.TrimSpace]

    The UTF-8 encodings of the runes [unicode.IsSpace] accepts. *)
Definition space_runes : list string :=
  map bytes
    ([[9]; [10]; [11]; [12]; [13]; [32]; [194; 133]; [194; 160]; [225; 154; 128];
      [226; 128; 168]; [226; 128; 169]; [226; 128; 175]; [226; 129; 159];
      [227; 128; 128]]
     ++ map (fun n => [226; 128; 128 + n]) (seq 0 11))%nat.

(** Strips encodings of [runes] from the front while one matches. *)
Fixpoint trim_left (fuel : nat) (runes : list string) (s : string) : string :=
  match fuel with
  | O => s
  | S fuel =>
      match List.find (fun p => HasPrefix s p) runes with
      | Some p => trim_left fuel runes (s_drop (String.length p) s)
      | None => s
      end
  end.

Definition TrimSpace (s : string) : string :=
  let l := trim_left (String.length s) space_runes s in
  s_rev (trim_left (String.length l) (map s_rev space_runes) (s_rev l)).

(** ** Case mapping

    [strings.ToUpper] and [strings.ToLower] as they decide equality with an
    ASCII literal: ASCII letters are mapped, and so are the only other runes
    whose image is an ASCII letter (dotless i and long s upwards, dotted I and
    the Kelvin sign downwards). Every other non-ASCII rune keeps a non-ASCII
    image, so its bytes are left as they are. *)
Definition ascii_upper (c : ascii) : ascii :=
  let n := nat_of_ascii c in
  if (97 <=? n)%nat && (n <=? 122)%nat then ascii_of_nat (n - 32) else c.
Definition ascii_lower (c : ascii) : ascii :=
  let n := nat_of_ascii c in
  if (65 <=? n)%nat && (n <=? 90)%nat then ascii_of_nat (n + 32) else c.

(** [map_runes specials f s] maps the multi-byte runes of [specials] to their
    ASCII images and every other byte with [f]. *)
Fixpoint map_runes (fuel : nat) (specials : list (string * ascii))
    (f : ascii -> ascii) (s : string) : string :=
  match fuel, s with
  | O, _ => s
  | _, EmptyString => EmptyString
  | S fuel, String c s' =>
      match List.find (fun p => HasPrefix s p.1) specials with
      | Some (p, image) => String image (map_runes fuel specials f (s_drop (String.length p) s))
      | None => String (f c) (map_runes fuel specials f s')
      end
  end.

Definition ToUpper (s : string) : string :=
  map_runes (String.length s)
    [(bytes [196; 177]%nat, "I"%char); (bytes [197; 191]%nat, "S"%char)] ascii_upper s.
Definition ToLower (s : string) : string :=
  map_runes (String.length s)
    [(bytes [196; 176]%nat, "i"%char); (bytes [226; 132; 170]%nat, "k"%char)] ascii_lower s.

(** [strings.EqualFold] on ASCII text, with the two non-ASCII runes that fold
    to an ASCII letter (long s and the Kelvin sign); other non-ASCII runes are
    compared exactly. *)
Definition fold_key (s : string) : string :=
  map_runes (String.length s)
    [(bytes [197; 191]%nat, "s"%char); (bytes [226; 132; 170]%nat, "k"%char)] ascii_lower s.
Definition EqualFold (a b : string) : bool := bool_decide (fold_key a = fold_key b).

(** ** Paths *)

Fixpoint split_on (c : ascii) (s : string) : list string :=
  match s with
  | EmptyString => [EmptyString]
  | String x s =>
      if Ascii.eqb x c then EmptyString :: split_on c s
      else match split_on c s with
           | [] => [String x EmptyString]
           | y :: ys => String x y :: ys
           end
  end.

Definition join_slash (parts : list string) : string := String.concat "/" parts.

Module filepath.

(** [filepath.IsAbs]. *)
Definition IsAbs (p : string) : bool := HasPrefix p "/".

(** One path element of [filepath.Clean]; [stack] holds the elements kept so
    far, the last one first. *)
Definition clean_step (rooted : bool) (stack : list string) (part : string) : list string :=
  if bool_decide (part = "") || bool_decide (part = ".") then stack
  else if bool_decide (part = "..") then
    match stack with
    | [] => if rooted then [] else [".."]
    | top :: rest => if bool_decide (top = "..") then ".." :: stack else rest
    end
  else part :: stack.

(** [filepath.Clean] (lexical, Unix separators). *)
Definition Clean (p : string) : string :=
  if bool_decide (p = "") then "."
  else
    let rooted := IsAbs p in
    let parts := rev (fold_left (clean_step rooted) (split_on slash p) []) in
    if rooted then "/" +:+ join_slash parts
    else match parts with [] => "." | _ => join_slash parts end.

(** The elements before and after the last separator. *)
Definition init_last (parts : list string) : list string * string :=
  match rev parts with
  | [] => ([], "")
  | x :: xs => (rev xs, x)
  end.

(** [filepath.Dir]: the cleaned text up to and including the last separator. *)
Definition Dir (p : string) : string :=
  let '(before, _) := init_last (split_on slash p) in
  match before with
  | [] => Clean ""
  | _ => Clean (join_slash before +:+ "/")
  end.

Fixpoint strip_slashes (s : string) : string :=
  match s with
  | String c s' => if Ascii.eqb c slash then strip_slashes s' else s
  | EmptyString => EmptyString
  end.

(** [filepath.Base]. *)
Definition Base (p : string) : string :=
  if bool_decide (p = "") then "."
  else
    let trimmed := s_rev (strip_slashes (s_rev p)) in
    if bool_decide (trimmed = "") then "/"
    else (init_last (split_on slash trimmed)).2.

(** [filepath.Join] of two elements. *)
Definition Join (a b : string) : string :=
  if bool_decide (a = "") then (if bool_decide (b = "") then "" else Clean b)
  else if bool_decide (b = "") then Clean a
  else Clean (a +:+ "/" +:+ b).

(** [path.Ext]: the suffix of the last element that starts at its last dot. *)
Definition Ext (p : string) : string :=
  let '(_, last) := init_last (split_on slash p) in
  let '(before, suffix) := init_last (split_on dot last) in
  match before with
  | [] => ""
  | _ => "." +:+ suffix
  end.

(** The elements of a rooted path. *)
Definition path_elements (path : string) : list string :=
  List.filter (fun part => negb (bool_decide (part = ""))) (split_on slash (Clean path)).

Fixpoint drop_common (base target : list string) : list string * list string :=
  match base, target with
  | b :: base', t :: target' =>
      if bool_decide (b = t) then drop_common base' target' else (base, target)
  | _, _ => (base, target)
  end.

(** [filepath.Rel] of two rooted paths. *)
Definition Rel (base target : string) : string :=
  let '(up, down) := drop_common (path_elements base) (path_elements target) in
  match (replicate (length up) ".." ++ down)%list with
  | [] => "."
  | parts => join_slash parts
  end.

(** [filepath.IsLocal]. *)
Definition IsLocal (path : string) : bool :=
  negb (IsAbs path) && negb (bool_decide (path = "")) &&
  let path :=
    if existsb (fun part => bool_decide (part = ".") || bool_decide (part = "..")) (split_on slash path)
    then Clean path else path in
  negb (bool_decide (path = "..")) && negb (HasPrefix path "../").

End filepath.

(** ** Lemmas *)

Lemma s_rev_app_spec s acc :
  String.list_ascii_of_string (s_rev_app s acc) =
  List.rev (String.list_ascii_of_string s) ++ String.list_ascii_of_string acc.
Proof.
  revert acc. induction s as [|c s IH]; intros acc; simpl; [done|].
  rewrite IH. simpl. by rewrite <- app_assoc.
Qed.

Lemma s_forall_spec f s :
  s_forall f s = true <-> Forall (fun c => f c = true) (String.list_ascii_of_string s).
Proof.
  induction s as [|c s IH]; simpl; [by split|].
  rewrite andb_true_iff, IH, Forall_cons. done.
Qed.

Lemma list_ascii_of_string_inj s t :
  String.list_ascii_of_string s = String.list_ascii_of_string t -> s = t.
Proof.
  intros H. rewrite <- (String.string_of_list_ascii_of_string s).
  by rewrite H, String.string_of_list_ascii_of_string.
Qed.

Lemma length_list_ascii s :
  length (String.list_ascii_of_string s) = String.length s.
Proof. induction s; simpl; congruence. Qed.

(** The elements [split_on] returns contain no separator, and joining them
    gives the text back. *)
Lemma split_on_nonempty c s : split_on c s <> [].
Proof.
  induction s as [|x s IH]; simpl; [done|].
  destruct (Ascii.eqb x c); [done|]. by destruct (split_on c s).
Qed.

Lemma join_split_slash s : join_slash (split_on slash s) = s.
Proof.
  unfold join_slash. induction s as [|x s IH]; [done|]. cbn [split_on].
  pose proof (split_on_nonempty slash s) as Hne.
  destruct (Ascii.eqb_spec x slash) as [->|Hx].
  - destruct (split_on slash s) as [|y ys] eqn:E; [done|].
    cbn [String.concat] in *. by rewrite IH.
  - destruct (split_on slash s) as [|y ys] eqn:E; [done|].
    cbn [String.concat] in *. destruct ys; simpl in *; by rewrite <- IH.
Qed.

(** [String.append] does not simplify; this equation does it by hand. *)
Lemma string_app_cons c a b : String c a +:+ b = String c (a +:+ b).
Proof. done. Qed.

Lemma s_forall_app f a b : s_forall f (a +:+ b) = s_forall f a && s_forall f b.
Proof.
  induction a as [|c a IH]; [done|]. rewrite string_app_cons. simpl. by rewrite IH, andb_assoc.
Qed.

Lemma s_forall_mono (f g : ascii -> bool) s :
  (forall c, f c = true -> g c = true) -> s_forall f s = true -> s_forall g s = true.
Proof.
  intros Hfg. induction s as [|c s IH]; simpl; [done|].
  rewrite !andb_true_iff. naive_solver.
Qed.

(** The order of strings is that of stdpp. *)
Lemma string_le_le a b : string_le a b <-> String.le a b.
Proof. unfold string_le, String.le. symmetry. apply Is_true_true. Qed.

Lemma string_length_app a b :
  String.length (a +:+ b) = (String.length a + String.length b)%nat.
Proof. induction a; [done|]. rewrite string_app_cons. simpl. congruence. Qed.

Lemma prefix_app p s : String.prefix p (p +:+ s) = true.
Proof.
  induction p as [|c p IH]; [by destruct s|]. rewrite string_app_cons. simpl.
  by destruct (ascii_dec c c).
Qed.

Lemma string_app_assoc (a b c : string) : a +:+ (b +:+ c) = (a +:+ b) +:+ c.
Proof. induction a; [done|]. rewrite !string_app_cons. congruence. Qed.

Lemma string_app_nil_r (a : string) : a +:+ "" = a.
Proof. induction a; [done|]. rewrite string_app_cons. congruence. Qed.

Lemma s_rev_app_append s acc : s_rev_app s acc = s_rev s +:+ acc.
Proof.
  unfold s_rev. revert acc. induction s as [|c s IH]; intros acc; simpl; [done|].
  rewrite IH, (IH (String c "")), <- string_app_assoc. done.
Qed.

Lemma s_rev_append a b : s_rev (a +:+ b) = s_rev b +:+ s_rev a.
Proof.
  induction a as [|c a IH]; [by rewrite string_app_nil_r|].
  rewrite string_app_cons. unfold s_rev at 1 3. simpl.
  rewrite (s_rev_app_append (a +:+ b)), (s_rev_app_append a), IH, <- string_app_assoc. done.
Qed.

Lemma HasSuffix_app a b : HasSuffix (a +:+ b) b = true.
Proof. unfold HasSuffix. rewrite s_rev_append. apply prefix_app. Qed.

Lemma s_rev_involutive s : s_rev (s_rev s) = s.
Proof.
  induction s as [|c s IH]; [done|]. change (String c s) with (String c "" +:+ s).
  rewrite !s_rev_append, IH. done.
Qed.

Lemma prefix_split p s : String.prefix p s = true -> exists t, s = p +:+ t.
Proof.
  revert s. induction p as [|c p IH]; intros s; [by exists s|]. destruct s as [|d s]; [done|]. cbn.
  destruct (ascii_dec c d) as [->|]; [|done]. intros (t & ->)%IH. by exists t.
Qed.

Lemma HasSuffix_split s p : HasSuffix s p = true -> exists t, s = t +:+ p.
Proof.
  unfold HasSuffix. intros (t & E)%prefix_split. exists (s_rev t).
  by rewrite <- (s_rev_involutive s), E, s_rev_append, s_rev_involutive.
Qed.

Lemma s_take_app a b : s_take (String.length a) (a +:+ b) = a.
Proof. induction a; [by destruct b|]. rewrite string_app_cons. simpl. congruence. Qed.

Lemma s_drop_app a b : s_drop (String.length a) (a +:+ b) = b.
Proof. by induction a. Qed.

#[export] Hint Rewrite s_forall_app string_length_app HasSuffix_app s_take_app s_drop_app
  prefix_app : go.

(** ** Rooted paths by their elements *)

(** An element of a clean path, and the clean rooted path of elements. *)
Definition element (c : string) : Prop :=
  c <> "" /\ c <> "." /\ c <> ".." /\ ContainsByte c slash = false.

Definition rooted (elements : list string) : string := String slash (join_slash elements).

Lemma split_on_app c a b : split_on c (a +:+ String c b) = (split_on c a ++ split_on c b)%list.
Proof.
  induction a as [|x a IH].
  - change ("" +:+ String c b) with (String c b). cbn [split_on]. by rewrite Ascii.eqb_refl.
  - change (String x a +:+ String c b) with (String x (a +:+ String c b)). cbn [split_on].
    destruct (Ascii.eqb x c) eqn:E; [by rewrite IH|]. rewrite IH.
    pose proof (split_on_nonempty c a). by destruct (split_on c a).
Qed.

Lemma split_on_none c s : ContainsByte s c = false -> split_on c s = [s].
Proof.
  unfold ContainsByte. rewrite negb_false_iff. induction s as [|x s IH]; [done|].
  cbn [s_forall split_on]. rewrite andb_true_iff, negb_true_iff. intros [-> H]. by rewrite IH.
Qed.

Lemma split_on_elements c s : Forall (fun part => ContainsByte part c = false) (split_on c s).
Proof.
  unfold ContainsByte. induction s as [|x s IH]; cbn [split_on]; [by repeat constructor|].
  destruct (Ascii.eqb x c) eqn:E; [by constructor|].
  destruct (split_on c s) as [|p ps]; [by repeat constructor; cbn; rewrite E|].
  apply Forall_cons in IH as [Hp IH]. constructor; [|done]. cbn. rewrite E. cbn. exact Hp.
Qed.

Lemma join_slash_cons c cs : cs <> [] -> join_slash (c :: cs) = c +:+ String slash (join_slash cs).
Proof. by destruct cs. Qed.

Lemma split_join cs :
  cs <> [] -> Forall element cs -> split_on slash (join_slash cs) = cs.
Proof.
  induction cs as [|c cs IH]; [done|]. intros _ [(_ & _ & _ & Hc) Hcs]%Forall_cons.
  destruct cs as [|d cs]; [by apply split_on_none|].
  rewrite join_slash_cons by done. rewrite split_on_app, IH by done. by rewrite split_on_none.
Qed.

Lemma clean_step_element stack c : element c -> filepath.clean_step true stack c = c :: stack.
Proof.
  intros (H1 & H2 & H3 & _). unfold filepath.clean_step.
  by rewrite !bool_decide_false by done.
Qed.

Lemma fold_clean_elements stack cs :
  Forall element cs -> fold_left (filepath.clean_step true) cs stack = (rev cs ++ stack)%list.
Proof.
  intros H. revert stack. induction H as [|c cs Hc Hcs IH]; intros stack; [done|].
  cbn [fold_left rev]. rewrite clean_step_element by done. rewrite IH. by rewrite <- app_assoc.
Qed.

(** What [Clean] makes of a rooted text has good elements. *)
Lemma fold_clean_good parts stack :
  Forall (fun part => ContainsByte part slash = false) parts -> Forall element stack ->
  Forall element (fold_left (filepath.clean_step true) parts stack).
Proof.
  intros Hp. revert stack. induction Hp as [|p parts Hp _ IH]; intros stack Hs; [done|].
  cbn [fold_left]. apply IH. unfold filepath.clean_step.
  destruct (bool_decide_reflect (p = "")), (bool_decide_reflect (p = ".")); cbn [orb]; try done.
  destruct (bool_decide_reflect (p = "..")); [|by constructor].
  destruct stack as [|top stack]; [done|]. apply Forall_cons in Hs as [Ht Hs].
  destruct Ht as (_ & _ & Ht & _). by rewrite bool_decide_false.
Qed.

Lemma Clean_rooted p : filepath.IsAbs p = true -> exists cs, Forall element cs /\ filepath.Clean p = rooted cs.
Proof.
  intros Ha. unfold filepath.Clean. destruct (bool_decide_reflect (p = "")) as [->|]; [done|]. rewrite Ha.
  exists (rev (fold_left (filepath.clean_step true) (split_on slash p) [])). split; [|done].
  apply Forall_rev, fold_clean_good; [apply split_on_elements|done].
Qed.

Lemma Clean_elements parts cs :
  fold_left (filepath.clean_step true) (split_on slash parts) [] = rev cs ->
  filepath.Clean (String slash parts) = rooted cs.
Proof.
  intros H. unfold filepath.Clean. rewrite bool_decide_false by done.
  assert (filepath.IsAbs (String slash parts) = true) as -> by (unfold filepath.IsAbs, HasPrefix; cbn; by destruct parts). cbn [split_on].
  rewrite Ascii.eqb_refl. cbn [fold_left].
  change (filepath.clean_step true [] "") with (@nil string). rewrite H, rev_involutive. done.
Qed.

Lemma fold_clean_join cs stack :
  Forall element cs ->
  fold_left (filepath.clean_step true) (split_on slash (join_slash cs)) stack = (rev cs ++ stack)%list.
Proof.
  intros H. destruct cs as [|c cs]; [done|]. rewrite split_join by done. by apply fold_clean_elements.
Qed.

Lemma Clean_rooted_id cs : Forall element cs -> filepath.Clean (rooted cs) = rooted cs.
Proof.
  intros H. apply Clean_elements. rewrite fold_clean_join by done. apply app_nil_r.
Qed.

Lemma Join_rooted cs ds :
  Forall element cs -> Forall element ds -> ds <> [] ->
  filepath.Join (rooted cs) (join_slash ds) = rooted (cs ++ ds).
Proof.
  intros Hc Hd Hne. unfold filepath.Join. rewrite (bool_decide_false (rooted cs = "")) by done.
  rewrite bool_decide_false.
  2: { intros E. apply (f_equal (split_on slash)) in E. rewrite split_join in E by done.
       destruct ds as [|d [|]]; try done. injection E as ->. apply Forall_cons in Hd as [(H & _) _]. done. }
  unfold rooted at 1. cbn [String.append]. apply Clean_elements.
  change ("/" +:+ join_slash ds) with (String slash (join_slash ds)). rewrite split_on_app, fold_left_app.
  rewrite fold_clean_join by done. rewrite fold_clean_join by done. by rewrite app_nil_r, rev_app_distr.
Qed.

Lemma path_elements_rooted cs : Forall element cs -> filepath.path_elements (rooted cs) = cs.
Proof.
  intros H. unfold filepath.path_elements. rewrite Clean_rooted_id by done. unfold rooted. cbn [String.append].
  cbn [split_on]. rewrite Ascii.eqb_refl. cbn [List.filter]. rewrite bool_decide_true by done. cbn [negb].
  destruct cs as [|c cs]; [done|]. rewrite split_join by done.
  clear -H. induction H as [|x l (Hx & _) _ IH]; [done|]. cbn [List.filter].
  rewrite bool_decide_false by done. cbn [negb]. by rewrite IH.
Qed.

Lemma Dir_rooted cs d : Forall element (cs ++ [d]) -> filepath.Dir (rooted (cs ++ [d])) = rooted cs.
Proof.
  intros H. unfold filepath.Dir. unfold rooted at 1. cbn [String.append split_on]. rewrite Ascii.eqb_refl.
  rewrite split_join by (done || by destruct cs). unfold filepath.init_last.
  change ("" :: (cs ++ [d])%list) with (("" :: cs) ++ [d])%list. rewrite rev_app_distr.
  cbn [app rev]. rewrite rev_app_distr, rev_involutive. cbn [rev app].
  apply Forall_app in H as [H _]. destruct cs as [|c cs]; [done|].
  rewrite join_slash_cons by done. cbn [String.append]. apply Clean_elements.
  change ("/") with (String slash ""). rewrite split_on_app, fold_left_app, fold_clean_join by done.
  by rewrite app_nil_r.
Qed.

Lemma Clean_append cs ds :
  Forall element cs -> Forall element ds ->
  filepath.Clean (rooted cs +:+ String slash (join_slash ds)) = rooted (cs ++ ds).
Proof.
  intros Hc Hd. unfold rooted at 1.
  change (String slash (join_slash cs) +:+ String slash (join_slash ds)) with
    (String slash (join_slash cs +:+ String slash (join_slash ds))).
  apply Clean_elements. rewrite split_on_app, fold_left_app, !fold_clean_join by done.
  by rewrite app_nil_r, rev_app_distr.
Qed.

Lemma rooted_clean path :
  filepath.IsAbs path = true -> filepath.Clean path = path ->
  path = rooted (filepath.path_elements path) /\ Forall element (filepath.path_elements path).
Proof.
  intros Ha Hc. destruct (Clean_rooted path Ha) as (cs & He & E). rewrite Hc in E. subst path.
  by rewrite path_elements_rooted.
Qed.
