(* ===== verification/GoCrypto.v ===== *)
(** * SHA-256, hexadecimal text and JSON text

    Executable definitions of the standard-library routines that give files,
    artifacts and executions their identities: [crypto/sha256],
    [encoding/hex], [encoding/binary.BigEndian] and the text [json.Marshal]
    writes for strings, numbers, arrays and structs. *)
From stdpp Require Import base strings pretty list.
From Stdlib Require Import Ascii.
From S2P Require Import Prelude GoStrings.

(** ** Bytes of a string *)
Definition string_bytes (s : string) : list Z :=
  map (fun c => Z.of_nat (nat_of_ascii c)) (String.list_ascii_of_string s).

Definition is_byte (b : Z) : Prop := 0 <= b < 256.

(** [binary.BigEndian.PutUint64] and its 32-bit counterpart. *)
Definition be_bytes (n : nat) (v : Z) : list Z :=
  map (fun i => Z.shiftr v (8 * Z.of_nat i) mod 256) (rev (seq 0 n)).

Module sha256.

Definition w32 (z : Z) : Z := Z.land z 4294967295.
Definition add32 (x y : Z) : Z := w32 (x + y).
Definition rotr (x n : Z) : Z := Z.lor (Z.shiftr x n) (w32 (Z.shiftl x (32 - n))).
Definition not32 (x : Z) : Z := 4294967295 - x.

Definition ch (x y z : Z) : Z := Z.lxor (Z.land x y) (Z.land (not32 x) z).
Definition maj (x y z : Z) : Z := Z.lxor (Z.land x y) (Z.lxor (Z.land x z) (Z.land y z)).
Definition big0 (x : Z) : Z := Z.lxor (rotr x 2) (Z.lxor (rotr x 13) (rotr x 22)).
Definition big1 (x : Z) : Z := Z.lxor (rotr x 6) (Z.lxor (rotr x 11) (rotr x 25)).
Definition small0 (x : Z) : Z := Z.lxor (rotr x 7) (Z.lxor (rotr x 18) (Z.shiftr x 3)).
Definition small1 (x : Z) : Z := Z.lxor (rotr x 17) (Z.lxor (rotr x 19) (Z.shiftr x 10)).

(** The constants of the standard are the first 32 bits of the fractional parts
    of roots of the first primes: cube roots for the rounds, square roots for
    the initial chaining value. *)
Definition primes : list Z :=
  [2; 3; 5; 7; 11; 13; 17; 19; 23; 29; 31; 37; 41; 43; 47; 53; 59; 61; 67; 71; 73; 79; 83;
   89; 97; 101; 103; 107; 109; 113; 127; 131; 137; 139; 149; 151; 157; 163; 167; 173; 179;
   181; 191; 193; 197; 199; 211; 223; 227; 229; 233; 239; 241; 251; 257; 263; 269; 271;
   277; 281; 283; 293; 307; 311].

(** The largest [r] of at most [bits] bits more than [root] with [r ^ 3 <= n]. *)
Fixpoint cube_root (bits : nat) (root n : Z) : Z :=
  match bits with
  | O => root
  | S bits =>
      let r := root + 2 ^ Z.of_nat bits in
      cube_root bits (if r * r * r <=? n then r else root) n
  end.

Definition round_constants : list Z :=
  Eval vm_compute in map (fun p => cube_root 40 0 (p * 2 ^ 96) mod 2 ^ 32) primes.

(** The eight words of the chaining value. *)
Record hash := mkHash
  { ha : Z; hb : Z; hc : Z; hd : Z; he : Z; hf : Z; hg : Z; hh : Z }.

Definition square_root_word (p : Z) : Z := Z.sqrt (p * 2 ^ 64) mod 2 ^ 32.

Definition initial : hash :=
  Eval vm_compute in
    mkHash (square_root_word 2) (square_root_word 3) (square_root_word 5) (square_root_word 7)
      (square_root_word 11) (square_root_word 13) (square_root_word 17) (square_root_word 19).

Fixpoint words (fuel : nat) (bs : list Z) : list Z :=
  match fuel, bs with
  | S fuel, a :: b :: c :: d :: rest =>
      (Z.lor (Z.shiftl a 24) (Z.lor (Z.shiftl b 16) (Z.lor (Z.shiftl c 8) d))) :: words fuel rest
  | _, _ => []
  end.

(** The message schedule, kept with the latest word first. *)
Fixpoint extend (n : nat) (rw : list Z) : list Z :=
  match n with
  | O => rw
  | S n =>
      let w k := nth k rw 0 in
      extend n (w32 (small1 (w 1%nat) + w 6%nat + small0 (w 14%nat) + w 15%nat) :: rw)
  end.

Definition step (h : hash) (kw : Z * Z) : hash :=
  let t1 := w32 (hh h + big1 (he h) + ch (he h) (hf h) (hg h) + kw.1 + kw.2) in
  let t2 := w32 (big0 (ha h) + maj (ha h) (hb h) (hc h)) in
  mkHash (add32 t1 t2) (ha h) (hb h) (hc h) (add32 (hd h) t1) (he h) (hf h) (hg h).

Definition compress (h : hash) (block : list Z) : hash :=
  let schedule := rev (extend 48 (rev (words 16 block))) in
  let g := fold_left step (combine round_constants schedule) h in
  mkHash (add32 (ha h) (ha g)) (add32 (hb h) (hb g)) (add32 (hc h) (hc g)) (add32 (hd h) (hd g))
         (add32 (he h) (he g)) (add32 (hf h) (hf g)) (add32 (hg h) (hg g)) (add32 (hh h) (hh g)).

Definition pad (m : list Z) : list Z :=
  let len := Z.of_nat (length m) in
  let zeros := Z.to_nat ((55 - len) mod 64) in
  m ++ [128] ++ repeat 0 zeros ++ be_bytes 8 (8 * len).

Fixpoint blocks (fuel : nat) (bs : list Z) (h : hash) : hash :=
  match fuel, bs with
  | S fuel, _ :: _ => blocks fuel (drop 64 bs) (compress h (take 64 bs))
  | _, _ => h
  end.

Definition hash_words (h : hash) : list Z :=
  [ha h; hb h; hc h; hd h; he h; hf h; hg h; hh h].

(** [sha256.Sum256]. *)
Definition Sum256 (m : list Z) : list Z :=
  let padded := pad m in
  flat_map (be_bytes 4) (hash_words (blocks (length padded) padded initial)).

Example Sum256_abc :
  take 4 (Sum256 (string_bytes "abc")) = [0xba; 0x78; 0x16; 0xbf].
Proof. vm_compute. reflexivity. Qed.

End sha256.

(** ** [hex.EncodeToString] *)
Definition hex_digit (n : Z) : ascii :=
  ascii_of_nat (Z.to_nat (if bool_decide (n < 10) then 48 + n else 87 + n)).

Fixpoint hex_encode (bs : list Z) : string :=
  match bs with
  | [] => ""
  | b :: bs => String (hex_digit (b / 16)) (String (hex_digit (b mod 16)) (hex_encode bs))
  end.

(** The characters the digest checks accept. *)
Definition is_lower_hex (c : ascii) : bool :=
  let n := nat_of_ascii c in
  ((48 <=? n) && (n <=? 57) || (97 <=? n) && (n <=? 102))%nat.

Definition sha256_hex (payload : list Z) : string := hex_encode (sha256.Sum256 payload).

(** ** Lemmas *)

Lemma be_bytes_length n v : length (be_bytes n v) = n.
Proof. unfold be_bytes. rewrite length_map, length_rev, length_seq. done. Qed.

Lemma be_bytes_byte n v : Forall is_byte (be_bytes n v).
Proof.
  unfold be_bytes. apply Forall_map, Forall_true. intros i.
  apply Z.mod_pos_bound. lia.
Qed.

Lemma Sum256_length m : length (sha256.Sum256 m) = 32%nat.
Proof.
  unfold sha256.Sum256, sha256.hash_words. simpl.
  rewrite ?length_app, ?be_bytes_length. done.
Qed.

Lemma Sum256_byte m : Forall is_byte (sha256.Sum256 m).
Proof.
  unfold sha256.Sum256, sha256.hash_words. cbn [flat_map].
  rewrite !Forall_app. repeat split; auto using be_bytes_byte.
Qed.

Lemma hex_encode_length bs : String.length (hex_encode bs) = (2 * length bs)%nat.
Proof. induction bs; simpl; lia. Qed.

Lemma hex_digit_lower n : 0 <= n < 16 -> is_lower_hex (hex_digit n) = true.
Proof.
  intros H. rewrite <- (Z2Nat.id n) by lia.
  assert (forallb (fun k => is_lower_hex (hex_digit (Z.of_nat k))) (seq 0 16) = true)
    as Hall by reflexivity.
  rewrite List.forallb_forall in Hall. apply Hall, in_seq. lia.
Qed.

Lemma hex_encode_lower bs :
  Forall is_byte bs -> s_forall is_lower_hex (hex_encode bs) = true.
Proof.
  induction 1 as [|b bs Hb _ IH]; [done|]. cbn [hex_encode s_forall].
  unfold is_byte in Hb.
  rewrite IH, !hex_digit_lower.
  - done.
  - pose proof (Z.mod_pos_bound b 16). lia.
  - split; [apply Z.div_pos; lia|apply Z.div_lt_upper_bound; lia].
Qed.

(** A big-endian word of [n] bytes determines its value modulo [2 ^ (8 n)]. *)
Lemma be_bytes_step n v :
  be_bytes (S n) v = Z.shiftr v (8 * Z.of_nat n) mod 256 :: be_bytes n v.
Proof. unfold be_bytes. by rewrite seq_S, rev_app_distr. Qed.

Lemma be_bytes_inj n v w :
  be_bytes n v = be_bytes n w -> v mod 2 ^ (8 * Z.of_nat n) = w mod 2 ^ (8 * Z.of_nat n).
Proof.
  induction n as [|n IH]; [by rewrite !Z.mod_1_r|].
  rewrite !be_bytes_step. intros [= Hd Ht]. specialize (IH Ht).
  replace (8 * Z.of_nat (S n)) with (8 * Z.of_nat n + 8) by lia.
  rewrite Z.pow_add_r by lia.
  rewrite !Z.rem_mul_r by lia. rewrite IH. do 2 f_equal.
  rewrite !Z.shiftr_div_pow2 in Hd by lia. exact Hd.
Qed.

Lemma be64_inj v w :
  0 <= v < 2 ^ 64 -> 0 <= w < 2 ^ 64 -> be_bytes 8 v = be_bytes 8 w -> v = w.
Proof.
  intros Hv Hw H%be_bytes_inj. change (8 * Z.of_nat 8) with 64 in H.
  rewrite !Z.mod_small in H by done. done.
Qed.

(** ** [json.Marshal]

    The text written for the structs that identify an execution. A struct is
    an object with its fields in declaration order, a pointer is its target or
    [null], and strings are escaped as [encoding/json] does by default, HTML
    characters included. *)
Module json.

Inductive value : Type :=
| Null
| Bool (b : bool)
| Int (z : Z)
| Str (s : string)
| Arr (vs : list value)
| Obj (fields : list (string * value)).

Definition quote : string := bytes [34]%nat.
Definition backslash : string := bytes [92]%nat.

Definition hex4 (n : Z) : string :=
  String (hex_digit (n / 4096 mod 16)) (String (hex_digit (n / 256 mod 16))
    (String (hex_digit (n / 16 mod 16)) (String (hex_digit (n mod 16)) ""))).

Definition escape_u (n : Z) : string := backslash +:+ "u" +:+ hex4 n.

Definition raw (bs : list Z) : string :=
  fold_right (fun b s => String (ascii_of_nat (Z.to_nat b)) s) "" bs.

Definition between (lo b hi : Z) : bool := (lo <=? b) && (b <=? hi).

(** How many bytes the UTF-8 sequence at the front has; 0 when it is invalid. *)
Definition rune_len (bs : list Z) : nat :=
  match bs with
  | [] => 0%nat
  | b0 :: rest =>
      if between 0 b0 127 then 1%nat
      else match rest with
      | [] => 0%nat
      | b1 :: rest =>
          if between 194 b0 223 then (if between 128 b1 191 then 2%nat else 0%nat)
          else match rest with
          | [] => 0%nat
          | b2 :: rest =>
              if (bool_decide (b0 = 224) && between 160 b1 191
                  || between 225 b0 236 && between 128 b1 191
                  || bool_decide (b0 = 237) && between 128 b1 159
                  || between 238 b0 239 && between 128 b1 191) && between 128 b2 191
              then 3%nat
              else match rest with
              | [] => 0%nat
              | b3 :: _ =>
                  if (bool_decide (b0 = 240) && between 144 b1 191
                      || between 241 b0 243 && between 128 b1 191
                      || bool_decide (b0 = 244) && between 128 b1 143)
                     && between 128 b2 191 && between 128 b3 191
                  then 4%nat else 0%nat
              end
          end
      end
  end.

(** The text of one ASCII byte inside a string literal. *)
Definition escape_ascii (b : Z) : string :=
  if bool_decide (b = 34) then backslash +:+ quote
  else if bool_decide (b = 92) then backslash +:+ backslash
  else if bool_decide (b = 8) then backslash +:+ "b"
  else if bool_decide (b = 12) then backslash +:+ "f"
  else if bool_decide (b = 10) then backslash +:+ "n"
  else if bool_decide (b = 13) then backslash +:+ "r"
  else if bool_decide (b = 9) then backslash +:+ "t"
  else if (b <? 32) || bool_decide (b = 60) || bool_decide (b = 62) || bool_decide (b = 38)
  then escape_u b
  else raw [b].

Fixpoint escape (fuel : nat) (bs : list Z) : string :=
  match fuel, bs with
  | S fuel, b :: rest =>
      match rune_len bs with
      | 0%nat => escape_u 65533 +:+ escape fuel rest
      | 1%nat => escape_ascii b +:+ escape fuel rest
      | n =>
          let rune := take n bs in
          (if bool_decide (rune = [226; 128; 168]) then escape_u 8232
           else if bool_decide (rune = [226; 128; 169]) then escape_u 8233
           else raw rune) +:+ escape fuel (drop n bs)
      end
  | _, _ => ""
  end.

Definition string_text (s : string) : string :=
  quote +:+ escape (String.length s) (string_bytes s) +:+ quote.

Fixpoint text (v : value) : string :=
  match v with
  | Null => "null"
  | Bool b => if b then "true" else "false"
  | Int z => pretty z
  | Str s => string_text s
  | Arr vs => "[" +:+ String.concat "," (map text vs) +:+ "]"
  | Obj fields =>
      "{" +:+ String.concat "," (map (fun f => string_text f.1 +:+ ":" +:+ text f.2) fields) +:+ "}"
  end.

Definition ptr {A} (f : A -> value) (o : option A) : value :=
  match o with Some a => f a | None => Null end.

End json.
