(* ===== verification/FileIdentity.v ===== *)
(** * File and artifact identities

    [internal/fileidentity/fingerprint.go] and
    [internal/repairartifact/name.go]: the fingerprints that bind an
    authorization to one observed file, and the names published repairs get. *)
From stdpp Require Import base strings list sets.
From Stdlib Require Import Ascii.
From S2P Require Import Prelude GoStrings GoCrypto.

Definition strictFingerprintDomain : string := "radarr-repair-file-metadata-v1" +:+ bytes [0%nat].
Definition stableFingerprintDomain : string := "media-repair-file-identity-v1" +:+ bytes [0%nat].

(** [Device] and [Inode] are [uint64]; [SizeBytes] and [MTimeNS] are [int64]. *)
Record Snapshot := mkSnapshot
  { Device : Z; Inode : Z; SizeBytes : Z; MTimeNS : Z }.

#[global] Instance Snapshot_eq_dec : EqDecision Snapshot.
Proof. solve_decision. Defined.

Definition snapshot_range (s : Snapshot) : Prop :=
  0 <= Device s < 2 ^ 64 /\ 0 <= Inode s < 2 ^ 64 /\
  int64_range (SizeBytes s) /\ int64_range (MTimeNS s).

(** The bytes [fingerprint] hashes: the domain, then each field as an unsigned
    64-bit big-endian word. *)
Definition fingerprint_payload (domain : string) (values : list Z) : list Z :=
  string_bytes domain ++ flat_map (be_bytes 8) values.

Definition fingerprint (domain : string) (values : list Z) : string :=
  "sha256:" +:+ sha256_hex (fingerprint_payload domain values).

Definition strict_fields (s : Snapshot) : list Z :=
  [Device s; Inode s; to_uint64 (SizeBytes s); to_uint64 (MTimeNS s)].

Definition StrictFingerprint (s : Snapshot) : string :=
  fingerprint strictFingerprintDomain (strict_fields s).

Definition stable_fields (s : Snapshot) : list Z :=
  [Inode s; to_uint64 (SizeBytes s); to_uint64 (MTimeNS s)].

Definition StableFingerprint (s : Snapshot) : string :=
  fingerprint stableFingerprintDomain (stable_fields s).

(** The value the repository's own test fixes for the strict encoding. *)
Example StrictFingerprint_vector :
  StrictFingerprint
    (mkSnapshot 0x0102030405060708 0x1112131415161718 0x2122232425262728 0x3132333435363738) =
  "sha256:0cd0308142123f17781c577fb8ad2abb4d4462d57c7e61cbc90898660d8eb87b".
Proof. vm_compute. reflexivity. Qed.

(** ** Published names *)

Definition publishedNameDomain : string :=
  "radarr-repair-worker-published-name-v1" +:+ bytes [0%nat].
Definition publishedNamePrefix : string := "radarr-repair-".

Definition PublishedName (artifactID extension : string) : string :=
  publishedNamePrefix +:+
  sha256_hex (string_bytes publishedNameDomain ++ string_bytes artifactID) +:+ extension.

Definition cut_suffix (s suffix : string) : option string :=
  if HasSuffix s suffix
  then Some (s_take (String.length s - String.length suffix) s) else None.
Definition cut_prefix (s p : string) : option string :=
  if HasPrefix s p then Some (s_drop (String.length p) s) else None.

Fixpoint published_with (extensions : list string) (name : string) : bool :=
  match extensions with
  | [] => false
  | extension :: rest =>
      match cut_suffix name extension with
      | None => published_with rest name
      | Some stem =>
          match cut_prefix stem publishedNamePrefix with
          | None => false
          | Some digest =>
              bool_decide (String.length digest = 64%nat) && s_forall is_lower_hex digest
          end
      end
  end.

Definition IsPublishedName (name : string) : bool :=
  if ContainsByte name slash || ContainsByte name (byte 92) then false
  else published_with [".avi"; ".mkv"; ".mp4"] name.

(** ** What the identities determine *)

Lemma string_bytes_cons c s :
  string_bytes (String c s) = Z.of_nat (nat_of_ascii c) :: string_bytes s.
Proof. done. Qed.

Lemma flat_map_be64_inj vs ws :
  Forall (fun v => 0 <= v < 2 ^ 64) vs -> Forall (fun v => 0 <= v < 2 ^ 64) ws ->
  length vs = length ws ->
  flat_map (be_bytes 8) vs = flat_map (be_bytes 8) ws -> vs = ws.
Proof.
  intros Hvs. revert ws. induction Hvs as [|v vs Hv _ IH]; intros [|w ws] Hws Hlen Heq;
    try done. apply Forall_cons in Hws as [Hw Hws]. cbn [flat_map] in Heq.
  apply app_inj_1 in Heq as [Hhead Htail]; [|by rewrite !be_bytes_length].
  f_equal; [by apply be64_inj|]. apply IH; auto.
Qed.

Lemma to_uint64_range z : 0 <= to_uint64 z < 2 ^ 64.
Proof. apply Z.mod_pos_bound. lia. Qed.

(** Reading a signed field as an unsigned word loses nothing. *)
Lemma to_uint64_inj x y :
  int64_range x -> int64_range y -> to_uint64 x = to_uint64 y -> x = y.
Proof.
  unfold int64_range, to_uint64. intros Hx Hy H.
  rewrite (Z.mod_eq x), (Z.mod_eq y) in H by lia.
  assert (-1 <= x / 2 ^ 64 <= 0) by (split; [apply Z.div_le_lower_bound|apply Z.lt_succ_r, Z.div_lt_upper_bound]; lia).
  assert (-1 <= y / 2 ^ 64 <= 0) by (split; [apply Z.div_le_lower_bound|apply Z.lt_succ_r, Z.div_lt_upper_bound]; lia).
  nia.
Qed.

Lemma strict_fields_range s :
  snapshot_range s -> Forall (fun v => 0 <= v < 2 ^ 64) (strict_fields s).
Proof.
  intros (? & ? & _ & _). repeat (constructor; auto using to_uint64_range).
Qed.

Lemma strict_fields_inj s t :
  snapshot_range s -> snapshot_range t -> strict_fields s = strict_fields t -> s = t.
Proof.
  destruct s, t. unfold snapshot_range. simpl. intros (_ & _ & ? & ?) (_ & _ & ? & ?) [= -> -> ? ?].
  f_equal; by apply to_uint64_inj.
Qed.

Lemma sha256_hex_length payload : String.length (sha256_hex payload) = 64%nat.
Proof. unfold sha256_hex. by rewrite hex_encode_length, Sum256_length. Qed.

Lemma sha256_hex_lower payload : s_forall is_lower_hex (sha256_hex payload) = true.
Proof. apply hex_encode_lower, Sum256_byte. Qed.

(** Two snapshots whose metadata differs in any field never feed the same
    bytes to SHA-256: a strict fingerprint confuses them only through a
    collision of the hash itself. *)
Theorem strict_payload_injective (s t : Snapshot) :
  snapshot_range s -> snapshot_range t ->
  fingerprint_payload strictFingerprintDomain (strict_fields s) =
  fingerprint_payload strictFingerprintDomain (strict_fields t) ->
  s = t.
Proof.
  intros Hs Ht H. unfold fingerprint_payload in H. apply app_inj_1 in H as [_ H]; [|done].
  apply strict_fields_inj; [done..|].
  apply flat_map_be64_inj; auto using strict_fields_range.
Qed.

Lemma cut_suffix_app a b : cut_suffix (a +:+ b) b = Some a.
Proof.
  unfold cut_suffix. rewrite HasSuffix_app, string_length_app, Nat.add_sub.
  by rewrite s_take_app.
Qed.

Lemma cut_prefix_app p s : cut_prefix (p +:+ s) p = Some s.
Proof. unfold cut_prefix, HasPrefix. by rewrite prefix_app, s_drop_app. Qed.

Lemma no_separator (s : string) (c : ascii) :
  s_forall (fun x => negb (Ascii.eqb x c)) s = true -> ContainsByte s c = false.
Proof. unfold ContainsByte. by intros ->. Qed.

Lemma hex_no_separator digest c :
  is_lower_hex c = false -> s_forall is_lower_hex digest = true ->
  s_forall (fun x => negb (Ascii.eqb x c)) digest = true.
Proof.
  intros Hc. apply s_forall_mono. intros x Hx.
  by destruct (Ascii.eqb_spec x c) as [->|]; [congruence|].
Qed.

Lemma published_head ext rest digest :
  String.length digest = 64%nat -> s_forall is_lower_hex digest = true ->
  published_with (ext :: rest) (publishedNamePrefix +:+ digest +:+ ext) = true.
Proof.
  intros Hlen Hhex. cbn [published_with].
  by rewrite string_app_assoc, cut_suffix_app, cut_prefix_app, Hhex, Hlen.
Qed.

Lemma published_skip ext ext' rest stem :
  HasSuffix (stem +:+ ext') ext = false ->
  published_with (ext :: rest) (stem +:+ ext') = published_with rest (stem +:+ ext').
Proof. intros Hs. cbn [published_with]. unfold cut_suffix. by rewrite Hs. Qed.

(** The name a repaired artifact is published under is one the inventory
    recognises as a published repair, whatever the artifact identifier. *)
Theorem PublishedName_recognised (artifactID extension : string) :
  extension ∈ [".avi"; ".mkv"; ".mp4"] ->
  IsPublishedName (PublishedName artifactID extension) = true.
Proof.
  intros Hext. unfold IsPublishedName, PublishedName.
  set (digest := sha256_hex _).
  assert (s_forall is_lower_hex digest = true) as Hhex by apply sha256_hex_lower.
  assert (String.length digest = 64%nat) as Hlen by apply sha256_hex_length.
  clearbody digest.
  assert (extension = ".avi" \/ extension = ".mkv" \/ extension = ".mp4") as Hcases
    by set_solver.
  assert (forall c, is_lower_hex c = false -> s_forall (fun x => negb (Ascii.eqb x c))
    (publishedNamePrefix +:+ extension) = true -> ContainsByte
    (publishedNamePrefix +:+ digest +:+ extension) c = false) as Hclean.
  { intros c Hc Hrest. apply no_separator. rewrite !s_forall_app in *.
    rewrite (hex_no_separator digest c) by done. by rewrite andb_true_l. }
  rewrite !Hclean; [|done|by destruct Hcases as [->|[->| ->]]|done|by destruct Hcases as [->|[->| ->]]].
  cbn [orb]. destruct Hcases as [->|[->| ->]].
  - by apply published_head.
  - rewrite string_app_assoc, published_skip, <- string_app_assoc.
    + by apply published_head.
    + unfold HasSuffix. by rewrite s_rev_append.
  - rewrite string_app_assoc, published_skip, published_skip, <- string_app_assoc.
    + by apply published_head.
    + unfold HasSuffix. by rewrite s_rev_append.
    + unfold HasSuffix. by rewrite s_rev_append.
Qed.
