(* ===== verification/Probe.v ===== *)
(** * Media probe evidence and durations

    [internal/controller/probe.go], [duration.go] and [join_duration.go]: the
    normalised [ffprobe] facts of a file, the duration they support, and the
    duration a join of several files is expected to have. *)
From stdpp Require Import base strings list sets.
From S2P Require Import Prelude.

(** ** Evidence (probe.go)

    Go strings with named constants ([type ProbeStreamKind string]) stay
    strings where their value comes from outside the program. *)
Definition ProbeStreamKind := string.
Definition ProbeStreamVideo : ProbeStreamKind := "video".
Definition ProbeStreamAudio : ProbeStreamKind := "audio".
Definition ProbeStreamSubtitle : ProbeStreamKind := "subtitle".

Record Rational := mkRational { Numerator : Z; Denominator : Z }.

Record ProbeTag := mkProbeTag { tag_Name : string; tag_Value : string }.

Record ProbeFormat := mkProbeFormat
  { pf_Names : list string; pf_LongName : option string;
    pf_StreamCount : option Z; pf_ProgramCount : option Z;
    pf_StartTimeMS : option Z; pf_DurationMS : option Z;
    pf_SizeBytes : option Z; pf_BitRateBPS : option Z;
    pf_ProbeScore : option Z; pf_Tags : list ProbeTag }.

Record ProbeDisposition := mkProbeDisposition
  { pd_Default : option bool; pd_Forced : option bool;
    pd_HearingImpaired : option bool; pd_VisualImpaired : option bool }.

Record ProbeStream := mkProbeStream
  { ps_Index : Z; ps_Kind : option ProbeStreamKind;
    ps_CodecName : option string; ps_CodecLongName : option string;
    ps_Profile : option string; ps_CodecTag : option string;
    ps_Width : option Z; ps_Height : option Z;
    ps_PixelFormat : option string; ps_SampleFormat : option string;
    ps_SampleRateHz : option Z; ps_Channels : option Z;
    ps_ChannelLayout : option string; ps_FrameRate : option Rational;
    ps_AverageRate : option Rational; ps_TimeBase : option Rational;
    ps_StartTicks : option Z; ps_StartTimeMS : option Z;
    ps_DurationTicks : option Z; ps_DurationMS : option Z;
    ps_BitRateBPS : option Z; ps_FrameCount : option Z;
    ps_Disposition : option ProbeDisposition; ps_Tags : list ProbeTag }.

Record ProbeProgram := mkProbeProgram
  { pp_ID : Z; pp_Number : option Z; pp_StreamCount : option Z;
    pp_PMTPID : option Z; pp_PCRPID : option Z;
    pp_StreamIndexes : list Z; pp_Tags : list ProbeTag }.

Record ProbeChapter := mkProbeChapter
  { pc_ID : Z; pc_TimeBase : option Rational; pc_StartTicks : option Z;
    pc_StartTimeMS : option Z; pc_EndTicks : option Z; pc_EndTimeMS : option Z;
    pc_Tags : list ProbeTag }.

Record ProbeEvidence := mkProbeEvidence
  { pe_Format : ProbeFormat; pe_Streams : list ProbeStream;
    pe_Programs : list ProbeProgram; pe_Chapters : list ProbeChapter }.

Inductive MediaProbeStatus :=
| MediaProbeSucceeded | MediaProbeFailed | MediaProbeNotCollected.

Record MediaProbeOutcome := mkMediaProbeOutcome
  { mpo_Status : MediaProbeStatus; mpo_Evidence : option ProbeEvidence;
    mpo_Reason : string }.

#[global] Instance Rational_eq_dec : EqDecision Rational.
Proof. solve_decision. Defined.
#[global] Instance ProbeTag_eq_dec : EqDecision ProbeTag.
Proof. solve_decision. Defined.
#[global] Instance ProbeFormat_eq_dec : EqDecision ProbeFormat.
Proof. solve_decision. Defined.
#[global] Instance ProbeDisposition_eq_dec : EqDecision ProbeDisposition.
Proof. solve_decision. Defined.
#[global] Instance ProbeStream_eq_dec : EqDecision ProbeStream.
Proof. solve_decision. Defined.
#[global] Instance ProbeProgram_eq_dec : EqDecision ProbeProgram.
Proof. solve_decision. Defined.
#[global] Instance ProbeChapter_eq_dec : EqDecision ProbeChapter.
Proof. solve_decision. Defined.
#[global] Instance ProbeEvidence_eq_dec : EqDecision ProbeEvidence.
Proof. solve_decision. Defined.
#[global] Instance MediaProbeStatus_eq_dec : EqDecision MediaProbeStatus.
Proof. solve_decision. Defined.
#[global] Instance MediaProbeOutcome_eq_dec : EqDecision MediaProbeOutcome.
Proof. solve_decision. Defined.

Definition zero_ProbeFormat : ProbeFormat :=
  mkProbeFormat [] None None None None None None None None [].
Definition zero_ProbeEvidence : ProbeEvidence :=
  mkProbeEvidence zero_ProbeFormat [] [] [].
Definition zero_ProbeStream : ProbeStream :=
  mkProbeStream 0 None None None None None None None None None None None None None
    None None None None None None None None None [].

(** ** Duration of one file (duration.go) *)

Definition durationAgreementToleranceMS : Z := 1000.

Inductive EffectiveDurationSource :=
| DurationSourceFormat | DurationSourceLongestStream
| DurationSourceConsistentFormatAndStream | DurationSourceUnknown.

Record ProbeDurationAssessment := mkProbeDurationAssessment
  { da_FormatMS : option Z; da_LongestStreamMS : option Z;
    da_EffectiveMS : option Z; da_Source : EffectiveDurationSource;
    da_Conflict : bool }.

Definition usableDuration (duration : option Z) : option Z :=
  match duration with
  | Some d => if bool_decide (d <= 0) then None else Some d
  | None => None
  end.

Definition av_stream (stream : ProbeStream) : bool :=
  match ps_Kind stream with
  | None => false
  | Some kind => bool_decide (kind = ProbeStreamVideo) || bool_decide (kind = ProbeStreamAudio)
  end.

(** One iteration of the loop of [longestAVStreamDuration]. *)
Definition longest_step (longest : option Z) (stream : ProbeStream) : option Z :=
  if negb (av_stream stream) then longest
  else match usableDuration (ps_DurationMS stream), longest with
       | Some d, None => Some d
       | Some d, Some l => if bool_decide (l < d) then Some d else longest
       | None, _ => longest
       end.

Definition longestAVStreamDuration (streams : list ProbeStream) : option Z :=
  fold_left longest_step streams None.

Definition AssessProbeDuration (evidence : ProbeEvidence) : ProbeDurationAssessment :=
  let formatDuration := usableDuration (pf_DurationMS (pe_Format evidence)) in
  let streamDuration := longestAVStreamDuration (pe_Streams evidence) in
  let assessment effective source conflict :=
    mkProbeDurationAssessment formatDuration streamDuration effective source conflict in
  match formatDuration, streamDuration with
  | None, None => assessment None DurationSourceUnknown false
  | Some f, None => assessment (Some f) DurationSourceFormat false
  | None, Some s => assessment (Some s) DurationSourceLongestStream false
  | Some f, Some s =>
      let '(shorter, longer) := if bool_decide (f > s) then (s, f) else (f, s) in
      if bool_decide (sub64 longer shorter > durationAgreementToleranceMS)
      then assessment None DurationSourceUnknown true
      else assessment (Some longer) DurationSourceConsistentFormatAndStream false
  end.

(** ** Duration of a join (join_duration.go) *)

Definition joinMuxToleranceMS : Z := 1000.

Inductive JoinDurationIssueReason :=
| JoinDurationTooFewParts | JoinDurationMissing | JoinDurationConflict | JoinDurationOverflow.

Record JoinDurationIssue := mkJoinDurationIssue
  { jdi_Reason : JoinDurationIssueReason; jdi_PartPosition : option Z }.

Record JoinDurationAssessment := mkJoinDurationAssessment
  { jd_Parts : list ProbeDurationAssessment; jd_ExpectedMS : option Z;
    jd_ToleranceMS : option Z; jd_Issue : option JoinDurationIssue }.

Definition absoluteDifference (left right : Z) : Z :=
  if bool_decide (left < right) then sub64 right left else sub64 left right.

Definition part_tolerance (part : ProbeDurationAssessment) : Z :=
  match da_FormatMS part, da_LongestStreamMS part with
  | Some f, Some s => absoluteDifference f s
  | _, _ => durationAgreementToleranceMS
  end.

(** The accumulation loop of [AssessJoinDuration], from part [position] on. *)
Fixpoint join_duration_loop (position expected tolerance : Z)
    (parts : list ProbeDurationAssessment) : (Z * Z) + JoinDurationIssue :=
  match parts with
  | [] => inl (expected, tolerance)
  | part :: rest =>
      let issue reason := inr (mkJoinDurationIssue reason (Some position)) in
      if da_Conflict part then issue JoinDurationConflict
      else match da_EffectiveMS part with
      | None => issue JoinDurationMissing
      | Some effective =>
          if bool_decide (effective > sub64 max_int64 expected) then issue JoinDurationOverflow
          else if bool_decide (part_tolerance part > sub64 max_int64 tolerance)
          then issue JoinDurationOverflow
          else join_duration_loop (position + 1) (add64 expected effective)
                 (add64 tolerance (part_tolerance part)) rest
      end
  end.

Definition AssessJoinDuration (parts : list ProbeEvidence) : JoinDurationAssessment :=
  let assessed := map AssessProbeDuration parts in
  if bool_decide (length parts < 2)%nat
  then mkJoinDurationAssessment assessed None None
         (Some (mkJoinDurationIssue JoinDurationTooFewParts None))
  else match join_duration_loop 0 0 joinMuxToleranceMS assessed with
       | inl (expected, tolerance) =>
           mkJoinDurationAssessment assessed (Some expected) (Some tolerance) None
       | inr issue => mkJoinDurationAssessment assessed None None (Some issue)
       end.

(** ** Properties *)

(** Every duration in the evidence is a 64-bit integer. *)
Definition evidence_range (e : ProbeEvidence) : Prop :=
  (forall d, pf_DurationMS (pe_Format e) = Some d -> int64_range d) /\
  Forall (fun s => forall d, ps_DurationMS s = Some d -> int64_range d) (pe_Streams e).

(** The positive durations of the audio and video streams. *)
Definition usable_stream_durations (streams : list ProbeStream) : list Z :=
  omap (fun s => if av_stream s then usableDuration (ps_DurationMS s) else None) streams.

Definition max_duration (l : list Z) : option Z :=
  match l with [] => None | d :: l => Some (foldr Z.max d l) end.

Lemma usableDuration_Some d x :
  usableDuration d = Some x <-> d = Some x /\ 0 < x.
Proof. unfold usableDuration. repeat (case_next || case_bool_decide); naive_solver lia. Qed.

Lemma longest_step_omap longest s :
  longest_step longest s =
  match (if av_stream s then usableDuration (ps_DurationMS s) else None) with
  | Some d => Some (match longest with Some l => Z.max l d | None => d end)
  | None => longest
  end.
Proof.
  unfold longest_step. destruct (av_stream s); simpl; [|done].
  destruct (usableDuration _); [|done]. destruct longest; [|done].
  case_bool_decide; f_equal; lia.
Qed.

Lemma longest_fold streams acc :
  fold_left longest_step streams acc =
  match acc with
  | Some l => Some (foldr Z.max l (usable_stream_durations streams))
  | None => max_duration (usable_stream_durations streams)
  end.
Proof.
  revert acc. unfold usable_stream_durations.
  induction streams as [|s streams IH]; intros acc; [by destruct acc|].
  cbn [fold_left]. rewrite longest_step_omap, IH. csimpl.
  destruct (if av_stream s then _ else None) as [d|]; [|done].
  destruct acc as [l|]; [|done]. f_equal. simpl.
  generalize (omap (fun s => if av_stream s then usableDuration (ps_DurationMS s) else None) streams).
  intros xs. induction xs as [|x xs IHx]; simpl; [lia|]. rewrite IHx. lia.
Qed.

Lemma longest_correct streams :
  longestAVStreamDuration streams = max_duration (usable_stream_durations streams).
Proof. apply longest_fold. Qed.

Lemma max_duration_elem l d :
  max_duration l = Some d -> d ∈ l /\ forall x, x ∈ l -> x <= d.
Proof.
  destruct l as [|y l]; simpl; [done|]. intros [= <-].
  induction l as [|x l IH]; simpl; [set_solver by lia|].
  destruct IH as [Hin Hmax]. split.
  - destruct (Z.max_spec x (foldr Z.max y l)) as [[_ ->]|[_ ->]]; [|set_solver].
    set_solver.
  - intros z Hz. assert (z = x \/ z ∈ y :: l) as [->|Hz'] by set_solver; [lia|].
    specialize (Hmax z Hz'). lia.
Qed.

Lemma usable_stream_range streams d :
  Forall (fun s => forall d, ps_DurationMS s = Some d -> int64_range d) streams ->
  d ∈ usable_stream_durations streams -> 0 < d /\ int64_range d.
Proof.
  intros Hr (s & Hs & Hd)%list_elem_of_omap. rewrite Forall_forall in Hr.
  destruct (av_stream s); [|done]. apply usableDuration_Some in Hd as [Hd ?].
  split; [done|]. by apply (Hr s).
Qed.

(** What the assessment should report: the larger of the two sources when they
    agree to within a second. *)
Definition reference_duration (e : ProbeEvidence) : option Z :=
  match usableDuration (pf_DurationMS (pe_Format e)),
        max_duration (usable_stream_durations (pe_Streams e)) with
  | Some f, Some s => if bool_decide (Z.abs (f - s) <= 1000) then Some (Z.max f s) else None
  | Some d, None | None, Some d => Some d
  | None, None => None
  end.

Definition durations_disagree (e : ProbeEvidence) : Prop :=
  exists f s, usableDuration (pf_DurationMS (pe_Format e)) = Some f /\
    max_duration (usable_stream_durations (pe_Streams e)) = Some s /\ 1000 < Z.abs (f - s).

Lemma source_range e :
  evidence_range e ->
  (forall f, usableDuration (pf_DurationMS (pe_Format e)) = Some f -> 0 < f <= max_int64) /\
  (forall s, max_duration (usable_stream_durations (pe_Streams e)) = Some s -> 0 < s <= max_int64).
Proof.
  unfold max_int64. intros [Hf Hs]. split.
  - intros f [Hd ?]%usableDuration_Some. specialize (Hf _ Hd). unfold int64_range in Hf. lia.
  - intros s [Hin _]%max_duration_elem.
    destruct (usable_stream_range _ _ Hs Hin) as [? Hr]. unfold int64_range in Hr. lia.
Qed.

Lemma AssessProbeDuration_reference e :
  evidence_range e ->
  da_EffectiveMS (AssessProbeDuration e) = reference_duration e /\
  (da_Conflict (AssessProbeDuration e) = true <-> durations_disagree e).
Proof.
  intros He. destruct (source_range e He) as [Hf Hs].
  unfold AssessProbeDuration, reference_duration, durations_disagree,
    durationAgreementToleranceMS. rewrite longest_correct.
  destruct (usableDuration _) as [f|] eqn:Ef, (max_duration _) as [s|] eqn:Es; simpl;
    try (split; [done|]; split; [done|naive_solver]).
  specialize (Hf f eq_refl). specialize (Hs s eq_refl).
  case_bool_decide; simpl; rewrite sub64_small by lia; repeat case_bool_decide; simpl;
    split; try lia; try (f_equal; lia); (split; [intros|intros (? & ? & [= <-] & [= <-] & ?)]);
    eauto with lia.
Qed.

Lemma part_tolerance_bound e :
  evidence_range e -> da_Conflict (AssessProbeDuration e) = false ->
  0 <= part_tolerance (AssessProbeDuration e) <= 1000.
Proof.
  intros He Hc. destruct (source_range e He) as [Hf Hs].
  assert (~ durations_disagree e) as Hd.
  { intros Hd. apply (AssessProbeDuration_reference e He) in Hd. congruence. }
  unfold part_tolerance, AssessProbeDuration, durationAgreementToleranceMS, absoluteDifference,
    durations_disagree in *. rewrite longest_correct.
  destruct (usableDuration _) as [f|], (max_duration _) as [s|]; simpl; try lia.
  specialize (Hf f eq_refl). specialize (Hs s eq_refl).
  assert (Z.abs (f - s) <= 1000).
  { destruct (Z_le_gt_dec (Z.abs (f - s)) 1000); [done|]. exfalso. apply Hd. exists f, s. split_and!; [done|done|lia]. }
  do 2 case_bool_decide; simpl; case_bool_decide; rewrite sub64_small by lia; lia.
Qed.

Lemma effective_range e d :
  evidence_range e -> da_EffectiveMS (AssessProbeDuration e) = Some d -> 0 < d <= max_int64.
Proof.
  intros He Hd. destruct (source_range e He) as [Hf Hs].
  rewrite (proj1 (AssessProbeDuration_reference e He)) in Hd. unfold reference_duration in Hd.
  destruct (usableDuration _) as [f|], (max_duration _) as [s|]; try done; simplify_eq.
  - specialize (Hf f eq_refl). specialize (Hs s eq_refl). case_bool_decide; simplify_eq. lia.
  - by apply Hf.
  - by apply Hs.
Qed.

(** How far the two sources of a duration are apart; a second when there is
    only one. *)
Definition duration_slack (e : ProbeEvidence) : Z :=
  match usableDuration (pf_DurationMS (pe_Format e)),
        max_duration (usable_stream_durations (pe_Streams e)) with
  | Some f, Some s => Z.abs (f - s)
  | _, _ => 1000
  end.

Lemma part_tolerance_slack e :
  evidence_range e -> part_tolerance (AssessProbeDuration e) = duration_slack e.
Proof.
  intros He. destruct (source_range e He) as [Hf Hs].
  unfold part_tolerance, duration_slack, AssessProbeDuration, durationAgreementToleranceMS,
    absoluteDifference. rewrite longest_correct.
  destruct (usableDuration _) as [f|], (max_duration _) as [s|]; simpl; try done.
  specialize (Hf f eq_refl). specialize (Hs s eq_refl).
  repeat (case_bool_decide; simpl); rewrite ?sub64_small by lia; lia.
Qed.

(** A part whose duration is known. *)
Definition part_usable (e : ProbeEvidence) (d : Z) : Prop :=
  da_Conflict (AssessProbeDuration e) = false /\ da_EffectiveMS (AssessProbeDuration e) = Some d.

Lemma part_usable_reference e d :
  evidence_range e -> part_usable e d <-> reference_duration e = Some d.
Proof.
  intros He. destruct (AssessProbeDuration_reference e He) as [Hr Hc]. unfold part_usable. rewrite Hr.
  split; [by intros [_ ?]|]. intros H. split; [|done].
  destruct (da_Conflict _); [|done]. destruct (proj1 Hc eq_refl) as (f & s & Hf & Hs & Hlt).
  unfold reference_duration in H. rewrite Hf, Hs, bool_decide_false in H by lia. done.
Qed.

Definition tolerances (parts : list ProbeEvidence) : list Z :=
  map (fun e => part_tolerance (AssessProbeDuration e)) parts.

Lemma tolerances_slack parts : Forall evidence_range parts -> tolerances parts = map duration_slack parts.
Proof.
  unfold tolerances. induction 1 as [|e parts He _ IH]; [done|]. cbn [map]. by rewrite part_tolerance_slack, IH.
Qed.

Definition reference_durations (parts : list ProbeEvidence) (ds : list Z) : Prop :=
  Forall2 (fun e d => reference_duration e = Some d) parts ds.

Lemma usable_references parts ds :
  Forall evidence_range parts -> Forall2 part_usable parts ds <-> reference_durations parts ds.
Proof.
  unfold reference_durations. intros Hr. revert ds. induction Hr as [|e parts He _ IH]; intros ds.
  - split; intros H%Forall2_nil_inv_l; subst; constructor.
  - split; intros (d & ds' & H1 & H2 & ->)%Forall2_cons_inv_l; constructor;
      first [by apply part_usable_reference|by apply IH].
Qed.

Lemma part_usable_sums parts ds :
  Forall evidence_range parts -> Forall2 part_usable parts ds ->
  0 <= sum_Z ds /\ 0 <= sum_Z (tolerances parts) <= 1000 * Z.of_nat (length parts).
Proof.
  intros Hr. revert ds. induction Hr as [|e parts He _ IH]; intros ds Hds.
  - apply Forall2_nil_inv_l in Hds as ->. cbn. lia.
  - apply Forall2_cons_inv_l in Hds as (d & ds' & [Hc Hd] & Hds & ->).
    destruct (IH ds' Hds) as [? ?].
    pose proof (effective_range e d He Hd). pose proof (part_tolerance_bound e He Hc).
    unfold tolerances in *. cbn [map length]. rewrite !sum_Z_cons. lia.
Qed.

Lemma join_duration_loop_sound parts position expected tolerance r :
  Forall evidence_range parts ->
  0 <= expected <= max_int64 -> 0 <= tolerance <= max_int64 ->
  join_duration_loop position expected tolerance (map AssessProbeDuration parts) = inl r ->
  exists ds, Forall2 part_usable parts ds /\
    r = (expected + sum_Z ds, tolerance + sum_Z (tolerances parts)) /\
    r.1 <= max_int64 /\ r.2 <= max_int64.
Proof.
  intros Hr. revert position expected tolerance.
  induction Hr as [|e parts He _ IH]; intros position expected tolerance Hex Htol Hloop.
  { injection Hloop as <-. exists []. cbn. rewrite !Z.add_0_r. split_and!; [constructor|done|lia..]. }
  cbn [map join_duration_loop] in Hloop. repeat case_next; try done. split_bool.
  pose proof (effective_range e z He ltac:(done)). pose proof (part_tolerance_bound e He ltac:(done)).
  rewrite sub64_small in * by lia. rewrite !add64_small in Hloop by lia.
  apply IH in Hloop as (ds & ? & -> & ? & ?); [|lia..].
  exists (z :: ds). unfold tolerances. cbn [map fst snd] in *. rewrite !sum_Z_cons, !Z.add_assoc.
  split_and!; [by constructor|done..].
Qed.

Lemma join_duration_loop_complete parts ds position expected tolerance :
  Forall evidence_range parts -> Forall2 part_usable parts ds ->
  0 <= expected -> 0 <= tolerance ->
  expected + sum_Z ds <= max_int64 -> tolerance + sum_Z (tolerances parts) <= max_int64 ->
  join_duration_loop position expected tolerance (map AssessProbeDuration parts) =
  inl (expected + sum_Z ds, tolerance + sum_Z (tolerances parts)).
Proof.
  intros Hr. revert ds position expected tolerance.
  induction Hr as [|e parts He Hrs IH]; intros ds position expected tolerance Hds ? ? Hx Ht.
  { apply Forall2_nil_inv_l in Hds as ->. cbn. by rewrite !Z.add_0_r. }
  apply Forall2_cons_inv_l in Hds as (d & ds' & [Hc Hd] & Hds & ->).
  destruct (part_usable_sums _ _ Hrs Hds) as [? ?].
  pose proof (effective_range e d He Hd). pose proof (part_tolerance_bound e He Hc).
  unfold tolerances in *. cbn [map join_duration_loop] in *. rewrite !sum_Z_cons in *.
  rewrite Hc, Hd, !sub64_small by lia.
  rewrite !bool_decide_false by lia. rewrite !add64_small by lia.
  rewrite (IH ds') by (done || lia). by rewrite !Z.add_assoc.
Qed.

(** The expected duration and tolerance of a join are exact sums that fit in 64
    bits; a join of two or more probed parts is refused only when some part has
    no agreed duration or a sum would overflow. *)
Lemma AssessJoinDuration_exact (parts : list ProbeEvidence) (expected tolerance : Z) :
  Forall evidence_range parts ->
  (jd_Issue (AssessJoinDuration parts) = None /\
   jd_ExpectedMS (AssessJoinDuration parts) = Some expected /\
   jd_ToleranceMS (AssessJoinDuration parts) = Some tolerance) <->
  (2 <= length parts)%nat /\
  exists ds, Forall2 part_usable parts ds /\
    expected = sum_Z ds /\ tolerance = 1000 + sum_Z (tolerances parts) /\
    expected <= max_int64 /\ tolerance <= max_int64.
Proof.
  intros Hr. unfold AssessJoinDuration. split.
  - intros (Hi & He & Ht). case_bool_decide; [done|].
    destruct (join_duration_loop _ _ _ _) as [[x t]|] eqn:Hloop; [|done]. simplify_eq/=.
    apply join_duration_loop_sound in Hloop as (ds & ? & [= -> ->] & ? & ?);
      [|done|unfold max_int64, joinMuxToleranceMS; lia..].
    split; [lia|]. exists ds. done.
  - intros (Hlen & ds & Hds & -> & -> & ? & ?). rewrite bool_decide_false by lia.
    by rewrite (join_duration_loop_complete parts ds) by (done || unfold joinMuxToleranceMS; lia).
Qed.

(** C32. The tolerance of an accepted join is at most one second per part plus one
    second for the mux. *)
Theorem AssessJoinDuration_tolerance (parts : list ProbeEvidence) (tolerance : Z) :
  Forall evidence_range parts ->
  jd_ToleranceMS (AssessJoinDuration parts) = Some tolerance ->
  1000 <= tolerance <= 1000 * (1 + Z.of_nat (length parts)).
Proof.
  intros Hr. unfold AssessJoinDuration. case_bool_decide; [done|].
  destruct (join_duration_loop _ _ _ _) as [[x t]|] eqn:Hloop; [|done]. intros [= <-].
  apply join_duration_loop_sound in Hloop as (ds & Hds & [= -> ->] & ? & ?);
    [|done|unfold max_int64, joinMuxToleranceMS; lia..].
  destruct (part_usable_sums _ _ Hr Hds). unfold joinMuxToleranceMS. lia.
Qed.
