(* ===== verification/Streams.v ===== *)
(** * Stream compatibility of the parts of a join

    [internal/controller/stream_compatibility.go]: whether the streams of
    several probed files line up well enough to be concatenated, the layout
    the joined file must then have, and the check of a muxed file against
    that layout. A dereference of a nil pointer is a Go panic and is [None]. *)
From stdpp Require Import base strings list sets sorting.
From Stdlib Require Import SpecFloat.
From S2P Require Import Prelude Probe.

Inductive StreamCompatibility := StreamsCompatible | StreamsIncompatible | StreamsUnknown.

Inductive StreamCompatibilityReason :=
| StreamReasonTooFewParts | StreamReasonMissingProbe | StreamReasonMissingVideo
| StreamReasonStreamCountMismatch | StreamReasonMissingMetadata | StreamReasonLayoutMismatch.

(** The empty field name of the source is [None]. *)
Inductive StreamCompatibilityField :=
| StreamFieldKind | StreamFieldCodecName | StreamFieldProfile | StreamFieldTimeBase
| StreamFieldWidth | StreamFieldHeight | StreamFieldPixelFormat | StreamFieldAverageFrameRate
| StreamFieldSampleFormat | StreamFieldSampleRate | StreamFieldChannels | StreamFieldChannelLayout.

#[global] Instance StreamCompatibility_eq_dec : EqDecision StreamCompatibility.
Proof. solve_decision. Defined.
#[global] Instance StreamCompatibilityReason_eq_dec : EqDecision StreamCompatibilityReason.
Proof. solve_decision. Defined.
#[global] Instance StreamCompatibilityField_eq_dec : EqDecision StreamCompatibilityField.
Proof. solve_decision. Defined.

Record StreamCompatibilityIssue := mkStreamIssue
  { sci_Reason : StreamCompatibilityReason; sci_PartPosition : option Z;
    sci_StreamPosition : option Z; sci_Field : option StreamCompatibilityField }.

Record VideoStreamLayout := mkVideoLayout
  { vl_Width : Z; vl_Height : Z; vl_PixelFormat : string; vl_AverageRate : Rational }.

Record AudioStreamLayout := mkAudioLayout
  { al_SampleFormat : string; al_SampleRateHz : Z; al_Channels : Z; al_ChannelLayout : string }.

Record StreamLayoutEntry := mkLayoutEntry
  { le_Kind : ProbeStreamKind; le_CodecName : string; le_Profile : option string;
    le_TimeBase : Rational; le_Video : option VideoStreamLayout;
    le_Audio : option AudioStreamLayout }.

Record StreamLayout := mkStreamLayout { sl_Streams : list StreamLayoutEntry }.

#[global] Instance StreamCompatibilityIssue_eq_dec : EqDecision StreamCompatibilityIssue.
Proof. solve_decision. Defined.
#[global] Instance VideoStreamLayout_eq_dec : EqDecision VideoStreamLayout.
Proof. solve_decision. Defined.
#[global] Instance AudioStreamLayout_eq_dec : EqDecision AudioStreamLayout.
Proof. solve_decision. Defined.
#[global] Instance StreamLayoutEntry_eq_dec : EqDecision StreamLayoutEntry.
Proof. solve_decision. Defined.
#[global] Instance StreamLayout_eq_dec : EqDecision StreamLayout.
Proof. solve_decision. Defined.

Record StreamCompatibilityAssessment := mkStreamAssessment
  { sa_Compatibility : StreamCompatibility; sa_Issue : option StreamCompatibilityIssue;
    sa_Layout : option StreamLayout }.

Definition streamIssue (reason : StreamCompatibilityReason) (part stream : option Z)
    (field : option StreamCompatibilityField) : StreamCompatibilityIssue :=
  mkStreamIssue reason part stream field.

Definition streamAssessment (compatibility : StreamCompatibility)
    (reason : StreamCompatibilityReason) (part stream : option Z)
    (field : option StreamCompatibilityField) : StreamCompatibilityAssessment :=
  mkStreamAssessment compatibility (Some (streamIssue reason part stream field)) None.

(** ** Ordering

    [slices.SortFunc] by stream index. The source's sort is only stable for
    the short slices Go sorts by insertion; this is that insertion sort. With
    distinct indexes every sort gives this list. *)
Fixpoint insert_stream (x : ProbeStream) (l : list ProbeStream) : list ProbeStream :=
  match l with
  | [] => [x]
  | y :: rest =>
      if bool_decide (ps_Index x < ps_Index y) then x :: l else y :: insert_stream x rest
  end.

Definition orderedStreams (streams : list ProbeStream) : list ProbeStream :=
  fold_left (fun acc x => insert_stream x acc) streams [].

(** ** Comparing two streams *)

Record streamComparison := mkComparison
  { cmp_missing : option StreamCompatibilityField; cmp_missingReference : bool;
    cmp_mismatch : option StreamCompatibilityField }.

Definition no_comparison : streamComparison := mkComparison None false None.

Definition compareRequiredField `{EqDecision T} (field : StreamCompatibilityField)
    (reference candidate : option T) (c : streamComparison) : streamComparison :=
  match reference, candidate with
  | Some r, Some k =>
      if negb (bool_decide (r = k)) && bool_decide (cmp_mismatch c = None)
      then mkComparison (cmp_missing c) (cmp_missingReference c) (Some field)
      else c
  | _, _ =>
      if bool_decide (cmp_missing c = None)
      then mkComparison (Some field) (bool_decide (reference = None)) (cmp_mismatch c)
      else c
  end.

Definition compareOptionalField `{EqDecision T} (field : StreamCompatibilityField)
    (reference candidate : option T) (c : streamComparison) : streamComparison :=
  match reference, candidate with
  | None, None => c
  | _, _ => compareRequiredField field reference candidate c
  end.

(** The comparisons that do not depend on the stream kind. *)
Definition compare_common (reference candidate : ProbeStream) : streamComparison :=
  let c := compareRequiredField StreamFieldKind (ps_Kind reference) (ps_Kind candidate)
             no_comparison in
  let c := compareRequiredField StreamFieldCodecName (ps_CodecName reference)
             (ps_CodecName candidate) c in
  let c := compareOptionalField StreamFieldProfile (ps_Profile reference)
             (ps_Profile candidate) c in
  match ps_TimeBase reference, ps_TimeBase candidate with
  | Some _, Some _ => c
  | _, _ => compareRequiredField StreamFieldTimeBase (ps_TimeBase reference)
              (ps_TimeBase candidate) c
  end.

Definition compareStreams (reference candidate : ProbeStream) : streamComparison :=
  let c := compare_common reference candidate in
  match ps_Kind reference, ps_Kind candidate with
  | Some kind, Some candidateKind =>
      if negb (bool_decide (kind = candidateKind)) then c
      else if bool_decide (kind = ProbeStreamVideo) then
        let c := compareRequiredField StreamFieldWidth (ps_Width reference) (ps_Width candidate) c in
        let c := compareRequiredField StreamFieldHeight (ps_Height reference) (ps_Height candidate) c in
        let c := compareRequiredField StreamFieldPixelFormat (ps_PixelFormat reference)
                   (ps_PixelFormat candidate) c in
        compareRequiredField StreamFieldAverageFrameRate (ps_AverageRate reference)
          (ps_AverageRate candidate) c
      else if bool_decide (kind = ProbeStreamAudio) then
        let c := compareRequiredField StreamFieldSampleFormat (ps_SampleFormat reference)
                   (ps_SampleFormat candidate) c in
        let c := compareRequiredField StreamFieldSampleRate (ps_SampleRateHz reference)
                   (ps_SampleRateHz candidate) c in
        let c := compareRequiredField StreamFieldChannels (ps_Channels reference)
                   (ps_Channels candidate) c in
        compareRequiredField StreamFieldChannelLayout (ps_ChannelLayout reference)
          (ps_ChannelLayout candidate) c
      else c
  | _, _ => c
  end.

(** [(hasVideo, hasUnknownKind)]; the search stops at the first video stream. *)
Fixpoint video_presence (unknown : bool) (streams : list ProbeStream) : bool * bool :=
  match streams with
  | [] => (false, unknown)
  | stream :: rest =>
      match ps_Kind stream with
      | None => video_presence true rest
      | Some kind =>
          if bool_decide (kind = ProbeStreamVideo) then (true, unknown)
          else video_presence unknown rest
      end
  end.

Definition videoPresence (streams : list ProbeStream) : bool * bool :=
  video_presence false streams.

(** ** Layouts *)

Definition layout_entry (stream : ProbeStream) : option StreamLayoutEntry :=
  kind ← ps_Kind stream;
  codec ← ps_CodecName stream;
  timeBase ← ps_TimeBase stream;
  if bool_decide (kind = ProbeStreamVideo) then
    width ← ps_Width stream; height ← ps_Height stream;
    pixelFormat ← ps_PixelFormat stream; averageRate ← ps_AverageRate stream;
    Some (mkLayoutEntry kind codec (ps_Profile stream) timeBase
      (Some (mkVideoLayout width height pixelFormat averageRate)) None)
  else if bool_decide (kind = ProbeStreamAudio) then
    sampleFormat ← ps_SampleFormat stream; sampleRate ← ps_SampleRateHz stream;
    channels ← ps_Channels stream; channelLayout ← ps_ChannelLayout stream;
    Some (mkLayoutEntry kind codec (ps_Profile stream) timeBase None
      (Some (mkAudioLayout sampleFormat sampleRate channels channelLayout)))
  else Some (mkLayoutEntry kind codec (ps_Profile stream) timeBase None None).

Definition layoutFromStreams (streams : list ProbeStream) : option StreamLayout :=
  mkStreamLayout <$> mapM layout_entry streams.

(** ** The assessment *)

Definition first_some {A} (a b : option A) : option A :=
  match a with Some _ => a | None => b end.

(** The first loop: the early return it makes, or the first unknown found and
    the reference part with its position. *)
Fixpoint presence_loop (position : Z) (unknown : option StreamCompatibilityIssue)
    (reference : option (Z * list ProbeStream)) (probes : list ProbeEvidence) :
    StreamCompatibilityAssessment +
      (option StreamCompatibilityIssue * option (Z * list ProbeStream)) :=
  match probes with
  | [] => inr (unknown, reference)
  | probe :: rest =>
      match pe_Streams probe with
      | [] =>
          presence_loop (position + 1)
            (first_some unknown (Some (streamIssue StreamReasonMissingProbe (Some position) None None)))
            reference rest
      | _ =>
          let streams := orderedStreams (pe_Streams probe) in
          let reference := first_some reference (Some (position, streams)) in
          let '(hasVideo, hasUnknownKind) := videoPresence streams in
          if negb hasVideo && negb hasUnknownKind then
            inl (streamAssessment StreamsIncompatible StreamReasonMissingVideo (Some position) None
                   (Some StreamFieldKind))
          else
            presence_loop (position + 1)
              (if hasVideo then unknown
               else first_some unknown (Some (streamIssue StreamReasonMissingMetadata (Some position)
                      None (Some StreamFieldKind))))
              reference rest
      end
  end.

(** The loop over the reference's streams for one other part. *)
Fixpoint part_loop (part referencePosition streamPosition : Z)
    (unknown : option StreamCompatibilityIssue) (reference candidate : list ProbeStream) :
    StreamCompatibilityAssessment + option StreamCompatibilityIssue :=
  match reference, candidate with
  | r :: reference, k :: candidate =>
      let comparison := compareStreams r k in
      match cmp_mismatch comparison with
      | Some field =>
          inl (streamAssessment StreamsIncompatible StreamReasonLayoutMismatch (Some part)
                 (Some streamPosition) (Some field))
      | None =>
          let unknown :=
            match cmp_missing comparison with
            | Some field =>
                first_some unknown (Some (streamIssue StreamReasonMissingMetadata
                  (Some (if cmp_missingReference comparison then referencePosition else part))
                  (Some streamPosition) (Some field)))
            | None => unknown
            end in
          part_loop part referencePosition (streamPosition + 1) unknown reference candidate
      end
  | _, _ => inr unknown
  end.

(** The second loop, over the parts other than the reference. *)
Fixpoint layout_loop (position referencePosition : Z) (reference : list ProbeStream)
    (unknown : option StreamCompatibilityIssue) (probes : list ProbeEvidence) :
    StreamCompatibilityAssessment + option StreamCompatibilityIssue :=
  match probes with
  | [] => inr unknown
  | probe :: rest =>
      if bool_decide (position = referencePosition) || bool_decide (pe_Streams probe = []) then
        layout_loop (position + 1) referencePosition reference unknown rest
      else
        let streams := orderedStreams (pe_Streams probe) in
        if negb (bool_decide (length streams = length reference)) then
          inl (streamAssessment StreamsIncompatible StreamReasonStreamCountMismatch (Some position)
                 None None)
        else match part_loop position referencePosition 0 unknown reference streams with
             | inl result => inl result
             | inr unknown => layout_loop (position + 1) referencePosition reference unknown rest
             end
  end.

Definition AssessStreamCompatibility (probes : list ProbeEvidence) :
    option StreamCompatibilityAssessment :=
  if bool_decide (length probes < 2)%nat then
    Some (streamAssessment StreamsUnknown StreamReasonTooFewParts None None None)
  else match presence_loop 0 None None probes with
  | inl result => Some result
  | inr (unknown, None) => Some (mkStreamAssessment StreamsUnknown unknown None)
  | inr (unknown, Some (referencePosition, reference)) =>
      match layout_loop 0 referencePosition reference unknown probes with
      | inl result => Some result
      | inr (Some issue) => Some (mkStreamAssessment StreamsUnknown (Some issue) None)
      | inr None =>
          layout ← layoutFromStreams reference;
          Some (mkStreamAssessment StreamsCompatible None (Some layout))
      end
  end.

(** ** Checking a muxed file against a layout *)

(** The constant [0.001]. *)
Definition muxedAverageRateRelativeTolerance : float := S754_finite false 0x10624dd2f1a9fc (-62).

Definition rationalWithinRelativeTolerance (reference candidate : Rational) (tolerance : float)
    : bool :=
  if bool_decide (Numerator reference <= 0) || bool_decide (Denominator reference <= 0) ||
     bool_decide (Numerator candidate <= 0) || bool_decide (Denominator candidate <= 0)
  then false
  else
    let referenceValue := fdiv (float_of_int (Numerator reference)) (float_of_int (Denominator reference)) in
    let candidateValue := fdiv (float_of_int (Numerator candidate)) (float_of_int (Denominator candidate)) in
    SFleb (SFabs (fsub candidateValue referenceValue)) (fmul referenceValue tolerance).

Definition set_AverageRate (rate : option Rational) (s : ProbeStream) : ProbeStream :=
  mkProbeStream (ps_Index s) (ps_Kind s) (ps_CodecName s) (ps_CodecLongName s) (ps_Profile s)
    (ps_CodecTag s) (ps_Width s) (ps_Height s) (ps_PixelFormat s) (ps_SampleFormat s)
    (ps_SampleRateHz s) (ps_Channels s) (ps_ChannelLayout s) (ps_FrameRate s) rate
    (ps_TimeBase s) (ps_StartTicks s) (ps_StartTimeMS s) (ps_DurationTicks s) (ps_DurationMS s)
    (ps_BitRateBPS s) (ps_FrameCount s) (ps_Disposition s) (ps_Tags s).

Definition compareMuxedStream (reference candidate : ProbeStream) : streamComparison :=
  let reference :=
    match ps_AverageRate reference, ps_AverageRate candidate with
    | Some r, Some k =>
        if rationalWithinRelativeTolerance r k muxedAverageRateRelativeTolerance
        then set_AverageRate (Some k) reference else reference
    | _, _ => reference
    end in
  compareStreams reference candidate.

(** The stream a layout entry describes; [None] when the entry lacks the
    details its kind needs. *)
Definition streamFromLayout (entry : StreamLayoutEntry) : option ProbeStream :=
  let stream width height pixelFormat averageRate sampleFormat sampleRate channels channelLayout :=
    mkProbeStream 0 (Some (le_Kind entry)) (Some (le_CodecName entry)) None (le_Profile entry)
      None width height pixelFormat sampleFormat sampleRate channels channelLayout None
      averageRate (Some (le_TimeBase entry)) None None None None None None None [] in
  if bool_decide (le_Kind entry = ProbeStreamVideo) then
    video ← le_Video entry;
    Some (stream (Some (vl_Width video)) (Some (vl_Height video)) (Some (vl_PixelFormat video))
            (Some (vl_AverageRate video)) None None None None)
  else if bool_decide (le_Kind entry = ProbeStreamAudio) then
    audio ← le_Audio entry;
    Some (stream None None None None (Some (al_SampleFormat audio)) (Some (al_SampleRateHz audio))
            (Some (al_Channels audio)) (Some (al_ChannelLayout audio)))
  else Some (stream None None None None None None None None).

Definition comparison_clean (c : streamComparison) : bool :=
  bool_decide (cmp_missing c = None) && bool_decide (cmp_mismatch c = None).

(** The loop of [MatchesMuxedOutput]; [previous] is the index of the stream
    before this position. *)
Fixpoint muxed_loop (previous : option Z) (layout : list StreamLayoutEntry)
    (ordered : list ProbeStream) : bool :=
  match layout, ordered with
  | expected :: layout, stream :: ordered =>
      if bool_decide (previous = Some (ps_Index stream)) then false
      else match streamFromLayout expected with
      | None => false
      | Some reference =>
          comparison_clean (compareMuxedStream reference stream) &&
          muxed_loop (Some (ps_Index stream)) layout ordered
      end
  | [], _ => true
  | _ :: _, [] => false
  end.

Definition MatchesMuxedOutput (layout : StreamLayout) (streams : list ProbeStream) : bool :=
  if negb (bool_decide (length streams = length (sl_Streams layout))) then false
  else muxed_loop None (sl_Streams layout) (orderedStreams streams).

(** ** Properties *)

Lemma required_clean `{EqDecision T} field (r k : option T) c :
  comparison_clean (compareRequiredField field r k c) = true <->
  comparison_clean c = true /\ exists v, r = Some v /\ k = Some v.
Proof.
  unfold comparison_clean, compareRequiredField. destruct c as [missing ref mismatch].
  destruct r as [r|], k as [k|]; simpl; repeat (case_bool_decide; simpl); naive_solver.
Qed.

Lemma optional_clean `{EqDecision T} field (r k : option T) c :
  comparison_clean (compareOptionalField field r k c) = true <->
  comparison_clean c = true /\ r = k.
Proof.
  unfold compareOptionalField.
  destruct r as [r|], k as [k|]; try rewrite required_clean; naive_solver.
Qed.

(** What a clean comparison establishes of the two streams. *)
Record streams_agree (r k : ProbeStream) : Prop := mk_agree
  { agree_kind : exists v, ps_Kind r = Some v /\ ps_Kind k = Some v;
    agree_codec : exists v, ps_CodecName r = Some v /\ ps_CodecName k = Some v;
    agree_profile : ps_Profile r = ps_Profile k;
    agree_time_base : is_Some (ps_TimeBase r) /\ is_Some (ps_TimeBase k);
    agree_video : ps_Kind r = Some ProbeStreamVideo ->
      (exists v, ps_Width r = Some v /\ ps_Width k = Some v) /\
      (exists v, ps_Height r = Some v /\ ps_Height k = Some v) /\
      (exists v, ps_PixelFormat r = Some v /\ ps_PixelFormat k = Some v) /\
      (exists v, ps_AverageRate r = Some v /\ ps_AverageRate k = Some v);
    agree_audio : ps_Kind r = Some ProbeStreamAudio ->
      (exists v, ps_SampleFormat r = Some v /\ ps_SampleFormat k = Some v) /\
      (exists v, ps_SampleRateHz r = Some v /\ ps_SampleRateHz k = Some v) /\
      (exists v, ps_Channels r = Some v /\ ps_Channels k = Some v) /\
      (exists v, ps_ChannelLayout r = Some v /\ ps_ChannelLayout k = Some v) }.

Lemma time_base_clean (r k : option Rational) c :
  comparison_clean (match r, k with
                    | Some _, Some _ => c
                    | _, _ => compareRequiredField StreamFieldTimeBase r k c
                    end) = true <->
  comparison_clean c = true /\ is_Some r /\ is_Some k.
Proof.
  unfold is_Some. destruct r, k; try rewrite required_clean; naive_solver.
Qed.

Lemma compare_common_clean r k :
  comparison_clean (compare_common r k) = true <->
  (exists v, ps_Kind r = Some v /\ ps_Kind k = Some v) /\
  (exists v, ps_CodecName r = Some v /\ ps_CodecName k = Some v) /\
  ps_Profile r = ps_Profile k /\ is_Some (ps_TimeBase r) /\ is_Some (ps_TimeBase k).
Proof.
  unfold compare_common. cbv zeta. rewrite time_base_clean, optional_clean, !required_clean.
  unfold comparison_clean. simpl. tauto.
Qed.

Lemma compareStreams_common r k :
  comparison_clean (compareStreams r k) = true -> comparison_clean (compare_common r k) = true.
Proof.
  unfold compareStreams. destruct (ps_Kind r), (ps_Kind k); try done.
  repeat case_next; rewrite ?required_clean; tauto.
Qed.

Lemma compareStreams_clean r k :
  comparison_clean (compareStreams r k) = true <-> streams_agree r k.
Proof.
  split.
  - intros H. pose proof (compareStreams_common r k H) as Hc.
    apply compare_common_clean in Hc as ((v & Hr & Hk) & ? & ? & ? & ?).
    unfold compareStreams in H. rewrite Hr, Hk, (bool_decide_true (v = v)) in H by done.
    cbn [negb] in H.
    constructor; [by eauto|done|done|done| |]; rewrite Hr; intros [= ->].
    + rewrite bool_decide_true, !required_clean in H by done. tauto.
    + rewrite bool_decide_false, bool_decide_true, !required_clean in H by done. tauto.
  - intros [(v & Hr & Hk) ? ? [? ?] Hv Ha].
    assert (comparison_clean (compare_common r k) = true) as Hc
      by (apply compare_common_clean; split_and!; eauto).
    unfold compareStreams. rewrite Hr, Hk, (bool_decide_true (v = v)) by done. cbn [negb].
    rewrite Hr in Hv, Ha.
    repeat (case_bool_decide; [subst|]); rewrite ?required_clean;
      [specialize (Hv eq_refl)|specialize (Ha eq_refl)|]; tauto.
Qed.

(** *** Entries of a layout *)

(** A stream of a muxed file is what an entry of the layout says; the average
    rate of a video stream may be off by a thousandth. *)
Record entry_describes (e : StreamLayoutEntry) (k : ProbeStream) : Prop := mk_describes
  { ed_kind : ps_Kind k = Some (le_Kind e);
    ed_codec : ps_CodecName k = Some (le_CodecName e);
    ed_profile : ps_Profile k = le_Profile e;
    ed_time_base : is_Some (ps_TimeBase k);
    ed_video : le_Kind e = ProbeStreamVideo -> exists v rate, le_Video e = Some v /\
      ps_Width k = Some (vl_Width v) /\ ps_Height k = Some (vl_Height v) /\
      ps_PixelFormat k = Some (vl_PixelFormat v) /\ ps_AverageRate k = Some rate /\
      (rate = vl_AverageRate v \/
       rationalWithinRelativeTolerance (vl_AverageRate v) rate muxedAverageRateRelativeTolerance = true);
    ed_audio : le_Kind e = ProbeStreamAudio -> exists a, le_Audio e = Some a /\
      ps_SampleFormat k = Some (al_SampleFormat a) /\ ps_SampleRateHz k = Some (al_SampleRateHz a) /\
      ps_Channels k = Some (al_Channels a) /\ ps_ChannelLayout k = Some (al_ChannelLayout a) }.

(** What [MatchesMuxedOutput] checks of one stream. *)
Definition muxed_entry (e : StreamLayoutEntry) (k : ProbeStream) : bool :=
  match streamFromLayout e with
  | None => false
  | Some reference => comparison_clean (compareMuxedStream reference k)
  end.

(** Agreement on a field the reference has. *)
Lemma same_field {T} (x : T) (r k : option T) :
  r = Some x -> (exists v, r = Some v /\ k = Some v) <-> k = Some x.
Proof. intros ->. split; [by intros (v & [= <-] & ?)|intros ->; by exists x]. Qed.

Ltac agree_fields :=
  repeat match goal with
  | E : ?r = Some ?x, H : exists v, ?r = Some v /\ ?k = Some v |- _ =>
      apply (same_field x r k E) in H
  | E : ?r = Some ?x |- exists v, ?r = Some v /\ ?k = Some v => apply (same_field x r k E)
  end.

Lemma video_agree r k codec tb w h pf rate :
  ps_Kind r = Some ProbeStreamVideo -> ps_CodecName r = Some codec -> ps_TimeBase r = Some tb ->
  ps_Width r = Some w -> ps_Height r = Some h -> ps_PixelFormat r = Some pf ->
  ps_AverageRate r = Some rate ->
  streams_agree r k <-> ps_Kind k = Some ProbeStreamVideo /\ ps_CodecName k = Some codec /\
    ps_Profile r = ps_Profile k /\ is_Some (ps_TimeBase k) /\ ps_Width k = Some w /\
    ps_Height k = Some h /\ ps_PixelFormat k = Some pf /\ ps_AverageRate k = Some rate.
Proof.
  intros Ek Ec Et Ew Eh Ep Er. split.
  - intros [Hk Hc Hp [_ Ht] Hv _]. destruct (Hv Ek) as (H1 & H2 & H3 & H4). agree_fields. auto 10.
  - intros (Hk & Hc & Hp & Ht & H1 & H2 & H3 & H4). constructor; agree_fields; auto.
    + intros _. split_and!; agree_fields; auto.
    + rewrite Ek. discriminate.
Qed.

Lemma audio_agree r k codec tb sf sr ch cl :
  ps_Kind r = Some ProbeStreamAudio -> ps_CodecName r = Some codec -> ps_TimeBase r = Some tb ->
  ps_SampleFormat r = Some sf -> ps_SampleRateHz r = Some sr -> ps_Channels r = Some ch ->
  ps_ChannelLayout r = Some cl ->
  streams_agree r k <-> ps_Kind k = Some ProbeStreamAudio /\ ps_CodecName k = Some codec /\
    ps_Profile r = ps_Profile k /\ is_Some (ps_TimeBase k) /\ ps_SampleFormat k = Some sf /\
    ps_SampleRateHz k = Some sr /\ ps_Channels k = Some ch /\ ps_ChannelLayout k = Some cl.
Proof.
  intros Ek Ec Et Es Er Eh El. split.
  - intros [Hk Hc Hp [_ Ht] _ Hv]. destruct (Hv Ek) as (H1 & H2 & H3 & H4). agree_fields. auto 10.
  - intros (Hk & Hc & Hp & Ht & H1 & H2 & H3 & H4). constructor; agree_fields; auto.
    + rewrite Ek. discriminate.
    + intros _. split_and!; agree_fields; auto.
Qed.

Lemma other_agree r k kind codec tb :
  ps_Kind r = Some kind -> ps_CodecName r = Some codec -> ps_TimeBase r = Some tb ->
  kind <> ProbeStreamVideo -> kind <> ProbeStreamAudio ->
  streams_agree r k <-> ps_Kind k = Some kind /\ ps_CodecName k = Some codec /\
    ps_Profile r = ps_Profile k /\ is_Some (ps_TimeBase k).
Proof.
  intros Ek Ec Et Hv Ha. split.
  - intros [Hk Hc Hp [_ Ht] _ _]. agree_fields. auto.
  - intros (Hk & Hc & Hp & Ht). constructor; agree_fields; auto; rewrite ?Ek; congruence.
Qed.

Lemma muxed_entry_describes e k : muxed_entry e k = true <-> entry_describes e k.
Proof.
  unfold muxed_entry, streamFromLayout, compareMuxedStream.
  destruct (decide (le_Kind e = ProbeStreamVideo)) as [Hv|Hv];
    [rewrite bool_decide_true by done|rewrite bool_decide_false by done;
     destruct (decide (le_Kind e = ProbeStreamAudio)) as [Ha|Ha];
     [rewrite bool_decide_true by done|rewrite bool_decide_false by done]].
  - destruct (le_Video e) as [v|] eqn:Ev; cbn [mbind option_bind].
    2: { split; [done|]. intros Hd. destruct (ed_video _ _ Hd Hv) as (v & rate & ? & _). congruence. }
    cbn [ps_AverageRate]. transitivity (ps_Kind k = Some (le_Kind e) /\ ps_CodecName k = Some (le_CodecName e) /\
      le_Profile e = ps_Profile k /\ is_Some (ps_TimeBase k) /\ ps_Width k = Some (vl_Width v) /\
      ps_Height k = Some (vl_Height v) /\ ps_PixelFormat k = Some (vl_PixelFormat v) /\
      exists rate, ps_AverageRate k = Some rate /\ (rate = vl_AverageRate v \/
        rationalWithinRelativeTolerance (vl_AverageRate v) rate muxedAverageRateRelativeTolerance = true)).
    + destruct (ps_AverageRate k) as [rate|] eqn:Er.
      * destruct (rationalWithinRelativeTolerance _ _ _) eqn:Et; rewrite compareStreams_clean;
          erewrite video_agree by (simpl; congruence || reflexivity); cbn [ps_Profile set_AverageRate]; rewrite Er, Hv.
        -- split; [intros (? & ? & ? & ? & ? & ? & ? & _)|intros (? & ? & ? & ? & ? & ? & ? & _)];
             split_and!; try done. exists rate. by split; [|right].
        -- split; [intros (? & ? & ? & ? & ? & ? & ? & [= <-])|
             intros (? & ? & ? & ? & ? & ? & ? & x & [= <-] & [->|?])]; split_and!; try done; [|congruence].
           exists rate. by split; [|left].
      * rewrite compareStreams_clean. erewrite video_agree by (simpl; congruence || reflexivity). cbn [ps_Profile]. rewrite Er, Hv.
        split; [by intros (? & ? & ? & ? & ? & ? & ? & ?)|by intros (? & ? & ? & ? & ? & ? & ? & ? & ? & ?)].
    + split.
      * intros (? & ? & ? & ? & ? & ? & ? & rate & ? & ?). split; [done|done|done|done| |intros Hx; rewrite Hv in Hx; discriminate].
        intros _. exists v, rate. by split_and!.
      * intros [? ? ? ? Hd _]. destruct (Hd Hv) as (v' & rate & Ev' & ? & ? & ? & ? & ?).
        rewrite Ev in Ev'. injection Ev' as <-. split_and!; try done. by exists rate.
  - destruct (le_Audio e) as [a|] eqn:Ea; cbn [mbind option_bind].
    2: { split; [done|]. intros Hd. destruct (ed_audio _ _ Hd Ha) as (a & ? & _). congruence. }
    cbn [ps_AverageRate]. rewrite compareStreams_clean. erewrite audio_agree by (simpl; congruence || reflexivity).
    cbn [ps_Profile]. rewrite <-Ha. split.
    + intros (? & ? & ? & ? & ? & ? & ? & ?). split; [done|done|done|done|intros Hx; rewrite Ha in Hx; discriminate|].
      intros _. exists a. by split_and!.
    + intros [? ? ? ? _ Hd]. destruct (Hd Ha) as (a' & Ea' & ? & ? & ? & ?).
      rewrite Ea in Ea'. injection Ea' as <-. by split_and!.
  - cbn [ps_AverageRate]. rewrite compareStreams_clean. erewrite other_agree by (exact Hv || exact Ha || reflexivity).
    cbn [ps_Profile]. split; [intros (? & ? & ? & ?)|intros [? ? ? ? _ _]; by split_and!].
    split; try done; intros; congruence.
Qed.

(** *** Ordering *)

Lemma insert_stream_perm x l : insert_stream x l ≡ₚ x :: l.
Proof.
  induction l as [|y l IH]; simpl; [done|]. case_bool_decide; [done|].
  rewrite IH. apply Permutation_swap.
Qed.

Lemma orderedStreams_fold_perm l acc :
  fold_left (fun acc x => insert_stream x acc) l acc ≡ₚ l ++ acc.
Proof.
  revert acc. induction l as [|x l IH]; intros acc; simpl; [done|].
  rewrite IH, insert_stream_perm. by rewrite Permutation_middle.
Qed.

Lemma orderedStreams_perm l : orderedStreams l ≡ₚ l.
Proof. unfold orderedStreams. rewrite orderedStreams_fold_perm. by rewrite app_nil_r. Qed.

Lemma orderedStreams_length l : length (orderedStreams l) = length l.
Proof. by rewrite orderedStreams_perm. Qed.

Local Abbreviation index_le := (fun a b => ps_Index a <= ps_Index b).

Lemma insert_stream_sorted x l :
  StronglySorted index_le l -> StronglySorted index_le (insert_stream x l).
Proof.
  induction 1 as [|y l Hl IH Hy]; simpl; [repeat constructor|].
  case_bool_decide.
  - constructor; [by constructor|]. constructor; [lia|].
    eapply Forall_impl; [exact Hy|]. simpl. lia.
  - constructor; [done|]. rewrite insert_stream_perm. constructor; [lia|done].
Qed.

Lemma orderedStreams_sorted l : StronglySorted index_le (orderedStreams l).
Proof.
  unfold orderedStreams. assert (StronglySorted index_le []) as H by constructor.
  revert H. generalize (@nil ProbeStream). induction l as [|x l IH]; simpl; [done|].
  intros acc Hacc. apply IH. by apply insert_stream_sorted.
Qed.

(** Two sorted lists with the same elements and distinct indexes are equal. *)
Lemma sorted_unique l1 l2 :
  StronglySorted index_le l1 -> StronglySorted index_le l2 -> l1 ≡ₚ l2 ->
  NoDup (map ps_Index l1) -> l1 = l2.
Proof.
  intros H1. revert l2. induction H1 as [|x l1 H1 IH Hx]; intros l2 H2 Hp Hnd.
  { by apply Permutation_nil_l in Hp as ->. }
  destruct H2 as [|y l2 H2 Hy]; [by apply Permutation_nil_r in Hp|].
  simpl in Hnd. apply NoDup_cons in Hnd as [Hnx Hnd].
  assert (x = y) as <-.
  { destruct (decide (x = y)) as [|Hne]; [done|].
    assert (x ∈ l2) as Hxl2 by (assert (x ∈ y :: l2) by (rewrite <- Hp; left); set_solver).
    assert (y ∈ l1) as Hyl1 by (assert (y ∈ x :: l1) by (rewrite Hp; left); set_solver).
    rewrite Forall_forall in Hx, Hy. specialize (Hx y Hyl1). specialize (Hy x Hxl2). simpl in *.
    exfalso. apply Hnx. replace (ps_Index x) with (ps_Index y) by lia.
    by apply list_elem_of_fmap_2. }
  f_equal. apply IH; [done| |done]. by apply Permutation_cons_inv in Hp.
Qed.

Lemma orderedStreams_unique l1 l2 :
  l1 ≡ₚ l2 -> NoDup (map ps_Index l1) -> orderedStreams l1 = orderedStreams l2.
Proof.
  intros Hp Hnd. apply sorted_unique; auto using orderedStreams_sorted.
  - by rewrite !orderedStreams_perm.
  - by rewrite orderedStreams_perm.
Qed.

(** The streams of a file in the order of their indexes, no two with one. *)
Definition index_order (streams ordered : list ProbeStream) : Prop :=
  ordered ≡ₚ streams /\ StronglySorted (fun a b => ps_Index a < ps_Index b) ordered.

Lemma muxed_loop_describes layout ordered previous :
  length ordered = length layout -> StronglySorted index_le ordered ->
  (forall i, previous = Some i -> Forall (fun s => i <= ps_Index s) ordered) ->
  muxed_loop previous layout ordered = true <->
  (forall i, previous = Some i -> Forall (fun s => i < ps_Index s) ordered) /\
  StronglySorted (fun a b => ps_Index a < ps_Index b) ordered /\ Forall2 entry_describes layout ordered.
Proof.
  revert ordered previous. induction layout as [|e layout IH]; intros [|s ordered] previous Hlen Hs Hp;
    [|discriminate..|].
  { split; [|done]. intros _. split_and!; [by constructor|constructor|constructor]. }
  simpl in Hlen. injection Hlen as Hlen. inversion_clear Hs as [|? ? Hs' Hle]. cbn [muxed_loop].
  specialize (IH ordered (Some (ps_Index s)) Hlen Hs').
  destruct IH as [IHf IHb]; [by intros ? [= <-]|].
  change (if bool_decide (previous = Some (ps_Index s)) then false else _) with
    (if bool_decide (previous = Some (ps_Index s)) then false
     else match streamFromLayout e with
          | Some reference => comparison_clean (compareMuxedStream reference s) &&
              muxed_loop (Some (ps_Index s)) layout ordered
          | None => false
          end).
  assert (match streamFromLayout e with
          | Some reference => comparison_clean (compareMuxedStream reference s) &&
              muxed_loop (Some (ps_Index s)) layout ordered
          | None => false
          end = muxed_entry e s && muxed_loop (Some (ps_Index s)) layout ordered) as ->
    by (unfold muxed_entry; by destruct (streamFromLayout e)).
  destruct (decide (previous = Some (ps_Index s))) as [->|Hne].
  { rewrite bool_decide_true by done. split; [done|]. intros (Hlt & _).
    apply (Forall_inv (Hlt _ eq_refl)) || (specialize (Hlt _ eq_refl); inversion_clear Hlt; lia). }
  rewrite bool_decide_false, andb_true_iff, muxed_entry_describes by done. split.
  - intros [He [Hlt [Hsort Hf]]%IHf]. specialize (Hlt _ eq_refl). split_and!; [|by constructor..].
    intros i ->. specialize (Hp i eq_refl). inversion_clear Hp.
    assert (i < ps_Index s) by (assert (i <> ps_Index s) by congruence; lia).
    constructor; [done|]. eapply Forall_impl; [exact Hlt|]. simpl. lia.
  - intros (_ & Hsort & Hf). inversion_clear Hsort as [|? ? Hsort' Hlt]. inversion_clear Hf.
    split; [done|]. apply IHb. split_and!; [by intros ? [= <-]|done..].
Qed.

Lemma index_order_unique streams ordered :
  index_order streams ordered -> ordered = orderedStreams streams.
Proof.
  intros [Hp Hs]. apply sorted_unique.
  - eapply StronglySorted_impl || idtac. clear Hp. induction Hs as [|x l Hs IH Hx]; constructor; [done|].
    eapply Forall_impl; [exact Hx|]. simpl. lia.
  - apply orderedStreams_sorted.
  - by rewrite orderedStreams_perm.
  - clear Hp. induction Hs as [|x l Hs IH Hx]; simpl; constructor; [|done].
    intros (y & Hy & Hin)%list_elem_of_fmap. rewrite Forall_forall in Hx. specialize (Hx y Hin). simpl in *. lia.
Qed.

(** [MatchesMuxedOutput] holds exactly when the streams, in the order of their
    distinct indexes, are those the layout lists, one for one. *)
Lemma MatchesMuxedOutput_spec layout streams :
  MatchesMuxedOutput layout streams = true <->
  exists ordered, index_order streams ordered /\ Forall2 entry_describes (sl_Streams layout) ordered.
Proof.
  unfold MatchesMuxedOutput. split.
  - case_bool_decide as Hlen; cbn [negb]; [|done]. intros (_ & Hs & Hf)%muxed_loop_describes.
    + exists (orderedStreams streams). split; [split; [apply orderedStreams_perm|done]|done].
    + by rewrite orderedStreams_length.
    + apply orderedStreams_sorted.
    + done.
  - intros (ordered & Ho & Hf). assert (length streams = length (sl_Streams layout)) as Hlen.
    { rewrite (Forall2_length _ _ _ Hf). destruct Ho as [Hp _]. by rewrite Hp. }
    rewrite bool_decide_true by done. cbn [negb].
    pose proof (index_order_unique _ _ Ho) as ->. apply muxed_loop_describes.
    + by rewrite orderedStreams_length.
    + apply orderedStreams_sorted.
    + done.
    + split_and!; [done|apply Ho|done].
Qed.

(** The muxed check does not depend on the order in which [ffprobe] listed the
    streams, as long as no two share an index. *)
Theorem MatchesMuxedOutput_permutation (layout : StreamLayout) (s1 s2 : list ProbeStream) :
  s1 ≡ₚ s2 -> NoDup (map ps_Index s1) ->
  MatchesMuxedOutput layout s1 = MatchesMuxedOutput layout s2.
Proof.
  intros Hp Hnd. unfold MatchesMuxedOutput.
  by rewrite (orderedStreams_unique s1 s2), (Permutation_length Hp).
Qed.

(** *** The assessment *)

Definition has_video (streams : list ProbeStream) : Prop :=
  Exists (fun s => ps_Kind s = Some ProbeStreamVideo) streams.

Lemma video_presence_true unknown streams u :
  video_presence unknown streams = (true, u) -> has_video streams.
Proof.
  revert unknown. induction streams as [|s streams IH]; intros unknown; simpl; [done|].
  destruct (ps_Kind s) as [kind|] eqn:E; [case_bool_decide|]; intros Hrest.
  - left. congruence.
  - right. by eapply IH.
  - right. by eapply IH.
Qed.

Lemma video_presence_has unknown streams :
  has_video streams -> (video_presence unknown streams).1 = true.
Proof.
  intros H. revert unknown. induction H as [s streams H|s streams _ IH]; intros unknown; simpl.
  - by rewrite H.
  - destruct (ps_Kind s); [case_bool_decide|]; done.
Qed.

(** A part that can take part in a join: it has streams, one of them video. *)
Definition part_present (e : ProbeEvidence) : Prop :=
  pe_Streams e <> [] /\ has_video (orderedStreams (pe_Streams e)).

Lemma first_some_None {A} (a b : option A) : first_some a b = None <-> a = None /\ b = None.
Proof. destruct a; simpl; naive_solver. Qed.

Lemma presence_loop_None probes position unknown reference r :
  presence_loop position unknown reference probes = inr (None, r) <->
  unknown = None /\ Forall part_present probes /\
  r = first_some reference
        (match probes with [] => None | p :: _ => Some (position, orderedStreams (pe_Streams p)) end).
Proof.
  revert position unknown reference. induction probes as [|p probes IH];
    intros position unknown reference; simpl.
  { destruct reference; simpl; split; [intros [= -> ->]|intros (-> & _ & ->)|intros [= -> ->]|
      intros (-> & _ & ->)]; eauto. }
  rewrite Forall_cons. unfold part_present at 1.
  destruct (pe_Streams p) as [|s0 ss] eqn:Es; simpl.
  { rewrite IH, first_some_None. naive_solver. }
  unfold videoPresence. cbv zeta.
  destruct (video_presence false _) as [hasVideo hasUnknown] eqn:Ev. destruct hasVideo; simpl.
  - rewrite IH. apply video_presence_true in Ev.
    destruct reference; simpl; naive_solver.
  - assert (~ has_video (orderedStreams (s0 :: ss))) as Hno.
    { intros Hv%(video_presence_has false). by rewrite Ev in Hv. }
    destruct hasUnknown; simpl; [|naive_solver].
    rewrite IH, first_some_None. naive_solver.
Qed.

Lemma comparison_clean_spec c :
  comparison_clean c = true <-> cmp_missing c = None /\ cmp_mismatch c = None.
Proof. unfold comparison_clean. autorewrite with go. tauto. Qed.

Lemma part_loop_None part refpos pos unknown reference candidate :
  length reference = length candidate ->
  part_loop part refpos pos unknown reference candidate = inr None <->
  unknown = None /\ Forall2 streams_agree reference candidate.
Proof.
  intros Hlen. apply Forall2_same_length in Hlen.
  revert pos unknown. induction Hlen as [|r k rs ks _ _ IH]; intros pos unknown; simpl.
  { split; [intros [= ->]; eauto using Forall2_nil_2|naive_solver]. }
  rewrite Forall2_cons, <- compareStreams_clean, comparison_clean_spec.
  destruct (cmp_mismatch (compareStreams r k)) as [f|]; [naive_solver|].
  rewrite IH. destruct (cmp_missing (compareStreams r k)) as [f|];
    rewrite ?first_some_None; naive_solver.
Qed.

Lemma layout_loop_None probes position refpos reference unknown :
  Forall part_present probes ->
  layout_loop position refpos reference unknown probes = inr None <->
  unknown = None /\
  forall i p, probes !! i = Some p -> position + Z.of_nat i <> refpos ->
    Forall2 streams_agree reference (orderedStreams (pe_Streams p)).
Proof.
  intros Hpres. revert position unknown.
  induction Hpres as [|p probes [Hne _] _ IH]; intros position unknown; simpl.
  { split; [intros [= ->]; split; [done|]; intros []; done|naive_solver]. }
  rewrite (bool_decide_false (pe_Streams p = [])), orb_false_r by done.
  assert (forall (Q : nat -> ProbeEvidence -> Prop),
    (forall i q, (p :: probes) !! i = Some q -> Q i q) <->
    Q 0%nat p /\ forall i q, probes !! i = Some q -> Q (S i) q) as Hcons.
  { intros Q. split; [intros H; split; [by apply H|intros i q; apply (H (S i))]|].
    intros [H0 HS] [|i] q; simpl; [intros [= <-]; done|apply HS]. }
  rewrite Hcons. rewrite Z.add_0_r.
  assert (forall i, position + Z.of_nat (S i) = position + 1 + Z.of_nat i) as Hpos by lia.
  setoid_rewrite Hpos.
  case_bool_decide as Hp; [rewrite IH; naive_solver|].
  case_bool_decide as Hlen; simpl.
  - pose proof (part_loop_None position refpos 0 unknown _ _ (eq_sym Hlen)) as Hpart.
    destruct (part_loop _ _ _ _ _ _) as [a|u]; [naive_solver|].
    rewrite IH. destruct u; naive_solver.
  - split; [done|]. intros (_ & H & _). specialize (H Hp).
    apply Forall2_length in H. congruence.
Qed.

Lemma streams_agree_entry r k :
  streams_agree r k -> exists entry, layout_entry r = Some entry.
Proof.
  intros [(v & Hr & _) (codec & Hc & _) _ [[tb Htb] _] Hv Ha].
  unfold layout_entry. rewrite Hr, Hc, Htb. simpl. rewrite Hr in Hv, Ha.
  case_bool_decide; [subst|case_bool_decide; [subst|by eauto]].
  - destruct (Hv eq_refl) as ((? & -> & _) & (? & -> & _) & (? & -> & _) & (? & -> & _)). by eauto.
  - destruct (Ha eq_refl) as ((? & -> & _) & (? & -> & _) & (? & -> & _) & (? & -> & _)). by eauto.
Qed.

Lemma mapM_layout reference candidate :
  Forall2 streams_agree reference candidate ->
  exists entries, mapM layout_entry reference = Some entries.
Proof.
  intros H. apply mapM_is_Some_2. apply Forall_forall. intros r Hr.
  apply list_elem_of_lookup in Hr as [i Hi].
  destruct (Forall2_lookup_l _ _ _ _ _ H Hi) as (k & _ & Hrk).
  by apply streams_agree_entry in Hrk.
Qed.

(** When the second loop finds nothing to report, all parts are present and
    agree with the first. *)
Definition parts_agree (first : ProbeEvidence) (rest : list ProbeEvidence) : Prop :=
  rest <> [] /\ Forall part_present (first :: rest) /\
  Forall (fun p => Forall2 streams_agree (orderedStreams (pe_Streams first))
                     (orderedStreams (pe_Streams p))) rest.

(** An unknown, once recorded, is never forgotten by the loops. *)
Lemma part_loop_keeps part refpos rs ks sp unknown :
  part_loop part refpos sp unknown rs ks = inr None -> unknown = None.
Proof.
  revert ks sp unknown. induction rs as [|r rs IH]; intros [|k ks] sp unknown; simpl;
    try by intros [= ->].
  case_match; [done|]. intros Hu%IH. case_match; [|done].
  by apply first_some_None in Hu as [? _].
Qed.

Lemma layout_loop_keeps probes position refpos reference unknown :
  layout_loop position refpos reference unknown probes = inr None -> unknown = None.
Proof.
  revert position unknown. induction probes as [|p probes IH]; intros position unknown; simpl;
    [by intros [= ->]|].
  case_match; [apply IH|]. case_match; [done|].
  destruct (part_loop _ _ _ _ _ _) as [|u] eqn:E; [done|].
  intros ->%IH. by apply part_loop_keeps in E.
Qed.

Lemma loops_clean first rest unknown refpos reference :
  presence_loop 0 None None (first :: rest) = inr (unknown, Some (refpos, reference)) ->
  layout_loop 0 refpos reference unknown (first :: rest) = inr None ->
  reference = orderedStreams (pe_Streams first) /\ refpos = 0 /\
  Forall part_present (first :: rest) /\
  Forall (fun p => Forall2 streams_agree reference (orderedStreams (pe_Streams p))) rest.
Proof.
  intros Hp Hl. pose proof (layout_loop_keeps _ _ _ _ _ Hl) as ->.
  apply presence_loop_None in Hp as (_ & Hpres & [= -> ->]).
  apply layout_loop_None in Hl as [_ Hl]; [|done].
  split_and!; [done..|]. apply Forall_lookup. intros i p Hi. apply (Hl (S i) p Hi). lia.
Qed.

Lemma loops_agree first rest :
  parts_agree first rest ->
  presence_loop 0 None None (first :: rest) =
    inr (None, Some (0, orderedStreams (pe_Streams first))) /\
  layout_loop 0 0 (orderedStreams (pe_Streams first)) None (first :: rest) = inr None.
Proof.
  intros (_ & Hpres & Hagree). split.
  - by apply presence_loop_None.
  - apply layout_loop_None; [done|]. split; [done|]. intros [|i] p Hi Hne; [lia|].
    rewrite Forall_lookup in Hagree. by apply (Hagree i).
Qed.

Lemma parts_agree_layout first rest :
  parts_agree first rest ->
  exists layout, layoutFromStreams (orderedStreams (pe_Streams first)) = Some layout.
Proof.
  intros (Hne & _ & Hagree). destruct rest as [|p rest]; [done|].
  apply Forall_cons in Hagree as [Hp _].
  destruct (mapM_layout _ _ Hp) as [entries He]. unfold layoutFromStreams. rewrite He. by eexists.
Qed.

(** What the loops return early is always an incompatibility with its issue. *)
Definition incompatible (a : StreamCompatibilityAssessment) : Prop :=
  sa_Compatibility a = StreamsIncompatible /\ is_Some (sa_Issue a).

Lemma presence_loop_inl probes position unknown reference a :
  presence_loop position unknown reference probes = inl a -> incompatible a.
Proof.
  revert position unknown reference.
  induction probes as [|p probes IH]; intros position unknown reference; simpl; [done|].
  destruct (pe_Streams p); [apply IH|].
  destruct (videoPresence _) as [[] []]; simpl; try apply IH.
  intros [= <-]. split; [done|by eexists].
Qed.

Lemma part_loop_inl part refpos rs ks sp unknown a :
  part_loop part refpos sp unknown rs ks = inl a -> incompatible a.
Proof.
  revert ks sp unknown. induction rs as [|r rs IH]; intros [|k ks] sp unknown; simpl; try done.
  case_match; [intros [= <-]; split; [done|by eexists]|apply IH].
Qed.

Lemma layout_loop_inl probes position refpos reference unknown a :
  layout_loop position refpos reference unknown probes = inl a -> incompatible a.
Proof.
  revert position unknown. induction probes as [|p probes IH]; intros position unknown; simpl;
    [done|].
  case_match; [apply IH|]. case_match; [intros [= <-]; split; [done|by eexists]|].
  destruct (part_loop _ _ _ _ _ _) as [|u] eqn:E; [|apply IH].
  intros [= <-]. by apply part_loop_inl in E.
Qed.

(** The three ways the assessment of two or more parts can end. *)
Lemma AssessStreamCompatibility_cases first rest :
  rest <> [] ->
  (exists layout, parts_agree first rest /\
     layoutFromStreams (orderedStreams (pe_Streams first)) = Some layout /\
     AssessStreamCompatibility (first :: rest) =
       Some (mkStreamAssessment StreamsCompatible None (Some layout))) \/
  (~ parts_agree first rest /\ exists a, AssessStreamCompatibility (first :: rest) = Some a /\
     sa_Compatibility a <> StreamsCompatible /\ is_Some (sa_Issue a)).
Proof.
  intros Hne. unfold AssessStreamCompatibility.
  rewrite bool_decide_false by (destruct rest; [done|simpl; lia]).
  destruct (presence_loop _ _ _ _) as [a|[unknown [[refpos reference]|]]] eqn:Hp.
  - right. split.
    + intros Hag%loops_agree. destruct Hag as [Hag _]. congruence.
    + apply presence_loop_inl in Hp as [? ?]. exists a. split_and!; [done|congruence|done].
  - destruct (layout_loop _ _ _ _ _) as [a|[issue|]] eqn:Hl.
    + right. split.
      * intros Hag%loops_agree. destruct Hag as [Hp' Hl']. rewrite Hp in Hp'. simplify_eq. congruence.
      * apply layout_loop_inl in Hl as [? ?]. exists a. split_and!; [done|congruence|done].
    + right. split.
      * intros Hag%loops_agree. destruct Hag as [Hp' Hl']. rewrite Hp in Hp'. simplify_eq. congruence.
      * eexists. split_and!; [done|done|by eexists].
    + left. destruct (loops_clean _ _ _ _ _ Hp Hl) as (-> & -> & ? & ?).
      assert (parts_agree first rest) as Hag by (split_and!; done).
      destruct (parts_agree_layout _ _ Hag) as [layout Hlay]. exists layout.
      rewrite Hlay. done.
  - right. destruct unknown as [u|].
    + split; [|eexists; split_and!; [done|done|by eexists]].
      intros Hag%loops_agree. destruct Hag as [Hag _]. congruence.
    + apply presence_loop_None in Hp as (_ & _ & ?). done.
Qed.

(** The assessment never dereferences a missing pointer, and it reports the
    parts compatible exactly when there are two or more of them, each has a
    video stream, and the streams of every later part agree field by field
    with those of the first; the layout is then that of the first part. *)
Lemma AssessStreamCompatibility_correct (probes : list ProbeEvidence) :
  exists assessment, AssessStreamCompatibility probes = Some assessment /\
    (sa_Compatibility assessment = StreamsCompatible <->
     exists first rest, probes = first :: rest /\ parts_agree first rest) /\
    (sa_Compatibility assessment = StreamsCompatible ->
     sa_Issue assessment = None /\ is_Some (sa_Layout assessment) /\
     sa_Layout assessment =
       layoutFromStreams (orderedStreams (pe_Streams (hd zero_ProbeEvidence probes)))) /\
    (sa_Compatibility assessment <> StreamsCompatible -> is_Some (sa_Issue assessment)).
Proof.
  destruct probes as [|first [|second rest]].
  1,2: eexists; split; [done|]; simpl; split_and!; [|done|by eauto];
    split; [done|intros (? & ? & ? & Hne & _); simplify_eq; by destruct Hne].
  destruct (AssessStreamCompatibility_cases first (second :: rest)) as
    [(layout & Hag & Hlay & ->)|(Hnag & a & -> & Hc & Hi)]; [done| |].
  - eexists. split; [done|]. simpl. split; [split; eauto 6|]. rewrite Hlay. split; [by eauto|done].
  - eexists. split; [done|]. split; [|by split].
    split; [done|]. intros (f & r & [= <- <-] & Hag). done.
Qed.

(** *** The layout describes every part it came from *)

Lemma streams_agree_refl_l r k : streams_agree r k -> streams_agree r r.
Proof. intros [? ? ? [? ?] ? ?]. constructor; naive_solver. Qed.

(** The stream rebuilt from a layout entry agrees with whatever the original
    agreed with, also when its average rate is replaced by the candidate's. *)
Lemma streamFromLayout_agree r k entry :
  streams_agree r k -> layout_entry r = Some entry ->
  exists s, streamFromLayout entry = Some s /\
    streams_agree s k /\ streams_agree (set_AverageRate (ps_AverageRate k) s) k.
Proof.
  intros [(v & Hr & Hk) (codec & Hc & Hck) Hp [[tb Htb] Htbk] Hv Ha].
  unfold layout_entry. rewrite Hr, Hc, Htb. simpl. rewrite Hr in Hv, Ha.
  case_bool_decide; [subst|case_bool_decide; [subst|]].
  - destruct (Hv eq_refl) as ((? & -> & ?) & (? & -> & ?) & (? & -> & ?) & (? & -> & ?)).
    intros [= <-]. eexists. split; [done|]. split; constructor; simpl; naive_solver.
  - destruct (Ha eq_refl) as ((? & -> & ?) & (? & -> & ?) & (? & -> & ?) & (? & -> & ?)).
    intros [= <-]. eexists. split; [done|]. split; constructor; simpl; naive_solver.
  - intros [= <-]. unfold streamFromLayout. simpl. rewrite !bool_decide_false by done.
    eexists. split; [done|]. split; constructor; simpl; naive_solver.
Qed.

Lemma compareMuxedStream_clean r k entry s :
  streams_agree r k -> layout_entry r = Some entry -> streamFromLayout entry = Some s ->
  comparison_clean (compareMuxedStream s k) = true.
Proof.
  intros Hag He Hs. destruct (streamFromLayout_agree r k entry Hag He) as (s' & Hs' & H1 & H2).
  rewrite Hs in Hs'. injection Hs' as <-. unfold compareMuxedStream.
  destruct (ps_AverageRate s) as [rs|]; [|by apply compareStreams_clean].
  destruct (ps_AverageRate k) as [rk|] eqn:Ek; [|by apply compareStreams_clean].
  case_match; by apply compareStreams_clean.
Qed.

Lemma muxed_loop_agree reference candidate entries previous :
  Forall2 streams_agree reference candidate ->
  mapM layout_entry reference = Some entries ->
  NoDup (map ps_Index candidate) ->
  (forall i, previous = Some i -> i ∉ map ps_Index candidate) ->
  muxed_loop previous entries candidate = true.
Proof.
  intros Hag. revert entries previous.
  induction Hag as [|r k rs ks Hrk _ IH]; intros entries previous He Hnd Hprev.
  { injection He as <-. done. }
  simpl in He. destruct (layout_entry r) as [entry|] eqn:Hentry; [|done].
  destruct (mapM layout_entry rs) as [entries'|] eqn:Hes; [|done]. injection He as <-.
  cbn [map muxed_loop] in *. apply NoDup_cons in Hnd as [Hk Hnd].
  rewrite bool_decide_false by (intros ->; apply (Hprev (ps_Index k)); [done|by left]).
  destruct (streamFromLayout_agree r k entry Hrk Hentry) as (s & Hs & _ & _). rewrite Hs.
  rewrite (compareMuxedStream_clean r k entry s) by done. simpl.
  apply IH; [done|done|]. by intros i [= <-].
Qed.

(** Any part of a compatible join, taken alone, passes the check its layout
    imposes on the muxed output, provided its stream indexes are distinct. *)
Theorem layout_matches_parts (probes : list ProbeEvidence) (a : StreamCompatibilityAssessment)
    (layout : StreamLayout) (part : ProbeEvidence) :
  AssessStreamCompatibility probes = Some a -> sa_Compatibility a = StreamsCompatible ->
  sa_Layout a = Some layout -> part ∈ probes -> NoDup (map ps_Index (pe_Streams part)) ->
  MatchesMuxedOutput layout (pe_Streams part) = true.
Proof.
  intros Ha Hc Hl Hin Hnd.
  destruct (AssessStreamCompatibility_correct probes) as (a' & Ha' & Hiff & Hlay & _).
  simplify_eq. destruct (proj1 Hiff Hc) as (first & rest & -> & Hag).
  destruct (Hlay Hc) as (_ & _ & Hlayout). rewrite Hl in Hlayout. cbn [hd] in Hlayout.
  destruct Hag as (Hne & _ & Hag).
  assert (Forall2 streams_agree (orderedStreams (pe_Streams first))
            (orderedStreams (pe_Streams part))) as Hpart.
  { destruct rest as [|p rest]; [done|]. apply Forall_cons in Hag as Hag'. destruct Hag' as [Hp _].
    apply elem_of_cons in Hin as [->|Hin]; [|by apply (Forall_forall _ _) with part in Hag].
    clear -Hp. induction Hp; constructor; eauto using streams_agree_refl_l. }
  unfold layoutFromStreams in Hlayout.
  destruct (mapM layout_entry _) as [entries|] eqn:He; [|done]. injection Hlayout as ->.
  unfold MatchesMuxedOutput. simpl.
  rewrite bool_decide_true.
  - simpl. apply (muxed_loop_agree _ _ _ _ Hpart He); [|done]. by rewrite orderedStreams_perm.
  - apply length_mapM in He. apply Forall2_length in Hpart.
    rewrite orderedStreams_length in He. rewrite !orderedStreams_length in Hpart. congruence.
Qed.
