(* ===== verification/Media.v ===== *)
(** * Download files, media extensions and containers

    [internal/controller/filesystem.go], [media.go], [input_container.go] and
    [output_container.go]: the inventory of a download, which of its files may
    be probed and joined, and which container a join reads and writes. *)
From stdpp Require Import base strings list sets.
From S2P Require Import Prelude GoStrings FileIdentity Probe.

(** ** The inventory (filesystem.go) *)

Definition FileID := string.
Definition FileFingerprint := Snapshot.
#[global] Instance FileFingerprint_eq_dec : EqDecision FileFingerprint := Snapshot_eq_dec.

Record DownloadFileReference := mkDownloadFileReference
  { dfr_Index : Z; dfr_HasIndex : bool; dfr_LengthBytes : Z; dfr_BytesCompleted : Z;
    dfr_Selected : bool }.

Record InventoryFile := mkInventoryFile
  { if_ID : FileID; if_PathComponents : list string; if_Fingerprint : FileFingerprint;
    if_DownloadFile : option DownloadFileReference }.

Record FilePathMapping := mkFilePathMapping { fpm_FileID : FileID; fpm_AbsolutePath : string }.

Record FileInventory := mkFileInventory
  { fi_Files : list InventoryFile; fi_Paths : list FilePathMapping }.

#[global] Instance DownloadFileReference_eq_dec : EqDecision DownloadFileReference.
Proof. solve_decision. Defined.
#[global] Instance InventoryFile_eq_dec : EqDecision InventoryFile.
Proof. solve_decision. Defined.
#[global] Instance FilePathMapping_eq_dec : EqDecision FilePathMapping.
Proof. solve_decision. Defined.
#[global] Instance FileInventory_eq_dec : EqDecision FileInventory.
Proof. solve_decision. Defined.

(** ** Media files (media.go) *)

Inductive MediaExtension :=
| MediaExtensionTS | MediaExtensionM2TS | MediaExtensionMP4 | MediaExtensionMKV | MediaExtensionAVI.

Inductive MediaFileDisposition := MediaFileProbeCandidate | MediaFileEvidenceOnly.

Inductive MediaFileExclusionReason :=
| MediaFileUntracked | MediaFileUnwanted | MediaFileIncomplete | MediaFileEmpty
| MediaFileUnsupportedExtension.

#[global] Instance MediaExtension_eq_dec : EqDecision MediaExtension.
Proof. solve_decision. Defined.
#[global] Instance MediaFileDisposition_eq_dec : EqDecision MediaFileDisposition.
Proof. solve_decision. Defined.

(** The empty extension and the empty exclusion reason are [None]. *)
Record MediaFileAssessment := mkMediaFileAssessment
  { mfa_File : InventoryFile; mfa_Extension : option MediaExtension;
    mfa_Disposition : MediaFileDisposition;
    mfa_ExclusionReason : option MediaFileExclusionReason }.

Definition ProbeCandidate (assessment : MediaFileAssessment) : bool :=
  bool_decide (mfa_Disposition assessment = MediaFileProbeCandidate).

Definition supportedMediaExtension (pathComponents : list string) : option MediaExtension :=
  match last pathComponents with
  | None => None
  | Some name =>
      let extension := ToLower (filepath.Ext name) in
      if bool_decide (extension = ".ts") then Some MediaExtensionTS
      else if bool_decide (extension = ".m2ts") then Some MediaExtensionM2TS
      else if bool_decide (extension = ".mp4") then Some MediaExtensionMP4
      else if bool_decide (extension = ".mkv") then Some MediaExtensionMKV
      else if bool_decide (extension = ".avi") then Some MediaExtensionAVI
      else None
  end.

Definition classifyMediaFile (file : InventoryFile) : MediaFileAssessment :=
  let extension := supportedMediaExtension (if_PathComponents file) in
  let excluded reason :=
    mkMediaFileAssessment file extension MediaFileEvidenceOnly (Some reason) in
  match if_DownloadFile file with
  | None => excluded MediaFileUntracked
  | Some download =>
      if negb (dfr_Selected download) then excluded MediaFileUnwanted
      else if negb (bool_decide (dfr_BytesCompleted download = dfr_LengthBytes download))
      then excluded MediaFileIncomplete
      else if bool_decide (SizeBytes (if_Fingerprint file) <= 0) ||
              bool_decide (dfr_LengthBytes download <= 0)
      then excluded MediaFileEmpty
      else match extension with
      | None => excluded MediaFileUnsupportedExtension
      | Some _ => mkMediaFileAssessment file extension MediaFileProbeCandidate None
      end
  end.

Definition ClassifyMediaFiles (inventory : FileInventory) : list MediaFileAssessment :=
  map classifyMediaFile (fi_Files inventory).

(** The components before the last one decide whether a path is inside a raw
    disc tree. *)
Definition isRawDiscPath (pathComponents : list string) : bool :=
  existsb (fun component =>
    bool_decide (ToUpper component = "BDMV") || bool_decide (ToUpper component = "VIDEO_TS"))
    (removelast pathComponents).

Definition SupportsJoinPartsPath (pathComponents : list string) : bool :=
  negb (bool_decide (pathComponents = [])) && negb (isRawDiscPath pathComponents).

(** ** Input container (input_container.go) *)

Inductive InputContainer :=
| InputContainerMPEGTS | InputContainerMP4 | InputContainerMatroska | InputContainerAVI.

(** The string value of the constant, which is also the [ffprobe] format name. *)
Definition input_container_name (c : InputContainer) : string :=
  match c with
  | InputContainerMPEGTS => "mpegts"
  | InputContainerMP4 => "mp4"
  | InputContainerMatroska => "matroska"
  | InputContainerAVI => "avi"
  end.

Inductive InputContainerStatus :=
| InputContainerConfirmed | InputContainerIncompatible | InputContainerUnknown.

Inductive InputContainerIssueReason :=
| InputContainerTooFewParts | InputContainerUnsupportedExtension | InputContainerMixedExtensions
| InputContainerMissingProbeFormat | InputContainerProbeFormatMismatch.

#[global] Instance InputContainer_eq_dec : EqDecision InputContainer.
Proof. solve_decision. Defined.
#[global] Instance InputContainerStatus_eq_dec : EqDecision InputContainerStatus.
Proof. solve_decision. Defined.

Record InputContainerObservation := mkContainerObservation
  { ico_Extension : option MediaExtension; ico_FormatNames : list string }.

Record InputContainerIssue := mkInputContainerIssue
  { ici_Reason : InputContainerIssueReason; ici_PartPosition : option Z }.

Record InputContainerAssessment := mkInputContainerAssessment
  { ic_Status : InputContainerStatus; ic_Container : option InputContainer;
    ic_Issue : option InputContainerIssue }.

Definition inputContainerFailure (status : InputContainerStatus)
    (reason : InputContainerIssueReason) (position : option Z) : InputContainerAssessment :=
  mkInputContainerAssessment status None (Some (mkInputContainerIssue reason position)).

Definition containerForExtension (extension : option MediaExtension) : option InputContainer :=
  match extension with
  | Some MediaExtensionTS => Some InputContainerMPEGTS
  | Some MediaExtensionM2TS => None
  | Some MediaExtensionMP4 => Some InputContainerMP4
  | Some MediaExtensionMKV => Some InputContainerMatroska
  | Some MediaExtensionAVI => Some InputContainerAVI
  | None => None
  end.

Definition containsFormatName (names : list string) (want : string) : bool :=
  bool_decide (want ∈ names).

(** The loop over the observations; [missing] is the first position without a
    probed format. *)
Fixpoint input_container_loop (want : InputContainer) (position : Z) (missing : option Z)
    (observations : list InputContainerObservation) : InputContainerAssessment :=
  match observations with
  | [] =>
      match missing with
      | Some position =>
          inputContainerFailure InputContainerUnknown InputContainerMissingProbeFormat (Some position)
      | None => mkInputContainerAssessment InputContainerConfirmed (Some want) None
      end
  | observation :: rest =>
      match containerForExtension (ico_Extension observation) with
      | None =>
          inputContainerFailure InputContainerIncompatible InputContainerUnsupportedExtension
            (Some position)
      | Some container =>
          if negb (bool_decide (container = want)) then
            inputContainerFailure InputContainerIncompatible InputContainerMixedExtensions
              (Some position)
          else match ico_FormatNames observation with
          | [] =>
              input_container_loop want (position + 1)
                (match missing with None => Some position | Some _ => missing end) rest
          | names =>
              if negb (containsFormatName names (input_container_name want)) then
                inputContainerFailure InputContainerIncompatible InputContainerProbeFormatMismatch
                  (Some position)
              else input_container_loop want (position + 1) missing rest
          end
      end
  end.

Definition AssessInputContainer (observations : list InputContainerObservation)
    : InputContainerAssessment :=
  match observations with
  | first :: _ :: _ =>
      match containerForExtension (ico_Extension first) with
      | None =>
          inputContainerFailure InputContainerIncompatible InputContainerUnsupportedExtension (Some 0)
      | Some want => input_container_loop want 0 None observations
      end
  | _ => inputContainerFailure InputContainerUnknown InputContainerTooFewParts None
  end.

(** ** Output container (output_container.go) *)

(** [OutputContainer] is a string type whose values also come from stored
    records. *)
Definition OutputContainer := string.
Definition OutputContainerMP4 : OutputContainer := "mp4".
Definition OutputContainerMKV : OutputContainer := "mkv".
Definition OutputContainerAVI : OutputContainer := "avi".

Inductive OutputContainerIssueReason :=
| OutputContainerInputUnconfirmed | OutputContainerCrossContainerPolicyUndefined
| OutputContainerUnsupportedInput.

Record OutputContainerAssessment := mkOutputContainerAssessment
  { oc_Container : option OutputContainer; oc_Issue : option OutputContainerIssueReason }.

Definition SelectOutputContainer (input : InputContainerAssessment) : OutputContainerAssessment :=
  let failure reason := mkOutputContainerAssessment None (Some reason) in
  match ic_Status input, ic_Container input, ic_Issue input with
  | InputContainerConfirmed, Some container, None =>
      match container with
      | InputContainerMP4 => mkOutputContainerAssessment (Some OutputContainerMP4) None
      | InputContainerMatroska => mkOutputContainerAssessment (Some OutputContainerMKV) None
      | InputContainerAVI => mkOutputContainerAssessment (Some OutputContainerAVI) None
      | InputContainerMPEGTS => failure OutputContainerCrossContainerPolicyUndefined
      end
  | _, _, _ => failure OutputContainerInputUnconfirmed
  end.

(** ** Properties *)

Lemma existsb_not_exists {A} (f : A -> bool) l :
  existsb f l = false <-> forall x, In x l -> f x = false.
Proof.
  induction l as [|y l IH]; simpl; [naive_solver|]. rewrite orb_false_iff, IH. naive_solver.
Qed.

(** A file is offered for probing exactly when the download client finished
    it, it is not empty and it has a supported media extension. *)
Theorem classifyMediaFile_candidate (file : InventoryFile) :
  ProbeCandidate (classifyMediaFile file) = true <->
  exists download extension,
    if_DownloadFile file = Some download /\ dfr_Selected download = true /\
    dfr_BytesCompleted download = dfr_LengthBytes download /\
    0 < dfr_LengthBytes download /\ 0 < SizeBytes (if_Fingerprint file) /\
    supportedMediaExtension (if_PathComponents file) = Some extension.
Proof.
  unfold classifyMediaFile, ProbeCandidate. rewrite bool_decide_eq_true.
  split.
  - repeat case_next; intros H; try discriminate H. split_bool.
    eexists _, _. split_and!; eauto; lia.
  - intros (download & extension & -> & -> & -> & ? & ? & ->). simpl.
    by rewrite bool_decide_true, !bool_decide_false by (done || lia).
Qed.

(** The suffixes of media files. *)
Definition extension_suffix (extension : MediaExtension) : string :=
  match extension with
  | MediaExtensionTS => ".ts"
  | MediaExtensionM2TS => ".m2ts"
  | MediaExtensionMP4 => ".mp4"
  | MediaExtensionMKV => ".mkv"
  | MediaExtensionAVI => ".avi"
  end.

Lemma supportedMediaExtension_spec components extension :
  supportedMediaExtension components = Some extension <->
  exists name, last components = Some name /\ ToLower (filepath.Ext name) = extension_suffix extension.
Proof.
  unfold supportedMediaExtension. destruct (last components) as [name|]; [|naive_solver]. cbv zeta.
  transitivity (ToLower (filepath.Ext name) = extension_suffix extension).
  2: { split; [by eauto|]. by intros (n & [= <-] & ?). }
  split.
  - repeat (case_bool_decide as E; [rewrite E; by intros [= <-]|clear E]). by intros [=].
  - intros ->. by destruct extension.
Qed.

(** A path that is not inside a raw disc tree. *)
Lemma SupportsJoinPartsPath_spec components :
  SupportsJoinPartsPath components = true <->
  components <> [] /\
  Forall (fun c => ToUpper c <> "BDMV" /\ ToUpper c <> "VIDEO_TS") (removelast components).
Proof.
  unfold SupportsJoinPartsPath, isRawDiscPath.
  rewrite andb_true_iff, !negb_true_iff, bool_decide_eq_false, existsb_not_exists, Forall_forall. split.
  - intros [Hne H]. split; [done|]. intros c Hc%list_elem_of_In. specialize (H c Hc).
    apply orb_false_iff in H as [?%bool_decide_eq_false ?%bool_decide_eq_false]. done.
  - intros [Hne H]. split; [done|]. intros c Hc%list_elem_of_In. destruct (H c Hc).
    by rewrite !bool_decide_false.
Qed.

Lemma input_container_loop_confirmed want observations position missing c :
  input_container_loop want position missing observations =
    mkInputContainerAssessment InputContainerConfirmed c None <->
  c = Some want /\ missing = None /\
  Forall (fun o => containerForExtension (ico_Extension o) = Some want /\
                   input_container_name want ∈ ico_FormatNames o) observations.
Proof.
  revert position missing. induction observations as [|o rest IH]; intros position missing; simpl.
  { destruct missing; unfold inputContainerFailure; naive_solver. }
  rewrite Forall_cons. unfold inputContainerFailure, containsFormatName.
  destruct (containerForExtension _) as [k|]; [|naive_solver].
  case_bool_decide; simpl; [subst k|naive_solver].
  destruct (ico_FormatNames o) as [|n names]; simpl.
  - rewrite IH. destruct missing; set_solver.
  - case_bool_decide; simpl; [rewrite IH|]; naive_solver.
Qed.

(** A join has a confirmed input container exactly when there are two parts or
    more, all extensions name that container, and every part was probed as it. *)
Lemma AssessInputContainer_confirmed (observations : list InputContainerObservation)
    (c : option InputContainer) :
  AssessInputContainer observations = mkInputContainerAssessment InputContainerConfirmed c None <->
  (2 <= length observations)%nat /\
  exists want, c = Some want /\
    Forall (fun o => containerForExtension (ico_Extension o) = Some want /\
                     input_container_name want ∈ ico_FormatNames o) observations.
Proof.
  destruct observations as [|first [|second rest]].
  1,2: simpl; unfold inputContainerFailure; split; [done|intros [? _]; simpl in *; lia].
  cbn [AssessInputContainer].
  destruct (containerForExtension (ico_Extension first)) as [want|] eqn:Hfirst.
  - rewrite input_container_loop_confirmed. split.
    + intros (-> & _ & H). split; [simpl; lia|]. by exists want.
    + intros (_ & want' & -> & H). assert (want' = want) as ->; [|done].
      apply Forall_cons in H as [[H _] _]. congruence.
  - unfold inputContainerFailure. split; [done|]. intros (_ & want & _ & H).
    apply Forall_cons in H as [[H _] _]. congruence.
Qed.
