(* ===== verification/Radarr.v ===== *)
(** * Radarr observations and manual-import commands

    [internal/controller/radarr.go], [download.go], [candidates.go],
    [correlation.go], [manual_import.go] and [replacement.go]: the queue,
    history and download facts the controller works from, which downloads it
    may repair, and the exact import command it retains for a file. *)
From stdpp Require Import base strings list sets gmap.
From S2P Require Import Prelude GoStrings FileIdentity Probe Media.

(** ** Data (radarr.go, download.go) *)

Record RadarrStatusMessage := mkStatusMessage { sm_Title : string; sm_Messages : list string }.

Record RadarrQueueRecord := mkQueueRecord
  { q_ID : Z; q_MovieID : option Z; q_Title : string; q_SizeBytes : float;
    q_SizeRemainingBytes : float; q_TimeRemaining : string;
    q_EstimatedCompletionTime : option time; q_Status : string;
    q_TrackedDownloadStatus : string; q_TrackedDownloadState : string;
    q_StatusMessages : list RadarrStatusMessage; q_ErrorMessage : string;
    q_DownloadID : string; q_Protocol : string; q_DownloadClient : string;
    q_Indexer : string; q_OutputPath : string; q_DownloadClientHasPostCategory : bool }.

Record RadarrMovie := mkMovie
  { mv_ID : Z; mv_TMDBID : Z; mv_HasFile : bool; mv_IMDbID : option string; mv_Title : string;
    mv_OriginalTitle : option string; mv_AlternateTitles : list string; mv_Year : Z;
    mv_RuntimeMinutes : option Z }.

Record RadarrQuality := mkQuality
  { ql_ID : Z; ql_Name : string; ql_Source : string; ql_Resolution : Z; ql_Modifier : string }.
Record RadarrQualityRevision := mkQualityRevision
  { qr_Version : Z; qr_Real : Z; qr_IsRepack : bool }.
Record RadarrQualityModel := mkQualityModel
  { qm_Quality : RadarrQuality; qm_Revision : option RadarrQualityRevision }.
Record RadarrLanguage := mkLanguage { lang_ID : Z; lang_Name : string }.

Record RadarrHistoryEvent := mkHistoryEvent
  { he_ID : Z; he_MovieID : Z; he_DownloadID : string; he_EventType : string;
    he_OccurredAt : time; he_SourceTitle : string; he_Quality : option RadarrQualityModel;
    he_Languages : list RadarrLanguage }.

Record RadarrImportedFile := mkImportedFile
  { imp_HistoryID : Z; imp_MovieFileID : Z; imp_MovieID : Z; imp_DownloadID : string;
    imp_OccurredAt : time; imp_DroppedPath : string; imp_ImportedPath : string }.

Record RadarrManualImportRejection := mkManualImportRejection
  { rj_Code : string; rj_Type : string; rj_Reason : string }.

Record RadarrManualImport := mkManualImport
  { mi_Path : string; mi_RelativePath : string; mi_FolderName : string; mi_SizeBytes : Z;
    mi_MovieID : Z; mi_DownloadID : string; mi_Quality : option RadarrQualityModel;
    mi_Languages : list RadarrLanguage; mi_ReleaseGroup : string; mi_IndexerFlags : Z;
    mi_Rejections : list RadarrManualImportRejection }.

Inductive DownloadIDComparison := DownloadIDExact | DownloadIDASCIIInsensitive | DownloadIDOther.
Inductive DownloadContentOwnership :=
| DownloadContentManifest | DownloadContentOutputTree | DownloadContentOther.

Record DownloadFile := mkDownloadFile
  { df_Index : Z; df_HasIndex : bool; df_Path : string; df_LengthBytes : Z;
    df_BytesCompleted : Z; df_Selected : bool }.

Record Download := mkDownload
  { dl_Client : string; dl_SourceType : string; dl_ID : string;
    dl_IDComparison : DownloadIDComparison; dl_Name : string; dl_Stable : bool;
    dl_Complete : bool; dl_OutputPath : string; dl_Labels : list string;
    dl_CreatedAt : option time; dl_AddedAt : option time; dl_CompletedAt : option time;
    dl_TotalSizeBytes : Z; dl_ContentOwnership : DownloadContentOwnership;
    dl_Files : list DownloadFile }.

#[global] Instance RadarrStatusMessage_eq_dec : EqDecision RadarrStatusMessage.
Proof. solve_decision. Defined.
#[global] Instance RadarrQueueRecord_eq_dec : EqDecision RadarrQueueRecord.
Proof. solve_decision. Defined.
#[global] Instance RadarrMovie_eq_dec : EqDecision RadarrMovie.
Proof. solve_decision. Defined.
#[global] Instance RadarrQuality_eq_dec : EqDecision RadarrQuality.
Proof. solve_decision. Defined.
#[global] Instance RadarrQualityRevision_eq_dec : EqDecision RadarrQualityRevision.
Proof. solve_decision. Defined.
#[global] Instance RadarrQualityModel_eq_dec : EqDecision RadarrQualityModel.
Proof. solve_decision. Defined.
#[global] Instance RadarrLanguage_eq_dec : EqDecision RadarrLanguage.
Proof. solve_decision. Defined.
#[global] Instance RadarrHistoryEvent_eq_dec : EqDecision RadarrHistoryEvent.
Proof. solve_decision. Defined.
#[global] Instance RadarrImportedFile_eq_dec : EqDecision RadarrImportedFile.
Proof. solve_decision. Defined.
#[global] Instance RadarrManualImportRejection_eq_dec : EqDecision RadarrManualImportRejection.
Proof. solve_decision. Defined.
#[global] Instance RadarrManualImport_eq_dec : EqDecision RadarrManualImport.
Proof. solve_decision. Defined.
#[global] Instance DownloadFile_eq_dec : EqDecision DownloadFile.
Proof. solve_decision. Defined.
#[global] Instance DownloadIDComparison_eq_dec : EqDecision DownloadIDComparison.
Proof. solve_decision. Defined.
#[global] Instance DownloadContentOwnership_eq_dec : EqDecision DownloadContentOwnership.
Proof. solve_decision. Defined.

#[global] Instance Download_eq_dec : EqDecision Download.
Proof. solve_decision. Defined.

Definition MatchesID (download : Download) (value : string) : bool :=
  match dl_IDComparison download with
  | DownloadIDExact => bool_decide (value = dl_ID download)
  | DownloadIDASCIIInsensitive => EqualFold value (dl_ID download)
  | DownloadIDOther => false
  end.

(** ** Repair candidates (candidates.go) *)

Inductive CandidateRejectionReason :=
| CandidateUnsupportedSource | CandidateIncompleteDownload | CandidateUnsupportedQueueState
| CandidateMissingDownloadID | CandidateInvalidOutputPath.

#[global] Instance CandidateRejectionReason_eq_dec : EqDecision CandidateRejectionReason.
Proof. solve_decision. Defined.

Record CandidateAssessment := mkCandidateAssessment
  { ca_Record : RadarrQueueRecord; ca_RejectionReasons : list CandidateRejectionReason }.

Definition candidate_Eligible (assessment : CandidateAssessment) : bool :=
  bool_decide (ca_RejectionReasons assessment = []).

(** The closure [addReason]: a reason is recorded once. *)
Definition add_reason `{EqDecision R} (reason : R) (reasons : list R) : list R :=
  if bool_decide (reason ∈ reasons) then reasons else reasons ++ [reason].

Definition add_reason_if `{EqDecision R} (condition : bool) (reason : R) (reasons : list R)
    : list R :=
  if condition then add_reason reason reasons else reasons.

Definition eligibleQueueStates : list (string * string * string) :=
  [("completed", "warning", "importBlocked"); ("completed", "warning", "importPending")].

Definition eligibleQueueState (record : RadarrQueueRecord) : bool :=
  bool_decide ((q_Status record, q_TrackedDownloadStatus record, q_TrackedDownloadState record)
               ∈ eligibleQueueStates).

Definition usableDownloadID (downloadID : string) : bool :=
  negb (bool_decide (downloadID = "")) && bool_decide (TrimSpace downloadID = downloadID) &&
  negb (ContainsByte downloadID nul).

Definition usableOutputPath (outputPath : string) : bool :=
  if bool_decide (outputPath = "") || negb (bool_decide (TrimSpace outputPath = outputPath)) ||
     ContainsByte outputPath nul || negb (filepath.IsAbs outputPath)
  then false
  else
    let cleaned := filepath.Clean outputPath in
    bool_decide (cleaned = outputPath) && negb (bool_decide (cleaned = "/")).

(** [supports] is the [DownloadSupport] of the caller, [None] when it is nil. *)
Definition classifyRepairCandidate (record : RadarrQueueRecord)
    (supports : option (string -> string -> bool)) : CandidateAssessment :=
  let unsupported :=
    match supports with
    | None => true
    | Some f => negb (f (q_Protocol record) (q_DownloadClient record))
    end in
  let reasons := add_reason_if unsupported CandidateUnsupportedSource [] in
  let reasons := add_reason_if
    (negb (bool_decide (q_Status record = "completed")) ||
     negb (feqb (q_SizeRemainingBytes record) (float_of_int 0)))
    CandidateIncompleteDownload reasons in
  let reasons := add_reason_if (negb (eligibleQueueState record))
    CandidateUnsupportedQueueState reasons in
  let reasons := add_reason_if (negb (usableDownloadID (q_DownloadID record)))
    CandidateMissingDownloadID reasons in
  let reasons := add_reason_if (negb (usableOutputPath (q_OutputPath record)))
    CandidateInvalidOutputPath reasons in
  mkCandidateAssessment record reasons.

Definition ClassifyRepairCandidates (records : list RadarrQueueRecord)
    (supports : option (string -> string -> bool)) : list CandidateAssessment :=
  map (fun record => classifyRepairCandidate record supports) records.

(** ** Correlation (correlation.go) *)

Inductive CorrelationRejectionReason :=
| CorrelationInvalidRadarrDownloadID | CorrelationInvalidDownloadID
| CorrelationDownloadIDMismatch | CorrelationUnstableDownload
| CorrelationIncompleteDownload | CorrelationNoSelectedFiles
| CorrelationInvalidDownloadRoot | CorrelationDownloadRootMismatch.

#[global] Instance CorrelationRejectionReason_eq_dec : EqDecision CorrelationRejectionReason.
Proof. solve_decision. Defined.

Record DownloadCorrelation := mkCorrelation
  { dc_Radarr : RadarrQueueRecord; dc_Download : Download; dc_DownloadRoot : string;
    dc_RejectionReasons : list CorrelationRejectionReason }.

#[global] Instance DownloadCorrelation_eq_dec : EqDecision DownloadCorrelation.
Proof. solve_decision. Defined.

Definition correlation_Eligible (correlation : DownloadCorrelation) : bool :=
  bool_decide (dc_RejectionReasons correlation = []).

(** The loop over the manifest: the reasons so far and how many files the
    download selected. *)
Fixpoint manifest_loop (files : list DownloadFile) (selected : Z)
    (reasons : list CorrelationRejectionReason) : Z * list CorrelationRejectionReason :=
  match files with
  | [] => (selected, reasons)
  | file :: rest =>
      if negb (df_Selected file) then manifest_loop rest selected reasons
      else manifest_loop rest (selected + 1)
             (add_reason_if (negb (bool_decide (df_BytesCompleted file = df_LengthBytes file)))
                CorrelationIncompleteDownload reasons)
  end.

Definition CorrelateDownload (record : RadarrQueueRecord) (download : Download)
    : DownloadCorrelation :=
  let reasons := add_reason_if (bool_decide (q_DownloadID record = ""))
    CorrelationInvalidRadarrDownloadID [] in
  let validDownloadID :=
    negb (bool_decide (dl_ID download = "")) &&
    (bool_decide (dl_IDComparison download = DownloadIDExact) ||
     bool_decide (dl_IDComparison download = DownloadIDASCIIInsensitive)) in
  let reasons := add_reason_if (negb validDownloadID) CorrelationInvalidDownloadID reasons in
  let reasons := add_reason_if
    (negb (bool_decide (q_DownloadID record = "")) && validDownloadID &&
     negb (MatchesID download (q_DownloadID record)))
    CorrelationDownloadIDMismatch reasons in
  let reasons := add_reason_if (negb (dl_Stable download)) CorrelationUnstableDownload reasons in
  let reasons := add_reason_if (negb (dl_Complete download)) CorrelationIncompleteDownload reasons in
  let reasons :=
    if bool_decide (dl_ContentOwnership download = DownloadContentManifest) then
      let '(selected, reasons) := manifest_loop (dl_Files download) 0 reasons in
      add_reason_if (bool_decide (selected = 0)) CorrelationNoSelectedFiles reasons
    else reasons in
  let validDownloadRoot := usableOutputPath (dl_OutputPath download) in
  let validRadarrRoot := usableOutputPath (q_OutputPath record) in
  if negb validDownloadRoot || negb validRadarrRoot then
    mkCorrelation record download "" (add_reason CorrelationInvalidDownloadRoot reasons)
  else if negb (bool_decide (dl_OutputPath download = q_OutputPath record)) then
    mkCorrelation record download "" (add_reason CorrelationDownloadRootMismatch reasons)
  else mkCorrelation record download (q_OutputPath record) reasons.

(** ** Manual-import commands (manual_import.go) *)

Definition RadarrImportModeCopy : string := "copy".
Definition RadarrHistoryEventGrabbed : string := "grabbed".

Record RadarrManualImportCommandFile := mkCommandFile
  { cf_Path : string; cf_FolderName : string; cf_Quality : RadarrQualityModel;
    cf_Languages : list RadarrLanguage; cf_ReleaseGroup : string; cf_IndexerFlags : Z;
    cf_DownloadID : string; cf_MovieID : Z }.

Record RadarrManualImportCommand := mkImportCommand
  { cmd_ImportMode : string; cmd_File : RadarrManualImportCommandFile }.

Record RadarrManualImportBinding := mkBinding
  { bd_FileID : FileID; bd_ExpectedFingerprint : FileFingerprint; bd_ImportMode : string;
    bd_File : RadarrManualImportCommandFile }.

#[global] Instance RadarrManualImportCommandFile_eq_dec : EqDecision RadarrManualImportCommandFile.
Proof. solve_decision. Defined.
#[global] Instance RadarrManualImportCommand_eq_dec : EqDecision RadarrManualImportCommand.
Proof. solve_decision. Defined.
#[global] Instance RadarrManualImportBinding_eq_dec : EqDecision RadarrManualImportBinding.
Proof. solve_decision. Defined.

Definition completeText (value : string) : bool :=
  negb (bool_decide (value = "")) && bool_decide (TrimSpace value = value).

Definition validLanguages (languages : list RadarrLanguage) : bool :=
  forallb (fun language => completeText (lang_Name language)) languages.

Definition command_Complete (command : RadarrManualImportCommand) : bool :=
  let file := cmd_File command in
  bool_decide (cmd_ImportMode command = RadarrImportModeCopy) &&
  usableOutputPath (cf_Path file) &&
  (bool_decide (cf_FolderName file = "") || completeText (cf_FolderName file)) &&
  completeText (ql_Name (qm_Quality (cf_Quality file))) &&
  validLanguages (cf_Languages file) &&
  (bool_decide (cf_ReleaseGroup file = "") || completeText (cf_ReleaseGroup file)) &&
  completeText (cf_DownloadID file) &&
  bool_decide (0 < cf_MovieID file).

Definition binding_Complete (binding : RadarrManualImportBinding) : bool :=
  negb (bool_decide (bd_FileID binding = "")) &&
  bool_decide (0 < SizeBytes (bd_ExpectedFingerprint binding)) &&
  command_Complete (mkImportCommand (bd_ImportMode binding) (bd_File binding)).

Definition matching_grab (movieID : Z) (downloadID : string) (event : RadarrHistoryEvent) : bool :=
  bool_decide (he_EventType event = RadarrHistoryEventGrabbed) &&
  bool_decide (he_MovieID event = movieID) && EqualFold (he_DownloadID event) downloadID.

Definition later_event (event latest : RadarrHistoryEvent) : bool :=
  After (he_OccurredAt event) (he_OccurredAt latest) ||
  time_Equal (he_OccurredAt event) (he_OccurredAt latest) && bool_decide (he_ID event > he_ID latest).

Definition grab_step (movieID : Z) (downloadID : string) (latest : option RadarrHistoryEvent)
    (event : RadarrHistoryEvent) : option RadarrHistoryEvent :=
  if negb (matching_grab movieID downloadID event) then latest
  else match latest with
  | None => Some event
  | Some l => if later_event event l then Some event else latest
  end.

Definition latestMatchingGrab (history : list RadarrHistoryEvent) (movieID : Z)
    (downloadID : string) : option RadarrHistoryEvent :=
  fold_left (grab_step movieID downloadID) history None.

(** Returns the binding and whether it may be used; the zero binding of the
    early returns is [None]. *)
Definition BindRadarrManualImportFile (file : InventoryFile) (absolutePath : string)
    (manualImport : RadarrManualImport) (history : list RadarrHistoryEvent)
    : option RadarrManualImportBinding * bool :=
  let assessment := classifyMediaFile file in
  if negb (ProbeCandidate assessment) || isRawDiscPath (if_PathComponents file) ||
     negb (bool_decide (mi_Path manualImport = absolutePath)) ||
     negb (bool_decide (mi_SizeBytes manualImport = SizeBytes (if_Fingerprint file)))
  then (None, false)
  else
    let '(quality, languages) :=
      match mi_Quality manualImport with
      | Some quality => (Some quality, mi_Languages manualImport)
      | None =>
          match latestMatchingGrab history (mi_MovieID manualImport) (mi_DownloadID manualImport) with
          | None => (None, mi_Languages manualImport)
          | Some grab =>
              (he_Quality grab,
               match mi_Languages manualImport with [] => he_Languages grab | l => l end)
          end
      end in
    match quality with
    | None => (None, false)
    | Some quality =>
        if negb (completeText (ql_Name (qm_Quality quality))) || negb (validLanguages languages)
        then (None, false)
        else
          let binding := mkBinding (if_ID file) (if_Fingerprint file) RadarrImportModeCopy
            (mkCommandFile (mi_Path manualImport) (mi_FolderName manualImport) quality languages
               (mi_ReleaseGroup manualImport) (mi_IndexerFlags manualImport)
               (mi_DownloadID manualImport) (mi_MovieID manualImport)) in
          (Some binding, binding_Complete binding)
    end.

Definition BuildRadarrPublishedFileImport (path : string) (movieID : Z) (downloadID : string)
    (history : list RadarrHistoryEvent) : option RadarrManualImportCommand * bool :=
  match latestMatchingGrab history movieID downloadID with
  | None => (None, false)
  | Some grab =>
      match he_Quality grab with
      | None => (None, false)
      | Some quality =>
          let command := mkImportCommand RadarrImportModeCopy
            (mkCommandFile path "" quality (he_Languages grab) "" 0 downloadID movieID) in
          (Some command, command_Complete command)
      end
  end.

(** ** Replacement safety (replacement.go) *)

Inductive ReplacementSafety :=
| ReplacementNotRequired | ReplacementAllowed | ReplacementSuperseded | ReplacementUnproved.

#[global] Instance ReplacementSafety_eq_dec : EqDecision ReplacementSafety.
Proof. solve_decision. Defined.

Definition supersededRejectionReasons : list string :=
  ["notQualityUpgrade"; "notRevisionUpgrade"; "notCustomFormatUpgrade"].
Definition incompleteDecisionRejectionReasons : list string :=
  ["invalidMovie"; "unableToParse"; "error"; "decisionError"].
Definition completedDecisionRejectionReasons : list string :=
  ["minimumFreeSpace"; "movieAlreadyImported"; "movieNotFoundInRelease"; "multiPartMovie";
   "noAudio"; "sample"; "sampleIndeterminate"; "unknownMovie"; "unpacking"].

Fixpoint replacement_completed (rejections : list RadarrManualImportRejection) : ReplacementSafety :=
  match rejections with
  | [] => ReplacementAllowed
  | rejection :: rest =>
      if bool_decide (rj_Code rejection ∈ incompleteDecisionRejectionReasons)
      then ReplacementUnproved
      else if negb (bool_decide (rj_Code rejection ∈ completedDecisionRejectionReasons))
      then ReplacementUnproved
      else replacement_completed rest
  end.

Definition ClassifyReplacement (movie : option RadarrMovie) (manualImport : RadarrManualImport)
    : ReplacementSafety :=
  match movie with
  | None => ReplacementNotRequired
  | Some movie =>
      if negb (mv_HasFile movie) then ReplacementNotRequired
      else if existsb (fun rejection => bool_decide (rj_Code rejection ∈ supersededRejectionReasons))
                (mi_Rejections manualImport)
      then ReplacementSuperseded
      else replacement_completed (mi_Rejections manualImport)
  end.

Definition AllReplacementsSuperseded (movie : option RadarrMovie)
    (manualImports : list RadarrManualImport) : bool :=
  match movie with
  | None => false
  | Some m =>
      if negb (mv_HasFile m) || bool_decide (length manualImports = 0%nat) then false
      else forallb (fun manualImport =>
             bool_decide (ClassifyReplacement movie manualImport = ReplacementSuperseded))
             manualImports
  end.

(** ** Properties *)

Lemma add_reason_nonempty `{EqDecision R} (reason : R) reasons : add_reason reason reasons <> [].
Proof.
  unfold add_reason. case_bool_decide as Hin; [by destruct reasons; [apply not_elem_of_nil in Hin|]|].
  by destruct reasons.
Qed.

Lemma add_reason_if_nil `{EqDecision R} c (reason : R) reasons :
  add_reason_if c reason reasons = [] <-> reasons = [] /\ c = false.
Proof.
  unfold add_reason_if. destruct c; [|naive_solver].
  split; [by intros ?%add_reason_nonempty|naive_solver].
Qed.

Lemma manifest_loop_spec files selected reasons :
  (manifest_loop files selected reasons).1 =
    selected + Z.of_nat (length (List.filter df_Selected files)) /\
  ((manifest_loop files selected reasons).2 = [] <->
   reasons = [] /\ Forall (fun f => df_Selected f = true -> df_BytesCompleted f = df_LengthBytes f) files).
Proof.
  revert selected reasons. induction files as [|f files IH]; intros selected reasons; simpl.
  { split; [lia|]. rewrite Forall_nil. tauto. }
  rewrite Forall_cons. destruct (df_Selected f) eqn:Hsel; simpl.
  - destruct (IH (selected + 1) (add_reason_if (negb (bool_decide (df_BytesCompleted f =
      df_LengthBytes f))) CorrelationIncompleteDownload reasons)) as [-> ->].
    split; [lia|]. rewrite add_reason_if_nil, negb_false_iff, bool_decide_eq_true. tauto.
  - destruct (IH selected reasons) as [-> ->]. split; [done|].
    split; [intros [? ?]; split_and!; done|tauto].
Qed.

(** The files of a manifest download are complete and at least one is wanted. *)
Definition manifest_complete (download : Download) : Prop :=
  dl_ContentOwnership download = DownloadContentManifest ->
  Forall (fun f => df_Selected f = true -> df_BytesCompleted f = df_LengthBytes f)
    (dl_Files download) /\
  Exists (fun f => df_Selected f = true) (dl_Files download).

Lemma selected_exists files :
  Z.of_nat (length (List.filter df_Selected files)) <> 0 <->
  Exists (fun f => df_Selected f = true) files.
Proof.
  induction files as [|f files IH]; simpl; [rewrite Exists_nil; lia|].
  rewrite Exists_cons, <- IH. destruct (df_Selected f); simpl; naive_solver lia.
Qed.

(** A queue record is correlated with a download exactly when both name the
    same finished, stable content under one usable root; that root is then the
    one the correlation reports. *)
Theorem CorrelateDownload_eligible (record : RadarrQueueRecord) (download : Download) :
  correlation_Eligible (CorrelateDownload record download) = true <->
  q_DownloadID record <> "" /\ dl_ID download <> "" /\
  MatchesID download (q_DownloadID record) = true /\
  dl_Stable download = true /\ dl_Complete download = true /\ manifest_complete download /\
  usableOutputPath (q_OutputPath record) = true /\ dl_OutputPath download = q_OutputPath record /\
  dc_DownloadRoot (CorrelateDownload record download) = q_OutputPath record.
Proof.
  unfold correlation_Eligible. rewrite bool_decide_eq_true. unfold CorrelateDownload. cbv zeta.
  match goal with |- context [negb (usableOutputPath _) || _] =>
    match goal with |- context [add_reason CorrelationInvalidDownloadRoot ?r] =>
      set (reasons := r) end end.
  assert (reasons = [] <-> q_DownloadID record <> "" /\ dl_ID download <> "" /\
    MatchesID download (q_DownloadID record) = true /\ dl_Stable download = true /\
    dl_Complete download = true /\ manifest_complete download) as Hreasons.
  { unfold reasons, manifest_complete, MatchesID. case_bool_decide.
    - match goal with |- context [manifest_loop ?f ?s ?r] =>
        pose proof (manifest_loop_spec f s r) as [Hsel Hr];
        destruct (manifest_loop f s r) as [selected rs] end.
      simpl in *. subst selected. rewrite add_reason_if_nil, Hr, !add_reason_if_nil, Z.add_0_l.
      assert (bool_decide (Z.of_nat (length (List.filter df_Selected (dl_Files download))) = 0) = false
        <-> Exists (fun f => df_Selected f = true) (dl_Files download)) as ->
        by (rewrite bool_decide_eq_false; apply selected_exists).
      destruct (dl_IDComparison download); autorewrite with go; rewrite ?bool_decide_eq_false;
        repeat case_bool_decide; simpl; naive_solver.
    - rewrite !add_reason_if_nil.
      destruct (dl_IDComparison download); autorewrite with go;
        repeat case_bool_decide; simpl; naive_solver. }
  clearbody reasons.
  destruct (usableOutputPath (dl_OutputPath download)) eqn:Hd,
    (usableOutputPath (q_OutputPath record)) eqn:Hq; simpl;
    try (split; [by intros ?%add_reason_nonempty|intros (? & ? & ? & ? & ? & ? & ? & Heq & ?); congruence]).
  case_bool_decide as Heq; simpl; [rewrite Hreasons; naive_solver|].
  split; [by intros ?%add_reason_nonempty|naive_solver].
Qed.

(** Newer by time, then by history identifier. *)
Definition not_later (a b : RadarrHistoryEvent) : Prop :=
  t_ns (he_OccurredAt a) < t_ns (he_OccurredAt b) \/
  t_ns (he_OccurredAt a) = t_ns (he_OccurredAt b) /\ he_ID a <= he_ID b.

Lemma later_event_false a b : later_event a b = false <-> not_later a b.
Proof.
  unfold later_event, After, time_Equal, not_later.
  repeat case_bool_decide; simpl; naive_solver lia.
Qed.

Lemma not_later_trans a b c : not_later a b -> not_later b c -> not_later a c.
Proof. unfold not_later. lia. Qed.

Lemma later_event_true a b : later_event a b = true -> not_later b a.
Proof.
  unfold later_event, After, time_Equal, not_later.
  repeat case_bool_decide; simpl; naive_solver lia.
Qed.

Lemma grab_fold history movieID downloadID latest :
  (forall l, latest = Some l -> matching_grab movieID downloadID l = true) ->
  match fold_left (grab_step movieID downloadID) history latest with
  | None => latest = None /\ Forall (fun e => matching_grab movieID downloadID e = false) history
  | Some r => (r ∈ history \/ latest = Some r) /\ matching_grab movieID downloadID r = true /\
      (forall l, latest = Some l -> not_later l r) /\
      Forall (fun e => matching_grab movieID downloadID e = true -> not_later e r) history
  end.
Proof.
  revert latest. induction history as [|e history IH]; intros latest Hl; simpl.
  { destruct latest as [l|]; [|by split]. split_and!; [by right|by apply Hl| |constructor].
    intros l' [= <-]. unfold not_later. lia. }
  specialize (IH (grab_step movieID downloadID latest e)).
  assert (forall l, grab_step movieID downloadID latest e = Some l ->
    matching_grab movieID downloadID l = true) as Hstep.
  { intros l. unfold grab_step. destruct (matching_grab _ _ e) eqn:He; simpl; [|apply Hl].
    destruct latest as [l'|]; [destruct (later_event e l')|]; intros ?; simplify_eq; auto. }
  specialize (IH Hstep).
  destruct (fold_left _ history _) as [r|].
  - destruct IH as (Hin & Hm & Hlat & Hall). rewrite Forall_cons.
    unfold grab_step in Hin, Hlat. destruct (matching_grab _ _ e) eqn:He; simpl in *.
    + destruct latest as [l|].
      * assert (not_later e r /\ not_later l r) as [? ?].
        { destruct (later_event e l) eqn:Hle; (split; [|]);
            eauto using not_later_trans, later_event_true.
          apply later_event_false in Hle. eauto using not_later_trans. }
        split_and!; try done; [destruct (later_event e l); set_solver|naive_solver].
      * split_and!; try done; [set_solver|]. intros _. by apply Hlat.
    + split_and!; try done; set_solver.
  - destruct IH as [Hlat Hall]. rewrite Forall_cons. unfold grab_step in Hlat.
    destruct (matching_grab _ _ e); simpl in *; [|done].
    destruct latest as [l|]; [|done]. by destruct (later_event e l).
Qed.

(** The grab an import inherits its quality from is a matching history event
    with no later matching one, and it is found whenever one exists. *)
Theorem latestMatchingGrab_correct (history : list RadarrHistoryEvent) (movieID : Z)
    (downloadID : string) :
  match latestMatchingGrab history movieID downloadID with
  | None => Forall (fun e => matching_grab movieID downloadID e = false) history
  | Some r => r ∈ history /\ matching_grab movieID downloadID r = true /\
      Forall (fun e => matching_grab movieID downloadID e = true -> not_later e r) history
  end.
Proof.
  pose proof (grab_fold history movieID downloadID None) as H. unfold latestMatchingGrab.
  specialize (H ltac:(done)). destruct (fold_left _ _ _); naive_solver.
Qed.

(** Everything a usable binding promises about the file and the command. *)
Theorem BindRadarrManualImportFile_sound (file : InventoryFile) (absolutePath : string)
    (manualImport : RadarrManualImport) (history : list RadarrHistoryEvent)
    (b : option RadarrManualImportBinding) :
  BindRadarrManualImportFile file absolutePath manualImport history = (b, true) ->
  exists binding, b = Some binding /\ binding_Complete binding = true /\
    ProbeCandidate (classifyMediaFile file) = true /\ isRawDiscPath (if_PathComponents file) = false /\
    bd_FileID binding = if_ID file /\ bd_ExpectedFingerprint binding = if_Fingerprint file /\
    bd_ImportMode binding = RadarrImportModeCopy /\ cf_Path (bd_File binding) = absolutePath /\
    mi_SizeBytes manualImport = SizeBytes (bd_ExpectedFingerprint binding) /\
    cf_MovieID (bd_File binding) = mi_MovieID manualImport /\
    cf_DownloadID (bd_File binding) = mi_DownloadID manualImport.
Proof.
  unfold BindRadarrManualImportFile.
  destruct (negb (ProbeCandidate _) || _ || _ || _) eqn:Hg; [done|]. split_bool.
  match goal with |- (let '(_, _) := ?p in _) = _ -> _ => destruct p as [quality languages] end.
  destruct quality as [quality|]; [|done]. case_match; [done|]. cbv zeta.
  intros [= <- Hc]. eexists. split; [done|]. split_and!; done.
Qed.

Lemma replacement_completed_spec rejections :
  replacement_completed rejections =
  if bool_decide (Forall (fun r => rj_Code r ∈ completedDecisionRejectionReasons) rejections)
  then ReplacementAllowed else ReplacementUnproved.
Proof.
  induction rejections as [|r rejections IH]; simpl; [done|].
  destruct (decide (rj_Code r ∈ incompleteDecisionRejectionReasons)) as [Hinc|Hinc].
  - rewrite (bool_decide_true (_ ∈ incompleteDecisionRejectionReasons)) by done. simpl.
    rewrite bool_decide_false; [done|]. rewrite Forall_cons. intros [Hc _].
    assert (Forall (fun c => c ∉ completedDecisionRejectionReasons)
      incompleteDecisionRejectionReasons) as Hdisj.
    { apply (bool_decide_unpack _). vm_compute. exact I. }
    rewrite Forall_forall in Hdisj. by apply (Hdisj (rj_Code r)).
  - rewrite (bool_decide_false (_ ∈ incompleteDecisionRejectionReasons)) by done. simpl.
    destruct (decide (rj_Code r ∈ completedDecisionRejectionReasons)) as [Hcomp|Hcomp].
    + rewrite (bool_decide_true (_ ∈ completedDecisionRejectionReasons)) by done. simpl.
      rewrite IH. erewrite (bool_decide_ext (Forall _ rejections)); [done|]. rewrite Forall_cons. tauto.
    + rewrite (bool_decide_false (_ ∈ completedDecisionRejectionReasons)) by done. simpl.
      rewrite bool_decide_false; [done|]. rewrite Forall_cons. tauto.
Qed.

(** Whether an existing movie file may be replaced depends only on which
    rejection codes Radarr reported: any downgrade code wins, and otherwise
    every code must be one that a completed comparison produces. *)
Theorem ClassifyReplacement_correct (movie : option RadarrMovie) (manualImport : RadarrManualImport) :
  ClassifyReplacement movie manualImport =
  match movie with
  | Some m =>
      if mv_HasFile m then
        if bool_decide (Exists (fun r => rj_Code r ∈ supersededRejectionReasons)
                          (mi_Rejections manualImport)) then ReplacementSuperseded
        else if bool_decide (Forall (fun r => rj_Code r ∈ completedDecisionRejectionReasons)
                          (mi_Rejections manualImport)) then ReplacementAllowed
        else ReplacementUnproved
      else ReplacementNotRequired
  | None => ReplacementNotRequired
  end.
Proof.
  unfold ClassifyReplacement. destruct movie as [m|]; [|done]. destruct (mv_HasFile m); simpl; [|done].
  rewrite replacement_completed_spec.
  destruct (existsb _ _) eqn:He.
  - apply existsb_bool in He as (r & Hr & Hc). rewrite bool_decide_true; [done|].
    apply Exists_exists. exists r. by split_bool.
  - rewrite (bool_decide_false (Exists _ _)); [done|]. intros (r & Hr & Hc)%Exists_exists.
    apply not_true_iff_false in He. apply He, existsb_bool. exists r.
    split; [done|]. by apply bool_decide_eq_true.
Qed.
