(* ===== verification/JoinFeasibility.v ===== *)
(** * Feasibility of joining several files

    [internal/controller/join_feasibility.go]: the structural checks on the
    parts of a join (identifiers, sizes, the 64-bit total of source bytes),
    and the assessment that combines them with the duration, stream and
    container assessments. *)
From stdpp Require Import base strings list sets.
From S2P Require Import Prelude Probe Streams Media FileIdentity.

Inductive ProbeCoverage := ProbeCoverageNone | ProbeCoveragePartial | ProbeCoverageComplete.

Inductive JoinStructureIssueReason :=
| JoinStructureTooFewParts | JoinStructureMissingFileID | JoinStructureDuplicateFileID
| JoinStructureInvalidSourceSize | JoinStructureSourceSizeOverflow.

#[global] Instance ProbeCoverage_eq_dec : EqDecision ProbeCoverage.
Proof. solve_decision. Defined.

Record JoinPartEvidence := mkJoinPart
  { jp_FileID : FileID; jp_Extension : option MediaExtension;
    jp_Fingerprint : FileFingerprint; jp_Probe : option ProbeEvidence }.

Record JoinStructureIssue := mkJoinStructureIssue
  { jsi_Reason : JoinStructureIssueReason; jsi_PartPosition : option Z }.

Record JoinFeasibilityAssessment := mkJoinFeasibility
  { jf_FileIDs : list FileID; jf_ProbeCoverage : ProbeCoverage; jf_SourceBytes : option Z;
    jf_Duration : JoinDurationAssessment; jf_Streams : StreamCompatibilityAssessment;
    jf_InputContainer : InputContainerAssessment; jf_OutputContainer : OutputContainerAssessment;
    jf_StructuralIssue : option JoinStructureIssue }.

Definition joinStructureIssue (reason : JoinStructureIssueReason) (position : Z)
    : JoinStructureIssue :=
  mkJoinStructureIssue reason (Some position).

(** The loop of [assessJoinStructure]: [seen] holds the identifiers of the
    earlier parts, [total] their bytes. *)
Fixpoint join_structure_loop (position : Z) (seen : list FileID) (total : Z)
    (parts : list JoinPartEvidence) : option Z * option JoinStructureIssue :=
  match parts with
  | [] => (Some total, None)
  | part :: rest =>
      if bool_decide (jp_FileID part = "")
      then (None, Some (joinStructureIssue JoinStructureMissingFileID position))
      else if bool_decide (jp_FileID part ∈ seen)
      then (None, Some (joinStructureIssue JoinStructureDuplicateFileID position))
      else
        let size := SizeBytes (jp_Fingerprint part) in
        if bool_decide (size <= 0)
        then (None, Some (joinStructureIssue JoinStructureInvalidSourceSize position))
        else if bool_decide (sub64 max_int64 total < size)
        then (None, Some (joinStructureIssue JoinStructureSourceSizeOverflow position))
        else join_structure_loop (position + 1) (jp_FileID part :: seen) (add64 total size) rest
  end.

Definition assessJoinStructure (parts : list JoinPartEvidence)
    : option Z * option JoinStructureIssue :=
  if bool_decide (length parts < 2)%nat
  then (None, Some (mkJoinStructureIssue JoinStructureTooFewParts None))
  else join_structure_loop 0 [] 0 parts.

Definition probeCoverage (parts probed : Z) : ProbeCoverage :=
  if bool_decide (probed = 0) then ProbeCoverageNone
  else if bool_decide (probed = parts) then ProbeCoverageComplete
  else ProbeCoveragePartial.

(** The three slices the loop of [AssessJoinFeasibility] fills; a part that was
    not probed leaves the zero value in place. *)
Definition part_probe (part : JoinPartEvidence) : ProbeEvidence :=
  match jp_Probe part with Some probe => probe | None => zero_ProbeEvidence end.

Definition part_observation (part : JoinPartEvidence) : InputContainerObservation :=
  mkContainerObservation (jp_Extension part)
    (match jp_Probe part with Some probe => pf_Names (pe_Format probe) | None => [] end).

Definition count_probed (parts : list JoinPartEvidence) : Z :=
  sum_Z (map (fun part => match jp_Probe part with Some _ => 1 | None => 0 end) parts).

Definition AssessJoinFeasibility (parts : list JoinPartEvidence)
    : option JoinFeasibilityAssessment :=
  let probes := map part_probe parts in
  let inputContainer := AssessInputContainer (map part_observation parts) in
  let '(sourceBytes, structuralIssue) := assessJoinStructure parts in
  match AssessStreamCompatibility probes with
  | None => None
  | Some streams =>
      Some (mkJoinFeasibility (map jp_FileID parts)
              (probeCoverage (Z.of_nat (length parts)) (count_probed parts)) sourceBytes
              (AssessJoinDuration probes) streams inputContainer
              (SelectOutputContainer inputContainer) structuralIssue)
  end.

Definition is_nil {A} (o : option A) : bool :=
  match o with None => true | Some _ => false end.

Definition Eligible (a : JoinFeasibilityAssessment) : bool :=
  is_nil (jf_StructuralIssue a) && bool_decide (jf_ProbeCoverage a = ProbeCoverageComplete) &&
  negb (is_nil (jf_SourceBytes a)) && is_nil (jd_Issue (jf_Duration a)) &&
  negb (is_nil (jd_ExpectedMS (jf_Duration a))) && negb (is_nil (jd_ToleranceMS (jf_Duration a))) &&
  bool_decide (sa_Compatibility (jf_Streams a) = StreamsCompatible) &&
  is_nil (sa_Issue (jf_Streams a)) && negb (is_nil (sa_Layout (jf_Streams a))) &&
  bool_decide (ic_Status (jf_InputContainer a) = InputContainerConfirmed) &&
  negb (is_nil (ic_Container (jf_InputContainer a))) && is_nil (ic_Issue (jf_InputContainer a)) &&
  negb (is_nil (oc_Container (jf_OutputContainer a))) && is_nil (oc_Issue (jf_OutputContainer a)).

(** ** Properties *)

Lemma is_nil_true {A} (o : option A) : is_nil o = true <-> o = None.
Proof. by destruct o. Qed.

Lemma is_nil_false {A} (o : option A) : negb (is_nil o) = true <-> is_Some o.
Proof. rewrite <-not_eq_None_Some. by destruct o. Qed.

(** What the structural pass asks of the parts. *)
Definition part_sizes (parts : list JoinPartEvidence) : list Z :=
  map (fun part => SizeBytes (jp_Fingerprint part)) parts.

Definition join_structured (seen : list FileID) (parts : list JoinPartEvidence) : Prop :=
  Forall (fun part => jp_FileID part <> "" /\ (jp_FileID part ∉ seen) /\
                      0 < SizeBytes (jp_Fingerprint part)) parts /\
  NoDup (map jp_FileID parts).

Lemma join_structured_cons seen part parts :
  join_structured seen (part :: parts) <->
  jp_FileID part <> "" /\ (jp_FileID part ∉ seen) /\ 0 < SizeBytes (jp_Fingerprint part) /\
  join_structured (jp_FileID part :: seen) parts.
Proof.
  unfold join_structured. cbn [map]. rewrite Forall_cons, NoDup_cons. split.
  - intros [[(? & ? & ?) Hf] [Hn ?]]. split_and!; try done.
    apply Forall_forall. intros p Hp. rewrite Forall_forall in Hf. destruct (Hf p Hp) as (? & ? & ?).
    split_and!; [done| |done]. rewrite not_elem_of_cons. split; [|done].
    intros Heq. apply Hn. rewrite <-Heq. by apply list_elem_of_fmap_2.
  - intros (? & ? & ? & Hf & Hn). rewrite Forall_forall in Hf. split_and!; try done.
    + apply Forall_forall. intros p Hp. destruct (Hf p Hp) as (? & Hs & ?).
      apply not_elem_of_cons in Hs as [_ ?]. done.
    + intros (p & Heq & Hp)%list_elem_of_fmap_1. destruct (Hf p Hp) as (_ & Hs & _).
      apply Hs. rewrite Heq. by left.
Qed.

Lemma join_structure_loop_spec position seen total parts :
  0 <= total <= max_int64 ->
  forall bytes, join_structure_loop position seen total parts = (Some bytes, None) <->
    join_structured seen parts /\ bytes = total + sum_Z (part_sizes parts) /\ bytes <= max_int64.
Proof.
  revert position seen total. induction parts as [|part parts IH]; intros position seen total Ht bytes.
  { simpl. unfold join_structured. simpl. split.
    - intros [= <-]. split_and!; [by constructor|by constructor|lia|lia].
    - intros (_ & -> & _). f_equal. f_equal. lia. }
  rewrite join_structured_cons. cbn [join_structure_loop part_sizes map].
  rewrite sum_Z_cons, (sub64_small max_int64 total) by lia. fold (part_sizes parts).
  assert (join_structured (jp_FileID part :: seen) parts -> 0 <= sum_Z (part_sizes parts)) as Hpos.
  { intros [Hf _]. apply sum_Z_nonneg, Forall_map. eapply Forall_impl; [done|]. simpl. lia. }
  case_bool_decide; [split; [done|tauto]|].
  case_bool_decide; [split; [done|tauto]|].
  case_bool_decide; [split; [done|intros (Hs & _); destruct Hs as (_ & _ & ? & _); lia]|].
  case_bool_decide.
  { split; [done|]. intros ((_ & _ & _ & Hs) & -> & Hb). apply Hpos in Hs. lia. }
  rewrite add64_small by lia. rewrite IH by lia. split.
  - intros (Hs & -> & ?). split_and!; try done; lia.
  - intros ((_ & _ & _ & Hs) & -> & ?). split_and!; try done; lia.
Qed.

Lemma join_structure_loop_one position seen total parts :
  (exists bytes, join_structure_loop position seen total parts = (Some bytes, None)) \/
  (exists issue, join_structure_loop position seen total parts = (None, Some issue)).
Proof.
  revert position seen total. induction parts; intros; cbn [join_structure_loop]; [by eauto|].
  repeat (case_bool_decide; [by eauto|]). done.
Qed.

Lemma assessJoinStructure_one parts :
  (exists bytes, assessJoinStructure parts = (Some bytes, None)) \/
  (exists issue, assessJoinStructure parts = (None, Some issue)).
Proof.
  unfold assessJoinStructure. case_bool_decide; [by eauto|]. apply join_structure_loop_one.
Qed.

(** The total of source bytes is the exact sum of the part sizes: it is
    reported exactly when there are two or more parts, with distinct non-empty
    identifiers and positive sizes, and the sum fits in 64 bits. *)
Lemma assessJoinStructure_correct (parts : list JoinPartEvidence) (bytes : Z) :
  assessJoinStructure parts = (Some bytes, None) <->
  (2 <= length parts)%nat /\ NoDup (map jp_FileID parts) /\
  Forall (fun part => jp_FileID part <> "" /\ 0 < SizeBytes (jp_Fingerprint part)) parts /\
  bytes = sum_Z (part_sizes parts) /\ bytes <= max_int64.
Proof.
  unfold assessJoinStructure. case_bool_decide; [split; [done|lia]|].
  rewrite join_structure_loop_spec by (unfold max_int64; lia). unfold join_structured.
  split.
  - intros ([Hf ?] & -> & ?). split_and!; [lia|done| |lia|lia].
    eapply Forall_impl; [exact Hf|]. simpl. tauto.
  - intros (? & ? & Hf & -> & ?). split_and!; [|done|lia|lia].
    eapply Forall_impl; [exact Hf|]. simpl. set_solver.
Qed.

(** *** Eligibility *)

Lemma count_probed_bound parts : 0 <= count_probed parts <= Z.of_nat (length parts).
Proof.
  unfold count_probed. split.
  - apply sum_Z_nonneg, Forall_map, Forall_forall. intros x _. simpl. by case_match.
  - rewrite <-(Z.mul_1_l (Z.of_nat _)), <-(length_map (fun part : JoinPartEvidence =>
      match jp_Probe part with Some _ => 1 | None => 0 end) parts).
    apply sum_Z_bound, Forall_map, Forall_forall. intros x _. simpl. by case_match.
Qed.

Lemma count_probed_all parts :
  count_probed parts = Z.of_nat (length parts) <-> Forall (fun part => is_Some (jp_Probe part)) parts.
Proof.
  induction parts as [|part parts IH]; [done|]. rewrite Forall_cons, <-IH.
  unfold count_probed. cbn [map length]. rewrite sum_Z_cons. fold (count_probed parts).
  pose proof (count_probed_bound parts).
  destruct (jp_Probe part); [|split; [lia|by intros [[? ?] _]]]. split; [|lia].
  intros. split; [by eauto|lia].
Qed.

Lemma probeCoverage_complete parts :
  (2 <= length parts)%nat ->
  probeCoverage (Z.of_nat (length parts)) (count_probed parts) = ProbeCoverageComplete <->
  Forall (fun part => is_Some (jp_Probe part)) parts.
Proof.
  intros. rewrite <-count_probed_all. unfold probeCoverage.
  case_bool_decide; [|case_bool_decide]; split; try done; lia.
Qed.

Lemma SelectOutputContainer_chosen a :
  is_Some (oc_Container (SelectOutputContainer a)) <->
  exists c, a = mkInputContainerAssessment InputContainerConfirmed (Some c) None /\
    c <> InputContainerMPEGTS.
Proof.
  destruct a as [status container issue]. unfold SelectOutputContainer. simpl. split.
  - destruct status, container as [[]|], issue; simpl; intros [? ?]; try done; by eauto.
  - intros (c & [= -> -> ->] & ?). destruct c; simpl; by eauto.
Qed.

Lemma SelectOutputContainer_issue a :
  is_Some (oc_Container (SelectOutputContainer a)) -> oc_Issue (SelectOutputContainer a) = None.
Proof.
  intros (c & -> & ?)%SelectOutputContainer_chosen. by destruct c.
Qed.

(** What an eligible join guarantees about its parts. *)
Definition join_feasible (parts : list JoinPartEvidence) : Prop :=
  (2 <= length parts)%nat /\ NoDup (map jp_FileID parts) /\
  Forall (fun part => jp_FileID part <> "" /\ 0 < SizeBytes (jp_Fingerprint part)) parts /\
  sum_Z (part_sizes parts) <= max_int64 /\
  (exists probes, mapM jp_Probe parts = Some probes /\
     (exists ds, reference_durations probes ds /\
        sum_Z ds <= max_int64 /\ 1000 + sum_Z (map duration_slack probes) <= max_int64) /\
     (exists first rest, probes = first :: rest /\ parts_agree first rest)) /\
  (exists container, container <> InputContainerMPEGTS /\
     Forall (fun part => containerForExtension (jp_Extension part) = Some container /\
       exists probe, jp_Probe part = Some probe /\
         input_container_name container ∈ pf_Names (pe_Format probe)) parts).

Lemma part_probe_mapM parts probes :
  mapM jp_Probe parts = Some probes -> map part_probe parts = probes.
Proof.
  revert probes. induction parts as [|part parts IH]; intros probes; simpl; [by intros [= <-]|].
  unfold part_probe at 1. destruct (jp_Probe part); simpl; [|done].
  destruct (mapM jp_Probe parts); simpl; [|done]. intros [= <-]. by rewrite (IH l).
Qed.

Lemma probed_mapM parts :
  Forall (fun part => is_Some (jp_Probe part)) parts <-> exists probes, mapM jp_Probe parts = Some probes.
Proof. symmetry. exact (mapM_is_Some jp_Probe parts). Qed.

Lemma container_feasible parts :
  (2 <= length parts)%nat -> Forall (fun part => is_Some (jp_Probe part)) parts ->
  is_Some (oc_Container (SelectOutputContainer (AssessInputContainer (map part_observation parts)))) <->
  exists container, container <> InputContainerMPEGTS /\
     Forall (fun part => containerForExtension (jp_Extension part) = Some container /\
       exists probe, jp_Probe part = Some probe /\
         input_container_name container ∈ pf_Names (pe_Format probe)) parts.
Proof.
  intros Hlen Hp. rewrite SelectOutputContainer_chosen.
  setoid_rewrite AssessInputContainer_confirmed. rewrite length_map. rewrite Forall_forall in Hp.
  assert (forall want, Forall (fun o => containerForExtension (ico_Extension o) = Some want /\
             input_container_name want ∈ ico_FormatNames o) (map part_observation parts) <->
           Forall (fun part => containerForExtension (jp_Extension part) = Some want /\
             exists probe, jp_Probe part = Some probe /\
               input_container_name want ∈ pf_Names (pe_Format probe)) parts) as Heq.
  { intros want. rewrite Forall_map, !Forall_forall. apply forall_proper. intros part.
    apply forall_proper. intros Hin. destruct (Hp part Hin) as [probe Hpr]. simpl. rewrite Hpr.
    split; [intros [? ?]; by eauto|]. intros (? & ? & [= <-] & ?). done. }
  split.
  - intros (c & (_ & want & [= <-] & Hw) & Hne). exists c. split; [done|]. by apply Heq.
  - intros (c & Hne & Hc). exists c. split; [|done]. split; [done|]. exists c.
    split; [done|]. by apply Heq.
Qed.

Lemma duration_usable probes :
  Forall evidence_range probes -> (2 <= length probes)%nat ->
  (jd_Issue (AssessJoinDuration probes) = None /\
   is_Some (jd_ExpectedMS (AssessJoinDuration probes)) /\
   is_Some (jd_ToleranceMS (AssessJoinDuration probes))) <->
  exists ds, Forall2 part_usable probes ds /\
    sum_Z ds <= max_int64 /\ 1000 + sum_Z (tolerances probes) <= max_int64.
Proof.
  intros Hr Hlen. split.
  - intros (Hi & [x Hx] & [t Ht]).
    destruct (proj1 (AssessJoinDuration_exact probes x t Hr)) as (_ & ds & ? & -> & -> & ? & ?);
      [done|]. by exists ds.
  - intros (ds & ? & ? & ?).
    destruct (proj2 (AssessJoinDuration_exact probes (sum_Z ds)
      (1000 + sum_Z (tolerances probes)) Hr)) as (-> & -> & ->); [|by eauto].
    split; [done|]. by exists ds.
Qed.

Lemma duration_feasible probes :
  Forall evidence_range probes -> (2 <= length probes)%nat ->
  (jd_Issue (AssessJoinDuration probes) = None /\
   is_Some (jd_ExpectedMS (AssessJoinDuration probes)) /\
   is_Some (jd_ToleranceMS (AssessJoinDuration probes))) <->
  exists ds, reference_durations probes ds /\
    sum_Z ds <= max_int64 /\ 1000 + sum_Z (map duration_slack probes) <= max_int64.
Proof.
  intros Hr Hlen. rewrite duration_usable, <- (tolerances_slack _ Hr) by done.
  by setoid_rewrite <- (usable_references probes _ Hr).
Qed.

(** The assessment of a join whose stream assessment is known. *)
Lemma Eligible_conditions parts streams bytes issue :
  assessJoinStructure parts = (bytes, issue) ->
  AssessStreamCompatibility (map part_probe parts) = Some streams ->
  exists a, AssessJoinFeasibility parts = Some a /\ jf_SourceBytes a = bytes /\
    (Eligible a = true <->
     (issue = None /\ is_Some bytes) /\
     probeCoverage (Z.of_nat (length parts)) (count_probed parts) = ProbeCoverageComplete /\
     (jd_Issue (AssessJoinDuration (map part_probe parts)) = None /\
      is_Some (jd_ExpectedMS (AssessJoinDuration (map part_probe parts))) /\
      is_Some (jd_ToleranceMS (AssessJoinDuration (map part_probe parts)))) /\
     (sa_Compatibility streams = StreamsCompatible /\ sa_Issue streams = None /\
      is_Some (sa_Layout streams)) /\
     is_Some (oc_Container (SelectOutputContainer
       (AssessInputContainer (map part_observation parts))))).
Proof.
  intros Hst Hs. unfold AssessJoinFeasibility. rewrite Hst, Hs. eexists. split_and!; [done|done|].
  unfold Eligible. simpl.
  rewrite !andb_true_iff, !is_nil_true, !is_nil_false, !bool_decide_eq_true.
  set (ic := AssessInputContainer _).
  assert (is_Some (oc_Container (SelectOutputContainer ic)) ->
    ic_Status ic = InputContainerConfirmed /\ is_Some (ic_Container ic) /\ ic_Issue ic = None /\
    oc_Issue (SelectOutputContainer ic) = None) as Hic.
  { intros Hc. pose proof (SelectOutputContainer_issue ic Hc).
    apply SelectOutputContainer_chosen in Hc as (c & Heq & _). rewrite Heq in *. by eauto. }
  tauto.
Qed.

(** The container that is written for parts of this one. *)
Definition output_name (container : InputContainer) : OutputContainer :=
  match container with
  | InputContainerMP4 => "mp4"
  | InputContainerMatroska => "mkv"
  | InputContainerAVI => "avi"
  | InputContainerMPEGTS => ""
  end.

Lemma chosen_container parts :
  is_Some (oc_Container (SelectOutputContainer (AssessInputContainer (map part_observation parts)))) ->
  exists container,
    Forall (fun part => containerForExtension (jp_Extension part) = Some container) parts /\
    oc_Container (SelectOutputContainer (AssessInputContainer (map part_observation parts))) =
      Some (output_name container).
Proof.
  intros (c & Hc & Hne)%SelectOutputContainer_chosen. exists c. split.
  - apply AssessInputContainer_confirmed in Hc as (_ & want & [= <-] & Hf).
    rewrite Forall_map in Hf. eapply Forall_impl; [exact Hf|]. by intros part [? _].
  - rewrite Hc. by destruct c.
Qed.

(** The values an eligible assessment carries. *)
Definition feasible_values (parts : list JoinPartEvidence) (a : JoinFeasibilityAssessment) : Prop :=
  jf_SourceBytes a = Some (sum_Z (part_sizes parts)) /\
  exists probes ds layout,
    mapM jp_Probe parts = Some probes /\ reference_durations probes ds /\
    jd_ExpectedMS (jf_Duration a) = Some (sum_Z ds) /\
    jd_ToleranceMS (jf_Duration a) = Some (1000 + sum_Z (map duration_slack probes)) /\
    sa_Layout (jf_Streams a) = Some layout /\
    layoutFromStreams (orderedStreams (pe_Streams (hd zero_ProbeEvidence probes))) = Some layout /\
    exists container,
      Forall (fun part => containerForExtension (jp_Extension part) = Some container) parts /\
      oc_Container (jf_OutputContainer a) = Some (output_name container).

Lemma Eligible_values parts a :
  Forall evidence_range (map part_probe parts) ->
  AssessJoinFeasibility parts = Some a -> Eligible a = true -> feasible_values parts a.
Proof.
  intros Hr Ha He. unfold AssessJoinFeasibility in Ha.
  destruct (assessJoinStructure parts) as [bytes issue] eqn:Hst.
  destruct (AssessStreamCompatibility _) as [streams|] eqn:Hs; [|done]. injection Ha as <-.
  unfold Eligible in He. simpl in He.
  rewrite !andb_true_iff, !is_nil_true, !is_nil_false, !bool_decide_eq_true in He.
  destruct He as [[[[[[[[[[[[[-> Hcov] [n ->]] Hdi] [x Hx]] [t Ht]] Hc] _] [layout Hl]] _] _] _] Ho] _].
  apply assessJoinStructure_correct in Hst as (Hlen & _ & _ & -> & _).
  apply probeCoverage_complete in Hcov; [|done].
  destruct (proj1 (probed_mapM parts) Hcov) as [probes Hp].
  rewrite (part_probe_mapM _ _ Hp) in *.
  destruct (proj1 (AssessJoinDuration_exact probes x t Hr)) as (_ & ds & Hds & -> & -> & _);
    [done|]. rewrite (tolerances_slack _ Hr) in Ht. apply (usable_references _ _ Hr) in Hds.
  split; [done|]. exists probes, ds, layout.
  destruct (AssessStreamCompatibility_correct probes) as (streams' & Hs' & _ & Hlay & _).
  rewrite Hs in Hs'. injection Hs' as <-. destruct (Hlay Hc) as (_ & _ & Hl').
  split_and!; try done; [by rewrite <- Hl'|]. by apply chosen_container.
Qed.

(** A join is never assessed by dereferencing a missing pointer, and it is
    eligible exactly when there are two or more parts with distinct
    identifiers and positive sizes whose byte, duration and tolerance totals
    fit in 64 bits, all probed, with streams that agree with the first part's,
    in one supported container other than MPEG-TS. *)
Lemma AssessJoinFeasibility_eligible (parts : list JoinPartEvidence) :
  Forall evidence_range (map part_probe parts) ->
  exists assessment, AssessJoinFeasibility parts = Some assessment /\
    (Eligible assessment = true <-> join_feasible parts).
Proof.
  intros Hr. destruct (AssessStreamCompatibility_correct (map part_probe parts))
    as (streams & Hs & Hiff & Hok & _).
  destruct (assessJoinStructure parts) as [bytes issue] eqn:Hst.
  destruct (Eligible_conditions parts streams bytes issue Hst Hs) as (a & Ha & Hb & He).
  exists a. split; [done|]. rewrite He. unfold join_feasible. split.
  - intros ((-> & [n ->]) & Hcov & Hdur & (Hc & _) & Hcont).
    apply assessJoinStructure_correct in Hst as (Hlen & Hnd & Hpos & -> & Hmax).
    apply probeCoverage_complete in Hcov; [|done].
    apply container_feasible in Hcont; [|done..].
    apply duration_feasible in Hdur; [|done|by rewrite length_map].
    destruct (proj1 (probed_mapM parts) Hcov) as [probes Hp].
    rewrite (part_probe_mapM _ _ Hp) in *. split_and!; try done.
    exists probes. split_and!; [done|done|]. by apply Hiff.
  - intros (Hlen & Hnd & Hpos & Hmax & (probes & Hp & Hdur & Hag) & Hcont).
    assert (assessJoinStructure parts = (Some (sum_Z (part_sizes parts)), None)) as Hok'.
    { by apply assessJoinStructure_correct. }
    rewrite Hst in Hok'. injection Hok' as -> ->.
    assert (Forall (fun part => is_Some (jp_Probe part)) parts) as Hall by (apply probed_mapM; eauto).
    rewrite (part_probe_mapM _ _ Hp) in *. apply Hiff in Hag. destruct (Hok Hag) as (? & ? & _).
    split; [by eauto|]. split; [by apply probeCoverage_complete|].
    split; [apply duration_feasible; [done| |done]; apply length_mapM in Hp; lia|].
    split; [by eauto|]. by apply container_feasible.
Qed.
