(* ===== verification/JsonSchema.v ===== *)
(** * JSON documents against the repository's schemas

    [worker/contracts/*.schema.json] are validated at run time, keyword by
    keyword. This file gives the keywords those schemas use a meaning on
    [json.value]; a [$ref] is written as the schema it names. *)
From stdpp Require Import base strings list.
From Stdlib Require Import Ascii.
From S2P Require Import Prelude GoStrings GoCrypto.

(** Length of a string in code points; an invalid byte counts as one, since it
    is replaced by U+FFFD when the message is encoded. *)
Fixpoint runes (fuel : nat) (bs : list Z) : nat :=
  match fuel, bs with
  | S fuel, _ :: rest =>
      match json.rune_len bs with
      | 0%nat | 1%nat => S (runes fuel rest)
      | n => S (runes fuel (drop n bs))
      end
  | _, _ => 0%nat
  end.

Definition rune_count (s : string) : Z := Z.of_nat (runes (String.length s) (string_bytes s)).

(** [utf8.ValidString]. *)
Fixpoint valid_utf8 (fuel : nat) (bs : list Z) : bool :=
  match bs with
  | [] => true
  | _ =>
      match fuel, json.rune_len bs with
      | S fuel, S n => valid_utf8 fuel (drop (S n) bs)
      | _, _ => false
      end
  end.
Definition ValidString (s : string) : bool := valid_utf8 (String.length s) (string_bytes s).

(** Every object in the schemas lists all its properties as required and
    allows no others. *)
Inductive schema : Type :=
| SInteger (minimum maximum : Z)
| SBoolean
| SNull
| SString (minLength : Z) (maxLength : option Z) (pattern : string -> bool)
| SConst (s : string)
| SConstInt (z : Z)
| SEnum (ss : list string)
| SArray (minItems maxItems : Z) (uniqueItems : bool) (items : schema)
| SObject (properties : list (string * schema))
| SAllOf (ss : list schema)
| SOneOf (ss : list schema)
| SNot (s : schema).

Fixpoint value_eqb (v w : json.value) : bool :=
  match v, w with
  | json.Null, json.Null => true
  | json.Bool a, json.Bool b => Bool.eqb a b
  | json.Int a, json.Int b => bool_decide (a = b)
  | json.Str a, json.Str b => bool_decide (a = b)
  | json.Arr vs, json.Arr ws =>
      (fix all vs ws := match vs, ws with
       | [], [] => true
       | v :: vs, w :: ws => value_eqb v w && all vs ws
       | _, _ => false
       end) vs ws
  | json.Obj fs, json.Obj gs =>
      (fix all fs gs := match fs, gs with
       | [], [] => true
       | (k, v) :: fs, (l, w) :: gs => bool_decide (k = l) && value_eqb v w && all fs gs
       | _, _ => false
       end) fs gs
  | _, _ => false
  end.

Fixpoint unique_values (vs : list json.value) : bool :=
  match vs with
  | [] => true
  | v :: rest => negb (existsb (value_eqb v) rest) && unique_values rest
  end.

Fixpoint field (name : string) (fields : list (string * json.value)) : option json.value :=
  match fields with
  | [] => None
  | (key, v) :: rest => if bool_decide (key = name) then Some v else field name rest
  end.

Fixpoint validates (s : schema) (v : json.value) {struct s} : bool :=
  match s, v with
  | SInteger lo hi, json.Int z => bool_decide (lo <= z) && bool_decide (z <= hi)
  | SBoolean, json.Bool _ => true
  | SNull, json.Null => true
  | SString lo hi pattern, json.Str text =>
      bool_decide (lo <= rune_count text) && match hi with Some hi => bool_decide (rune_count text <= hi) | None => true end &&
      pattern text
  | SConst c, json.Str text => bool_decide (text = c)
  | SConstInt c, json.Int z => bool_decide (z = c)
  | SEnum cs, json.Str text => bool_decide (text ∈ cs)
  | SArray lo hi unique items, json.Arr vs =>
      bool_decide (lo <= Z.of_nat (length vs)) && bool_decide (Z.of_nat (length vs) <= hi) &&
      (negb unique || unique_values vs) && forallb (validates items) vs
  | SObject properties, json.Obj fields =>
      forallb (fun f => bool_decide (f.1 ∈ map fst properties)) fields &&
      (fix all ps := match ps with
       | [] => true
       | (name, p) :: ps =>
           match field name fields with Some v => validates p v | None => false end && all ps
       end) properties
  | SAllOf ss, v => (fix all ss := match ss with [] => true | s :: ss => validates s v && all ss end) ss
  | SOneOf ss, v =>
      bool_decide ((fix count ss := match ss with
                    | [] => 0
                    | s :: ss => (if validates s v then 1 else 0) + count ss
                    end) ss = 1)
  | SNot s, v => negb (validates s v)
  | _, _ => false
  end.

(** ** wire-types.schema.json *)
Module wire.

Definition no_pattern (s : string) : bool := true.

Definition in_range (lo c hi : nat) : bool := (lo <=? c)%nat && (c <=? hi)%nat.

(** [^[a-z][a-z0-9_:-]*$] *)
Definition opaque_start (c : ascii) : bool := in_range 97 (nat_of_ascii c) 122.
Definition opaque_char (c : ascii) : bool :=
  let n := nat_of_ascii c in
  in_range 97 n 122 || in_range 48 n 57 || bool_decide (n ∈ [95; 58; 45]%nat).
Definition opaque_pattern (s : string) : bool :=
  match s with String c rest => opaque_start c && s_forall opaque_char rest | "" => false end.

(** [^[^\x00-\x1f\x7f]*$] *)
Definition printable (c : ascii) : bool :=
  negb (in_range 0 (nat_of_ascii c) 31) && negb (bool_decide (nat_of_ascii c = 127%nat)).
Definition text_pattern (s : string) : bool := s_forall printable s.

(** [^[^/\\\x00-\x1f\x7f]+$] *)
Definition component_pattern (s : string) : bool :=
  match s with
  | "" => false
  | _ => s_forall (fun c => printable c && negb (bool_decide (nat_of_ascii c ∈ [47; 92]%nat))) s
  end.

(** [^sha256:[0-9a-f]{64}$] *)
Definition sha256_pattern (s : string) : bool :=
  HasPrefix s "sha256:" && bool_decide (String.length s = 71%nat) &&
  s_forall is_lower_hex (s_drop 7 s).

Definition opaqueId : schema := SString 1 (Some 128) opaque_pattern.
Definition pathComponent : schema :=
  SAllOf [SString 1 (Some 255) component_pattern; SNot (SEnum ["."; ".."])].
Definition sha256Id : schema := SString 0 None sha256_pattern.
Definition pathComponents : schema := SArray 1 32 false pathComponent.
Definition nullable (s : schema) : schema := SOneOf [s; SNull].
Definition positiveInt64 : schema := SInteger 1 max_int64.
Definition nonNegativeInt64 : schema := SInteger 0 max_int64.
Definition int64 : schema := SInteger (- max_int64 - 1) max_int64.

(** ** media-evidence.schema.json *)

Definition boundedText : schema := SString 0 (Some 512) text_pattern.
Definition nonEmptyBoundedText : schema := SString 1 (Some 512) text_pattern.
Definition rational_schema : schema :=
  SObject [("denominator", SAllOf [int64; SNot (SConstInt 0)]); ("numerator", int64)].
Definition tag_schema : schema :=
  SObject [("name", SEnum ["creation_time"; "encoder"; "handler_name"; "language"; "service_name";
                           "service_provider"; "title"]);
           ("value", boundedText)].
Definition tagList : schema := SArray 0 7 true tag_schema.
Definition disposition_schema : schema :=
  SObject [("default", nullable SBoolean); ("forced", nullable SBoolean);
           ("hearing_impaired", nullable SBoolean); ("visual_impaired", nullable SBoolean)].
Definition format_schema : schema :=
  SObject [("bit_rate_bps", nullable nonNegativeInt64); ("duration_ms", nullable nonNegativeInt64);
           ("long_name", nullable boundedText); ("names", SArray 0 256 true nonEmptyBoundedText);
           ("probe_score", nullable nonNegativeInt64); ("program_count", nullable nonNegativeInt64);
           ("size_bytes", nullable positiveInt64); ("start_time_ms", nullable int64);
           ("stream_count", nullable nonNegativeInt64); ("tags", tagList)].
Definition stream_schema : schema :=
  SObject [("average_rate", nullable rational_schema); ("bit_rate_bps", nullable nonNegativeInt64);
           ("channel_layout", nullable boundedText); ("channels", nullable positiveInt64);
           ("codec_long_name", nullable boundedText); ("codec_name", nullable boundedText);
           ("codec_tag", nullable boundedText); ("disposition", nullable disposition_schema);
           ("duration_ms", nullable nonNegativeInt64); ("duration_ticks", nullable nonNegativeInt64);
           ("frame_count", nullable nonNegativeInt64); ("frame_rate", nullable rational_schema);
           ("height", nullable positiveInt64); ("index", nonNegativeInt64);
           ("kind", nullable (SEnum ["video"; "audio"; "subtitle"; "data"; "attachment"; "other"]));
           ("pixel_format", nullable boundedText); ("profile", nullable boundedText);
           ("sample_format", nullable boundedText); ("sample_rate_hz", nullable positiveInt64);
           ("start_ticks", nullable int64); ("start_time_ms", nullable int64); ("tags", tagList);
           ("time_base", nullable rational_schema); ("width", nullable positiveInt64)].
Definition program_schema : schema :=
  SObject [("id", nonNegativeInt64); ("number", nullable nonNegativeInt64);
           ("pcr_pid", nullable nonNegativeInt64); ("pmt_pid", nullable nonNegativeInt64);
           ("stream_count", nullable nonNegativeInt64);
           ("stream_indexes", SArray 0 8192 true nonNegativeInt64); ("tags", tagList)].
Definition chapter_schema : schema :=
  SObject [("end_ticks", nullable int64); ("end_time_ms", nullable int64); ("id", int64);
           ("start_ticks", nullable int64); ("start_time_ms", nullable int64); ("tags", tagList);
           ("time_base", nullable rational_schema)].
Definition evidence_schema : schema :=
  SObject [("chapters", SArray 0 65536 false chapter_schema); ("format", format_schema);
           ("programs", SArray 0 65536 false program_schema); ("streams", SArray 0 8192 false stream_schema)].

End wire.

(** ** What validation tells about a document *)

Fixpoint all_properties (fields : list (string * json.value)) (ps : list (string * schema)) : bool :=
  match ps with
  | [] => true
  | (name, p) :: ps =>
      match field name fields with Some v => validates p v | None => false end &&
      all_properties fields ps
  end.

Lemma validates_object ps fields :
  validates (SObject ps) (json.Obj fields) =
  forallb (fun f => bool_decide (f.1 ∈ map fst ps)) fields && all_properties fields ps.
Proof. simpl. f_equal. induction ps as [|[name p] ps IH]; simpl; [done|]. by rewrite IH. Qed.

Lemma validates_field ps fields name p :
  validates (SObject ps) (json.Obj fields) = true -> (name, p) ∈ ps ->
  exists v, field name fields = Some v /\ validates p v = true.
Proof.
  rewrite validates_object, andb_true_iff. intros [_ H]. revert H.
  induction ps as [|[name' p'] ps IH]; [by intros _ ?%elem_of_nil|].
  cbn [all_properties]. rewrite andb_true_iff. intros [Hp Hps] [[= -> ->]|Hin]%elem_of_cons.
  - destruct (field name' fields) as [v|]; [by eauto|done].
  - by apply IH.
Qed.

Lemma validates_keys ps fields :
  validates (SObject ps) (json.Obj fields) = true ->
  forallb (fun key => bool_decide (key ∈ map fst ps)) (map fst fields) = true.
Proof.
  rewrite validates_object, andb_true_iff. intros [H _]. rewrite forallb_Forall in H.
  apply forallb_Forall, Forall_map. done.
Qed.

Fixpoint count_validating (ss : list schema) (v : json.value) : Z :=
  match ss with [] => 0 | s :: ss => (if validates s v then 1 else 0) + count_validating ss v end.

Lemma validates_oneOf ss v : validates (SOneOf ss) v = bool_decide (count_validating ss v = 1).
Proof.
  simpl. f_equal. apply bool_decide_ext.
  enough (forall n, (fix count (ss : list schema) : Z := match ss with
            | [] => 0 | s :: ss => (if validates s v then 1 else 0) + count ss end) ss = n <->
          count_validating ss v = n) as Heq by apply Heq.
  induction ss as [|s ss IH]; simpl; [done|]. intros n. destruct (validates s v); split; intros <-.
  all: f_equal; by apply IH.
Qed.

Lemma validates_oneOf_inv ss v :
  validates (SOneOf ss) v = true -> exists s, s ∈ ss /\ validates s v = true.
Proof.
  rewrite validates_oneOf, bool_decide_eq_true.
  induction ss as [|s ss IH]; simpl; [done|]. destruct (validates s v) eqn:Hs.
  - intros _. exists s. split; [by left|done].
  - intros H. destruct IH as (s' & ? & ?); [lia|]. exists s'. split; [by right|done].
Qed.

Lemma opaqueId_nonempty s : validates wire.opaqueId (json.Str s) = true -> s <> "".
Proof. by intros H ->. Qed.

Lemma sha256Id_nonempty s : validates wire.sha256Id (json.Str s) = true -> s <> "".
Proof. by intros H ->. Qed.
