(* ===== verification/ProbeDocument.v ===== *)
(** * The media description read from [ffprobe]

    [internal/ffprobe/decode.go] (the document [ffprobe] prints and the checks
    of its structure), [normalize.go] (the evidence made of it, with the
    integers, decimals and rationals it writes as text) and [runner.go] (one
    run of the command with bounded output).

    The document arrives through [json.Unmarshal] of a Go struct, which is the
    parameter [UnmarshalDocument]; the run of the command is [Execution]. *)
From stdpp Require Import base strings list gmap sorting.
From Stdlib Require Import Ascii Lia.
From S2P Require Import Prelude GoStrings GoCrypto JsonSchema Probe.

Module ffprobe.

(** ** Text as numbers *)

Definition digit (c : ascii) : bool := wire.in_range 48 (nat_of_ascii c) 57.
Definition digit_value (c : ascii) : Z := Z.of_nat (nat_of_ascii c) - 48.

(** A leading sign and what follows it. *)
Definition split_sign (s : string) : bool * string :=
  match s with
  | String c rest =>
      if Ascii.eqb c "-" then (true, rest)
      else if Ascii.eqb c "+" then (false, rest) else (false, s)
  | EmptyString => (false, EmptyString)
  end.

Definition integerString (value : string) : bool :=
  let digits := snd (split_sign value) in
  negb (bool_decide (digits = "")) && s_forall digit digits.

(** The loop of [decimalString]: whether a digit was seen, if no character is
    out of place. *)
Fixpoint decimal_loop (dotSeen digitSeen : bool) (s : string) : option bool :=
  match s with
  | EmptyString => Some digitSeen
  | String c s =>
      if digit c then decimal_loop dotSeen true s
      else if Ascii.eqb c dot && negb dotSeen then decimal_loop true digitSeen s
      else None
  end.

Definition decimalString (value : string) : bool :=
  match decimal_loop false false (snd (split_sign value)) with
  | Some digitSeen => digitSeen && negb (HasSuffix value ".")
  | None => false
  end.

Fixpoint digits_value (acc : Z) (s : string) : Z :=
  match s with
  | EmptyString => acc
  | String c s => digits_value (10 * acc + digit_value c) s
  end.

Definition signed (s : bool * Z) : Z := if fst s then - snd s else snd s.

(** [big.Int.SetString] in base ten, of an [integerString]. *)
Definition integer_value (value : string) : Z :=
  let '(negative, digits) := split_sign value in
  signed (negative, digits_value 0 digits).

(** [strconv.ParseInt (_, 10, 64)]. *)
Definition ParseInt (value : string) : option Z :=
  if negb (integerString value) then None
  else if bool_decide (int64_range (integer_value value)) then Some (integer_value value)
  else None.

(** *** [big.Rat]

    A rational is kept in lowest terms with a positive denominator. *)
Record Rat := mkRat { Num : Z; Denom : Z }.

Definition SetFrac (n d : Z) : Rat :=
  let g := Z.gcd n d in mkRat (Z.sgn d * (n / g)) (Z.abs d / g).
Definition Rat_Mul (a b : Rat) : Rat := SetFrac (Num a * Num b) (Denom a * Denom b).

(** The digits of a decimal without its point, and how many follow the point. *)
Fixpoint decimal_mantissa (acc : Z) (fraction : option nat) (s : string) : Z * nat :=
  match s with
  | EmptyString => (acc, default 0%nat fraction)
  | String c s =>
      if Ascii.eqb c dot then decimal_mantissa acc (Some 0%nat) s
      else decimal_mantissa (10 * acc + digit_value c) (S <$> fraction) s
  end.

(** [big.Rat.SetString] of a [decimalString]; beyond a million digits after
    the point it gives up. *)
Definition Rat_SetString (value : string) : option Rat :=
  let '(negative, digits) := split_sign value in
  let '(mantissa, fraction) := decimal_mantissa 0 None digits in
  if bool_decide (mantissa = 0) then Some (mkRat 0 1)
  else if bool_decide (1000000 < Z.of_nat fraction) then None
  else Some (SetFrac (signed (negative, mantissa)) (10 ^ Z.of_nat fraction)).

(** Half away from zero. *)
Definition roundRational (value : Rat) : option Z :=
  let quotient := Z.quot (Num value) (Denom value) in
  let remainder := Z.rem (Num value) (Denom value) in
  let quotient :=
    if bool_decide (Denom value <= 2 * Z.abs remainder)
    then (if bool_decide (Num value < 0) then quotient - 1 else quotient + 1)
    else quotient in
  if bool_decide (int64_range quotient) then Some quotient else None.

(** ** Optional fields *)

Definition positive (value : Z) : bool := bool_decide (0 < value).
Definition nonNegative (value : Z) : bool := bool_decide (0 <= value).

Definition parseOptionalInteger (value : option string) (constraint : Z -> bool) : result (option Z) :=
  match value with
  | None => Ok None
  | Some value =>
      if bool_decide (value = "N/A") then Ok None
      else
        _ ← fail_if (negb (bool_decide (TrimSpace value = value))) "invalid %s %q";
        match ParseInt value with
        | Some parsed => if constraint parsed then Ok (Some parsed) else Err "invalid %s %q"
        | None => Err "invalid %s %q"
        end
  end.

Definition parseOptionalMilliseconds (value : option string) (allowNegative : bool) : result (option Z) :=
  match value with
  | None => Ok None
  | Some value =>
      if bool_decide (value = "N/A") then Ok None
      else
        _ ← fail_if (negb (decimalString value)) "invalid %s %q";
        match Rat_SetString value with
        | None => Err "invalid %s %q"
        | Some rational =>
            _ ← fail_if (negb allowNegative && bool_decide (Num rational < 0)) "invalid %s %q";
            match roundRational (Rat_Mul rational (mkRat 1000 1)) with
            | Some rounded => Ok (Some rounded)
            | None => Err "%s %q overflows milliseconds"
            end
        end
  end.

Definition parseOptionalRational (value : option string) : result (option Rational) :=
  match value with
  | None => Ok None
  | Some value =>
      if bool_decide (value = "N/A") || bool_decide (value = "0/0") then Ok None
      else match split_on slash value with
      | [a; b] =>
          _ ← fail_if (negb (integerString a) || negb (integerString b)) "invalid %s %q";
          _ ← fail_if (bool_decide (integer_value b = 0)) "invalid %s %q";
          let rational := SetFrac (integer_value a) (integer_value b) in
          _ ← fail_if (negb (bool_decide (int64_range (Num rational))) ||
                       negb (bool_decide (int64_range (Denom rational)))) "%s %q overflows rational";
          Ok (Some (mkRational (Num rational) (Denom rational)))
      | _ => Err "invalid %s %q"
      end
  end.

Definition optionalPositive (value : option Z) : result (option Z) :=
  match value with
  | None => Ok None
  | Some v => if bool_decide (v <= 0) then Err "invalid %s %d" else Ok (Some v)
  end.

Definition optionalNonNegative (value : option Z) : result (option Z) :=
  match value with
  | None => Ok None
  | Some v => if bool_decide (v < 0) then Err "invalid %s %d" else Ok (Some v)
  end.

Definition optionalBoolean (value : option Z) : result (option bool) :=
  match value with
  | None => Ok None
  | Some v =>
      if bool_decide (v = 0) then Ok (Some false)
      else if bool_decide (v = 1) then Ok (Some true)
      else Err "invalid %s %d"
  end.

(** ** The document (decode.go) *)

Definition MaxDocumentBytes : Z := Z.shiftl 4 20.

Record Tags := mkTags
  { Language : option string; Title : option string; HandlerName : option string;
    Encoder : option string; CreationTime : option string; ServiceName : option string;
    ServiceProvider : option string }.

Record Disposition := mkDisposition
  { Default : option Z; Forced : option Z; HearingImpaired : option Z;
    VisualImpaired : option Z }.

Record Format := mkFormat
  { StreamCount : option Z; ProgramCount : option Z; Name : option string;
    LongName : option string; StartTime : option string; Duration : option string;
    Size : option string; BitRate : option string; ProbeScore : option Z;
    f_Tags : option Tags }.

(** The contents of [side_data_list] do not contribute to the evidence. *)
Record Stream := mkStream
  { Index : option Z; CodecName : option string; CodecLongName : option string;
    Profile : option string; CodecType : option string; CodecTagString : option string;
    Width : option Z; Height : option Z; PixelFormat : option string;
    SampleFormat : option string; SampleRate : option string; Channels : option Z;
    ChannelLayout : option string; FrameRate : option string; AverageRate : option string;
    TimeBase : option string; StartPTS : option Z; s_StartTime : option string;
    DurationTS : option Z; s_Duration : option string; s_BitRate : option string;
    FrameCount : option string; s_Disposition : option Disposition; s_Tags : option Tags;
    SideDataList : list string }.

Definition ProgramStream := Stream.

Record Program := mkProgram
  { ID : option Z; Number : option Z; p_StreamCount : option Z; PMTPID : option Z;
    PCRPID : option Z; p_Tags : option Tags; p_Streams : list ProgramStream }.

Record Chapter := mkChapter
  { c_ID : option Z; c_TimeBase : option string; Start : option Z;
    c_StartTime : option string; End : option Z; EndTime : option string;
    c_Tags : option Tags }.

(** [StreamGroups] is a list of empty structures; only its length is read. *)
Record Document := mkDocument
  { Programs : list Program; StreamGroups : list unit; Streams : list Stream;
    Chapters : list Chapter; d_Format : option Format }.

(** The loop over the streams: the set of indexes seen. *)
Fixpoint stream_indexes (seen : gset Z) (streams : list Stream) : result (gset Z) :=
  match streams with
  | [] => Ok seen
  | stream :: rest =>
      match Index stream with
      | None => Err "stream %d is missing its index"
      | Some index =>
          _ ← fail_if (bool_decide (index < 0)) "stream %d has negative index %d";
          _ ← fail_if (bool_decide (index ∈ seen)) "duplicate stream index %d";
          stream_indexes ({[index]} ∪ seen) rest
      end
  end.

Fixpoint check_members (known members : gset Z) (streams : list ProgramStream) : result unit :=
  match streams with
  | [] => Ok tt
  | stream :: rest =>
      match Index stream with
      | None => Err "program %d stream %d is missing its index"
      | Some index =>
          _ ← fail_if (negb (bool_decide (index ∈ known))) "program %d references unknown stream index %d";
          _ ← fail_if (bool_decide (index ∈ members)) "program %d repeats stream index %d";
          check_members known ({[index]} ∪ members) rest
      end
  end.

Fixpoint check_programs (known ids : gset Z) (programs : list Program) : result unit :=
  match programs with
  | [] => Ok tt
  | program :: rest =>
      match ID program with
      | None => Err "program %d is missing its ID"
      | Some id =>
          _ ← fail_if (bool_decide (id ∈ ids)) "duplicate program ID %d";
          _ ← check_members known ∅ (p_Streams program);
          check_programs known ({[id]} ∪ ids) rest
      end
  end.

Fixpoint check_chapters (ids : gset Z) (chapters : list Chapter) : result unit :=
  match chapters with
  | [] => Ok tt
  | chapter :: rest =>
      match c_ID chapter with
      | None => Err "chapter %d is missing its ID"
      | Some id =>
          _ ← fail_if (bool_decide (id ∈ ids)) "duplicate chapter ID %d";
          check_chapters ({[id]} ∪ ids) rest
      end
  end.

Definition validateDocument (document : Document) : result unit :=
  _ ← fail_if (bool_decide (d_Format document = None)) "missing format";
  _ ← fail_if (negb (bool_decide (length (StreamGroups document) = 0%nat))) "stream groups are not supported";
  known ← stream_indexes ∅ (Streams document);
  _ ← check_programs known ∅ (Programs document);
  check_chapters ∅ (Chapters document).

(** [json.Decoder] over the output: the first value read into a [Document],
    unknown fields refused, and what the decoder finds after it. *)
Inductive after_value := EndOfInput | AnotherValue | Malformed (e : error).

Class DocumentDecoder := {
  DecodeDocument : string -> result (Document * after_value) }.

Definition Decode `{DocumentDecoder} (data : string) : result Document :=
  _ ← fail_if (bool_decide (MaxDocumentBytes < Z.of_nat (String.length data)))
        "ffprobe JSON is %d bytes, limit is %d";
  '(document, after) ← DecodeDocument data;
  match after with
  | AnotherValue => Err "decode ffprobe JSON: multiple JSON values"
  | Malformed e => Err e
  | EndOfInput =>
      _ ← validateDocument document;
      mret document
  end.

(** ** Normalisation (normalize.go) *)

Definition maxTagValueRunes : Z := 512.

(** In valid UTF-8 the runes below 128 are the bytes below 128. *)
Definition control_byte (c : ascii) : bool :=
  (nat_of_ascii c <=? 31)%nat || (nat_of_ascii c =? 127)%nat.

Definition validateTagValue (value : string) : result unit :=
  _ ← fail_if (negb (ValidString value)) "invalid UTF-8";
  _ ← fail_if (bool_decide (maxTagValueRunes < rune_count value)) "value exceeds %d characters";
  fail_if (negb (s_forall (fun c => negb (control_byte c)) value)) "value contains control characters".

Definition tag_le (a b : ProbeTag) : Prop := string_le (tag_Name a) (tag_Name b).
#[global] Instance tag_le_dec : RelDecision tag_le.
Proof. intros a b. unfold tag_le. apply _. Defined.

(** The names [normalizeTags] gives to the fields of [Tags]. *)
Definition named_tags (tags : Tags) : list (string * option string) :=
  [("creation_time", CreationTime tags); ("encoder", Encoder tags);
   ("handler_name", HandlerName tags); ("language", Language tags);
   ("service_name", ServiceName tags); ("service_provider", ServiceProvider tags);
   ("title", Title tags)].

Definition keep_tag (item : string * option string) : option ProbeTag :=
  match snd item with
  | None => None
  | Some value => if is_ok (validateTagValue value) then Some (mkProbeTag (fst item) value) else None
  end.

Definition normalizeTags (tags : option Tags) : list ProbeTag :=
  match tags with
  | None => []
  | Some tags => merge_sort tag_le (omap keep_tag (named_tags tags))
  end.

(** A nil pointer that is read; [validateDocument] excludes it. *)
Definition nil_dereference : error := "invalid memory address or nil pointer dereference".
Definition deref {A} (value : option A) : result A :=
  match value with Some v => Ok v | None => Err nil_dereference end.

Fixpoint distinct_names (seen : gset string) (parts : list string) : result unit :=
  match parts with
  | [] => Ok tt
  | part :: rest =>
      _ ← fail_if (bool_decide (part = "") || negb (bool_decide (TrimSpace part = part)))
            "invalid format name %q";
      _ ← fail_if (bool_decide (part ∈ seen)) "duplicate format name %q";
      distinct_names ({[part]} ∪ seen) rest
  end.

Definition normalizeFormatNames (value : option string) : result (list string) :=
  match value with
  | None => Ok []
  | Some value =>
      if bool_decide (value = "N/A") then Ok []
      else
        let parts := split_on "," value in
        _ ← distinct_names ∅ parts;
        Ok parts
  end.

Definition ProbeStreamData : ProbeStreamKind := "data".
Definition ProbeStreamAttachment : ProbeStreamKind := "attachment".
Definition ProbeStreamOther : ProbeStreamKind := "other".

Definition normalizeStreamKind (value : option string) : result (option ProbeStreamKind) :=
  match value with
  | None => Ok None
  | Some value =>
      if bool_decide (value = "N/A") then Ok None
      else
        _ ← fail_if (bool_decide (value = "") || negb (bool_decide (TrimSpace value = value)))
              "invalid stream kind %q";
        Ok (Some
          (if bool_decide (value = "video") then ProbeStreamVideo
           else if bool_decide (value = "audio") then ProbeStreamAudio
           else if bool_decide (value = "subtitle") then ProbeStreamSubtitle
           else if bool_decide (value = "data") then ProbeStreamData
           else if bool_decide (value = "attachment") then ProbeStreamAttachment
           else ProbeStreamOther))
  end.

Definition normalizeDisposition (value : option Disposition) : result (option ProbeDisposition) :=
  match value with
  | None => Ok None
  | Some value =>
      defaultValue ← optionalBoolean (Default value);
      forced ← optionalBoolean (Forced value);
      hearingImpaired ← optionalBoolean (HearingImpaired value);
      visualImpaired ← optionalBoolean (VisualImpaired value);
      Ok (Some (mkProbeDisposition defaultValue forced hearingImpaired visualImpaired))
  end.

Definition normalizeFormat (format : Format) : result ProbeFormat :=
  names ← normalizeFormatNames (Name format);
  streamCount ← optionalNonNegative (StreamCount format);
  programCount ← optionalNonNegative (ProgramCount format);
  startTime ← parseOptionalMilliseconds (StartTime format) true;
  duration ← parseOptionalMilliseconds (Duration format) false;
  size ← parseOptionalInteger (Size format) positive;
  bitRate ← parseOptionalInteger (BitRate format) nonNegative;
  probeScore ← optionalNonNegative (ProbeScore format);
  let tags := normalizeTags (f_Tags format) in
  mret (mkProbeFormat names (LongName format) streamCount programCount startTime duration
          size bitRate probeScore tags).

Definition normalizeStream (stream : Stream) : result ProbeStream :=
  kind ← normalizeStreamKind (CodecType stream);
  width ← optionalPositive (Width stream);
  height ← optionalPositive (Height stream);
  sampleRate ← parseOptionalInteger (SampleRate stream) positive;
  channels ← optionalPositive (Channels stream);
  frameRate ← parseOptionalRational (FrameRate stream);
  averageRate ← parseOptionalRational (AverageRate stream);
  timeBase ← parseOptionalRational (TimeBase stream);
  durationTicks ← optionalNonNegative (DurationTS stream);
  startTime ← parseOptionalMilliseconds (s_StartTime stream) true;
  duration ← parseOptionalMilliseconds (s_Duration stream) false;
  bitRate ← parseOptionalInteger (s_BitRate stream) nonNegative;
  frameCount ← parseOptionalInteger (FrameCount stream) nonNegative;
  disposition ← normalizeDisposition (s_Disposition stream);
  let tags := normalizeTags (s_Tags stream) in
  index ← deref (Index stream);
  mret (mkProbeStream index kind (CodecName stream) (CodecLongName stream) (Profile stream)
          (CodecTagString stream) width height (PixelFormat stream) (SampleFormat stream)
          sampleRate channels (ChannelLayout stream) frameRate averageRate timeBase
          (StartPTS stream) startTime durationTicks duration bitRate frameCount disposition tags).

Definition normalizeProgram (program : Program) : result ProbeProgram :=
  id ← deref (ID program);
  _ ← fail_if (bool_decide (id < 0)) "program ID is negative: %d";
  number ← optionalNonNegative (Number program);
  streamCount ← optionalNonNegative (p_StreamCount program);
  pmtPID ← optionalNonNegative (PMTPID program);
  pcrPID ← optionalNonNegative (PCRPID program);
  let tags := normalizeTags (p_Tags program) in
  streamIndexes ← mapM (fun stream => deref (Index stream)) (p_Streams program);
  mret (mkProbeProgram id number streamCount pmtPID pcrPID streamIndexes tags).

(** Both are present and the end comes first. *)
Definition ends_early (start finish : option Z) : bool :=
  match start, finish with
  | Some s, Some e => bool_decide (e < s)
  | _, _ => false
  end.

Definition normalizeChapter (chapter : Chapter) : result ProbeChapter :=
  timeBase ← parseOptionalRational (c_TimeBase chapter);
  startTime ← parseOptionalMilliseconds (c_StartTime chapter) true;
  endTime ← parseOptionalMilliseconds (EndTime chapter) true;
  _ ← fail_if (ends_early (Start chapter) (End chapter)) "end tick precedes start tick";
  _ ← fail_if (ends_early startTime endTime) "end time precedes start time";
  let tags := normalizeTags (c_Tags chapter) in
  id ← deref (c_ID chapter);
  mret (mkProbeChapter id timeBase (Start chapter) startTime (End chapter) endTime tags).

Definition Normalize (document : Document) : result ProbeEvidence :=
  _ ← validateDocument document;
  format ← deref (d_Format document);
  format ← normalizeFormat format;
  streams ← mapM normalizeStream (Streams document);
  programs ← mapM normalizeProgram (Programs document);
  chapters ← mapM normalizeChapter (Chapters document);
  mret (mkProbeEvidence format streams programs chapters).

(** ** One run of the command (runner.go) *)

Inductive FailureKind := FailureTimeout | FailureExecution | FailureInvalidOutput.

Inductive probe_result :=
| Probed (evidence : ProbeEvidence)
| ProbeFailure (kind : FailureKind)
| ProbeError (e : error).

Record boundedBuffer := mkboundedBuffer { buffer : string; limit : Z; overflow : bool }.

Definition Write (b : boundedBuffer) (data : string) : boundedBuffer :=
  let remaining := limit b - Z.of_nat (String.length (buffer b)) in
  if bool_decide (remaining <= 0) then mkboundedBuffer (buffer b) (limit b) true
  else if bool_decide (remaining < Z.of_nat (String.length data))
  then mkboundedBuffer (buffer b +:+ s_take (Z.to_nat remaining) data) (limit b) true
  else mkboundedBuffer (buffer b +:+ data) (limit b) (overflow b).

Record Runner := mkRunner { executable : string; timeout : Z }.

Definition clean_absolute (path : string) : bool :=
  negb (bool_decide (path = "")) && negb (ContainsByte path nul) && filepath.IsAbs path &&
  bool_decide (filepath.Clean path = path).

Definition NewRunner (executable : string) (timeout : Z) : result Runner :=
  _ ← fail_if (negb (clean_absolute executable)) "ffprobe executable must be an absolute clean path";
  _ ← fail_if (bool_decide (timeout <= 0)) "ffprobe timeout must be positive";
  mret (mkRunner executable timeout).

(** What the context says before and after the run, whether the media file can
    be rewound, what the command writes, and how it ends. *)
Record Execution := mkExecution
  { ContextBefore : option error; SeekFails : bool; Output : list string;
    RunFails : bool; ContextAfter : option error; DeadlineExceeded : bool }.

Definition validateProbe (execution : Execution) (runner : Runner) : result unit :=
  _ ← fail_if (bool_decide (executable runner = "") || bool_decide (timeout runner <= 0))
        "ffprobe runner is not configured";
  match ContextBefore execution with Some e => Err e | None => Ok tt end.

Definition ProbeFile `{DocumentDecoder} (runner : Runner) (execution : Execution) : probe_result :=
  match validateProbe execution runner with
  | Err e => ProbeError e
  | Ok _ =>
      if SeekFails execution then ProbeFailure FailureExecution
      else
        let stdout := fold_left Write (Output execution) (mkboundedBuffer "" MaxDocumentBytes false) in
        if RunFails execution then
          match ContextAfter execution with
          | Some e => ProbeError e
          | None => if DeadlineExceeded execution then ProbeFailure FailureTimeout
                    else ProbeFailure FailureExecution
          end
        else if overflow stdout then ProbeFailure FailureInvalidOutput
        else match Decode (buffer stdout) with
             | Err _ => ProbeFailure FailureInvalidOutput
             | Ok document =>
                 match Normalize document with
                 | Err _ => ProbeFailure FailureInvalidOutput
                 | Ok evidence => Probed evidence
                 end
             end
  end.

Definition Probe `{DocumentDecoder} (runner : Runner) (mediaPath : string)
    (openFails : bool) (execution : Execution) : probe_result :=
  if negb (clean_absolute mediaPath) then ProbeError "media path must be an absolute clean path"
  else match validateProbe execution runner with
       | Err e => ProbeError e
       | Ok _ => if openFails then ProbeFailure FailureExecution else ProbeFile runner execution
       end.

End ffprobe.

(** * What normalised media evidence satisfies

    The evidence [Normalize] returns is typed far more tightly than the
    document: 64-bit integers with their signs, rationals in lowest terms,
    distinct indexes, resolved references, sorted and bounded tags. Times are
    the nearest millisecond to the decimal that [ffprobe] wrote. *)
Import ffprobe.

(** ** Rationals *)

Lemma gcd_factors n d :
  d <> 0 -> exists g a b, Z.gcd n d = g /\ 0 < g /\ n = a * g /\ d = b * g /\ b <> 0.
Proof.
  intros Hd. destruct (Z.gcd_divide_l n d) as [a Ha], (Z.gcd_divide_r n d) as [b Hb].
  pose proof (Z.gcd_nonneg n d). exists (Z.gcd n d), a, b.
  assert (b <> 0) by (intros ->; lia).
  assert (Z.gcd n d <> 0) by (rewrite Z.gcd_eq_0; lia). split_and!; try done; lia.
Qed.

Lemma div_gcd_sgn n d :
  d <> 0 -> Z.abs d / Z.gcd n d = Z.sgn d * (d / Z.gcd n d).
Proof.
  intros Hd. destruct (gcd_factors n d Hd) as (g & a & b & -> & Hg & _ & -> & Hb).
  rewrite Z.abs_mul, (Z.abs_eq g), !Z.div_mul, Z.sgn_mul, (Z.sgn_pos g) by lia. lia.
Qed.

Lemma SetFrac_normal n d :
  d <> 0 -> 0 < Denom (SetFrac n d) /\ Z.gcd (Num (SetFrac n d)) (Denom (SetFrac n d)) = 1.
Proof.
  intros Hd. unfold SetFrac. cbn [Num Denom].
  pose proof (Z.gcd_nonneg n d). assert (Z.gcd n d <> 0) as Hg by (rewrite Z.gcd_eq_0; lia).
  split.
  - apply Z.div_str_pos. split; [lia|]. apply Z.divide_pos_le; [lia|].
    apply Z.divide_abs_r, Z.gcd_divide_r.
  - rewrite div_gcd_sgn by done.
    rewrite Z.gcd_mul_mono_l, Z.gcd_div_gcd by done. lia.
Qed.

Lemma SetFrac_value n d :
  d <> 0 -> Num (SetFrac n d) * d = n * Denom (SetFrac n d).
Proof.
  intros Hd. unfold SetFrac. cbn [Num Denom]. rewrite div_gcd_sgn by done.
  destruct (gcd_factors n d Hd) as (g & a & b & -> & Hg & -> & -> & Hb).
  rewrite !Z.div_mul by lia. ring.
Qed.

(** [q] is the integer nearest to [n / d], the one further from zero when two
    are equally near. *)
Definition nearest (q n d : Z) : Prop :=
  2 * Z.abs (q * d - n) <= d /\ (2 * Z.abs (q * d - n) = d -> Z.abs n < Z.abs (q * d)).

Lemma roundRational_nearest r q :
  0 < Denom r -> roundRational r = Some q -> int64_range q /\ nearest q (Num r) (Denom r).
Proof.
  destruct r as [n d]. unfold roundRational, nearest. cbn [Num Denom]. intros Hd.
  pose proof (Z.quot_rem' n d) as Hqr. pose proof (Z.rem_bound_abs n d) as Hb.
  assert (0 <= n -> 0 <= Z.rem n d) by (intros; by apply Z.rem_nonneg; lia).
  assert (n <= 0 -> Z.rem n d <= 0) by (intros; by apply Z.rem_nonpos; lia).
  set (t := Z.quot n d) in *. set (m := Z.rem n d) in *.
  repeat case_bool_decide; intros [= <-]; (split; [done|]); split; nia.
Qed.

Lemma nearest_scale q n d n' d' :
  0 < d -> 0 < d' -> n * d' = n' * d -> nearest q n d -> nearest q n' d'.
Proof.
  intros Hd Hd' E [H1 H2].
  assert (d * Z.abs (q * d' - n') = d' * Z.abs (q * d - n)) as Ed.
  { rewrite <- (Z.abs_eq d) at 1 by lia. rewrite <- (Z.abs_eq d') at 2 by lia.
    rewrite <- !Z.abs_mul. f_equal. nia. }
  assert (d * Z.abs n' = d' * Z.abs n) as En.
  { rewrite <- (Z.abs_eq d) at 1 by lia. rewrite <- (Z.abs_eq d') at 1 by lia.
    rewrite <- !Z.abs_mul. f_equal. lia. }
  assert (d * Z.abs (q * d') = d' * Z.abs (q * d)) as Eq.
  { rewrite <- (Z.abs_eq d) at 1 by lia. rewrite <- (Z.abs_eq d') at 2 by lia.
    rewrite <- !Z.abs_mul. f_equal. ring. }
  split; [nia|]. intros Htie. assert (2 * Z.abs (q * d - n) = d) as Ht by nia.
  specialize (H2 Ht). nia.
Qed.

(** ** Parsed fields *)

Definition opt {A} (P : A -> Prop) (o : option A) : Prop := forall x, o = Some x -> P x.

Lemma opt_None {A} (P : A -> Prop) : opt P None.
Proof. by intros x. Qed.

Lemma opt_Some {A} (P : A -> Prop) x : P x -> opt P (Some x).
Proof. by intros H y [= <-]. Qed.
#[export] Hint Resolve opt_None opt_Some : go.

Lemma ParseInt_range s z : ParseInt s = Some z -> int64_range z.
Proof. unfold ParseInt. repeat case_next; try done. case_bool_decide; [|done]. by intros [= <-]. Qed.

Lemma parseOptionalInteger_Ok value constraint o :
  parseOptionalInteger value constraint = Ok o ->
  opt (fun z => int64_range z /\ constraint z = true) o.
Proof.
  unfold parseOptionalInteger. destruct value as [s|]; [|intros [= <-]; auto with go].
  case_bool_decide; [intros [= <-]; auto with go|]. intros Hok. inv_result.
  destruct (ParseInt s) as [z|] eqn:E; [|done]. destruct (constraint z) eqn:Hc; [|done].
  inv_ok Hok. apply ParseInt_range in E. auto with go.
Qed.

(** The decimal a text denotes: its digits with their sign, and how many of
    them follow the point. *)
Definition decimal_value (value : string) : Z * nat :=
  let '(negative, digits) := split_sign value in
  let '(mantissa, fraction) := decimal_mantissa 0 None digits in
  (signed (negative, mantissa), fraction).

Lemma Rat_SetString_value s r :
  Rat_SetString s = Some r ->
  0 < Denom r /\ Num r * 10 ^ Z.of_nat (decimal_value s).2 = (decimal_value s).1 * Denom r.
Proof.
  unfold Rat_SetString, decimal_value. destruct (split_sign s) as [negative digits].
  destruct (decimal_mantissa 0 None digits) as [m k]. case_bool_decide as Hm.
  - intros [= <-]. subst m. unfold signed. destruct negative; cbn; lia.
  - case_bool_decide; [done|]. intros [= <-]. cbn [fst snd].
    assert (10 ^ Z.of_nat k <> 0) by (pose proof (Z.pow_pos_nonneg 10 (Z.of_nat k)); lia).
    split; [by apply SetFrac_normal|by apply SetFrac_value].
Qed.

Lemma milliseconds_nearest value allowNegative ms :
  parseOptionalMilliseconds (Some value) allowNegative = Ok (Some ms) ->
  let '(digits, places) := decimal_value value in
  int64_range ms /\ nearest ms (1000 * digits) (10 ^ Z.of_nat places) /\
  (allowNegative = false -> 0 <= digits).
Proof.
  unfold parseOptionalMilliseconds. case_bool_decide; [done|]. intros Hok. inv_result.
  destruct (Rat_SetString value) as [r|] eqn:Er; [|done]. inv_result.
  destruct (roundRational _) as [q|] eqn:Eq; [|done]. injection Hok as <-.
  apply Rat_SetString_value in Er as [Hd Hv].
  destruct (decimal_value value) as [digits places]. cbn [fst snd] in Hv.
  assert (Denom r * 1 <> 0) as Hnz by lia.
  apply roundRational_nearest in Eq as [Hr Hn]; [|by apply SetFrac_normal].
  pose proof (Z.pow_pos_nonneg 10 (Z.of_nat places) ltac:(lia) ltac:(lia)).
  split; [done|]. split.
  - refine (nearest_scale _ _ _ _ _ _ _ _ Hn); [by apply SetFrac_normal|done|].
    apply (Z.mul_cancel_r _ _ (Denom r)); [lia|].
    pose proof (SetFrac_value (Num r * 1000) (Denom r * 1) Hnz) as Hs.
    change (SetFrac (Num r * 1000) (Denom r * 1)) with (Rat_Mul r (mkRat 1000 1)) in Hs.
    set (N := Num (Rat_Mul _ _)) in *. set (D := Denom (Rat_Mul _ _)) in *.
    transitivity (N * (Denom r * 1) * 10 ^ Z.of_nat places); [ring|]. rewrite Hs.
    transitivity (1000 * D * (Num r * 10 ^ Z.of_nat places)); [ring|]. rewrite Hv. ring.
  - intros ->. simpl in *. split_bool. nia.
Qed.

Lemma milliseconds_Ok value allowNegative o :
  parseOptionalMilliseconds value allowNegative = Ok o ->
  opt (fun z => int64_range z /\ (allowNegative = false -> 0 <= z)) o.
Proof.
  intros H ms ->. destruct value as [value|]; [|done].
  apply milliseconds_nearest in H. destruct (decimal_value value) as [digits places].
  destruct H as (Hr & [H1 H2] & Hs). split; [done|]. intros E. specialize (Hs E).
  pose proof (Z.pow_pos_nonneg 10 (Z.of_nat places) ltac:(lia) ltac:(lia)). nia.
Qed.

(** A rational of the evidence: 64-bit, in lowest terms, positive denominator. *)
Definition rational_wf (r : Rational) : Prop :=
  int64_range (Numerator r) /\ int64_range (Denominator r) /\ 0 < Denominator r /\
  Z.gcd (Numerator r) (Denominator r) = 1.

Lemma parseOptionalRational_Ok value o :
  parseOptionalRational value = Ok o -> opt rational_wf o.
Proof.
  unfold parseOptionalRational. destruct value as [s|]; [|intros [= <-]; auto with go].
  destruct (_ || _); [intros [= <-]; auto with go|].
  destruct (split_on slash s) as [|a [|b [|]]]; try done.
  intros H. inv_result. split_bool. apply opt_Some. unfold rational_wf. cbn.
  split_and!; try done; by apply SetFrac_normal.
Qed.

Lemma optionalPositive_Ok value o : optionalPositive value = Ok o -> o = value /\ opt (fun z => 0 < z) o.
Proof.
  unfold optionalPositive. destruct value; [case_bool_decide|]; intros [= <-]; split; auto with go.
  apply opt_Some. lia.
Qed.

Lemma optionalNonNegative_Ok value o :
  optionalNonNegative value = Ok o -> o = value /\ opt (fun z => 0 <= z) o.
Proof.
  unfold optionalNonNegative. destruct value; [case_bool_decide|]; intros [= <-]; split; auto with go.
  apply opt_Some. lia.
Qed.

(** ** Tags and names *)

(** The tags of a section: at most one per name, in order of name, and no value
    that is too long, is not UTF-8 or has a control character. *)
Definition tags_wf (tags : list ProbeTag) : Prop :=
  (length tags <= 7)%nat /\ NoDup (map tag_Name tags) /\ StronglySorted tag_le tags /\
  Forall (fun tag => ValidString (tag_Value tag) = true /\ rune_count (tag_Value tag) <= 512 /\
                     s_forall (fun c => negb (control_byte c)) (tag_Value tag) = true) tags.

Lemma tag_le_le a b : tag_le a b <-> String.le (tag_Name a) (tag_Name b).
Proof. unfold tag_le, string_le, String.le. symmetry. apply Is_true_true. Qed.

Lemma tag_le_total : Total tag_le.
Proof. intros a b. rewrite !tag_le_le. apply String.le_total. Qed.

Lemma tag_le_trans : Transitive tag_le.
Proof. intros a b c. rewrite !tag_le_le. apply transitivity. Qed.

Lemma validateTagValue_Ok value u :
  validateTagValue value = Ok u ->
  ValidString value = true /\ rune_count value <= 512 /\
  s_forall (fun c => negb (control_byte c)) value = true.
Proof.
  unfold validateTagValue, maxTagValueRunes. intros H. inv_result. split_bool. split_and!; [done|lia|done].
Qed.

Lemma keep_tag_Some item tag :
  keep_tag item = Some tag ->
  tag_Name tag = item.1 /\ exists u, validateTagValue (tag_Value tag) = Ok u.
Proof.
  unfold keep_tag. destruct (item.2) as [value|]; [|done].
  destruct (validateTagValue value) as [u|] eqn:E; [|done]. intros [= <-]. eauto.
Qed.

Lemma keep_tags_names items :
  map tag_Name (omap keep_tag items) `sublist_of` map fst items.
Proof.
  induction items as [|item items IH]; csimpl; [done|].
  destruct (keep_tag item) as [tag|] eqn:E; csimpl.
  - apply keep_tag_Some in E as [-> _]. by apply sublist_skip.
  - by apply sublist_cons.
Qed.

Lemma tag_names_distinct tags : NoDup (map fst (named_tags tags)).
Proof. cbn. repeat (constructor; [set_solver|]). constructor. Qed.

Lemma normalizeTags_wf tags : tags_wf (normalizeTags tags).
Proof.
  destruct tags as [tags|]; cbn [normalizeTags].
  2: { split_and!; [simpl; lia|constructor..]. }
  pose proof (merge_sort_Permutation tag_le (omap keep_tag (named_tags tags))) as Hp.
  pose proof (keep_tags_names (named_tags tags)) as Hs. split_and!.
  - rewrite Hp. rewrite <- (length_map tag_Name). etransitivity; [by apply sublist_length|done].
  - rewrite Hp. eapply sublist_NoDup; [apply tag_names_distinct|done].
  - apply StronglySorted_merge_sort; [apply tag_le_trans|apply tag_le_total].
  - rewrite Hp. apply Forall_forall. intros tag (item & Hin & Ht)%list_elem_of_omap.
    apply keep_tag_Some in Ht as (_ & u & Hu). by eapply validateTagValue_Ok.
Qed.

Lemma distinct_names_NoDup seen parts u :
  distinct_names seen parts = Ok u ->
  NoDup parts /\ Forall (fun p => p <> "" /\ p ∉ seen) parts.
Proof.
  revert seen. induction parts as [|p parts IH]; intros seen H; cbn in H.
  { split; constructor. }
  inv_result. split_bool. apply IH in H as [Hn Hf]. rewrite Forall_forall in Hf. split.
  - constructor; [|done]. intros Hin. apply Hf in Hin. set_solver.
  - constructor; [done|]. apply Forall_forall. intros q Hq. apply Hf in Hq. set_solver.
Qed.

Lemma normalizeFormatNames_Ok value names :
  normalizeFormatNames value = Ok names -> NoDup names /\ Forall (fun p => p <> "") names.
Proof.
  unfold normalizeFormatNames. destruct value as [s|]; [case_bool_decide|]; intros Hok.
  - injection Hok as <-. split; constructor.
  - cbv zeta in Hok. apply bind_Ok in Hok as (u & Hd & Hok). injection Hok as <-.
    apply distinct_names_NoDup in Hd as [Hn Hf].
    split; [done|]. eapply Forall_impl; [exact Hf|]. by intros p [? _].
  - injection Hok as <-. split; constructor.
Qed.

Lemma normalizeStreamKind_Ok value o :
  normalizeStreamKind value = Ok o ->
  opt (fun kind => kind ∈ [ProbeStreamVideo; ProbeStreamAudio; ProbeStreamSubtitle;
                           ProbeStreamData; ProbeStreamAttachment; ProbeStreamOther]) o.
Proof.
  unfold normalizeStreamKind. destruct value as [s|]; [case_bool_decide|]; intros Hok; inv_result;
    auto with go.
  apply opt_Some. repeat case_bool_decide; repeat constructor.
Qed.

(** ** Sections *)

Definition counted (z : Z) : Prop := int64_range z /\ 0 <= z.
Definition sized (z : Z) : Prop := int64_range z /\ 0 < z.

Record format_wf (f : ProbeFormat) : Prop := {
  fw_names : NoDup (pf_Names f) /\ Forall (fun p => p <> "") (pf_Names f);
  fw_streams : opt (fun z => 0 <= z) (pf_StreamCount f);
  fw_programs : opt (fun z => 0 <= z) (pf_ProgramCount f);
  fw_start : opt int64_range (pf_StartTimeMS f);
  fw_duration : opt counted (pf_DurationMS f);
  fw_size : opt sized (pf_SizeBytes f);
  fw_bit_rate : opt counted (pf_BitRateBPS f);
  fw_score : opt (fun z => 0 <= z) (pf_ProbeScore f);
  fw_tags : tags_wf (pf_Tags f) }.

Record stream_wf (s : ProbeStream) : Prop := {
  sw_kind : opt (fun kind => kind ∈ [ProbeStreamVideo; ProbeStreamAudio; ProbeStreamSubtitle;
                           ProbeStreamData; ProbeStreamAttachment; ProbeStreamOther]) (ps_Kind s);
  sw_width : opt (fun z => 0 < z) (ps_Width s);
  sw_height : opt (fun z => 0 < z) (ps_Height s);
  sw_sample_rate : opt sized (ps_SampleRateHz s);
  sw_channels : opt (fun z => 0 < z) (ps_Channels s);
  sw_frame_rate : opt rational_wf (ps_FrameRate s);
  sw_average_rate : opt rational_wf (ps_AverageRate s);
  sw_time_base : opt rational_wf (ps_TimeBase s);
  sw_start : opt int64_range (ps_StartTimeMS s);
  sw_ticks : opt (fun z => 0 <= z) (ps_DurationTicks s);
  sw_duration : opt counted (ps_DurationMS s);
  sw_bit_rate : opt counted (ps_BitRateBPS s);
  sw_frames : opt counted (ps_FrameCount s);
  sw_tags : tags_wf (ps_Tags s) }.

Record program_wf (p : ProbeProgram) : Prop := {
  pw_id : 0 <= pp_ID p;
  pw_counts : opt (fun z => 0 <= z) (pp_Number p) /\ opt (fun z => 0 <= z) (pp_StreamCount p) /\
              opt (fun z => 0 <= z) (pp_PMTPID p) /\ opt (fun z => 0 <= z) (pp_PCRPID p);
  pw_members : NoDup (pp_StreamIndexes p);
  pw_tags : tags_wf (pp_Tags p) }.

Record chapter_wf (c : ProbeChapter) : Prop := {
  cw_time_base : opt rational_wf (pc_TimeBase c);
  cw_start : opt int64_range (pc_StartTimeMS c);
  cw_end : opt int64_range (pc_EndTimeMS c);
  cw_ticks : forall s e, pc_StartTicks c = Some s -> pc_EndTicks c = Some e -> s <= e;
  cw_order : forall s e, pc_StartTimeMS c = Some s -> pc_EndTimeMS c = Some e -> s <= e;
  cw_tags : tags_wf (pc_Tags c) }.

Lemma opt_impl {A} (P Q : A -> Prop) o : (forall x, P x -> Q x) -> opt P o -> opt Q o.
Proof. unfold opt. eauto. Qed.

Lemma size_parsed value o : parseOptionalInteger value positive = Ok o -> opt sized o.
Proof.
  intros H%parseOptionalInteger_Ok. eapply opt_impl; [|exact H].
  intros z [Hr Hc]. unfold positive in Hc. split_bool. by split.
Qed.

Lemma count_parsed value o : parseOptionalInteger value nonNegative = Ok o -> opt counted o.
Proof.
  intros H%parseOptionalInteger_Ok. eapply opt_impl; [|exact H].
  intros z [Hr Hc]. unfold nonNegative in Hc. split_bool. by split.
Qed.

Lemma start_parsed value o : parseOptionalMilliseconds value true = Ok o -> opt int64_range o.
Proof. intros H%milliseconds_Ok. eapply opt_impl; [|exact H]. by intros z []. Qed.

Lemma duration_parsed value o : parseOptionalMilliseconds value false = Ok o -> opt counted o.
Proof. intros H%milliseconds_Ok. eapply opt_impl; [|exact H]. intros z []. by split; auto. Qed.

Lemma positive_checked value o : optionalPositive value = Ok o -> opt (fun z => 0 < z) o.
Proof. by intros [_ H]%optionalPositive_Ok. Qed.

Lemma nonNegative_checked value o : optionalNonNegative value = Ok o -> opt (fun z => 0 <= z) o.
Proof. by intros [_ H]%optionalNonNegative_Ok. Qed.

#[export] Hint Resolve size_parsed count_parsed start_parsed duration_parsed positive_checked
  nonNegative_checked parseOptionalRational_Ok normalizeTags_wf normalizeFormatNames_Ok
  normalizeStreamKind_Ok : go.

Lemma normalizeFormat_wf format f : normalizeFormat format = Ok f -> format_wf f.
Proof. unfold normalizeFormat. intros H. inv_result. constructor; cbn; eauto with go. Qed.

Lemma normalizeStream_wf stream s :
  normalizeStream stream = Ok s -> stream_wf s /\ Index stream = Some (ps_Index s).
Proof.
  unfold normalizeStream, deref. intros H. inv_result.
  destruct (Index stream) eqn:E; [|done]. inv_result. split; [|done].
  constructor; cbn; eauto with go.
Qed.

Lemma ends_early_false start finish :
  ends_early start finish = false -> forall s e, start = Some s -> finish = Some e -> s <= e.
Proof. unfold ends_early. intros H s e -> ->. split_bool. lia. Qed.

Lemma normalizeChapter_wf chapter c :
  normalizeChapter chapter = Ok c -> chapter_wf c /\ c_ID chapter = Some (pc_ID c).
Proof.
  unfold normalizeChapter, deref. intros H. inv_result.
  destruct (c_ID chapter) eqn:E; [|done]. inv_result. split; [|done].
  constructor; cbn; eauto using ends_early_false with go.
Qed.

Lemma deref_members streams l :
  mapM (fun stream => deref (Index stream)) streams = Ok l -> map Index streams = map Some l.
Proof.
  intros H%mapM_Ok. induction H as [|s i ss indexes Hs H IH]; cbn; [done|]. rewrite IH. f_equal.
  unfold deref in Hs. by destruct (Index s); inv_result.
Qed.

Lemma normalizeProgram_Ok program p :
  normalizeProgram program = Ok p ->
  ID program = Some (pp_ID p) /\ map Index (p_Streams program) = map Some (pp_StreamIndexes p) /\
  (NoDup (pp_StreamIndexes p) -> program_wf p).
Proof.
  unfold normalizeProgram. intros H. apply bind_Ok in H as (id & Hid & H). inv_result.
  unfold deref in Hid. destruct (ID program) eqn:E; [|done]. inv_result. split_bool.
  split; [done|]. split; [by apply deref_members|]. intros Hn.
  constructor; cbn; [lia|split_and!; eauto with go|done|auto with go].
Qed.

(** ** The document *)

(** [l] lists distinct indexes, all of them present and none in [seen]. *)
Definition listed (seen : gset Z) (l : list (option Z)) (ids : list Z) : Prop :=
  l = map Some ids /\ NoDup ids /\ Forall (fun i => i ∉ seen) ids.

Lemma listed_nil seen : listed seen [] [].
Proof. split_and!; constructor. Qed.

Lemma listed_cons seen i l ids :
  i ∉ seen -> listed ({[i]} ∪ seen) l ids -> listed seen (Some i :: l) (i :: ids).
Proof.
  intros Hi (-> & Hn & Hf). rewrite Forall_forall in Hf. split_and!; [done| |].
  - constructor; [|done]. intros Hin. apply Hf in Hin. set_solver.
  - constructor; [done|]. apply Forall_forall. intros j Hj. apply Hf in Hj. set_solver.
Qed.

Lemma stream_indexes_Ok seen streams known :
  stream_indexes seen streams = Ok known ->
  exists ids, listed seen (map Index streams) ids /\ Forall (fun i => 0 <= i) ids /\
              known = list_to_set ids ∪ seen.
Proof.
  revert seen. induction streams as [|s streams IH]; intros seen H; cbn in H |- *.
  { injection H as <-. exists []. split_and!; [apply listed_nil|constructor|set_solver]. }
  destruct (Index s) as [i|]; [|done]. inv_result. split_bool.
  apply IH in H as (ids & Hl & Hf & ->). exists (i :: ids).
  split_and!; [by apply listed_cons|by constructor; [lia|]|set_solver].
Qed.

Lemma check_members_Ok known members streams u :
  check_members known members streams = Ok u ->
  exists ids, listed members (map Index streams) ids /\ Forall (fun i => i ∈ known) ids.
Proof.
  revert members. induction streams as [|s streams IH]; intros members H; cbn in H |- *.
  { exists []. split; [apply listed_nil|constructor]. }
  destruct (Index s) as [i|]; [|done]. inv_result. split_bool.
  apply IH in H as (ids & Hl & Hf). exists (i :: ids).
  split; [by apply listed_cons|by constructor].
Qed.

Lemma check_programs_Ok known seen programs u :
  check_programs known seen programs = Ok u ->
  (exists ids, listed seen (map ID programs) ids) /\
  Forall (fun program => exists ids, listed ∅ (map Index (p_Streams program)) ids /\
                                     Forall (fun i => i ∈ known) ids) programs.
Proof.
  revert seen. induction programs as [|p programs IH]; intros seen H; cbn in H |- *.
  { split; [exists []; apply listed_nil|constructor]. }
  destruct (ID p) as [i|]; [|done]. apply bind_Ok in H as (u1 & H1 & H).
  apply bind_Ok in H as ([] & Hm & H). inv_result. split_bool.
  apply IH in H as [[ids Hl] Hf]. split.
  - exists (i :: ids). by apply listed_cons.
  - constructor; [|done]. by eapply check_members_Ok.
Qed.

Lemma check_chapters_Ok seen chapters u :
  check_chapters seen chapters = Ok u -> exists ids, listed seen (map c_ID chapters) ids.
Proof.
  revert seen. induction chapters as [|c chapters IH]; intros seen H; cbn in H |- *.
  { exists []. apply listed_nil. }
  destruct (c_ID c) as [i|]; [|done]. inv_result. split_bool.
  apply IH in H as [ids Hl]. exists (i :: ids). by apply listed_cons.
Qed.

Lemma map_Some_inj (l k : list Z) : map Some l = map Some k -> l = k.
Proof. intros E. by apply (inj (fmap (M:=list) Some)). Qed.

Lemma listed_same seen l ids ids' : listed seen l ids -> l = map Some ids' -> ids = ids'.
Proof. intros (-> & _) E. by apply map_Some_inj. Qed.

Lemma named_by {A B} (f : A -> result B) (key : A -> option Z) (name : B -> Z) l k :
  Forall2 (fun x y => f x = Ok y) l k -> (forall x y, f x = Ok y -> key x = Some (name y)) ->
  map key l = map Some (map name k).
Proof. intros H Hf. induction H as [|x y l k Hxy H IH]; cbn; [done|]. rewrite IH. f_equal. auto. Qed.

(** Evidence as the rest of the program may rely on it. *)
Record evidence_wf (e : ProbeEvidence) : Prop := {
  ew_format : format_wf (pe_Format e);
  ew_streams : Forall stream_wf (pe_Streams e);
  ew_indexes : NoDup (map ps_Index (pe_Streams e)) /\
               Forall (fun i => 0 <= i) (map ps_Index (pe_Streams e));
  ew_programs : Forall program_wf (pe_Programs e) /\ NoDup (map pp_ID (pe_Programs e));
  ew_members : Forall (fun p => Forall (fun i => i ∈ map ps_Index (pe_Streams e)) (pp_StreamIndexes p))
                 (pe_Programs e);
  ew_chapters : Forall chapter_wf (pe_Chapters e) /\ NoDup (map pc_ID (pe_Chapters e)) }.

Lemma stream_duration_range s d : stream_wf s -> ps_DurationMS s = Some d -> int64_range d.
Proof. intros H Hd. by destruct (sw_duration s H d Hd). Qed.

Lemma evidence_wf_range e : evidence_wf e -> evidence_range e.
Proof.
  intros H. split.
  - intros d Hd. by destruct (fw_duration _ (ew_format e H) d Hd).
  - eapply Forall_impl; [exact (ew_streams e H)|]. intros s Hs d. by apply stream_duration_range.
Qed.

Lemma program_members (known : gset Z) programs ps :
  Forall2 (fun program p => normalizeProgram program = Ok p) programs ps ->
  Forall (fun program => exists ids, listed ∅ (map Index (p_Streams program)) ids /\
                                     Forall (fun i => i ∈ known) ids) programs ->
  Forall program_wf ps /\ Forall (fun p => Forall (fun i => i ∈ known) (pp_StreamIndexes p)) ps.
Proof.
  induction 1 as [|program p programs ps Hp Hps IH]; intros Hf; [by split; constructor|].
  apply Forall_cons in Hf as [(ids & Hl & Hk) Hf]. apply IH in Hf as [Hw Hm].
  apply normalizeProgram_Ok in Hp as (_ & Hmem & Hwf).
  pose proof (listed_same _ _ _ _ Hl Hmem) as ->. destruct Hl as (_ & Hn & _).
  by split; constructor; auto.
Qed.

Lemma known_indexes (known : gset Z) ids : known = list_to_set ids ∪ ∅ -> forall i : Z, i ∈ known -> i ∈ ids.
Proof. intros ->. set_solver. Qed.

Lemma Normalize_wf document e :
  Normalize document = Ok e ->
  evidence_wf e /\ map Index (Streams document) = map Some (map ps_Index (pe_Streams e)).
Proof.
  unfold Normalize. intros H. apply bind_Ok in H as (u & Hv & H).
  apply bind_Ok in H as (f & Hf & H). apply bind_Ok in H as (format & Hformat & H).
  apply bind_Ok in H as (streams & Hs%mapM_Ok & H). apply bind_Ok in H as (programs & Hp%mapM_Ok & H).
  apply bind_Ok in H as (chapters & Hc%mapM_Ok & H). injection H as <-. cbn.
  unfold validateDocument in Hv. apply bind_Ok in Hv as (_ & _ & Hv).
  apply bind_Ok in Hv as (_ & _ & Hv). apply bind_Ok in Hv as (known & Hknown & Hv).
  apply bind_Ok in Hv as (u1 & Hprograms & Hchapters).
  apply stream_indexes_Ok in Hknown as (ids & Hl & Hpos & Hk).
  apply check_programs_Ok in Hprograms as [[pids Hpids] Hmembers].
  apply check_chapters_Ok in Hchapters as [cids Hcids].
  pose proof (named_by _ Index ps_Index _ _ Hs (fun x y Hxy => proj2 (normalizeStream_wf x y Hxy))) as Es.
  pose proof (named_by _ ID pp_ID _ _ Hp (fun x y Hxy => proj1 (normalizeProgram_Ok x y Hxy))) as Ep.
  pose proof (named_by _ c_ID pc_ID _ _ Hc (fun x y Hxy => proj2 (normalizeChapter_wf x y Hxy))) as Ec.
  pose proof (listed_same _ _ _ _ Hl Es) as ->. pose proof (listed_same _ _ _ _ Hpids Ep) as ->.
  pose proof (listed_same _ _ _ _ Hcids Ec) as ->.
  destruct (program_members known _ _ Hp Hmembers) as [Hpw Hpm]. split; [|done]. constructor; cbn.
  - by eapply normalizeFormat_wf.
  - eapply Forall2_Forall_r; [exact Hs|]. apply Forall_forall.
    intros x _ y Hxy. by eapply normalizeStream_wf.
  - by split; [apply Hl|].
  - by split; [|apply Hpids].
  - eapply Forall_impl; [exact Hpm|]. intros p Hfp. eapply Forall_impl; [exact Hfp|].
    by apply known_indexes.
  - split; [|apply Hcids]. eapply Forall2_Forall_r; [exact Hc|]. apply Forall_forall.
    intros x _ y Hxy. by eapply normalizeChapter_wf.
Qed.

(** ** No nil pointer is read

    [Normalize] dereferences the indexes and identifiers that the document may
    lack; the checks before it make each of them present. *)
Definition safe {A} (r : result A) : Prop := r <> Err nil_dereference.

Lemma no_panic_bind {A B} (m : result A) (f : A -> result B) :
  safe m -> (forall a, m = Ok a -> safe (f a)) -> safe (m ≫= f).
Proof. unfold safe. destruct m; naive_solver. Qed.

Lemma safe_mapM {A B} (f : A -> result B) l : (forall x, x ∈ l -> safe (f x)) -> safe (mapM f l).
Proof.
  induction l as [|x l IH]; intros H; cbn; [done|]. apply no_panic_bind; [apply H; left|].
  intros y _. apply no_panic_bind; [|done]. apply IH. intros z Hz. apply H. by right.
Qed.

Lemma safe_deref {A} (o : option A) : o <> None -> safe (deref o).
Proof. by destruct o. Qed.

(** The functions that only return errors of their own. *)
Ltac own_errors := unfold safe; repeat (cbn; case_next); try done; cbn; try congruence.

Lemma safe_fail_if b e : e <> nil_dereference -> safe (fail_if b e).
Proof. unfold safe. destruct b; simpl; congruence. Qed.

Ltac no_panic :=
  repeat first
    [ done
    | apply safe_fail_if; done
    | apply no_panic_bind; [|intros ? ?]
    | progress (cbv zeta)
    | match goal with
      | |- safe (if ?b then _ else _) => destruct b
      | |- safe (match ?x with _ => _ end) => destruct x eqn:?
      end ].

Lemma optionals_safe value constraint allowNegative :
  safe (parseOptionalInteger value constraint) /\ safe (parseOptionalMilliseconds value allowNegative) /\
  safe (parseOptionalRational value).
Proof.
  unfold parseOptionalInteger, parseOptionalMilliseconds, parseOptionalRational.
  split; [|split]; no_panic.
Qed.

Lemma checks_safe value :
  safe (optionalPositive value) /\ safe (optionalNonNegative value) /\ safe (optionalBoolean value).
Proof.
  unfold optionalPositive, optionalNonNegative, optionalBoolean. split; [|split]; no_panic.
Qed.

Lemma distinct_names_safe seen parts : safe (distinct_names seen parts).
Proof. revert seen. induction parts; intros seen; cbn; no_panic. Qed.

Lemma names_safe value : safe (normalizeFormatNames value) /\ safe (normalizeStreamKind value).
Proof.
  unfold normalizeFormatNames, normalizeStreamKind.
  split; no_panic; apply distinct_names_safe.
Qed.

Lemma disposition_safe value : safe (normalizeDisposition value).
Proof. unfold normalizeDisposition. no_panic; apply checks_safe. Qed.

Create HintDb safe.
#[local] Hint Extern 1 (safe (parseOptionalInteger _ _)) => apply (optionals_safe _ _ true) : safe.
#[local] Hint Extern 1 (safe (parseOptionalMilliseconds _ _)) => apply (optionals_safe _ positive _) : safe.
#[local] Hint Extern 1 (safe (parseOptionalRational _)) => apply (optionals_safe _ positive true) : safe.
#[local] Hint Extern 1 (safe (optionalPositive _)) => apply checks_safe : safe.
#[local] Hint Extern 1 (safe (optionalNonNegative _)) => apply checks_safe : safe.
#[local] Hint Extern 1 (safe (normalizeFormatNames _)) => apply names_safe : safe.
#[local] Hint Extern 1 (safe (normalizeStreamKind _)) => apply names_safe : safe.
#[local] Hint Resolve disposition_safe : safe.

Ltac runs_safe :=
  repeat first [ apply no_panic_bind; [solve [auto with safe]|intros ? ?] | progress cbv zeta ].

Lemma normalizeFormat_safe format : safe (normalizeFormat format).
Proof. unfold normalizeFormat. runs_safe. done. Qed.

Lemma normalizeStream_safe stream : Index stream <> None -> safe (normalizeStream stream).
Proof.
  intros H. unfold normalizeStream. runs_safe. apply no_panic_bind; [by apply safe_deref|done].
Qed.

Lemma normalizeProgram_safe program :
  ID program <> None -> Forall (fun s => Index s <> None) (p_Streams program) ->
  safe (normalizeProgram program).
Proof.
  intros H Hf. unfold normalizeProgram. apply no_panic_bind; [by apply safe_deref|intros id _].
  apply no_panic_bind; [by apply safe_fail_if|intros _ _]. runs_safe.
  apply no_panic_bind; [|done]. apply safe_mapM. intros s Hs. apply safe_deref.
  rewrite Forall_forall in Hf. by apply Hf.
Qed.

Lemma normalizeChapter_safe chapter : c_ID chapter <> None -> safe (normalizeChapter chapter).
Proof.
  intros H. unfold normalizeChapter. runs_safe.
  apply no_panic_bind; [by apply safe_fail_if|intros _ _].
  apply no_panic_bind; [by apply safe_fail_if|intros _ _]. runs_safe.
  apply no_panic_bind; [by apply safe_deref|done].
Qed.

Lemma indexes_safe seen streams : safe (stream_indexes seen streams).
Proof. revert seen. induction streams; intros seen; cbn; no_panic. Qed.

Lemma members_safe known members streams : safe (check_members known members streams).
Proof. revert members. induction streams; intros members; cbn; no_panic. Qed.

Lemma programs_safe known seen programs : safe (check_programs known seen programs).
Proof. revert seen. induction programs; intros seen; cbn; no_panic. apply members_safe. Qed.

Lemma chapters_safe seen chapters : safe (check_chapters seen chapters).
Proof. revert seen. induction chapters; intros seen; cbn; no_panic. Qed.

Lemma listed_present {A} seen (key : A -> option Z) l ids :
  listed seen (map key l) ids -> forall x, x ∈ l -> key x <> None.
Proof.
  intros (E & _) x Hx Hk. apply (list_elem_of_fmap_2 key) in Hx.
  change (key x ∈ map key l) in Hx. rewrite E, Hk in Hx.
  apply list_elem_of_In, List.in_map_iff in Hx as (y & Hy & _). done.
Qed.

Lemma Normalize_safe document : safe (Normalize document).
Proof.
  unfold Normalize. apply no_panic_bind.
  { unfold validateDocument. no_panic; auto using indexes_safe, programs_safe, chapters_safe. }
  intros u Hv. unfold validateDocument in Hv. apply bind_Ok in Hv as (u0 & Hformat & Hv).
  apply bind_Ok in Hv as (_ & _ & Hv). apply bind_Ok in Hv as (known & Hknown & Hv).
  apply bind_Ok in Hv as (u1 & Hprograms & Hchapters). inv_result. split_bool.
  apply stream_indexes_Ok in Hknown as (ids & Hl & _ & _).
  apply check_programs_Ok in Hprograms as [[pids Hpids] Hmembers].
  apply check_chapters_Ok in Hchapters as [cids Hcids].
  apply no_panic_bind; [by apply safe_deref|intros format _].
  apply no_panic_bind; [apply normalizeFormat_safe|intros f _].
  apply no_panic_bind.
  { apply safe_mapM. intros s Hs. apply normalizeStream_safe. by eapply listed_present. }
  intros streams _. apply no_panic_bind.
  { apply safe_mapM. intros p Hp. apply normalizeProgram_safe; [by eapply listed_present|].
    rewrite Forall_forall in Hmembers. apply Hmembers in Hp as (members & Hm & _).
    apply Forall_forall. intros s Hs. by eapply listed_present. }
  intros programs _. apply no_panic_bind; [|done].
  apply safe_mapM. intros c Hc. apply normalizeChapter_safe. by eapply listed_present.
Qed.

(** ** One run of the command *)

Definition written (output : list string) : string := foldr String.app "" output.

Lemma Write_fold output b :
  overflow (fold_left Write output b) = false ->
  overflow b = false /\ buffer (fold_left Write output b) = buffer b +:+ written output /\
  (Z.of_nat (String.length (buffer b)) <= limit b ->
   Z.of_nat (String.length (buffer (fold_left Write output b))) <= limit b).
Proof.
  revert b. induction output as [|data output IH]; intros b H.
  { split; [done|]. split; [|done]. cbn. by rewrite string_app_nil_r. }
  cbn [fold_left] in *. apply IH in H as (Hover & Hbuffer & Hlength).
  unfold Write in Hover, Hbuffer, Hlength |- *.
  repeat case_bool_decide; cbn in *; try done. split; [done|].
  split; [by rewrite Hbuffer, string_app_assoc|]. intros _. apply Hlength.
  rewrite string_length_app. lia.
Qed.

(** A time of the evidence is the nearest millisecond to the text it was. *)
Definition time_of (text : option string) (ms : option Z) : Prop :=
  forall z, ms = Some z -> exists value, text = Some value /\
  nearest z (1000 * (decimal_value value).1) (10 ^ Z.of_nat (decimal_value value).2).

Lemma time_parsed value allowNegative o :
  parseOptionalMilliseconds value allowNegative = Ok o -> time_of value o.
Proof.
  intros H ms ->. destruct value as [value|]; [|done]. apply milliseconds_nearest in H.
  exists value. destruct (decimal_value value). by destruct H as (_ & ? & _).
Qed.

Lemma normalizeFormat_times format f :
  normalizeFormat format = Ok f ->
  time_of (StartTime format) (pf_StartTimeMS f) /\ time_of (Duration format) (pf_DurationMS f).
Proof. unfold normalizeFormat. intros H. inv_result. eauto using time_parsed. Qed.

Lemma normalizeStream_times stream s :
  normalizeStream stream = Ok s ->
  time_of (s_StartTime stream) (ps_StartTimeMS s) /\ time_of (s_Duration stream) (ps_DurationMS s).
Proof.
  unfold normalizeStream. intros H. inv_result. cbn. eauto using time_parsed.
Qed.

Lemma Normalize_times document e :
  Normalize document = Ok e ->
  (exists format, d_Format document = Some format /\
     time_of (StartTime format) (pf_StartTimeMS (pe_Format e)) /\
     time_of (Duration format) (pf_DurationMS (pe_Format e))) /\
  Forall2 (fun stream s => time_of (s_StartTime stream) (ps_StartTimeMS s) /\
                           time_of (s_Duration stream) (ps_DurationMS s))
    (Streams document) (pe_Streams e).
Proof.
  unfold Normalize. intros H. apply bind_Ok in H as (u & _ & H).
  apply bind_Ok in H as (f & Hf & H). apply bind_Ok in H as (format & Hformat & H).
  apply bind_Ok in H as (streams & Hs%mapM_Ok & H). inv_result.
  unfold deref in Hf. destruct (d_Format document); inv_result. split.
  - eauto using normalizeFormat_times.
  - eapply Forall2_impl; [exact Hs|]. apply normalizeStream_times.
Qed.

(** C23. Normalising a document never reads an absent pointer, whatever the
    document. Evidence is returned by a probe only when the command succeeded
    and wrote at most 4 MiB, all of which is one document that passes the
    checks; that evidence is well typed: times, sizes and rates are 64-bit
    integers of the right sign, rationals are in lowest terms over a positive
    denominator, streams have the distinct indexes of the document, programs
    and chapters are distinct and only refer to those streams, tags are sorted
    and bounded, and every start and duration is the nearest millisecond to
    the decimal in the document, ties going away from zero. *)
Theorem probe_evidence_typed `{DocumentDecoder} runner execution :
  (forall document, Normalize document <> Err nil_dereference) /\
  forall e, ProbeFile runner execution = Probed e ->
  RunFails execution = false /\ evidence_wf e /\ evidence_range e /\
  exists document,
    Z.of_nat (String.length (written (Output execution))) <= 4194304 /\
    Decode (written (Output execution)) = Ok document /\ Normalize document = Ok e /\
    map Index (Streams document) = map Some (map ps_Index (pe_Streams e)) /\
    (exists format, d_Format document = Some format /\
       time_of (StartTime format) (pf_StartTimeMS (pe_Format e)) /\
       time_of (Duration format) (pf_DurationMS (pe_Format e))) /\
    Forall2 (fun stream s => time_of (s_StartTime stream) (ps_StartTimeMS s) /\
                             time_of (s_Duration stream) (ps_DurationMS s))
      (Streams document) (pe_Streams e).
Proof.
  split; [apply Normalize_safe|]. intros e. unfold ProbeFile.
  destruct (validateProbe _ _); [|done]. destruct (SeekFails _); [done|].
  destruct (RunFails execution); [by repeat case_next|].
  destruct (overflow _) eqn:Ho; [done|].
  apply Write_fold in Ho as (_ & Hb & Hl). rewrite Hb in *. cbn in *.
  destruct (Decode _) as [document|] eqn:Hd; [|done].
  destruct (Normalize document) as [evidence|] eqn:Hn; [|done]. intros [= <-].
  destruct (Normalize_wf _ _ Hn) as [Hwf Hi]. destruct (Normalize_times _ _ Hn) as [Hf Hs].
  split; [done|]. split; [done|]. split; [by apply evidence_wf_range|].
  exists document. split; [by apply Hl|]. done.
Qed.

(** ** A document that is accepted *)

Definition example_format : Format :=
  mkFormat (Some 1) (Some 0) (Some "matroska,webm") None (Some "-0.0005") (Some "5400.0015")
    (Some "734003200") (Some "1087412") (Some 100)
    (Some (mkTags None (Some "A film") None (Some "libebml") None None None)).

Definition example_video : Stream :=
  mkStream (Some 0) (Some "h264") None None (Some "video") None (Some 1920) (Some 1080) None None
    None None None (Some "30000/1001") (Some "60000/2002") (Some "1/1000") None (Some "0.000000") None
    (Some "N/A") (Some "N/A") None (Some (mkDisposition (Some 1) (Some 0) None None)) None [].

Definition example_document : Document :=
  mkDocument [] [] [example_video]
    [mkChapter (Some (-7)) (Some "1/1000000000") (Some 0) (Some "0.0") (Some 10) (Some "60.5") None]
    (Some example_format).

Definition example_decoder : DocumentDecoder :=
  {| DecodeDocument := fun _ => Ok (example_document, EndOfInput) |}.

Definition example_execution : Execution := mkExecution None false ["{"; "}"] false None false.
Definition example_runner : Runner := mkRunner "/bin/ffprobe" 60000000000.

Definition example_evidence : ProbeEvidence :=
  match Normalize example_document with Ok e => e | Err _ => zero_ProbeEvidence end.

Lemma probe_evidence_typed_witness :
  ProbeFile (H := example_decoder) example_runner example_execution = Probed example_evidence /\
  evidence_wf example_evidence /\ pf_DurationMS (pe_Format example_evidence) = Some 5400002 /\
  pf_StartTimeMS (pe_Format example_evidence) = Some (-1).
Proof.
  assert (ProbeFile (H := example_decoder) example_runner example_execution =
          Probed example_evidence) as E by (vm_compute; reflexivity).
  split; [exact E|].
  destruct (@probe_evidence_typed example_decoder example_runner example_execution) as [_ T].
  destruct (T _ E) as (_ & W & _). split; [exact W|]. vm_compute. split; reflexivity.
Defined.
