(* ===== verification/Inventory.v ===== *)
(** * The inventory of a download

    [internal/filesystem/inventory.go]: the files below the root of a download,
    read twice and compared with the manifest of the download client. The
    answers of the operating system are the fields of [Observations]; nothing
    is assumed of how they relate, so that files may change between them. *)
From stdpp Require Import base strings list gmap sorting.
From Stdlib Require Import Ascii.
From S2P Require Import Prelude GoStrings GoCrypto FileIdentity JsonSchema Media Radarr.

Module filesystem.

(** ** Entries *)

Inductive file_type := Directory | Regular | Symlink | Special.

(** [os.FileMode]: the type of the entry and its permission bits. *)
Record FileMode := mkFileMode { mode_type : file_type; mode_permissions : Z }.

(** [os.FileInfo]; without the system's metadata there is no fingerprint. *)
Record FileInfo := mkFileInfo { info_mode : FileMode; info_snapshot : option FileFingerprint }.

#[global] Instance file_type_eq_dec : EqDecision file_type.
Proof. solve_decision. Defined.
#[global] Instance FileMode_eq_dec : EqDecision FileMode.
Proof. solve_decision. Defined.

Definition is_type (t : file_type) (info : FileInfo) : bool :=
  bool_decide (mode_type (info_mode info) = t).

Definition snapshot (info : FileInfo) : result FileFingerprint :=
  match info_snapshot info with
  | Some fingerprint => Ok fingerprint
  | None => Err "unsupported filesystem metadata"
  end.

Definition sameSnapshot (left right : FileFingerprint) : bool := bool_decide (left = right).

Record entrySnapshot := mkentrySnapshot
  { es_path : string; es_fingerprint : FileFingerprint; es_mode : FileMode }.

Definition newEntrySnapshot (path : string) (info : FileInfo) : result entrySnapshot :=
  fingerprint ← snapshot info;
  mret (mkentrySnapshot path fingerprint (info_mode info)).

Definition sameEntrySnapshot (left right : entrySnapshot) : bool :=
  bool_decide (es_mode left = es_mode right) && sameSnapshot (es_fingerprint left) (es_fingerprint right).

(** One call of the function given to [fs.WalkDir]: the path, the error of the
    walk, that of the context, and what the entry, and the file it is opened
    as, report. *)
Record walk_call := mkwalk_call
  { wc_path : string; wc_error : option error; wc_context : option error;
    wc_info : result FileInfo; wc_opened : result FileInfo }.

(** [LstatEntry] and [RecheckContext] are the answers of the second pass. *)
Record Observations := mkObservations
  { ContextErr : option error; TargetBefore : result FileInfo; RootBefore : result FileInfo;
    OpenRoot : result unit; OpenedRoot : result FileInfo; Walk : list walk_call;
    RecheckContext : string -> option error; LstatEntry : string -> result FileInfo;
    RootAfter : result FileInfo; TargetAfter : result FileInfo }.

Definition no_error (e : option error) : result unit :=
  match e with Some e => Err e | None => Ok tt end.

(** ** Scope and manifest *)

Record inventoryScope := mkinventoryScope
  { rootPath : string; walkPath : string; singleFile : bool }.

Definition resolveInventoryScope (target : result FileInfo) (downloadRoot : string)
    : result (inventoryScope * FileFingerprint) :=
  info ← target;
  _ ← fail_if (is_type Symlink info) "download target is not a regular file or directory";
  targetSnapshot ← snapshot info;
  if is_type Directory info then mret (mkinventoryScope downloadRoot "." false, targetSnapshot)
  else if is_type Regular info
  then mret (mkinventoryScope (filepath.Dir downloadRoot) (filepath.Base downloadRoot) true, targetSnapshot)
  else Err "download target is not a regular file or directory".

(** [fs.ValidPath]. *)
Definition ValidPath (name : string) : bool :=
  ValidString name &&
  (bool_decide (name = ".") ||
   forallb (fun part => negb (bool_decide (part = "")) && negb (bool_decide (part = ".")) &&
                        negb (bool_decide (part = ".."))) (split_on slash name)).

Definition manifestRelativePath (inventoryRoot name : string) : result string :=
  _ ← fail_if (bool_decide (name = "") || ContainsByte name nul || negb (filepath.IsAbs name)) "path is invalid";
  _ ← fail_if (negb (bool_decide (filepath.Clean name = name))) "path is not canonical";
  let relative := filepath.Rel inventoryRoot name in
  _ ← fail_if (negb (filepath.IsAbs inventoryRoot) || bool_decide (relative = ".") ||
               filepath.IsAbs relative || bool_decide (relative = "..") || HasPrefix relative "../")
        "path is outside the download root";
  _ ← fail_if (negb (ValidPath relative)) "relative path is invalid";
  mret relative.

(** The loop over the files of the download: the manifest by relative path. *)
Fixpoint manifest_files (inventoryRoot : string) (seenIndices : gset Z)
    (manifest : gmap string DownloadFile) (files : list DownloadFile)
    : result (gmap string DownloadFile) :=
  match files with
  | [] => Ok manifest
  | file :: rest =>
      _ ← fail_if (bool_decide (df_Index file < 0)) "download file index %d is invalid";
      _ ← fail_if (bool_decide (df_Index file ∈ seenIndices)) "download file index %d is duplicated";
      relative ← manifestRelativePath inventoryRoot (df_Path file);
      _ ← fail_if (bool_decide (is_Some (manifest !! relative))) "download path %q is duplicated";
      manifest_files inventoryRoot ({[df_Index file]} ∪ seenIndices) (<[relative := file]> manifest) rest
  end.

Definition buildManifest (download : Download) (inventoryRoot : string)
    : result (gmap string DownloadFile) :=
  match dl_ContentOwnership download with
  | DownloadContentOutputTree =>
      _ ← fail_if (negb (bool_decide (dl_Files download = [])))
            "output-tree download must not contain a source manifest";
      mret ∅
  | DownloadContentManifest => manifest_files inventoryRoot ∅ ∅ (dl_Files download)
  | DownloadContentOther => Err "download content ownership %q is invalid"
  end.

Definition validateManifestScope (manifest : gmap string DownloadFile) (scope : inventoryScope)
    (ownership : DownloadContentOwnership) : result unit :=
  if bool_decide (ownership = DownloadContentOutputTree) then Ok tt
  else if negb (singleFile scope) then Ok tt
  else
    _ ← fail_if (negb (bool_decide (size manifest = 1%nat))) "single-file download has %d manifest files";
    fail_if (bool_decide (manifest !! walkPath scope = None)) "download manifest does not match single-file download".

(** ** The walk *)

Record observedFile := mkobservedFile { of_path : string; of_info : FileInfo }.

Definition openRegularFile (path : string) (before : entrySnapshot) (opened : result FileInfo)
    : result FileInfo :=
  _ ← fail_if (bool_decide (path = ".") || HasSuffix path "/") "regular file path %q is invalid";
  info ← opened;
  _ ← fail_if (negb (is_type Regular info)) "filesystem entry %q changed type while it was opened";
  after ← newEntrySnapshot path info;
  _ ← fail_if (negb (sameEntrySnapshot before after)) "filesystem entry %q changed while it was opened";
  mret info.

(** One call: the snapshot of the entry and the file observed, if it is one. *)
Definition walk_entry (call : walk_call) : result (entrySnapshot * option observedFile) :=
  _ ← no_error (wc_error call);
  _ ← no_error (wc_context call);
  _ ← fail_if (negb (ValidPath (wc_path call))) "filesystem returned invalid relative path %q";
  info ← wc_info call;
  before ← newEntrySnapshot (wc_path call) info;
  match mode_type (info_mode info) with
  | Directory => mret (before, None)
  | Regular =>
      opened ← openRegularFile (wc_path call) before (wc_opened call);
      mret (before, Some (mkobservedFile (wc_path call) opened))
  | Symlink => Err "filesystem entry %q is a symbolic link"
  | Special => Err "filesystem entry %q is not a regular file or directory"
  end.

Fixpoint recheckSnapshots (o : Observations) (snapshots : list entrySnapshot) : result unit :=
  match snapshots with
  | [] => Ok tt
  | before :: rest =>
      _ ← no_error (RecheckContext o (es_path before));
      info ← LstatEntry o (es_path before);
      after ← newEntrySnapshot (es_path before) info;
      _ ← fail_if (negb (sameEntrySnapshot before after)) "filesystem entry %q changed during inventory";
      recheckSnapshots o rest
  end.

(** ** The result *)

Definition opaqueFileID (downloadID relativePath : string) : FileID :=
  "file:" +:+ sha256_hex (string_bytes
    ("radarr-repair-file-v1" +:+ String nul downloadID +:+ String nul relativePath)).

(** What the manifest says of an observed file, if it lists it. *)
Definition file_reference (ownership : DownloadContentOwnership) (expected : option DownloadFile)
    (fingerprint : FileFingerprint) : result (option DownloadFileReference) :=
  if bool_decide (ownership = DownloadContentOutputTree)
  then mret (Some (mkDownloadFileReference 0 false (SizeBytes fingerprint) (SizeBytes fingerprint) true))
  else match expected with
  | None => mret None
  | Some file =>
      _ ← fail_if (negb (bool_decide (SizeBytes fingerprint = df_LengthBytes file)))
            "filesystem entry %q size does not match download manifest";
      mret (Some (mkDownloadFileReference (df_Index file) (df_HasIndex file) (df_LengthBytes file)
                    (df_BytesCompleted file) (df_Selected file)))
  end.

(** The loop over the observed files; [found] are the manifest paths met with
    outside an output tree. *)
Fixpoint assemble_files (download : Download) (manifest : gmap string DownloadFile)
    (inventoryRoot : string) (seenIDs : gset string) (found : gset string)
    (observed : list observedFile) : result (list (InventoryFile * FilePathMapping) * gset string) :=
  match observed with
  | [] => Ok ([], found)
  | o :: rest =>
      let expected := manifest !! of_path o in
      if bool_decide (expected = None) && IsPublishedName (filepath.Base (of_path o))
      then assemble_files download manifest inventoryRoot seenIDs found rest
      else
        fingerprint ← snapshot (of_info o);
        let fileID := opaqueFileID (dl_ID download) (of_path o) in
        _ ← fail_if (bool_decide (fileID ∈ seenIDs)) "opaque file ID collision";
        reference ← file_reference (dl_ContentOwnership download) expected fingerprint;
        let found :=
          if bool_decide (dl_ContentOwnership download = DownloadContentOutputTree) ||
             bool_decide (expected = None)
          then found else {[of_path o]} ∪ found in
        '(files, found) ← assemble_files download manifest inventoryRoot ({[fileID]} ∪ seenIDs) found rest;
        mret ((mkInventoryFile fileID (split_on slash (of_path o)) fingerprint reference,
               mkFilePathMapping fileID (filepath.Join inventoryRoot (of_path o))) :: files, found)
  end.

Fixpoint check_found (found : gset string) (manifest : list (string * DownloadFile)) : result unit :=
  match manifest with
  | [] => Ok tt
  | (relative, file) :: rest =>
      _ ← fail_if (df_Selected file && negb (bool_decide (relative ∈ found)))
            "selected download file %q is missing";
      check_found found rest
  end.

Definition entry_le (a b : string * DownloadFile) : Prop := string_le a.1 b.1.
#[global] Instance entry_le_dec : RelDecision entry_le.
Proof. intros a b. unfold entry_le. apply _. Defined.

Definition assembleInventory (download : Download) (manifest : gmap string DownloadFile)
    (observed : list observedFile) (inventoryRoot : string) : result FileInventory :=
  '(files, found) ← assemble_files download manifest inventoryRoot ∅ ∅ observed;
  _ ← check_found found (merge_sort entry_le (map_to_list manifest));
  mret (mkFileInventory (map fst files) (map snd files)).

(** ** The reader *)

Definition root_directory (info : FileInfo) (e : error) : result FileFingerprint :=
  _ ← fail_if (negb (is_type Directory info)) e;
  snapshot info.

Definition Inventory (correlation : DownloadCorrelation) (o : Observations) : result FileInventory :=
  _ ← fail_if (negb (correlation_Eligible correlation)) "download correlation is ineligible";
  _ ← no_error (ContextErr o);
  let download := dc_Download correlation in
  '(scope, targetSnapshot) ← resolveInventoryScope (TargetBefore o) (dc_DownloadRoot correlation);
  manifest ← buildManifest download (rootPath scope);
  _ ← validateManifestScope manifest scope (dl_ContentOwnership download);
  outerRootInfo ← RootBefore o;
  outerRootSnapshot ← root_directory outerRootInfo "inventory root is not a regular directory";
  _ ← OpenRoot o;
  openedRootInfo ← OpenedRoot o;
  openedRootSnapshot ← root_directory openedRootInfo "opened inventory root is not a regular directory";
  _ ← fail_if (negb (sameSnapshot outerRootSnapshot openedRootSnapshot))
        "inventory root changed while it was opened";
  entries ← mapM walk_entry (Walk o);
  _ ← recheckSnapshots o (map fst entries);
  outerRootInfo ← RootAfter o;
  outerRootFinal ← root_directory outerRootInfo "inventory root changed type during inventory";
  _ ← fail_if (negb (sameSnapshot outerRootSnapshot outerRootFinal))
        "inventory root changed during inventory";
  targetInfo ← TargetAfter o;
  targetFinal ← snapshot targetInfo;
  _ ← fail_if (is_type Symlink targetInfo || negb (sameSnapshot targetSnapshot targetFinal))
        "download target changed during inventory";
  assembleInventory download manifest (omap snd entries) (rootPath scope).

End filesystem.

(** * What an inventory contains

    A successful inventory lists exactly the regular files that the walk met,
    each unchanged from the walk to its opening and to the second pass, less
    the published repairs that the download client does not list; every file
    that the client selected is among them with its size. *)
Import filesystem.

(** ** Entries *)

Lemma snapshot_Ok info fingerprint : snapshot info = Ok fingerprint <-> info_snapshot info = Some fingerprint.
Proof. unfold snapshot. destruct (info_snapshot info); naive_solver. Qed.

Lemma newEntrySnapshot_Ok path info es :
  newEntrySnapshot path info = Ok es ->
  es_path es = path /\ info_snapshot info = Some (es_fingerprint es) /\ info_mode info = es_mode es.
Proof.
  unfold newEntrySnapshot. intros H. apply bind_Ok in H as (f & Hf%snapshot_Ok & H).
  by injection H as <-.
Qed.

Lemma sameEntrySnapshot_true a b :
  sameEntrySnapshot a b = true -> es_mode a = es_mode b /\ es_fingerprint a = es_fingerprint b.
Proof. unfold sameEntrySnapshot, sameSnapshot. intros H. by split_bool. Qed.

Lemma no_error_Ok e u : no_error e = Ok u -> e = None.
Proof. by destruct e. Qed.

(** What the second pass saw of an entry is what the walk saw. *)
Definition unchanged (o : Observations) (call : walk_call) (fingerprint : FileFingerprint)
    (mode : FileMode) : Prop :=
  (exists info, wc_info call = Ok info /\ info_snapshot info = Some fingerprint /\ info_mode info = mode) /\
  exists info, LstatEntry o (wc_path call) = Ok info /\ info_snapshot info = Some fingerprint /\
               info_mode info = mode.

(** The walk saw a directory. *)
Definition walked_directory (o : Observations) (call : walk_call) : Prop :=
  exists fingerprint mode, unchanged o call fingerprint mode /\ mode_type mode = Directory.

(** The walk saw a regular file, which was opened as the same file. *)
Definition walked_file (o : Observations) (call : walk_call) (path : string)
    (fingerprint : FileFingerprint) : Prop :=
  exists mode, wc_path call = path /\ unchanged o call fingerprint mode /\ mode_type mode = Regular /\
  exists info, wc_opened call = Ok info /\ info_snapshot info = Some fingerprint /\ info_mode info = mode.

Lemma openRegularFile_Ok path before opened info :
  openRegularFile path before opened = Ok info ->
  opened = Ok info /\ info_snapshot info = Some (es_fingerprint before) /\ info_mode info = es_mode before.
Proof.
  unfold openRegularFile. intros H. apply bind_Ok in H as (u & _ & H).
  apply bind_Ok in H as (i & Hi & H). apply bind_Ok in H as (u1 & _ & H).
  apply bind_Ok in H as (after & Ha & H). apply bind_Ok in H as (u2 & Hs & H). inv_ok H.
  apply newEntrySnapshot_Ok in Ha as (_ & Hf & Hm). apply fail_if_Ok in Hs. split_bool.
  apply sameEntrySnapshot_true in Hs as [E1 E2]. by rewrite E1, E2.
Qed.

Lemma walk_entry_Ok call before file :
  walk_entry call = Ok (before, file) ->
  wc_error call = None /\ ValidPath (wc_path call) = true /\ es_path before = wc_path call /\
  (exists info, wc_info call = Ok info /\ info_snapshot info = Some (es_fingerprint before) /\
                info_mode info = es_mode before) /\
  match file with
  | None => mode_type (es_mode before) = Directory
  | Some f => mode_type (es_mode before) = Regular /\ of_path f = wc_path call /\
              info_snapshot (of_info f) = Some (es_fingerprint before) /\
              exists info, wc_opened call = Ok info /\
                info_snapshot info = Some (es_fingerprint before) /\ info_mode info = es_mode before
  end.
Proof.
  unfold walk_entry. intros H. apply bind_Ok in H as (u & He%no_error_Ok & H).
  apply bind_Ok in H as (u1 & _ & H). apply bind_Ok in H as (u2 & Hv & H).
  apply bind_Ok in H as (info & Hi & H). apply bind_Ok in H as (b & Hb & H).
  apply fail_if_Ok in Hv. split_bool. apply newEntrySnapshot_Ok in Hb as (Hp & Hf & Hm).
  destruct (mode_type (info_mode info)) eqn:Ht; try done.
  - injection H as <- <-. rewrite <- Hm. split_and!; eauto.
  - apply bind_Ok in H as (opened & Ho & H). injection H as <- <-.
    apply openRegularFile_Ok in Ho as (Ho & Hfo & Hmo). rewrite <- Hm. split_and!; eauto.
    exists opened. split_and!; congruence.
Qed.

Lemma recheckSnapshots_Ok o snapshots u :
  recheckSnapshots o snapshots = Ok u ->
  Forall (fun before => exists info, LstatEntry o (es_path before) = Ok info /\
            info_snapshot info = Some (es_fingerprint before) /\ info_mode info = es_mode before) snapshots.
Proof.
  induction snapshots as [|before rest IH]; intros H; [constructor|]. cbn in H.
  apply bind_Ok in H as (u1 & _ & H). apply bind_Ok in H as (info & Hi & H).
  apply bind_Ok in H as (after & Ha & H). apply bind_Ok in H as (u2 & Hs & H).
  apply newEntrySnapshot_Ok in Ha as (_ & Hf & Hm). apply fail_if_Ok in Hs. split_bool.
  apply sameEntrySnapshot_true in Hs as [E1 E2]. constructor; [|by apply IH].
  exists info. by rewrite E1, E2.
Qed.

(** The observed files, with the fingerprints the walk saw. *)
Definition seen_file (f : observedFile) (path : string) (fingerprint : FileFingerprint) : Prop :=
  of_path f = path /\ info_snapshot (of_info f) = Some fingerprint.

Lemma walk_Ok o calls entries :
  Forall2 (fun call entry => walk_entry call = Ok entry) calls entries ->
  Forall (fun before => exists info, LstatEntry o (es_path before) = Ok info /\
            info_snapshot info = Some (es_fingerprint before) /\ info_mode info = es_mode before)
    (map fst entries) ->
  Forall (fun call => wc_error call = None /\ ValidPath (wc_path call) = true /\
            (walked_directory o call \/ exists fingerprint, walked_file o call (wc_path call) fingerprint)) calls /\
  Forall (fun f => exists call fingerprint, call ∈ calls /\ seen_file f (wc_path call) fingerprint /\
            walked_file o call (wc_path call) fingerprint) (omap snd entries) /\
  (forall call, call ∈ calls -> walked_directory o call \/
     exists f fingerprint, f ∈ omap snd entries /\ seen_file f (wc_path call) fingerprint /\
       walked_file o call (wc_path call) fingerprint).
Proof.
  induction 1 as [|call [before file] calls entries Hc H IH]; intros Hl.
  { split; [constructor|]. split; [constructor|]. intros ? Hin. by apply elem_of_nil in Hin. }
  cbn in Hl. apply Forall_cons in Hl as [Hagain Hl]. destruct (IH Hl) as (H1 & H2 & H3). clear IH.
  apply walk_entry_Ok in Hc as (He & Hv & Hp & Hinfo & Hfile). rewrite Hp in Hagain.
  assert (unchanged o call (es_fingerprint before) (es_mode before)) as Hu by by split.
  destruct file as [f|]; csimpl.
  - destruct Hfile as (Ht & Hfp & Hfs & Hopen).
    assert (walked_file o call (wc_path call) (es_fingerprint before)) as Hw.
    { exists (es_mode before). split_and!; done. }
    split_and!.
    + constructor; [|done]. split_and!; eauto.
    + constructor; [exists call, (es_fingerprint before); split_and!; [by left|by split|done]|].
      eapply Forall_impl; [exact H2|]. intros g (c & fp & Hin & ?). exists c, fp. split; [by right|done].
    + intros c [->|Hin]%elem_of_cons.
      * right. exists f, (es_fingerprint before). split_and!; [by left|by split|done].
      * destruct (H3 c Hin) as [?|(g & fp & Hg & ?)]; [by left|right]. exists g, fp. split; [by right|done].
  - assert (walked_directory o call) as Hw by (by exists (es_fingerprint before), (es_mode before)).
    split_and!.
    + constructor; [|done]. eauto.
    + eapply Forall_impl; [exact H2|]. intros g (c & fp & Hin & ?). exists c, fp. split; [by right|done].
    + intros c [->|Hin]%elem_of_cons; [by left|]. auto.
Qed.

(** ** The manifest *)

Lemma manifest_files_Ok root seen manifest files manifest' :
  manifest_files root seen manifest files = Ok manifest' ->
  (forall path file, manifest !! path = Some file -> manifest' !! path = Some file) /\
  (forall file, file ∈ files -> exists path,
     manifestRelativePath root (df_Path file) = Ok path /\ manifest' !! path = Some file) /\
  (forall path file, manifest' !! path = Some file -> manifest !! path = Some file \/
     (file ∈ files /\ manifestRelativePath root (df_Path file) = Ok path)).
Proof.
  revert seen manifest. induction files as [|file files IH]; intros seen manifest H; cbn in H.
  { injection H as <-. split_and!; [done| |by left]. intros f Hin. by apply elem_of_nil in Hin. }
  apply bind_Ok in H as (u & _ & H). apply bind_Ok in H as (u1 & _ & H).
  apply bind_Ok in H as (path & Hpath & H). apply bind_Ok in H as (u2 & Hnew & H).
  apply fail_if_Ok in Hnew. split_bool. apply IH in H as (Hmono & Hin & Hfrom). split_and!.
  - intros p f Hp. apply Hmono. rewrite lookup_insert_ne; [done|]. intros ->. apply Hnew. eauto.
  - intros f [->|Hf]%elem_of_cons; [|by apply Hin]. exists path. split; [done|].
    apply Hmono, lookup_insert_eq.
  - intros p f Hp. destruct (Hfrom p f Hp) as [Hl|[Hl Hm]]; [|right; split; [by right|done]].
    apply lookup_insert_Some in Hl as [[<- <-]|[_ Hl]]; [right; split; [by left|done]|by left].
Qed.

(** The manifest is the download's files by their relative paths. *)
Definition manifest_of (download : Download) (root : string) (manifest : gmap string DownloadFile) : Prop :=
  (forall file, file ∈ dl_Files download -> exists path,
     manifestRelativePath root (df_Path file) = Ok path /\ manifest !! path = Some file) /\
  (forall path file, manifest !! path = Some file ->
     file ∈ dl_Files download /\ manifestRelativePath root (df_Path file) = Ok path).

Lemma buildManifest_Ok download root manifest :
  buildManifest download root = Ok manifest -> manifest_of download root manifest.
Proof.
  unfold buildManifest, manifest_of. destruct (dl_ContentOwnership download); [| |done].
  - intros (_ & Hin & Hfrom)%manifest_files_Ok. split; [done|]. intros path file Hl.
    destruct (Hfrom path file Hl) as [Hl'|?]; [|done]. by rewrite lookup_empty in Hl'.
  - intros H. apply bind_Ok in H as (u & Hf & H). injection H as <-. apply fail_if_Ok in Hf.
    split_bool. rewrite Hf. split; [intros file Hin; by apply elem_of_nil in Hin|done].
Qed.

(** ** Assembly *)

(** Published by a repair and unknown to the download client. *)
Definition published (manifest : gmap string DownloadFile) (path : string) : bool :=
  bool_decide (manifest !! path = None) && IsPublishedName (filepath.Base path).

Definition listed_as (download : Download) (manifest : gmap string DownloadFile) (root path : string)
    (fingerprint : FileFingerprint) (file : InventoryFile * FilePathMapping) : Prop :=
  if_ID file.1 = opaqueFileID (dl_ID download) path /\
  if_PathComponents file.1 = split_on slash path /\ if_Fingerprint file.1 = fingerprint /\
  file_reference (dl_ContentOwnership download) (manifest !! path) fingerprint = Ok (if_DownloadFile file.1) /\
  file.2 = mkFilePathMapping (if_ID file.1) (filepath.Join root path).

Lemma assemble_files_Ok download manifest root seen found observed files found' :
  assemble_files download manifest root seen found observed = Ok (files, found') ->
  Forall2 (fun f file => exists fingerprint, info_snapshot (of_info f) = Some fingerprint /\
             listed_as download manifest root (of_path f) fingerprint file)
    (List.filter (fun f => negb (published manifest (of_path f))) observed) files /\
  NoDup (map (fun file => if_ID file.1) files) /\
  Forall (fun file => if_ID file.1 ∉ seen) files /\
  forall path, path ∈ found' -> path ∈ found \/
    exists f, f ∈ observed /\ of_path f = path /\ published manifest path = false.
Proof.
  revert seen found files found'. induction observed as [|f observed IH]; intros seen found files found' H.
  { injection H as <- <-. split; [constructor|]. split; [constructor|]. split; [constructor|]. by left. }
  cbn [assemble_files] in H. cbn [List.filter]. change (bool_decide _ && _) with (published manifest (of_path f)) in H.
  destruct (published manifest (of_path f)) eqn:Hpub.
  { apply IH in H as (H1 & H2 & H3 & H4). cbn. split_and!; try done. intros path Hin.
    destruct (H4 path Hin) as [?|(g & Hg & ?)]; [by left|right]. exists g. split; [by right|done]. }
  apply bind_Ok in H as (fp & Hfp%snapshot_Ok & H). apply bind_Ok in H as (u & Hid & H).
  apply bind_Ok in H as (reference & Href & H). apply bind_Ok in H as ([rest found1] & Hrest & H).
  injection H as <- <-. apply fail_if_Ok in Hid. split_bool.
  apply IH in Hrest as (H1 & H2 & H3 & H4). rewrite Forall_forall in H3. cbn [negb]. split_and!.
  - constructor; [|done]. by exists fp.
  - cbn. constructor; [|done]. intros Hin%list_elem_of_In%List.in_map_iff.
    destruct Hin as (file & Hfile & Hin%list_elem_of_In).
    apply H3 in Hin. set_solver.
  - constructor; [done|]. apply Forall_forall. intros file Hin. apply H3 in Hin. set_solver.
  - intros path Hin. destruct (H4 path Hin) as [Hf|(g & Hg & ?)].
    + case_match; [by left|]. apply elem_of_union in Hf as [->%elem_of_singleton|Hf]; [|by left].
      right. exists f. split; [by left|done].
    + right. exists g. split; [by right|done].
Qed.

Lemma check_found_Ok found entries u :
  check_found found entries = Ok u ->
  forall path file, (path, file) ∈ entries -> df_Selected file = true -> path ∈ found.
Proof.
  induction entries as [|[p f] entries IH]; intros H path file Hin Hsel; [by apply elem_of_nil in Hin|].
  cbn in H. apply bind_Ok in H as (u1 & Hf & H). apply fail_if_Ok in Hf.
  apply elem_of_cons in Hin as [[= -> ->]|Hin]; [|by eapply IH].
  rewrite Hsel in Hf. cbn in Hf. by split_bool.
Qed.

(** The files of an assembled inventory and the observed files they list. *)
Lemma assembleInventory_Ok download manifest observed root inv :
  assembleInventory download manifest observed root = Ok inv ->
  exists files, inv = mkFileInventory (map fst files) (map snd files) /\
    Forall2 (fun f file => exists fingerprint, info_snapshot (of_info f) = Some fingerprint /\
               listed_as download manifest root (of_path f) fingerprint file)
      (List.filter (fun f => negb (published manifest (of_path f))) observed) files /\
    NoDup (map (fun file => if_ID file.1) files) /\
    forall path file, manifest !! path = Some file -> df_Selected file = true ->
      exists f, f ∈ observed /\ of_path f = path /\ published manifest path = false.
Proof.
  unfold assembleInventory. intros H. apply bind_Ok in H as ([files found] & Hfiles & H).
  apply bind_Ok in H as (u & Hfound & H). injection H as <-.
  apply assemble_files_Ok in Hfiles as (H1 & H2 & _ & H4). exists files. split_and!; try done.
  intros path file Hl Hsel. pose proof (check_found_Ok _ _ _ Hfound path file) as Hin.
  rewrite merge_sort_Permutation, elem_of_map_to_list in Hin.
  destruct (H4 path (Hin Hl Hsel)) as [Hn|?]; [|done]. by apply not_elem_of_empty in Hn.
Qed.

(** A file of the inventory: which call of the walk it is, and what its
    identity, path and reference are. *)
Definition inventory_entry (o : Observations) (download : Download) (root : string)
    (manifest : gmap string DownloadFile) (file : InventoryFile) (mapping : FilePathMapping) : Prop :=
  exists call path fingerprint, call ∈ Walk o /\ walked_file o call path fingerprint /\
    published manifest path = false /\
    listed_as download manifest root path fingerprint (file, mapping).

Lemma observed_entries o download root manifest observed files :
  Forall2 (fun f file => exists fingerprint, info_snapshot (of_info f) = Some fingerprint /\
             listed_as download manifest root (of_path f) fingerprint file)
    (List.filter (fun f => negb (published manifest (of_path f))) observed) files ->
  Forall (fun f => exists call fingerprint, call ∈ Walk o /\ seen_file f (wc_path call) fingerprint /\
            walked_file o call (wc_path call) fingerprint) observed ->
  Forall2 (inventory_entry o download root manifest) (map fst files) (map snd files).
Proof.
  intros H Hobs. rewrite Forall_forall in Hobs.
  assert (forall f, f ∈ List.filter (fun f => negb (published manifest (of_path f))) observed ->
            published manifest (of_path f) = false /\ f ∈ observed) as Hkept.
  { intros f Hf%list_elem_of_In%List.filter_In. destruct Hf as [Hf Hp]. apply negb_true_iff in Hp.
    split; [done|]. by apply list_elem_of_In. }
  induction H as [|f file kept files (fp & Hfp & Hlisted) H IH]; cbn; constructor.
  - destruct (Hkept f ltac:(by left)) as [Hp Hin].
    destruct (Hobs f Hin) as (call & fp' & Hc & [Hpath Hs] & Hw).
    assert (fp' = fp) as -> by congruence.
    exists call, (of_path f), fp. rewrite Hpath. rewrite Hpath in Hp, Hlisted.
    split; [done|]. split; [done|]. split; [done|]. by destruct file.
  - apply IH. intros g Hg. apply Hkept. by right.
Qed.

Lemma walked_one_way o call path fingerprint :
  walked_directory o call -> walked_file o call path fingerprint -> False.
Proof.
  intros (fp & mode & [(i & Hi & _ & Hm) _] & Ht) (mode' & _ & [(i' & Hi' & _ & Hm') _] & Ht' & _).
  congruence.
Qed.

Lemma walked_path o call path fingerprint : walked_file o call path fingerprint -> wc_path call = path.
Proof. by intros (mode & ? & _). Qed.

Lemma Forall2_elem {A B} (P : A -> B -> Prop) l k x :
  Forall2 P l k -> x ∈ l -> exists y, y ∈ k /\ P x y.
Proof.
  induction 1 as [|a b l k Hab H IH]; intros Hx; [by apply elem_of_nil in Hx|].
  apply elem_of_cons in Hx as [->|Hx]; [exists b; by split; [left|]|].
  destruct (IH Hx) as (y & Hy & ?). exists y. by split; [right|].
Qed.

(** C21. A successful inventory of a download met only directories and regular
    files, each with the same type, permissions and fingerprint when the walk
    saw it and when it was looked at again, and each file the same when it was
    opened. Its files are exactly the regular files met, less published
    repairs that the client does not list: each has the identifier derived from
    the download and its path, its path and the fingerprint that was seen; the
    identifiers are distinct, and the controller paths are those of the files
    below the root. Every file that the client selected is listed with the size
    and the progress the client gives. *)
Theorem inventory_exact correlation o inv :
  Inventory correlation o = Ok inv ->
  let download := dc_Download correlation in
  exists root manifest,
    manifest_of download root manifest /\
    Forall (fun call => wc_error call = None /\ ValidPath (wc_path call) = true /\
              (walked_directory o call \/ exists fingerprint, walked_file o call (wc_path call) fingerprint))
      (Walk o) /\
    Forall2 (inventory_entry o download root manifest) (fi_Files inv) (fi_Paths inv) /\
    NoDup (map if_ID (fi_Files inv)) /\
    (forall call path fingerprint, call ∈ Walk o -> walked_file o call path fingerprint ->
       published manifest path = false -> exists file, file ∈ fi_Files inv /\
       if_PathComponents file = split_on slash path /\ if_Fingerprint file = fingerprint) /\
    (forall wanted, wanted ∈ dl_Files download -> df_Selected wanted = true -> exists file,
       file ∈ fi_Files inv /\
       manifestRelativePath root (df_Path wanted) = Ok (join_slash (if_PathComponents file)) /\
       SizeBytes (if_Fingerprint file) = df_LengthBytes wanted /\
       if_DownloadFile file = Some (mkDownloadFileReference (df_Index wanted) (df_HasIndex wanted)
         (df_LengthBytes wanted) (df_BytesCompleted wanted) true)).
Proof.
  unfold Inventory. intros H. apply bind_Ok in H as (u0 & _ & H). apply bind_Ok in H as (u1 & _ & H).
  cbv zeta in H. apply bind_Ok in H as ([scope target] & _ & H).
  apply bind_Ok in H as (manifest & Hmanifest & H). apply bind_Ok in H as (u2 & _ & H).
  apply bind_Ok in H as (i1 & _ & H). apply bind_Ok in H as (f1 & _ & H).
  apply bind_Ok in H as (u3 & _ & H). apply bind_Ok in H as (i2 & _ & H).
  apply bind_Ok in H as (f2 & _ & H). apply bind_Ok in H as (u4 & _ & H).
  apply bind_Ok in H as (entries & Hentries%mapM_Ok & H). apply bind_Ok in H as (u5 & Hre & H).
  apply bind_Ok in H as (i3 & _ & H). apply bind_Ok in H as (f3 & _ & H).
  apply bind_Ok in H as (u6 & _ & H). apply bind_Ok in H as (i4 & _ & H).
  apply bind_Ok in H as (f4 & _ & H). apply bind_Ok in H as (u7 & _ & H).
  cbv zeta. exists (rootPath scope), manifest.
  destruct (walk_Ok o _ _ Hentries (recheckSnapshots_Ok _ _ _ Hre)) as (Hcalls & Hobs & Hall).
  assert (Hown := Hmanifest). apply buildManifest_Ok in Hmanifest.
  apply assembleInventory_Ok in H as (files & -> & Hfiles & Hids & Hselected). cbn [fi_Files fi_Paths].
  split; [done|]. split; [done|]. split; [by apply (observed_entries _ _ _ _ _ _ Hfiles)|].
  split; [by rewrite map_map|].
  assert (forall f, f ∈ omap snd entries -> published manifest (of_path f) = false ->
            exists file fp, file ∈ map fst files /\ info_snapshot (of_info f) = Some fp /\
              if_PathComponents file = split_on slash (of_path f) /\ if_Fingerprint file = fp /\
              file_reference (dl_ContentOwnership (dc_Download correlation)) (manifest !! of_path f) fp =
                Ok (if_DownloadFile file)) as Hlisted.
  { intros f Hf Hp. destruct (Forall2_elem _ _ _ f Hfiles) as ([file m] & Hin & fp & Hfp & Hl).
    - apply list_elem_of_In, List.filter_In. rewrite Hp. split; [by apply list_elem_of_In|done].
    - destruct Hl as (_ & Hc & Hf' & Hr & _). exists file, fp. split_and!; try done.
      by apply (list_elem_of_fmap_2 fst) in Hin. }
  split.
  - intros call path fp Hc Hw Hp. destruct (Hall call Hc) as [Hd|(f & fp' & Hf & [E Hs] & Hw')].
    { by destruct (walked_one_way _ _ _ _ Hd Hw). }
    pose proof (walked_path _ _ _ _ Hw) as <-. rewrite <- E in Hp.
    destruct (Hlisted f Hf Hp) as (file & fp2 & Hin & Hs2 & Hc2 & Hf2 & _).
    exists file. split; [done|]. rewrite Hc2, E. split; [done|].
    destruct Hw as (m & _ & [(i & Hi & Hfi & _) _] & _), Hw' as (m' & _ & [(i' & Hi' & Hfi' & _) _] & _).
    congruence.
  - intros wanted Hin Hsel. destruct (proj1 Hmanifest wanted Hin) as (path & Hpath & Hl).
    destruct (Hselected path wanted Hl Hsel) as (f & Hf & E & Hp). rewrite <- E in Hp.
    destruct (Hlisted f Hf Hp) as (file & fp & Hfile & _ & Hc & Hfp & Hr).
    exists file. split; [done|]. rewrite Hc, E, join_split_slash. split; [done|].
    rewrite E, Hl in Hr. unfold file_reference in Hr. case_bool_decide as Ho.
    { unfold buildManifest in Hown. rewrite Ho in Hown. apply bind_Ok in Hown as (u8 & _ & Hown).
      injection Hown as <-. by rewrite lookup_empty in Hl. }
    apply bind_Ok in Hr as (u8 & Hsize & Hr). apply fail_if_Ok in Hsize. split_bool.
    injection Hr as <-. rewrite Hfp, Hsel. done.
Qed.

(** ** A directory with a source, a sample and an earlier repair *)

Definition example_queue : RadarrQueueRecord :=
  mkQueueRecord 5 (Some 7) "Movie" (float_of_int 0) (float_of_int 0) "" None "completed" "warning"
    "importPending" [] "" "download-1" "torrent" "client" "" "/data/film" false.

Definition example_download : Download :=
  mkDownload "client" "torrent" "download-1" DownloadIDExact "Movie" true true "/data/film" []
    None None None 1000 DownloadContentManifest
    [mkDownloadFile 0 true "/data/film/part/a.avi" 1000 1000 true;
     mkDownloadFile 1 true "/data/film/sample.avi" 50 0 false].

Definition example_info (t : file_type) (inode size : Z) : FileInfo :=
  mkFileInfo (mkFileMode t 420) (Some (mkSnapshot 1 inode size 1700000000)).

Definition repaired_name : string := PublishedName "artifact:1" ".mkv".

Definition example_tree : list (string * FileInfo) :=
  [(".", example_info Directory 1 4096); ("part", example_info Directory 2 4096);
   ("part/a.avi", example_info Regular 3 1000); (repaired_name, example_info Regular 4 990)].

Definition example_lookup (path : string) : result FileInfo :=
  match List.find (fun entry => bool_decide (entry.1 = path)) example_tree with
  | Some entry => Ok entry.2
  | None => Err "no such file"
  end.

Definition example_observations : Observations :=
  let root := Ok (example_info Directory 1 4096) in
  mkObservations None root root (Ok tt) root
    (map (fun entry => mkwalk_call entry.1 None None (Ok entry.2) (Ok entry.2)) example_tree)
    (fun _ => None) example_lookup root root.

Definition example_correlation : DownloadCorrelation :=
  mkCorrelation example_queue example_download "/data/film" [].

Definition example_file : InventoryFile :=
  mkInventoryFile (opaqueFileID "download-1" "part/a.avi") ["part"; "a.avi"]
    (mkSnapshot 1 3 1000 1700000000) (Some (mkDownloadFileReference 0 true 1000 1000 true)).

Definition example_inventory : FileInventory :=
  mkFileInventory [example_file]
    [mkFilePathMapping (opaqueFileID "download-1" "part/a.avi") "/data/film/part/a.avi"].

Lemma inventory_exact_witness :
  Inventory example_correlation example_observations = Ok example_inventory /\
  NoDup (map if_ID (fi_Files example_inventory)).
Proof.
  assert (Inventory example_correlation example_observations = Ok example_inventory) as E
    by (vm_compute; reflexivity).
  split; [exact E|].
  destruct (inventory_exact _ _ _ E) as (root & manifest & _ & _ & _ & H & _). exact H.
Defined.
