(* ===== verification/WorkerContracts.v ===== *)
(** * Messages exchanged with the repair worker

    [worker/contracts/model.go] and [encode.go]: the requests that stage a
    join or a disc remux, the responses to staging, publishing and discarding,
    and the encoders that refuse a message its schema does not allow. The
    generated message types are records with the properties of the schemas;
    [workercontracts.Evidence] has the fields of [controller.ProbeEvidence],
    to which [workerclient.EvidenceFromWorker] copies it. *)
From stdpp Require Import base strings list.
From S2P Require Import Prelude GoStrings GoCrypto Probe JsonSchema.

Definition RadarrRepairWorkerV1 : string := "radarr-repair-worker/v1".
Definition StageJoinV1 : string := "stage_join_v1".
Definition PublishV1 : string := "publish_v1".
Definition DiscardV1 : string := "discard_v1".
Definition StageBlurayRemuxV1 : string := "stage_bluray_remux_v1".
Definition PublishBlurayRemuxV1 : string := "publish_bluray_remux_v1".
Definition StageDVDRemuxV1 : string := "stage_dvd_remux_v1".
Definition PublishDVDRemuxV1 : string := "publish_dvd_remux_v1".
Definition status_ok : string := "ok".
Definition status_failed : string := "failed".

Definition ProbeResponseKind := string.
Definition ProbeResponseSucceeded : ProbeResponseKind := "ok".
Definition ProbeResponseFailed : ProbeResponseKind := "failed".

(** ** Requests *)

Record StageJoinPartV1 := mkStageJoinPart
  { sp_FileID : string; sp_PathComponents : list string; sp_ExpectedFingerprint : string }.

Record StageJoinRequestV1 := mkStageJoinRequest
  { sj_SchemaVersion : string; sj_Operation : string; sj_RequestID : string;
    sj_ExecutionID : string; sj_CaseID : string; sj_CapabilityID : string; sj_RootID : string;
    sj_Parts : list StageJoinPartV1; sj_OutputContainer : string; sj_ExpectedSourceBytes : Z;
    sj_ExpectedDurationMS : Z; sj_DurationToleranceMS : Z; sj_ExpectedStreamCount : Z }.

(** Sources and tracks have the same shape in the Blu-ray and DVD requests. *)
Record RemuxSource := mkRemuxSource
  { src_PathComponents : list string; src_ExpectedFingerprint : string; src_SizeBytes : Z }.

Record RemuxTrack := mkRemuxTrack { tr_Kind : string; tr_Codec : string; tr_Language : string }.

Record BlurayRemuxRequestV1 := mkBlurayRemuxRequest
  { br_SchemaVersion : string; br_Operation : string; br_RequestID : string;
    br_ExecutionID : string; br_CaseID : string; br_CapabilityID : string; br_RootID : string;
    br_Playlist : RemuxSource; br_Clips : list RemuxSource; br_ExpectedDurationMS : Z;
    br_ExpectedChapterCount : Z; br_ExpectedTracks : list RemuxTrack }.

Record DVDRemuxRequestV1 := mkDVDRemuxRequest
  { dr_SchemaVersion : string; dr_Operation : string; dr_RequestID : string;
    dr_ExecutionID : string; dr_CaseID : string; dr_CapabilityID : string; dr_RootID : string;
    dr_Navigation : RemuxSource; dr_Sources : list RemuxSource; dr_TitleNumber : Z;
    dr_ExpectedDurationMS : Z; dr_ExpectedChapterCount : Z; dr_ExpectedTracks : list RemuxTrack }.

#[global] Instance RemuxSource_eq_dec : EqDecision RemuxSource.
Proof. solve_decision. Defined.
#[global] Instance RemuxTrack_eq_dec : EqDecision RemuxTrack.
Proof. solve_decision. Defined.
#[global] Instance BlurayRemuxRequestV1_eq_dec : EqDecision BlurayRemuxRequestV1.
Proof. solve_decision. Defined.
#[global] Instance DVDRemuxRequestV1_eq_dec : EqDecision DVDRemuxRequestV1.
Proof. solve_decision. Defined.

(** ** Responses

    Every response type is a kind with an optional success and an optional
    failure; the failures share their properties. *)
Record FailureV1 := mkFailure
  { fr_SchemaVersion : string; fr_Operation : string; fr_RequestID : string;
    fr_Status : string; fr_Reason : string }.

Record StageSuccessV1 := mkStageSuccess
  { ss_SchemaVersion : string; ss_Operation : string; ss_RequestID : string; ss_Status : string;
    ss_ArtifactID : string; ss_ArtifactFingerprint : string; ss_SizeBytes : Z;
    ss_Evidence : ProbeEvidence }.

Record PublishSuccessV1 := mkPublishSuccess
  { pu_SchemaVersion : string; pu_Operation : string; pu_RequestID : string; pu_Status : string;
    pu_ArtifactID : string; pu_ArtifactFingerprint : string; pu_RootID : string;
    pu_PathComponents : list string }.

Record DiscardSuccessV1 := mkDiscardSuccess
  { ds_SchemaVersion : string; ds_Operation : string; ds_RequestID : string; ds_Status : string;
    ds_ArtifactID : string; ds_ArtifactFingerprint : string }.

Record Response (S : Type) := mkResponse
  { r_Kind : ProbeResponseKind; r_Success : option S; r_Failure : option FailureV1 }.
Arguments mkResponse {S} _ _ _.
Arguments r_Kind {S} _.
Arguments r_Success {S} _.
Arguments r_Failure {S} _.

Definition StageJoinResponseV1 := Response StageSuccessV1.
Definition PublishResponseV1 := Response PublishSuccessV1.
Definition DiscardResponseV1 := Response DiscardSuccessV1.
Definition BlurayRemuxResponseV1 := Response StageSuccessV1.
Definition BlurayPublishResponseV1 := Response PublishSuccessV1.
Definition DVDRemuxResponseV1 := Response StageSuccessV1.
Definition DVDPublishResponseV1 := Response PublishSuccessV1.

Definition operationResponseRequestID {S} (response : Response S)
    (successRequestID : S -> string) : string :=
  if bool_decide (r_Kind response = ProbeResponseSucceeded) then
    match r_Success response with Some success => successRequestID success | None => "" end
  else if bool_decide (r_Kind response = ProbeResponseFailed) then
    match r_Failure response with Some failure => fr_RequestID failure | None => "" end
  else "".

Definition stage_RequestID (response : Response StageSuccessV1) : string :=
  operationResponseRequestID response ss_RequestID.

(** ** JSON of the messages *)
Module to_json.
Import json.

Definition strs (l : list string) : value := Arr (map Str l).

Definition part (p : StageJoinPartV1) : value :=
  Obj [("expected_fingerprint", Str (sp_ExpectedFingerprint p)); ("file_id", Str (sp_FileID p));
       ("path_components", strs (sp_PathComponents p))].

Definition stage_join_request (r : StageJoinRequestV1) : value :=
  Obj [("capability_id", Str (sj_CapabilityID r)); ("case_id", Str (sj_CaseID r));
       ("duration_tolerance_ms", Int (sj_DurationToleranceMS r));
       ("execution_id", Str (sj_ExecutionID r));
       ("expected_duration_ms", Int (sj_ExpectedDurationMS r));
       ("expected_source_bytes", Int (sj_ExpectedSourceBytes r));
       ("expected_stream_count", Int (sj_ExpectedStreamCount r));
       ("operation", Str (sj_Operation r)); ("output_container", Str (sj_OutputContainer r));
       ("parts", Arr (map part (sj_Parts r))); ("request_id", Str (sj_RequestID r));
       ("root_id", Str (sj_RootID r)); ("schema_version", Str (sj_SchemaVersion r))].

Definition source (s : RemuxSource) : value :=
  Obj [("expected_fingerprint", Str (src_ExpectedFingerprint s));
       ("path_components", strs (src_PathComponents s)); ("size_bytes", Int (src_SizeBytes s))].

Definition track (t : RemuxTrack) : value :=
  Obj [("codec", Str (tr_Codec t)); ("kind", Str (tr_Kind t)); ("language", Str (tr_Language t))].

Definition bluray_request (r : BlurayRemuxRequestV1) : value :=
  Obj [("capability_id", Str (br_CapabilityID r)); ("case_id", Str (br_CaseID r));
       ("clips", Arr (map source (br_Clips r))); ("execution_id", Str (br_ExecutionID r));
       ("expected_chapter_count", Int (br_ExpectedChapterCount r));
       ("expected_duration_ms", Int (br_ExpectedDurationMS r));
       ("expected_tracks", Arr (map track (br_ExpectedTracks r)));
       ("operation", Str (br_Operation r)); ("playlist", source (br_Playlist r));
       ("request_id", Str (br_RequestID r)); ("root_id", Str (br_RootID r));
       ("schema_version", Str (br_SchemaVersion r))].

Definition dvd_request (r : DVDRemuxRequestV1) : value :=
  Obj [("capability_id", Str (dr_CapabilityID r)); ("case_id", Str (dr_CaseID r));
       ("execution_id", Str (dr_ExecutionID r));
       ("expected_chapter_count", Int (dr_ExpectedChapterCount r));
       ("expected_duration_ms", Int (dr_ExpectedDurationMS r));
       ("expected_tracks", Arr (map track (dr_ExpectedTracks r)));
       ("navigation", source (dr_Navigation r)); ("operation", Str (dr_Operation r));
       ("request_id", Str (dr_RequestID r)); ("root_id", Str (dr_RootID r));
       ("schema_version", Str (dr_SchemaVersion r)); ("sources", Arr (map source (dr_Sources r)));
       ("title_number", Int (dr_TitleNumber r))].

Definition rational (r : Rational) : value :=
  Obj [("denominator", Int (Denominator r)); ("numerator", Int (Numerator r))].
Definition tag (t : ProbeTag) : value := Obj [("name", Str (tag_Name t)); ("value", Str (tag_Value t))].
Definition tags (l : list ProbeTag) : value := Arr (map tag l).
Definition disposition (d : ProbeDisposition) : value :=
  Obj [("default", ptr Bool (pd_Default d)); ("forced", ptr Bool (pd_Forced d));
       ("hearing_impaired", ptr Bool (pd_HearingImpaired d));
       ("visual_impaired", ptr Bool (pd_VisualImpaired d))].
Definition format (f : ProbeFormat) : value :=
  Obj [("bit_rate_bps", ptr Int (pf_BitRateBPS f)); ("duration_ms", ptr Int (pf_DurationMS f));
       ("long_name", ptr Str (pf_LongName f)); ("names", strs (pf_Names f));
       ("probe_score", ptr Int (pf_ProbeScore f)); ("program_count", ptr Int (pf_ProgramCount f));
       ("size_bytes", ptr Int (pf_SizeBytes f)); ("start_time_ms", ptr Int (pf_StartTimeMS f));
       ("stream_count", ptr Int (pf_StreamCount f)); ("tags", tags (pf_Tags f))].
Definition stream (s : ProbeStream) : value :=
  Obj [("average_rate", ptr rational (ps_AverageRate s)); ("bit_rate_bps", ptr Int (ps_BitRateBPS s));
       ("channel_layout", ptr Str (ps_ChannelLayout s)); ("channels", ptr Int (ps_Channels s));
       ("codec_long_name", ptr Str (ps_CodecLongName s)); ("codec_name", ptr Str (ps_CodecName s));
       ("codec_tag", ptr Str (ps_CodecTag s)); ("disposition", ptr disposition (ps_Disposition s));
       ("duration_ms", ptr Int (ps_DurationMS s)); ("duration_ticks", ptr Int (ps_DurationTicks s));
       ("frame_count", ptr Int (ps_FrameCount s)); ("frame_rate", ptr rational (ps_FrameRate s));
       ("height", ptr Int (ps_Height s)); ("index", Int (ps_Index s)); ("kind", ptr Str (ps_Kind s));
       ("pixel_format", ptr Str (ps_PixelFormat s)); ("profile", ptr Str (ps_Profile s));
       ("sample_format", ptr Str (ps_SampleFormat s));
       ("sample_rate_hz", ptr Int (ps_SampleRateHz s)); ("start_ticks", ptr Int (ps_StartTicks s));
       ("start_time_ms", ptr Int (ps_StartTimeMS s)); ("tags", tags (ps_Tags s));
       ("time_base", ptr rational (ps_TimeBase s)); ("width", ptr Int (ps_Width s))].
Definition program (p : ProbeProgram) : value :=
  Obj [("id", Int (pp_ID p)); ("number", ptr Int (pp_Number p)); ("pcr_pid", ptr Int (pp_PCRPID p));
       ("pmt_pid", ptr Int (pp_PMTPID p)); ("stream_count", ptr Int (pp_StreamCount p));
       ("stream_indexes", Arr (map Int (pp_StreamIndexes p))); ("tags", tags (pp_Tags p))].
Definition chapter (c : ProbeChapter) : value :=
  Obj [("end_ticks", ptr Int (pc_EndTicks c)); ("end_time_ms", ptr Int (pc_EndTimeMS c));
       ("id", Int (pc_ID c)); ("start_ticks", ptr Int (pc_StartTicks c));
       ("start_time_ms", ptr Int (pc_StartTimeMS c)); ("tags", tags (pc_Tags c));
       ("time_base", ptr rational (pc_TimeBase c))].
Definition evidence (e : ProbeEvidence) : value :=
  Obj [("chapters", Arr (map chapter (pe_Chapters e))); ("format", format (pe_Format e));
       ("programs", Arr (map program (pe_Programs e))); ("streams", Arr (map stream (pe_Streams e)))].

Definition failure (f : FailureV1) : value :=
  Obj [("operation", Str (fr_Operation f)); ("reason", Str (fr_Reason f));
       ("request_id", Str (fr_RequestID f)); ("schema_version", Str (fr_SchemaVersion f));
       ("status", Str (fr_Status f))].
Definition stage_success (s : StageSuccessV1) : value :=
  Obj [("artifact_fingerprint", Str (ss_ArtifactFingerprint s)); ("artifact_id", Str (ss_ArtifactID s));
       ("evidence", evidence (ss_Evidence s)); ("operation", Str (ss_Operation s));
       ("request_id", Str (ss_RequestID s)); ("schema_version", Str (ss_SchemaVersion s));
       ("size_bytes", Int (ss_SizeBytes s)); ("status", Str (ss_Status s))].
Definition publish_success (s : PublishSuccessV1) : value :=
  Obj [("artifact_fingerprint", Str (pu_ArtifactFingerprint s)); ("artifact_id", Str (pu_ArtifactID s));
       ("operation", Str (pu_Operation s)); ("path_components", strs (pu_PathComponents s));
       ("request_id", Str (pu_RequestID s)); ("root_id", Str (pu_RootID s));
       ("schema_version", Str (pu_SchemaVersion s)); ("status", Str (pu_Status s))].
Definition discard_success (s : DiscardSuccessV1) : value :=
  Obj [("artifact_fingerprint", Str (ds_ArtifactFingerprint s)); ("artifact_id", Str (ds_ArtifactID s));
       ("operation", Str (ds_Operation s)); ("request_id", Str (ds_RequestID s));
       ("schema_version", Str (ds_SchemaVersion s)); ("status", Str (ds_Status s))].

End to_json.

(** ** The schemas of the messages *)
Module contract.
Import wire.

Definition envelope (operation : string) : list (string * schema) :=
  [("operation", SConst operation); ("request_id", opaqueId);
   ("schema_version", SConst RadarrRepairWorkerV1)].

Definition stage_join_request_schema : schema :=
  SObject (envelope StageJoinV1 ++
    [("capability_id", opaqueId); ("case_id", sha256Id); ("duration_tolerance_ms", nonNegativeInt64);
     ("execution_id", opaqueId); ("expected_duration_ms", positiveInt64);
     ("expected_source_bytes", positiveInt64); ("expected_stream_count", SInteger 1 8192);
     ("output_container", SEnum ["avi"; "mkv"; "mp4"]);
     ("parts", SArray 2 128 false
        (SObject [("expected_fingerprint", sha256Id); ("file_id", opaqueId);
                  ("path_components", pathComponents)]));
     ("root_id", opaqueId)]).

(** The publish and discard requests differ in their operation only. *)
Definition artifact_request (operation : string) : schema :=
  SObject (envelope operation ++ [("artifact_fingerprint", sha256Id); ("artifact_id", opaqueId)]).
Definition inspect_join_request : schema :=
  SObject (envelope "inspect_join_v1" ++ [("execution_id", opaqueId)]).

Definition join_request : schema :=
  SOneOf [stage_join_request_schema; artifact_request PublishV1; artifact_request DiscardV1;
          inspect_join_request].

Definition failure_schema (operation : string) (reasons : list string) : schema :=
  SObject (envelope operation ++ [("reason", SEnum reasons); ("status", SConst status_failed)]).
Definition stage_success_schema (operation : string) : schema :=
  SObject (envelope operation ++
    [("artifact_fingerprint", sha256Id); ("artifact_id", opaqueId); ("evidence", evidence_schema);
     ("size_bytes", positiveInt64); ("status", SConst status_ok)]).
Definition publish_success_schema (operation : string) : schema :=
  SObject (envelope operation ++
    [("artifact_fingerprint", sha256Id); ("artifact_id", opaqueId);
     ("path_components", pathComponents); ("root_id", opaqueId); ("status", SConst status_ok)]).
Definition discard_success_schema : schema :=
  SObject (envelope DiscardV1 ++
    [("artifact_fingerprint", sha256Id); ("artifact_id", opaqueId); ("status", SConst status_ok)]).
Definition inspect_join_success : schema :=
  SObject (envelope "inspect_join_v1" ++
    [("state", SEnum ["absent"; "prepared"; "staged"; "published"; "discarded"; "failed"]);
     ("status", SConst status_ok)]).

Definition stage_join_reasons : list string :=
  ["unknown_root"; "invalid_path"; "file_unavailable"; "not_regular_file"; "fingerprint_mismatch";
   "source_size_mismatch"; "insufficient_space"; "execution_conflict"; "join_error"; "timeout";
   "probe_error"; "invalid_output"; "internal_error"].
Definition publish_reasons : list string :=
  ["artifact_not_found"; "artifact_fingerprint_mismatch"; "artifact_not_staged";
   "destination_exists"; "publish_error"; "internal_error"].
Definition discard_reasons : list string :=
  ["artifact_not_found"; "artifact_fingerprint_mismatch"; "artifact_published"; "discard_error";
   "internal_error"].

Definition join_response : schema :=
  SOneOf [stage_success_schema StageJoinV1; failure_schema StageJoinV1 stage_join_reasons;
          publish_success_schema PublishV1; failure_schema PublishV1 publish_reasons;
          discard_success_schema; failure_schema DiscardV1 discard_reasons;
          inspect_join_success; failure_schema "inspect_join_v1" ["internal_error"]].

Definition source_schema : schema :=
  SObject [("expected_fingerprint", sha256Id); ("path_components", pathComponents);
           ("size_bytes", positiveInt64)].
Definition track_schema : schema :=
  SObject [("codec", SString 1 (Some 128) no_pattern); ("kind", SEnum ["video"; "audio"; "subtitles"]);
           ("language", SString 0 (Some 32) no_pattern)].

Definition bluray_request_schema : schema :=
  SObject (envelope StageBlurayRemuxV1 ++
    [("capability_id", opaqueId); ("case_id", sha256Id); ("clips", SArray 1 1024 false source_schema);
     ("execution_id", opaqueId); ("expected_chapter_count", SInteger 0 4096);
     ("expected_duration_ms", SInteger 1 604800000); ("expected_tracks", SArray 1 32 false track_schema);
     ("playlist", source_schema); ("root_id", opaqueId)]).
Definition dvd_request_schema : schema :=
  SObject (envelope StageDVDRemuxV1 ++
    [("capability_id", opaqueId); ("case_id", sha256Id); ("execution_id", opaqueId);
     ("expected_chapter_count", SInteger 1 4096); ("expected_duration_ms", SInteger 1 604800000);
     ("expected_tracks", SArray 1 32 false track_schema); ("navigation", source_schema); ("root_id", opaqueId);
     ("sources", SArray 3 1024 false source_schema); ("title_number", SInteger 1 128)]).

Definition remux_reasons : list string :=
  ["unknown_root"; "invalid_path"; "file_unavailable"; "fingerprint_mismatch"; "insufficient_space";
   "identification_error"; "remux_error"; "probe_error"; "invalid_output"; "timeout";
   "execution_conflict"; "internal_error"].
Definition remux_publish_reasons : list string :=
  ["artifact_not_found"; "fingerprint_mismatch"; "destination_exists"; "invalid_request"; "timeout";
   "internal_error"].

Definition remux_response (operation : string) : schema :=
  SOneOf [stage_success_schema operation; failure_schema operation remux_reasons].
Definition remux_publish_response (operation : string) : schema :=
  SOneOf [publish_success_schema operation; failure_schema operation remux_publish_reasons].

End contract.

(** ** Encoding (encode.go)

    [validateMessage] of decode.go bounds the encoded bytes and checks the
    schema. *)
Definition MaxJoinRequestBytes : Z := 2 * 2 ^ 20.
Definition MaxJoinResponseBytes : Z := 4 * 2 ^ 20.
Definition MaxProbeRequestBytes : Z := 16 * 2 ^ 10.
Definition MaxProbeResponseBytes : Z := 4 * 2 ^ 20.
Definition MaxBlurayRemuxRequestBytes : Z := 16 * 2 ^ 20.
Definition MaxBlurayRemuxResponseBytes : Z := MaxProbeResponseBytes.
Definition MaxBlurayPublishResponseBytes : Z := MaxProbeRequestBytes.
Definition MaxDVDRemuxRequestBytes : Z := 16 * 2 ^ 20.
Definition MaxDVDRemuxResponseBytes : Z := MaxProbeResponseBytes.
Definition MaxDVDPublishResponseBytes : Z := MaxProbeRequestBytes.

Definition validateMessage (message : json.value) (limit : Z) (s : schema) : result string :=
  let data := json.text message in
  _ ← fail_if (bool_decide (limit < Z.of_nat (String.length data))) "message exceeds its limit";
  _ ← fail_if (negb (validates s message)) "validate schema";
  mret data.

Definition encodeOperationResponse {S} (success_json : S -> json.value) (response : Response S)
    (limit : Z) (s : schema) : result string :=
  if bool_decide (r_Kind response = ProbeResponseSucceeded) then
    match r_Success response, r_Failure response with
    | Some success, None => validateMessage (success_json success) limit s
    | _, _ => Err "successful response must contain only success"
    end
  else if bool_decide (r_Kind response = ProbeResponseFailed) then
    match r_Failure response, r_Success response with
    | Some failure, None => validateMessage (to_json.failure failure) limit s
    | _, _ => Err "failed response must contain only failure"
    end
  else Err "unsupported response kind".

Definition encodeJoinResponse {S} (success_json : S -> json.value) (response : Response S)
    : result string :=
  encodeOperationResponse success_json response MaxJoinResponseBytes contract.join_response.

Definition EncodeStageJoinRequest (request : StageJoinRequestV1) : result string :=
  validateMessage (to_json.stage_join_request request) MaxJoinRequestBytes contract.join_request.
Definition EncodeStageJoinResponse (response : StageJoinResponseV1) : result string :=
  encodeJoinResponse to_json.stage_success response.
Definition EncodePublishResponse (response : PublishResponseV1) : result string :=
  encodeJoinResponse to_json.publish_success response.
Definition EncodeDiscardResponse (response : DiscardResponseV1) : result string :=
  encodeJoinResponse to_json.discard_success response.
Definition EncodeBlurayRemuxRequest (request : BlurayRemuxRequestV1) : result string :=
  validateMessage (to_json.bluray_request request) MaxBlurayRemuxRequestBytes contract.bluray_request_schema.
Definition EncodeBlurayRemuxResponse (response : BlurayRemuxResponseV1) : result string :=
  encodeOperationResponse to_json.stage_success response MaxBlurayRemuxResponseBytes
    (contract.remux_response StageBlurayRemuxV1).
Definition EncodeBlurayPublishResponse (response : BlurayPublishResponseV1) : result string :=
  encodeOperationResponse to_json.publish_success response MaxBlurayPublishResponseBytes
    (contract.remux_publish_response PublishBlurayRemuxV1).
Definition EncodeDVDRemuxRequest (request : DVDRemuxRequestV1) : result string :=
  validateMessage (to_json.dvd_request request) MaxDVDRemuxRequestBytes contract.dvd_request_schema.
Definition EncodeDVDRemuxResponse (response : DVDRemuxResponseV1) : result string :=
  encodeOperationResponse to_json.stage_success response MaxDVDRemuxResponseBytes
    (contract.remux_response StageDVDRemuxV1).
Definition EncodeDVDPublishResponse (response : DVDPublishResponseV1) : result string :=
  encodeOperationResponse to_json.publish_success response MaxDVDPublishResponseBytes
    (contract.remux_publish_response PublishDVDRemuxV1).

(** The repository's [join-stage-request.json] example. *)
Definition example_stage_join_request : StageJoinRequestV1 :=
  mkStageJoinRequest RadarrRepairWorkerV1 StageJoinV1 "request:join:01" "execution:join:01"
    "sha256:1111111111111111111111111111111111111111111111111111111111111111" "capability:join:01"
    "root:downloads"
    [mkStageJoinPart "file:part:01" ["Movie.Release"; "Movie.CD1.mkv"]
       "sha256:2222222222222222222222222222222222222222222222222222222222222222";
     mkStageJoinPart "file:part:02" ["Movie.Release"; "Movie.CD2.mkv"]
       "sha256:3333333333333333333333333333333333333333333333333333333333333333"]
    "mkv" 8400000000 7200000 3000 1.

Example example_stage_join_request_valid : is_ok (EncodeStageJoinRequest example_stage_join_request) = true.
Proof. vm_compute. reflexivity. Qed.

(** ** What an encodable message satisfies *)

Lemma validateMessage_Ok message limit s data :
  validateMessage message limit s = Ok data -> validates s message = true.
Proof. unfold validateMessage. intros H. inv_result. split_bool. done. Qed.

(** An object whose keys are not all among the properties does not validate. *)
Ltac wrong_keys H :=
  apply validates_keys in H; vm_compute in H; discriminate H.

Lemma stage_success_facts operation s :
  validates (contract.stage_success_schema operation) (to_json.stage_success s) = true ->
  ss_Operation s = operation /\ ss_ArtifactID s <> "" /\ ss_ArtifactFingerprint s <> "" /\
  0 < ss_SizeBytes s.
Proof.
  intros H.
  assert (forall name p, (name, p) ∈ contract.envelope operation ++
    [("artifact_fingerprint", wire.sha256Id); ("artifact_id", wire.opaqueId);
     ("evidence", wire.evidence_schema); ("size_bytes", wire.positiveInt64); ("status", SConst status_ok)] ->
    exists v, field name (match to_json.stage_success s with json.Obj fs => fs | _ => [] end) = Some v
      /\ validates p v = true) as Hf.
  { intros name p. by apply validates_field. }
  split_and!.
  - destruct (Hf "operation" (SConst operation)) as (v & [= <-] & Hv); [by left|].
    by apply bool_decide_eq_true in Hv.
  - destruct (Hf "artifact_id" wire.opaqueId) as (v & [= <-] & Hv); [do 4 right; by left|].
    by apply opaqueId_nonempty.
  - destruct (Hf "artifact_fingerprint" wire.sha256Id) as (v & [= <-] & Hv); [do 3 right; by left|].
    by apply sha256Id_nonempty.
  - destruct (Hf "size_bytes" wire.positiveInt64) as (v & [= <-] & Hv); [do 6 right; by left|].
    simpl in Hv. split_bool. lia.
Qed.

Lemma join_response_stage s :
  validates contract.join_response (to_json.stage_success s) = true ->
  validates (contract.stage_success_schema StageJoinV1) (to_json.stage_success s) = true.
Proof.
  intros (alternative & Hin & Hv)%validates_oneOf_inv. unfold contract.join_response in Hin.
  repeat (apply elem_of_cons in Hin as [->|Hin]; [try done; wrong_keys Hv|]).
  by apply elem_of_nil in Hin.
Qed.

Lemma remux_response_stage operation s :
  validates (contract.remux_response operation) (to_json.stage_success s) = true ->
  validates (contract.stage_success_schema operation) (to_json.stage_success s) = true.
Proof.
  intros (alternative & Hin & Hv)%validates_oneOf_inv. unfold contract.remux_response in Hin.
  repeat (apply elem_of_cons in Hin as [->|Hin]; [try done; wrong_keys Hv|]).
  by apply elem_of_nil in Hin.
Qed.

(** A response that encodes carries exactly the message its kind names. *)
Lemma encodeOperationResponse_Ok {S} (f : S -> json.value) response limit s data :
  encodeOperationResponse f response limit s = Ok data ->
  (r_Kind response = ProbeResponseSucceeded /\ r_Failure response = None /\
   exists success, r_Success response = Some success /\ validates s (f success) = true) \/
  (r_Kind response = ProbeResponseFailed /\ r_Success response = None /\
   exists failure, r_Failure response = Some failure /\ validates s (to_json.failure failure) = true).
Proof.
  unfold encodeOperationResponse. case_bool_decide as Hk; [|case_bool_decide as Hk'].
  - destruct (r_Success response), (r_Failure response); try done.
    intros ?%validateMessage_Ok. left. eauto.
  - destruct (r_Success response), (r_Failure response); try done.
    intros ?%validateMessage_Ok. right. eauto.
  - done.
Qed.

(** The encoders are left folded by simplification. *)
#[global] Arguments EncodeStageJoinRequest : simpl never.
#[global] Arguments EncodeStageJoinResponse : simpl never.
#[global] Arguments EncodePublishResponse : simpl never.
#[global] Arguments EncodeDiscardResponse : simpl never.
#[global] Arguments EncodeBlurayRemuxRequest : simpl never.
#[global] Arguments EncodeBlurayRemuxResponse : simpl never.
#[global] Arguments EncodeBlurayPublishResponse : simpl never.
#[global] Arguments EncodeDVDRemuxRequest : simpl never.
#[global] Arguments EncodeDVDRemuxResponse : simpl never.
#[global] Arguments EncodeDVDPublishResponse : simpl never.
