(* ===== verification/CaseContracts.v ===== *)
(** * The planner's view of a repair case

    [contracts/v3/repair-case.schema.json], from which the Go types of the
    [contracts] package are generated: the evidence about the queue record, the
    movie, the download and its files that a case carries. Fields keep the
    order of the schema's required properties; enumerations are the strings
    the schema lists. *)
From stdpp Require Import base strings list.
From S2P Require Import Prelude.

Module contracts.

Record FrameRate := mkFrameRate { fr_Numerator : Z; fr_Denominator : Z }.

Record DispositionClass := mkDisposition
  { ds_Default : bool; ds_Forced : bool; ds_HearingImpaired : bool; ds_VisualImpaired : bool }.

Record StreamElement := mkStreamElement
  { se_Index : Z; se_Kind : string; se_CodecName : string; se_CodecTag : option string;
    se_Profile : option string; se_TimeBase : FrameRate; se_StartTimeMS : option Z;
    se_DurationMS : option Z; se_BitRateBps : option Z; se_Language : option string;
    se_Disposition : DispositionClass; se_Width : option Z; se_Height : option Z;
    se_PixelFormat : option string; se_FrameRate : option FrameRate;
    se_SampleRateHz : option Z; se_Channels : option Z; se_ChannelLayout : option string }.

Record FormatClass := mkFormatClass
  { fc_Names : list string; fc_EffectiveDurationMS : option Z;
    fc_EffectiveDurationSource : string; fc_FormatDurationMS : option Z;
    fc_LongestStreamDurationMS : option Z; fc_SizeBytes : Z; fc_BitRateBps : option Z }.

Definition Ok : string := "ok".

Record Probe := mkProbe
  { pb_Status : string; pb_Reason : option string; pb_Summary : option string;
    pb_Format : option FormatClass; pb_Streams : list StreamElement }.

Record DownloadMembershipClass := mkDownloadMembership
  { dm_SourceIndex : option Z; dm_Selected : bool; dm_SourceSizeBytes : Z;
    dm_AvailableBytes : Z }.

Record FileElement := mkFileElement
  { fe_FileID : string; fe_PathComponents : list string; fe_SizeBytes : Z;
    fe_DownloadMembership : option DownloadMembershipClass; fe_Fingerprint : string;
    fe_Extension : option string; fe_Disposition : string;
    fe_DispositionReason : option string; fe_Probe : Probe }.

Record Download := mkDownload
  { dl_SourceType : string; dl_Client : string; dl_DownloadRef : string; dl_Name : string;
    dl_ContentOwnership : string; dl_TotalSizeBytes : Z; dl_FileCount : Z;
    dl_IsComplete : bool; dl_CompletedAt : option time; dl_Labels : list string }.

Record StatusMessageElement := mkStatusMessage
  { sm_EvidenceID : string; sm_Title : string; sm_Messages : list string; sm_MessageCount : Z }.

Record Failure := mkFailure
  { fl_QueueID : Z; fl_DownloadRef : string; fl_Title : string; fl_ErrorMessage : string;
    fl_Status : string; fl_TrackedDownloadStatus : string; fl_TrackedDownloadState : string;
    fl_StatusMessages : list StatusMessageElement; fl_StatusMessageCount : Z }.

Record MovieClass := mkMovieClass
  { mc_RadarrID : Z; mc_TmdbID : Z; mc_ImdbID : option string; mc_Title : string;
    mc_OriginalTitle : option string; mc_AlternateTitles : list string; mc_Year : Z;
    mc_RuntimeMinutes : option Z }.

Record HistoryElement := mkHistoryElement
  { hs_EvidenceID : string; hs_EventType : string; hs_OccurredAt : time;
    hs_SourceTitle : string; hs_Quality : option string; hs_Languages : list string }.

Definition Permanent : string := "permanent".
Definition Temporary : string := "temporary".
Definition TypeUnknown : string := "unknown".

Record RejectionElement := mkRejectionElement
  { re_EvidenceID : string; re_Type : string; re_Reason : string }.

Record ManualImportElement := mkManualImportElement
  { me_FileID : string; me_Quality : option string; me_Languages : list string;
    me_ReleaseGroup : option string; me_Rejections : list RejectionElement }.

Record Radarr := mkRadarr
  { rr_Failure : Failure; rr_Movie : option MovieClass; rr_History : list HistoryElement;
    rr_ManualImports : list ManualImportElement }.

Definition RadarrRepairV3 : string := "radarr-repair/v3".

#[global] Instance FrameRate_eq_dec : EqDecision FrameRate.
Proof. solve_decision. Defined.
#[global] Instance DispositionClass_eq_dec : EqDecision DispositionClass.
Proof. solve_decision. Defined.
#[global] Instance StreamElement_eq_dec : EqDecision StreamElement.
Proof. solve_decision. Defined.
#[global] Instance FormatClass_eq_dec : EqDecision FormatClass.
Proof. solve_decision. Defined.
#[global] Instance Probe_eq_dec : EqDecision Probe.
Proof. solve_decision. Defined.
#[global] Instance DownloadMembershipClass_eq_dec : EqDecision DownloadMembershipClass.
Proof. solve_decision. Defined.
#[global] Instance FileElement_eq_dec : EqDecision FileElement.
Proof. solve_decision. Defined.
#[global] Instance Download_eq_dec : EqDecision Download.
Proof. solve_decision. Defined.
#[global] Instance StatusMessageElement_eq_dec : EqDecision StatusMessageElement.
Proof. solve_decision. Defined.
#[global] Instance Failure_eq_dec : EqDecision Failure.
Proof. solve_decision. Defined.
#[global] Instance MovieClass_eq_dec : EqDecision MovieClass.
Proof. solve_decision. Defined.
#[global] Instance HistoryElement_eq_dec : EqDecision HistoryElement.
Proof. solve_decision. Defined.
#[global] Instance RejectionElement_eq_dec : EqDecision RejectionElement.
Proof. solve_decision. Defined.
#[global] Instance ManualImportElement_eq_dec : EqDecision ManualImportElement.
Proof. solve_decision. Defined.
#[global] Instance Radarr_eq_dec : EqDecision Radarr.
Proof. solve_decision. Defined.

End contracts.
