(* ===== verification/Decisions.v ===== *)
(** * Repair cases, decisions and the shared parts of decision policy

    [contracts/model.go] (a planner decision), [internal/casebuilder/assemble.go]
    (the observation and snapshot a case is assembled from), the candidate
    types of [internal/mkvmerge] and [internal/dvdvideo], and the lookups and
    runtime comparison that the policies of [internal/decisionpolicy] share. *)
From stdpp Require Import base strings list gmap.
From S2P Require Import Prelude GoStrings FileIdentity Probe Media Radarr WorkerContracts CaseContracts.

(** ** Contracts *)

Definition CapabilityAction := string.
Definition CapabilityActionJoinParts : CapabilityAction := "join_parts_v1".
Definition CapabilityActionManualImportFile : CapabilityAction := "manual_import_file_v1".
Definition CapabilityActionRemuxBluray : CapabilityAction := "remux_bluray_v1".
Definition CapabilityActionRemuxDVD : CapabilityAction := "remux_dvd_v1".

Definition DecisionAction := string.
Definition ActionNoRepair : DecisionAction := "no_repair".
Definition ActionJoinParts : DecisionAction := "join_parts_v1".
Definition ActionManualImportFile : DecisionAction := "manual_import_file_v1".
Definition ActionRemuxBluray : DecisionAction := "remux_bluray_v1".
Definition ActionRemuxDVD : DecisionAction := "remux_dvd_v1".

Record TrackElement := mkTrackElement
  { te_Kind : string; te_Codec : string; te_Language : option string }.

Record Capability := mkCapability
  { cap_CapabilityID : string; cap_Action : CapabilityAction; cap_FileID : option string;
    cap_CandidateFileIDS : list string; cap_PlaylistFileID : option string;
    cap_ClipFileIDS : list string; cap_NavigationFileID : option string;
    cap_SourceFileIDS : list string; cap_TitleNumber : option Z; cap_TitleSet : option Z;
    cap_TitleInSet : option Z; cap_AngleCount : option Z; cap_DurationMS : option Z;
    cap_ChapterCount : option Z; cap_Tracks : list TrackElement }.

Record RepairCaseV3 := mkRepairCase
  { rc_SchemaVersion : string; rc_CaseID : string; rc_ObservedAt : time;
    rc_Radarr : contracts.Radarr; rc_Download : contracts.Download;
    rc_Files : list contracts.FileElement; rc_Capabilities : list Capability }.

#[global] Instance TrackElement_eq_dec : EqDecision TrackElement.
Proof. solve_decision. Defined.
#[global] Instance Capability_eq_dec : EqDecision Capability.
Proof. solve_decision. Defined.
#[global] Instance RepairCaseV3_eq_dec : EqDecision RepairCaseV3.
Proof. solve_decision. Defined.

Record NoRepairDecision := mkNoRepair
  { nr_SchemaVersion : string; nr_CaseID : string; nr_Action : string; nr_Reason : string;
    nr_MissingEvidence : list string; nr_EvidenceRefs : list string; nr_Explanation : string }.
Record JoinDecision := mkJoinDecision
  { jn_SchemaVersion : string; jn_CaseID : string; jn_CapabilityID : string; jn_Action : string;
    jn_OrderedFileIDS : list string; jn_EvidenceRefs : list string; jn_Explanation : string }.
Record ManualImportFileDecision := mkManualDecision
  { md_SchemaVersion : string; md_CaseID : string; md_CapabilityID : string; md_Action : string;
    md_FileID : string; md_EvidenceRefs : list string; md_Explanation : string }.
(** The Blu-ray and DVD remux decisions have the same properties. *)
Record RemuxDecision := mkRemuxDecision
  { rd_SchemaVersion : string; rd_CaseID : string; rd_CapabilityID : string; rd_Action : string;
    rd_EvidenceRefs : list string; rd_Explanation : string }.

Record RepairDecisionV3 := mkRepairDecision
  { rdv_Kind : DecisionAction; rdv_NoRepair : option NoRepairDecision;
    rdv_JoinParts : option JoinDecision; rdv_ManualImportFile : option ManualImportFileDecision;
    rdv_RemuxBluray : option RemuxDecision; rdv_RemuxDVD : option RemuxDecision }.

#[global] Instance NoRepairDecision_eq_dec : EqDecision NoRepairDecision.
Proof. solve_decision. Defined.
#[global] Instance JoinDecision_eq_dec : EqDecision JoinDecision.
Proof. solve_decision. Defined.
#[global] Instance ManualImportFileDecision_eq_dec : EqDecision ManualImportFileDecision.
Proof. solve_decision. Defined.
#[global] Instance RemuxDecision_eq_dec : EqDecision RemuxDecision.
Proof. solve_decision. Defined.
#[global] Instance RepairDecisionV3_eq_dec : EqDecision RepairDecisionV3.
Proof. solve_decision. Defined.

(** [RepairDecisionV3.CaseID]. *)
Definition decision_CaseID (decision : RepairDecisionV3) : string :=
  let id {A} (f : A -> string) (o : option A) := match o with Some d => f d | None => "" end in
  if bool_decide (rdv_Kind decision = ActionNoRepair) then id nr_CaseID (rdv_NoRepair decision)
  else if bool_decide (rdv_Kind decision = ActionJoinParts) then id jn_CaseID (rdv_JoinParts decision)
  else if bool_decide (rdv_Kind decision = ActionManualImportFile)
  then id md_CaseID (rdv_ManualImportFile decision)
  else if bool_decide (rdv_Kind decision = ActionRemuxBluray)
  then id rd_CaseID (rdv_RemuxBluray decision)
  else if bool_decide (rdv_Kind decision = ActionRemuxDVD) then id rd_CaseID (rdv_RemuxDVD decision)
  else "".

(** ** Observations (casebuilder, mkvmerge, dvdvideo) *)

Record FileProbe := mkFileProbe { fp_FileID : FileID; fp_Outcome : MediaProbeOutcome }.

Record Playlist := mkPlaylist
  { pl_DurationMS : Z; pl_Chapters : Z; pl_ClipPaths : list string; pl_Tracks : list RemuxTrack }.
Record PlaylistCandidate := mkPlaylistCandidate
  { bc_PlaylistFileID : FileID; bc_ClipFileIDs : list FileID; bc_Details : Playlist }.

Record Title := mkTitle
  { tt_Number : Z; tt_DurationMS : Z; tt_Chapters : Z; tt_Angles : Z; tt_TitleSet : Z;
    tt_TitleInSet : Z; tt_Tracks : list RemuxTrack }.
Record TitleCandidate := mkTitleCandidate
  { tc_NavigationFileID : FileID; tc_SourceFileIDs : list FileID; tc_Details : Title }.

Record Observation := mkObservation
  { ob_ObservedAt : time; ob_Correlation : DownloadCorrelation; ob_Movie : option RadarrMovie;
    ob_History : list RadarrHistoryEvent; ob_ManualImports : list RadarrManualImport;
    ob_Inventory : FileInventory; ob_Probes : list FileProbe;
    ob_BluRayPlaylists : list PlaylistCandidate; ob_DVDTitles : list TitleCandidate }.

Record LocalSnapshot := mkLocalSnapshot
  { ls_CaseID : string; ls_Observation : Observation;
    ls_ManualImportBindings : gmap string RadarrManualImportBinding }.

Record Assembly := mkAssembly
  { as_Request : RepairCaseV3; as_EncodedRequest : string; as_LocalSnapshot : LocalSnapshot }.

#[global] Instance FileProbe_eq_dec : EqDecision FileProbe.
Proof. solve_decision. Defined.
#[global] Instance Playlist_eq_dec : EqDecision Playlist.
Proof. solve_decision. Defined.
#[global] Instance PlaylistCandidate_eq_dec : EqDecision PlaylistCandidate.
Proof. solve_decision. Defined.
#[global] Instance Title_eq_dec : EqDecision Title.
Proof. solve_decision. Defined.
#[global] Instance TitleCandidate_eq_dec : EqDecision TitleCandidate.
Proof. solve_decision. Defined.
#[global] Instance Observation_eq_dec : EqDecision Observation.
Proof. solve_decision. Defined.
#[global] Instance LocalSnapshot_eq_dec : EqDecision LocalSnapshot.
Proof. solve_decision. Defined.

Definition digit (c : Ascii.ascii) : bool :=
  let n := Ascii.nat_of_ascii c in (48 <=? n)%nat && (n <=? 57)%nat.
Definition numberedFile (name extension : string) : bool :=
  if negb (bool_decide (String.length name = (5 + String.length extension)%nat)) ||
     negb (HasSuffix name extension)
  then false else s_forall digit (s_take 5 name).
Definition NumberedPlaylist (name : string) : bool := numberedFile name ".mpls".
Definition NumberedClip (name : string) : bool := numberedFile name ".m2ts".

(** ** Lookups (decisionpolicy/join.go, manual_import.go) *)

Fixpoint findCapability (capabilities : list Capability) (capabilityID : string) : option Capability :=
  match capabilities with
  | [] => None
  | capability :: rest =>
      if bool_decide (cap_CapabilityID capability = capabilityID) then Some capability
      else findCapability rest capabilityID
  end.

Definition indexFiles (inventory : FileInventory) : gmap string InventoryFile :=
  fold_left (fun files file => <[if_ID file := file]> files) (fi_Files inventory) ∅.

Definition indexProbes (probes : list FileProbe) : gmap string MediaProbeOutcome :=
  fold_left (fun indexed probe => <[fp_FileID probe := fp_Outcome probe]> indexed) probes ∅.

(** The [paths] map that the disc policies build. *)
Definition indexPaths (inventory : FileInventory) : gmap string string :=
  fold_left (fun paths m => <[fpm_FileID m := fpm_AbsolutePath m]> paths) (fi_Paths inventory) ∅.

Fixpoint findFilePath (paths : list FilePathMapping) (fileID : FileID) : option string :=
  match paths with
  | [] => None
  | mapping :: rest =>
      if bool_decide (fpm_FileID mapping = fileID) then Some (fpm_AbsolutePath mapping)
      else findFilePath rest fileID
  end.

(** The probe evidence of a file, when it was probed successfully. *)
Definition usableProbe (probe : option MediaProbeOutcome) : option ProbeEvidence :=
  match probe with
  | Some outcome =>
      match mpo_Status outcome, mpo_Evidence outcome with
      | MediaProbeSucceeded, Some evidence => Some evidence
      | _, _ => None
      end
  | None => None
  end.

(** ** Runtime comparison (manual_import.go) *)

Definition minimumRuntimeToleranceMS : Z := 5 * 60 * 1000.

(** The zero value is [mkRuntimePolicy 0]. *)
Record RuntimePolicy := mkRuntimePolicy { MaximumDifferenceMS : Z }.

Record ManualImportRuntimeAssessment := mkRuntimeAssessment
  { ra_FileDurationMS : Z; ra_MovieRuntimeMS : option Z; ra_DifferenceMS : option Z;
    ra_DefaultToleranceMS : option Z; ra_ToleranceMS : option Z }.

Definition assessManualImportRuntime (fileDurationMS : Z) (movieRuntimeMinutes : option Z)
    (policy : RuntimePolicy) : ManualImportRuntimeAssessment :=
  match movieRuntimeMinutes with
  | None => mkRuntimeAssessment fileDurationMS None None None None
  | Some minutes =>
      let movieDurationMS := mul64 (mul64 minutes 60) 1000 in
      let differenceMS :=
        if bool_decide (movieDurationMS < fileDurationMS)
        then sub64 fileDurationMS movieDurationMS else sub64 movieDurationMS fileDurationMS in
      let tenth := Z.quot movieDurationMS 10 in
      let defaultToleranceMS :=
        if bool_decide (tenth < minimumRuntimeToleranceMS) then minimumRuntimeToleranceMS else tenth in
      let toleranceMS :=
        if bool_decide (defaultToleranceMS < MaximumDifferenceMS policy)
        then MaximumDifferenceMS policy else defaultToleranceMS in
      mkRuntimeAssessment fileDurationMS (Some movieDurationMS) (Some differenceMS)
        (Some defaultToleranceMS) (Some toleranceMS)
  end.

Definition runtimeTolerance (assessment : ManualImportRuntimeAssessment) : Z :=
  match ra_ToleranceMS assessment with Some t => t | None => 0 end.

(** ** Properties of the shared parts *)

Lemma fold_insert_lookup {A B} (key : A -> string) (val : A -> B) l (m : gmap string B) k v :
  fold_left (fun m a => <[key a := val a]> m) l m !! k = Some v ->
  (exists a, a ∈ l /\ key a = k /\ val a = v) \/ m !! k = Some v.
Proof.
  revert m. induction l as [|a l IH]; intros m; simpl; [by right|].
  intros [(b & ? & ? & ?)|H]%IH.
  - left. exists b. split_and!; [by right|done|done].
  - destruct (decide (key a = k)) as [Heq|Hne].
    + rewrite Heq, lookup_insert_eq in H. injection H as <-. left. exists a.
      split_and!; [by left|done|done].
    + rewrite lookup_insert_ne in H by done. by right.
Qed.

(** The last element of a list with a key, which an index keeps. *)
Definition last_with {A} (key : A -> string) (k : string) (l : list A) (x : A) : Prop :=
  exists before after, l = before ++ x :: after /\ key x = k /\ Forall (fun y => key y <> k) after.

(** The first element of a list with a key, which a search finds. *)
Definition first_with {A} (key : A -> string) (k : string) (l : list A) (x : A) : Prop :=
  exists before after, l = before ++ x :: after /\ key x = k /\ Forall (fun y => key y <> k) before.

Lemma findCapability_first capabilities capabilityID capability :
  findCapability capabilities capabilityID = Some capability <->
  first_with cap_CapabilityID capabilityID capabilities capability.
Proof.
  induction capabilities as [|c cs IH]; simpl.
  - split; [done|]. by intros ([] & after & ? & _).
  - case_bool_decide as Hc.
    + split.
      * intros [= ->]. by exists [], cs.
      * intros ([|b bs] & after & [= -> ->] & Hx & Hf); [done|]. by apply Forall_cons in Hf as [? _].
    + rewrite IH. split.
      * intros (before & after & -> & Hx & Hf). exists (c :: before), after. split_and!; [done|done|by constructor].
      * intros ([|b bs] & after & [= -> ->] & Hx & Hf); [done|]. apply Forall_cons in Hf as [_ Hf].
        by exists bs, after.
Qed.

Lemma fold_insert_last {A B} (key : A -> string) (val : A -> B) l (m : gmap string B) k v :
  fold_left (fun m a => <[key a := val a]> m) l m !! k = Some v <->
  (exists x, last_with key k l x /\ val x = v) \/ (Forall (fun y => key y <> k) l /\ m !! k = Some v).
Proof.
  induction l as [|a l IH] using rev_ind.
  - simpl. split; [by right|]. intros [(x & (before & after & H & _) & _)|[_ ?]]; [by destruct before|done].
  - rewrite fold_left_app. cbn [fold_left]. rewrite Forall_app, Forall_singleton.
    destruct (decide (key a = k)) as [Hk|Hk].
    + rewrite Hk, lookup_insert_eq. split.
      * intros [= <-]. left. exists a. split; [|done]. exists l, []. by split_and!.
      * intros [(x & (before & after & H & Hx & Hf) & <-)|[[_ ?] _]]; [|done].
        destruct after as [|y after _] using rev_ind.
        -- apply app_inj_2 in H as [_ [= ->]]; done.
        -- rewrite app_comm_cons, app_assoc in H. apply app_inj_2 in H as [_ [= ->]]; [|done].
           apply Forall_app in Hf as [_ [? _]%Forall_cons]. done.
    + rewrite lookup_insert_ne, IH by done. split.
      * intros [(x & (before & after & -> & Hx & Hf) & <-)|[? ?]]; [left|by right].
        exists x. split; [|done]. exists before, (after ++ [a])%list. split_and!; [by rewrite <- app_assoc|done|].
        apply Forall_app. split; [done|]. by apply Forall_singleton.
      * intros [(x & (before & after & H & Hx & Hf) & <-)|[[? _] ?]]; [left|by right].
        exists x. split; [|done]. destruct after as [|y after _] using rev_ind.
        -- apply app_inj_2 in H as [_ [= ->]]; done.
        -- rewrite app_comm_cons, app_assoc in H. apply app_inj_2 in H as [-> [= ->]]; [|done].
           exists before, after. split_and!; [done|done|]. by apply Forall_app in Hf as [? _].
Qed.

Lemma indexFiles_last (inventory : FileInventory) (fileID : string) (file : InventoryFile) :
  indexFiles inventory !! fileID = Some file <-> last_with if_ID fileID (fi_Files inventory) file.
Proof.
  unfold indexFiles. rewrite (fold_insert_last if_ID (fun f => f)). split.
  - intros [(x & H & <-)|[_ H]]; [done|by rewrite lookup_empty in H].
  - intros H. left. by exists file.
Qed.

Lemma indexProbes_last (probes : list FileProbe) (fileID : string) (outcome : MediaProbeOutcome) :
  indexProbes probes !! fileID = Some outcome <->
  exists probe, last_with fp_FileID fileID probes probe /\ fp_Outcome probe = outcome.
Proof.
  unfold indexProbes. rewrite (fold_insert_last fp_FileID fp_Outcome). split.
  - intros [H|[_ H]]; [done|by rewrite lookup_empty in H].
  - intros H. by left.
Qed.

Lemma indexFiles_sound inventory fileID file :
  indexFiles inventory !! fileID = Some file -> file ∈ fi_Files inventory /\ if_ID file = fileID.
Proof.
  intros [(f & ? & ? & ->)|H]%(fold_insert_lookup if_ID (fun f => f)); [done|].
  by rewrite lookup_empty in H.
Qed.

Lemma indexProbes_sound probes fileID outcome :
  indexProbes probes !! fileID = Some outcome ->
  exists probe, probe ∈ probes /\ fp_FileID probe = fileID /\ fp_Outcome probe = outcome.
Proof.
  intros [H|H]%(fold_insert_lookup fp_FileID fp_Outcome); [done|]. by rewrite lookup_empty in H.
Qed.

Lemma indexPaths_sound inventory fileID path :
  indexPaths inventory !! fileID = Some path ->
  mkFilePathMapping fileID path ∈ fi_Paths inventory.
Proof.
  intros [([k v] & ? & <- & <-)|H]%(fold_insert_lookup fpm_FileID fpm_AbsolutePath); [done|].
  by rewrite lookup_empty in H.
Qed.

Lemma findFilePath_sound paths fileID path :
  findFilePath paths fileID = Some path -> mkFilePathMapping fileID path ∈ paths.
Proof.
  induction paths as [|[k v] paths IH]; simpl; [done|].
  case_bool_decide; simplify_eq/=; [intros [= ->]; by left|]. intros. right. by apply IH.
Qed.

Lemma findCapability_sound capabilities id capability :
  findCapability capabilities id = Some capability ->
  capability ∈ capabilities /\ cap_CapabilityID capability = id.
Proof.
  induction capabilities as [|c capabilities IH]; simpl; [done|].
  case_bool_decide; [intros [= <-]; by split; [left|]|].
  intros [? ?]%IH. split; [by right|done].
Qed.

Lemma usableProbe_Some probe evidence :
  usableProbe probe = Some evidence <->
  exists outcome, probe = Some outcome /\ mpo_Status outcome = MediaProbeSucceeded /\
    mpo_Evidence outcome = Some evidence.
Proof.
  unfold usableProbe. split.
  - destruct probe as [[status e reason]|]; simpl; [|done].
    destruct status, e; try done. intros [= ->]. by eexists.
  - intros ([status e reason] & -> & Hs & He). simpl in *. by subst.
Qed.

(** A runtime in minutes for which the millisecond arithmetic cannot wrap. *)
Definition runtime_range (minutes duration : Z) : Prop :=
  0 <= minutes <= max_int64 / 60000 /\ 0 <= duration <= max_int64.

Lemma runtime_milliseconds minutes duration :
  runtime_range minutes duration -> mul64 (mul64 minutes 60) 1000 = minutes * 60000.
Proof.
  intros [Hm _]. unfold mul64, max_int64 in *.
  pose proof (Z.mul_div_le 9223372036854775807 60000).
  rewrite (wrap64_id (minutes * 60)) by (unfold int64_range; lia).
  rewrite wrap64_id by (unfold int64_range; lia). lia.
Qed.

(** What the runtime comparison accepts, without machine arithmetic. *)
Definition runtime_close (duration minutes tolerance : Z) : Prop :=
  Z.abs (minutes * 60000 - duration) <= tolerance.

Definition allowed_tolerance (minutes : Z) (policy : RuntimePolicy) : Z :=
  Z.max (MaximumDifferenceMS policy) (Z.max minimumRuntimeToleranceMS (minutes * 6000)).

Lemma assessManualImportRuntime_spec duration minutes policy :
  runtime_range minutes duration ->
  ra_DifferenceMS (assessManualImportRuntime duration (Some minutes) policy) =
    Some (Z.abs (minutes * 60000 - duration)) /\
  ra_ToleranceMS (assessManualImportRuntime duration (Some minutes) policy) =
    Some (allowed_tolerance minutes policy).
Proof.
  intros Hr. simpl. rewrite (runtime_milliseconds minutes duration Hr).
  destruct Hr as [Hm Hd]. unfold max_int64 in *.
  pose proof (Z.mul_div_le 9223372036854775807 60000).
  replace (Z.quot (minutes * 60000) 10) with (minutes * 6000).
  2: { rewrite Z.quot_div_nonneg by lia.
       replace (minutes * 60000) with (minutes * 6000 * 10) by lia. by rewrite Z.div_mul. }
  split; f_equal.
  - case_bool_decide; rewrite sub64_small by (unfold max_int64; lia); lia.
  - unfold allowed_tolerance, minimumRuntimeToleranceMS.
    case_bool_decide; case_bool_decide; lia.
Qed.
