(* ===== verification/DiscCandidates.v ===== *)
(** * Disc titles that a case may offer

    [internal/mkvmerge/candidates.go] and [internal/dvdvideo/candidates.go]:
    which Blu-ray playlists and DVD titles of a download are kept as
    candidates. The identifiers that read a playlist or a navigation file are
    arguments, and so is what the context says before each of them is asked. *)
From stdpp Require Import base strings list gmap sorting pretty.
From Stdlib Require Import Ascii.
From S2P Require Import Prelude GoStrings FileIdentity Media WorkerContracts Decisions.

Definition minimumFeatureMS : Z := 20 * 60 * 1000.

(** [available] of both packages. *)
Definition available (file : InventoryFile) : bool :=
  if bool_decide (SizeBytes (if_Fingerprint file) <= 0) then false
  else match if_DownloadFile file with
  | None => true
  | Some download =>
      dfr_Selected download &&
      bool_decide (dfr_LengthBytes download = SizeBytes (if_Fingerprint file)) &&
      bool_decide (dfr_BytesCompleted download = SizeBytes (if_Fingerprint file))
  end.

Definition path_at (paths : gmap FileID string) (file : InventoryFile) : string :=
  default "" (paths !! if_ID file).

Module mkvmerge.

Definition maximumPlaylists : nat := 128.

Definition cleanAbsolute (path : string) : bool :=
  negb (bool_decide (path = "")) && filepath.IsAbs path && bool_decide (filepath.Clean path = path).

Fixpoint index_paths (mappings : list FilePathMapping) (paths : gmap FileID string)
    : result (gmap FileID string) :=
  match mappings with
  | [] => Ok paths
  | mapping :: rest =>
      _ ← fail_if (bool_decide (is_Some (paths !! fpm_FileID mapping))) "duplicate inventory file ID";
      index_paths rest (<[fpm_FileID mapping := fpm_AbsolutePath mapping]> paths)
  end.

Fixpoint index_by_path (files : list InventoryFile) (paths : gmap FileID string)
    (indexed : gmap string InventoryFile) : result (gmap string InventoryFile) :=
  match files with
  | [] => Ok indexed
  | file :: rest =>
      match paths !! if_ID file with
      | None => Err "inventory file has no clean absolute path"
      | Some path =>
          _ ← fail_if (negb (cleanAbsolute path)) "inventory file has no clean absolute path";
          _ ← fail_if (bool_decide (is_Some (indexed !! path))) "duplicate inventory path";
          index_by_path rest paths (<[path := file]> indexed)
      end
  end.

Definition inventoryIndex (inventory : FileInventory)
    : result (gmap string InventoryFile * gmap FileID string) :=
  paths ← index_paths (fi_Paths inventory) ∅;
  files ← index_by_path (fi_Files inventory) paths ∅;
  _ ← fail_if (negb (bool_decide (size files = size paths))) "inventory files and paths differ";
  mret (files, paths).

Definition is_playlist (file : InventoryFile) : bool :=
  match rev (if_PathComponents file) with
  | name :: directory :: parent :: _ =>
      bool_decide (parent = "BDMV") && bool_decide (directory = "PLAYLIST") && NumberedPlaylist name
  | _ => false
  end.

(** The order of [sort.Slice], by the joined path components; files with equal
    components may come in any order. *)
Definition components_le (a b : InventoryFile) : Prop :=
  string_le (join_slash (if_PathComponents a)) (join_slash (if_PathComponents b)).
#[global] Instance components_le_dec : RelDecision components_le.
Proof. intros a b. unfold components_le. apply _. Defined.

Definition playlistFiles (files : gmap string InventoryFile) : list InventoryFile :=
  merge_sort components_le (List.filter is_playlist (map snd (map_to_list files))).

Fixpoint clip_ids (streamDir : string) (clipPaths : list string)
    (files : gmap string InventoryFile) : option (list FileID) :=
  match clipPaths with
  | [] => Some []
  | path :: rest =>
      if negb (cleanAbsolute path) || negb (bool_decide (filepath.Dir path = streamDir)) ||
         negb (NumberedClip (filepath.Base path))
      then None
      else match files !! path with
      | Some file => if available file then cons (if_ID file) <$> clip_ids streamDir rest files else None
      | None => None
      end
  end.

(** [None] is the answer that is not ok. *)
Definition inventoryClips (playlistPath : string) (clipPaths : list string)
    (files : gmap string InventoryFile) : option (list FileID) :=
  let streamDir := filepath.Join (filepath.Dir (filepath.Dir playlistPath)) "STREAM" in
  clipIDs ← clip_ids streamDir clipPaths files;
  if bool_decide (0 < length clipIDs)%nat then Some clipIDs else None.

Section list.
Context (contextErr : InventoryFile -> option error).
Context (Identify : string -> string -> result Playlist).

Fixpoint identify_playlists (playlists : list InventoryFile) (files : gmap string InventoryFile)
    (paths : gmap FileID string) : result (list PlaylistCandidate) :=
  match playlists with
  | [] => Ok []
  | file :: rest =>
      match contextErr file with
      | Some e => Err e
      | None =>
          if negb (available file) then identify_playlists rest files paths
          else
            let path := path_at paths file in
            details ← Identify path (StrictFingerprint (if_Fingerprint file));
            if bool_decide (pl_DurationMS details < minimumFeatureMS)
            then identify_playlists rest files paths
            else match inventoryClips path (pl_ClipPaths details) files with
            | None => identify_playlists rest files paths
            | Some clipIDs =>
                others ← identify_playlists rest files paths;
                mret (mkPlaylistCandidate (if_ID file) clipIDs details :: others)
            end
      end
  end.

Definition ListFeaturePlaylists (inventory : FileInventory) : result (list PlaylistCandidate) :=
  '(files, paths) ← inventoryIndex inventory;
  let playlists := playlistFiles files in
  _ ← fail_if (bool_decide (maximumPlaylists < length playlists)%nat)
        "download has more than 128 Blu-ray playlists";
  identify_playlists playlists files paths.
End list.
End mkvmerge.

Module dvdvideo.

Definition maximumDiscs : nat := 8.
Definition maximumFiles : nat := 1024.

Fixpoint index_disc_paths (mappings : list FilePathMapping) (paths : gmap FileID string)
    : result (gmap FileID string) :=
  match mappings with
  | [] => Ok paths
  | mapping :: rest =>
      _ ← fail_if (bool_decide (is_Some (paths !! fpm_FileID mapping)) ||
                   negb (filepath.IsAbs (fpm_AbsolutePath mapping)) ||
                   negb (bool_decide (filepath.Clean (fpm_AbsolutePath mapping) =
                                      fpm_AbsolutePath mapping)))
            "DVD inventory has an invalid file path";
      index_disc_paths rest (<[fpm_FileID mapping := fpm_AbsolutePath mapping]> paths)
  end.

Definition is_navigation (file : InventoryFile) : bool :=
  bool_decide (last (if_PathComponents file) = Some "VIDEO_TS.IFO").

(** The order of [sort.Slice], by path. *)
Definition path_le (paths : gmap FileID string) (a b : InventoryFile) : Prop :=
  string_le (path_at paths a) (path_at paths b).
#[global] Instance path_le_dec paths : RelDecision (path_le paths).
Proof. intros a b. unfold path_le. apply _. Defined.

(** A name that is not one of the fixed three is [VTS_dd_d] with an extension. *)
Definition ValidFileName (name : string) : bool :=
  if bool_decide (name ∈ ["VIDEO_TS.IFO"; "VIDEO_TS.BUP"; "VIDEO_TS.VOB"]) then true
  else if negb (HasPrefix name "VTS_") || negb (bool_decide (String.length name = 12%nat)) then false
  else match String.list_ascii_of_string (s_drop 4 name) with
  | d1 :: d2 :: underscore :: d3 :: _ =>
      digit d1 && digit d2 && bool_decide (underscore = "_"%char) && digit d3 &&
      bool_decide (s_drop 8 name ∈ [".IFO"; ".BUP"; ".VOB"])
  | _ => false
  end.

(** The loop of [discFiles]; [None] is a file that spoils the directory. *)
Fixpoint directory_files (inventory : list InventoryFile) (paths : gmap FileID string)
    (directory : string) : option (list InventoryFile) :=
  match inventory with
  | [] => Some []
  | file :: rest =>
      let path := path_at paths file in
      if negb (bool_decide (filepath.Dir path = directory)) then directory_files rest paths directory
      else if negb (ValidFileName (filepath.Base path)) || negb (available file) then None
      else cons file <$> directory_files rest paths directory
  end.

Definition discFiles (inventory : list InventoryFile) (paths : gmap FileID string)
    (directory : string) : option (list InventoryFile) :=
  files ← directory_files inventory paths directory;
  if bool_decide (length files < 3)%nat || bool_decide (maximumFiles < length files)%nat then None
  else Some (merge_sort (path_le paths) files).

(** [fmt.Sprintf("VTS_%02d_", titleSet)] for a number below 100. *)
Definition title_prefix (titleSet : Z) : string :=
  "VTS_" +:+ (if bool_decide (titleSet < 10) then "0" else "") +:+ pretty titleSet +:+ "_".

(** [None] is the panic for a file without path components. *)
Fixpoint title_files (prefix : string) (files : list InventoryFile) (hasIFO hasVOB : bool)
    : option bool :=
  match files with
  | [] => Some (hasIFO && hasVOB)
  | file :: rest =>
      match last (if_PathComponents file) with
      | None => None
      | Some name =>
          title_files prefix rest (hasIFO || bool_decide (name = prefix +:+ "0.IFO"))
            (hasVOB || bool_decide (name = prefix +:+ "1.VOB"))
      end
  end.

Definition hasTitleFiles (files : list InventoryFile) (titleSet : Z) : option bool :=
  if bool_decide (titleSet < 1) || bool_decide (titleSet > 99) then Some false
  else title_files (title_prefix titleSet) files false false.

Definition hasMovieTracks (tracks : list RemuxTrack) : bool :=
  existsb (fun track => bool_decide (tr_Kind track = "video")) tracks &&
  existsb (fun track => bool_decide (tr_Kind track = "audio")) tracks.

Fixpoint feature_titles (navigationFileID : FileID) (files : list InventoryFile)
    (titles : list Title) : result (list TitleCandidate) :=
  match titles with
  | [] => Ok []
  | title :: rest =>
      if bool_decide (tt_DurationMS title < minimumFeatureMS) || negb (bool_decide (tt_Angles title = 1))
      then feature_titles navigationFileID files rest
      else match hasTitleFiles files (tt_TitleSet title) with
      | None => Err "panic: file without path components"
      | Some present =>
          if negb present || negb (hasMovieTracks (tt_Tracks title))
          then feature_titles navigationFileID files rest
          else
            others ← feature_titles navigationFileID files rest;
            mret (mkTitleCandidate navigationFileID (map if_ID files) title :: others)
      end
  end.

Section list.
Context (contextErr : InventoryFile -> option error).
Context (IdentifyDVD : string -> string -> result (list Title)).

Fixpoint identify_discs (navigation inventory : list InventoryFile) (paths : gmap FileID string)
    : result (list TitleCandidate) :=
  match navigation with
  | [] => Ok []
  | file :: rest =>
      match contextErr file with
      | Some e => Err e
      | None =>
          if negb (available file) then identify_discs rest inventory paths
          else
            let path := path_at paths file in
            _ ← fail_if (bool_decide (path = "") ||
                         negb (bool_decide (filepath.Base path = "VIDEO_TS.IFO")))
                  "DVD navigation file path differs from inventory";
            match discFiles inventory paths (filepath.Dir path) with
            | None => identify_discs rest inventory paths
            | Some files =>
                titles ← IdentifyDVD path (StrictFingerprint (if_Fingerprint file));
                candidates ← feature_titles (if_ID file) files titles;
                others ← identify_discs rest inventory paths;
                mret (candidates ++ others)
            end
      end
  end.

Definition ListFeatureTitles (inventory : FileInventory) : result (list TitleCandidate) :=
  paths ← index_disc_paths (fi_Paths inventory) ∅;
  _ ← fail_if (negb (bool_decide (size paths = length (fi_Files inventory))))
        "DVD inventory paths and files differ";
  let navigation := List.filter is_navigation (fi_Files inventory) in
  _ ← fail_if (bool_decide (maximumDiscs < length navigation)%nat)
        "download contains too many DVD structures";
  identify_discs (merge_sort (path_le paths) navigation) (fi_Files inventory) paths.
End list.
End dvdvideo.

(** * What is listed of a disc

    Theorems about [internal/dvdvideo/candidates.go] and
    [internal/mkvmerge/candidates.go]: a listed title comes with every file of
    its directory, all complete, and a listed playlist with the complete stream
    files that it plays. *)

(** ** DVD titles *)

Section titles.
Import dvdvideo.

Lemma index_paths_lookup mappings paths paths' id path :
  index_disc_paths mappings paths = Ok paths' -> paths' !! id = Some path ->
  mkFilePathMapping id path ∈ mappings \/ paths !! id = Some path.
Proof.
  revert paths. induction mappings as [|[k p] mappings IH]; intros paths; cbn [index_disc_paths].
  - intros [= <-]. by right.
  - intros (? & _ & H)%bind_Ok Hl. destruct (IH _ H Hl) as [Hin|Hin]; [left; by right|].
    cbn in Hin. apply lookup_insert_Some in Hin as [[-> ->]|[_ ?]]; [left; by left|by right].
Qed.

(** The files of a directory, each a complete part of a DVD structure. *)
Lemma directory_files_Some inventory paths directory files :
  directory_files inventory paths directory = Some files ->
  files `sublist_of` inventory /\
  (forall file, file ∈ files <->
     file ∈ inventory /\ filepath.Dir (path_at paths file) = directory) /\
  Forall (fun file => ValidFileName (filepath.Base (path_at paths file)) = true /\
    available file = true) files.
Proof.
  revert files. induction inventory as [|f inventory IH]; intros files; cbn [directory_files].
  { intros [= <-]. split_and!; [constructor| |constructor]. intros file. rewrite elem_of_nil. tauto. }
  destruct (bool_decide_reflect (filepath.Dir (path_at paths f) = directory)) as [Hd|Hd]; cbn [negb].
  - destruct (negb _ || negb _) eqn:Hv; [done|]. intros (fs & (Hsub & Hin & Hall)%IH & ->)%fmap_Some.
    apply orb_false_iff in Hv as [Hn%negb_false_iff Ha%negb_false_iff].
    split_and!; [by apply sublist_skip| |by constructor].
    intros file. rewrite !elem_of_cons, Hin. naive_solver.
  - intros (Hsub & Hin & Hall)%IH. split_and!; [by apply sublist_cons| |done].
    intros file. rewrite elem_of_cons, Hin. naive_solver.
Qed.

Lemma title_files_true prefix files hasIFO hasVOB :
  title_files prefix files hasIFO hasVOB = Some true ->
  (hasIFO = true \/ exists f, f ∈ files /\ last (if_PathComponents f) = Some (prefix +:+ "0.IFO")) /\
  (hasVOB = true \/ exists f, f ∈ files /\ last (if_PathComponents f) = Some (prefix +:+ "1.VOB")).
Proof.
  revert hasIFO hasVOB. induction files as [|f files IH]; intros hasIFO hasVOB; cbn [title_files].
  { intros [= H]. apply andb_true_iff in H as [-> ->]. by split; left. }
  destruct (last (if_PathComponents f)) as [name|] eqn:Hl; [|done].
  intros [Hi Hv]%IH. rewrite !orb_true_iff, !bool_decide_eq_true in *. split.
  - destruct Hi as [[?| ->]|(g & Hg & ?)]; [by left|right; exists f; split; [by left|done]|].
    right. exists g. split; [by right|done].
  - destruct Hv as [[?| ->]|(g & Hg & ?)]; [by left|right; exists f; split; [by left|done]|].
    right. exists g. split; [by right|done].
Qed.

(** A title worth offering, whose files are the files of the navigation
    file's directory. *)
Record listed_title (inventory : FileInventory) (c : TitleCandidate) (navigation : InventoryFile)
    (files : list InventoryFile) (paths : gmap FileID string) : Prop :=
  { lt_navigation : navigation ∈ files /\ if_ID navigation = tc_NavigationFileID c;
    lt_name : filepath.Base (path_at paths navigation) = "VIDEO_TS.IFO";
    lt_sources : tc_SourceFileIDs c = map if_ID files;
    lt_count : (3 <= length files <= maximumFiles)%nat;
    lt_directory file : file ∈ files <-> file ∈ fi_Files inventory /\
      filepath.Dir (path_at paths file) = filepath.Dir (path_at paths navigation);
    lt_once : NoDup (map if_ID (fi_Files inventory)) -> NoDup (tc_SourceFileIDs c);
    lt_complete : Forall (fun file => ValidFileName (filepath.Base (path_at paths file)) = true /\
      available file = true) files;
    lt_feature : minimumFeatureMS <= tt_DurationMS (tc_Details c) /\ tt_Angles (tc_Details c) = 1 /\
      1 <= tt_TitleSet (tc_Details c) <= 99 /\ hasMovieTracks (tt_Tracks (tc_Details c)) = true;
    lt_title_set : forall suffix, suffix ∈ ["0.IFO"; "1.VOB"] -> exists file, file ∈ files /\
      last (if_PathComponents file) = Some (title_prefix (tt_TitleSet (tc_Details c)) +:+ suffix) }.

Lemma feature_titles_Ok navigationFileID files titles candidates c :
  feature_titles navigationFileID files titles = Ok candidates -> c ∈ candidates ->
  tc_NavigationFileID c = navigationFileID /\ tc_SourceFileIDs c = map if_ID files /\
  minimumFeatureMS <= tt_DurationMS (tc_Details c) /\ tt_Angles (tc_Details c) = 1 /\
  hasTitleFiles files (tt_TitleSet (tc_Details c)) = Some true /\
  hasMovieTracks (tt_Tracks (tc_Details c)) = true.
Proof.
  revert candidates. induction titles as [|t titles IH]; intros candidates; cbn [feature_titles].
  { intros [= <-]. by intros ?%not_elem_of_nil. }
  destruct (bool_decide _ || negb (bool_decide _)) eqn:Hd; [apply IH|].
  apply orb_false_iff in Hd as [Hd%bool_decide_eq_false Ha%negb_false_iff%bool_decide_eq_true].
  destruct (hasTitleFiles files (tt_TitleSet t)) as [present|] eqn:Hp; [|done].
  destruct (negb present || negb _) eqn:Hm; [apply IH|].
  apply orb_false_iff in Hm as [Hpr%negb_false_iff Hm%negb_false_iff]. subst present.
  intros (others & Ho & [= <-])%bind_Ok [->|Hin]%elem_of_cons; [|by eapply IH].
  cbn. split_and!; try done. lia.
Qed.

Lemma listed_title_intro inventory paths navigation files titles candidates c :
  navigation ∈ fi_Files inventory ->
  filepath.Base (path_at paths navigation) = "VIDEO_TS.IFO" ->
  discFiles (fi_Files inventory) paths (filepath.Dir (path_at paths navigation)) = Some files ->
  feature_titles (if_ID navigation) files titles = Ok candidates -> c ∈ candidates ->
  listed_title inventory c navigation files paths.
Proof.
  intros Hnav Hname Hdisc Hf Hc. unfold discFiles in Hdisc.
  apply bind_Some in Hdisc as (fs & (Hsub & Hin & Hall)%directory_files_Some & Hdisc).
  destruct (_ || _) eqn:Hcount; [done|]. injection Hdisc as <-.
  apply orb_false_iff in Hcount as [Hlo%bool_decide_eq_false Hhi%bool_decide_eq_false].
  pose proof (merge_sort_Permutation (path_le paths) fs) as Hperm.
  eapply feature_titles_Ok in Hc as (Hid & Hsrc & Hdur & Hang & Htitle & Htracks); [|done].
  unfold hasTitleFiles in Htitle. destruct (_ || _) eqn:Hset in Htitle; [done|].
  apply orb_false_iff in Hset as [H1%bool_decide_eq_false H2%bool_decide_eq_false].
  apply title_files_true in Htitle as [[?|Hifo] [?|Hvob]]; try done.
  split; try done.
  - rewrite Hperm, Hin. done.
  - rewrite Hperm. lia.
  - intros file. by rewrite Hperm, Hin.
  - intros Hnd. rewrite Hsrc, Hperm. eapply sublist_NoDup; [done|].
    by apply (fmap_sublist if_ID).
  - by rewrite Hperm.
  - split_and!; try done; lia.
  - intros suffix [->|[->|[]%not_elem_of_nil]%elem_of_cons]%elem_of_cons; done.
Qed.

Lemma identify_discs_Ok contextErr IdentifyDVD inventory navigation paths candidates c :
  navigation ⊆ fi_Files inventory ->
  identify_discs contextErr IdentifyDVD navigation (fi_Files inventory) paths = Ok candidates ->
  c ∈ candidates -> exists file files, listed_title inventory c file files paths.
Proof.
  intros Hsub. revert candidates. induction navigation as [|f navigation IH]; intros candidates;
    cbn [identify_discs].
  { intros [= <-]. by intros ?%not_elem_of_nil. }
  destruct (contextErr f); [done|].
  assert (navigation ⊆ fi_Files inventory) as Hrest by set_solver.
  destruct (available f) eqn:Ha; cbn [negb]; [|by apply IH].
  intros (? & Hp%fail_if_Ok & H)%bind_Ok.
  apply orb_false_iff in Hp as [_ Hname%negb_false_iff%bool_decide_eq_true].
  destruct (discFiles _ _ _) as [files|] eqn:Hd; [|by apply IH].
  apply bind_Ok in H as (titles & _ & (cs & Hcs & (others & Ho & [= <-])%bind_Ok)%bind_Ok).
  intros [Hc|Hc]%elem_of_app; [|by eapply IH]. exists f, files.
  eapply listed_title_intro; [|done..]. apply Hsub. by left.
Qed.

(** A listed DVD title runs twenty minutes or more at one angle with video and
    audio; its sources are exactly the files of the inventory beside its
    navigation file [VIDEO_TS.IFO], between three and 1,024 of them, each once,
    complete and named as a DVD file, the navigation file and the first files
    of its title set among them. *)
Theorem listed_titles_complete (contextErr : InventoryFile -> option error)
    (IdentifyDVD : string -> string -> result (list Title)) (inventory : FileInventory)
    (candidates : list TitleCandidate) :
  ListFeatureTitles contextErr IdentifyDVD inventory = Ok candidates ->
  exists paths,
    (forall id path, paths !! id = Some path -> mkFilePathMapping id path ∈ fi_Paths inventory) /\
    Forall (fun c => exists navigation files, listed_title inventory c navigation files paths)
      candidates.
Proof.
  unfold ListFeatureTitles. intros (paths & Hpaths & (? & _ & (? & _ & H)%bind_Ok)%bind_Ok)%bind_Ok.
  exists paths. split.
  - intros id path Hl. destruct (index_paths_lookup _ _ _ _ _ Hpaths Hl) as [?|Hn]; [done|].
    by rewrite lookup_empty in Hn.
  - apply Forall_forall. intros c Hc. eapply identify_discs_Ok; [|done..].
    intros f Hf. rewrite merge_sort_Permutation in Hf. apply list_elem_of_In, List.filter_In in Hf as [Hf _].
    by apply list_elem_of_In.
Qed.
End titles.

(** ** Blu-ray playlists *)

Section playlists.
Import mkvmerge.

Lemma clip_ids_Some streamDir clipPaths files ids :
  clip_ids streamDir clipPaths files = Some ids ->
  Forall2 (fun path id => exists file, files !! path = Some file /\ if_ID file = id /\
    available file = true /\ filepath.Dir path = streamDir /\
    NumberedClip (filepath.Base path) = true) clipPaths ids.
Proof.
  revert ids. induction clipPaths as [|path clipPaths IH]; intros ids; cbn [clip_ids].
  { intros [= <-]. constructor. }
  destruct (negb _ || _ || _) eqn:Hp; [done|].
  apply orb_false_iff in Hp as [[_ Hd%negb_false_iff%bool_decide_eq_true]%orb_false_iff
    Hn%negb_false_iff].
  destruct (files !! path) as [file|] eqn:Hf; [|done].
  destruct (available file) eqn:Ha; [|done]. intros (rest & Hr & ->)%fmap_Some.
  constructor; [|by apply IH]. by exists file.
Qed.

(** A playlist of twenty minutes or more, with the clips that it plays. *)
Record listed_playlist (files : gmap string InventoryFile) (paths : gmap FileID string)
    (file : InventoryFile) (c : PlaylistCandidate) : Prop :=
  { lp_file : if_ID file = bc_PlaylistFileID c /\ available file = true;
    lp_feature : minimumFeatureMS <= pl_DurationMS (bc_Details c);
    lp_clips : Forall2 (fun path id => exists clip, files !! path = Some clip /\ if_ID clip = id /\
      available clip = true /\
      filepath.Dir path = filepath.Join (filepath.Dir (filepath.Dir (path_at paths file))) "STREAM" /\
      NumberedClip (filepath.Base path) = true) (pl_ClipPaths (bc_Details c)) (bc_ClipFileIDs c);
    lp_some : (0 < length (bc_ClipFileIDs c))%nat }.

Lemma identify_playlists_Ok contextErr Identify playlists files paths candidates :
  identify_playlists contextErr Identify playlists files paths = Ok candidates ->
  exists kept, kept `sublist_of` playlists /\ Forall2 (listed_playlist files paths) kept candidates.
Proof.
  revert candidates. induction playlists as [|f playlists IH]; intros candidates;
    cbn [identify_playlists].
  { intros [= <-]. exists []. split; constructor. }
  assert (identify_playlists contextErr Identify playlists files paths = Ok candidates ->
    exists kept, kept `sublist_of` f :: playlists /\
      Forall2 (listed_playlist files paths) kept candidates) as Hskip.
  { intros (kept & Hk & Hall)%IH. exists kept. split; [by apply sublist_cons|done]. }
  destruct (contextErr f); [done|]. destruct (available f) eqn:Ha; cbn [negb]; [|done].
  cbv zeta. intros (details & _ & H)%bind_Ok.
  destruct (bool_decide_reflect (pl_DurationMS details < minimumFeatureMS)); [by apply Hskip|].
  destruct (inventoryClips _ _ _) as [ids|] eqn:Hclips; [|by apply Hskip].
  apply bind_Ok in H as (others & (kept & Hk & Hall)%IH & [= <-]).
  exists (f :: kept). split; [by apply sublist_skip|]. constructor; [|done].
  unfold inventoryClips in Hclips. apply bind_Some in Hclips as (ids' & Hids%clip_ids_Some & Hclips).
  destruct (bool_decide_reflect (0 < length ids')%nat); [|done]. injection Hclips as ->.
  split; cbn; try done. lia.
Qed.
End playlists.
