(* ===== verification/CaseCodec.v ===== *)
(** * Encoding cases and decisions

    [contracts/encode.go] and [contracts/decode.go]: the identity of a case, and
    the messages that cross the boundary to the planner. encoding/json over the
    generated types, the embedded JSON schemas and the canonical form of the
    jcs package are the interface [RepairCodec]; what the package does with
    them is defined here. *)
From stdpp Require Import base strings list.
From S2P Require Import Prelude GoStrings GoCrypto CaseContracts Decisions.

(** What the case ID is calculated from: everything but the ID and the time of
    the observation. *)
Record caseIdentity := mkCaseIdentity
  { ci_Capabilities : list Capability; ci_Download : contracts.Download;
    ci_Files : list contracts.FileElement; ci_Radarr : contracts.Radarr;
    ci_SchemaVersion : string }.

(** The value that [decisionValue] hands to the encoder. *)
Inductive DecisionMessage :=
| NoRepairMessage (d : NoRepairDecision)
| JoinPartsMessage (d : JoinDecision)
| ManualImportFileMessage (d : ManualImportFileDecision)
| RemuxBlurayMessage (d : RemuxDecision)
| RemuxDVDMessage (d : RemuxDecision).

Class RepairCodec :=
  { MarshalCase : RepairCaseV3 -> result string;
    MarshalIdentity : caseIdentity -> result string;
    MarshalDecision : DecisionMessage -> result string;
    (** [validateJSON] with the schema of cases and of decisions. *)
    ValidCase : string -> result unit;
    ValidDecision : string -> result unit;
    (** [decodeStrict] into each type, and into the envelope with the action. *)
    UnmarshalCase : string -> result RepairCaseV3;
    UnmarshalAction : string -> result string;
    UnmarshalNoRepair : string -> result NoRepairDecision;
    UnmarshalJoinParts : string -> result JoinDecision;
    UnmarshalManualImportFile : string -> result ManualImportFileDecision;
    UnmarshalRemux : string -> result RemuxDecision;
    (** [jcs.Transform]. *)
    Canonicalize : string -> result string }.

Section codec.
Context {codec : RepairCodec}.

Definition case_identity (repairCase : RepairCaseV3) : caseIdentity :=
  mkCaseIdentity (rc_Capabilities repairCase) (rc_Download repairCase) (rc_Files repairCase)
    (rc_Radarr repairCase) (rc_SchemaVersion repairCase).

Definition canonicalCaseIdentity (repairCase : RepairCaseV3) : result string :=
  serialized ← MarshalIdentity (case_identity repairCase);
  Canonicalize serialized.

Definition CalculateCaseID (repairCase : RepairCaseV3) : result string :=
  canonical ← canonicalCaseIdentity repairCase;
  mret ("sha256:" +:+ sha256_hex (string_bytes canonical)).

Definition SameCaseIdentity (left right : RepairCaseV3) : result bool :=
  leftCanonical ← canonicalCaseIdentity left;
  rightCanonical ← canonicalCaseIdentity right;
  mret (bool_decide (leftCanonical = rightCanonical)).

Definition EncodeCase (repairCase : RepairCaseV3) : result string :=
  expectedID ← CalculateCaseID repairCase;
  _ ← fail_if (negb (bool_decide (rc_CaseID repairCase = expectedID)))
        "repair case ID does not match its planning evidence";
  data ← MarshalCase repairCase;
  _ ← ValidCase data;
  mret data.

Definition DecodeCase (data : string) : result RepairCaseV3 :=
  _ ← ValidCase data;
  UnmarshalCase data.

Definition decisionValue (decision : RepairDecisionV3) : result DecisionMessage :=
  let present {A} (o : option A) : Z := match o with Some _ => 1 | None => 0 end in
  let set := present (rdv_NoRepair decision) + present (rdv_JoinParts decision) +
    present (rdv_ManualImportFile decision) + present (rdv_RemuxBluray decision) +
    present (rdv_RemuxDVD decision) in
  _ ← fail_if (negb (bool_decide (set = 1))) "repair decision must contain exactly one action";
  let value {A} (f : A -> DecisionMessage) (o : option A) : result DecisionMessage :=
    match o with
    | Some d => Ok (f d)
    | None => Err "repair decision kind does not match its action"
    end in
  if bool_decide (rdv_Kind decision = ActionNoRepair)
  then value NoRepairMessage (rdv_NoRepair decision)
  else if bool_decide (rdv_Kind decision = ActionJoinParts)
  then value JoinPartsMessage (rdv_JoinParts decision)
  else if bool_decide (rdv_Kind decision = ActionManualImportFile)
  then value ManualImportFileMessage (rdv_ManualImportFile decision)
  else if bool_decide (rdv_Kind decision = ActionRemuxBluray)
  then value RemuxBlurayMessage (rdv_RemuxBluray decision)
  else if bool_decide (rdv_Kind decision = ActionRemuxDVD)
  then value RemuxDVDMessage (rdv_RemuxDVD decision)
  else Err "repair decision kind does not match its action".

Definition EncodeDecision (decision : RepairDecisionV3) : result string :=
  value ← decisionValue decision;
  data ← MarshalDecision value;
  _ ← ValidDecision data;
  mret data.

Definition DecodeDecision (data : string) : result RepairDecisionV3 :=
  _ ← ValidDecision data;
  action ← UnmarshalAction data;
  if bool_decide (action = ActionNoRepair) then
    decision ← UnmarshalNoRepair data;
    mret (mkRepairDecision ActionNoRepair (Some decision) None None None None)
  else if bool_decide (action = ActionJoinParts) then
    decision ← UnmarshalJoinParts data;
    mret (mkRepairDecision ActionJoinParts None (Some decision) None None None)
  else if bool_decide (action = ActionManualImportFile) then
    decision ← UnmarshalManualImportFile data;
    mret (mkRepairDecision ActionManualImportFile None None (Some decision) None None)
  else if bool_decide (action = ActionRemuxBluray) then
    decision ← UnmarshalRemux data;
    mret (mkRepairDecision ActionRemuxBluray None None None (Some decision) None)
  else if bool_decide (action = ActionRemuxDVD) then
    decision ← UnmarshalRemux data;
    mret (mkRepairDecision ActionRemuxDVD None None None None (Some decision))
  else Err "unsupported repair decision action".

(** A case is only encoded under the digest of its own evidence. *)
Lemma EncodeCase_Ok repairCase data :
  EncodeCase repairCase = Ok data <->
  CalculateCaseID repairCase = Ok (rc_CaseID repairCase) /\
  MarshalCase repairCase = Ok data /\ ValidCase data = Ok tt.
Proof.
  unfold EncodeCase. split.
  - intros (id & Hid & (u & Hu & (d & Hd & ([] & Hv & [= ->])%bind_Ok)%bind_Ok)%bind_Ok)%bind_Ok.
    apply fail_if_Ok, negb_false_iff, bool_decide_eq_true in Hu. by subst.
  - intros (-> & Hm & Hv). cbn. rewrite bool_decide_true by done. cbn. by rewrite Hm; cbn; rewrite Hv.
Qed.

(** What may go to the planner's decision record: one action, of the kind the
    decision declares. *)
Definition single_action (decision : RepairDecisionV3) : Prop :=
  (exists d, decision = mkRepairDecision ActionNoRepair (Some d) None None None None) \/
  (exists d, decision = mkRepairDecision ActionJoinParts None (Some d) None None None) \/
  (exists d, decision = mkRepairDecision ActionManualImportFile None None (Some d) None None) \/
  (exists d, decision = mkRepairDecision ActionRemuxBluray None None None (Some d) None) \/
  (exists d, decision = mkRepairDecision ActionRemuxDVD None None None None (Some d)).

Lemma DecodeDecision_single data decision :
  DecodeDecision data = Ok decision -> single_action decision.
Proof.
  unfold DecodeDecision. intros (u & _ & (action & _ & H)%bind_Ok)%bind_Ok.
  repeat match type of H with
         | (if ?b then _ else _) = _ => destruct b
         end; try discriminate;
  apply bind_Ok in H as (d & _ & [= <-]); unfold single_action; naive_solver.
Qed.

Lemma decisionValue_single decision value :
  decisionValue decision = Ok value -> single_action decision.
Proof.
  unfold decisionValue. intros (u & Hu%fail_if_Ok & H)%bind_Ok.
  apply negb_false_iff, bool_decide_eq_true in Hu.
  destruct decision as [kind a b c d e]; cbn in *.
  repeat match type of H with
         | (if bool_decide ?P then _ else _) = _ => destruct (bool_decide_reflect P)
         end; subst; try discriminate; unfold single_action;
  destruct a, b, c, d, e; try discriminate; try (cbv in Hu; discriminate); naive_solver.
Qed.
End codec.
