(* ===== verification/CaseEvidence.v ===== *)
(** * From observations to the evidence of a case

    [internal/casebuilder/probe.go] and [radarr.go], with the opaque
    identifiers of [assemble.go]: how probes, files, queue records, history and
    import listings become the planner's evidence. *)
From stdpp Require Import base strings list gmap pretty.
From S2P Require Import Prelude GoStrings GoCrypto FileIdentity Probe Media Radarr.
From S2P Require Import CaseContracts Decisions.

Module casebuilder.

(** ** Opaque identifiers (assemble.go) *)

Definition opaqueIDDomain : string := "radarr-repair-opaque-id-v1" +:+ bytes [0%nat].

(** What one value adds to the digest: its length and its bytes, each after a
    zero byte. *)
Definition opaque_field (value : string) : list Z :=
  0 :: string_bytes (pretty (Z.of_nat (String.length value))) ++ 0 :: string_bytes value.

Definition opaque_payload (kind : string) (values : list string) : list Z :=
  string_bytes opaqueIDDomain ++ string_bytes kind ++ flat_map opaque_field values.

Definition opaqueID (kind : string) (values : list string) : string :=
  kind +:+ ":" +:+ sha256_hex (opaque_payload kind values).

(** ** Probes (probe.go) *)

Definition mapRational (value : Rational) : contracts.FrameRate :=
  contracts.mkFrameRate (Numerator value) (Denominator value).

Definition mapOptionalRational (value : option Rational) : option contracts.FrameRate :=
  mapRational <$> value.

Fixpoint streamLanguage (tags : list ProbeTag) : option string :=
  match tags with
  | [] => None
  | tag :: rest =>
      if bool_decide (tag_Name tag = "language") then Some (tag_Value tag) else streamLanguage rest
  end.

(** [None] is an error that wraps [errIncompleteProbeMetadata], the only kind
    of error this function returns. *)
Definition mapStream (stream : ProbeStream) : option contracts.StreamElement :=
  kind ← ps_Kind stream;
  codecName ← ps_CodecName stream;
  timeBase ← ps_TimeBase stream;
  disposition ← ps_Disposition stream;
  default ← pd_Default disposition;
  forced ← pd_Forced disposition;
  hearing ← pd_HearingImpaired disposition;
  visual ← pd_VisualImpaired disposition;
  mret (contracts.mkStreamElement (ps_Index stream) kind codecName (ps_CodecTag stream)
    (ps_Profile stream) (mapRational timeBase) (ps_StartTimeMS stream) (ps_DurationMS stream)
    (ps_BitRateBPS stream) (streamLanguage (ps_Tags stream))
    (contracts.mkDisposition default forced hearing visual) (ps_Width stream) (ps_Height stream)
    (ps_PixelFormat stream) (mapOptionalRational (ps_AverageRate stream)) (ps_SampleRateHz stream)
    (ps_Channels stream) (ps_ChannelLayout stream)).

(** [slices.SortFunc] by stream index, as the insertion sort that it is for up
    to twelve streams. Streams with equal indexes, whose order a longer sort
    need not keep, are refused. *)
Fixpoint insert_stream (stream : ProbeStream) (sorted : list ProbeStream) : list ProbeStream :=
  match sorted with
  | [] => [stream]
  | first :: rest =>
      if bool_decide (ps_Index stream < ps_Index first) then stream :: sorted
      else first :: insert_stream stream rest
  end.

Definition sort_streams (streams : list ProbeStream) : list ProbeStream :=
  fold_left (fun sorted stream => insert_stream stream sorted) streams [].

(** The loop over the sorted streams; [previous] is the index of the one
    before. [Ok None] is an incomplete stream. *)
Fixpoint map_streams (previous : option Z) (streams : list ProbeStream)
    : result (option (list contracts.StreamElement)) :=
  match streams with
  | [] => Ok (Some [])
  | stream :: rest =>
      _ ← fail_if (bool_decide (previous = Some (ps_Index stream)))
            "probe contains duplicate stream index";
      match mapStream stream with
      | None => Ok None
      | Some mapped =>
          others ← map_streams (Some (ps_Index stream)) rest;
          mret (option_map (cons mapped) others)
      end
  end.

Definition duration_source_name (source : EffectiveDurationSource) : string :=
  match source with
  | DurationSourceFormat => "format"
  | DurationSourceLongestStream => "longest_stream"
  | DurationSourceConsistentFormatAndStream => "consistent_format_and_stream"
  | DurationSourceUnknown => "unknown"
  end.

(** [Ok None] is an error that wraps [errIncompleteProbeMetadata]. *)
Definition mapSuccessfulProbe (evidence : ProbeEvidence) (expectedSize : Z)
    : result (option contracts.Probe) :=
  match pf_SizeBytes (pe_Format evidence) with
  | None => Ok None
  | Some sizeBytes =>
      _ ← fail_if (negb (bool_decide (sizeBytes = expectedSize)))
            "probe format size does not match inventory size";
      let duration := AssessProbeDuration evidence in
      mappedStreams ← map_streams None (sort_streams (pe_Streams evidence));
      mret (match mappedStreams with
      | None => None
      | Some streams =>
          Some (contracts.mkProbe contracts.Ok None None
            (Some (contracts.mkFormatClass (pf_Names (pe_Format evidence)) (da_EffectiveMS duration)
               (duration_source_name (da_Source duration)) (da_FormatMS duration)
               (da_LongestStreamMS duration) sizeBytes (pf_BitRateBPS (pe_Format evidence))))
            streams)
      end)
  end.

Definition MediaProbeNotRegularFile : string := "not_regular_file".
Definition MediaProbeUnsupportedFormat : string := "unsupported_format".
Definition MediaProbeTimeout : string := "timeout".
Definition MediaProbeError : string := "probe_error".
Definition MediaProbeInvalidOutput : string := "invalid_output".
Definition MediaProbeIncompleteMetadata : string := "incomplete_metadata".
Definition MediaProbeNotCandidate : string := "not_probe_candidate".
Definition MediaProbeCollectionLimit : string := "collection_limit".

Definition failedProbeReason (reason : string) : bool :=
  bool_decide (reason ∈ [MediaProbeNotRegularFile; MediaProbeUnsupportedFormat; MediaProbeTimeout;
    MediaProbeError; MediaProbeInvalidOutput; MediaProbeIncompleteMetadata]).

Definition uncollectedProbeReason (reason : string) : bool :=
  bool_decide (reason = MediaProbeNotCandidate) || bool_decide (reason = MediaProbeCollectionLimit).

Definition probeSummary (reason : string) : string :=
  if bool_decide (reason = MediaProbeNotRegularFile)
  then "The worker did not observe a regular file."
  else if bool_decide (reason = MediaProbeUnsupportedFormat)
  then "ffprobe did not recognize a supported media format."
  else if bool_decide (reason = MediaProbeTimeout)
  then "Media probing reached its execution deadline."
  else if bool_decide (reason = MediaProbeError)
  then "ffprobe failed while inspecting the file."
  else if bool_decide (reason = MediaProbeInvalidOutput)
  then "ffprobe returned invalid structured metadata."
  else if bool_decide (reason = MediaProbeIncompleteMetadata)
  then "ffprobe omitted metadata required by the planner."
  else if bool_decide (reason = MediaProbeNotCandidate)
  then "The file was retained as evidence but was not eligible for probing."
  else if bool_decide (reason = MediaProbeCollectionLimit)
  then "The collection deadline was reached before the file could be probed."
  else "Media probe evidence is unavailable.".

Definition probe_status_name (status : MediaProbeStatus) : string :=
  match status with
  | MediaProbeSucceeded => "ok"
  | MediaProbeFailed => "failed"
  | MediaProbeNotCollected => "not_probed"
  end.

Definition unavailableProbe (status : MediaProbeStatus) (reason : string) : contracts.Probe :=
  contracts.mkProbe (probe_status_name status) (Some reason) (Some (probeSummary reason)) None [].

Definition mapProbe (outcome : MediaProbeOutcome) (expectedSize : Z) : result contracts.Probe :=
  match mpo_Status outcome with
  | MediaProbeSucceeded =>
      match mpo_Evidence outcome with
      | None => Err "successful probe outcome is incomplete"
      | Some evidence =>
          _ ← fail_if (negb (bool_decide (mpo_Reason outcome = "")))
                "successful probe outcome is incomplete";
          probe ← mapSuccessfulProbe evidence expectedSize;
          mret (match probe with
                | Some probe => probe
                | None => unavailableProbe MediaProbeFailed MediaProbeIncompleteMetadata
                end)
      end
  | MediaProbeFailed =>
      _ ← fail_if (negb (bool_decide (mpo_Evidence outcome = None)) ||
                   negb (failedProbeReason (mpo_Reason outcome)))
            "failed probe outcome is invalid";
      mret (unavailableProbe MediaProbeFailed (mpo_Reason outcome))
  | MediaProbeNotCollected =>
      _ ← fail_if (negb (bool_decide (mpo_Evidence outcome = None)) ||
                   negb (uncollectedProbeReason (mpo_Reason outcome)))
            "uncollected probe outcome is invalid";
      mret (unavailableProbe MediaProbeNotCollected (mpo_Reason outcome))
  end.

(** ** Files *)

Definition extension_name (extension : MediaExtension) : string :=
  match extension with
  | MediaExtensionTS => "ts"
  | MediaExtensionM2TS => "m2ts"
  | MediaExtensionMP4 => "mp4"
  | MediaExtensionMKV => "mkv"
  | MediaExtensionAVI => "avi"
  end.

Definition disposition_name (disposition : MediaFileDisposition) : string :=
  match disposition with
  | MediaFileProbeCandidate => "probe_candidate"
  | MediaFileEvidenceOnly => "evidence_only"
  end.

Definition exclusion_name (reason : MediaFileExclusionReason) : string :=
  match reason with
  | MediaFileUntracked => "untracked"
  | MediaFileUnwanted => "unwanted"
  | MediaFileIncomplete => "incomplete"
  | MediaFileEmpty => "empty"
  | MediaFileUnsupportedExtension => "unsupported_extension"
  end.

Definition mapFile (assessment : MediaFileAssessment) (outcome : MediaProbeOutcome)
    : result contracts.FileElement :=
  let file := mfa_File assessment in
  probe ← mapProbe outcome (SizeBytes (if_Fingerprint file));
  let not_candidate := bool_decide (mpo_Status outcome = MediaProbeNotCollected) &&
    bool_decide (mpo_Reason outcome = MediaProbeNotCandidate) in
  _ ← fail_if (ProbeCandidate assessment && not_candidate)
        "probe candidate was marked as ineligible for probing";
  _ ← fail_if (negb (ProbeCandidate assessment) && negb not_candidate)
        "evidence-only file has an invalid probe outcome";
  let membership :=
    (fun download =>
       contracts.mkDownloadMembership
         (if dfr_HasIndex download then Some (dfr_Index download) else None)
         (dfr_Selected download) (dfr_LengthBytes download) (dfr_BytesCompleted download))
    <$> if_DownloadFile file in
  mret (contracts.mkFileElement (if_ID file) (if_PathComponents file)
    (SizeBytes (if_Fingerprint file)) membership (StableFingerprint (if_Fingerprint file))
    (extension_name <$> mfa_Extension assessment) (disposition_name (mfa_Disposition assessment))
    (exclusion_name <$> mfa_ExclusionReason assessment) probe).

(** ** Radarr (radarr.go) *)

Definition maximumStatusMessages : nat := 32.
Definition maximumMessageDetails : nat := 16.

Definition qualityName (quality : option RadarrQualityModel) : option string :=
  (fun model => ql_Name (qm_Quality model)) <$> quality.

Definition languageNames (languages : list RadarrLanguage) : list string :=
  map lang_Name languages.

Definition optionalText (value : string) : option string :=
  if bool_decide (value = "") then None else Some value.

Definition mapRejectionType (value : string) : string :=
  if bool_decide (ToLower value = contracts.Permanent) then contracts.Permanent
  else if bool_decide (ToLower value = contracts.Temporary) then contracts.Temporary
  else contracts.TypeUnknown.

Definition mapMovie (movie : option RadarrMovie) : option contracts.MovieClass :=
  (fun movie =>
     contracts.mkMovieClass (mv_ID movie) (mv_TMDBID movie) (mv_IMDbID movie) (mv_Title movie)
       (mv_OriginalTitle movie) (mv_AlternateTitles movie) (mv_Year movie) (mv_RuntimeMinutes movie))
  <$> movie.

Record manualImportMatch := mkManualImportMatch
  { mm_File : InventoryFile; mm_AbsolutePath : string; mm_Import : RadarrManualImport }.

(** The path of each indexed file, read backwards. *)
Fixpoint index_path_ids (paths : list (FileID * string)) (pathIDs : gmap string FileID)
    : result (gmap string FileID) :=
  match paths with
  | [] => Ok pathIDs
  | (fileID, path) :: rest =>
      _ ← fail_if (bool_decide (is_Some (pathIDs !! path)))
            "multiple inventory files use local path";
      index_path_ids rest (<[path := fileID]> pathIDs)
  end.

Definition zero_InventoryFile : InventoryFile :=
  mkInventoryFile "" [] (mkSnapshot 0 0 0 0) None.

(** The loop over the listed imports; a lookup that misses reads a zero value. *)
Fixpoint match_imports (imports : list RadarrManualImport) (files : gmap FileID InventoryFile)
    (paths : gmap FileID string) (pathIDs : gmap string FileID) (seen : gset FileID)
    : result (list manualImportMatch) :=
  match imports with
  | [] => Ok []
  | item :: rest =>
      if IsPublishedName (filepath.Base (mi_Path item))
      then match_imports rest files paths pathIDs seen
      else match pathIDs !! mi_Path item with
      | None => Err "manual import path does not match the inventory"
      | Some fileID =>
          _ ← fail_if (bool_decide (fileID ∈ seen)) "multiple manual imports refer to file";
          let file := default zero_InventoryFile (files !! fileID) in
          _ ← fail_if (negb (bool_decide (mi_SizeBytes item = SizeBytes (if_Fingerprint file))))
                "manual import size does not match file";
          others ← match_imports rest files paths pathIDs ({[fileID]} ∪ seen);
          mret (mkManualImportMatch file (default "" (paths !! fileID)) item :: others)
      end
  end.

Definition matchManualImports (imports : list RadarrManualImport)
    (inventoryFiles : gmap FileID InventoryFile) (paths : gmap FileID string)
    : result (list manualImportMatch) :=
  pathIDs ← index_path_ids (map_to_list paths) ∅;
  match_imports imports inventoryFiles paths pathIDs ∅.

Definition map_rejections (fileID : FileID) (rejections : list RadarrManualImportRejection)
    : list contracts.RejectionElement :=
  imap (fun index rejection =>
    contracts.mkRejectionElement
      (opaqueID "evidence" ["manual_import"; fileID; pretty (Z.of_nat index)])
      (mapRejectionType (rj_Type rejection)) (rj_Reason rejection)) rejections.

Definition mapManualImports (matches : list manualImportMatch)
    : list contracts.ManualImportElement :=
  map (fun m =>
    let fileID := if_ID (mm_File m) in
    let item := mm_Import m in
    contracts.mkManualImportElement fileID (qualityName (mi_Quality item))
      (languageNames (mi_Languages item)) (optionalText (mi_ReleaseGroup item))
      (map_rejections fileID (mi_Rejections item))) matches.

Definition map_statuses (queueID : Z) (statuses : list RadarrStatusMessage)
    : list contracts.StatusMessageElement :=
  imap (fun index status =>
    contracts.mkStatusMessage
      (opaqueID "evidence" ["queue"; pretty queueID; pretty (Z.of_nat index)])
      (sm_Title status) (take maximumMessageDetails (sm_Messages status))
      (Z.of_nat (length (sm_Messages status))))
    (take maximumStatusMessages statuses).

Fixpoint map_history (failure : RadarrQueueRecord) (history : list RadarrHistoryEvent)
    : result (list contracts.HistoryElement) :=
  match history with
  | [] => Ok []
  | event :: rest =>
      _ ← fail_if (negb (bool_decide (q_MovieID failure = Some (he_MovieID event))))
            "history event refers to another movie";
      _ ← fail_if (negb (EqualFold (he_DownloadID event) (q_DownloadID failure)))
            "history event refers to another download";
      others ← map_history failure rest;
      mret (contracts.mkHistoryElement (opaqueID "evidence" ["history"; pretty (he_ID event)])
              (he_EventType event) (UTC (he_OccurredAt event)) (he_SourceTitle event)
              (qualityName (he_Quality event)) (languageNames (he_Languages event)) :: others)
  end.

Definition mapRadarr (observation : Observation) (downloadRef : string)
    (manualImports : list manualImportMatch) : result contracts.Radarr :=
  let failure := dc_Radarr (ob_Correlation observation) in
  history ← map_history failure (ob_History observation);
  mret (contracts.mkRadarr
    (contracts.mkFailure (q_ID failure) downloadRef (q_Title failure) (q_ErrorMessage failure)
       (q_Status failure) (q_TrackedDownloadStatus failure) (q_TrackedDownloadState failure)
       (map_statuses (q_ID failure) (q_StatusMessages failure))
       (Z.of_nat (length (q_StatusMessages failure))))
    (mapMovie (ob_Movie observation)) history (mapManualImports manualImports)).

End casebuilder.
