(* ===== verification/CaseAssembly.v ===== *)
(** * Case assembly

    [internal/casebuilder/assemble.go], [bluray.go], [dvd.go] and
    [equivalence.go]: a repair case is assembled from one observation, offers
    the capabilities that the observation supports, and keeps what the planner
    must not see in a local snapshot. *)
From stdpp Require Import base strings list gmap pretty.
From S2P Require Import Prelude GoStrings GoCrypto FileIdentity Probe Media Radarr WorkerContracts.
From S2P Require Import CaseContracts Decisions CaseCodec CaseEvidence.

Module assemble.
Import casebuilder.

(** [strings.Contains]. *)
Fixpoint Contains (s substr : string) : bool :=
  HasPrefix s substr ||
  match s with EmptyString => false | String _ rest => Contains rest substr end.

(** ** Indexes *)

Fixpoint index_files (files : list InventoryFile) (indexed : gmap FileID InventoryFile)
    : result (gmap FileID InventoryFile) :=
  match files with
  | [] => Ok indexed
  | file :: rest =>
      _ ← fail_if (bool_decide (if_ID file = "")) "inventory contains a file without an ID";
      _ ← fail_if (bool_decide (is_Some (indexed !! if_ID file))) "inventory contains duplicate file ID";
      index_files rest (<[if_ID file := file]> indexed)
  end.

Fixpoint index_paths (files : gmap FileID InventoryFile) (mappings : list FilePathMapping)
    (paths : gmap FileID string) : result (gmap FileID string) :=
  match mappings with
  | [] => Ok paths
  | mapping :: rest =>
      _ ← fail_if (negb (bool_decide (is_Some (files !! fpm_FileID mapping))))
            "local path refers to unknown file ID";
      _ ← fail_if (bool_decide (is_Some (paths !! fpm_FileID mapping)))
            "inventory contains duplicate path for file ID";
      _ ← fail_if (bool_decide (fpm_AbsolutePath mapping = "")) "file has an empty local path";
      index_paths files rest (<[fpm_FileID mapping := fpm_AbsolutePath mapping]> paths)
  end.

Definition indexInventory (inventory : FileInventory)
    : result (gmap FileID InventoryFile * gmap FileID string) :=
  files ← index_files (fi_Files inventory) ∅;
  paths ← index_paths files (fi_Paths inventory) ∅;
  mret (files, paths).

Fixpoint index_probes (probes : list FileProbe) (indexed : gmap FileID MediaProbeOutcome)
    : result (gmap FileID MediaProbeOutcome) :=
  match probes with
  | [] => Ok indexed
  | probe :: rest =>
      _ ← fail_if (bool_decide (fp_FileID probe = "")) "probe has no file ID";
      _ ← fail_if (bool_decide (is_Some (indexed !! fp_FileID probe))) "duplicate probe for file ID";
      index_probes rest (<[fp_FileID probe := fp_Outcome probe]> indexed)
  end.

Definition indexProbes (probes : list FileProbe) : result (gmap FileID MediaProbeOutcome) :=
  index_probes probes ∅.

(** ** Capabilities *)

Definition joinCapabilities (candidateFileIDs : list string) : list Capability :=
  if bool_decide (length candidateFileIDs < 2)%nat then []
  else [mkCapability (opaqueID "capability" (CapabilityActionJoinParts :: candidateFileIDs))
          CapabilityActionJoinParts None candidateFileIDs None [] None [] None None None None None
          None []].

Definition FormatBool (b : bool) : string := if b then "true" else "false".

Definition manual_import_identity (binding : RadarrManualImportBinding) : list string :=
  let file := bd_File binding in
  let quality := qm_Quality (cf_Quality file) in
  [CapabilityActionManualImportFile; bd_FileID binding;
   StableFingerprint (bd_ExpectedFingerprint binding); bd_ImportMode binding; cf_Path file;
   cf_FolderName file; pretty (ql_ID quality); ql_Name quality; ql_Source quality;
   pretty (ql_Resolution quality); ql_Modifier quality] ++
  match qm_Revision (cf_Quality file) with
  | None => ["revision:absent"]
  | Some revision =>
      ["revision:present"; pretty (qr_Version revision); pretty (qr_Real revision);
       FormatBool (qr_IsRepack revision)]
  end ++
  pretty (Z.of_nat (length (cf_Languages file))) ::
  flat_map (fun language => [pretty (lang_ID language); lang_Name language]) (cf_Languages file) ++
  [cf_ReleaseGroup file; pretty (cf_IndexerFlags file); cf_DownloadID file; pretty (cf_MovieID file)].

Definition manualImportCapabilityID (binding : RadarrManualImportBinding) : string :=
  opaqueID "capability" (manual_import_identity binding).

Definition manual_capability (binding : RadarrManualImportBinding) : Capability :=
  mkCapability (manualImportCapabilityID binding) CapabilityActionManualImportFile
    (Some (bd_FileID binding)) [] None [] None [] None None None None None None [].

Fixpoint bind_imports (matches : list manualImportMatch) (history : list RadarrHistoryEvent)
    (capabilities : list Capability) (bindings : gmap string RadarrManualImportBinding)
    : result (list Capability * gmap string RadarrManualImportBinding) :=
  match matches with
  | [] => Ok (capabilities, bindings)
  | m :: rest =>
      match BindRadarrManualImportFile (mm_File m) (mm_AbsolutePath m) (mm_Import m) history with
      | (Some binding, true) =>
          let capabilityID := manualImportCapabilityID binding in
          _ ← fail_if (bool_decide (is_Some (bindings !! capabilityID)))
                "duplicate manual import capability";
          bind_imports rest history (capabilities ++ [manual_capability binding])
            (<[capabilityID := binding]> bindings)
      | _ => bind_imports rest history capabilities bindings
      end
  end.

Definition bindManualImportCapabilities (matches : list manualImportMatch)
    (history : list RadarrHistoryEvent)
    : result (list Capability * gmap string RadarrManualImportBinding) :=
  bind_imports matches history [] ∅.

(** Blu-ray and DVD tracks are checked and mapped alike. *)
Definition map_track (invalid : error) (track : RemuxTrack) : result TrackElement :=
  _ ← fail_if (bool_decide (tr_Codec track = "") ||
        negb (bool_decide (tr_Kind track ∈ ["video"; "audio"; "subtitles"]))) invalid;
  mret (mkTrackElement (tr_Kind track) (tr_Codec track) (optionalText (tr_Language track))).

Fixpoint map_tracks (invalid : error) (tracks : list RemuxTrack) : result (list TrackElement) :=
  match tracks with
  | [] => Ok []
  | track :: rest =>
      mapped ← map_track invalid track;
      others ← map_tracks invalid rest;
      mret (mapped :: others)
  end.

Definition count_outside (low high : nat) {A} (l : list A) : bool :=
  bool_decide (length l < low)%nat || bool_decide (high < length l)%nat.

Definition mapBluRayTracks (tracks : list RemuxTrack) : result (list TrackElement) :=
  _ ← fail_if (count_outside 1 32 tracks) "Blu-ray playlist has an invalid track count";
  map_tracks "Blu-ray playlist has an invalid track" tracks.

(** The ID and stable fingerprint of each file, as the identity lists them. *)
Fixpoint clip_identity (files : gmap FileID InventoryFile) (clips : list FileID)
    : result (list string) :=
  match clips with
  | [] => Ok []
  | clipID :: rest =>
      match files !! clipID with
      | None => Err "Blu-ray clip is missing from inventory"
      | Some clip =>
          others ← clip_identity files rest;
          mret (clipID :: StableFingerprint (if_Fingerprint clip) :: others)
      end
  end.

Definition bind_playlist (files : gmap FileID InventoryFile) (seen : gset FileID)
    (playlist : PlaylistCandidate) : result Capability :=
  let details := bc_Details playlist in
  match files !! bc_PlaylistFileID playlist with
  | None => Err "Blu-ray playlist is missing or duplicated in inventory"
  | Some file =>
      _ ← fail_if (bool_decide (bc_PlaylistFileID playlist ∈ seen))
            "Blu-ray playlist is missing or duplicated in inventory";
      _ ← fail_if (count_outside 1 1024 (bc_ClipFileIDs playlist))
            "Blu-ray playlist has an invalid clip count";
      clips ← clip_identity files (bc_ClipFileIDs playlist);
      tracks ← mapBluRayTracks (pl_Tracks details);
      let identity := [CapabilityActionRemuxBluray; bc_PlaylistFileID playlist;
        StableFingerprint (if_Fingerprint file); pretty (pl_DurationMS details);
        pretty (pl_Chapters details)] ++ clips in
      mret (mkCapability (opaqueID "capability" identity) CapabilityActionRemuxBluray None []
        (Some (bc_PlaylistFileID playlist)) (bc_ClipFileIDs playlist) None [] None None None None
        (Some (pl_DurationMS details)) (Some (pl_Chapters details)) tracks)
  end.

Fixpoint bind_playlists (files : gmap FileID InventoryFile) (seen : gset FileID)
    (playlists : list PlaylistCandidate) : result (list Capability) :=
  match playlists with
  | [] => Ok []
  | playlist :: rest =>
      capability ← bind_playlist files seen playlist;
      others ← bind_playlists files ({[bc_PlaylistFileID playlist]} ∪ seen) rest;
      mret (capability :: others)
  end.

Definition bindBluRayCapabilities (playlists : list PlaylistCandidate)
    (files : gmap FileID InventoryFile) : result (list Capability) :=
  _ ← fail_if (bool_decide (128 < length playlists)%nat) "too many Blu-ray playlist candidates";
  bind_playlists files ∅ playlists.

Fixpoint source_identity (files : gmap FileID InventoryFile) (seen : gset FileID)
    (sources : list FileID) : result (list string) :=
  match sources with
  | [] => Ok []
  | fileID :: rest =>
      match files !! fileID with
      | None => Err "DVD title source is missing or duplicated"
      | Some file =>
          _ ← fail_if (bool_decide (fileID ∈ seen)) "DVD title source is missing or duplicated";
          others ← source_identity files ({[fileID]} ∪ seen) rest;
          mret (fileID :: StableFingerprint (if_Fingerprint file) :: others)
      end
  end.

Definition title_metadata_invalid (details : Title) : bool :=
  bool_decide (tt_Number details < 1) || bool_decide (tt_Number details > 128) ||
  negb (bool_decide (tt_Angles details = 1)) ||
  bool_decide (tt_TitleSet details < 1) || bool_decide (tt_TitleSet details > 99) ||
  bool_decide (tt_TitleInSet details < 1) || bool_decide (tt_TitleInSet details > 99) ||
  bool_decide (tt_DurationMS details <= 0) || bool_decide (tt_Chapters details <= 0).

Definition bind_title (files : gmap FileID InventoryFile) (title : TitleCandidate)
    : result Capability :=
  let details := tc_Details title in
  match files !! tc_NavigationFileID title with
  | None => Err "DVD title has incomplete source inventory"
  | Some navigation =>
      _ ← fail_if (count_outside 1 1024 (tc_SourceFileIDs title))
            "DVD title has incomplete source inventory";
      _ ← fail_if (title_metadata_invalid details) "DVD title has invalid navigation metadata";
      tracks ← map_tracks "DVD title has an invalid track" (tt_Tracks details);
      _ ← fail_if (count_outside 1 32 tracks) "DVD title has an invalid track count";
      sources ← source_identity files ∅ (tc_SourceFileIDs title);
      _ ← fail_if (negb (bool_decide (tc_NavigationFileID title ∈ tc_SourceFileIDs title)))
            "DVD navigation file is not bound to title sources";
      let identity := [CapabilityActionRemuxDVD; tc_NavigationFileID title;
        StableFingerprint (if_Fingerprint navigation); pretty (tt_Number details);
        pretty (tt_TitleSet details); pretty (tt_TitleInSet details);
        pretty (tt_DurationMS details); pretty (tt_Chapters details)] ++ sources in
      mret (mkCapability (opaqueID "capability" identity) CapabilityActionRemuxDVD None [] None []
        (Some (tc_NavigationFileID title)) (tc_SourceFileIDs title) (Some (tt_Number details))
        (Some (tt_TitleSet details)) (Some (tt_TitleInSet details)) (Some (tt_Angles details))
        (Some (tt_DurationMS details)) (Some (tt_Chapters details)) tracks)
  end.

Fixpoint bind_titles (files : gmap FileID InventoryFile) (titles : list TitleCandidate)
    : result (list Capability) :=
  match titles with
  | [] => Ok []
  | title :: rest =>
      capability ← bind_title files title;
      others ← bind_titles files rest;
      mret (capability :: others)
  end.

Definition bindDVDCapabilities (titles : list TitleCandidate)
    (files : gmap FileID InventoryFile) : result (list Capability) :=
  _ ← fail_if (bool_decide (128 < length titles)%nat) "too many DVD title candidates";
  bind_titles files titles.

(** ** The request *)

Definition ownership_name (ownership : DownloadContentOwnership) : string :=
  match ownership with
  | DownloadContentManifest => "manifest"
  | DownloadContentOutputTree => "output_tree"
  | DownloadContentOther => ""
  end.

Definition mapDownload (download : Download) (downloadRef : string) (fileCount : nat)
    : contracts.Download :=
  contracts.mkDownload (dl_SourceType download) (dl_Client download) downloadRef (dl_Name download)
    (ownership_name (dl_ContentOwnership download)) (dl_TotalSizeBytes download)
    (Z.of_nat fileCount) (dl_Complete download) (UTC <$> dl_CompletedAt download)
    (dl_Labels download).

Definition localPaths (observation : Observation) : list string :=
  let correlation := ob_Correlation observation in
  [dc_DownloadRoot correlation; q_OutputPath (dc_Radarr correlation);
   dl_OutputPath (dc_Download correlation)] ++
  map df_Path (dl_Files (dc_Download correlation)) ++
  map fpm_AbsolutePath (fi_Paths (ob_Inventory observation)) ++
  map mi_Path (ob_ManualImports observation).

Definition joinable (assessment : MediaFileAssessment) (mapped : contracts.FileElement) : bool :=
  ProbeCandidate assessment &&
  bool_decide (contracts.pb_Status (contracts.fe_Probe mapped) = contracts.Ok) &&
  SupportsJoinPartsPath (if_PathComponents (mfa_File assessment)).

(** The loop over the files: the IDs a join may use, and the file evidence. *)
Fixpoint map_files (assessments : list MediaFileAssessment) (paths : gmap FileID string)
    (probes : gmap FileID MediaProbeOutcome) : result (list string * list contracts.FileElement) :=
  match assessments with
  | [] => Ok ([], [])
  | assessment :: rest =>
      let fileID := if_ID (mfa_File assessment) in
      _ ← fail_if (negb (bool_decide (is_Some (paths !! fileID)))) "inventory file has no local path";
      match probes !! fileID with
      | None => Err "inventory file has no probe outcome"
      | Some outcome =>
          mapped ← mapFile assessment outcome;
          '(candidates, files) ← map_files rest paths probes;
          mret ((if joinable assessment mapped then [contracts.fe_FileID mapped] else []) ++ candidates,
                mapped :: files)
      end
  end.

Definition movie_mismatch (observation : Observation) : bool :=
  match ob_Movie observation with
  | None => false
  | Some movie =>
      negb (bool_decide (q_MovieID (dc_Radarr (ob_Correlation observation)) = Some (mv_ID movie)))
  end.

Section assembly.
Context {codec : RepairCodec}.

Definition rejectLocalValues (request : RepairCaseV3) (observation : Observation) : result unit :=
  encoded ← MarshalCase request;
  _ ← fail_if (existsb (fun path => negb (bool_decide (path = "")) && Contains encoded path)
                 (localPaths observation))
        "planner request contains a local path";
  fail_if (existsb (fun identifier =>
             negb (bool_decide (identifier = "")) && Contains (ToLower encoded) (ToLower identifier))
             [q_DownloadID (dc_Radarr (ob_Correlation observation));
              dl_ID (dc_Download (ob_Correlation observation))])
    "planner request contains a raw download identifier".

(** The capabilities of an observation whose files are mapped, with the
    bindings that stay local. *)
Definition offer (observation : Observation) (candidateFileIDs : list string)
    (inventoryFiles : gmap FileID InventoryFile) (manualImports : list manualImportMatch)
    : result (list Capability * gmap string RadarrManualImportBinding) :=
  '(manualImportCapabilities, manualImportBindings) ←
     bindManualImportCapabilities manualImports (ob_History observation);
  bluRayCapabilities ← bindBluRayCapabilities (ob_BluRayPlaylists observation) inventoryFiles;
  dvdCapabilities ← bindDVDCapabilities (ob_DVDTitles observation) inventoryFiles;
  mret (joinCapabilities candidateFileIDs ++ manualImportCapabilities ++ bluRayCapabilities ++
          dvdCapabilities, manualImportBindings).

Definition Assemble (observation : Observation) : result Assembly :=
  _ ← fail_if (IsZero (ob_ObservedAt observation)) "observation time is missing";
  _ ← fail_if (negb (correlation_Eligible (ob_Correlation observation)))
        "download correlation is ineligible";
  _ ← fail_if (movie_mismatch observation) "Radarr movie does not match the queue record";
  '(inventoryFiles, paths) ← indexInventory (ob_Inventory observation);
  probes ← indexProbes (ob_Probes observation);
  '(candidateFileIDs, files) ←
     map_files (ClassifyMediaFiles (ob_Inventory observation)) paths probes;
  _ ← fail_if (negb (bool_decide (size probes = length files)))
        "probe outcomes do not exactly match inventory files";
  let download := dc_Download (ob_Correlation observation) in
  let downloadRef := opaqueID "download" [dl_ID download] in
  manualImports ← matchManualImports (ob_ManualImports observation) inventoryFiles paths;
  radarrEvidence ← mapRadarr observation downloadRef manualImports;
  '(capabilities, manualImportBindings) ←
     offer observation candidateFileIDs inventoryFiles manualImports;
  let request := mkRepairCase contracts.RadarrRepairV3 "" (UTC (ob_ObservedAt observation))
    radarrEvidence (mapDownload download downloadRef (length files)) files capabilities in
  _ ← rejectLocalValues request observation;
  caseID ← CalculateCaseID request;
  let request := mkRepairCase (rc_SchemaVersion request) caseID (rc_ObservedAt request)
    (rc_Radarr request) (rc_Download request) (rc_Files request) (rc_Capabilities request) in
  encoded ← EncodeCase request;
  mret (mkAssembly request encoded
    (mkLocalSnapshot caseID observation manualImportBindings)).
End assembly.

(** ** Equivalence (equivalence.go) *)

Definition without_codes (item : RadarrManualImport) : RadarrManualImport :=
  mkManualImport (mi_Path item) (mi_RelativePath item) (mi_FolderName item) (mi_SizeBytes item)
    (mi_MovieID item) (mi_DownloadID item) (mi_Quality item) (mi_Languages item)
    (mi_ReleaseGroup item) (mi_IndexerFlags item)
    (map (fun r => mkManualImportRejection "" (rj_Type r) (rj_Reason r)) (mi_Rejections item)).

Definition withoutManualImportRejectionCodes (snapshot : LocalSnapshot) : LocalSnapshot :=
  let o := ls_Observation snapshot in
  mkLocalSnapshot (ls_CaseID snapshot)
    (mkObservation (ob_ObservedAt o) (ob_Correlation o) (ob_Movie o) (ob_History o)
       (map without_codes (ob_ManualImports o)) (ob_Inventory o) (ob_Probes o)
       (ob_BluRayPlaylists o) (ob_DVDTitles o))
    (ls_ManualImportBindings snapshot).

Definition request_observed_at (at_ : time) (request : RepairCaseV3) : RepairCaseV3 :=
  mkRepairCase (rc_SchemaVersion request) (rc_CaseID request) at_ (rc_Radarr request)
    (rc_Download request) (rc_Files request) (rc_Capabilities request).

Definition snapshot_observed_at (at_ : time) (snapshot : LocalSnapshot) : LocalSnapshot :=
  let o := ls_Observation snapshot in
  mkLocalSnapshot (ls_CaseID snapshot)
    (mkObservation at_ (ob_Correlation o) (ob_Movie o) (ob_History o) (ob_ManualImports o)
       (ob_Inventory o) (ob_Probes o) (ob_BluRayPlaylists o) (ob_DVDTitles o))
    (ls_ManualImportBindings snapshot).

Definition SameCaseState (left right : Assembly) : bool :=
  let rightRequest := as_Request right in
  let leftRequest := request_observed_at (rc_ObservedAt rightRequest) (as_Request left) in
  let rightSnapshot := as_LocalSnapshot right in
  let leftSnapshot :=
    snapshot_observed_at (ob_ObservedAt (ls_Observation rightSnapshot)) (as_LocalSnapshot left) in
  bool_decide (leftRequest = rightRequest) &&
  bool_decide (withoutManualImportRejectionCodes leftSnapshot =
               withoutManualImportRejectionCodes rightSnapshot).

(** ** What a successful assembly went through *)

Section assembled.
Context {codec : RepairCodec}.

Definition without_id (request : RepairCaseV3) : RepairCaseV3 :=
  mkRepairCase (rc_SchemaVersion request) "" (rc_ObservedAt request) (rc_Radarr request)
    (rc_Download request) (rc_Files request) (rc_Capabilities request).

Record assembled (observation : Observation) (assembly : Assembly)
    (inventoryFiles : gmap FileID InventoryFile) (paths : gmap FileID string)
    (probes : gmap FileID MediaProbeOutcome) (candidateFileIDs : list string)
    (manualImports : list manualImportMatch) : Prop :=
  { asm_observed : IsZero (ob_ObservedAt observation) = false;
    asm_eligible : correlation_Eligible (ob_Correlation observation) = true;
    asm_movie : movie_mismatch observation = false;
    asm_inventory : indexInventory (ob_Inventory observation) = Ok (inventoryFiles, paths);
    asm_probes : indexProbes (ob_Probes observation) = Ok probes;
    asm_files : map_files (ClassifyMediaFiles (ob_Inventory observation)) paths probes =
      Ok (candidateFileIDs, rc_Files (as_Request assembly));
    asm_count : size probes = length (rc_Files (as_Request assembly));
    asm_imports : matchManualImports (ob_ManualImports observation) inventoryFiles paths =
      Ok manualImports;
    asm_radarr : mapRadarr observation
      (opaqueID "download" [dl_ID (dc_Download (ob_Correlation observation))]) manualImports =
      Ok (rc_Radarr (as_Request assembly));
    asm_offer : offer observation candidateFileIDs inventoryFiles manualImports =
      Ok (rc_Capabilities (as_Request assembly),
          ls_ManualImportBindings (as_LocalSnapshot assembly));
    asm_local : rejectLocalValues (without_id (as_Request assembly)) observation = Ok tt;
    asm_id : CalculateCaseID (as_Request assembly) = Ok (rc_CaseID (as_Request assembly));
    asm_encoded : EncodeCase (as_Request assembly) = Ok (as_EncodedRequest assembly);
    asm_snapshot : ls_CaseID (as_LocalSnapshot assembly) = rc_CaseID (as_Request assembly);
    asm_observation : ls_Observation (as_LocalSnapshot assembly) = observation }.

Lemma case_assembled observation assembly :
  Assemble observation = Ok assembly ->
  exists inventoryFiles paths probes candidateFileIDs manualImports,
    assembled observation assembly inventoryFiles paths probes candidateFileIDs manualImports.
Proof.
  unfold Assemble.
  intros (? & Ht%fail_if_Ok & (? & He%fail_if_Ok & (? & Hm%fail_if_Ok & H)%bind_Ok)%bind_Ok)%bind_Ok.
  apply bind_Ok in H as ([inventoryFiles paths] & Hi & (probes & Hp & H)%bind_Ok).
  apply bind_Ok in H as ([candidates files] & Hf & (? & Hc%fail_if_Ok & H)%bind_Ok).
  apply bind_Ok in H as (imports & Hmi & (radarr & Hr & H)%bind_Ok).
  apply bind_Ok in H as ([capabilities bindings] & Ho & H).
  apply bind_Ok in H as ([] & Hl & (id & Hid & (encoded & Hen & [= <-])%bind_Ok)%bind_Ok).
  apply negb_false_iff in He. apply negb_false_iff, bool_decide_eq_true in Hc.
  exists inventoryFiles, paths, probes, candidates, imports. by constructor.
Qed.
End assembled.

End assemble.
