(* ===== verification/CaseIdentity.v ===== *)
(** * What an opaque identifier identifies

    The digests of [internal/casebuilder/assemble.go] are taken over kinds and
    values that are written with their lengths. The lemmas here read such a
    text back, so that two identifiers agree only for equal values, or for a
    collision of SHA-256. *)
From stdpp Require Import base strings list gmap pretty.
From Stdlib Require Import Ascii.
From S2P Require Import Prelude GoStrings GoCrypto FileIdentity Probe Media Radarr WorkerContracts.
From S2P Require Import CaseContracts Decisions CaseCodec CaseEvidence CaseAssembly.
Import casebuilder assemble.

(** ** Bytes of decimal numbers *)

Lemma string_bytes_app a b : string_bytes (a +:+ b) = string_bytes a ++ string_bytes b.
Proof.
  induction a as [|c a IH]; [done|].
  rewrite string_app_cons, !string_bytes_cons, IH. done.
Qed.

Lemma string_bytes_inj a b : string_bytes a = string_bytes b -> a = b.
Proof.
  revert b. induction a as [|c a IH]; intros [|d b]; try done.
  rewrite !string_bytes_cons. intros [= Hc Hb]. f_equal; [|by apply IH].
  rewrite <-(ascii_nat_embedding c), <-(ascii_nat_embedding d). f_equal. lia.
Qed.

Lemma string_bytes_length s : length (string_bytes s) = String.length s.
Proof. induction s as [|c s IH]; [done|]. rewrite string_bytes_cons. cbn. by rewrite IH. Qed.

Lemma pretty_N_go_nonzero x s :
  0 ∉ string_bytes s -> 0 ∉ string_bytes (pretty_N_go x s).
Proof.
  revert s. induction (N.lt_wf_0 x) as [x _ IH]; intros s Hs.
  destruct (decide (x = 0)%N) as [->|Hx]; [by rewrite pretty_N_go_0|].
  rewrite pretty_N_go_step by lia. apply IH; [apply N.div_lt; lia|].
  rewrite string_bytes_cons. apply not_elem_of_cons. split; [|done].
  unfold pretty_N_char. by repeat case_match.
Qed.

(** A length is written in digits, so a zero byte ends it. *)
Lemma pretty_nonzero n : 0 ∉ string_bytes (pretty (Z.of_nat n)).
Proof.
  unfold pretty, pretty_Z. destruct (Z.of_nat n) eqn:E; [| |lia].
  - apply (bool_decide_unpack _). by vm_compute.
  - unfold pretty, pretty_positive, pretty, pretty_N. case_decide; [done|].
    apply pretty_N_go_nonzero. apply not_elem_of_nil.
Qed.

(** Two texts without zero bytes, each followed by a zero byte or the end. *)
Lemma zero_terminated_inj (a b r s : list Z) :
  0 ∉ a -> 0 ∉ b -> (r = [] \/ exists r', r = 0 :: r') -> (s = [] \/ exists s', s = 0 :: s') ->
  a ++ r = b ++ s -> a = b /\ r = s.
Proof.
  revert b. induction a as [|x a IH]; intros [|y b] Ha Hb Hr Hs; cbn.
  - done.
  - intros ->. destruct Hr as [|[? [= -> ?]]]; [done|]. by destruct Hb; left.
  - intros <-. destruct Hs as [|[? [= -> ?]]]; [done|]. by destruct Ha; left.
  - intros [= -> Heq]. apply not_elem_of_cons in Ha as [_ Ha], Hb as [_ Hb].
    destruct (IH b Ha Hb Hr Hs Heq) as [-> ->]. done.
Qed.

Lemma opaque_fields_start values :
  flat_map opaque_field values = [] \/ exists r, flat_map opaque_field values = 0 :: r.
Proof. destruct values; [by left|]. right. by eexists. Qed.

Lemma opaque_fields_inj vs ws :
  flat_map opaque_field vs = flat_map opaque_field ws -> vs = ws.
Proof.
  revert ws. induction vs as [|v vs IH]; intros [|w ws]; try done.
  cbn [flat_map]. unfold opaque_field at 1 3. cbn [app]. intros [= H].
  rewrite <-!app_assoc in H. cbn [app] in H.
  apply zero_terminated_inj in H as [Hlen [= H]];
    [|apply pretty_nonzero|apply pretty_nonzero|by right; eexists|by right; eexists].
  apply string_bytes_inj, (inj pretty), Nat2Z.inj in Hlen.
  apply app_inj_1 in H as [Hv H]; [|by rewrite !string_bytes_length].
  apply string_bytes_inj in Hv as ->. f_equal. by apply IH.
Qed.

Definition no_zero (kind : string) : Prop := 0 ∉ string_bytes kind.

(** What is hashed determines the kind and every value. *)
Lemma opaque_payload_inj kind kind' vs ws :
  no_zero kind -> no_zero kind' ->
  opaque_payload kind vs = opaque_payload kind' ws -> kind = kind' /\ vs = ws.
Proof.
  unfold opaque_payload. intros Hk Hk' H. apply app_inv_head in H.
  apply zero_terminated_inj in H as [Heq%string_bytes_inj Hf%opaque_fields_inj];
    auto using opaque_fields_start.
Qed.

(** ** Manual-import identities *)

Lemma languages_inj (ls ms : list RadarrLanguage) (r s : list string) :
  length ls = length ms ->
  flat_map (fun l => [pretty (lang_ID l); lang_Name l]) ls ++ r =
  flat_map (fun l => [pretty (lang_ID l); lang_Name l]) ms ++ s -> ls = ms /\ r = s.
Proof.
  revert ms. induction ls as [|[i n] ls IH]; intros [|[j m] ms]; try done. cbn.
  intros [= Hlen] [= Hi%(inj pretty) -> H]. destruct (IH ms Hlen H) as [-> ->]. by subst.
Qed.

(** What a manual-import capability identifies about its binding. *)
Definition same_import (b c : RadarrManualImportBinding) : Prop :=
  bd_FileID b = bd_FileID c /\
  StableFingerprint (bd_ExpectedFingerprint b) = StableFingerprint (bd_ExpectedFingerprint c) /\
  bd_ImportMode b = bd_ImportMode c /\ bd_File b = bd_File c.

Lemma FormatBool_inj a b : FormatBool a = FormatBool b -> a = b.
Proof. by destruct a, b. Qed.

Lemma manual_import_identity_inj b c :
  manual_import_identity b = manual_import_identity c -> same_import b c.
Proof.
  destruct b as [id fp mode [path folder [[qi qn qs qres qmod] rev] langs group flags dl movie]],
    c as [id' fp' mode' [path' folder' [[qi' qn' qs' qres' qmod'] rev'] langs' group' flags' dl' movie']].
  unfold manual_import_identity, same_import. cbn -[StableFingerprint pretty flat_map app].
  generalize (StableFingerprint fp) (StableFingerprint fp'). intros f f' H.
  apply app_inj_1 in H as [Hhead H]; [|done].
  injection Hhead as -> -> -> -> -> Hqi%(inj pretty) -> -> Hres%(inj pretty) ->. subst qi' qres'.
  assert (rev = rev' /\ langs = langs' /\
    [group; pretty flags; dl; pretty movie] = [group'; pretty flags'; dl'; pretty movie'])
    as (-> & -> & [= -> Hflags%(inj pretty) -> Hmovie%(inj pretty)]).
  { destruct rev as [[v r p]|], rev' as [[v' r' p']|]; cbn -[pretty flat_map] in H;
      try discriminate H.
    - injection H as Hv%(inj pretty) Hr%(inj pretty) Hp%FormatBool_inj Hn%(inj pretty) H.
      apply Nat2Z.inj in Hn. apply languages_inj in H as [-> Hl]; [|done]. by subst.
    - injection H as Hn%(inj pretty) H. apply Nat2Z.inj in Hn.
      by apply languages_inj in H as [-> Hl]. }
  by subst.
Qed.

(** ** Identifiers *)

Lemma hex_digit_inj m n : 0 <= m < 16 -> 0 <= n < 16 -> hex_digit m = hex_digit n -> m = n.
Proof.
  intros Hm Hn H%(f_equal nat_of_ascii). unfold hex_digit in H.
  destruct (bool_decide_reflect (m < 10)), (bool_decide_reflect (n < 10));
    rewrite nat_ascii_embedding, nat_ascii_embedding in H by lia; lia.
Qed.

Lemma hex_encode_inj bs cs :
  Forall is_byte bs -> Forall is_byte cs -> hex_encode bs = hex_encode cs -> bs = cs.
Proof.
  intros Hbs. revert cs. induction Hbs as [|b bs Hb _ IH]; intros [|c cs] Hcs; try done.
  apply Forall_cons in Hcs as [Hc Hcs]. cbn [hex_encode]. intros [= Hhi Hlo H].
  unfold is_byte in *.
  assert (b / 16 = c / 16) by (apply hex_digit_inj; [| |done]; split;
    [apply Z.div_pos; lia|apply Z.div_lt_upper_bound; lia|apply Z.div_pos; lia|
     apply Z.div_lt_upper_bound; lia]).
  assert (b mod 16 = c mod 16) by (apply hex_digit_inj; [| |done]; apply Z.mod_pos_bound; lia).
  f_equal; [|by apply IH]. rewrite (Z.div_mod b 16), (Z.div_mod c 16) by lia. congruence.
Qed.

(** Two different byte sequences with the same SHA-256 digest. *)
Definition sha256_collision (x y : list Z) : Prop :=
  x <> y /\ sha256.Sum256 x = sha256.Sum256 y.

(** Identifiers of one kind agree only for equal values. *)
Lemma opaqueID_inj kind vs ws :
  no_zero kind -> opaqueID kind vs = opaqueID kind ws ->
  vs = ws \/ sha256_collision (opaque_payload kind vs) (opaque_payload kind ws).
Proof.
  unfold opaqueID, sha256_hex. intros Hk H. do 2 apply (inj (String.append _)) in H.
  apply hex_encode_inj in H; [|apply Sum256_byte..].
  destruct (decide (opaque_payload kind vs = opaque_payload kind ws)) as [Heq|Hne].
  - left. by eapply opaque_payload_inj in Heq as [_ ->].
  - right. split; assumption.
Qed.

(** * What the planner may see

    [rejectLocalValues] of [internal/casebuilder/assemble.go] looks for local
    paths in the JSON text of a request. The lemmas follow such a path through
    the escaping of encoding/json: the check finds every occurrence of a path
    whose characters are written unchanged, and misses others. *)

(** ** Substrings *)

Lemma HasPrefix_spec s p : HasPrefix s p = true <-> exists b, s = p +:+ b.
Proof.
  unfold HasPrefix. split; [|by intros [b ->]; apply prefix_app].
  revert p. induction s as [|d s IH]; intros [|c p]; cbn [String.prefix]; try done.
  - intros _. by exists "".
  - intros _. by exists (String d s).
  - destruct (ascii_dec c d) as [->|]; [|done]. intros [b ->]%IH. exists b. by rewrite string_app_cons.
Qed.

Lemma Contains_spec s p : Contains s p = true <-> exists a b, s = a +:+ p +:+ b.
Proof.
  induction s as [|c s IH].
  - cbn [Contains]. rewrite orb_false_r, HasPrefix_spec. split.
    + intros [b H]. by exists "", b.
    + intros ([|d a] & b & H); [by exists b|]. by rewrite string_app_cons in H.
  - cbn [Contains]. rewrite orb_true_iff, HasPrefix_spec, IH. split.
    + intros [[b H]|(a & b & ->)]; [by exists "", b|]. exists (String c a), b. by rewrite string_app_cons.
    + intros ([|d a] & b & H); [left; by exists b|]. right. exists a, b.
      rewrite string_app_cons in H. by injection H.
Qed.

Lemma Contains_trans s p q : Contains s p = true -> Contains p q = true -> Contains s q = true.
Proof.
  rewrite !Contains_spec. intros (a & b & ->) (c & d & ->). exists (a +:+ c), (d +:+ b).
  by rewrite !string_app_assoc.
Qed.

(** ** Escaping *)

(** A byte that encoding/json writes as it is. *)
Definition plain_byte (b : Z) : bool :=
  (32 <=? b) && (b <=? 126) && negb (bool_decide (b ∈ [34; 38; 60; 62; 92])).

Definition plain (s : string) : bool := forallb plain_byte (string_bytes s).

Lemma plain_ascii b : plain_byte b = true -> 0 <= b < 128.
Proof. unfold plain_byte. rewrite !andb_true_iff. lia. Qed.

Lemma escape_plain_byte b : plain_byte b = true -> json.escape_ascii b = json.raw [b].
Proof.
  unfold plain_byte, json.escape_ascii. rewrite !andb_true_iff, negb_true_iff, bool_decide_eq_false.
  intros [[Hlo Hhi] Hne]. rewrite !elem_of_cons in Hne.
  rewrite !bool_decide_eq_false_2 by (try lia; naive_solver).
  by replace (b <? 32) with false by lia.
Qed.

Lemma raw_string_bytes s : json.raw (string_bytes s) = s.
Proof.
  induction s as [|c s IH]; [done|]. rewrite string_bytes_cons. cbn [json.raw fold_right].
  rewrite Nat2Z.id, ascii_nat_embedding. f_equal. apply IH.
Qed.

Lemma raw_app a b : json.raw (a ++ b) = json.raw a +:+ json.raw b.
Proof.
  induction a as [|x a IH]; [done|]. cbn [app]. unfold json.raw in *. cbn [fold_right].
  by rewrite IH, string_app_cons.
Qed.

Lemma rune_len_ascii b rest : 0 <= b < 128 -> json.rune_len (b :: rest) = 1%nat.
Proof. intros H. cbn. unfold json.between. by replace ((0 <=? b) && (b <=? 127)) with true by lia. Qed.

Lemma escape_plain fuel p b :
  (length p <= fuel)%nat -> Forall (fun x => plain_byte x = true) p ->
  json.escape fuel (p ++ b) = json.raw p +:+ json.escape (fuel - length p) b.
Proof.
  intros Hf Hp. revert fuel Hf. induction Hp as [|x p Hx _ IH]; intros fuel Hf.
  - cbn [length app json.raw fold_right]. by rewrite Nat.sub_0_r.
  - destruct fuel as [|fuel]; cbn [length] in *; [lia|]. cbn [app json.escape].
    rewrite rune_len_ascii by by apply plain_ascii. rewrite escape_plain_byte, IH by (done || lia).
    change (x :: p) with ([x] ++ p). by rewrite raw_app, <-string_app_assoc.
Qed.

(** The bytes after the first of a multi-byte rune are not ASCII. *)
Lemma rune_len_tail bs i b :
  (0 < i < json.rune_len bs)%nat -> bs !! i = Some b -> 128 <= b.
Proof.
  destruct bs as [|b0 [|b1 [|b2 [|b3 bs]]]]; cbn [json.rune_len]; unfold json.between;
    repeat case_match; intros Hi Hl; try lia;
    rewrite ?andb_true_iff, ?orb_true_iff, ?andb_true_iff in *;
    destruct i as [|[|[|[|i]]]]; cbn in Hl; simplify_eq; try lia.
Qed.

(** A plain text inside a string survives its escaping. *)
Lemma escape_contains fuel a p b :
  (length (a ++ p ++ b) <= fuel)%nat -> Forall (fun x => plain_byte x = true) p ->
  exists x y, json.escape fuel (a ++ p ++ b) = x +:+ json.raw p +:+ y.
Proof.
  intros Hf Hp. destruct p as [|p0 p].
  { exists "". cbn. by eexists. }
  revert a Hf. induction fuel as [|fuel IH]; intros a Hf.
  { rewrite !length_app in Hf. cbn in Hf. lia. }
  destruct a as [|a0 a].
  { exists "". eexists. apply (escape_plain (S fuel) (p0 :: p) b); [|done].
    cbn [app] in Hf. rewrite app_comm_cons, length_app in Hf. lia. }
  cbn [app json.escape]. set (n := json.rune_len _) in *.
  assert (n <= S (length a))%nat as Hn.
  { destruct (le_lt_dec n (S (length a))) as [|Hlt]; [done|]. exfalso.
    assert (128 <= p0); [|apply Forall_cons in Hp as [Hp%plain_ascii _]; lia].
    apply (rune_len_tail (a0 :: a ++ (p0 :: p) ++ b) (S (length a)));
      [cbn [app]; fold n; lia|].
    rewrite lookup_cons, lookup_app_r, Nat.sub_diag by lia. done. }
  assert (forall t, (length (drop t a) <= length a)%nat) as Hdrop by (intros; rewrite length_drop; lia).
  assert (forall head t, exists x y, head +:+ json.escape fuel (drop t a ++ (p0 :: p) ++ b) =
    x +:+ json.raw (p0 :: p) +:+ y) as Hrec.
  { intros head t. destruct (IH (drop t a)) as (x & y & ->).
    - specialize (Hdrop t). cbn in *. rewrite length_app in *. lia.
    - exists (head +:+ x), y. by rewrite !string_app_assoc. }
  destruct n as [|[|n]]; [apply (Hrec _ 0%nat)|apply (Hrec _ 0%nat)|].
  cbn [drop]. rewrite drop_app_le by lia. apply Hrec.
Qed.

(** Whatever contains a plain text still does after it is written as JSON. *)
Lemma string_text_contains v p :
  plain p = true -> Contains v p = true -> Contains (json.string_text v) p = true.
Proof.
  intros Hp%forallb_Forall. rewrite !Contains_spec. intros (a & b & ->).
  unfold json.string_text. rewrite !string_bytes_app.
  destruct (escape_contains (String.length (a +:+ p +:+ b)) (string_bytes a) (string_bytes p)
    (string_bytes b)) as (x & y & ->); [|done|].
  - by rewrite <-!string_bytes_app, string_bytes_length.
  - rewrite raw_string_bytes. exists (json.quote +:+ x), (y +:+ json.quote).
    by rewrite !string_app_assoc.
Qed.

(** ** The text of a request *)

Definition text_of (o : option string) : list string := match o with Some s => [s] | None => [] end.

Definition stream_strings (s : contracts.StreamElement) : list string :=
  [contracts.se_Kind s; contracts.se_CodecName s] ++ text_of (contracts.se_CodecTag s) ++
  text_of (contracts.se_Profile s) ++ text_of (contracts.se_Language s) ++
  text_of (contracts.se_PixelFormat s) ++ text_of (contracts.se_ChannelLayout s).

Definition probe_strings (p : contracts.Probe) : list string :=
  contracts.pb_Status p :: text_of (contracts.pb_Reason p) ++ text_of (contracts.pb_Summary p) ++
  match contracts.pb_Format p with
  | Some f => contracts.fc_EffectiveDurationSource f :: contracts.fc_Names f
  | None => []
  end ++ flat_map stream_strings (contracts.pb_Streams p).

Definition file_strings (f : contracts.FileElement) : list string :=
  [contracts.fe_FileID f; contracts.fe_Fingerprint f; contracts.fe_Disposition f] ++
  contracts.fe_PathComponents f ++ text_of (contracts.fe_Extension f) ++
  text_of (contracts.fe_DispositionReason f) ++ probe_strings (contracts.fe_Probe f).

Definition download_strings (d : contracts.Download) : list string :=
  [contracts.dl_SourceType d; contracts.dl_Client d; contracts.dl_DownloadRef d;
   contracts.dl_Name d; contracts.dl_ContentOwnership d] ++ contracts.dl_Labels d.

Definition failure_strings (f : contracts.Failure) : list string :=
  [contracts.fl_DownloadRef f; contracts.fl_Title f; contracts.fl_ErrorMessage f;
   contracts.fl_Status f; contracts.fl_TrackedDownloadStatus f;
   contracts.fl_TrackedDownloadState f] ++
  flat_map (fun m => contracts.sm_EvidenceID m :: contracts.sm_Title m :: contracts.sm_Messages m)
    (contracts.fl_StatusMessages f).

Definition movie_strings (m : contracts.MovieClass) : list string :=
  contracts.mc_Title m :: text_of (contracts.mc_ImdbID m) ++
  text_of (contracts.mc_OriginalTitle m) ++ contracts.mc_AlternateTitles m.

Definition history_strings (h : contracts.HistoryElement) : list string :=
  [contracts.hs_EvidenceID h; contracts.hs_EventType h; contracts.hs_SourceTitle h] ++
  text_of (contracts.hs_Quality h) ++ contracts.hs_Languages h.

Definition import_strings (m : contracts.ManualImportElement) : list string :=
  contracts.me_FileID m :: text_of (contracts.me_Quality m) ++ contracts.me_Languages m ++
  text_of (contracts.me_ReleaseGroup m) ++
  flat_map (fun r => [contracts.re_EvidenceID r; contracts.re_Type r; contracts.re_Reason r])
    (contracts.me_Rejections m).

Definition radarr_strings (r : contracts.Radarr) : list string :=
  failure_strings (contracts.rr_Failure r) ++
  match contracts.rr_Movie r with Some m => movie_strings m | None => [] end ++
  flat_map history_strings (contracts.rr_History r) ++
  flat_map import_strings (contracts.rr_ManualImports r).

Definition capability_strings (c : Capability) : list string :=
  [cap_CapabilityID c; cap_Action c] ++ text_of (cap_FileID c) ++ cap_CandidateFileIDS c ++
  text_of (cap_PlaylistFileID c) ++ cap_ClipFileIDS c ++ text_of (cap_NavigationFileID c) ++
  cap_SourceFileIDS c ++
  flat_map (fun t => te_Kind t :: te_Codec t :: text_of (te_Language t)) (cap_Tracks c).

(** Every text of a request but its own ID. *)
Definition request_strings (request : RepairCaseV3) : list string :=
  rc_SchemaVersion request :: radarr_strings (rc_Radarr request) ++
  download_strings (rc_Download request) ++ flat_map file_strings (rc_Files request) ++
  flat_map capability_strings (rc_Capabilities request).

(** encoding/json writes each text of a struct as a JSON string. *)
Class StringMarshaler {codec : RepairCodec} : Prop :=
  MarshalCase_string request data v :
    MarshalCase request = Ok data -> v ∈ request_strings request -> v <> "" ->
    Contains data (json.string_text v) = true.

Section disclosure.
Context {codec : RepairCodec} {strings : StringMarshaler}.

Lemma rejectLocalValues_path request observation path v :
  rejectLocalValues request observation = Ok tt ->
  path ∈ localPaths observation -> path <> "" -> plain path = true ->
  v ∈ request_strings request -> Contains v path = false.
Proof.
  unfold rejectLocalValues. intros (encoded & Hm & (? & H%fail_if_Ok & _)%bind_Ok)%bind_Ok Hin Hne Hp Hv.
  apply not_true_iff_false. intros Hc. apply not_true_iff_false in H. apply H, existsb_bool.
  exists path. split; [done|]. rewrite bool_decide_eq_false_2 by done. cbn [negb andb].
  eapply Contains_trans; [eapply MarshalCase_string|]; [done..| |by apply string_text_contains].
  intros ->. apply Contains_spec in Hc as ([|c a] & b & Hc).
  - destruct path; [done|]. by rewrite string_app_cons in Hc.
  - by rewrite string_app_cons in Hc.
Qed.
End disclosure.

(** Escaping hides a path that holds a character of HTML: the text of the
    request differs from the path, and the check does not see it. *)
Example escaped_path_missed :
  let path := "/downloads/Tom & Jerry" in
  Contains (json.string_text path) path = false.
Proof. vm_compute. reflexivity. Qed.
