(* ===== verification/CaseSafety.v ===== *)
(** * What an assembled case guarantees

    Theorems about [internal/casebuilder]: the capabilities of a case are
    backed by its observation, identify what they offer, and the planner's copy
    of the case holds no local path. *)
From stdpp Require Import base strings list gmap sorting pretty.
From S2P Require Import Prelude GoStrings GoCrypto FileIdentity Probe Media Radarr WorkerContracts.
From S2P Require Import CaseContracts Decisions CaseCodec CaseEvidence CaseAssembly.
From S2P Require Import CaseIdentity.
Import casebuilder assemble.

(** ** Indexes *)

Lemma fail_if_is_Some_Ok {A} (o : option A) e u :
  fail_if (bool_decide (is_Some o)) e = Ok u -> o = None.
Proof. intros H%fail_if_Ok%bool_decide_eq_false. by apply eq_None_not_Some. Qed.

(** An index holds the listed values and what it held before, and its list has
    no key twice. *)
Record indexes {A B} (key : A -> string) (val : A -> B) (l : list A) (m m' : gmap string B) : Prop :=
  { ix_lookup k b : m' !! k = Some b <->
      (exists a, a ∈ l /\ key a = k /\ val a = b) \/ m !! k = Some b;
    ix_fresh a : a ∈ l -> m !! key a = None;
    ix_nodup : NoDup (map key l) }.

Lemma indexes_nil {A B} (key : A -> string) (val : A -> B) m : indexes key val [] m m.
Proof.
  split; [|by intros a []%not_elem_of_nil|constructor].
  intros k b. split; [by right|]. by intros [(a & []%not_elem_of_nil & _)|].
Qed.

Lemma indexes_cons {A B} (key : A -> string) (val : A -> B) a l m m' :
  m !! key a = None -> indexes key val l (<[key a := val a]> m) m' -> indexes key val (a :: l) m m'.
Proof.
  intros Hnone [Hlookup Hfresh Hnodup]. split.
  - intros k b. rewrite Hlookup, lookup_insert_Some. setoid_rewrite elem_of_cons. split.
    + intros [(x & ? & ? & ?)|[[<- <-]|[? ?]]]; [left; exists x; auto|left; by exists a; auto|by right].
    + intros [(x & [->|Hx] & <- & <-)|Hm]; [by right; left|by left; exists x|].
      right; right. split; [|done]. congruence.
  - intros x [->|Hx]%elem_of_cons; [done|]. specialize (Hfresh x Hx).
    by apply lookup_insert_None in Hfresh as [? _].
  - cbn. constructor; [|done]. intros (x & Heq & Hx)%list_elem_of_fmap.
    specialize (Hfresh x Hx). rewrite <-Heq, lookup_insert_eq in Hfresh. done.
Qed.

Lemma index_files_Ok files m m' :
  index_files files m = Ok m' -> indexes if_ID (fun f => f) files m m'.
Proof.
  revert m. induction files as [|f files IH]; intros m; cbn.
  - intros [= <-]. apply indexes_nil.
  - intros (u & _ & (u' & H%fail_if_is_Some_Ok & Hi)%bind_Ok)%bind_Ok.
    apply indexes_cons; [done|]. by apply IH.
Qed.

Lemma index_probes_Ok probes m m' :
  index_probes probes m = Ok m' -> indexes fp_FileID fp_Outcome probes m m'.
Proof.
  revert m. induction probes as [|p probes IH]; intros m; cbn.
  - intros [= <-]. apply indexes_nil.
  - intros (u & _ & (u' & H%fail_if_is_Some_Ok & Hi)%bind_Ok)%bind_Ok.
    apply indexes_cons; [done|]. by apply IH.
Qed.

Lemma index_paths_Ok files mappings m m' :
  index_paths files mappings m = Ok m' ->
  indexes fpm_FileID fpm_AbsolutePath mappings m m' /\
  Forall (fun p => is_Some (files !! fpm_FileID p)) mappings.
Proof.
  revert m. induction mappings as [|p mappings IH]; intros m; cbn.
  - intros [= <-]. split; [apply indexes_nil|done].
  - intros (u & Hk%fail_if_Ok%negb_false_iff%bool_decide_eq_true &
      (u' & H%fail_if_is_Some_Ok & (u'' & _ & Hi)%bind_Ok)%bind_Ok)%bind_Ok.
    apply IH in Hi as [Hi Hf]. split; [by apply indexes_cons|by constructor].
Qed.

Lemma indexes_empty_lookup {A B} (key : A -> string) (val : A -> B) l m k b :
  indexes key val l ∅ m -> m !! k = Some b <-> exists a, a ∈ l /\ key a = k /\ val a = b.
Proof.
  intros [Hl _ _]. rewrite Hl, lookup_empty. split; [intros [|]; done|by left].
Qed.

(** What the two maps of [indexInventory] hold. *)
Lemma indexInventory_Ok inventory files paths :
  indexInventory inventory = Ok (files, paths) ->
  (forall id file, files !! id = Some file <-> file ∈ fi_Files inventory /\ if_ID file = id) /\
  (forall id path, paths !! id = Some path <-> mkFilePathMapping id path ∈ fi_Paths inventory) /\
  NoDup (map if_ID (fi_Files inventory)) /\ (forall id, is_Some (paths !! id) -> is_Some (files !! id)).
Proof.
  unfold indexInventory.
  intros (f & Hf%index_files_Ok & (p & [Hp Hk]%index_paths_Ok & [= -> ->])%bind_Ok)%bind_Ok.
  split_and!.
  - intros id file. rewrite (indexes_empty_lookup _ _ _ _ _ _ Hf). naive_solver.
  - intros id path. rewrite (indexes_empty_lookup _ _ _ _ _ _ Hp). split.
    + intros ([k v] & ? & <- & <-). done.
    + intros H. by exists (mkFilePathMapping id path).
  - by destruct Hf.
  - intros id [path (m & Hm & <- & _)%(indexes_empty_lookup _ _ _ _ _ _ Hp)].
    rewrite Forall_forall in Hk. by apply Hk.
Qed.

(** ** Files a join may use *)

(** A probe that succeeded and reported everything the planner needs, once per
    stream and about the file's own size. *)
Definition complete_probe (sizeBytes : Z) (outcome : MediaProbeOutcome) : Prop :=
  exists evidence, mpo_Status outcome = MediaProbeSucceeded /\ mpo_Evidence outcome = Some evidence /\
    pf_SizeBytes (pe_Format evidence) = Some sizeBytes /\
    NoDup (map ps_Index (pe_Streams evidence)) /\
    Forall (fun stream => is_Some (mapStream stream)) (pe_Streams evidence).

Definition join_candidate (observation : Observation) (id : FileID) : Prop :=
  exists file outcome,
    file ∈ fi_Files (ob_Inventory observation) /\ if_ID file = id /\
    mkFileProbe id outcome ∈ ob_Probes observation /\
    ProbeCandidate (classifyMediaFile file) = true /\
    SupportsJoinPartsPath (if_PathComponents file) = true /\
    complete_probe (SizeBytes (if_Fingerprint file)) outcome.

Lemma insert_by_index_perm stream sorted : insert_stream stream sorted ≡ₚ stream :: sorted.
Proof.
  induction sorted as [|first rest IH]; cbn; [done|]. case_bool_decide; [done|].
  rewrite IH. apply Permutation_swap.
Qed.

Lemma sort_streams_perm streams : sort_streams streams ≡ₚ streams.
Proof.
  unfold sort_streams.
  assert (forall acc, fold_left (fun sorted stream => insert_stream stream sorted) streams acc ≡ₚ
    acc ++ streams) as H; [|apply (H [])].
  induction streams as [|s streams IH]; intros acc; cbn; [by rewrite app_nil_r|].
  rewrite IH, insert_by_index_perm. by rewrite <-Permutation_middle.
Qed.

Definition index_le (a b : ProbeStream) : Prop := ps_Index a <= ps_Index b.

Lemma insert_by_index_sorted stream sorted :
  StronglySorted index_le sorted -> StronglySorted index_le (insert_stream stream sorted).
Proof.
  induction 1 as [|first rest Hs IH Hall]; cbn; [by repeat constructor|].
  destruct (bool_decide_reflect (ps_Index stream < ps_Index first)).
  - constructor; [by constructor|]. constructor; [unfold index_le; lia|].
    eapply Forall_impl; [done|]. unfold index_le. lia.
  - constructor; [done|]. rewrite insert_by_index_perm. constructor; [unfold index_le; lia|done].
Qed.

Lemma sort_streams_sorted streams : StronglySorted index_le (sort_streams streams).
Proof.
  unfold sort_streams.
  assert (forall acc, StronglySorted index_le acc -> StronglySorted index_le
    (fold_left (fun sorted stream => insert_stream stream sorted) streams acc)) as H;
    [|apply H; constructor].
  induction streams as [|s streams IH]; intros acc Hacc; cbn; [done|].
  by apply IH, insert_by_index_sorted.
Qed.

(** On sorted streams, comparing neighbours finds every duplicate. *)
Lemma map_streams_Some previous streams mapped :
  StronglySorted index_le streams ->
  match previous with Some i => Forall (fun s => i <= ps_Index s) streams | None => True end ->
  map_streams previous streams = Ok (Some mapped) ->
  NoDup (map ps_Index streams) /\ Forall (fun s => is_Some (mapStream s)) streams /\
  match previous with Some i => Forall (fun s => i < ps_Index s) streams | None => True end.
Proof.
  intros Hsorted. revert previous mapped.
  induction Hsorted as [|s streams Hs IH Hall]; intros previous mapped Hprev; cbn [map_streams].
  { intros _. split_and!; [constructor|constructor|by destruct previous]. }
  intros (u & Hd%fail_if_Ok%bool_decide_eq_false & H)%bind_Ok.
  destruct (mapStream s) as [element|] eqn:Hm; [|done].
  apply bind_Ok in H as ([others|] & Hrest & [= <-]).
  apply IH in Hrest as (Hnodup & Hcomplete & Hlt); [|done].
  split_and!.
  - cbn. constructor; [|done]. intros (x & Heq & Hx)%list_elem_of_fmap.
    rewrite Forall_forall in Hlt. specialize (Hlt x Hx). lia.
  - by constructor; [eexists|].
  - destruct previous as [i|]; [|done]. apply Forall_cons in Hprev as [Hle _].
    assert (i < ps_Index s) by (assert (i <> ps_Index s) by congruence; lia).
    constructor; [done|]. eapply Forall_impl; [done|]. cbn. lia.
Qed.

Lemma mapProbe_ok outcome sizeBytes probe :
  mapProbe outcome sizeBytes = Ok probe -> contracts.pb_Status probe = contracts.Ok ->
  complete_probe sizeBytes outcome.
Proof.
  unfold mapProbe, complete_probe. destruct outcome as [[] [evidence|] reason]; cbn [mpo_Status mpo_Evidence mpo_Reason].
  - intros (u & _ & (p & Hp & [= <-])%bind_Ok)%bind_Ok Hok. exists evidence.
    destruct p as [p|]; [|done]. unfold mapSuccessfulProbe in Hp.
    destruct (pf_SizeBytes (pe_Format evidence)) as [size|]; [|done].
    apply bind_Ok in Hp as (? & Hsize%fail_if_Ok%negb_false_iff%bool_decide_eq_true & Hp).
    apply bind_Ok in Hp as ([streams|] & Hs & [= <-]). subst size.
    apply map_streams_Some in Hs as (Hnodup & Hcomplete & _); [|apply sort_streams_sorted|done].
    rewrite sort_streams_perm in Hnodup, Hcomplete. by split_and!.
  - done.
  - intros (u & _ & [= <-])%bind_Ok. done.
  - intros (u & _ & [= <-])%bind_Ok. done.
  - intros (u & _ & [= <-])%bind_Ok. done.
  - intros (u & _ & [= <-])%bind_Ok. done.
Qed.

(** The join candidates are, in the order of the inventory, the IDs of files
    that can be parts. *)
Lemma map_files_Ok assessments paths probes candidates files :
  map_files assessments paths probes = Ok (candidates, files) ->
  candidates `sublist_of` map (fun a => if_ID (mfa_File a)) assessments /\
  Forall (fun id => exists a outcome, a ∈ assessments /\ if_ID (mfa_File a) = id /\
    probes !! id = Some outcome /\ ProbeCandidate a = true /\
    SupportsJoinPartsPath (if_PathComponents (mfa_File a)) = true /\
    complete_probe (SizeBytes (if_Fingerprint (mfa_File a))) outcome) candidates.
Proof.
  revert candidates files. induction assessments as [|a assessments IH]; intros candidates files;
    cbn [map_files].
  { intros [= <- <-]. split; constructor. }
  intros (u & _ & H)%bind_Ok. destruct (probes !! if_ID (mfa_File a)) as [outcome|] eqn:Ho; [|done].
  apply bind_Ok in H as (mapped & Hm & ([cs fs] & Hrest & [= <- <-])%bind_Ok).
  apply IH in Hrest as [Hsub Hall].
  assert (Forall (fun id => exists a0 outcome, a0 ∈ a :: assessments /\ if_ID (mfa_File a0) = id /\
    probes !! id = Some outcome /\ ProbeCandidate a0 = true /\
    SupportsJoinPartsPath (if_PathComponents (mfa_File a0)) = true /\
    complete_probe (SizeBytes (if_Fingerprint (mfa_File a0))) outcome) cs) as Hcs.
  { eapply Forall_impl; [done|]. intros id (b & o & ? & Hb). exists b, o. split; [by right|done]. }
  destruct (joinable a mapped) eqn:Hj; cbn [app map]; [|by split; [apply sublist_cons|]].
  unfold mapFile in Hm. apply bind_Ok in Hm as (probe & Hp & (? & _ & (? & _ & [= <-])%bind_Ok)%bind_Ok).
  apply andb_true_iff in Hj as [[Hcand Hok%bool_decide_eq_true]%andb_true_iff Hpath].
  split; [by apply sublist_skip|]. constructor; [|done]. exists a, outcome.
  split_and!; [by left|done..|]. by eapply mapProbe_ok.
Qed.

(** ** Imports *)

(** A listed import of a file of the inventory, at that file's only path. *)
Record import_match (observation : Observation) (m : manualImportMatch) : Prop :=
  { im_listed : mm_Import m ∈ ob_ManualImports observation;
    im_file : mm_File m ∈ fi_Files (ob_Inventory observation);
    im_mapping : mkFilePathMapping (if_ID (mm_File m)) (mm_AbsolutePath m) ∈
      fi_Paths (ob_Inventory observation);
    im_path : mi_Path (mm_Import m) = mm_AbsolutePath m;
    im_size : mi_SizeBytes (mm_Import m) = SizeBytes (if_Fingerprint (mm_File m));
    im_source : IsPublishedName (filepath.Base (mm_AbsolutePath m)) = false }.

Lemma index_path_ids_Ok paths m m' path id :
  index_path_ids paths m = Ok m' -> m' !! path = Some id -> (id, path) ∈ paths \/ m !! path = Some id.
Proof.
  revert m. induction paths as [|[k p] paths IH]; intros m; cbn.
  - intros [= <-]. by right.
  - intros (u & _ & H)%bind_Ok Hl. destruct (IH _ H Hl) as [Hin|Hin]; [left; by right|].
    apply lookup_insert_Some in Hin as [[-> ->]|[_ ?]]; [left; by left|by right].
Qed.

Lemma match_imports_Ok imports files paths pathIDs seen matches :
  match_imports imports files paths pathIDs seen = Ok matches ->
  Forall (fun m => exists id, mm_Import m ∈ imports /\ pathIDs !! mi_Path (mm_Import m) = Some id /\
    mm_File m = default zero_InventoryFile (files !! id) /\
    mm_AbsolutePath m = default "" (paths !! id) /\
    mi_SizeBytes (mm_Import m) = SizeBytes (if_Fingerprint (mm_File m)) /\
    IsPublishedName (filepath.Base (mi_Path (mm_Import m))) = false) matches.
Proof.
  revert seen matches. induction imports as [|item imports IH]; intros seen matches;
    cbn [match_imports]; [intros [= <-]; constructor|].
  assert (forall ms seen', match_imports imports files paths pathIDs seen' = Ok ms ->
    Forall (fun m => exists id, mm_Import m ∈ item :: imports /\
      pathIDs !! mi_Path (mm_Import m) = Some id /\
      mm_File m = default zero_InventoryFile (files !! id) /\
      mm_AbsolutePath m = default "" (paths !! id) /\
      mi_SizeBytes (mm_Import m) = SizeBytes (if_Fingerprint (mm_File m)) /\
      IsPublishedName (filepath.Base (mi_Path (mm_Import m))) = false) ms) as Hrest.
  { intros ms seen' H%IH. eapply Forall_impl; [done|]. intros m (id & ? & ?). exists id.
    split; [by right|done]. }
  destruct (IsPublishedName (filepath.Base (mi_Path item))) eqn:Hpub; [apply Hrest|].
  destruct (pathIDs !! mi_Path item) as [id|] eqn:Hid; [|done].
  intros (u & _ & (u' & Hsize%fail_if_Ok%negb_false_iff%bool_decide_eq_true & H)%bind_Ok)%bind_Ok.
  apply bind_Ok in H as (others & Ho & [= <-]).
  constructor; [|by eapply Hrest]. exists id. split_and!; [by left|done..].
Qed.

Lemma matchManualImports_Ok observation files paths matches :
  indexInventory (ob_Inventory observation) = Ok (files, paths) ->
  matchManualImports (ob_ManualImports observation) files paths = Ok matches ->
  Forall (import_match observation) matches.
Proof.
  intros (Hfiles & Hpaths & _ & Hkeys)%indexInventory_Ok. unfold matchManualImports.
  intros (pathIDs & Hp & H%match_imports_Ok)%bind_Ok. eapply Forall_impl; [done|].
  intros [file path item]. cbn [mm_File mm_AbsolutePath mm_Import].
  intros (id & Hin & Hid & -> & -> & Hsize & Hpub).
  destruct (index_path_ids_Ok _ _ _ _ _ Hp Hid) as [Hl|Hl]; [|by rewrite lookup_empty in Hl].
  apply elem_of_map_to_list in Hl. destruct (Hkeys id (mk_is_Some _ _ Hl)) as [file Hfile].
  pose proof (proj1 (Hfiles _ _) Hfile) as [Hmem Hfid].
  rewrite Hl, Hfile in *. cbn [from_option Datatypes.id] in *.
  split; cbn [mm_File mm_AbsolutePath mm_Import]; try done.
  rewrite Hfid. by apply Hpaths.
Qed.

Lemma bind_imports_Ok matches history caps0 binds0 caps binds :
  bind_imports matches history caps0 binds0 = Ok (caps, binds) ->
  exists bs, caps = caps0 ++ map manual_capability bs /\
    (forall id b, binds !! id = Some b <->
      (b ∈ bs /\ id = manualImportCapabilityID b) \/ binds0 !! id = Some b) /\
    (forall b, b ∈ bs <-> exists m, m ∈ matches /\
      BindRadarrManualImportFile (mm_File m) (mm_AbsolutePath m) (mm_Import m) history = (Some b, true)).
Proof.
  revert caps0 binds0. induction matches as [|m matches IH]; intros caps0 binds0; cbn [bind_imports].
  { intros [= <- <-]. exists []. cbn. split_and!; [by rewrite app_nil_r| |].
    - intros id b. split; [by right|]. by intros [[[]%not_elem_of_nil _]|].
    - intros b. split; [by intros []%not_elem_of_nil|]. by intros (m & []%not_elem_of_nil & _). }
  destruct (BindRadarrManualImportFile _ _ _ _) as [[binding|] []] eqn:Hb; intros H.
  2-4: apply IH in H as (bs & -> & Hl & Hm); exists bs; split; [reflexivity|split; [exact Hl|]];
    intros b; rewrite Hm; split;
    [intros (x & ? & ?); exists x; split; [by right|done]
    |intros (x & [->|?]%elem_of_cons & Hx); [rewrite Hb in Hx; discriminate Hx|by exists x]].
  apply bind_Ok in H as (u & Hfresh%fail_if_is_Some_Ok & H).
  apply IH in H as (bs & -> & Hl & Hm). exists (binding :: bs). split_and!.
  - by rewrite <-app_assoc.
  - intros id b. rewrite Hl, lookup_insert_Some, elem_of_cons. split.
    + intros [[? ?]|[[<- <-]|[? ?]]]; auto.
    + intros [[[->| ?] ->]|?]; auto. right. right. split; [congruence|done].
  - intros b. rewrite elem_of_cons, Hm. split.
    + intros [->|(x & ? & ?)]; [exists m; split; [by left|done]|exists x; split; [by right|done]].
    + intros (x & [->|?]%elem_of_cons & Hx); [|by right; exists x].
      rewrite Hb in Hx. injection Hx as <-. by left.
Qed.

(** ** Discs *)

Definition in_inventory (observation : Observation) (id : FileID) : Prop :=
  exists file, file ∈ fi_Files (ob_Inventory observation) /\ if_ID file = id.

(** An offered track is a named track of a known kind, with its language when
    it has one. *)
Definition offered_track (track : RemuxTrack) (offered : TrackElement) : Prop :=
  tr_Codec track <> "" /\ tr_Kind track ∈ ["video"; "audio"; "subtitles"] /\
  offered = mkTrackElement (tr_Kind track) (tr_Codec track) (optionalText (tr_Language track)).

Lemma map_tracks_Ok invalid tracks offered :
  map_tracks invalid tracks = Ok offered -> Forall2 offered_track tracks offered.
Proof.
  revert offered. induction tracks as [|t tracks IH]; intros offered; cbn [map_tracks].
  - intros [= <-]. constructor.
  - intros (mapped & Hm & (others & Ho & [= <-])%bind_Ok)%bind_Ok. constructor; [|by apply IH].
    unfold map_track in Hm. apply bind_Ok in Hm as (u & Hu%fail_if_Ok & [= <-]).
    apply orb_false_iff in Hu as [Hc%bool_decide_eq_false Hk%negb_false_iff%bool_decide_eq_true].
    by split_and!.
Qed.

Lemma count_outside_false {A} low high (l : list A) :
  count_outside low high l = false <-> (low <= length l <= high)%nat.
Proof. unfold count_outside. rewrite orb_false_iff, !bool_decide_eq_false. lia. Qed.

Lemma clip_identity_Ok files clips identity :
  clip_identity files clips = Ok identity -> Forall (fun id => is_Some (files !! id)) clips.
Proof.
  revert identity. induction clips as [|c clips IH]; intros identity; cbn [clip_identity]; [done|].
  destruct (files !! c) eqn:Hc; [|done]. intros (others & Ho & _)%bind_Ok.
  constructor; [by eexists|by eapply IH].
Qed.

Lemma source_identity_Ok files seen sources identity :
  source_identity files seen sources = Ok identity ->
  Forall (fun id => is_Some (files !! id)) sources /\ NoDup sources /\
  Forall (fun id => id ∉ seen) sources.
Proof.
  revert seen identity. induction sources as [|c sources IH]; intros seen identity;
    cbn [source_identity]; [by repeat constructor|].
  destruct (files !! c) eqn:Hc; [|done].
  intros (u & Hs%fail_if_Ok%bool_decide_eq_false & (others & (Hf & Hn & Ho)%IH & _)%bind_Ok)%bind_Ok.
  rewrite Forall_forall in Ho. split_and!; [by constructor; [eexists|]| |].
  - constructor; [|done]. intros Hin. apply (Ho c Hin). set_solver.
  - constructor; [done|]. apply Forall_forall. intros id Hin. specialize (Ho id Hin). set_solver.
Qed.

Record backed_bluray (observation : Observation) (playlist : PlaylistCandidate) (c : Capability)
    : Prop :=
  { bb_action : cap_Action c = CapabilityActionRemuxBluray;
    bb_playlist : cap_PlaylistFileID c = Some (bc_PlaylistFileID playlist);
    bb_clips : cap_ClipFileIDS c = bc_ClipFileIDs playlist;
    bb_duration : cap_DurationMS c = Some (pl_DurationMS (bc_Details playlist));
    bb_chapters : cap_ChapterCount c = Some (pl_Chapters (bc_Details playlist));
    bb_tracks : Forall2 offered_track (pl_Tracks (bc_Details playlist)) (cap_Tracks c);
    bb_counts : (1 <= length (cap_ClipFileIDS c) <= 1024 /\ 1 <= length (cap_Tracks c) <= 32)%nat;
    bb_inventory :
      Forall (in_inventory observation) (bc_PlaylistFileID playlist :: bc_ClipFileIDs playlist) }.

Record backed_dvd (observation : Observation) (title : TitleCandidate) (c : Capability) : Prop :=
  { bv_action : cap_Action c = CapabilityActionRemuxDVD;
    bv_navigation : cap_NavigationFileID c = Some (tc_NavigationFileID title);
    bv_sources : cap_SourceFileIDS c = tc_SourceFileIDs title;
    bv_title : cap_TitleNumber c = Some (tt_Number (tc_Details title)) /\
      cap_TitleSet c = Some (tt_TitleSet (tc_Details title)) /\
      cap_TitleInSet c = Some (tt_TitleInSet (tc_Details title));
    bv_ranges : 1 <= tt_Number (tc_Details title) <= 128 /\
      1 <= tt_TitleSet (tc_Details title) <= 99 /\ 1 <= tt_TitleInSet (tc_Details title) <= 99;
    bv_angle : cap_AngleCount c = Some 1;
    bv_duration : cap_DurationMS c = Some (tt_DurationMS (tc_Details title)) /\
      0 < tt_DurationMS (tc_Details title);
    bv_chapters : cap_ChapterCount c = Some (tt_Chapters (tc_Details title)) /\
      0 < tt_Chapters (tc_Details title);
    bv_tracks : Forall2 offered_track (tt_Tracks (tc_Details title)) (cap_Tracks c);
    bv_counts : (1 <= length (cap_SourceFileIDS c) <= 1024 /\ 1 <= length (cap_Tracks c) <= 32)%nat;
    bv_distinct : NoDup (tc_SourceFileIDs title) /\ tc_NavigationFileID title ∈ tc_SourceFileIDs title;
    bv_inventory : Forall (in_inventory observation) (tc_SourceFileIDs title) }.

Section discs.
Context (observation : Observation) (files : gmap FileID InventoryFile).
Context (Hfiles : forall id file, files !! id = Some file <->
  file ∈ fi_Files (ob_Inventory observation) /\ if_ID file = id).

Lemma indexed_in_inventory ids :
  Forall (fun id => is_Some (files !! id)) ids -> Forall (in_inventory observation) ids.
Proof.
  intros H. eapply Forall_impl; [done|]. intros id [file [? ?]%Hfiles]. by exists file.
Qed.

Lemma bind_playlist_Ok seen playlist c :
  bind_playlist files seen playlist = Ok c -> backed_bluray observation playlist c.
Proof.
  unfold bind_playlist. destruct (files !! bc_PlaylistFileID playlist) as [file|] eqn:Hf; [|done].
  intros (u & _ & (u' & Hc%fail_if_Ok%count_outside_false & H)%bind_Ok)%bind_Ok.
  apply bind_Ok in H as (clips & Hclips%clip_identity_Ok & (tracks & Ht & [= <-])%bind_Ok).
  apply bind_Ok in Ht as (u'' & Hn%fail_if_Ok%count_outside_false & Htr%map_tracks_Ok).
  split; cbn; try done.
  - split; [done|]. by rewrite <-(Forall2_length _ _ _ Htr).
  - apply indexed_in_inventory. by constructor; [eexists|].
Qed.

Lemma bind_playlists_Ok seen playlists caps :
  bind_playlists files seen playlists = Ok caps ->
  Forall2 (backed_bluray observation) playlists caps.
Proof.
  revert seen caps. induction playlists as [|p playlists IH]; intros seen caps; cbn [bind_playlists].
  - intros [= <-]. constructor.
  - intros (c & Hc%bind_playlist_Ok & (others & Ho%IH & [= <-])%bind_Ok)%bind_Ok. by constructor.
Qed.

Lemma bind_title_Ok title c :
  bind_title files title = Ok c -> backed_dvd observation title c.
Proof.
  unfold bind_title. destruct (files !! tc_NavigationFileID title) as [file|] eqn:Hf; [|done].
  intros (u & Hc%fail_if_Ok%count_outside_false & (u' & Hm%fail_if_Ok & H)%bind_Ok)%bind_Ok.
  apply bind_Ok in H as (tracks & Ht%map_tracks_Ok & (? & Hn%fail_if_Ok%count_outside_false & H)%bind_Ok).
  apply bind_Ok in H as (sources & (Hs & Hd & _)%source_identity_Ok & H).
  apply bind_Ok in H as (? & Hnav%fail_if_Ok%negb_false_iff%bool_decide_eq_true & [= <-]).
  unfold title_metadata_invalid in Hm.
  rewrite !orb_false_iff, negb_false_iff, !bool_decide_eq_false, bool_decide_eq_true in Hm.
  destruct Hm as [[[[[[[[H1 H2] H3] H4] H5] H6] H7] H8] H9].
  split; cbn; try done; try lia; try (split; [done|lia]); try by rewrite H3.
  by apply indexed_in_inventory.
Qed.

Lemma bind_titles_Ok titles caps :
  bind_titles files titles = Ok caps -> Forall2 (backed_dvd observation) titles caps.
Proof.
  revert caps. induction titles as [|t titles IH]; intros caps; cbn [bind_titles].
  - intros [= <-]. constructor.
  - intros (c & Hc%bind_title_Ok & (others & Ho%IH & [= <-])%bind_Ok)%bind_Ok. by constructor.
Qed.
End discs.

(** ** The case *)

Record backed_join (observation : Observation) (c : Capability) : Prop :=
  { bj_action : cap_Action c = CapabilityActionJoinParts;
    bj_parts : (2 <= length (cap_CandidateFileIDS c))%nat;
    bj_distinct : NoDup (cap_CandidateFileIDS c);
    bj_candidates : Forall (join_candidate observation) (cap_CandidateFileIDS c) }.

Record backed_manual (observation : Observation) (bindings : gmap string RadarrManualImportBinding)
    (c : Capability) (binding : RadarrManualImportBinding) (m : manualImportMatch) : Prop :=
  { bm_action : cap_Action c = CapabilityActionManualImportFile;
    bm_bound : bindings !! cap_CapabilityID c = Some binding;
    bm_file : cap_FileID c = Some (bd_FileID binding);
    bm_match : import_match observation m;
    bm_binding : BindRadarrManualImportFile (mm_File m) (mm_AbsolutePath m) (mm_Import m)
      (ob_History observation) = (Some binding, true) }.

(** What stands behind an offered capability. *)
Definition backed (observation : Observation) (bindings : gmap string RadarrManualImportBinding)
    (c : Capability) : Prop :=
  backed_join observation c \/
  (exists binding m, backed_manual observation bindings c binding m) \/
  (exists playlist, playlist ∈ ob_BluRayPlaylists observation /\ backed_bluray observation playlist c) \/
  (exists title, title ∈ ob_DVDTitles observation /\ backed_dvd observation title c).

Lemma Forall2_backed {A} (P : A -> Capability -> Prop) (l : list A) caps c :
  Forall2 P l caps -> c ∈ caps -> exists a, a ∈ l /\ P a c.
Proof.
  intros H (i & Hi)%list_elem_of_lookup. eapply Forall2_lookup_r in H as (a & Ha & HP); [|done].
  exists a. split; [by eapply list_elem_of_lookup_2|done].
Qed.

Lemma joinCapabilities_backed observation files paths probes candidates elements c :
  indexInventory (ob_Inventory observation) = Ok (files, paths) ->
  indexProbes (ob_Probes observation) = Ok probes ->
  map_files (ClassifyMediaFiles (ob_Inventory observation)) paths probes = Ok (candidates, elements) ->
  c ∈ joinCapabilities candidates -> backed_join observation c.
Proof.
  intros (_ & _ & Hnodup & _)%indexInventory_Ok Hprobes [Hsub Hall]%map_files_Ok.
  unfold joinCapabilities. case_bool_decide; [by intros []%not_elem_of_nil|].
  intros ->%list_elem_of_singleton. unfold ClassifyMediaFiles in *. rewrite map_map in Hsub. split; cbn; [done|lia| |].
  - eapply sublist_NoDup; [|done]. erewrite map_ext; [done|]. intros f. unfold classifyMediaFile.
    by repeat case_match.
  - eapply Forall_impl; [done|].
    intros id (a & outcome & (f & -> & Hf)%list_elem_of_fmap & Hid & Ho & Hc & Hp & Hcomplete).
    assert (mfa_File (classifyMediaFile f) = f) as Hfile
      by (unfold classifyMediaFile; by repeat case_match).
    rewrite Hfile in *. exists f, outcome. split_and!; try done.
    unfold indexProbes in Hprobes. apply index_probes_Ok in Hprobes.
    apply (indexes_empty_lookup _ _ _ _ _ _ Hprobes) in Ho as ([k o] & ? & <- & <-). done.
Qed.

Section assembled_case.
Context {codec : RepairCodec}.

(** C5. An assembled case carries the digest of its own evidence, in the request
    and in the snapshot of the observation it was built from. Every capability
    it offers is backed by that observation: a join by two or more distinct,
    complete, completely probed files; a manual import by the binding kept for
    it, of a listed import at the file's own path; a Blu-ray or DVD remux by an
    identified playlist or title all of whose files are in the inventory. Every
    binding is offered, and so is every identified playlist and title. *)
Theorem assembled_capabilities_backed observation assembly :
  Assemble observation = Ok assembly ->
  let request := as_Request assembly in
  let snapshot := as_LocalSnapshot assembly in
  (CalculateCaseID request = Ok (rc_CaseID request) /\ ls_CaseID snapshot = rc_CaseID request /\
   ls_Observation snapshot = observation) /\
  Forall (backed observation (ls_ManualImportBindings snapshot)) (rc_Capabilities request) /\
  (forall id binding, ls_ManualImportBindings snapshot !! id = Some binding ->
     id = manualImportCapabilityID binding /\ manual_capability binding ∈ rc_Capabilities request) /\
  Forall (fun playlist => exists c, c ∈ rc_Capabilities request /\
     backed_bluray observation playlist c) (ob_BluRayPlaylists observation) /\
  Forall (fun title => exists c, c ∈ rc_Capabilities request /\ backed_dvd observation title c)
    (ob_DVDTitles observation).
Proof.
  intros (files & paths & probes & candidates & imports & H)%case_assembled. destruct H. cbn zeta.
  pose proof (matchManualImports_Ok _ _ _ _ asm_inventory0 asm_imports0) as Hmatches.
  destruct (indexInventory_Ok _ _ _ asm_inventory0) as (Hfiles & _).
  unfold offer in asm_offer0. apply bind_Ok in asm_offer0 as ([mcaps binds] & Hmanual & H).
  apply bind_Ok in H as (bluray & Hb & (dvd & Hd & [= Hcaps Hbinds])%bind_Ok).
  apply bind_imports_Ok in Hmanual as (bs & -> & Hlookup & Hbound).
  apply bind_Ok in Hb as (? & _ & Hb%(bind_playlists_Ok observation files Hfiles)).
  apply bind_Ok in Hd as (? & _ & Hd%(bind_titles_Ok observation files Hfiles)).
  rewrite <-Hcaps, <-Hbinds. cbn [app].
  split_and!; [done..| | | |].
  - apply Forall_forall. intros c. rewrite !elem_of_app. intros [Hc|[Hc|[Hc|Hc]]].
    + left. by eapply joinCapabilities_backed.
    + right. left. apply list_elem_of_fmap in Hc as (b & -> & Hc).
      pose proof (proj1 (Hbound b) Hc) as (m & Hm & Hbind). exists b, m.
      split; [done| |done| |done].
      * cbn. apply Hlookup. by left.
      * rewrite Forall_forall in Hmatches. by apply Hmatches.
    + right. right. left. by eapply Forall2_backed.
    + right. right. right. by eapply Forall2_backed.
  - intros id b [[Hin ->]|Hn]%Hlookup; [|by rewrite lookup_empty in Hn]. split; [done|].
    rewrite !elem_of_app. right. left. by apply list_elem_of_fmap_2.
  - apply Forall_forall. intros p (i & Hi)%list_elem_of_lookup.
    eapply Forall2_lookup_l in Hb as (c & Hc & HP); [|done]. exists c. split; [|done].
    rewrite !elem_of_app. right. right. left. by eapply list_elem_of_lookup_2.
  - apply Forall_forall. intros p (i & Hi)%list_elem_of_lookup.
    eapply Forall2_lookup_l in Hd as (c & Hc & HP); [|done]. exists c. split; [|done].
    rewrite !elem_of_app. right. right. right. by eapply list_elem_of_lookup_2.
Qed.
End assembled_case.

(** Two bindings get the same capability ID only if they are of the same file,
    with the same stable fingerprint, mode and import command, or if SHA-256
    has a collision among the identities. *)
Theorem capability_identifies_import b c :
  manualImportCapabilityID b = manualImportCapabilityID c ->
  same_import b c \/
  sha256_collision (opaque_payload "capability" (manual_import_identity b))
    (opaque_payload "capability" (manual_import_identity c)).
Proof.
  intros [Heq%manual_import_identity_inj|Hcol]%opaqueID_inj; [by left|by right|].
  apply (bool_decide_unpack _). by vm_compute.
Qed.

Section hidden_paths.
Context {codec : RepairCodec} {strings : StringMarshaler}.

(** C36. No text of the request that goes to the planner contains a local path of
    the observation, provided the characters of the path are ones that JSON
    writes unescaped. *)
Theorem request_hides_paths observation assembly path v :
  Assemble observation = Ok assembly ->
  path ∈ localPaths observation -> path <> "" -> plain path = true ->
  v ∈ request_strings (as_Request assembly) -> Contains v path = false.
Proof.
  intros (files & paths & probes & candidates & imports & H)%case_assembled Hin Hne Hp Hv.
  destruct H. by eapply rejectLocalValues_path.
Qed.
End hidden_paths.
