(* ===== verification/Inspection.v ===== *)
(** * Inspecting one queue record

    [internal/inspection/inspector.go]: the queue record is selected, its
    download resolved and correlated, its files inventoried and probed, its
    discs identified, and the case assembled. The Go interfaces that reach
    Radarr, the download clients, the file system and the worker are the fields
    of [Dependencies]; what the contexts say is asked of it as well, since a
    deadline may pass between any two probes. *)
From stdpp Require Import base strings list gmap.
From S2P Require Import Prelude GoStrings GoCrypto FileIdentity Probe Media Radarr WorkerContracts.
From S2P Require Import CaseContracts Decisions DiscCandidates CaseCodec CaseEvidence CaseAssembly.
Import casebuilder assemble.

Module inspection.

Inductive CandidateUnavailableReason := CandidateMissing | CandidateIneligible.

(** An error of the inspector: [CandidateUnavailableError], or another. *)
Inductive InspectError :=
| CandidateUnavailable (queueID : Z) (reason : CandidateUnavailableReason)
    (reasons : list CandidateRejectionReason)
| InspectFailed (e : error).

Definition error_text (e : InspectError) : error :=
  match e with
  | CandidateUnavailable _ CandidateIneligible _ => "Radarr queue record is ineligible"
  | CandidateUnavailable _ CandidateMissing _ => "Radarr queue record was not found"
  | InspectFailed e => e
  end.

Definition inspected (A : Type) : Type := A + InspectError.

Definition lift {A} (r : result A) : inspected A :=
  match r with Ok a => inl a | Err e => inr (InspectFailed e) end.

Definition next {A B} (m : inspected A) (f : A -> inspected B) : inspected B :=
  match m with inl a => f a | inr e => inr e end.

(** [errors.Is(err, context.DeadlineExceeded)] tells the two apart. *)
Inductive ContextError := DeadlineExceeded | OtherContextError (e : error).

(** What [callerContext.Err()] and [collectionContext.Err()] return. *)
Record Contexts := mkContexts
  { cx_caller : option error; cx_collection : option ContextError }.

(** [archivematerialize.Source]. *)
Record Source := mkSource
  { so_Root : string; so_Inventory : FileInventory; so_Probes : option (list FileProbe) }.

Record Dependencies := mkDependencies
  { dep_Now : time;
    dep_ReadQueue : result (list RadarrQueueRecord);
    dep_RecoverMovieID : string -> result (option Z);
    dep_ReadMovie : Z -> result RadarrMovie;
    dep_ReadHistory : Z -> string -> result (list RadarrHistoryEvent);
    (** movie, download, folder *)
    dep_ReadManualImports : Z -> string -> string -> result (list RadarrManualImport);
    dep_Supports : string -> string -> bool;
    dep_Resolve : RadarrQueueRecord -> result (option Download);
    dep_Inventory : DownloadCorrelation -> result FileInventory;
    dep_Probe : string -> FileFingerprint -> result MediaProbeOutcome;
    dep_Playlists : option (string -> string -> result Playlist);
    dep_DVDs : option (string -> string -> result (list Title));
    dep_Archives : option (Z -> FileInventory -> result (option Source));
    (** The context before and after probing a file, and while its disc is read. *)
    dep_before : InventoryFile -> Contexts;
    dep_after : InventoryFile -> Contexts;
    dep_disc : InventoryFile -> option error }.

Definition UncollectedMediaProbe (reason : string) : MediaProbeOutcome :=
  mkMediaProbeOutcome MediaProbeNotCollected None reason.

Definition eligibleCandidates (assessments : list CandidateAssessment) : list RadarrQueueRecord :=
  map ca_Record (List.filter candidate_Eligible assessments).

Definition selectCandidate (records : list RadarrQueueRecord) (queueID : Z)
    (supports : string -> string -> bool) : inspected RadarrQueueRecord :=
  let assessments := ClassifyRepairCandidates records (Some supports) in
  if negb (bool_decide (queueID = 0)) then
    match List.find (fun a => bool_decide (q_ID (ca_Record a) = queueID)) assessments with
    | None => inr (CandidateUnavailable queueID CandidateMissing [])
    | Some assessment =>
        if negb (candidate_Eligible assessment)
        then inr (CandidateUnavailable queueID CandidateIneligible (ca_RejectionReasons assessment))
        else inl (ca_Record assessment)
    end
  else
    match eligibleCandidates assessments with
    | [] => inr (InspectFailed
        "Radarr queue has no completed unimported downloads eligible for inspection")
    | [record] => inl record
    | _ => inr (InspectFailed
        "Radarr queue has several completed unimported downloads eligible for inspection; select a queue ID")
    end.

Fixpoint index_probe_paths (mappings : list FilePathMapping) (paths : gmap FileID string)
    : result (gmap FileID string) :=
  match mappings with
  | [] => Ok paths
  | mapping :: rest =>
      _ ← fail_if (bool_decide (is_Some (paths !! fpm_FileID mapping)))
            "inventory contains duplicate path for file";
      index_probe_paths rest (<[fpm_FileID mapping := fpm_AbsolutePath mapping]> paths)
  end.

Section inspector.
Context {codec : RepairCodec} (deps : Dependencies).

(** The outcome recorded for one file. *)
Definition collect_probe (paths : gmap FileID string) (assessment : MediaFileAssessment)
    : result MediaProbeOutcome :=
  let file := mfa_File assessment in
  let limited := UncollectedMediaProbe MediaProbeCollectionLimit in
  if negb (ProbeCandidate assessment) then Ok (UncollectedMediaProbe MediaProbeNotCandidate)
  else
    let before := dep_before deps file in
    match cx_collection before, cx_caller before with
    | Some _, Some callerErr => Err callerErr
    | Some DeadlineExceeded, None => Ok limited
    | Some (OtherContextError e), None => Err e
    | None, _ =>
        match paths !! if_ID file with
        | None => Err "candidate file has no local path"
        | Some path =>
            match dep_Probe deps path (if_Fingerprint file) with
            | Ok outcome => Ok outcome
            | Err e =>
                match cx_caller (dep_after deps file), cx_collection (dep_after deps file) with
                | Some callerErr, _ => Err callerErr
                | None, Some DeadlineExceeded => Ok limited
                | None, _ => Err "probe candidate file"
                end
            end
        end
    end.

Fixpoint collect_probes (paths : gmap FileID string) (assessments : list MediaFileAssessment)
    : result (list FileProbe) :=
  match assessments with
  | [] => Ok []
  | assessment :: rest =>
      outcome ← collect_probe paths assessment;
      others ← collect_probes paths rest;
      mret (mkFileProbe (if_ID (mfa_File assessment)) outcome :: others)
  end.

Definition collectProbes (inventory : FileInventory) : result (list FileProbe) :=
  paths ← index_probe_paths (fi_Paths inventory) ∅;
  collect_probes paths (ClassifyMediaFiles inventory).

(** The identity of a record whose movie Radarr no longer lists. *)
Definition with_movie (movieID : Z) (record : RadarrQueueRecord) : RadarrQueueRecord :=
  mkQueueRecord (q_ID record) (Some movieID) (q_Title record) (q_SizeBytes record)
    (q_SizeRemainingBytes record) (q_TimeRemaining record) (q_EstimatedCompletionTime record)
    (q_Status record) (q_TrackedDownloadStatus record) (q_TrackedDownloadState record)
    (q_StatusMessages record) (q_ErrorMessage record) (q_DownloadID record) (q_Protocol record)
    (q_DownloadClient record) (q_Indexer record) (q_OutputPath record)
    (q_DownloadClientHasPostCategory record).

Definition recover_movie (record : RadarrQueueRecord) : result RadarrQueueRecord :=
  match q_MovieID record with
  | Some _ => Ok record
  | None =>
      recovered ← dep_RecoverMovieID deps (q_DownloadID record);
      mret (match recovered with Some movieID => with_movie movieID record | None => record end)
  end.

(** The movie of the record and its history, when it has one. *)
Definition read_movie (record : RadarrQueueRecord)
    : result (option RadarrMovie * list RadarrHistoryEvent) :=
  match q_MovieID record with
  | Some movieID =>
      if bool_decide (0 < movieID) then
        movie ← dep_ReadMovie deps movieID;
        history ← dep_ReadHistory deps movieID (q_DownloadID record);
        mret (Some movie, history)
      else mret (None, [])
  | None => mret (None, [])
  end.

(** The root to import from, the inventory and its probes: of a materialized
    archive when there is one, of the download otherwise. *)
Definition read_files (record : RadarrQueueRecord) (correlation : DownloadCorrelation)
    : result (string * FileInventory * list FileProbe) :=
  inventory ← dep_Inventory deps correlation;
  source ← match dep_Archives deps with
           | Some MaterializeVideo => MaterializeVideo (q_ID record) inventory
           | None => mret None
           end;
  let '(root, inventory, probes) :=
    match source with
    | Some source => (so_Root source, so_Inventory source, so_Probes source)
    | None => (dc_DownloadRoot correlation, inventory, None)
    end in
  match probes with
  | Some probes => mret (root, inventory, probes)
  | None => probes ← collectProbes inventory; mret (root, inventory, probes)
  end.

Definition read_imports (record : RadarrQueueRecord) (movie : option RadarrMovie) (root : string)
    : result (list RadarrManualImport) :=
  match movie with
  | Some movie => dep_ReadManualImports deps (mv_ID movie) (q_DownloadID record) root
  | None => mret []
  end.

Definition read_discs (inventory : FileInventory)
    : result (list PlaylistCandidate * list TitleCandidate) :=
  playlists ← match dep_Playlists deps with
              | Some Identify => mkvmerge.ListFeaturePlaylists (dep_disc deps) Identify inventory
              | None => mret []
              end;
  titles ← match dep_DVDs deps with
           | Some IdentifyDVD => dvdvideo.ListFeatureTitles (dep_disc deps) IdentifyDVD inventory
           | None => mret []
           end;
  mret (playlists, titles).

Definition inspectRecord (record : RadarrQueueRecord) : result Assembly :=
  record ← recover_movie record;
  resolved ← dep_Resolve deps record;
  match resolved with
  | None => Err "download for queue record was not found"
  | Some download =>
      let correlation := CorrelateDownload record download in
      _ ← fail_if (negb (correlation_Eligible correlation))
            "queue record has an ineligible download correlation";
      '(movie, history) ← read_movie record;
      '(root, inventory, probes) ← read_files record correlation;
      manualImports ← read_imports record movie root;
      '(playlists, titles) ← read_discs inventory;
      Assemble (mkObservation (dep_Now deps) correlation movie history manualImports inventory probes
        playlists titles)
  end.

Definition Inspect (queueID : Z) : inspected Assembly :=
  if bool_decide (queueID < 0) then inr (InspectFailed "queue ID must not be negative")
  else
    next (lift (dep_ReadQueue deps)) (fun records =>
    next (selectCandidate records queueID (dep_Supports deps)) (fun record =>
    lift (inspectRecord record))).

(** ** What an inspection observed *)

(** Every file has a probe, and only candidates were probed. *)
Lemma collect_probes_Ok paths assessments probes :
  collect_probes paths assessments = Ok probes ->
  map fp_FileID probes = map (fun a => if_ID (mfa_File a)) assessments /\
  Forall2 (fun a p => collect_probe paths a = Ok (fp_Outcome p)) assessments probes.
Proof.
  revert probes. induction assessments as [|a assessments IH]; intros probes; cbn [collect_probes].
  - intros [= <-]. by split; [|constructor].
  - intros (outcome & Ho & (others & [Hids Hall]%IH & [= <-])%bind_Ok)%bind_Ok.
    split; [cbn; by rewrite Hids|by constructor].
Qed.

Lemma recover_movie_Ok record record' :
  recover_movie record = Ok record' ->
  q_ID record' = q_ID record /\ q_DownloadID record' = q_DownloadID record /\
  q_OutputPath record' = q_OutputPath record /\
  q_TrackedDownloadState record' = q_TrackedDownloadState record /\
  (q_MovieID record <> None -> record' = record).
Proof.
  unfold recover_movie. destruct (q_MovieID record) eqn:Hm; [by intros [= <-]|].
  intros (recovered & _ & [= <-])%bind_Ok. by destruct recovered.
Qed.

Lemma CorrelateDownload_Radarr record download :
  dc_Radarr (CorrelateDownload record download) = record.
Proof.
  unfold CorrelateDownload. cbv zeta. by repeat case_match.
Qed.

Lemma selectCandidate_inl records queueID supports record :
  queueID <> 0 -> selectCandidate records queueID supports = inl record ->
  record ∈ records /\ q_ID record = queueID /\
  candidate_Eligible (classifyRepairCandidate record (Some supports)) = true.
Proof.
  intros Hne. unfold selectCandidate. rewrite bool_decide_eq_false_2 by done. cbn [negb].
  destruct (List.find _ _) as [a|] eqn:Hf; [|done].
  destruct (candidate_Eligible a) eqn:He; [|done]. intros [= <-].
  apply List.find_some in Hf as [Hin Hid%bool_decide_eq_true].
  apply list_elem_of_In in Hin. unfold ClassifyRepairCandidates in Hin.
  apply list_elem_of_fmap in Hin as (r & -> & Hr). by split_and!.
Qed.

(** The observation behind an inspected case is of the selected record. *)
Lemma inspectRecord_Ok record assembly :
  inspectRecord record = Ok assembly ->
  exists observation, Assemble observation = Ok assembly /\
    q_ID (dc_Radarr (ob_Correlation observation)) = q_ID record /\
    q_DownloadID (dc_Radarr (ob_Correlation observation)) = q_DownloadID record /\
    (q_MovieID record <> None -> dc_Radarr (ob_Correlation observation) = record) /\
    exists download, dep_Resolve deps (dc_Radarr (ob_Correlation observation)) = Ok (Some download) /\
      ob_Correlation observation =
        CorrelateDownload (dc_Radarr (ob_Correlation observation)) download.
Proof.
  unfold inspectRecord.
  intros (record' & (Hid & Hdl & _ & _ & Hsame)%recover_movie_Ok & H)%bind_Ok.
  apply bind_Ok in H as ([download|] & Hd & H); [|done].
  apply bind_Ok in H as (u & _ & ([movie history] & _ & H)%bind_Ok).
  apply bind_Ok in H as ([[root inventory] probes] & _ & (imports & _ & H)%bind_Ok).
  apply bind_Ok in H as ([playlists titles] & _ & H).
  eexists. split; [done|]. cbn [ob_Correlation]. rewrite CorrelateDownload_Radarr.
  split_and!; [done..|]. exists download. by rewrite Hd.
Qed.
End inspector.
End inspection.
