(* ===== verification/ManualImportPolicy.v ===== *)
(** * Validation of a manual-import decision

    [internal/decisionpolicy/manual_import.go]: a planner decision to import
    one file becomes an authorization only when the stored snapshot still
    supports every field of the import command that was bound in advance. *)
From stdpp Require Import base strings list gmap.
From S2P Require Import Prelude GoStrings FileIdentity Probe Media Radarr WorkerContracts Decisions.

Inductive ManualImportRejectionReason :=
| ManualImportWrongDecisionAction | ManualImportCaseMismatch | ManualImportCapabilityNotFound
| ManualImportCapabilityWrongAction | ManualImportFileMismatch | ManualImportBindingNotFound
| ManualImportBindingIncomplete | ManualImportFileNotInSnapshot | ManualImportFileNotActionable
| ManualImportFingerprintChanged | ManualImportPathChanged | ManualImportDownloadMismatch
| ManualImportMovieMismatch | ManualImportProbeUnavailable | ManualImportVideoMissing
| ManualImportDurationUnavailable | ManualImportRuntimeMismatch.

Record AuthorizedManualImport := mkAuthorizedManualImport
  { am_CaseID : string; am_CapabilityID : string; am_FileID : FileID;
    am_ExpectedFingerprint : FileFingerprint; am_ImportMode : string;
    am_File : RadarrManualImportCommandFile; am_ProbeDurationMS : Z; am_RuntimeToleranceMS : Z }.

#[global] Instance AuthorizedManualImport_eq_dec : EqDecision AuthorizedManualImport.
Proof. solve_decision. Defined.

Record ManualImportValidation := mkManualImportValidation
  { miv_Authorized : option AuthorizedManualImport;
    miv_Rejections : list ManualImportRejectionReason;
    miv_Runtime : option ManualImportRuntimeAssessment }.

(** [ManualImportValidation.Accepted]. *)
Definition manual_Accepted (validation : ManualImportValidation) : bool :=
  match miv_Authorized validation with
  | Some _ => bool_decide (length (miv_Rejections validation) = 0%nat)
  | None => false
  end.

Definition rejectManualImport (rejections : list ManualImportRejectionReason)
    (reason : ManualImportRejectionReason) : ManualImportValidation :=
  mkManualImportValidation None (rejections ++ [reason]) None.

Definition reject_when {R} (condition : bool) (reason : R) (rejections : list R) : list R :=
  if condition then rejections ++ [reason] else rejections.

Definition hasVideo (streams : list ProbeStream) : bool :=
  existsb (fun stream => bool_decide (ps_Kind stream = Some ProbeStreamVideo)) streams.

Definition movieRuntime (movie : option RadarrMovie) : option Z :=
  match movie with None => None | Some movie => mv_RuntimeMinutes movie end.

(** The checks on the probe and the authorization they lead to. *)
Definition manual_import_probe (assembly : Assembly) (capability : Capability)
    (binding : RadarrManualImportBinding) (policy : RuntimePolicy)
    (rejections : list ManualImportRejectionReason) : ManualImportValidation :=
  let observation := ls_Observation (as_LocalSnapshot assembly) in
  match usableProbe (indexProbes (ob_Probes observation) !! bd_FileID binding) with
  | None => rejectManualImport rejections ManualImportProbeUnavailable
  | Some evidence =>
      let rejections := reject_when (negb (hasVideo (pe_Streams evidence)))
                          ManualImportVideoMissing rejections in
      let duration := AssessProbeDuration evidence in
      match da_Conflict duration, da_EffectiveMS duration with
      | false, Some effective =>
          let runtime := assessManualImportRuntime effective (movieRuntime (ob_Movie observation))
                           policy in
          let rejections :=
            match ra_DifferenceMS runtime, ra_ToleranceMS runtime with
            | Some difference, Some tolerance =>
                reject_when (bool_decide (tolerance < difference)) ManualImportRuntimeMismatch
                  rejections
            | _, _ => rejections
            end in
          match rejections with
          | _ :: _ => mkManualImportValidation None rejections (Some runtime)
          | [] =>
              mkManualImportValidation
                (Some (mkAuthorizedManualImport (rc_CaseID (as_Request assembly))
                         (cap_CapabilityID capability) (bd_FileID binding)
                         (bd_ExpectedFingerprint binding) (bd_ImportMode binding) (bd_File binding)
                         effective (runtimeTolerance runtime)))
                [] (Some runtime)
          end
      | _, _ => rejectManualImport rejections ManualImportDurationUnavailable
      end
  end.

(** The checks on the bound file and its surroundings in the snapshot. *)
Definition manual_import_file (assembly : Assembly) (capability : Capability)
    (binding : RadarrManualImportBinding) (policy : RuntimePolicy)
    (rejections : list ManualImportRejectionReason) : ManualImportValidation :=
  let observation := ls_Observation (as_LocalSnapshot assembly) in
  let rejections := reject_when (negb (binding_Complete binding)) ManualImportBindingIncomplete
                      rejections in
  match indexFiles (ob_Inventory observation) !! bd_FileID binding with
  | None => rejectManualImport rejections ManualImportFileNotInSnapshot
  | Some file =>
      let rejections := reject_when (negb (ProbeCandidate (classifyMediaFile file)))
                          ManualImportFileNotActionable rejections in
      let rejections := reject_when (negb (bool_decide (bd_ExpectedFingerprint binding =
                          if_Fingerprint file))) ManualImportFingerprintChanged rejections in
      let rejections :=
        reject_when
          (match findFilePath (fi_Paths (ob_Inventory observation)) (bd_FileID binding) with
           | Some path => negb (bool_decide (path = cf_Path (bd_File binding)))
           | None => true
           end) ManualImportPathChanged rejections in
      let rejections :=
        reject_when (negb (bool_decide (cf_DownloadID (bd_File binding) =
                       q_DownloadID (dc_Radarr (ob_Correlation observation)))))
          ManualImportDownloadMismatch rejections in
      let rejections :=
        reject_when
          (match ob_Movie observation, q_MovieID (dc_Radarr (ob_Correlation observation)) with
           | Some movie, Some movieID =>
               negb (bool_decide (cf_MovieID (bd_File binding) = mv_ID movie)) ||
               negb (bool_decide (cf_MovieID (bd_File binding) = movieID))
           | _, _ => true
           end) ManualImportMovieMismatch rejections in
      manual_import_probe assembly capability binding policy rejections
  end.

Definition ValidateManualImportWithPolicy (assembly : Assembly) (decision : RepairDecisionV3)
    (policy : RuntimePolicy) : ManualImportValidation :=
  if negb (bool_decide (rdv_Kind decision = ActionManualImportFile))
  then rejectManualImport [] ManualImportWrongDecisionAction
  else match rdv_ManualImportFile decision with
  | None => rejectManualImport [] ManualImportWrongDecisionAction
  | Some manualImport =>
      if negb (bool_decide (md_Action manualImport = ActionManualImportFile))
      then rejectManualImport [] ManualImportWrongDecisionAction
      else
        let rejections :=
          reject_when
            (negb (bool_decide (md_CaseID manualImport = rc_CaseID (as_Request assembly))) ||
             negb (bool_decide (ls_CaseID (as_LocalSnapshot assembly) =
                                rc_CaseID (as_Request assembly))))
            ManualImportCaseMismatch [] in
        match findCapability (rc_Capabilities (as_Request assembly)) (md_CapabilityID manualImport) with
        | None => rejectManualImport rejections ManualImportCapabilityNotFound
        | Some capability =>
            if negb (bool_decide (cap_Action capability = CapabilityActionManualImportFile))
            then rejectManualImport rejections ManualImportCapabilityWrongAction
            else if negb (bool_decide (cap_FileID capability = Some (md_FileID manualImport)))
            then rejectManualImport rejections ManualImportFileMismatch
            else match ls_ManualImportBindings (as_LocalSnapshot assembly)
                         !! md_CapabilityID manualImport with
            | None => rejectManualImport rejections ManualImportBindingNotFound
            | Some binding =>
                if negb (bool_decide (bd_FileID binding = md_FileID manualImport))
                then rejectManualImport rejections ManualImportFileMismatch
                else manual_import_file assembly capability binding policy rejections
            end
        end
  end.

Definition ValidateManualImport (assembly : Assembly) (decision : RepairDecisionV3)
    : ManualImportValidation :=
  ValidateManualImportWithPolicy assembly decision (mkRuntimePolicy 0).

(** ** Properties *)

Lemma reject_when_nil {R} condition (reason : R) rejections :
  reject_when condition reason rejections = [] <-> condition = false /\ rejections = [].
Proof. destruct condition; simpl; [|tauto]. destruct rejections; naive_solver. Qed.

Lemma rejectManualImport_None rejections reason :
  miv_Authorized (rejectManualImport rejections reason) = None.
Proof. done. Qed.

(** What the snapshot must say for the authorization to be given. *)
Record manual_import_supported (assembly : Assembly) (policy : RuntimePolicy)
    (a : AuthorizedManualImport) : Prop := mk_supported
  { ms_case : am_CaseID a = rc_CaseID (as_Request assembly) /\
              ls_CaseID (as_LocalSnapshot assembly) = am_CaseID a;
    ms_capability : exists capability,
      capability ∈ rc_Capabilities (as_Request assembly) /\
      cap_CapabilityID capability = am_CapabilityID a /\
      cap_Action capability = CapabilityActionManualImportFile /\
      cap_FileID capability = Some (am_FileID a);
    ms_binding : ls_ManualImportBindings (as_LocalSnapshot assembly) !! am_CapabilityID a =
      Some (mkBinding (am_FileID a) (am_ExpectedFingerprint a) (am_ImportMode a) (am_File a));
    ms_complete :
      binding_Complete
        (mkBinding (am_FileID a) (am_ExpectedFingerprint a) (am_ImportMode a) (am_File a)) = true;
    ms_file : exists file,
      file ∈ fi_Files (ob_Inventory (ls_Observation (as_LocalSnapshot assembly))) /\
      if_ID file = am_FileID a /\ if_Fingerprint file = am_ExpectedFingerprint a /\
      ProbeCandidate (classifyMediaFile file) = true;
    ms_path : mkFilePathMapping (am_FileID a) (cf_Path (am_File a)) ∈
      fi_Paths (ob_Inventory (ls_Observation (as_LocalSnapshot assembly)));
    ms_download : cf_DownloadID (am_File a) =
      q_DownloadID (dc_Radarr (ob_Correlation (ls_Observation (as_LocalSnapshot assembly))));
    ms_movie : exists movie, ob_Movie (ls_Observation (as_LocalSnapshot assembly)) = Some movie /\
      cf_MovieID (am_File a) = mv_ID movie /\
      q_MovieID (dc_Radarr (ob_Correlation (ls_Observation (as_LocalSnapshot assembly)))) =
        Some (mv_ID movie) /\
      (forall minutes, mv_RuntimeMinutes movie = Some minutes ->
         runtime_range minutes (am_ProbeDurationMS a) ->
         am_RuntimeToleranceMS a = allowed_tolerance minutes policy /\
         runtime_close (am_ProbeDurationMS a) minutes (am_RuntimeToleranceMS a));
    ms_probe : exists probe evidence,
      probe ∈ ob_Probes (ls_Observation (as_LocalSnapshot assembly)) /\
      fp_FileID probe = am_FileID a /\
      mpo_Status (fp_Outcome probe) = MediaProbeSucceeded /\
      mpo_Evidence (fp_Outcome probe) = Some evidence /\
      hasVideo (pe_Streams evidence) = true /\
      part_usable evidence (am_ProbeDurationMS a) }.

Lemma manual_import_probe_authorized assembly capability binding policy rejections a :
  miv_Authorized (manual_import_probe assembly capability binding policy rejections) = Some a ->
  rejections = [] /\
  am_CaseID a = rc_CaseID (as_Request assembly) /\
  am_CapabilityID a = cap_CapabilityID capability /\
  binding = mkBinding (am_FileID a) (am_ExpectedFingerprint a) (am_ImportMode a) (am_File a) /\
  (exists evidence,
     usableProbe (indexProbes (ob_Probes (ls_Observation (as_LocalSnapshot assembly)))
       !! am_FileID a) = Some evidence /\
     hasVideo (pe_Streams evidence) = true /\ part_usable evidence (am_ProbeDurationMS a)) /\
  let runtime := assessManualImportRuntime (am_ProbeDurationMS a)
    (movieRuntime (ob_Movie (ls_Observation (as_LocalSnapshot assembly)))) policy in
  am_RuntimeToleranceMS a = runtimeTolerance runtime /\
  (forall d t, ra_DifferenceMS runtime = Some d -> ra_ToleranceMS runtime = Some t -> d <= t).
Proof.
  unfold manual_import_probe. destruct (usableProbe _) as [evidence|] eqn:Hp; [|done].
  destruct (da_Conflict _) eqn:Hc; [done|].
  destruct (da_EffectiveMS _) as [effective|] eqn:He; [|done].
  set (runtime := assessManualImportRuntime _ _ _).
  destruct (match ra_DifferenceMS runtime with Some _ => _ | None => _ end) eqn:Hr; [|done].
  intros [= <-]. cbn [am_CaseID am_CapabilityID am_FileID am_ExpectedFingerprint am_ImportMode
    am_File am_ProbeDurationMS am_RuntimeToleranceMS]. fold runtime.
  assert (reject_when (negb (hasVideo (pe_Streams evidence))) ManualImportVideoMissing rejections = []
    /\ forall d t, ra_DifferenceMS runtime = Some d -> ra_ToleranceMS runtime = Some t -> d <= t)
    as [Hrej Hrt].
  { destruct (ra_DifferenceMS runtime) as [d|], (ra_ToleranceMS runtime) as [t|];
      try (by split; [done|]).
    apply reject_when_nil in Hr as [Hlt ->]. split; [done|]. split_bool. intros ? ? [= <-] [= <-]. lia. }
  apply reject_when_nil in Hrej as [Hv ->]. apply negb_false_iff in Hv.
  split_and!; try done; [by destruct binding|].
  exists evidence. split_and!; [done|done|]. by split.
Qed.

Lemma manual_import_file_authorized assembly capability binding policy rejections a :
  miv_Authorized (manual_import_file assembly capability binding policy rejections) = Some a ->
  rejections = [] /\ binding_Complete binding = true /\
  miv_Authorized (manual_import_probe assembly capability binding policy []) = Some a /\
  (exists file, indexFiles (ob_Inventory (ls_Observation (as_LocalSnapshot assembly)))
       !! bd_FileID binding = Some file /\
     ProbeCandidate (classifyMediaFile file) = true /\
     bd_ExpectedFingerprint binding = if_Fingerprint file) /\
  findFilePath (fi_Paths (ob_Inventory (ls_Observation (as_LocalSnapshot assembly))))
    (bd_FileID binding) = Some (cf_Path (bd_File binding)) /\
  cf_DownloadID (bd_File binding) =
    q_DownloadID (dc_Radarr (ob_Correlation (ls_Observation (as_LocalSnapshot assembly)))) /\
  exists movie, ob_Movie (ls_Observation (as_LocalSnapshot assembly)) = Some movie /\
    cf_MovieID (bd_File binding) = mv_ID movie /\
    q_MovieID (dc_Radarr (ob_Correlation (ls_Observation (as_LocalSnapshot assembly)))) =
      Some (cf_MovieID (bd_File binding)).
Proof.
  unfold manual_import_file. destruct (indexFiles _ !! _) as [file|] eqn:Hf; [|done].
  intros H. pose proof (manual_import_probe_authorized _ _ _ _ _ _ H) as [Hnil _].
  rewrite Hnil in H.
  apply reject_when_nil in Hnil as [Hmovie [Hdl [Hpath [Hfp [Hcand [Hcomp ->]%reject_when_nil]
    %reject_when_nil]%reject_when_nil]%reject_when_nil]%reject_when_nil].
  apply negb_false_iff in Hcand, Hcomp. split_bool.
  destruct (findFilePath _ _) as [path|] eqn:Hp; [|done]. split_bool. subst path.
  destruct (ob_Movie _) as [movie|]; [|done].
  destruct (q_MovieID _) as [movieID|] eqn:Hm; [|done]. split_bool.
  split_and!; try done; [by exists file|]. exists movie. split_and!; [done|done|congruence].
Qed.

Lemma manual_import_file_rejections assembly capability binding policy rejections a :
  miv_Authorized (manual_import_file assembly capability binding policy rejections) = Some a ->
  miv_Rejections (manual_import_file assembly capability binding policy rejections) = [].
Proof.
  unfold manual_import_file, manual_import_probe. cbv zeta. destruct (indexFiles _ !! _); [|done].
  destruct (usableProbe _); [|done]. destruct (da_Conflict _); [done|].
  destruct (da_EffectiveMS _); [|done].
  destruct (match ra_DifferenceMS _ with Some _ => _ | None => _ end); done.
Qed.

Lemma authorized_manual_import_supported (assembly : Assembly) (decision : RepairDecisionV3)
    (policy : RuntimePolicy) (a : AuthorizedManualImport) :
  miv_Authorized (ValidateManualImportWithPolicy assembly decision policy) = Some a ->
  manual_import_supported assembly policy a /\
  manual_Accepted (ValidateManualImportWithPolicy assembly decision policy) = true /\
  decision_CaseID decision = am_CaseID a.
Proof.
  unfold ValidateManualImportWithPolicy.
  case_bool_decide as Hkind; cbn [negb]; [|done].
  destruct (rdv_ManualImportFile decision) as [d|] eqn:Hd; [|done].
  case_bool_decide as Hact; cbn [negb]; [|done].
  set (rej := reject_when _ ManualImportCaseMismatch []).
  destruct (findCapability _ _) as [capability|] eqn:Hcap; [|done].
  case_bool_decide as Hca; cbn [negb]; [|done].
  case_bool_decide as Hcf; cbn [negb]; [|done].
  destruct (ls_ManualImportBindings _ !! _) as [binding|] eqn:Hb; [|done].
  case_bool_decide as Hbf; cbn [negb]; [|done].
  intros Ha. pose proof (manual_import_file_authorized _ _ _ _ _ _ Ha)
    as (Hrej & Hcomp & Hprobe & (file & Hfile & Hcand & Hfp) & Hpath & Hdl & movie & Hmv & Hmi & Hqm).
  subst rej. apply reject_when_nil in Hrej as [Hcase _]. split_bool.
  pose proof (manual_import_probe_authorized _ _ _ _ _ _ Hprobe)
    as (_ & Hid & Hcid & Hbind & (evidence & Hev & Hvid & Huse) & Htol & Hle).
  apply findCapability_sound in Hcap as [Hin Hcapid].
  split; [|split].
  - rewrite Hbind in *. cbn [bd_FileID bd_ExpectedFingerprint bd_ImportMode bd_File] in *.
    apply indexFiles_sound in Hfile as [Hfin Hfid]. apply usableProbe_Some in Hev as
      (outcome & (probe & Hpin & Hpid & <-)%indexProbes_sound & Hst & Hevd).
    constructor.
    + split; [done|]. congruence.
    + exists capability. split_and!; try done. by rewrite Hcf, <-Hbf.
    + congruence.
    + done.
    + exists file. split_and!; congruence.
    + by apply findFilePath_sound.
    + done.
    + exists movie. rewrite Hmi in Hqm. split_and!; try done.
      intros minutes Hmin Hrange. rewrite Hmv in Htol, Hle. simpl movieRuntime in Htol, Hle.
      rewrite Hmin in Htol, Hle.
      destruct (assessManualImportRuntime_spec _ _ policy Hrange) as [Hdiff Ht].
      unfold runtimeTolerance in Htol. rewrite Ht in Htol. split; [done|].
      unfold runtime_close. rewrite Htol. by apply Hle.
    + exists probe, evidence. by split_and!.
  - unfold manual_Accepted. rewrite Ha, (manual_import_file_rejections _ _ _ _ _ _ Ha). done.
  - unfold decision_CaseID. rewrite Hkind, Hd. vm_compute bool_decide. congruence.
Qed.

(** C31. An accepted manual import is authorized for exactly the file and command
    that were bound in advance: the case, capability, inventory entry,
    fingerprint, path, download and movie of the stored snapshot all agree
    with it, the file was probed with a video stream and an agreed duration,
    and that duration is within the policy's tolerance of the movie runtime. *)
Theorem ValidateManualImportWithPolicy_sound (assembly : Assembly) (decision : RepairDecisionV3)
    (policy : RuntimePolicy) (a : AuthorizedManualImport) :
  miv_Authorized (ValidateManualImportWithPolicy assembly decision policy) = Some a ->
  manual_import_supported assembly policy a /\
  manual_Accepted (ValidateManualImportWithPolicy assembly decision policy) = true /\
  decision_CaseID decision = am_CaseID a.
Proof. apply authorized_manual_import_supported. Qed.
