(* ===== verification/JoinPolicy.v ===== *)
(** * Validation of a join decision

    [internal/decisionpolicy/join.go]: a planner decision to concatenate files
    becomes an authorization only when every chosen file was offered, is
    complete and probed in the stored snapshot, and the parts pass the
    feasibility assessment. A nil dereference is a panic and is [None]. *)
From stdpp Require Import base strings list gmap.
From S2P Require Import Prelude GoStrings FileIdentity Probe Streams Media Radarr JoinFeasibility.
From S2P Require Import WorkerContracts Decisions.

Inductive JoinRejectionReason :=
| JoinWrongDecisionAction | JoinCaseMismatch | JoinCapabilityNotFound | JoinCapabilityWrongAction
| JoinTooFewSelectedFiles | JoinDuplicateSelectedFile | JoinFileNotOffered | JoinFileNotInSnapshot
| JoinFileNotActionable | JoinProbeUnavailable | JoinTechnicalChecksRejected.

Record JoinRejection := mkJoinRejection
  { jr_Reason : JoinRejectionReason; jr_PartPosition : option Z; jr_FileID : FileID }.

Record AuthorizedJoinPart := mkAuthorizedPart
  { ap_FileID : FileID; ap_Fingerprint : FileFingerprint }.

Record AuthorizedJoin := mkAuthorizedJoin
  { aj_CaseID : string; aj_CapabilityID : string; aj_OrderedParts : list AuthorizedJoinPart;
    aj_SourceBytes : Z; aj_ExpectedDurationMS : Z; aj_DurationToleranceMS : Z;
    aj_OutputContainer : OutputContainer; aj_ExpectedStreamLayout : StreamLayout }.

#[global] Instance AuthorizedJoinPart_eq_dec : EqDecision AuthorizedJoinPart.
Proof. solve_decision. Defined.
#[global] Instance AuthorizedJoin_eq_dec : EqDecision AuthorizedJoin.
Proof. solve_decision. Defined.

Record JoinValidation := mkJoinValidation
  { jv_Authorized : option AuthorizedJoin; jv_Rejections : list JoinRejection;
    jv_Feasibility : option JoinFeasibilityAssessment }.

(** [JoinValidation.Accepted]. *)
Definition join_Accepted (validation : JoinValidation) : bool :=
  match jv_Authorized validation with
  | Some _ => bool_decide (length (jv_Rejections validation) = 0%nat)
  | None => false
  end.

Definition rejected (rejections : list JoinRejection) (reason : JoinRejectionReason)
    (position : option Z) (fileID : FileID) : list JoinRejection :=
  rejections ++ [mkJoinRejection reason position fileID].

Definition rejected_validation (rejections : list JoinRejection) : JoinValidation :=
  mkJoinValidation None rejections None.

(** What the loop decides about one selected file that is not a duplicate. *)
Definition selected_part (offered : list string) (files : gmap string InventoryFile)
    (probes : gmap string MediaProbeOutcome) (fileID : FileID)
    : JoinPartEvidence + JoinRejectionReason :=
  if negb (bool_decide (fileID ∈ offered)) then inr JoinFileNotOffered
  else match files !! fileID with
  | None => inr JoinFileNotInSnapshot
  | Some file =>
      let assessment := classifyMediaFile file in
      if negb (ProbeCandidate assessment) || negb (SupportsJoinPartsPath (if_PathComponents file))
      then inr JoinFileNotActionable
      else match usableProbe (probes !! fileID) with
      | None => inr JoinProbeUnavailable
      | Some evidence =>
          inl (mkJoinPart fileID (mfa_Extension assessment) (if_Fingerprint file) (Some evidence))
      end
  end.

(** The loop over the selected files: [seen] identifiers, rejections and parts
    so far. *)
Fixpoint selected_loop (offered : list string) (files : gmap string InventoryFile)
    (probes : gmap string MediaProbeOutcome) (position : Z) (seen : list string)
    (rejections : list JoinRejection) (parts : list JoinPartEvidence) (selected : list string)
    : list JoinRejection * list JoinPartEvidence :=
  match selected with
  | [] => (rejections, parts)
  | fileID :: rest =>
      if bool_decide (fileID ∈ seen)
      then selected_loop offered files probes (position + 1) seen
             (rejected rejections JoinDuplicateSelectedFile (Some position) fileID) parts rest
      else
        let seen := fileID :: seen in
        match selected_part offered files probes fileID with
        | inl part => selected_loop offered files probes (position + 1) seen rejections
                        (parts ++ [part]) rest
        | inr reason => selected_loop offered files probes (position + 1) seen
                          (rejected rejections reason (Some position) fileID) parts rest
        end
  end.

Definition authorized_part (part : JoinPartEvidence) : AuthorizedJoinPart :=
  mkAuthorizedPart (jp_FileID part) (jp_Fingerprint part).

(** The tail of [ValidateJoin], once no selected file was rejected. *)
Definition authorize_join (caseID capabilityID : string) (parts : list JoinPartEvidence)
    : option JoinValidation :=
  match AssessJoinFeasibility parts with
  | None => None
  | Some feasibility =>
      if negb (Eligible feasibility)
      then Some (mkJoinValidation None (rejected [] JoinTechnicalChecksRejected None "")
                   (Some feasibility))
      else match jf_SourceBytes feasibility, jd_ExpectedMS (jf_Duration feasibility),
                 jd_ToleranceMS (jf_Duration feasibility),
                 oc_Container (jf_OutputContainer feasibility),
                 sa_Layout (jf_Streams feasibility) with
      | Some bytes, Some expected, Some tolerance, Some container, Some layout =>
          Some (mkJoinValidation
                  (Some (mkAuthorizedJoin caseID capabilityID (map authorized_part parts) bytes
                           expected tolerance container layout))
                  [] (Some feasibility))
      | _, _, _, _, _ => None
      end
  end.

Definition ValidateJoin (assembly : Assembly) (decision : RepairDecisionV3) : option JoinValidation :=
  let wrong := Some (rejected_validation (rejected [] JoinWrongDecisionAction None "")) in
  if negb (bool_decide (rdv_Kind decision = ActionJoinParts)) then wrong
  else match rdv_JoinParts decision with
  | None => wrong
  | Some join =>
      if negb (bool_decide (jn_Action join = ActionJoinParts)) then wrong
      else
        let caseID := rc_CaseID (as_Request assembly) in
        let rejections :=
          if negb (bool_decide (jn_CaseID join = caseID)) ||
             negb (bool_decide (ls_CaseID (as_LocalSnapshot assembly) = caseID))
          then rejected [] JoinCaseMismatch None "" else [] in
        match findCapability (rc_Capabilities (as_Request assembly)) (jn_CapabilityID join) with
        | None => Some (rejected_validation (rejected rejections JoinCapabilityNotFound None ""))
        | Some capability =>
            if negb (bool_decide (cap_Action capability = CapabilityActionJoinParts))
            then Some (rejected_validation (rejected rejections JoinCapabilityWrongAction None ""))
            else
              let rejections :=
                if bool_decide (length (jn_OrderedFileIDS join) < 2)%nat
                then rejected rejections JoinTooFewSelectedFiles None "" else rejections in
              let observation := ls_Observation (as_LocalSnapshot assembly) in
              let '(rejections, parts) :=
                selected_loop (cap_CandidateFileIDS capability) (indexFiles (ob_Inventory observation))
                  (indexProbes (ob_Probes observation)) 0 [] rejections [] (jn_OrderedFileIDS join) in
              match rejections with
              | _ :: _ => Some (rejected_validation rejections)
              | [] => authorize_join caseID (cap_CapabilityID capability) parts
              end
        end
  end.

(** ** Properties *)

Lemma selected_loop_spec offered files probes position seen rejections parts selected parts' :
  selected_loop offered files probes position seen rejections parts selected = ([], parts') <->
  rejections = [] /\ NoDup selected /\ Forall (fun id => id ∉ seen) selected /\
  exists ps, parts' = parts ++ ps /\
    Forall2 (fun id part => selected_part offered files probes id = inl part) selected ps.
Proof.
  revert position seen rejections parts.
  induction selected as [|id selected IH]; intros position seen rejections parts.
  - simpl. split.
    + intros [= -> ->]. split_and!; [done|by constructor|by constructor|].
      exists []. by rewrite app_nil_r.
    + intros (-> & _ & _ & ps & -> & Hps). inversion Hps. by rewrite app_nil_r.
  - cbn [selected_loop]. case_bool_decide as Hseen.
    + rewrite IH. unfold rejected. split; [intros (H & _); by destruct rejections|].
      intros (_ & _ & [Hns _]%Forall_cons & _). done.
    + destruct (selected_part offered files probes id) as [part|reason] eqn:Hpart.
      * rewrite IH, NoDup_cons, Forall_cons. split.
        -- intros (-> & Hnd & Hns & ps & -> & Hps). rewrite Forall_forall in Hns.
           split_and!; try done.
           ++ intros Hin. apply (Hns id); [done|]. by left.
           ++ apply Forall_forall. intros x Hx Hxs. apply (Hns x); [done|]. by right.
           ++ exists (part :: ps). rewrite <-app_assoc. split; [done|]. by constructor.
        -- intros (-> & [Hni Hnd] & [_ Hns] & ps & -> & Hps). rewrite Forall_forall in Hns.
           apply Forall2_cons_inv_l in Hps as (p & ps' & Hp & Hps & ->).
           rewrite Hpart in Hp. injection Hp as <-. split_and!; try done.
           ++ apply Forall_forall. intros x Hx [->|Hxs]%elem_of_cons; [done|]. by apply (Hns x).
           ++ exists ps'. by rewrite <-app_assoc.
      * rewrite IH. unfold rejected. split; [intros (H & _); by destruct rejections|].
        intros (_ & _ & _ & ps & _ & Hps). apply Forall2_cons_inv_l in Hps as (p & _ & Hp & _).
        congruence.
Qed.

(** The part that a chosen file contributes: the file was offered, and is the
    one the snapshot has for it; the download client selected and completed it,
    it is not empty, its name has a media suffix and it is not inside a raw disc
    tree; and the last probe of it succeeded. *)
Definition part_supported (offered : list string) (observation : Observation) (id : string)
    (part : JoinPartEvidence) : Prop :=
  id ∈ offered /\
  exists file download extension name probe evidence,
    last_with if_ID id (fi_Files (ob_Inventory observation)) file /\
    if_DownloadFile file = Some download /\ dfr_Selected download = true /\
    dfr_BytesCompleted download = dfr_LengthBytes download /\
    0 < dfr_LengthBytes download /\ 0 < SizeBytes (if_Fingerprint file) /\
    last (if_PathComponents file) = Some name /\
    ToLower (filepath.Ext name) = extension_suffix extension /\
    Forall (fun c => ToUpper c <> "BDMV" /\ ToUpper c <> "VIDEO_TS") (removelast (if_PathComponents file)) /\
    last_with fp_FileID id (ob_Probes observation) probe /\
    mpo_Status (fp_Outcome probe) = MediaProbeSucceeded /\
    mpo_Evidence (fp_Outcome probe) = Some evidence /\
    part = mkJoinPart id (Some extension) (if_Fingerprint file) (Some evidence).

Lemma candidate_extension file :
  ProbeCandidate (classifyMediaFile file) = true ->
  mfa_Extension (classifyMediaFile file) = supportedMediaExtension (if_PathComponents file).
Proof. unfold classifyMediaFile. repeat case_match; done. Qed.

Lemma selected_part_ok (offered : list string) (files : gmap string InventoryFile)
    (probes : gmap string MediaProbeOutcome) (id : FileID) file evidence :
  id ∈ offered -> files !! id = Some file -> ProbeCandidate (classifyMediaFile file) = true ->
  SupportsJoinPartsPath (if_PathComponents file) = true -> usableProbe (probes !! id) = Some evidence ->
  selected_part offered files probes id =
    inl (mkJoinPart id (mfa_Extension (classifyMediaFile file)) (if_Fingerprint file) (Some evidence)).
Proof. intros Hin Hf Hc Hp Hu. unfold selected_part. cbv zeta. by rewrite bool_decide_true, Hf, Hc, Hp, Hu. Qed.

Lemma selected_part_supported offered observation id part :
  selected_part offered (indexFiles (ob_Inventory observation)) (indexProbes (ob_Probes observation)) id =
    inl part <-> part_supported offered observation id part.
Proof.
  unfold part_supported. split.
  - unfold selected_part. cbv zeta. case_bool_decide as Hin; cbn [negb]; [|done].
    destruct (indexFiles _ !! id) as [file|] eqn:Hf; [|done]. apply indexFiles_last in Hf.
    destruct (negb _ || negb _) eqn:Hc; [done|]. split_bool.
    destruct (usableProbe _) as [evidence|] eqn:Hp; [|done]. intros [= <-].
    apply usableProbe_Some in Hp as (outcome & (probe & Hl & <-)%indexProbes_last & Hs & He).
    rename H into Hcand. rewrite (candidate_extension _ Hcand).
    apply classifyMediaFile_candidate in Hcand as (download & extension & Hd & Hsel & Hb & Hl0 & Hsz & Hext).
    rewrite Hext. apply supportedMediaExtension_spec in Hext as (name & Hn & Hsuf).
    match goal with H : SupportsJoinPartsPath _ = true |- _ => apply SupportsJoinPartsPath_spec in H as [_ Hraw] end.
    split; [done|]. exists file, download, extension, name, probe, evidence. by split_and!.
  - intros (Hin & file & download & extension & name & probe & evidence & Hf & Hd & Hsel & Hb & Hl0 & Hsz &
      Hn & Hsuf & Hraw & Hp & Hs & He & ->).
    apply indexFiles_last in Hf.
    assert (supportedMediaExtension (if_PathComponents file) = Some extension) as Hext
      by (apply supportedMediaExtension_spec; by exists name).
    assert (ProbeCandidate (classifyMediaFile file) = true) as Hcand.
    { apply classifyMediaFile_candidate. exists download, extension. by split_and!. }
    assert (SupportsJoinPartsPath (if_PathComponents file) = true) as Hpath.
    { apply SupportsJoinPartsPath_spec. split; [|done]. intros E. by rewrite E in Hn. }
    assert (usableProbe (indexProbes (ob_Probes observation) !! id) = Some evidence) as Huse.
    { apply usableProbe_Some. exists (fp_Outcome probe). split; [|done]. apply indexProbes_last. by exists probe. }
    rewrite <- Hext, <- (candidate_extension _ Hcand). by apply selected_part_ok.
Qed.

(** Everything an accepted join decision rests on. *)
Record join_supported (assembly : Assembly) (decision : RepairDecisionV3) (join : JoinDecision)
    (capability : Capability) (parts : list JoinPartEvidence) : Prop := mk_join_supported
  { jsu_kind : rdv_Kind decision = ActionJoinParts;
    jsu_join : rdv_JoinParts decision = Some join;
    jsu_action : jn_Action join = ActionJoinParts;
    jsu_case : jn_CaseID join = rc_CaseID (as_Request assembly);
    jsu_snapshot : ls_CaseID (as_LocalSnapshot assembly) = rc_CaseID (as_Request assembly);
    jsu_found : first_with cap_CapabilityID (jn_CapabilityID join)
      (rc_Capabilities (as_Request assembly)) capability;
    jsu_capability : cap_Action capability = CapabilityActionJoinParts;
    jsu_two : (2 <= length (jn_OrderedFileIDS join))%nat;
    jsu_distinct : NoDup (jn_OrderedFileIDS join);
    jsu_parts : Forall2 (part_supported (cap_CandidateFileIDS capability)
        (ls_Observation (as_LocalSnapshot assembly))) (jn_OrderedFileIDS join) parts;
    jsu_feasible : join_feasible parts }.

(** The probe evidence of the snapshot has 64-bit durations. *)
Definition assembly_range (assembly : Assembly) : Prop :=
  Forall (fun probe => match mpo_Evidence (fp_Outcome probe) with
                       | Some evidence => evidence_range evidence | None => True end)
    (ob_Probes (ls_Observation (as_LocalSnapshot assembly))).

Lemma selected_part_inv offered files probes id part :
  selected_part offered files probes id = inl part ->
  id ∈ offered /\ jp_FileID part = id /\
  (exists file, files !! id = Some file /\ jp_Fingerprint part = if_Fingerprint file /\
     jp_Extension part = mfa_Extension (classifyMediaFile file) /\
     ProbeCandidate (classifyMediaFile file) = true /\
     SupportsJoinPartsPath (if_PathComponents file) = true) /\
  exists evidence, usableProbe (probes !! id) = Some evidence /\ jp_Probe part = Some evidence.
Proof.
  unfold selected_part. case_bool_decide; cbn [negb]; [|done].
  destruct (files !! id) as [file|]; [|done].
  destruct (negb _ || negb _)%bool eqn:Hc; [done|]. split_bool.
  destruct (usableProbe _) as [evidence|]; [|done]. intros [= <-]. simpl.
  split_and!; try done; [exists file; by split_and!|by exists evidence].
Qed.

Lemma selected_parts_range assembly offered files ids parts :
  assembly_range assembly ->
  Forall2 (fun id part => selected_part offered files
    (indexProbes (ob_Probes (ls_Observation (as_LocalSnapshot assembly)))) id = inl part) ids parts ->
  Forall evidence_range (map part_probe parts).
Proof.
  intros Hr. induction 1 as [|id part ids parts Hp _ IH]; simpl; constructor; [|done].
  apply selected_part_inv in Hp as (_ & _ & _ & evidence & Hev & Hpart).
  apply usableProbe_Some in Hev as (outcome & (probe & Hin & _ & <-)%indexProbes_sound & _ & He).
  unfold assembly_range in Hr. rewrite Forall_forall in Hr. specialize (Hr probe Hin).
  rewrite He in Hr. unfold part_probe. by rewrite Hpart.
Qed.

Lemma supported_ids offered observation ids parts :
  Forall2 (part_supported offered observation) ids parts -> map jp_FileID parts = ids.
Proof.
  induction 1 as [|id part ids parts Hp _ IH]; simpl; [done|].
  destruct Hp as (_ & file & download & extension & name & probe & evidence & _ & _ & _ & _ & _ & _ & _ &
    _ & _ & _ & _ & _ & ->). by rewrite IH.
Qed.

Lemma supported_parts offered observation ids parts :
  Forall2 (part_supported offered observation) ids parts <->
  Forall2 (fun id part => selected_part offered (indexFiles (ob_Inventory observation))
    (indexProbes (ob_Probes observation)) id = inl part) ids parts.
Proof. split; intros H; (eapply Forall2_impl; [exact H|]); intros; by apply selected_part_supported. Qed.

(** The authorization that follows from the selected parts. *)
Definition join_authorizes (assembly : Assembly) (capability : Capability)
    (parts : list JoinPartEvidence) (a : AuthorizedJoin) : Prop :=
  aj_CaseID a = rc_CaseID (as_Request assembly) /\
  aj_CapabilityID a = cap_CapabilityID capability /\
  aj_OrderedParts a = map authorized_part parts /\
  aj_SourceBytes a = sum_Z (part_sizes parts) /\
  exists probes ds container,
    mapM jp_Probe parts = Some probes /\
    reference_durations probes ds /\
    aj_ExpectedDurationMS a = sum_Z ds /\
    aj_DurationToleranceMS a = 1000 + sum_Z (map duration_slack probes) /\
    layoutFromStreams (orderedStreams (pe_Streams (hd zero_ProbeEvidence probes))) =
      Some (aj_ExpectedStreamLayout a) /\
    Forall (fun part => containerForExtension (jp_Extension part) = Some container) parts /\
    aj_OutputContainer a = output_name container.

Lemma authorize_join_spec assembly capability parts :
  Forall evidence_range (map part_probe parts) ->
  exists v, authorize_join (rc_CaseID (as_Request assembly)) (cap_CapabilityID capability) parts =
    Some v /\
    ((~ join_feasible parts /\ jv_Authorized v = None) \/
     (join_feasible parts /\ jv_Rejections v = [] /\
      exists a, jv_Authorized v = Some a /\ join_authorizes assembly capability parts a)).
Proof.
  intros Hr. destruct (AssessJoinFeasibility_eligible parts Hr) as (f & Hf & Hiff).
  unfold authorize_join. rewrite Hf. destruct (Eligible f) eqn:He; cbn [negb].
  - destruct (Eligible_values parts f Hr Hf He) as
      (-> & probes & ds & layout & Hp & Hds & -> & -> & Hl & Hst & container & Hc & ->).
    rewrite Hl.
    eexists. split; [done|]. right. split; [by apply Hiff|]. split; [done|]. eexists. split; [done|].
    unfold join_authorizes. simpl. split_and!; try done.
    exists probes, ds, container. by split_and!.
  - eexists. split; [done|]. left. split; [|done]. intros Hj%Hiff. congruence.
Qed.

(** What a verdict says: it accepts exactly the supported decisions, and an
    authorization is the one the selected parts determine. *)
Definition join_outcome (assembly : Assembly) (decision : RepairDecisionV3) (v : JoinValidation)
    : Prop :=
  (join_Accepted v = true <->
   exists join capability parts, join_supported assembly decision join capability parts) /\
  (forall a, jv_Authorized v = Some a ->
   exists join capability parts, join_supported assembly decision join capability parts /\
     map ap_FileID (aj_OrderedParts a) = jn_OrderedFileIDS join /\
     join_authorizes assembly capability parts a).

Lemma unsupported_outcome assembly decision v :
  jv_Authorized v = None ->
  (forall join capability parts, ~ join_supported assembly decision join capability parts) ->
  join_outcome assembly decision v.
Proof.
  intros Hv Hn. unfold join_outcome, join_Accepted. rewrite Hv. split; [|done].
  split; [done|]. intros (j & c & p & H). by destruct (Hn j c p).
Qed.

Lemma supported_outcome assembly decision join capability parts v a :
  join_supported assembly decision join capability parts ->
  jv_Authorized v = Some a -> jv_Rejections v = [] -> join_authorizes assembly capability parts a ->
  join_outcome assembly decision v.
Proof.
  intros Hs Ha Hr Hauth. unfold join_outcome, join_Accepted. rewrite Ha, Hr.
  split; [split; [by eauto|done]|].
  intros a' [= <-]. exists join, capability, parts. split_and!; [done| |done].
  destruct Hauth as (_ & _ & -> & _). rewrite map_map.
  rewrite <-(supported_ids _ _ _ _ (jsu_parts _ _ _ _ _ Hs)). done.
Qed.

(** The verdict once the decision, its capability and the loop are known. *)
Lemma loop_outcome assembly decision join capability rejections parts :
  assembly_range assembly ->
  rdv_Kind decision = ActionJoinParts -> rdv_JoinParts decision = Some join ->
  jn_Action join = ActionJoinParts -> cap_Action capability = CapabilityActionJoinParts ->
  findCapability (rc_Capabilities (as_Request assembly)) (jn_CapabilityID join) = Some capability ->
  selected_loop (cap_CandidateFileIDS capability)
    (indexFiles (ob_Inventory (ls_Observation (as_LocalSnapshot assembly))))
    (indexProbes (ob_Probes (ls_Observation (as_LocalSnapshot assembly)))) 0 []
    (if bool_decide (length (jn_OrderedFileIDS join) < 2)%nat
     then rejected (if negb (bool_decide (jn_CaseID join = rc_CaseID (as_Request assembly))) ||
             negb (bool_decide (ls_CaseID (as_LocalSnapshot assembly) = rc_CaseID (as_Request assembly)))
          then rejected [] JoinCaseMismatch None "" else []) JoinTooFewSelectedFiles None ""
     else if negb (bool_decide (jn_CaseID join = rc_CaseID (as_Request assembly))) ||
             negb (bool_decide (ls_CaseID (as_LocalSnapshot assembly) = rc_CaseID (as_Request assembly)))
          then rejected [] JoinCaseMismatch None "" else []) [] (jn_OrderedFileIDS join) =
    (rejections, parts) ->
  exists v, match rejections with
            | _ :: _ => Some (rejected_validation rejections)
            | [] => authorize_join (rc_CaseID (as_Request assembly)) (cap_CapabilityID capability) parts
            end = Some v /\ join_outcome assembly decision v.
Proof.
  intros Hr Hk Hj Hact Hca Hcap Hloop. destruct rejections as [|r rejections].
  - apply selected_loop_spec in Hloop as (Hnil & Hnd & _ & ps & -> & Hps). simpl.
    assert ((2 <= length (jn_OrderedFileIDS join))%nat /\
      jn_CaseID join = rc_CaseID (as_Request assembly) /\
      ls_CaseID (as_LocalSnapshot assembly) = rc_CaseID (as_Request assembly)) as (H2 & Hc1 & Hc2).
    { revert Hnil. case_bool_decide; [intros [_ ?]%app_nil; done|].
      destruct (negb _ || negb _)%bool eqn:Hc; [done|]. split_bool. intros _. split_and!; [lia|done|done]. }
    destruct (authorize_join_spec assembly capability ps) as
      (v & Hv & [[Hnf Hnone]|(Hf & Hrej & a & Ha & Hauth)]); [by eapply selected_parts_range|..].
    + exists v. split; [done|]. apply unsupported_outcome; [done|].
      intros join' capability' parts' []. apply findCapability_first in jsu_found0.
      simplify_eq. apply supported_parts in jsu_parts0.
      assert (parts' = ps) as ->; [|done].
      clear -Hps jsu_parts0. revert parts' jsu_parts0.
      induction Hps as [|id p ids ps Hp _ IH]; intros parts' H; inversion H; simplify_eq; [done|].
      f_equal; [congruence|by apply IH].
    + exists v. split; [done|]. apply (supported_outcome _ _ join capability ps _ a); [|done..].
      split; try done; [by apply findCapability_first|by apply supported_parts].
  - exists (rejected_validation (r :: rejections)). split; [done|].
    apply unsupported_outcome; [done|]. intros join' capability' parts' []. apply findCapability_first in jsu_found0.
    simplify_eq. apply supported_parts in jsu_parts0. rewrite bool_decide_false in Hloop by lia.
    rewrite !bool_decide_true in Hloop by done. simpl in Hloop.
    assert (selected_loop (cap_CandidateFileIDS capability)
      (indexFiles (ob_Inventory (ls_Observation (as_LocalSnapshot assembly))))
      (indexProbes (ob_Probes (ls_Observation (as_LocalSnapshot assembly)))) 0 [] [] []
      (jn_OrderedFileIDS join) = ([], parts')) as Hok.
    { apply selected_loop_spec. split_and!; [done|done| |by exists parts'].
      apply Forall_forall. intros ? _. by apply not_elem_of_nil. }
    congruence.
Qed.

(** C26. Validation of a join decision never panics. It accepts exactly the
    decisions of the right kind and case, for an offered capability, whose
    selected files are two or more, distinct, offered, present and complete in
    the snapshot, probed, and technically feasible; the authorization then
    lists those files in the chosen order with their fingerprints, and carries
    the exact byte total, the sum of the part durations, the summed tolerance,
    the stream layout of the first part and the container of the parts. The
    durations of the snapshot's probes are 64-bit integers. *)
Theorem ValidateJoin_correct (assembly : Assembly) (decision : RepairDecisionV3) :
  assembly_range assembly ->
  exists v, ValidateJoin assembly decision = Some v /\ join_outcome assembly decision v.
Proof.
  intros Hr. unfold ValidateJoin.
  assert (forall rs, (forall join capability parts, ~ join_supported assembly decision join capability parts) ->
    exists v, Some (rejected_validation rs) = Some v /\ join_outcome assembly decision v) as Hno.
  { intros rs Hn. eexists. split; [done|]. by apply unsupported_outcome. }
  case_bool_decide as Hk; cbn [negb]; [|apply Hno; by intros j c p []].
  destruct (rdv_JoinParts decision) as [join|] eqn:Hj; [|apply Hno; intros j c p []; congruence].
  case_bool_decide as Hact; cbn [negb]; [|apply Hno; intros j c p []; congruence].
  cbv zeta. destruct (findCapability _ _) as [capability|] eqn:Hcap;
    [|apply Hno; intros j c p []; apply findCapability_first in jsu_found0; congruence].
  case_bool_decide as Hca; cbn [negb];
    [|apply Hno; intros j c p []; apply findCapability_first in jsu_found0; congruence].
  destruct (selected_loop _ _ _ _ _ _ _ _) as [rejections parts] eqn:Hloop.
  by eapply loop_outcome.
Qed.
