(* ===== verification/DiscPolicy.v ===== *)
(** * Validation of disc remux decisions

    [internal/decisionpolicy/bluray.go] and [dvd.go]: a planner decision to
    remux a Blu-ray playlist or a DVD title becomes an authorization only when
    the offered capability describes one candidate of the stored snapshot,
    its duration fits the movie runtime and every source file is complete and
    in its place in the disc tree. An index out of range is a panic, [None]. *)
From stdpp Require Import base strings list gmap.
From S2P Require Import Prelude GoStrings FileIdentity Probe Media Radarr WorkerContracts Decisions.

Inductive RemuxRejectionReason :=
| RemuxWrongDecision | RemuxCaseMismatch | RemuxCapabilityMissing | RemuxPlaylistMismatch
| RemuxFileUnavailable | RemuxRuntimeMissing | RemuxRuntimeMismatch.

Record AuthorizedRemuxFile := mkRemuxFile
  { arf_FileID : FileID; arf_Fingerprint : FileFingerprint }.

Record AuthorizedRemux := mkAuthorizedRemux
  { ar_CaseID : string; ar_CapabilityID : string; ar_Playlist : AuthorizedRemuxFile;
    ar_Clips : list AuthorizedRemuxFile; ar_SourceBytes : Z; ar_ExpectedDurationMS : Z;
    ar_ExpectedChapters : Z; ar_ExpectedTracks : list RemuxTrack; ar_RuntimeToleranceMS : Z }.

Record AuthorizedDVD := mkAuthorizedDVD
  { ad_CaseID : string; ad_CapabilityID : string; ad_Navigation : AuthorizedRemuxFile;
    ad_Sources : list AuthorizedRemuxFile; ad_TitleNumber : Z; ad_ExpectedDurationMS : Z;
    ad_ExpectedChapters : Z; ad_ExpectedTracks : list RemuxTrack; ad_SourceBytes : Z;
    ad_RuntimeToleranceMS : Z }.

#[global] Instance AuthorizedRemuxFile_eq_dec : EqDecision AuthorizedRemuxFile.
Proof. solve_decision. Defined.
#[global] Instance AuthorizedRemux_eq_dec : EqDecision AuthorizedRemux.
Proof. solve_decision. Defined.
#[global] Instance AuthorizedDVD_eq_dec : EqDecision AuthorizedDVD.
Proof. solve_decision. Defined.

(** [RemuxValidation] and [DVDValidation]. *)
Record DiscValidation (A : Type) := mkDiscValidation
  { dv_Authorized : option A; dv_Rejections : list RemuxRejectionReason;
    dv_Runtime : option ManualImportRuntimeAssessment }.
Arguments mkDiscValidation {A} _ _ _.
Arguments dv_Authorized {A} _.
Arguments dv_Rejections {A} _.
Arguments dv_Runtime {A} _.

Definition disc_Accepted {A} (validation : DiscValidation A) : bool :=
  match dv_Authorized validation with
  | Some _ => bool_decide (length (dv_Rejections validation) = 0%nat)
  | None => false
  end.

(** [rejectRemux] and [rejectDVD]. *)
Definition rejectDisc {A} (reason : RemuxRejectionReason) : DiscValidation A :=
  mkDiscValidation None [reason] None.

Definition remuxTrackMatches (identified : RemuxTrack) (offered : TrackElement) : bool :=
  if negb (bool_decide (tr_Kind identified = te_Kind offered)) ||
     negb (bool_decide (tr_Codec identified = te_Codec offered))
  then false
  else match te_Language offered with
  | None => bool_decide (tr_Language identified = "")
  | Some language => bool_decide (tr_Language identified = language)
  end.

Definition availableRemuxFile (files : gmap string InventoryFile) (paths : gmap string string)
    (fileID : FileID) : option AuthorizedRemuxFile :=
  match files !! fileID, paths !! fileID with
  | Some file, Some path =>
      if negb (filepath.IsAbs path) || negb (bool_decide (filepath.Clean path = path)) ||
         bool_decide (SizeBytes (if_Fingerprint file) <= 0)
      then None
      else match if_DownloadFile file with
      | Some download =>
          if negb (dfr_Selected download) ||
             negb (bool_decide (dfr_LengthBytes download = SizeBytes (if_Fingerprint file))) ||
             negb (bool_decide (dfr_BytesCompleted download = SizeBytes (if_Fingerprint file)))
          then None else Some (mkRemuxFile fileID (if_Fingerprint file))
      | None => Some (mkRemuxFile fileID (if_Fingerprint file))
      end
  | _, _ => None
  end.

(** A missing key of a Go map reads as the empty string. *)
Definition path_of (paths : gmap string string) (fileID : FileID) : string :=
  match paths !! fileID with Some path => path | None => "" end.

(** The loop that finds the one candidate a capability names; [None] when a
    second one is found. *)
Fixpoint unique_candidate {A} (matches : A -> bool) (found : option A) (candidates : list A)
    : option (option A) :=
  match candidates with
  | [] => Some found
  | candidate :: rest =>
      if matches candidate then
        match found with
        | Some _ => None
        | None => unique_candidate matches (Some candidate) rest
        end
      else unique_candidate matches found rest
  end.

(** ** Blu-ray *)

(** The loop over the clips: the clips and bytes so far; the outer [None] is
    the panic of an index out of range. *)
Fixpoint clip_loop (files : gmap string InventoryFile) (paths : gmap string string)
    (streamDirectory : string) (clipPaths : list string) (position : nat)
    (clips : list AuthorizedRemuxFile) (sourceBytes : Z) (clipIDs : list FileID)
    : option (option (list AuthorizedRemuxFile * Z)) :=
  match clipIDs with
  | [] => Some (Some (clips, sourceBytes))
  | clipID :: rest =>
      match availableRemuxFile files paths clipID with
      | None => Some None
      | Some clip =>
          let path := path_of paths clipID in
          match clipPaths !! position with
          | None => None
          | Some clipPath =>
              if negb (bool_decide (path = clipPath)) ||
                 negb (bool_decide (filepath.Dir path = streamDirectory)) ||
                 negb (NumberedClip (filepath.Base path)) ||
                 bool_decide (sub64 max_int64 sourceBytes < SizeBytes (arf_Fingerprint clip))
              then Some None
              else clip_loop files paths streamDirectory clipPaths (S position) (clips ++ [clip])
                     (add64 sourceBytes (SizeBytes (arf_Fingerprint clip))) rest
          end
      end
  end.

(** The binding of the chosen playlist to its files. *)
Definition bind_playlist (assembly : Assembly) (capability : Capability)
    (playlist : PlaylistCandidate) (runtime : ManualImportRuntimeAssessment) (tolerance : Z)
    : option (DiscValidation AuthorizedRemux) :=
  let inventory := ob_Inventory (ls_Observation (as_LocalSnapshot assembly)) in
  let files := indexFiles inventory in
  let paths := indexPaths inventory in
  let playlistPath := path_of paths (bc_PlaylistFileID playlist) in
  match availableRemuxFile files paths (bc_PlaylistFileID playlist) with
  | None => Some (rejectDisc RemuxFileUnavailable)
  | Some playlistFile =>
      if negb (NumberedPlaylist (filepath.Base playlistPath))
      then Some (rejectDisc RemuxFileUnavailable)
      else if negb (bool_decide (filepath.Base (filepath.Dir playlistPath) = "PLAYLIST")) ||
              negb (bool_decide (filepath.Base (filepath.Dir (filepath.Dir playlistPath)) = "BDMV"))
      then Some (rejectDisc RemuxPlaylistMismatch)
      else
        let streamDirectory :=
          filepath.Join (filepath.Dir (filepath.Dir playlistPath)) "STREAM" in
        match clip_loop files paths streamDirectory (pl_ClipPaths (bc_Details playlist)) 0 [] 0
                (bc_ClipFileIDs playlist) with
        | None => None
        | Some None => Some (rejectDisc RemuxFileUnavailable)
        | Some (Some (clips, sourceBytes)) =>
            Some (mkDiscValidation
                    (Some (mkAuthorizedRemux (rc_CaseID (as_Request assembly))
                             (cap_CapabilityID capability) playlistFile clips sourceBytes
                             (pl_DurationMS (bc_Details playlist)) (pl_Chapters (bc_Details playlist))
                             (pl_Tracks (bc_Details playlist)) tolerance))
                    [] (Some runtime))
        end
  end.

(** The runtime check that both disc policies make; [inl] when it rejects. *)
Definition disc_runtime {A} (assembly : Assembly) (durationMS : Z) (policy : RuntimePolicy)
    : DiscValidation A + (ManualImportRuntimeAssessment * Z) :=
  let minutes := match ob_Movie (ls_Observation (as_LocalSnapshot assembly)) with
                 | Some movie => mv_RuntimeMinutes movie | None => None end in
  match minutes with
  | None => inl (rejectDisc RemuxRuntimeMissing)
  | Some m =>
      if bool_decide (m <= 0) then inl (rejectDisc RemuxRuntimeMissing)
      else
        let runtime := assessManualImportRuntime durationMS minutes policy in
        match ra_DifferenceMS runtime, ra_ToleranceMS runtime with
        | Some difference, Some tolerance =>
            if bool_decide (tolerance < difference)
            then inl (mkDiscValidation None [RemuxRuntimeMismatch] (Some runtime))
            else inr (runtime, tolerance)
        | _, _ => inl (mkDiscValidation None [RemuxRuntimeMismatch] (Some runtime))
        end
  end.

Definition playlist_matches (capability : Capability) (playlist : PlaylistCandidate)
    (durationMS chapterCount : Z) : bool :=
  bool_decide (pl_DurationMS (bc_Details playlist) = durationMS) &&
  bool_decide (pl_Chapters (bc_Details playlist) = chapterCount) &&
  equal_func remuxTrackMatches (pl_Tracks (bc_Details playlist)) (cap_Tracks capability) &&
  bool_decide (length (bc_ClipFileIDs playlist) = length (cap_ClipFileIDS capability)) &&
  equal_func (fun fileID offered => bool_decide (fileID = offered))
    (bc_ClipFileIDs playlist) (cap_ClipFileIDS capability).

Definition ValidateRemuxWithPolicy (assembly : Assembly) (decision : RepairDecisionV3)
    (policy : RuntimePolicy) : option (DiscValidation AuthorizedRemux) :=
  if negb (bool_decide (rdv_Kind decision = ActionRemuxBluray))
  then Some (rejectDisc RemuxWrongDecision)
  else match rdv_RemuxBluray decision with
  | None => Some (rejectDisc RemuxWrongDecision)
  | Some remux =>
      if negb (bool_decide (rd_Action remux = ActionRemuxBluray))
      then Some (rejectDisc RemuxWrongDecision)
      else if negb (bool_decide (rd_CaseID remux = rc_CaseID (as_Request assembly))) ||
              negb (bool_decide (ls_CaseID (as_LocalSnapshot assembly) =
                                 rc_CaseID (as_Request assembly)))
      then Some (rejectDisc RemuxCaseMismatch)
      else match findCapability (rc_Capabilities (as_Request assembly)) (rd_CapabilityID remux) with
      | None => Some (rejectDisc RemuxCapabilityMissing)
      | Some capability =>
          match cap_PlaylistFileID capability, cap_DurationMS capability,
                cap_ChapterCount capability with
          | Some playlistFileID, Some durationMS, Some chapterCount =>
              if negb (bool_decide (cap_Action capability = CapabilityActionRemuxBluray)) ||
                 bool_decide (length (cap_ClipFileIDS capability) = 0%nat) ||
                 bool_decide (length (cap_Tracks capability) = 0%nat)
              then Some (rejectDisc RemuxCapabilityMissing)
              else match unique_candidate
                           (fun c => bool_decide (bc_PlaylistFileID c = playlistFileID)) None
                           (ob_BluRayPlaylists (ls_Observation (as_LocalSnapshot assembly))) with
              | Some (Some playlist) =>
                  if negb (playlist_matches capability playlist durationMS chapterCount)
                  then Some (rejectDisc RemuxPlaylistMismatch)
                  else match disc_runtime assembly (pl_DurationMS (bc_Details playlist)) policy with
                  | inl rejection => Some rejection
                  | inr (runtime, tolerance) =>
                      bind_playlist assembly capability playlist runtime tolerance
                  end
              | _ => Some (rejectDisc RemuxPlaylistMismatch)
              end
          | _, _, _ => Some (rejectDisc RemuxCapabilityMissing)
          end
      end
  end.

Definition ValidateRemux (assembly : Assembly) (decision : RepairDecisionV3)
    : option (DiscValidation AuthorizedRemux) :=
  ValidateRemuxWithPolicy assembly decision (mkRuntimePolicy 0).

(** ** DVD *)

Definition title_track_matches (track : RemuxTrack) (offered : TrackElement) : bool :=
  negb (negb (bool_decide (tr_Kind track = te_Kind offered)) ||
        negb (bool_decide (tr_Codec track = te_Codec offered)) ||
        (bool_decide (tr_Language track = "") &&
         match te_Language offered with Some _ => true | None => false end) ||
        (negb (bool_decide (tr_Language track = "")) &&
         match te_Language offered with
         | None => true
         | Some language => negb (bool_decide (tr_Language track = language))
         end)).

Definition title_matches (capability : Capability) (title : TitleCandidate)
    (durationMS chapterCount titleSet titleInSet angleCount : Z) : bool :=
  let details := tc_Details title in
  bool_decide (tt_DurationMS details = durationMS) &&
  bool_decide (tt_Chapters details = chapterCount) &&
  bool_decide (tt_TitleSet details = titleSet) &&
  bool_decide (tt_TitleInSet details = titleInSet) &&
  bool_decide (tt_Angles details = angleCount) && bool_decide (tt_Angles details = 1) &&
  bool_decide (length (tt_Tracks details) = length (cap_Tracks capability)) &&
  bool_decide (length (tc_SourceFileIDs title) = length (cap_SourceFileIDS capability)) &&
  equal_func (fun fileID offered => bool_decide (fileID = offered))
    (tc_SourceFileIDs title) (cap_SourceFileIDS capability) &&
  equal_func title_track_matches (tt_Tracks details) (cap_Tracks capability).

Fixpoint source_loop (files : gmap string InventoryFile) (paths : gmap string string)
    (directory : string) (sources : list AuthorizedRemuxFile) (sourceBytes : Z)
    (sourceIDs : list FileID) : option (list AuthorizedRemuxFile * Z) :=
  match sourceIDs with
  | [] => Some (sources, sourceBytes)
  | fileID :: rest =>
      match availableRemuxFile files paths fileID with
      | None => None
      | Some source =>
          if negb (bool_decide (filepath.Dir (path_of paths fileID) = directory)) ||
             bool_decide (sub64 max_int64 sourceBytes < SizeBytes (arf_Fingerprint source))
          then None
          else source_loop files paths directory (sources ++ [source])
                 (add64 sourceBytes (SizeBytes (arf_Fingerprint source))) rest
      end
  end.

Definition bind_title (assembly : Assembly) (capability : Capability) (title : TitleCandidate)
    (runtime : ManualImportRuntimeAssessment) (tolerance : Z) : DiscValidation AuthorizedDVD :=
  let inventory := ob_Inventory (ls_Observation (as_LocalSnapshot assembly)) in
  let files := indexFiles inventory in
  let paths := indexPaths inventory in
  match availableRemuxFile files paths (tc_NavigationFileID title) with
  | None => rejectDisc RemuxFileUnavailable
  | Some navigation =>
      let navigationPath := path_of paths (tc_NavigationFileID title) in
      if negb (bool_decide (filepath.Base navigationPath = "VIDEO_TS.IFO"))
      then rejectDisc RemuxPlaylistMismatch
      else match source_loop files paths (filepath.Dir navigationPath) [] 0 (tc_SourceFileIDs title) with
      | None => rejectDisc RemuxFileUnavailable
      | Some (sources, sourceBytes) =>
          if negb (existsb (fun source => bool_decide (arf_FileID source = arf_FileID navigation)) sources)
          then rejectDisc RemuxFileUnavailable
          else mkDiscValidation
                 (Some (mkAuthorizedDVD (rc_CaseID (as_Request assembly)) (cap_CapabilityID capability)
                          navigation sources (tt_Number (tc_Details title))
                          (tt_DurationMS (tc_Details title)) (tt_Chapters (tc_Details title))
                          (tt_Tracks (tc_Details title)) sourceBytes tolerance))
                 [] (Some runtime)
      end
  end.

Definition ValidateDVDWithPolicy (assembly : Assembly) (decision : RepairDecisionV3)
    (policy : RuntimePolicy) : DiscValidation AuthorizedDVD :=
  if negb (bool_decide (rdv_Kind decision = ActionRemuxDVD)) then rejectDisc RemuxWrongDecision
  else match rdv_RemuxDVD decision with
  | None => rejectDisc RemuxWrongDecision
  | Some remux =>
      if negb (bool_decide (rd_Action remux = ActionRemuxDVD)) then rejectDisc RemuxWrongDecision
      else if negb (bool_decide (rd_CaseID remux = rc_CaseID (as_Request assembly))) ||
              negb (bool_decide (ls_CaseID (as_LocalSnapshot assembly) =
                                 rc_CaseID (as_Request assembly)))
      then rejectDisc RemuxCaseMismatch
      else match findCapability (rc_Capabilities (as_Request assembly)) (rd_CapabilityID remux) with
      | None => rejectDisc RemuxCapabilityMissing
      | Some capability =>
          match cap_NavigationFileID capability, cap_TitleNumber capability, cap_TitleSet capability,
                cap_TitleInSet capability, cap_AngleCount capability, cap_DurationMS capability,
                cap_ChapterCount capability with
          | Some navigationFileID, Some titleNumber, Some titleSet, Some titleInSet, Some angleCount,
            Some durationMS, Some chapterCount =>
              if negb (bool_decide (cap_Action capability = CapabilityActionRemuxDVD)) ||
                 bool_decide (length (cap_SourceFileIDS capability) = 0%nat) ||
                 bool_decide (length (cap_Tracks capability) = 0%nat)
              then rejectDisc RemuxCapabilityMissing
              else match unique_candidate
                           (fun c => bool_decide (tc_NavigationFileID c = navigationFileID) &&
                                     bool_decide (tt_Number (tc_Details c) = titleNumber)) None
                           (ob_DVDTitles (ls_Observation (as_LocalSnapshot assembly))) with
              | Some (Some title) =>
                  if negb (title_matches capability title durationMS chapterCount titleSet titleInSet
                             angleCount)
                  then rejectDisc RemuxPlaylistMismatch
                  else match disc_runtime assembly (tt_DurationMS (tc_Details title)) policy with
                  | inl rejection => rejection
                  | inr (runtime, tolerance) => bind_title assembly capability title runtime tolerance
                  end
              | _ => rejectDisc RemuxPlaylistMismatch
              end
          | _, _, _, _, _, _, _ => rejectDisc RemuxCapabilityMissing
          end
      end
  end.

Definition ValidateDVD (assembly : Assembly) (decision : RepairDecisionV3)
    : DiscValidation AuthorizedDVD :=
  ValidateDVDWithPolicy assembly decision (mkRuntimePolicy 0).

(** ** Properties *)

(** A file the disc policies accept: in the inventory with its fingerprint, at
    a clean absolute path, not empty, and finished by the download client when
    that client lists it. *)
Definition remux_file_available (inventory : FileInventory) (f : AuthorizedRemuxFile) (path : string)
    : Prop :=
  exists file, file ∈ fi_Files inventory /\ if_ID file = arf_FileID f /\
    if_Fingerprint file = arf_Fingerprint f /\
    mkFilePathMapping (arf_FileID f) path ∈ fi_Paths inventory /\
    filepath.IsAbs path = true /\ filepath.Clean path = path /\
    0 < SizeBytes (arf_Fingerprint f) /\
    (forall download, if_DownloadFile file = Some download ->
       dfr_Selected download = true /\
       dfr_LengthBytes download = SizeBytes (arf_Fingerprint f) /\
       dfr_BytesCompleted download = SizeBytes (arf_Fingerprint f)).

Lemma availableRemuxFile_sound inventory fileID f :
  availableRemuxFile (indexFiles inventory) (indexPaths inventory) fileID = Some f ->
  arf_FileID f = fileID /\
  remux_file_available inventory f (path_of (indexPaths inventory) fileID).
Proof.
  unfold availableRemuxFile, path_of.
  destruct (indexFiles inventory !! fileID) as [file|] eqn:Hf; [|done].
  destruct (indexPaths inventory !! fileID) as [path|] eqn:Hp; [|done].
  destruct (negb _ || negb _ || _)%bool eqn:Hg; [done|]. split_bool.
  apply indexFiles_sound in Hf as [Hin Hid]. apply indexPaths_sound in Hp.
  assert (f = mkRemuxFile fileID (if_Fingerprint file) ->
    (forall download, if_DownloadFile file = Some download ->
       dfr_Selected download = true /\
       dfr_LengthBytes download = SizeBytes (if_Fingerprint file) /\
       dfr_BytesCompleted download = SizeBytes (if_Fingerprint file)) ->
    arf_FileID f = fileID /\ remux_file_available inventory f path) as Hdone.
  { intros -> Hd. split; [done|]. exists file. simpl. split_and!; try done. lia. }
  destruct (if_DownloadFile file) as [download|] eqn:Hdl.
  - destruct (negb _ || negb _ || negb _)%bool eqn:Hd; [done|]. split_bool. intros [= <-].
    apply Hdone; [done|]. by intros ? [= <-].
  - intros [= <-]. by apply Hdone.
Qed.

Definition clip_sizes (clips : list AuthorizedRemuxFile) : list Z :=
  map (fun clip => SizeBytes (arf_Fingerprint clip)) clips.

(** The step both loops take: the new total is exact. *)
Lemma add_source_bytes inventory bytes fileID f :
  0 <= bytes <= max_int64 ->
  availableRemuxFile (indexFiles inventory) (indexPaths inventory) fileID = Some f ->
  ~ sub64 max_int64 bytes < SizeBytes (arf_Fingerprint f) ->
  add64 bytes (SizeBytes (arf_Fingerprint f)) = bytes + SizeBytes (arf_Fingerprint f) /\
  0 <= bytes + SizeBytes (arf_Fingerprint f) <= max_int64.
Proof.
  intros Hb Hf Hlt. rewrite sub64_small in Hlt by lia.
  apply availableRemuxFile_sound in Hf as (_ & file & _ & _ & _ & _ & _ & _ & Hpos & _).
  rewrite add64_small by lia. lia.
Qed.

Lemma clip_loop_sound inventory dir clipPaths ids : forall position clips bytes clips' bytes',
  0 <= bytes <= max_int64 ->
  clip_loop (indexFiles inventory) (indexPaths inventory) dir clipPaths position clips bytes ids =
    Some (Some (clips', bytes')) ->
  exists cs, clips' = clips ++ cs /\ bytes' = bytes + sum_Z (clip_sizes cs) /\ bytes' <= max_int64 /\
    map arf_FileID cs = ids /\
    Forall (fun c => exists path, remux_file_available inventory c path /\
              filepath.Dir path = dir /\ NumberedClip (filepath.Base path) = true /\
              path ∈ clipPaths) cs.
Proof.
  induction ids as [|id ids IH]; intros position clips bytes clips' bytes' Hb; simpl.
  - intros [= <- <-]. exists []. rewrite app_nil_r. split_and!; try done; [simpl; unfold sum_Z; simpl; lia|lia].
  - destruct (availableRemuxFile _ _ _) as [clip|] eqn:Hf; [|done].
    destruct (clipPaths !! position) as [clipPath|] eqn:Hcp; [|done].
    destruct (negb _ || negb _ || negb _ || _)%bool eqn:Hg; [done|].
    apply orb_false_iff in Hg as [Hg Hlt]. split_bool.
    destruct (add_source_bytes _ _ _ _ Hb Hf Hlt) as [-> Hb'].
    intros (cs & -> & -> & Hmax & <- & Hcs)%IH; [|done]. exists (clip :: cs).
    apply availableRemuxFile_sound in Hf as [Hid Hav].
    rewrite <-app_assoc. cbn [clip_sizes map]. rewrite sum_Z_cons. fold (clip_sizes cs).
    split_and!; try done; [lia|by rewrite Hid|]. constructor; [|done].
    exists (path_of (indexPaths inventory) id). split_and!; try done.
    subst clipPath. by eapply list_elem_of_lookup_2.
Qed.

Lemma source_loop_sound inventory dir ids : forall sources bytes sources' bytes',
  0 <= bytes <= max_int64 ->
  source_loop (indexFiles inventory) (indexPaths inventory) dir sources bytes ids =
    Some (sources', bytes') ->
  exists cs, sources' = sources ++ cs /\ bytes' = bytes + sum_Z (clip_sizes cs) /\
    bytes' <= max_int64 /\ map arf_FileID cs = ids /\
    Forall (fun c => exists path, remux_file_available inventory c path /\ filepath.Dir path = dir) cs.
Proof.
  induction ids as [|id ids IH]; intros sources bytes sources' bytes' Hb; simpl.
  - intros [= <- <-]. exists []. rewrite app_nil_r. split_and!; try done; [simpl; unfold sum_Z; simpl; lia|lia].
  - destruct (availableRemuxFile _ _ _) as [source|] eqn:Hf; [|done].
    destruct (negb _ || _)%bool eqn:Hg; [done|]. apply orb_false_iff in Hg as [Hg Hlt]. split_bool.
    destruct (add_source_bytes _ _ _ _ Hb Hf Hlt) as [-> Hb'].
    intros (cs & -> & -> & Hmax & <- & Hcs)%IH; [|done]. exists (source :: cs).
    apply availableRemuxFile_sound in Hf as [Hid Hav].
    rewrite <-app_assoc. cbn [clip_sizes map]. rewrite sum_Z_cons. fold (clip_sizes cs).
    split_and!; try done; [lia|by rewrite Hid|]. constructor; [|done]. by eexists.
Qed.

Lemma unique_candidate_sound {A} (matches : A -> bool) candidates found c :
  unique_candidate matches found candidates = Some (Some c) ->
  found = Some c \/ (c ∈ candidates /\ matches c = true).
Proof.
  revert found. induction candidates as [|x rest IH]; intros found; simpl; [intros [= ->]; by left|].
  destruct (matches x) eqn:Hm.
  - destruct found; [done|]. intros [[= ->]|[? ?]]%IH; right; [by split; [left|]|by split; [right|]].
  - intros [?|[? ?]]%IH; [by left|]. right. by split; [right|].
Qed.

Lemma disc_runtime_sound {A} assembly duration policy runtime tolerance :
  @disc_runtime A assembly duration policy = inr (runtime, tolerance) ->
  exists movie minutes, ob_Movie (ls_Observation (as_LocalSnapshot assembly)) = Some movie /\
    mv_RuntimeMinutes movie = Some minutes /\ 0 < minutes /\
    (runtime_range minutes duration ->
     tolerance = allowed_tolerance minutes policy /\ runtime_close duration minutes tolerance).
Proof.
  unfold disc_runtime. destruct (ob_Movie _) as [movie|]; [|done].
  destruct (mv_RuntimeMinutes movie) as [minutes|] eqn:Hm; [|done]. case_bool_decide; [done|].
  destruct (ra_DifferenceMS _) as [d|] eqn:Hd; [|done].
  destruct (ra_ToleranceMS _) as [t|] eqn:Ht; [|done]. case_bool_decide; [done|].
  intros [= <- <-]. exists movie, minutes. split_and!; try done; [lia|]. intros Hr.
  destruct (assessManualImportRuntime_spec _ _ policy Hr) as [Hd' Ht'].
  rewrite Hd in Hd'. rewrite Ht in Ht'. simplify_eq. split; [done|]. unfold runtime_close. lia.
Qed.

(** The movie and runtime facts every authorized disc remux rests on. *)
Definition runtime_supported (assembly : Assembly) (policy : RuntimePolicy) (duration tolerance : Z)
    : Prop :=
  exists movie minutes, ob_Movie (ls_Observation (as_LocalSnapshot assembly)) = Some movie /\
    mv_RuntimeMinutes movie = Some minutes /\ 0 < minutes /\
    (runtime_range minutes duration ->
     tolerance = allowed_tolerance minutes policy /\ runtime_close duration minutes tolerance).

(** The capability of the request that the decision names. *)
Definition offered_by (assembly : Assembly) (capabilityID action : string) (capability : Capability)
    : Prop :=
  capability ∈ rc_Capabilities (as_Request assembly) /\
  cap_CapabilityID capability = capabilityID /\ cap_Action capability = action.

Lemma equal_ids (xs ys : list string) :
  equal_func (fun x y => bool_decide (x = y)) xs ys = true -> xs = ys.
Proof.
  rewrite equal_func_Forall2. induction 1 as [|x y xs ys H _ IH]; [done|]. split_bool. congruence.
Qed.

Lemma disc_runtime_rejects {A} assembly duration policy (r : DiscValidation A) :
  disc_runtime assembly duration policy = inl r -> dv_Authorized r = None.
Proof.
  unfold disc_runtime. cbv zeta. intros H.
  repeat (case_match; simplify_eq; try done).
Qed.

(** What binding a playlist to its files establishes. *)
Definition playlist_bound (assembly : Assembly) (playlist : PlaylistCandidate) (a : AuthorizedRemux)
    (playlistPath : string) : Prop :=
  remux_file_available (ob_Inventory (ls_Observation (as_LocalSnapshot assembly)))
    (ar_Playlist a) playlistPath /\
  filepath.Base (filepath.Dir playlistPath) = "PLAYLIST" /\
  filepath.Base (filepath.Dir (filepath.Dir playlistPath)) = "BDMV" /\
  ar_SourceBytes a = sum_Z (clip_sizes (ar_Clips a)) /\ ar_SourceBytes a <= max_int64 /\
  Forall (fun c => exists path,
    remux_file_available (ob_Inventory (ls_Observation (as_LocalSnapshot assembly))) c path /\
    filepath.Dir path = filepath.Join (filepath.Dir (filepath.Dir playlistPath)) "STREAM" /\
    NumberedClip (filepath.Base path) = true /\ path ∈ pl_ClipPaths (bc_Details playlist))
    (ar_Clips a).

Lemma bind_playlist_sound assembly capability playlist runtime tolerance v a :
  bind_playlist assembly capability playlist runtime tolerance = Some v -> dv_Authorized v = Some a ->
  dv_Rejections v = [] /\ ar_CaseID a = rc_CaseID (as_Request assembly) /\
  ar_CapabilityID a = cap_CapabilityID capability /\
  arf_FileID (ar_Playlist a) = bc_PlaylistFileID playlist /\
  map arf_FileID (ar_Clips a) = bc_ClipFileIDs playlist /\
  ar_ExpectedDurationMS a = pl_DurationMS (bc_Details playlist) /\
  ar_ExpectedChapters a = pl_Chapters (bc_Details playlist) /\
  ar_ExpectedTracks a = pl_Tracks (bc_Details playlist) /\ ar_RuntimeToleranceMS a = tolerance /\
  exists playlistPath, playlist_bound assembly playlist a playlistPath.
Proof.
  unfold bind_playlist. cbv zeta.
  destruct (availableRemuxFile _ _ _) as [f|] eqn:Hf; [|by intros [= <-]].
  destruct (NumberedPlaylist _); cbn [negb]; [|by intros [= <-]].
  destruct (negb _ || negb _)%bool eqn:Hd; [by intros [= <-]|]. split_bool.
  destruct (clip_loop _ _ _ _ _ _ _ _) as [[[clips bytes]|]|] eqn:Hl; [|by intros [= <-]|done].
  intros [= <-] [= <-]. simpl.
  apply clip_loop_sound in Hl as (cs & -> & -> & Hmax & Hids & Hcs); [|unfold max_int64; lia].
  apply availableRemuxFile_sound in Hf as [Hid Hav]. split_and!; try done.
  eexists. unfold playlist_bound. simpl. split_and!; done.
Qed.

(** An authorized Blu-ray remux is the offered capability bound to one playlist
    of the snapshot: same duration, chapters, tracks and clips in the same
    order; the playlist lies in [BDMV/PLAYLIST] and every clip is a complete
    numbered stream file in the sibling [STREAM] directory; the source bytes
    are the exact sum of the clip sizes and fit in 64 bits; and the duration
    is within the tolerance of the movie runtime. *)
Theorem ValidateRemuxWithPolicy_sound (assembly : Assembly) (decision : RepairDecisionV3)
    (policy : RuntimePolicy) (v : DiscValidation AuthorizedRemux) (a : AuthorizedRemux) :
  ValidateRemuxWithPolicy assembly decision policy = Some v -> dv_Authorized v = Some a ->
  disc_Accepted v = true /\
  decision_CaseID decision = ar_CaseID a /\ rc_CaseID (as_Request assembly) = ar_CaseID a /\
  runtime_supported assembly policy (ar_ExpectedDurationMS a) (ar_RuntimeToleranceMS a) /\
  exists capability playlist playlistPath,
    offered_by assembly (ar_CapabilityID a) CapabilityActionRemuxBluray capability /\
    playlist ∈ ob_BluRayPlaylists (ls_Observation (as_LocalSnapshot assembly)) /\
    cap_PlaylistFileID capability = Some (arf_FileID (ar_Playlist a)) /\
    cap_DurationMS capability = Some (ar_ExpectedDurationMS a) /\
    cap_ChapterCount capability = Some (ar_ExpectedChapters a) /\
    equal_func remuxTrackMatches (ar_ExpectedTracks a) (cap_Tracks capability) = true /\
    map arf_FileID (ar_Clips a) = cap_ClipFileIDS capability /\
    playlist_bound assembly playlist a playlistPath.
Proof.
  unfold ValidateRemuxWithPolicy. intros Hv Ha.
  assert (forall r, Some (rejectDisc r) = Some v -> False) as Hno by by intros r [= <-].
  case_bool_decide as Hk; cbn [negb] in Hv; [|by destruct (Hno _ Hv)].
  destruct (rdv_RemuxBluray decision) as [remux|] eqn:Hrm; [|by destruct (Hno _ Hv)].
  case_bool_decide as Hact; cbn [negb] in Hv; [|by destruct (Hno _ Hv)].
  destruct (negb _ || negb _)%bool eqn:Hcase; [by destruct (Hno _ Hv)|]. split_bool.
  destruct (findCapability _ _) as [capability|] eqn:Hcap; [|by destruct (Hno _ Hv)].
  destruct (cap_PlaylistFileID capability) as [pid|] eqn:Hpid; [|by destruct (Hno _ Hv)].
  destruct (cap_DurationMS capability) as [duration|] eqn:Hdur; [|by destruct (Hno _ Hv)].
  destruct (cap_ChapterCount capability) as [chapters|] eqn:Hch; [|by destruct (Hno _ Hv)].
  destruct (negb _ || _ || _)%bool eqn:Hcond; [by destruct (Hno _ Hv)|]. split_bool.
  destruct (unique_candidate _ _ _) as [[playlist|]|] eqn:Hu; try by destruct (Hno _ Hv).
  destruct (playlist_matches _ _ _ _) eqn:Hpm; cbn [negb] in Hv; [|by destruct (Hno _ Hv)].
  destruct (disc_runtime _ _ _) as [rejection|[runtime tolerance]] eqn:Hrt;
    [apply disc_runtime_rejects in Hrt; injection Hv as ->; congruence|].
  destruct (bind_playlist_sound _ _ _ _ _ _ _ Hv Ha) as
    (Hrej & Hcid & Hcapid & Hplid & Hclips & Hd & Hc & Ht & Htol & path & Hbound).
  apply unique_candidate_sound in Hu as [?|[Hin Hm]]; [done|]. split_bool.
  apply disc_runtime_sound in Hrt. apply findCapability_sound in Hcap as [Hcin Hcid'].
  unfold playlist_matches in Hpm. split_bool.
  split; [unfold disc_Accepted; by rewrite Ha, Hrej|].
  split; [unfold decision_CaseID; rewrite Hk, Hrm; vm_compute bool_decide; congruence|].
  split; [done|]. split; [unfold runtime_supported; by rewrite Hd, Htol|].
  exists capability, playlist, path. split_and!; try done; try congruence.
  - by rewrite Hplid, Hpid, <-Hm.
  - rewrite Hclips. by apply equal_ids.
Qed.

(** What binding a title to its files establishes. *)
Definition title_bound (assembly : Assembly) (a : AuthorizedDVD) (navigationPath : string) : Prop :=
  remux_file_available (ob_Inventory (ls_Observation (as_LocalSnapshot assembly)))
    (ad_Navigation a) navigationPath /\
  filepath.Base navigationPath = "VIDEO_TS.IFO" /\
  arf_FileID (ad_Navigation a) ∈ map arf_FileID (ad_Sources a) /\
  ad_SourceBytes a = sum_Z (clip_sizes (ad_Sources a)) /\ ad_SourceBytes a <= max_int64 /\
  Forall (fun c => exists path,
    remux_file_available (ob_Inventory (ls_Observation (as_LocalSnapshot assembly))) c path /\
    filepath.Dir path = filepath.Dir navigationPath) (ad_Sources a).

Lemma bind_title_sound assembly capability title runtime tolerance a :
  dv_Authorized (bind_title assembly capability title runtime tolerance) = Some a ->
  dv_Rejections (bind_title assembly capability title runtime tolerance) = [] /\
  ad_CaseID a = rc_CaseID (as_Request assembly) /\ ad_CapabilityID a = cap_CapabilityID capability /\
  arf_FileID (ad_Navigation a) = tc_NavigationFileID title /\
  map arf_FileID (ad_Sources a) = tc_SourceFileIDs title /\
  ad_TitleNumber a = tt_Number (tc_Details title) /\
  ad_ExpectedDurationMS a = tt_DurationMS (tc_Details title) /\
  ad_ExpectedChapters a = tt_Chapters (tc_Details title) /\
  ad_ExpectedTracks a = tt_Tracks (tc_Details title) /\ ad_RuntimeToleranceMS a = tolerance /\
  exists navigationPath, title_bound assembly a navigationPath.
Proof.
  unfold bind_title. cbv zeta.
  destruct (availableRemuxFile _ _ _) as [f|] eqn:Hf; [|done].
  case_bool_decide as Hb; cbn [negb]; [|done].
  destruct (source_loop _ _ _ _ _ _) as [[sources bytes]|] eqn:Hl; [|done].
  destruct (existsb _ _) eqn:He; cbn [negb]; [|done]. intros [= <-]. simpl.
  apply source_loop_sound in Hl as (cs & -> & -> & Hmax & Hids & Hcs); [|unfold max_int64; lia].
  apply availableRemuxFile_sound in Hf as [Hid Hav].
  apply existsb_bool in He as (c & Hc & Heq). split_bool.
  split_and!; try done. eexists. unfold title_bound. simpl. split_and!; try done.
  rewrite <-Heq. by apply list_elem_of_fmap_2.
Qed.

(** An authorized DVD remux is the offered capability bound to one title of the
    snapshot: same title, duration, chapters, tracks and sources in the same
    order; the navigation file is [VIDEO_TS.IFO] and one of the sources, every
    source is complete and lies beside it; the source bytes are the exact sum
    of the sizes and fit in 64 bits; and the duration is within the tolerance
    of the movie runtime. *)
Theorem ValidateDVDWithPolicy_sound (assembly : Assembly) (decision : RepairDecisionV3)
    (policy : RuntimePolicy) (a : AuthorizedDVD) :
  dv_Authorized (ValidateDVDWithPolicy assembly decision policy) = Some a ->
  disc_Accepted (ValidateDVDWithPolicy assembly decision policy) = true /\
  decision_CaseID decision = ad_CaseID a /\ rc_CaseID (as_Request assembly) = ad_CaseID a /\
  runtime_supported assembly policy (ad_ExpectedDurationMS a) (ad_RuntimeToleranceMS a) /\
  exists capability title navigationPath,
    offered_by assembly (ad_CapabilityID a) CapabilityActionRemuxDVD capability /\
    title ∈ ob_DVDTitles (ls_Observation (as_LocalSnapshot assembly)) /\
    tt_Angles (tc_Details title) = 1 /\
    cap_NavigationFileID capability = Some (arf_FileID (ad_Navigation a)) /\
    cap_TitleNumber capability = Some (ad_TitleNumber a) /\
    cap_DurationMS capability = Some (ad_ExpectedDurationMS a) /\
    cap_ChapterCount capability = Some (ad_ExpectedChapters a) /\
    equal_func title_track_matches (ad_ExpectedTracks a) (cap_Tracks capability) = true /\
    map arf_FileID (ad_Sources a) = cap_SourceFileIDS capability /\
    title_bound assembly a navigationPath.
Proof.
  unfold ValidateDVDWithPolicy.
  case_bool_decide as Hk; cbn [negb]; [|done].
  destruct (rdv_RemuxDVD decision) as [remux|] eqn:Hrm; [|done].
  case_bool_decide as Hact; cbn [negb]; [|done].
  destruct (negb _ || negb _)%bool eqn:Hcase; [done|]. split_bool.
  destruct (findCapability _ _) as [capability|] eqn:Hcap; [|done].
  destruct (cap_NavigationFileID capability) as [nid|] eqn:Hnid; [|done].
  destruct (cap_TitleNumber capability) as [number|] eqn:Hnum; [|done].
  destruct (cap_TitleSet capability) as [set|] eqn:Hset; [|done].
  destruct (cap_TitleInSet capability) as [inset|] eqn:Hins; [|done].
  destruct (cap_AngleCount capability) as [angles|] eqn:Hang; [|done].
  destruct (cap_DurationMS capability) as [duration|] eqn:Hdur; [|done].
  destruct (cap_ChapterCount capability) as [chapters|] eqn:Hch; [|done].
  destruct (negb _ || _ || _)%bool eqn:Hcond; [done|]. split_bool.
  destruct (unique_candidate _ _ _) as [[title|]|] eqn:Hu; try done.
  destruct (title_matches _ _ _ _ _ _ _) eqn:Htm; cbn [negb]; [|done].
  destruct (disc_runtime _ _ _) as [rejection|[runtime tolerance]] eqn:Hrt; intros Ha;
    [apply disc_runtime_rejects in Hrt; congruence|].
  destruct (bind_title_sound _ _ _ _ _ _ Ha) as
    (Hrej & Hcid & Hcapid & Hnav & Hsrc & Hn & Hd & Hc & Ht & Htol & path & Hbound).
  apply unique_candidate_sound in Hu as [?|[Hin Hm]]; [done|]. split_bool.
  apply disc_runtime_sound in Hrt. apply findCapability_sound in Hcap as [Hcin Hcid'].
  unfold title_matches in Htm. cbv zeta in Htm. split_bool.
  split; [unfold disc_Accepted; by rewrite Ha, Hrej|].
  split; [unfold decision_CaseID; rewrite Hk, Hrm; vm_compute bool_decide; congruence|].
  split; [done|]. split; [unfold runtime_supported; by rewrite Hd, Htol|].
  exists capability, title, path. split_and!; try done; try congruence.
  - rewrite Hnav, Hnid. by f_equal.
  - rewrite Hsrc. by apply equal_ids.
Qed.
