(* ===== verification/JoinVerification.v ===== *)
(** * Verification of a staged join

    [internal/joinverification/validator.go]: the worker's staged artifact is
    published only when the exchange belongs to the authorization and the
    probe of the artifact has the authorized size, duration, container and
    stream layout; otherwise it is discarded. *)
From stdpp Require Import base strings list.
From S2P Require Import Prelude GoStrings FileIdentity Probe Streams Media JoinFeasibility.
From S2P Require Import WorkerContracts JoinPolicy.

Inductive RejectionReason :=
| InvalidStageRequest | StageRequestNotAuthorized | InvalidStageResponse | StageResponseNotCorrelated
| StageFailed | ArtifactSizeMismatch | DurationUnavailable | DurationOutsideTolerance
| OutputContainerMismatch | StreamLayoutMismatch.

#[global] Instance RejectionReason_eq_dec : EqDecision RejectionReason.
Proof. solve_decision. Defined.

Record ArtifactReference := mkArtifactReference
  { art_ExecutionID : string; art_CaseID : string; art_CapabilityID : string;
    art_ArtifactID : string; art_ArtifactFingerprint : string }.

Record VerifiedArtifact := mkVerifiedArtifact
  { va_Reference : ArtifactReference; va_SizeBytes : Z; va_Evidence : ProbeEvidence }.

Record Validation := mkValidation
  { val_Publish : option VerifiedArtifact; val_Discard : option ArtifactReference;
    val_Rejections : list RejectionReason }.

(** [Validation.Accepted]. *)
Definition staged_Accepted (validation : Validation) : bool :=
  match val_Publish validation, val_Discard validation with
  | Some _, None => bool_decide (length (val_Rejections validation) = 0%nat)
  | _, _ => false
  end.

Definition reject (validation : Validation) (reason : RejectionReason) : Validation :=
  mkValidation (val_Publish validation) (val_Discard validation)
    (val_Rejections validation ++ [reason]).

Definition part_matches (part : StageJoinPartV1) (expected : AuthorizedJoinPart) : bool :=
  bool_decide (sp_FileID part = ap_FileID expected) &&
  bool_decide (sp_ExpectedFingerprint part = StrictFingerprint (ap_Fingerprint expected)).

Definition requestMatchesAuthorization (request : StageJoinRequestV1) (authorized : AuthorizedJoin)
    : bool :=
  bool_decide (sj_CaseID request = aj_CaseID authorized) &&
  bool_decide (sj_CapabilityID request = aj_CapabilityID authorized) &&
  bool_decide (sj_ExpectedSourceBytes request = aj_SourceBytes authorized) &&
  bool_decide (sj_ExpectedDurationMS request = aj_ExpectedDurationMS authorized) &&
  bool_decide (sj_DurationToleranceMS request = aj_DurationToleranceMS authorized) &&
  bool_decide (sj_ExpectedStreamCount request =
               Z.of_nat (length (sl_Streams (aj_ExpectedStreamLayout authorized)))) &&
  bool_decide (sj_OutputContainer request = aj_OutputContainer authorized) &&
  bool_decide (length (sj_Parts request) = length (aj_OrderedParts authorized)) &&
  equal_func part_matches (sj_Parts request) (aj_OrderedParts authorized).

Definition withinTolerance (actual expected tolerance : Z) : bool :=
  if bool_decide (actual < expected) then bool_decide (sub64 expected actual <= tolerance)
  else bool_decide (sub64 actual expected <= tolerance).

Definition matchesContainer (expected : OutputContainer) (names : list string) : bool :=
  if bool_decide (expected = OutputContainerAVI) then bool_decide ("avi" ∈ names)
  else if bool_decide (expected = OutputContainerMKV) then bool_decide ("matroska" ∈ names)
  else if bool_decide (expected = OutputContainerMP4) then bool_decide ("mp4" ∈ names)
  else false.

Definition ValidateOutput (authorized : AuthorizedJoin) (evidence : ProbeEvidence) (sizeBytes : Z)
    : list RejectionReason :=
  let size :=
    match pf_SizeBytes (pe_Format evidence) with
    | Some size =>
        if bool_decide (size <= 0) || negb (bool_decide (size = sizeBytes))
        then [ArtifactSizeMismatch] else []
    | None => [ArtifactSizeMismatch]
    end in
  let duration := AssessProbeDuration evidence in
  let duration :=
    match da_Conflict duration, da_EffectiveMS duration with
    | false, Some effective =>
        if negb (withinTolerance effective (aj_ExpectedDurationMS authorized)
                   (aj_DurationToleranceMS authorized))
        then [DurationOutsideTolerance] else []
    | _, _ => [DurationUnavailable]
    end in
  let container :=
    if negb (matchesContainer (aj_OutputContainer authorized) (pf_Names (pe_Format evidence)))
    then [OutputContainerMismatch] else [] in
  let layout :=
    if negb (MatchesMuxedOutput (aj_ExpectedStreamLayout authorized) (pe_Streams evidence))
    then [StreamLayoutMismatch] else [] in
  size ++ duration ++ container ++ layout.

Definition ValidateStagedJoin (authorized : AuthorizedJoin) (request : StageJoinRequestV1)
    (response : StageJoinResponseV1) : Validation :=
  let validation := mkValidation None None [] in
  if negb (is_ok (EncodeStageJoinRequest request)) then reject validation InvalidStageRequest
  else if negb (is_ok (EncodeStageJoinResponse response)) then reject validation InvalidStageResponse
  else
    let validation := if negb (requestMatchesAuthorization request authorized)
                      then reject validation StageRequestNotAuthorized else validation in
    let validation := if negb (bool_decide (stage_RequestID response = sj_RequestID request))
                      then reject validation StageResponseNotCorrelated else validation in
    if bool_decide (r_Kind response = ProbeResponseFailed) then reject validation StageFailed
    else match r_Success response with
    | None => reject validation InvalidStageResponse
    | Some success =>
        let reference := mkArtifactReference (sj_ExecutionID request) (sj_CaseID request)
          (sj_CapabilityID request) (ss_ArtifactID success) (ss_ArtifactFingerprint success) in
        let rejections := val_Rejections validation ++
          ValidateOutput authorized (ss_Evidence success) (ss_SizeBytes success) in
        match rejections with
        | _ :: _ => mkValidation None (Some reference) rejections
        | [] => mkValidation
                  (Some (mkVerifiedArtifact reference (ss_SizeBytes success) (ss_Evidence success)))
                  None []
        end
    end.

(** ** Properties *)

(** *** What the checks mean *)

(** The name under which ffprobe reports each output container. *)
Definition probed_name (container : OutputContainer) (name : string) : Prop :=
  (container, name) ∈
    [(OutputContainerAVI, "avi"); (OutputContainerMKV, "matroska"); (OutputContainerMP4, "mp4")].

Lemma matchesContainer_spec container names :
  matchesContainer container names = true <-> exists name, probed_name container name /\ name ∈ names.
Proof.
  unfold matchesContainer, probed_name. split.
  - intros H. repeat (case_bool_decide;
      [subst; apply bool_decide_eq_true in H; eexists; split; [|exact H]; rewrite !elem_of_cons; auto|]).
    done.
  - intros (name & Hc & Hn). rewrite !elem_of_cons in Hc.
    destruct Hc as [[= -> ->]|[[= -> ->]|[[= -> ->]|[]%elem_of_nil]]];
      cbn; by apply bool_decide_eq_true.
Qed.

(** The request carries what the authorization says: its case and capability,
    its sizes, durations and number of streams, its container, and in order
    its files, each with the fingerprint it was authorized with. *)
Record request_authorized (request : StageJoinRequestV1) (authorized : AuthorizedJoin) : Prop :=
  mk_request_authorized
  { qa_case : sj_CaseID request = aj_CaseID authorized;
    qa_capability : sj_CapabilityID request = aj_CapabilityID authorized;
    qa_bytes : sj_ExpectedSourceBytes request = aj_SourceBytes authorized;
    qa_duration : sj_ExpectedDurationMS request = aj_ExpectedDurationMS authorized;
    qa_tolerance : sj_DurationToleranceMS request = aj_DurationToleranceMS authorized;
    qa_streams : sj_ExpectedStreamCount request =
      Z.of_nat (length (sl_Streams (aj_ExpectedStreamLayout authorized)));
    qa_container : sj_OutputContainer request = aj_OutputContainer authorized;
    qa_parts : map (fun part => (sp_FileID part, sp_ExpectedFingerprint part)) (sj_Parts request) =
      map (fun part => (ap_FileID part, StrictFingerprint (ap_Fingerprint part)))
        (aj_OrderedParts authorized) }.

Lemma part_matches_map parts expected :
  equal_func part_matches parts expected = true <->
  map (fun part => (sp_FileID part, sp_ExpectedFingerprint part)) parts =
  map (fun part => (ap_FileID part, StrictFingerprint (ap_Fingerprint part))) expected.
Proof.
  rewrite equal_func_Forall2. split.
  - induction 1 as [|p q ps qs Hpq _ IH]; [done|]. unfold part_matches in Hpq. split_bool.
    simpl. f_equal; [by f_equal|done].
  - revert expected. induction parts as [|p ps IH]; intros [|q qs]; simpl; try discriminate; [done|].
    intros [= Hid Hf Ht]. constructor; [|by apply IH]. unfold part_matches.
    by rewrite !bool_decide_true.
Qed.

Lemma requestMatchesAuthorization_spec request authorized :
  requestMatchesAuthorization request authorized = true <-> request_authorized request authorized.
Proof.
  unfold requestMatchesAuthorization. rewrite !andb_true_iff, !bool_decide_eq_true, part_matches_map. split.
  - intros ((((((((? & ?) & ?) & ?) & ?) & ?) & ?) & _) & ?). by constructor.
  - intros [? ? ? ? ? ? ? Hp]. split_and!; try done.
    apply (f_equal length) in Hp. by rewrite !length_map in Hp.
Qed.

(** What the tolerance check means on 64-bit durations. *)
Lemma withinTolerance_spec actual expected tolerance :
  0 <= actual <= max_int64 -> 0 <= expected <= max_int64 ->
  withinTolerance actual expected tolerance = true <-> Z.abs (actual - expected) <= tolerance.
Proof.
  intros Ha He. unfold withinTolerance.
  case_bool_decide; rewrite bool_decide_eq_true, sub64_small by lia; lia.
Qed.

(** The probed artifact is the authorized output: the size it has on disk is
    the size probed and positive; its container and streams give one duration,
    within the tolerance of the authorized one; ffprobe names the authorized
    container; and in the order of their distinct indexes its streams are
    those of the authorized layout. *)
Record output_authorized (authorized : AuthorizedJoin) (evidence : ProbeEvidence) (sizeBytes : Z) : Prop :=
  mk_output_authorized
  { oa_size : pf_SizeBytes (pe_Format evidence) = Some sizeBytes /\ 0 < sizeBytes;
    oa_duration : exists duration, reference_duration evidence = Some duration /\
      Z.abs (duration - aj_ExpectedDurationMS authorized) <= aj_DurationToleranceMS authorized;
    oa_container : exists name, probed_name (aj_OutputContainer authorized) name /\
      name ∈ pf_Names (pe_Format evidence);
    oa_layout : exists ordered, index_order (pe_Streams evidence) ordered /\
      Forall2 entry_describes (sl_Streams (aj_ExpectedStreamLayout authorized)) ordered }.

Lemma if_nil {A} (b : bool) (x : A) : (if b then [x] else []) = [] <-> b = false.
Proof. by destruct b. Qed.

(** The check of the size. *)
Lemma size_nil probed sizeBytes :
  match probed with
  | Some size => if bool_decide (size <= 0) || negb (bool_decide (size = sizeBytes))
                 then [ArtifactSizeMismatch] else []
  | None => [ArtifactSizeMismatch]
  end = [] <-> probed = Some sizeBytes /\ 0 < sizeBytes.
Proof.
  destruct probed as [size|]; [|by split; [|intros [? _]]]. rewrite if_nil. split.
  - intros H. split_bool. subst. split; [done|lia].
  - intros [[= ->] ?]. by rewrite bool_decide_false, bool_decide_true by lia.
Qed.

(** The check of the duration. *)
Lemma duration_nil evidence expected tolerance :
  evidence_range evidence -> 0 <= expected <= max_int64 ->
  match da_Conflict (AssessProbeDuration evidence), da_EffectiveMS (AssessProbeDuration evidence) with
  | false, Some effective =>
      if negb (withinTolerance effective expected tolerance) then [DurationOutsideTolerance] else []
  | _, _ => [DurationUnavailable]
  end = [] <->
  exists duration, reference_duration evidence = Some duration /\ Z.abs (duration - expected) <= tolerance.
Proof.
  intros Hr He. setoid_rewrite <- (part_usable_reference evidence _ Hr). unfold part_usable. split.
  - destruct (da_Conflict _) eqn:Hc; [done|]. destruct (da_EffectiveMS _) as [d|] eqn:Hd; [|done].
    intros H%if_nil%negb_false_iff. exists d. split; [done|].
    apply withinTolerance_spec in H; [done| |done]. apply (effective_range _ _ Hr) in Hd. lia.
  - intros (d & [-> Hd] & Hle). rewrite Hd, if_nil, negb_false_iff. apply withinTolerance_spec; [|done..].
    apply (effective_range _ _ Hr) in Hd. lia.
Qed.

Lemma ValidateOutput_nil authorized evidence sizeBytes :
  evidence_range evidence -> 0 <= aj_ExpectedDurationMS authorized <= max_int64 ->
  ValidateOutput authorized evidence sizeBytes = [] <-> output_authorized authorized evidence sizeBytes.
Proof.
  intros Hr He. unfold ValidateOutput. cbv zeta.
  rewrite !app_nil, size_nil, duration_nil, !if_nil, !negb_false_iff, matchesContainer_spec,
    MatchesMuxedOutput_spec by done.
  split; [by intros (? & ? & ? & ?)|by intros [? ? ? ?]].
Qed.

Lemma reject_not_accepted v reason : staged_Accepted (reject v reason) = false.
Proof.
  unfold staged_Accepted, reject. simpl. destruct (val_Publish v), (val_Discard v); try done.
  apply bool_decide_eq_false. rewrite length_app. simpl. lia.
Qed.

(** C27. A staged join is cleared for publication exactly when the exchange encodes,
    the request carries what the authorization says, with the files it lists
    in order and the fingerprint of each, the response answers that request
    with success, and the probed artifact is the authorized output: the size
    reported, one duration within the tolerance, the container's name and,
    stream by stream, the layout. The durations are 64-bit integers. *)
Theorem ValidateStagedJoin_correct (authorized : AuthorizedJoin) (request : StageJoinRequestV1)
    (response : StageJoinResponseV1) :
  0 <= aj_ExpectedDurationMS authorized <= max_int64 ->
  (forall success, r_Success response = Some success -> evidence_range (ss_Evidence success)) ->
  staged_Accepted (ValidateStagedJoin authorized request response) = true <->
  is_ok (EncodeStageJoinRequest request) = true /\
  is_ok (EncodeStageJoinResponse response) = true /\
  request_authorized request authorized /\
  stage_RequestID response = sj_RequestID request /\
  exists success, r_Success response = Some success /\
    output_authorized authorized (ss_Evidence success) (ss_SizeBytes success).
Proof.
  intros Hexp Hrange. unfold ValidateStagedJoin. cbv zeta. rewrite <- requestMatchesAuthorization_spec.
  destruct (is_ok (EncodeStageJoinRequest request)); cbn [negb]; [|split; [done|by intros [? _]]].
  destruct (is_ok (EncodeStageJoinResponse response)) eqn:Hresp; cbn [negb];
    [|split; [done|by intros (_ & ? & _)]].
  apply is_ok_true in Hresp as [data Hresp]. apply encodeOperationResponse_Ok in Hresp.
  destruct (bool_decide (r_Kind response = ProbeResponseFailed)) eqn:Hk.
  { split_bool. destruct Hresp as [(Hk' & _)|(_ & Hs & _)]; [by rewrite Hk in Hk'|].
    rewrite reject_not_accepted. split; [done|]. intros (_ & _ & _ & _ & s & ? & _). congruence. }
  destruct (r_Success response) as [success|]; [specialize (Hrange success eq_refl)|].
  2: { rewrite reject_not_accepted. split; [done|by intros (_ & _ & _ & _ & s & ? & _)]. }
  set (pre := val_Rejections _).
  assert (pre = [] <-> requestMatchesAuthorization request authorized = true /\
    stage_RequestID response = sj_RequestID request) as Hpre.
  { subst pre. destruct (requestMatchesAuthorization request authorized),
      (decide (stage_RequestID response = sj_RequestID request)) as [Hid|Hid];
      rewrite ?(bool_decide_true _ Hid), ?(bool_decide_false _ Hid);
      (split; [intros Hn; first [by split|discriminate Hn]|by intros [? ?]]). }
  destruct (pre ++ _) as [|r rs] eqn:Ho.
  - apply app_nil in Ho as [Hp Ho]. apply Hpre in Hp as [? ?]. apply ValidateOutput_nil in Ho; [|done..].
    split; [|done]. intros _. split_and!; try done. by exists success.
  - split; [done|]. intros (_ & _ & Hm & Hid & s & [= <-] & Hom).
    apply ValidateOutput_nil in Hom; [|done..]. rewrite Hom, app_nil_r in Ho.
    assert (pre = []) as Hnil by by apply Hpre. congruence.
Qed.

#[global] Arguments ValidateStagedJoin : simpl never.
