(* ===== verification/JoinTimeline.v ===== *)
(** * Packet timing of a join

    [internal/joinverification/timeline.go] compares the packets of a joined
    file with those of its parts, stream by stream; [internal/ffprobe/timeline.go]
    gives the packets their times; [worker/mediajoin/runner_linux.go] joins the
    parts and accepts the output only after that comparison. Times are binary64
    seconds with NaN for a missing one. *)
From stdpp Require Import base strings list gmap sorting pretty.
From Stdlib Require Import SpecFloat.
From S2P Require Import Prelude GoStrings.

(** ** [math] *)

Definition fadd : float -> float -> float := SFadd 53 1024.
Definition fabs : float -> float := SFabs.
Definition fleb : float -> float -> bool := SFleb.
Definition fltb : float -> float -> bool := SFltb.
Definition NaN : float := S754_nan.
Definition Inf (negative : bool) : float := S754_infinity negative.
Definition IsNaN (x : float) : bool := match x with S754_nan => true | _ => false end.
Definition IsInf (x : float) : bool := match x with S754_infinity _ => true | _ => false end.

(** The binary64 number nearest to [n / d], as a decimal constant is read. *)
Definition float_of_ratio (n d : positive) : float :=
  SFdiv 53 1024 (S754_finite false n 0) (S754_finite false d 0).

Definition Signbit (x : float) : bool :=
  match x with S754_zero s | S754_infinity s | S754_finite s _ _ => s | S754_nan => false end.
Definition is_zero (x : float) : bool := match x with S754_zero _ => true | _ => false end.

(** [math.Min] and [math.Max] with their special cases. *)
Definition Min (x y : float) : float :=
  if (IsInf x && Signbit x) || (IsInf y && Signbit y) then Inf true
  else if IsNaN x || IsNaN y then NaN
  else if is_zero x && is_zero y then (if Signbit x then x else y)
  else if fltb x y then x else y.

Definition Max (x y : float) : float :=
  if (IsInf x && negb (Signbit x)) || (IsInf y && negb (Signbit y)) then Inf false
  else if IsNaN x || IsNaN y then NaN
  else if is_zero x && is_zero y then (if Signbit x then y else x)
  else if fltb y x then x else y.

(** ** Packets (ffprobe/timeline.go) *)

Record Packet := mkPacket { PTS : float; DTS : float; Duration : float }.

(** The packets of each stream, by index. *)
Definition Timeline := gmap Z (list Packet).

(** ** Validation (joinverification/timeline.go) *)

Definition timingTolerance : float := float_of_ratio 2 1000.
(** The constant [timingTolerance + 1e-9]. *)
Definition sameTolerance : float := float_of_ratio 2000001 1000000000.
Definition nanosecond : float := float_of_ratio 1 1000000000.
Definition boundaryTolerance : float := float_of_ratio 1 10.

Definition sameTime (expected actual : float) : bool :=
  IsNaN expected || IsNaN actual || fleb (fabs (fsub expected actual)) sameTolerance.

Definition packetOffset (source output : Packet) : float :=
  if negb (IsNaN (PTS source)) && negb (IsNaN (PTS output))
  then fsub (PTS output) (PTS source)
  else fsub (DTS output) (DTS source).

(** The checks of one packet of [validateStreamTiming]; [last] when no packet
    of the part follows. *)
Definition check_packet (offset : float) (last : bool) (packet actual : Packet) : result unit :=
  _ ← fail_if (IsNaN (packetOffset packet actual) ||
               negb (sameTime (fadd (PTS packet) offset) (PTS actual)) ||
               negb (sameTime (fadd (DTS packet) offset) (DTS actual)))
        "packet %d: timestamp changed (source %.6f, output %.6f, offset %.6f)";
  fail_if (negb last && negb (sameTime (Duration packet) (Duration actual)))
    "packet %d: packet duration changed (source %.6f, output %.6f)".

(** Its presentation time, or its decoding time when that is missing. *)
Definition packet_start (actual : Packet) : float :=
  if IsNaN (PTS actual) then DTS actual else PTS actual.
Definition packet_end (actual : Packet) : float :=
  if IsNaN (Duration actual) then packet_start actual
  else fadd (packet_start actual) (Duration actual).

Fixpoint packets_loop (offset first last : float) (source joined : list Packet)
    : result (float * float) :=
  match source, joined with
  | packet :: source, actual :: joined =>
      _ ← check_packet offset (bool_decide (source = [])) packet actual;
      packets_loop offset (Min first (packet_start actual)) (Max last (packet_end actual)) source joined
  | [], _ => Ok (first, last)
  | _ :: _, [] => Err "index out of range"
  end.

Definition validateStreamTiming (source joined : list Packet) (partOffset : float)
    : result (float * float) :=
  match source, joined with
  | s0 :: _, j0 :: _ =>
      let offset := packetOffset s0 j0 in
      let startTolerance :=
        if IsNaN (Duration s0) then timingTolerance else Max timingTolerance (Duration s0) in
      _ ← fail_if (fltb (fadd startTolerance nanosecond) (fabs (fsub offset partOffset)))
            "audio/video alignment changed";
      packets_loop offset (Inf false) (Inf true) source joined
  | _, _ => Err "index out of range"
  end.

(** What the loop over the streams of a part carries. *)
Record part_state := mkpart_state
  { st_positions : gmap Z nat; st_offset : float; st_start : float; st_end : float }.

Definition position (positions : gmap Z nat) (stream : Z) : nat := default 0%nat (positions !! stream).

Definition stream_step (part output : Timeline) (state : part_state) (stream : Z) : result part_state :=
  let source := default [] (part !! stream) in
  let start := position (st_positions state) stream in
  let joined := default [] (output !! stream) in
  if bool_decide (length source = 0%nat) ||
     bool_decide (Z.of_nat (length joined) - Z.of_nat start < Z.of_nat (length source))
  then Err "part %d stream %d: missing packets"
  else
    match source, drop start joined with
    | s0 :: _, j0 :: _ =>
        let offset := if IsNaN (st_offset state) then packetOffset s0 j0 else st_offset state in
        _ ← fail_if (IsNaN offset) "part %d stream %d: missing packet timestamps";
        '(first, last) ← validateStreamTiming source (take (length source) (drop start joined)) offset;
        mret (mkpart_state (<[stream := (start + length source)%nat]> (st_positions state)) offset
                (Min (st_start state) first) (Max (st_end state) last))
    | _, _ => Err "index out of range"
    end.

Fixpoint streams_loop (part output : Timeline) (state : part_state) (streams : list Z)
    : result part_state :=
  match streams with
  | [] => Ok state
  | stream :: rest => state ← stream_step part output state stream; streams_loop part output state rest
  end.

(** [slices.Sort] of the keys. *)
Definition sorted_streams (part : Timeline) : list Z := merge_sort Z.le (map fst (map_to_list part)).

Fixpoint parts_loop (output : Timeline) (positions : gmap Z nat) (previousEnd : float)
    (parts : list Timeline) : result (gmap Z nat) :=
  match parts with
  | [] => Ok positions
  | part :: rest =>
      _ ← fail_if (negb (bool_decide (size part = size output))) "part %d: stream count changed";
      state ← streams_loop part output (mkpart_state positions NaN (Inf false) (Inf true))
                (sorted_streams part);
      _ ← fail_if (negb (IsNaN previousEnd) &&
                   fltb boundaryTolerance (fabs (fsub (st_start state) previousEnd)))
            "part %d: boundary gap or overlap of %.6f seconds";
      parts_loop output (st_positions state) (st_end state) rest
  end.

Definition ValidateTimeline (parts : list Timeline) (output : Timeline) : result unit :=
  _ ← fail_if (bool_decide (length parts = 0%nat) || bool_decide (size output = 0%nat))
        "packet timing evidence is empty";
  positions ← parts_loop output ∅ NaN parts;
  fail_if (negb (forallb (fun entry => bool_decide (position positions entry.1 = length entry.2))
                   (map_to_list output)))
    "stream %d: unexpected extra packets".

(** ** One join (mediajoin/runner_linux.go, normalize_linux.go) *)
Module mediajoin.

Definition firstInheritedDescriptor : Z := 3.

Inductive FailureKind := FailureTimeout | FailureExecution | FailureInvalidOutput.

Inductive join_result :=
| Joined (sizeBytes : Z)
| JoinFailure (kind : FailureKind)
| JoinError (e : error).

Record Runner := mkRunner { executable : string; timeout : Z }.

Definition NewRunner (executable : string) (timeout : Z) : result Runner :=
  _ ← fail_if (bool_decide (executable = "") || ContainsByte executable nul ||
               negb (filepath.IsAbs executable) || negb (bool_decide (filepath.Clean executable = executable)))
        "ffmpeg executable must be an absolute clean path";
  _ ← fail_if (bool_decide (timeout <= 0)) "media join timeout must be positive";
  mret (mkRunner executable timeout).

(** [os.FileInfo] as it is read here; [os.SameFile] compares [file_identity]. *)
Record file_info := mkfile_info { file_regular : bool; file_size : Z; file_identity : Z * Z }.

(** How a command of the runner ends, and what the two contexts say then. *)
Inductive command_end :=
| Succeeded
| Failed (outer : option error) (deadline : bool).

(** The answers of the system to one part: its [Stat], the two seeks, the
    creation and the remux of its normalised copy, and its packet timing. *)
Record part_answers := mkpart_answers
  { pa_Stat : result file_info; pa_Seek : result unit; pa_Create : result unit;
    pa_Remux : command_end; pa_RemuxSeek : result unit; pa_Timeline : result Timeline }.

Record answers := mkanswers
  { an_ContextErr : option error; an_OutputStat : result file_info; an_OutputSeek : result unit;
    an_Scratch : result unit; an_Command : command_end; an_Sync : result unit;
    an_JoinedStat : result file_info; an_JoinedSeek : result unit;
    an_JoinedTimeline : result Timeline; an_FinalSeek : result unit }.

Definition outputFormat (container : string) : result string :=
  if bool_decide (container = "avi") then Ok "avi"
  else if bool_decide (container = "mkv") then Ok "matroska"
  else if bool_decide (container = "mp4") then Ok "mp4"
  else Err "unsupported output container %q".

Definition validateRunner (contextErr : option error) (runner : Runner) : result unit :=
  _ ← fail_if (bool_decide (executable runner = "") || bool_decide (timeout runner <= 0))
        "media join runner is not configured";
  match contextErr with Some e => Err e | None => Ok tt end.

Definition SameFile (a b : file_info) : bool := bool_decide (file_identity a = file_identity b).

Fixpoint prepare_parts (output : file_info) (previous : list file_info) (parts : list part_answers)
    : result unit :=
  match parts with
  | [] => Ok tt
  | part :: rest =>
      info ← pa_Stat part;
      _ ← fail_if (negb (file_regular info) || bool_decide (file_size info <= 0))
            "media join part %d must be a non-empty regular file";
      _ ← fail_if (SameFile info output) "media join output aliases part %d";
      _ ← fail_if (existsb (SameFile info) previous) "media join part %d duplicates part %d";
      _ ← pa_Seek part;
      prepare_parts output (previous ++ [info])%list rest
  end.

Definition prepareFiles (parts : list part_answers) (a : answers) : result unit :=
  _ ← fail_if (bool_decide (length parts < 2)%nat) "media join requires at least two parts";
  outputInfo ← an_OutputStat a;
  _ ← fail_if (negb (file_regular outputInfo) || negb (bool_decide (file_size outputInfo = 0)))
        "media join output must be an empty regular file";
  _ ← prepare_parts outputInfo [] parts;
  an_OutputSeek a.

(** [remux] gives a failed command a kind by its own context alone. *)
Definition remux (part : part_answers) : result unit + FailureKind :=
  match pa_Remux part with
  | Failed _ deadline => inr (if deadline then FailureTimeout else FailureExecution)
  | Succeeded => inl (pa_RemuxSeek part)
  end.

Fixpoint normalize_parts (parts : list part_answers) : result unit + FailureKind :=
  match parts with
  | [] => inl (Ok tt)
  | part :: rest =>
      match pa_Create part with
      | Err e => inl (Err e)
      | Ok _ =>
          match remux part with
          | inl (Ok _) => normalize_parts rest
          | stopped => stopped
          end
      end
  end.

Definition normalize (parts : list part_answers) (a : answers) : result unit + FailureKind :=
  match an_Scratch a with
  | Err e => inl (Err e)
  | Ok _ => normalize_parts parts
  end.

Definition newline : string := String (byte 10) "".

Definition concatManifest (partCount : nat) : string :=
  "ffconcat version 1.0" +:+ newline +:+
  String.concat "" (map (fun index => "file fd:" +:+ newline +:+ "option fd " +:+
                         pretty (firstInheritedDescriptor + Z.of_nat index) +:+ newline)
                      (seq 0 partCount)).

Definition finish (parts : list Timeline) (a : answers) : join_result :=
  match an_Sync a with
  | Err _ => JoinFailure FailureInvalidOutput
  | Ok _ =>
      match an_JoinedStat a with
      | Err _ => JoinFailure FailureInvalidOutput
      | Ok info =>
          if negb (file_regular info) || bool_decide (file_size info <= 0)
          then JoinFailure FailureInvalidOutput
          else match an_JoinedSeek a with
          | Err _ => JoinFailure FailureInvalidOutput
          | Ok _ =>
              match an_JoinedTimeline a with
              | Err e => JoinError e
              | Ok joined =>
                  match ValidateTimeline parts joined with
                  | Err _ => JoinFailure FailureInvalidOutput
                  | Ok _ =>
                      match an_FinalSeek a with
                      | Err e => JoinError e
                      | Ok _ => Joined (file_size info)
                      end
                  end
              end
          end
      end
  end.

Definition Join (runner : Runner) (parts : list part_answers) (container : string) (a : answers)
    : join_result :=
  match (_ ← outputFormat container; _ ← validateRunner (an_ContextErr a) runner; prepareFiles parts a) with
  | Err e => JoinError e
  | Ok _ =>
      match normalize parts a with
      | inr kind => JoinFailure kind
      | inl (Err e) => JoinError e
      | inl (Ok _) =>
          match mapM pa_Timeline parts with
          | Err e => JoinError e
          | Ok timelines =>
              match an_Command a with
              | Failed (Some e) _ => JoinError e
              | Failed None true => JoinFailure FailureTimeout
              | Failed None false => JoinFailure FailureExecution
              | Succeeded => finish timelines a
              end
          end
      end
  end.

End mediajoin.

(** ** What acceptance means *)

(** [segment] are the packets of [source], moved by one offset close to that of
    the part and otherwise unchanged. *)
Definition same_packets (partOffset : float) (source segment : list Packet) : Prop :=
  exists s0 j0, head source = Some s0 /\ head segment = Some j0 /\
  let offset := packetOffset s0 j0 in
  fltb (fadd (if IsNaN (Duration s0) then timingTolerance else Max timingTolerance (Duration s0))
          nanosecond) (fabs (fsub offset partOffset)) = false /\
  length source = length segment /\
  forall i packet actual, source !! i = Some packet -> segment !! i = Some actual ->
    IsNaN (packetOffset packet actual) = false /\
    sameTime (fadd (PTS packet) offset) (PTS actual) = true /\
    sameTime (fadd (DTS packet) offset) (DTS actual) = true /\
    ((S i < length source)%nat -> sameTime (Duration packet) (Duration actual) = true).

Lemma packets_loop_Ok offset first last source joined r :
  packets_loop offset first last source joined = Ok r ->
  forall i packet actual, source !! i = Some packet -> joined !! i = Some actual ->
    IsNaN (packetOffset packet actual) = false /\
    sameTime (fadd (PTS packet) offset) (PTS actual) = true /\
    sameTime (fadd (DTS packet) offset) (DTS actual) = true /\
    ((S i < length source)%nat -> sameTime (Duration packet) (Duration actual) = true).
Proof.
  revert first last joined. induction source as [|s source IH]; intros first last joined; [done|].
  destruct joined as [|j joined]; [done|]. cbn [packets_loop]. intros H.
  apply bind_Ok in H as (u & Hc & H). specialize (IH _ _ _ H).
  intros [|i] packet actual; cbn.
  - intros [= <-] [= <-]. unfold check_packet in Hc. apply bind_Ok in Hc as (u' & Hc & Hd).
    inv_result. split_bool. split_and!; try done. intros Hl.
    apply andb_false_iff in Hd as [Hd|Hd]; split_bool; [|done].
    subst source. simpl in Hl. lia.
  - intros Hs Hj. destruct (IH _ _ _ Hs Hj) as (H1 & H2 & H3 & H4). split_and!; try done.
    intros Hl. apply H4. lia.
Qed.

Lemma validateStreamTiming_Ok source segment partOffset r :
  length source = length segment ->
  validateStreamTiming source segment partOffset = Ok r -> same_packets partOffset source segment.
Proof.
  intros Hl. unfold validateStreamTiming. destruct source as [|s0 source]; [done|].
  destruct segment as [|j0 segment]; [done|]. intros H. apply bind_Ok in H as (u & Ha & H).
  apply fail_if_Ok in Ha. exists s0, j0.
  split; [done|]. split; [done|]. split; [done|]. split; [done|]. by eapply packets_loop_Ok.
Qed.

(** The packets of a stream of the output from [start] on begin with those of
    the part. *)
Definition stream_matches (part output : Timeline) (partOffset : float) (start : nat) (stream : Z) : Prop :=
  exists source joined, part !! stream = Some source /\ output !! stream = Some joined /\
  source <> [] /\ (start + length source <= length joined)%nat /\
  same_packets partOffset source (take (length source) (drop start joined)).

Definition advance (part : Timeline) (positions : gmap Z nat) (stream : Z) : gmap Z nat :=
  <[stream := (position positions stream + length (default [] (part !! stream)))%nat]> positions.

Lemma stream_step_Ok part output state stream state' :
  stream_step part output state stream = Ok state' ->
  IsNaN (st_offset state') = false /\
  (IsNaN (st_offset state) = false -> st_offset state' = st_offset state) /\
  stream_matches part output (st_offset state') (position (st_positions state) stream) stream /\
  st_positions state' = advance part (st_positions state) stream.
Proof.
  unfold stream_step. set (source := default [] (part !! stream)).
  set (joined := default [] (output !! stream)). set (start := position _ _).
  destruct (_ || _) eqn:Hg; [done|]. split_bool.
  destruct source as [|s0 source'] eqn:Es; [done|].
  destruct (drop start joined) as [|j0 joined'] eqn:Ej; [done|]. intros Hok.
  apply bind_Ok in Hok as (u & Hn & Hok). apply fail_if_Ok in Hn.
  apply bind_Ok in Hok as ([first last] & Hv & Hok). inv_ok Hok. cbn [st_offset st_positions].
  split; [done|]. split; [intros ->; done|]. split.
  - subst source joined. destruct (part !! stream) as [src|] eqn:Ep; [|done]. cbn in Es. subst src.
    destruct (output !! stream) as [out|] eqn:Eo; cbn [default from_option id] in *; [unfold id in *|by rewrite drop_nil in Ej].
    exists (s0 :: source'), out. split_and!; try done; [cbn [length] in *; lia|].
    rewrite Ej. eapply validateStreamTiming_Ok; [|exact Hv].
    rewrite length_take, <- Ej, length_drop. cbn [length] in *. lia.
  - unfold advance. fold source. by rewrite Es.
Qed.

Lemma streams_loop_Ok part output state streams state' :
  streams_loop part output state streams = Ok state' -> NoDup streams ->
  (streams <> [] -> IsNaN (st_offset state') = false) /\
  (IsNaN (st_offset state) = false -> st_offset state' = st_offset state) /\
  (forall stream, stream ∈ streams ->
     stream_matches part output (st_offset state') (position (st_positions state) stream) stream) /\
  st_positions state' = fold_left (advance part) streams (st_positions state).
Proof.
  revert state. induction streams as [|s streams IH]; intros state H Hnd; cbn in H |- *.
  { injection H as <-. split_and!; try done. intros ? Hin. by apply elem_of_nil in Hin. }
  apply bind_Ok in H as (mid & Hs & H). apply stream_step_Ok in Hs as (Hn & Ho & Hm & Hp).
  apply NoDup_cons in Hnd as [Hnin Hnd]. destruct (IH _ H Hnd) as (_ & Ho' & Hall & Hpos).
  rewrite Hp in *. specialize (Ho' Hn). split_and!; [by rewrite Ho'|by intros; rewrite Ho'; auto| |done].
  intros t [->|Ht]%elem_of_cons; [by rewrite Ho'|].
  specialize (Hall t Ht). unfold position, advance in Hall |- *.
  rewrite lookup_insert_ne in Hall by (intros ->; done). done.
Qed.

(** The streams a timeline has packets of. *)
Definition streams_of (timeline : gmap Z (list Packet)) : gset Z := dom timeline.

Lemma elem_of_streams timeline t : t ∈ streams_of timeline <-> is_Some (timeline !! t).
Proof. apply elem_of_dom. Qed.

Lemma streams_size timeline : size (streams_of timeline) = size timeline.
Proof. apply size_dom. Qed.

Lemma position_advance part positions stream t :
  position (advance part positions stream) t =
  (position positions t + if decide (t = stream) then length (default [] (part !! stream)) else 0)%nat.
Proof.
  unfold advance. case_decide as E; unfold position.
  - subst t. by rewrite lookup_insert_eq.
  - rewrite lookup_insert_ne by congruence. lia.
Qed.

Lemma position_advances part streams positions t :
  NoDup streams ->
  position (fold_left (advance part) streams positions) t =
  (position positions t + if decide (t ∈ streams) then length (default [] (part !! t)) else 0)%nat.
Proof.
  revert positions. induction streams as [|s streams IH]; intros positions Hnd; cbn [fold_left].
  { rewrite decide_False; [lia|]. apply not_elem_of_nil. }
  apply NoDup_cons in Hnd as [Hnin Hnd]. rewrite IH, position_advance by done.
  destruct (decide (t = s)) as [->|Hne].
  - rewrite decide_False by done. rewrite decide_True by (by left). lia.
  - destruct (decide (t ∈ streams)) as [Hin|Hnt].
    + rewrite decide_True by (by right). lia.
    + rewrite decide_False; [lia|]. by intros [?|?]%elem_of_cons.
Qed.

Lemma sorted_streams_elem part t : t ∈ sorted_streams part <-> t ∈ streams_of part.
Proof.
  unfold sorted_streams. rewrite merge_sort_Permutation, elem_of_streams.
  rewrite list_elem_of_In, List.in_map_iff. split.
  - intros ((k & packets) & <- & Hin%list_elem_of_In%elem_of_map_to_list). cbn. eauto.
  - intros [packets Hp]. exists (t, packets). split; [done|].
    by apply list_elem_of_In, elem_of_map_to_list.
Qed.

Lemma sorted_streams_NoDup part : NoDup (sorted_streams part).
Proof. unfold sorted_streams. rewrite merge_sort_Permutation. apply NoDup_fst_map_to_list. Qed.

Lemma position_part part positions t :
  position (fold_left (advance part) (sorted_streams part) positions) t =
  (position positions t + length (default [] (part !! t)))%nat.
Proof.
  rewrite position_advances by apply sorted_streams_NoDup. case_decide as E; [done|].
  assert (part !! t = None) as ->; [|done].
  apply eq_None_not_Some. by rewrite <- elem_of_streams, <- sorted_streams_elem.
Qed.

(** One part of an accepted join, the output read from [start] on. *)
Lemma part_Ok part output positions partStart partEnd state :
  streams_loop part output (mkpart_state positions NaN partStart partEnd) (sorted_streams part) = Ok state ->
  size part = size output -> size output <> 0%nat ->
  streams_of part = streams_of output /\ IsNaN (st_offset state) = false /\
  (forall t, t ∈ streams_of output -> stream_matches part output (st_offset state) (position positions t) t) /\
  forall t, position (st_positions state) t = (position positions t + length (default [] (part !! t)))%nat.
Proof.
  intros H Hsize Hne. apply streams_loop_Ok in H as (Hn & _ & Hall & Hp); [|apply sorted_streams_NoDup].
  cbn [st_positions] in *.
  assert (streams_of part = streams_of output) as Hdom.
  { apply set_subseteq_size_eq.
    - intros t Ht. apply sorted_streams_elem, Hall in Ht as (? & joined & _ & Ho & _).
      apply elem_of_streams. eauto.
    - rewrite !streams_size. apply Nat.eq_le_incl. symmetry. exact Hsize. }
  split; [done|]. split; [|split].
  - apply Hn. intros E. apply Hne. rewrite <- Hsize.
    transitivity (size (streams_of part)); [symmetry; apply streams_size|]. apply size_empty_iff. intros t. rewrite <- sorted_streams_elem, E. set_solver.
  - intros t Ht. apply Hall, sorted_streams_elem. by rewrite Hdom.
  - intros t. rewrite Hp. apply position_part.
Qed.

(** How many packets of a stream the parts have together. *)
Definition packets_of (parts : list Timeline) (stream : Z) : nat :=
  sum_list (map (fun part => length (default [] (part !! stream))) parts).

Lemma parts_loop_Ok output positions previousEnd parts positions' :
  parts_loop output positions previousEnd parts = Ok positions' -> size output <> 0%nat ->
  exists offsets,
    length offsets = length parts /\ Forall (fun offset => IsNaN offset = false) offsets /\
    Forall (fun part => streams_of part = streams_of output) parts /\
    (forall t, position positions' t = (position positions t + packets_of parts t)%nat) /\
    forall t joined, output !! t = Some joined ->
      (position positions t + packets_of parts t)%nat = length joined ->
      exists segments, drop (position positions t) joined = concat segments /\
        Forall3 (fun part offset segment => exists source,
          part !! t = Some source /\ source <> [] /\ same_packets offset source segment)
          parts offsets segments.
Proof.
  intros H Hne. revert positions previousEnd H.
  induction parts as [|part parts IH]; intros positions previousEnd H; cbn [parts_loop] in H.
  { injection H as <-. exists []. split; [done|]. split; [constructor|]. split; [constructor|]. split.
    - intros t. unfold packets_of. cbn. lia.
    - intros t joined _ E. exists []. split; [|constructor].
      unfold packets_of in E. cbn in E. apply drop_ge. lia. }
  apply bind_Ok in H as (u & Hsize & H). apply bind_Ok in H as (state & Hs & H).
  apply bind_Ok in H as (u' & _ & H). apply fail_if_Ok in Hsize. split_bool.
  destruct (part_Ok _ _ _ _ _ _ Hs Hsize Hne) as (Hdom & Hn & Hall & Hpos).
  apply IH in H as (offsets & Hl & Hnan & Hdoms & Htotal & Hsegments).
  exists (st_offset state :: offsets). split; [cbn; by rewrite Hl|].
  split; [by constructor|]. split; [by constructor|]. split.
  - intros t. rewrite Htotal, Hpos. unfold packets_of. cbn. lia.
  - intros t joined Ho E.
    destruct (Hall t (proj2 (elem_of_streams _ _) (mk_is_Some _ _ Ho))) as (source & joined' & Hp & Ho' & Hsource & Hle & Hsame).
    rewrite Ho in Ho'. injection Ho' as <-.
    destruct (Hsegments t joined Ho) as (segments & Hdrop & Hf).
    { rewrite Hpos. unfold packets_of in *. cbn in E. lia. }
    exists (take (length source) (drop (position positions t) joined) :: segments). split.
    + cbn. rewrite <- Hdrop, Hpos, Hp. cbn. rewrite <- drop_drop.
      symmetry. apply take_drop.
    + constructor; [|done]. eauto.
Qed.

(** An accepted output has exactly the packets of the parts, in order. *)
Lemma ValidateTimeline_sound parts output u :
  ValidateTimeline parts output = Ok u ->
  parts <> [] /\ Forall (fun part => streams_of part = streams_of output) parts /\
  exists offsets, Forall (fun offset => IsNaN offset = false) offsets /\
    forall stream joined, output !! stream = Some joined ->
    exists segments, joined = concat segments /\
      Forall3 (fun part offset segment => exists source,
        part !! stream = Some source /\ source <> [] /\ same_packets offset source segment)
        parts offsets segments.
Proof.
  unfold ValidateTimeline. intros H. apply bind_Ok in H as (u1 & Hne & H).
  apply bind_Ok in H as (positions & Hloop & H). apply fail_if_Ok in Hne. apply fail_if_Ok in H.
  split_bool. apply parts_loop_Ok in Hloop as (offsets & Hl & Hnan & Hdoms & Htotal & Hseg); [|done].
  split; [by intros ->|]. split; [done|]. exists offsets. split; [done|].
  intros stream joined Ho. apply forallb_Forall in H. rewrite Forall_forall in H.
  specialize (H (stream, joined) ltac:(by apply elem_of_map_to_list)). cbn in H. split_bool.
  rewrite Htotal in H. exact (Hseg stream joined Ho H).
Qed.

(** ** An accepted join *)
Import mediajoin.

(** Distinct regular files with contents, none of them [output] or in [previous]. *)
Lemma prepare_parts_Ok output previous parts u :
  prepare_parts output previous parts = Ok u ->
  exists infos, Forall2 (fun part info => pa_Stat part = Ok info) parts infos /\
    Forall (fun info => file_regular info = true /\ 0 < file_size info /\
                        file_identity info <> file_identity output /\
                        file_identity info ∉ map file_identity previous) infos /\
    NoDup (map file_identity infos).
Proof.
  revert previous. induction parts as [|part parts IH]; intros previous H; cbn in H.
  { exists []. split_and!; constructor. }
  apply bind_Ok in H as (info & Hstat & H). apply bind_Ok in H as (u1 & Hreg & H).
  apply bind_Ok in H as (u2 & Hsame & H). apply bind_Ok in H as (u3 & Hprev & H).
  apply bind_Ok in H as (u4 & _ & H). apply IH in H as (infos & Hf & Hall & Hnd).
  rewrite fail_if_Ok in Hreg, Hsame, Hprev. unfold SameFile in *. split_bool.
  rewrite Forall_forall in Hall. exists (info :: infos). split; [by constructor|]. split.
  - constructor.
    + split_and!; [done|lia|done|]. intros Hin%list_elem_of_In%List.in_map_iff.
      destruct Hin as (p & Hp & Hin%list_elem_of_In).
      enough (existsb (SameFile info) previous = true) by (unfold SameFile in *; congruence).
      apply existsb_bool. exists p. split; [done|]. unfold SameFile. by apply bool_decide_eq_true_2.
    + apply Forall_forall. intros i Hi. destruct (Hall i Hi) as (? & ? & ? & Hp).
      split_and!; try done. intros Hin. apply Hp. rewrite List.map_app. by apply elem_of_app; left.
  - cbn. constructor; [|done]. intros Hin%list_elem_of_In%List.in_map_iff.
    destruct Hin as (p & Hp & Hin%list_elem_of_In). apply Hall in Hin as (_ & _ & _ & Hn).
    apply Hn. rewrite List.map_app, Hp. apply elem_of_app. right. by left.
Qed.

(** C20. A join reports success only for at least two distinct, non-empty,
    regular parts, none of them the output, into a regular output that was
    empty and now has the reported positive size; and only when the packet
    timing read from the parts before and from the output afterwards shows
    that the output has exactly the streams of every part, each stream's
    packets being those of the parts in order, none missing, added or moved,
    with their presentation and decoding times kept up to one offset per part
    and stream, and their durations kept but for the last of a part. *)
Theorem join_keeps_packets runner parts container a size :
  Join runner parts container a = Joined size ->
  (2 <= length parts)%nat /\ 0 < size /\
  (exists output infos, an_OutputStat a = Ok output /\ file_regular output = true /\ file_size output = 0 /\
     Forall2 (fun part info => pa_Stat part = Ok info) parts infos /\
     NoDup (map file_identity (output :: infos)) /\
     Forall (fun info => file_regular info = true /\ 0 < file_size info) infos) /\
  exists timelines joined offsets,
    Forall2 (fun part timeline => pa_Timeline part = Ok timeline) parts timelines /\
    an_JoinedTimeline a = Ok joined /\
    Forall (fun part => streams_of part = streams_of joined) timelines /\
    forall stream packets, joined !! stream = Some packets ->
    exists segments, packets = concat segments /\
      Forall3 (fun part offset segment => exists source,
        part !! stream = Some source /\ source <> [] /\ same_packets offset source segment)
        timelines offsets segments.
Proof.
  unfold Join. destruct (_ ≫= _) as [u|] eqn:Hprep; [|done].
  destruct (normalize parts a) as [[|]|]; [|done..].
  destruct (mapM pa_Timeline parts) as [timelines|] eqn:Ht; [|done].
  destruct (an_Command a) as [|[|] []]; try done. unfold finish.
  destruct (an_Sync a); [|done]. destruct (an_JoinedStat a) as [info|]; [|done].
  destruct (_ || _) eqn:Hinfo; [done|]. destruct (an_JoinedSeek a); [|done].
  destruct (an_JoinedTimeline a) as [joined|] eqn:Hj; [|done].
  destruct (ValidateTimeline timelines joined) as [u'|] eqn:Hv; [|done].
  destruct (an_FinalSeek a); [|done]. intros [= <-]. split_bool.
  apply bind_Ok in Hprep as (format & _ & Hprep). apply bind_Ok in Hprep as (u1 & _ & Hprep).
  unfold prepareFiles in Hprep. apply bind_Ok in Hprep as (u2 & Hlen & Hprep).
  apply bind_Ok in Hprep as (output & Hout & Hprep). apply bind_Ok in Hprep as (u3 & Hreg & Hprep).
  apply bind_Ok in Hprep as (u4 & Hparts & _). rewrite fail_if_Ok in Hlen, Hreg. split_bool.
  apply prepare_parts_Ok in Hparts as (infos & Hf & Hall & Hnd).
  apply ValidateTimeline_sound in Hv as (_ & Hdoms & offsets & _ & Hseg).
  split; [lia|]. split; [lia|]. split.
  - exists output, infos. split_and!; try done.
    + cbn. constructor; [|done]. intros Hin%list_elem_of_In%List.in_map_iff.
      destruct Hin as (p & Hp & Hin%list_elem_of_In). rewrite Forall_forall in Hall.
      by apply Hall in Hin as (_ & _ & Hn & _).
    + eapply Forall_impl; [exact Hall|]. by intros i (? & ? & _).
  - exists timelines, joined, offsets. split; [by apply mapM_Ok|]. done.
Qed.

(** *** Two parts of one video stream *)

Definition at_ms (ms duration : positive) : Packet :=
  mkPacket (float_of_ratio ms 1000) (float_of_ratio ms 1000) (float_of_ratio duration 1000).
Definition example_part : Timeline := {[ 0 := [at_ms 40 40; at_ms 80 40] ]}.
Definition example_joined : Timeline :=
  {[ 0 := [at_ms 40 40; at_ms 80 40; at_ms 121 40; at_ms 160 40] ]}.

Definition example_part_answers (identity : Z) : part_answers :=
  mkpart_answers (Ok (mkfile_info true 1000 (1, identity))) (Ok tt) (Ok tt) Succeeded (Ok tt) (Ok example_part).
Definition example_parts : list part_answers := [example_part_answers 1; example_part_answers 2].
Definition example_answers (joined : Timeline) : answers :=
  mkanswers None (Ok (mkfile_info true 0 (1, 3))) (Ok tt) (Ok tt) Succeeded (Ok tt)
    (Ok (mkfile_info true 1990 (1, 3))) (Ok tt) (Ok joined) (Ok tt).
Definition example_join_runner : Runner := mkRunner "/bin/ffmpeg" 1.

Lemma join_keeps_packets_witness :
  Join example_join_runner example_parts "mkv" (example_answers example_joined) = Joined 1990 /\
  0 < 1990 /\
  Join example_join_runner example_parts "mkv" (example_answers example_part) =
    JoinFailure FailureInvalidOutput.
Proof.
  assert (Join example_join_runner example_parts "mkv" (example_answers example_joined) = Joined 1990)
    as E by (vm_compute; reflexivity).
  split; [exact E|]. split; [|vm_compute; reflexivity].
  destruct (join_keeps_packets _ _ _ _ _ E) as (_ & H & _). exact H.
Defined.
