(* ===== verification/RemuxVerification.v ===== *)
(** * Verification of a disc remux

    [internal/remuxverification/output.go] and [dvd.go]: the probe of a remuxed
    file is compared with the playlist or title it came from by container,
    chapter count, duration and the multiset of its tracks, which the code
    counts in Go maps. *)
From stdpp Require Import base strings list gmap.
From Stdlib Require Import Permutation.
From S2P Require Import Prelude Probe WorkerContracts.

Definition durationToleranceMS : Z := 5000.
Definition dvdDurationToleranceMS : Z := 15000.

(** [counts[key]++] over a list of keys. *)
Definition bump (counts : gmap string Z) (key : string) : gmap string Z :=
  <[key := add64 (default 0 (counts !! key)) 1]> counts.
Definition count_keys (keys : list string) : gmap string Z := fold_left bump keys ∅.

(** [difference := d - e; if difference < 0 { difference = -difference }]. *)
Definition duration_difference (duration expected : Z) : Z :=
  let difference := sub64 duration expected in
  if bool_decide (difference < 0) then neg64 difference else difference.

Definition track_kind (track : RemuxTrack) : string :=
  if bool_decide (tr_Kind track = "subtitles") then ProbeStreamSubtitle else tr_Kind track.

(** The kinds of all streams, when every stream has one. *)
Definition stream_kinds (streams : list ProbeStream) : option (list string) := mapM ps_Kind streams.

(** [ValidateOutput] of output.go. *)
Definition ValidateRemuxOutput (expectedDurationMS expectedChapterCount : Z)
    (expectedTracks : list RemuxTrack) (evidence : ProbeEvidence) : result unit :=
  match pf_DurationMS (pe_Format evidence) with
  | None => Err "Blu-ray remux output format or chapters differ from playlist"
  | Some duration =>
      _ ← fail_if (negb (bool_decide ("matroska" ∈ pf_Names (pe_Format evidence))) ||
                   negb (bool_decide (Z.of_nat (length (pe_Chapters evidence)) = expectedChapterCount)))
            "Blu-ray remux output format or chapters differ from playlist";
      _ ← fail_if (bool_decide (durationToleranceMS < duration_difference duration expectedDurationMS))
            "Blu-ray remux output duration differs from playlist";
      let want := count_keys (map track_kind expectedTracks) in
      match stream_kinds (pe_Streams evidence) with
      | None => Err "Blu-ray remux output stream kind is unknown"
      | Some kinds =>
          let got := count_keys kinds in
          fail_if (negb (bool_decide (got = want)) ||
                   bool_decide (default 0 (got !! ProbeStreamVideo) = 0))
            "Blu-ray remux output streams differ from playlist"
      end
  end.

Definition dvd_track_key (track : RemuxTrack) : string := tr_Kind track +:+ ":" +:+ tr_Codec track.

Definition dvd_stream_key (stream : ProbeStream) : option string :=
  match ps_Kind stream, ps_CodecName stream with
  | Some kind, Some codec =>
      Some ((if bool_decide (kind = "subtitle") then "subtitles" else kind) +:+ ":" +:+ codec)
  | _, _ => None
  end.

(** The keys of all streams, when every stream is identified. *)
Definition dvd_stream_keys (streams : list ProbeStream) : option (list string) :=
  mapM dvd_stream_key streams.

Definition ValidateDVDOutput (expectedDurationMS expectedChapterCount : Z)
    (expectedTracks : list RemuxTrack) (evidence : ProbeEvidence) : result unit :=
  match pf_DurationMS (pe_Format evidence) with
  | None => Err "DVD remux output format or chapters differ from title"
  | Some duration =>
      _ ← fail_if (negb (bool_decide ("matroska" ∈ pf_Names (pe_Format evidence))) ||
                   negb (bool_decide (Z.of_nat (length (pe_Chapters evidence)) = expectedChapterCount)) ||
                   bool_decide (expectedChapterCount <= 0))
            "DVD remux output format or chapters differ from title";
      _ ← fail_if (bool_decide (dvdDurationToleranceMS < duration_difference duration expectedDurationMS))
            "DVD remux output duration differs from title";
      let want := count_keys (map dvd_track_key expectedTracks) in
      match dvd_stream_keys (pe_Streams evidence) with
      | None => Err "DVD remux output stream is unidentified"
      | Some keys =>
          let got := count_keys keys in
          _ ← fail_if (negb (bool_decide (size got = size want))) "DVD remux output tracks differ from title";
          _ ← fail_if (negb (bool_decide (map_Forall (fun key count => default 0 (got !! key) = count) want)))
                "DVD remux output tracks differ from title";
          fail_if (bool_decide (default 0 (want !! "video:mpeg2video") = 0) ||
                   negb (bool_decide (length (pe_Streams evidence) = length expectedTracks)))
            "DVD remux output has no matching movie video"
      end
  end.

(** ** Counting *)

Definition occurrences (keys : list string) (key : string) : Z :=
  Z.of_nat (count_occ String.eq_dec keys key).

Lemma occurrences_cons key' keys key :
  occurrences (key' :: keys) key = (if decide (key' = key) then 1 else 0) + occurrences keys key.
Proof.
  unfold occurrences. simpl. destruct (String.eq_dec key' key); destruct (decide (key' = key)); try done; lia.
Qed.

Lemma count_keys_lookup_fold keys (m : gmap string Z) key :
  (forall k, 0 <= default 0 (m !! k) /\ default 0 (m !! k) + Z.of_nat (length keys) <= max_int64) ->
  fold_left bump keys m !! key =
  if decide (occurrences keys key = 0) then m !! key
  else Some (default 0 (m !! key) + occurrences keys key).
Proof.
  revert m. induction keys as [|k keys IH]; intros m Hm.
  { cbn [fold_left]. destruct (decide _) as [|Hn]; [done|]. by destruct Hn. }
  cbn [fold_left]. rewrite IH.
  - rewrite occurrences_cons. unfold bump. assert (0 <= occurrences keys key) by (unfold occurrences; lia).
    destruct (decide (k = key)) as [->|Hne].
    + rewrite lookup_insert_eq. simpl default.
      destruct (Hm key) as [? ?]. simpl length in *.
      rewrite add64_small by (unfold max_int64 in *; lia).
      rewrite (decide_False (P := 1 + _ = 0)) by lia.
      destruct (decide _); f_equal; lia.
    + rewrite lookup_insert_ne by done. rewrite Z.add_0_l. done.
  - intros k'. destruct (Hm k) as [? ?], (Hm k') as [? ?]. simpl length in *. unfold bump.
    destruct (decide (k = k')) as [->|Hne].
    + rewrite lookup_insert_eq. simpl default. rewrite add64_small by (unfold max_int64 in *; lia). lia.
    + rewrite lookup_insert_ne by done. lia.
Qed.

(** A count map is exact as long as the list is not longer than an [int]. *)
Definition countable_list (keys : list string) : Prop := Z.of_nat (length keys) <= max_int64.

Lemma count_keys_lookup keys key :
  countable_list keys ->
  count_keys keys !! key = if decide (occurrences keys key = 0) then None else Some (occurrences keys key).
Proof.
  intros H. unfold count_keys. rewrite count_keys_lookup_fold.
  - by rewrite lookup_empty.
  - intros k. rewrite lookup_empty. simpl. unfold countable_list in H. lia.
Qed.

Lemma count_keys_default keys key :
  countable_list keys -> default 0 (count_keys keys !! key) = occurrences keys key.
Proof. intros H. rewrite count_keys_lookup by done. destruct (decide _); simpl; lia. Qed.

Lemma count_keys_eq keys keys' :
  countable_list keys -> countable_list keys' ->
  count_keys keys = count_keys keys' <-> keys ≡ₚ keys'.
Proof.
  intros H H'. rewrite (Permutation_count_occ String.eq_dec). split.
  - intros Heq key. assert (occurrences keys key = occurrences keys' key) as Ho.
    { rewrite <-!count_keys_default by done. by rewrite Heq. }
    unfold occurrences in Ho. lia.
  - intros Ho. apply map_eq. intros key. rewrite !count_keys_lookup by done. unfold occurrences.
    by rewrite Ho.
Qed.

Lemma occurrences_pos keys key : occurrences keys key <> 0 <-> key ∈ keys.
Proof.
  unfold occurrences. rewrite list_elem_of_In, (count_occ_In String.eq_dec). lia.
Qed.

(** ** Properties *)

Definition duration_range (d : Z) : Prop := 0 <= d <= max_int64.

Lemma duration_difference_abs d e :
  duration_range d -> duration_range e -> duration_difference d e = Z.abs (d - e).
Proof.
  unfold duration_range, duration_difference, sub64, neg64, max_int64. intros Hd He. cbv zeta.
  rewrite (wrap64_id (d - e)) by (unfold int64_range; lia).
  case_bool_decide; [rewrite wrap64_id by (unfold int64_range; lia)|]; lia.
Qed.

(** The probe of a remux: a Matroska file with the expected chapters, within
    the tolerance of the expected duration. *)
Definition remux_format (evidence : ProbeEvidence) (expectedDurationMS chapters tolerance : Z) : Prop :=
  "matroska" ∈ pf_Names (pe_Format evidence) /\
  Z.of_nat (length (pe_Chapters evidence)) = chapters /\
  exists duration, pf_DurationMS (pe_Format evidence) = Some duration /\
    Z.abs (duration - expectedDurationMS) <= tolerance.

Definition evidence_durations (evidence : ProbeEvidence) (expectedDurationMS : Z) : Prop :=
  duration_range expectedDurationMS /\
  (forall d, pf_DurationMS (pe_Format evidence) = Some d -> duration_range d).

(** A Blu-ray remux is accepted exactly when it is a Matroska file with the
    playlist's chapter count, within five seconds of its duration, whose
    stream kinds are a rearrangement of the playlist's track kinds and include
    a video stream. *)
Theorem ValidateRemuxOutput_correct (expectedDurationMS chapters : Z) (tracks : list RemuxTrack)
    (evidence : ProbeEvidence) :
  evidence_durations evidence expectedDurationMS ->
  countable_list (map track_kind tracks) -> Z.of_nat (length (pe_Streams evidence)) <= max_int64 ->
  ValidateRemuxOutput expectedDurationMS chapters tracks evidence = Ok tt <->
  remux_format evidence expectedDurationMS chapters 5000 /\
  exists kinds, stream_kinds (pe_Streams evidence) = Some kinds /\
    kinds ≡ₚ map track_kind tracks /\ ProbeStreamVideo ∈ kinds.
Proof.
  intros [He Hd] Ht Hs. unfold ValidateRemuxOutput, remux_format.
  destruct (pf_DurationMS _) as [duration|].
  2: { split; [done|]. intros [(_ & _ & d & [=] & _) _]. }
  specialize (Hd duration eq_refl). rewrite bind_Ok. setoid_rewrite fail_if_Ok.
  rewrite duration_difference_abs by done.
  destruct (stream_kinds (pe_Streams evidence)) as [kinds|] eqn:Hk.
  2: { split; [intros (? & _ & H); cbv beta in H; by inv_result|]. intros [_ (kinds & [=] & _)]. }
  assert (countable_list kinds) as Hc.
  { apply length_mapM in Hk. unfold countable_list. by rewrite <-Hk. }
  split.
  - intros (_ & Hg & H). cbv beta in H. inv_result. split_bool.
    rewrite count_keys_default in * by done. unfold durationToleranceMS in *.
    split.
    + split_and!; try done. exists duration. split; [done|lia].
    + exists kinds. split_and!; [done|by apply count_keys_eq|by apply occurrences_pos].
  - intros [(Hn & Hch & d & [= <-] & Hdur) (kinds' & [= <-] & Hperm & Hv)].
    exists tt. rewrite (bool_decide_true (_ ∈ _)), (bool_decide_true (Z.of_nat _ = _)) by done.
    split; [done|]. simpl.
    rewrite (bool_decide_false (durationToleranceMS < _)) by (unfold durationToleranceMS; lia). simpl.
    apply fail_if_false. apply orb_false_iff. split.
    + rewrite bool_decide_true; [done|]. by apply count_keys_eq.
    + apply bool_decide_eq_false. rewrite count_keys_default by done. by apply occurrences_pos.
Qed.

Lemma count_keys_dom keys key :
  countable_list keys -> key ∈ dom (count_keys keys) <-> key ∈ keys.
Proof.
  intros H. rewrite elem_of_dom, count_keys_lookup, <-occurrences_pos by done.
  destruct (decide _); [split; [by intros [? ?]|done]|split; [done|by eauto]].
Qed.

(** The comparison of the two count maps that [ValidateDVDOutput] spells out:
    equally many keys, and the wanted counts. *)
Lemma counts_agree keys keys' :
  countable_list keys -> countable_list keys' ->
  (size (count_keys keys) = size (count_keys keys') /\
   map_Forall (fun key count => default 0 (count_keys keys !! key) = count) (count_keys keys')) <->
  keys ≡ₚ keys'.
Proof.
  intros H H'. rewrite <-count_keys_eq by done. split; [|intros ->].
  - intros [Hsize Hall].
    assert (forall key, key ∈ dom (count_keys keys') ->
      count_keys keys !! key = count_keys keys' !! key) as Hsame.
    { intros key Hin. pose proof Hin as Hin'. apply count_keys_dom, occurrences_pos in Hin'; [|done].
      apply elem_of_dom in Hin as [count Hcount]. pose proof (Hall key count Hcount) as Hd. cbv beta in Hd.
      rewrite count_keys_default in Hd by done.
      rewrite count_keys_lookup in Hcount by done.
      rewrite decide_False in Hcount by done. injection Hcount as Hcount.
      rewrite !count_keys_lookup by done. rewrite (decide_False (P := occurrences keys' key = 0)) by done.
      rewrite decide_False by lia. f_equal. lia. }
    assert (dom (count_keys keys') = dom (count_keys keys)) as Hdom.
    { apply leibniz_equiv. apply set_subseteq_size_equiv.
      - intros key Hin. pose proof Hin as Hin'. apply elem_of_dom in Hin' as [count Hc].
        apply elem_of_dom. rewrite Hsame by done. by eexists.
      - rewrite !size_dom. lia. }
    apply map_eq. intros key. destruct (decide (key ∈ dom (count_keys keys'))) as [Hin|Hin].
    + by apply Hsame.
    + pose proof Hin as Hin'. rewrite Hdom in Hin'. apply not_elem_of_dom in Hin, Hin'. congruence.
  - split; [done|]. intros key count ->. done.
Qed.

(** A DVD remux is accepted exactly when it is a Matroska file with the title's
    chapters, within fifteen seconds of its duration, whose identified streams
    are a rearrangement of the title's tracks and include an MPEG-2 video. *)
Theorem ValidateDVDOutput_correct (expectedDurationMS chapters : Z) (tracks : list RemuxTrack)
    (evidence : ProbeEvidence) :
  evidence_durations evidence expectedDurationMS ->
  countable_list (map dvd_track_key tracks) -> Z.of_nat (length (pe_Streams evidence)) <= max_int64 ->
  ValidateDVDOutput expectedDurationMS chapters tracks evidence = Ok tt <->
  remux_format evidence expectedDurationMS chapters 15000 /\ 0 < chapters /\
  exists keys, dvd_stream_keys (pe_Streams evidence) = Some keys /\
    keys ≡ₚ map dvd_track_key tracks /\ "video:mpeg2video" ∈ keys.
Proof.
  intros [He Hd] Ht Hs. unfold ValidateDVDOutput, remux_format.
  destruct (pf_DurationMS _) as [duration|].
  2: { split; [done|]. intros [(_ & _ & d & [=] & _) _]. }
  specialize (Hd duration eq_refl). rewrite duration_difference_abs by done.
  destruct (dvd_stream_keys (pe_Streams evidence)) as [keys|] eqn:Hk.
  2: { split; [intros H; by inv_result|]. intros (_ & _ & keys & [=] & _). }
  assert (length (pe_Streams evidence) = length keys) as Hlen by by eapply length_mapM.
  assert (countable_list keys) as Hc by (unfold countable_list; by rewrite <-Hlen).
  split.
  - intros H. inv_result. split_bool. unfold dvdDurationToleranceMS in *.
    rewrite count_keys_default in * by done.
    assert (keys ≡ₚ map dvd_track_key tracks) as Hperm by (apply counts_agree; done).
    split_and!; try done; [exists duration; split; [done|lia]|lia|].
    exists keys. split_and!; try done. rewrite Hperm. by apply occurrences_pos.
  - intros ((Hn & Hch & d & [= <-] & Hdur) & Hpos & keys' & [= <-] & Hperm & Hv).
    rewrite (bool_decide_true (_ ∈ _)), (bool_decide_true (Z.of_nat _ = _)),
      (bool_decide_false (chapters <= 0)), (bool_decide_false (dvdDurationToleranceMS < _))
      by (done || unfold dvdDurationToleranceMS; lia).
    apply counts_agree in Hperm as Hag; [|done..]. destruct Hag as [Hsz Hall]. simpl.
    rewrite (bool_decide_true (size _ = _)), (bool_decide_true (map_Forall _ _)) by done. simpl.
    apply fail_if_false, orb_false_iff. split.
    + apply bool_decide_eq_false. rewrite count_keys_default by done. apply occurrences_pos.
      by rewrite <-Hperm.
    + rewrite bool_decide_true; [done|]. rewrite Hlen, Hperm. by rewrite length_map.
Qed.
