(* ===== verification/ExecutionRecords.v ===== *)
(** * Stored execution records and what makes them valid

    The records of [internal/casestore/execution.go], [join_execution.go],
    [join_import_execution.go], [remux_execution.go], [dvd_execution.go] and
    [import_confirmation.go], the identifiers derived from an authorization,
    and the validation that every record passes when it is written and when it
    is read back. *)
From stdpp Require Import base strings list gmap.
From S2P Require Import Prelude GoStrings GoCrypto FileIdentity Probe Streams Media Radarr.
From S2P Require Import WorkerContracts ManualImportPolicy JoinPolicy DiscPolicy.
From S2P Require Import JoinVerification.

(** [caseDigest] (store.go). *)
Definition caseDigest (caseID : string) : result string :=
  if negb (HasPrefix caseID "sha256:") || negb (bool_decide (String.length caseID = (7 + 64)%nat))
  then Err "invalid case ID"
  else
    let digest := s_drop 7 caseID in
    if s_forall is_lower_hex digest then Ok digest else Err "invalid case ID".

(** A [time.Time] that [json.Marshal] can write: its year is in [0, 9999]. *)
Definition day_ns : Z := 86400 * 10 ^ 9.
Definition json_time (t : time) : bool :=
  let local := t_ns t + match t_zone t with None => 0 | Some offset => offset * 10 ^ 9 end in
  bool_decide (-366 * day_ns <= local) && bool_decide (local < 3652059 * day_ns) &&
  match t_zone t with None => true | Some offset => bool_decide (Z.abs offset < 86400) end.

Definition both_none {A B} (a : option A) (b : option B) : bool :=
  match a, b with None, None => true | _, _ => false end.

(** ** Import confirmation (import_confirmation.go) *)

Record RadarrImportConfirmation := mkConfirmation
  { ic_HistoryID : Z; ic_MovieFileID : Z; ic_MovieID : Z; ic_DownloadID : string;
    ic_OccurredAt : time; ic_DroppedPath : string; ic_ImportedPath : string }.

#[global] Instance RadarrImportConfirmation_eq_dec : EqDecision RadarrImportConfirmation.
Proof. solve_decision. Defined.

Definition radarrImportConfirmation (imported : RadarrImportedFile) : RadarrImportConfirmation :=
  mkConfirmation (imp_HistoryID imported) (imp_MovieFileID imported) (imp_MovieID imported)
    (imp_DownloadID imported) (UTC (imp_OccurredAt imported)) (imp_DroppedPath imported)
    (imp_ImportedPath imported).

Definition validExecutionPath (path : string) : bool :=
  negb (bool_decide (path = "")) && negb (ContainsByte path nul) && filepath.IsAbs path &&
  bool_decide (filepath.Clean path = path) && negb (bool_decide (filepath.Dir path = path)).

Definition validateRadarrImportConfirmation (c : RadarrImportConfirmation) : result unit :=
  _ ← fail_if (bool_decide (ic_HistoryID c <= 0) || bool_decide (ic_MovieFileID c <= 0) ||
               bool_decide (ic_MovieID c <= 0))
        "Radarr import confirmation IDs must be positive";
  _ ← fail_if (bool_decide (ic_DownloadID c = "") ||
               negb (bool_decide (TrimSpace (ic_DownloadID c) = ic_DownloadID c)) ||
               ContainsByte (ic_DownloadID c) nul)
        "Radarr import confirmation download ID is invalid";
  _ ← fail_if (IsZero (ic_OccurredAt c)) "Radarr import confirmation time is missing";
  fail_if (negb (validExecutionPath (ic_DroppedPath c)) ||
           negb (validExecutionPath (ic_ImportedPath c)))
    "Radarr import confirmation paths are invalid".

(** ** Manual import (execution.go) *)

Definition ManualImportExecutionVersionV1 : string := "radarr-repair-manual-import/v1".

Inductive ManualImportExecutionState :=
| ManualImportPrepared | ManualImportRequested | ManualImportImported | ManualImportFailed
| ManualImportOtherState (s : string).

Record ManualImportExecution := mkManualImportExecution
  { mx_Version : string; mx_CaseID : string; mx_CapabilityID : string; mx_FileID : FileID;
    mx_ExpectedFingerprint : FileFingerprint; mx_State : ManualImportExecutionState;
    mx_HistoryIDBefore : Z; mx_PreparedAt : time; mx_UpdatedAt : time; mx_CommandID : option Z;
    mx_Confirmation : option RadarrImportConfirmation }.

#[global] Instance ManualImportExecutionState_eq_dec : EqDecision ManualImportExecutionState.
Proof. solve_decision. Defined.
#[global] Instance ManualImportExecution_eq_dec : EqDecision ManualImportExecution.
Proof. solve_decision. Defined.

(** [commandID != nil && *commandID <= 0]. *)
Definition bad_command (commandID : option Z) : bool :=
  match commandID with Some id => bool_decide (id <= 0) | None => false end.

Definition validateManualImportExecution (record : ManualImportExecution) : result unit :=
  _ ← fail_if (negb (bool_decide (mx_Version record = ManualImportExecutionVersionV1)))
        "unsupported manual import execution version";
  _ ← caseDigest (mx_CaseID record);
  _ ← fail_if (bool_decide (mx_CapabilityID record = "") || bool_decide (mx_FileID record = "") ||
               bool_decide (SizeBytes (mx_ExpectedFingerprint record) <= 0) ||
               bool_decide (mx_HistoryIDBefore record < 0))
        "manual import execution identity is incomplete";
  _ ← fail_if (IsZero (mx_PreparedAt record) || IsZero (mx_UpdatedAt record) ||
               Before (mx_UpdatedAt record) (mx_PreparedAt record))
        "manual import execution times are invalid";
  match mx_State record with
  | ManualImportPrepared =>
      fail_if (negb (both_none (mx_CommandID record) (mx_Confirmation record)))
        "prepared manual import has result evidence"
  | ManualImportRequested =>
      match mx_CommandID record with
      | None => Err "requested manual import requires a Radarr command ID"
      | Some id =>
          _ ← fail_if (bool_decide (id <= 0)) "requested manual import requires a Radarr command ID";
          fail_if (negb (bool_decide (mx_Confirmation record = None)))
            "requested manual import has confirmation evidence"
      end
  | ManualImportImported =>
      _ ← fail_if (bad_command (mx_CommandID record))
            "manual import Radarr command ID must be positive";
      match mx_Confirmation record with
      | None => Err "imported manual import requires confirmation evidence"
      | Some confirmation =>
          _ ← validateRadarrImportConfirmation confirmation;
          fail_if (bool_decide (ic_HistoryID confirmation <= mx_HistoryIDBefore record))
            "Radarr import confirmation predates the request"
      end
  | ManualImportFailed =>
      _ ← fail_if (bad_command (mx_CommandID record))
            "manual import Radarr command ID must be positive";
      fail_if (negb (bool_decide (mx_Confirmation record = None)))
        "failed manual import has confirmation evidence"
  | ManualImportOtherState _ => Err "unknown manual import execution state"
  end.

(** The only values of a record that [json.Marshal] can refuse are its times. *)
Definition marshal_times (times : list time) : result unit :=
  fail_if (negb (forallb json_time times)) "encode execution".

Definition EncodeManualImportExecution (record : ManualImportExecution)
    : result ManualImportExecution :=
  _ ← validateManualImportExecution record;
  _ ← marshal_times (mx_PreparedAt record :: mx_UpdatedAt record ::
        match mx_Confirmation record with Some c => [ic_OccurredAt c] | None => [] end);
  mret record.

Definition sameManualImport (record : ManualImportExecution) (authorized : AuthorizedManualImport)
    : bool :=
  bool_decide (mx_CaseID record = am_CaseID authorized) &&
  bool_decide (mx_CapabilityID record = am_CapabilityID authorized) &&
  bool_decide (mx_FileID record = am_FileID authorized) &&
  bool_decide (mx_ExpectedFingerprint record = am_ExpectedFingerprint authorized).

(** ** Imports of published files (join_import_execution.go) *)

Record JoinImportRequest := mkJoinImportRequest
  { jir_Command : RadarrManualImportCommand; jir_HistoryIDBefore : Z }.

Record JoinImport := mkJoinImport
  { ji_Command : RadarrManualImportCommand; ji_HistoryIDBefore : Z; ji_PreparedAt : time;
    ji_CommandID : option Z }.

#[global] Instance JoinImport_eq_dec : EqDecision JoinImport.
Proof. solve_decision. Defined.

Definition validateStoredJoinImport (record : JoinImport) (executionPreparedAt updatedAt : time)
    : result unit :=
  fail_if (negb (command_Complete (ji_Command record)) ||
           bool_decide (ji_HistoryIDBefore record < 0) || IsZero (ji_PreparedAt record) ||
           Before (ji_PreparedAt record) executionPreparedAt ||
           After (ji_PreparedAt record) updatedAt || bad_command (ji_CommandID record))
    "stored Radarr import is invalid".

Definition sameJoinImportRequest (record : JoinImport) (request : JoinImportRequest) : bool :=
  bool_decide (ji_Command record = jir_Command request).

(** The confirmation belongs to the import it is recorded for. *)
Definition confirms (movieID : Z) (downloadID droppedPath : string) (import : JoinImport) : bool :=
  bool_decide (movieID = cf_MovieID (cmd_File (ji_Command import))) &&
  bool_decide (downloadID = cf_DownloadID (cmd_File (ji_Command import))) &&
  bool_decide (droppedPath = cf_Path (cmd_File (ji_Command import))).

(** ** Joins (join_execution.go) *)

Definition JoinExecutionVersionV2 : string := "radarr-repair-join/v2".
Definition legacyJoinExecutionDomain : string := "radarr-repair-join-execution-v1" +:+ bytes [0%nat].
Definition joinExecutionDomain : string := "radarr-repair-join-execution-v2" +:+ bytes [0%nat].

Inductive JoinExecutionState :=
| JoinPrepared | JoinArtifactReady | JoinDiscardPending | JoinPublished | JoinDiscarded | JoinFailed
| JoinImportPrepared | JoinImportRequested | JoinImported | JoinImportFailed
| JoinOtherState (s : string).

(** [JoinArtifact] and [RemuxArtifact], and so on for the other two. *)
Record Artifact := mkArtifact { af_ID : string; af_Fingerprint : string; af_SizeBytes : Z }.
Record PublishedArtifact := mkPublished { pb_RootID : string; pb_PathComponents : list string }.
Record ExecutionFailure := mkExecutionFailure { ef_Operation : string; ef_Reason : string }.

Record JoinStage := mkJoinStage { stg_Rejections : list RejectionReason }.

Record JoinExecution := mkJoinExecution
  { jx_Version : string; jx_ExecutionID : string; jx_Authorization : AuthorizedJoin;
    jx_State : JoinExecutionState; jx_PreparedAt : time; jx_UpdatedAt : time;
    jx_Stage : option JoinStage; jx_Artifact : option Artifact;
    jx_Published : option PublishedArtifact; jx_Failure : option ExecutionFailure;
    jx_Import : option JoinImport; jx_Confirmation : option RadarrImportConfirmation }.

#[global] Instance JoinExecutionState_eq_dec : EqDecision JoinExecutionState.
Proof. solve_decision. Defined.
#[global] Instance Artifact_eq_dec : EqDecision Artifact.
Proof. solve_decision. Defined.
#[global] Instance PublishedArtifact_eq_dec : EqDecision PublishedArtifact.
Proof. solve_decision. Defined.
#[global] Instance ExecutionFailure_eq_dec : EqDecision ExecutionFailure.
Proof. solve_decision. Defined.
#[global] Instance JoinStage_eq_dec : EqDecision JoinStage.
Proof. solve_decision. Defined.
#[global] Instance JoinExecution_eq_dec : EqDecision JoinExecution.
Proof. solve_decision. Defined.

(** *** JSON of the authorizations

    Go structs without tags: the keys are the field names, in order. *)
Module authorization_json.
Import json.

Definition fingerprint (f : Snapshot) : value :=
  Obj [("Device", Int (Device f)); ("Inode", Int (Inode f)); ("SizeBytes", Int (SizeBytes f));
       ("MTimeNS", Int (MTimeNS f))].
Definition rational (r : Rational) : value :=
  Obj [("Numerator", Int (Numerator r)); ("Denominator", Int (Denominator r))].
Definition video (v : VideoStreamLayout) : value :=
  Obj [("Width", Int (vl_Width v)); ("Height", Int (vl_Height v));
       ("PixelFormat", Str (vl_PixelFormat v)); ("AverageRate", rational (vl_AverageRate v))].
Definition audio (a : AudioStreamLayout) : value :=
  Obj [("SampleFormat", Str (al_SampleFormat a)); ("SampleRateHz", Int (al_SampleRateHz a));
       ("Channels", Int (al_Channels a)); ("ChannelLayout", Str (al_ChannelLayout a))].
Definition entry (e : StreamLayoutEntry) : value :=
  Obj [("Kind", Str (le_Kind e)); ("CodecName", Str (le_CodecName e));
       ("Profile", ptr Str (le_Profile e)); ("TimeBase", rational (le_TimeBase e));
       ("Video", ptr video (le_Video e)); ("Audio", ptr audio (le_Audio e))].
Definition part (p : AuthorizedJoinPart) : value :=
  Obj [("FileID", Str (ap_FileID p)); ("Fingerprint", fingerprint (ap_Fingerprint p))].
Definition join (a : AuthorizedJoin) : value :=
  Obj [("CaseID", Str (aj_CaseID a)); ("CapabilityID", Str (aj_CapabilityID a));
       ("OrderedParts", Arr (map part (aj_OrderedParts a)));
       ("SourceBytes", Int (aj_SourceBytes a));
       ("ExpectedDurationMS", Int (aj_ExpectedDurationMS a));
       ("DurationToleranceMS", Int (aj_DurationToleranceMS a));
       ("OutputContainer", Str (aj_OutputContainer a));
       ("ExpectedStreamLayout",
        Obj [("Streams", Arr (map entry (sl_Streams (aj_ExpectedStreamLayout a))))])].
Definition file (f : AuthorizedRemuxFile) : value :=
  Obj [("FileID", Str (arf_FileID f)); ("Fingerprint", fingerprint (arf_Fingerprint f))].
Definition track (t : RemuxTrack) : value :=
  Obj [("Kind", Str (tr_Kind t)); ("Codec", Str (tr_Codec t)); ("Language", Str (tr_Language t))].
Definition remux (a : AuthorizedRemux) : value :=
  Obj [("CaseID", Str (ar_CaseID a)); ("CapabilityID", Str (ar_CapabilityID a));
       ("Playlist", file (ar_Playlist a)); ("Clips", Arr (map file (ar_Clips a)));
       ("SourceBytes", Int (ar_SourceBytes a)); ("ExpectedDurationMS", Int (ar_ExpectedDurationMS a));
       ("ExpectedChapters", Int (ar_ExpectedChapters a));
       ("ExpectedTracks", Arr (map track (ar_ExpectedTracks a)));
       ("RuntimeToleranceMS", Int (ar_RuntimeToleranceMS a))].
Definition dvd (a : AuthorizedDVD) : value :=
  Obj [("CaseID", Str (ad_CaseID a)); ("CapabilityID", Str (ad_CapabilityID a));
       ("Navigation", file (ad_Navigation a)); ("Sources", Arr (map file (ad_Sources a)));
       ("TitleNumber", Int (ad_TitleNumber a)); ("ExpectedDurationMS", Int (ad_ExpectedDurationMS a));
       ("ExpectedChapters", Int (ad_ExpectedChapters a));
       ("ExpectedTracks", Arr (map track (ad_ExpectedTracks a)));
       ("SourceBytes", Int (ad_SourceBytes a));
       ("RuntimeToleranceMS", Int (ad_RuntimeToleranceMS a))].

End authorization_json.

(** [sha256] over a domain and the JSON of an authorization. *)
Definition execution_id (domain : string) (authorization : json.value) : string :=
  "execution:" +:+ sha256_hex (string_bytes domain ++ string_bytes (json.text authorization)).

Definition joinExecutionID (domain : string) (authorized : AuthorizedJoin) : string :=
  execution_id domain (authorization_json.join authorized).
Definition JoinExecutionID (authorized : AuthorizedJoin) : string :=
  joinExecutionID joinExecutionDomain authorized.
Definition legacyJoinExecutionID (authorized : AuthorizedJoin) : string :=
  joinExecutionID legacyJoinExecutionDomain authorized.

Definition JoinExecutionMatchesAuthorization (record : JoinExecution) (authorized : AuthorizedJoin)
    : bool :=
  if bool_decide (jx_ExecutionID record = JoinExecutionID authorized) then true
  else bool_decide (jx_ExecutionID record = legacyJoinExecutionID authorized).

Definition JoinExecutionNeedsRecheck (record : JoinExecution) : bool :=
  if negb (bool_decide (jx_State record = JoinDiscarded)) then false
  else negb (bool_decide (jx_ExecutionID record = JoinExecutionID (jx_Authorization record))).

Definition validateJoinAuthorizationShape (authorized : AuthorizedJoin) : result unit :=
  let parts := map (fun part => mkStageJoinPart (ap_FileID part) ["part.mkv"]
                                  (StrictFingerprint (ap_Fingerprint part)))
                 (aj_OrderedParts authorized) in
  fail_if (negb (is_ok (EncodeStageJoinRequest
    (mkStageJoinRequest RadarrRepairWorkerV1 StageJoinV1 "request:validation"
       "execution:validation" (aj_CaseID authorized) (aj_CapabilityID authorized) "root:validation"
       parts (aj_OutputContainer authorized) (aj_SourceBytes authorized)
       (aj_ExpectedDurationMS authorized) (aj_DurationToleranceMS authorized)
       (Z.of_nat (length (sl_Streams (aj_ExpectedStreamLayout authorized)))))))) 
    "join authorization is invalid".

(** The failure response that is rebuilt to check a stored failure reason. *)
Definition stored_failure (operation reason : string) : FailureV1 :=
  mkFailure RadarrRepairWorkerV1 operation "request:stored" status_failed reason.

Definition validateJoinFailure (failure : ExecutionFailure) : result unit :=
  let encodes {S} (encode : Response S -> result string) :=
    fail_if (negb (is_ok (encode (mkResponse ProbeResponseFailed None
      (Some (stored_failure (ef_Operation failure) (ef_Reason failure)))))))
      "join failure is invalid" in
  if bool_decide (ef_Operation failure = StageJoinV1) then encodes EncodeStageJoinResponse
  else if bool_decide (ef_Operation failure = PublishV1) then encodes EncodePublishResponse
  else if bool_decide (ef_Operation failure = DiscardV1) then encodes EncodeDiscardResponse
  else Err "unknown failed join operation".

Definition validPublishedArtifact (artifact : Artifact) (published : PublishedArtifact) : bool :=
  is_ok (EncodePublishResponse (mkResponse ProbeResponseSucceeded
    (Some (mkPublishSuccess RadarrRepairWorkerV1 PublishV1 "request:stored" status_ok
             (af_ID artifact) (af_Fingerprint artifact) (pb_RootID published)
             (pb_PathComponents published))) None)).

(** The artifact is present and complete. *)
Definition valid_artifact (artifact : option Artifact) : bool :=
  match artifact with
  | Some a => negb (bool_decide (af_ID a = "")) && negb (bool_decide (af_Fingerprint a = "")) &&
              bool_decide (0 < af_SizeBytes a)
  | None => false
  end.

Definition requireJoinArtifact (record : JoinExecution) (rejections : list RejectionReason)
    (rejected published : bool) : result unit :=
  match jx_Artifact record with
  | None => Err "join state requires a staged artifact"
  | Some artifact =>
      _ ← fail_if (negb (valid_artifact (Some artifact))) "join state requires a staged artifact";
      _ ← fail_if (negb (Bool.eqb (negb (bool_decide (length rejections = 0%nat))) rejected))
            "join verification result does not match its state";
      if published then
        match jx_Published record with
        | Some p => fail_if (negb (validPublishedArtifact artifact p))
                      "published join lacks valid destination evidence"
        | None => Err "published join lacks valid destination evidence"
        end
      else fail_if (negb (bool_decide (jx_Published record = None)))
             "unpublished join contains destination evidence"
  end.

Definition requireJoinBeforeImport (record : JoinExecution) (rejections : list RejectionReason)
    (rejected published : bool) : result unit :=
  _ ← requireJoinArtifact record rejections rejected published;
  fail_if (negb (both_none (jx_Import record) (jx_Confirmation record)))
    "join state contains unexpected Radarr import evidence".

Definition requireJoinImport (record : JoinExecution) (rejections : list RejectionReason)
    (commandRequired confirmationRequired : bool) : result unit :=
  _ ← requireJoinArtifact record rejections false true;
  match jx_Import record with
  | None => Err "joined-file import lacks its Radarr request"
  | Some import =>
      _ ← validateStoredJoinImport import (jx_PreparedAt record) (jx_UpdatedAt record);
      _ ← fail_if (commandRequired && bool_decide (ji_CommandID import = None))
            "joined-file import requires a Radarr command ID";
      _ ← fail_if (bool_decide (jx_State record = JoinImportPrepared) &&
                   negb (bool_decide (ji_CommandID import = None)))
            "prepared Radarr import contains a command ID";
      if confirmationRequired then
        match jx_Confirmation record with
        | None => Err "joined-file import lacks confirmation evidence"
        | Some c =>
            _ ← validateRadarrImportConfirmation c;
            fail_if (negb (confirms (ic_MovieID c) (ic_DownloadID c) (ic_DroppedPath c) import) ||
                     bool_decide (ic_HistoryID c <= ji_HistoryIDBefore import))
              "Radarr import confirmation does not match the joined file"
        end
      else fail_if (negb (bool_decide (jx_Confirmation record = None)))
             "unconfirmed joined-file import contains confirmation evidence"
  end.

(** The checks on a record that has left the prepared state. *)
Definition validate_join_result (record : JoinExecution) (stage : JoinStage) : result unit :=
  let rejections := stg_Rejections stage in
  match jx_State record with
  | JoinArtifactReady => requireJoinBeforeImport record rejections false false
  | JoinDiscardPending | JoinDiscarded => requireJoinBeforeImport record rejections true false
  | JoinPublished => requireJoinBeforeImport record rejections false true
  | JoinImportPrepared => requireJoinImport record rejections false false
  | JoinImportRequested => requireJoinImport record rejections true false
  | JoinImported => requireJoinImport record rejections false true
  | JoinImportFailed => requireJoinImport record rejections true false
  | JoinFailed =>
      match jx_Failure record with
      | None => Err "failed join lacks failure evidence"
      | Some failure =>
          if bool_decide (ef_Operation failure = StageJoinV1) then
            fail_if (negb (bool_decide (jx_Artifact record = None)) ||
                     negb (bool_decide (jx_Published record = None)) ||
                     bool_decide (length rejections = 0%nat) ||
                     negb (both_none (jx_Import record) (jx_Confirmation record)))
              "failed staging record is inconsistent"
          else if bool_decide (ef_Operation failure = PublishV1)
          then requireJoinBeforeImport record rejections false false
          else if bool_decide (ef_Operation failure = DiscardV1)
          then requireJoinBeforeImport record rejections true false
          else Ok tt
      end
  | JoinPrepared | JoinOtherState _ => Err "unknown join execution state"
  end.

Definition validateJoinExecution (record : JoinExecution) : result unit :=
  let authorized := jx_Authorization record in
  _ ← fail_if (negb (bool_decide (jx_Version record = JoinExecutionVersionV2)))
        "unsupported join execution version";
  _ ← caseDigest (aj_CaseID authorized);
  _ ← validateJoinAuthorizationShape authorized;
  _ ← fail_if (negb (bool_decide (jx_ExecutionID record = JoinExecutionID authorized)) &&
               negb (bool_decide (jx_ExecutionID record = legacyJoinExecutionID authorized)))
        "join execution ID does not match its authorization";
  _ ← fail_if (IsZero (jx_PreparedAt record) || IsZero (jx_UpdatedAt record) ||
               Before (jx_UpdatedAt record) (jx_PreparedAt record))
        "join execution times are invalid";
  match jx_State record with
  | JoinPrepared =>
      fail_if (negb (bool_decide (jx_Stage record = None) && bool_decide (jx_Artifact record = None) &&
                     bool_decide (jx_Published record = None) &&
                     bool_decide (jx_Failure record = None) &&
                     both_none (jx_Import record) (jx_Confirmation record)))
        "prepared join contains result evidence"
  | _ =>
      match jx_Stage record with
      | None => Err "join result lacks stage verification"
      | Some stage =>
          _ ← fail_if (negb (Bool.eqb (bool_decide (jx_State record = JoinFailed))
                               (negb (bool_decide (jx_Failure record = None)))))
                "join failure evidence does not match its state";
          _ ← match jx_Failure record with Some f => validateJoinFailure f | None => Ok tt end;
          validate_join_result record stage
      end
  end.

Definition EncodeJoinExecution (record : JoinExecution) : result JoinExecution :=
  _ ← validateJoinExecution record;
  _ ← marshal_times (jx_PreparedAt record :: jx_UpdatedAt record ::
        match jx_Import record with Some i => [ji_PreparedAt i] | None => [] end ++
        match jx_Confirmation record with Some c => [ic_OccurredAt c] | None => [] end);
  mret record.

(** ** Disc remuxes (remux_execution.go, dvd_execution.go) *)

Definition RemuxExecutionVersionV1 : string := "radarr-repair-bluray-remux/v1".
Definition DVDExecutionVersionV1 : string := "radarr-repair-dvd-remux/v1".
Definition remuxExecutionDomain : string := "radarr-repair-bluray-remux-execution-v1" +:+ bytes [0%nat].
Definition dvdExecutionDomain : string := "radarr-repair-dvd-remux-execution-v1" +:+ bytes [0%nat].

Inductive RemuxExecutionState :=
| RemuxPrepared | RemuxStaged | RemuxPublished | RemuxFailed | RemuxImportPrepared
| RemuxImportRequested | RemuxImported | RemuxImportFailed | RemuxOtherState (s : string).

Record RemuxExecution := mkRemuxExecution
  { rx_Version : string; rx_ExecutionID : string; rx_Authorization : AuthorizedRemux;
    rx_DVDAuthorization : option AuthorizedDVD; rx_State : RemuxExecutionState;
    rx_PreparedAt : time; rx_UpdatedAt : time; rx_StageRequest : option BlurayRemuxRequestV1;
    rx_DVDStageRequest : option DVDRemuxRequestV1; rx_Artifact : option Artifact;
    rx_Published : option PublishedArtifact; rx_Failure : option ExecutionFailure;
    rx_Import : option JoinImport; rx_Confirmation : option RadarrImportConfirmation }.

#[global] Instance RemuxExecutionState_eq_dec : EqDecision RemuxExecutionState.
Proof. solve_decision. Defined.
#[global] Instance RemuxExecution_eq_dec : EqDecision RemuxExecution.
Proof. solve_decision. Defined.

(** [decisionpolicy.AuthorizedRemux{}]. *)
Definition zero_AuthorizedRemux : AuthorizedRemux :=
  mkAuthorizedRemux "" "" (mkRemuxFile "" (mkSnapshot 0 0 0 0)) [] 0 0 0 [] 0.

(** [RemuxExecution.CaseID]. *)
Definition remux_CaseID (record : RemuxExecution) : string :=
  match rx_DVDAuthorization record with
  | Some authorized => ad_CaseID authorized
  | None => ar_CaseID (rx_Authorization record)
  end.

(** The loop that re-adds the source sizes; [None] when a file is invalid. *)
Fixpoint authorized_bytes (total : Z) (bytes : Z) (files : list AuthorizedRemuxFile) : option Z :=
  match files with
  | [] => Some bytes
  | file :: rest =>
      if bool_decide (arf_FileID file = "") ||
         bool_decide (SizeBytes (arf_Fingerprint file) <= 0) ||
         bool_decide (sub64 total bytes < SizeBytes (arf_Fingerprint file))
      then None
      else authorized_bytes total (add64 bytes (SizeBytes (arf_Fingerprint file))) rest
  end.

Definition validateRemuxAuthorizationShape (authorized : AuthorizedRemux) : result unit :=
  _ ← caseDigest (ar_CaseID authorized);
  _ ← fail_if (bool_decide (ar_CapabilityID authorized = "") ||
               bool_decide (arf_FileID (ar_Playlist authorized) = "") ||
               bool_decide (SizeBytes (arf_Fingerprint (ar_Playlist authorized)) <= 0) ||
               bool_decide (length (ar_Clips authorized) = 0%nat) ||
               bool_decide (ar_SourceBytes authorized <= 0) ||
               bool_decide (ar_ExpectedDurationMS authorized <= 0) ||
               bool_decide (ar_ExpectedChapters authorized < 0) ||
               bool_decide (length (ar_ExpectedTracks authorized) = 0%nat))
        "remux authorization is incomplete";
  match authorized_bytes (ar_SourceBytes authorized) 0 (ar_Clips authorized) with
  | None => Err "remux clip authorization is invalid"
  | Some bytes => fail_if (negb (bool_decide (bytes = ar_SourceBytes authorized)))
                    "remux source size does not match clips"
  end.

Definition validateDVDAuthorizationShape (authorized : AuthorizedDVD) : result unit :=
  _ ← caseDigest (ad_CaseID authorized);
  _ ← fail_if (bool_decide (ad_CapabilityID authorized = "") ||
               bool_decide (arf_FileID (ad_Navigation authorized) = "") ||
               bool_decide (SizeBytes (arf_Fingerprint (ad_Navigation authorized)) <= 0) ||
               bool_decide (length (ad_Sources authorized) < 3)%nat ||
               bool_decide (ad_SourceBytes authorized <= 0) ||
               bool_decide (ad_TitleNumber authorized <= 0) ||
               bool_decide (ad_ExpectedDurationMS authorized <= 0) ||
               bool_decide (ad_ExpectedChapters authorized <= 0) ||
               bool_decide (length (ad_ExpectedTracks authorized) = 0%nat))
        "DVD authorization is incomplete";
  match authorized_bytes (ad_SourceBytes authorized) 0 (ad_Sources authorized) with
  | None => Err "DVD source authorization is invalid"
  | Some bytes =>
      fail_if (negb (bool_decide (bytes = ad_SourceBytes authorized)) ||
               negb (existsb (fun source => bool_decide (arf_FileID source =
                       arf_FileID (ad_Navigation authorized))) (ad_Sources authorized)))
        "DVD source inventory does not match authorization"
  end.

Definition RemuxExecutionID (authorized : AuthorizedRemux) : result string :=
  _ ← validateRemuxAuthorizationShape authorized;
  mret (execution_id remuxExecutionDomain (authorization_json.remux authorized)).

Definition DVDExecutionID (authorized : AuthorizedDVD) : result string :=
  _ ← validateDVDAuthorizationShape authorized;
  mret (execution_id dvdExecutionDomain (authorization_json.dvd authorized)).

Definition source_matches (requested : RemuxSource) (file : AuthorizedRemuxFile) : bool :=
  bool_decide (src_ExpectedFingerprint requested = StrictFingerprint (arf_Fingerprint file)) &&
  bool_decide (src_SizeBytes requested = SizeBytes (arf_Fingerprint file)).

Definition remuxStageMatches (execution : RemuxExecution) (request : BlurayRemuxRequestV1) : bool :=
  let authorized := rx_Authorization execution in
  bool_decide (br_ExecutionID request = rx_ExecutionID execution) &&
  bool_decide (br_CaseID request = ar_CaseID authorized) &&
  bool_decide (br_CapabilityID request = ar_CapabilityID authorized) &&
  bool_decide (br_ExpectedDurationMS request = ar_ExpectedDurationMS authorized) &&
  bool_decide (br_ExpectedChapterCount request = ar_ExpectedChapters authorized) &&
  source_matches (br_Playlist request) (ar_Playlist authorized) &&
  equal_func source_matches (br_Clips request) (ar_Clips authorized) &&
  bool_decide (br_ExpectedTracks request = ar_ExpectedTracks authorized).

Definition dvdStageMatches (record : RemuxExecution) (request : DVDRemuxRequestV1) : bool :=
  match rx_DVDAuthorization record with
  | None => false
  | Some authorized =>
      bool_decide (dr_ExecutionID request = rx_ExecutionID record) &&
      bool_decide (dr_CaseID request = ad_CaseID authorized) &&
      bool_decide (dr_CapabilityID request = ad_CapabilityID authorized) &&
      bool_decide (dr_TitleNumber request = ad_TitleNumber authorized) &&
      bool_decide (dr_ExpectedDurationMS request = ad_ExpectedDurationMS authorized) &&
      bool_decide (dr_ExpectedChapterCount request = ad_ExpectedChapters authorized) &&
      source_matches (dr_Navigation request) (ad_Navigation authorized) &&
      equal_func source_matches (dr_Sources request) (ad_Sources authorized) &&
      bool_decide (dr_ExpectedTracks request = ad_ExpectedTracks authorized)
  end.

(** The published file replaces the last [levels] components of the source. *)
Definition published_path_matches (levels : nat) (source : list string) (artifactID : string)
    (path : list string) : bool :=
  bool_decide (levels <= length source)%nat &&
  bool_decide (length path = (length source - levels + 1)%nat) &&
  bool_decide (removelast path = take (length source - levels) source) &&
  bool_decide (last path = Some (PublishedName artifactID ".mkv")).

Definition remuxPublishedPathMatches (request : BlurayRemuxRequestV1) (artifactID : string)
    (path : list string) : bool :=
  published_path_matches 3 (src_PathComponents (br_Playlist request)) artifactID path.
Definition dvdPublishedPathMatches (request : DVDRemuxRequestV1) (artifactID : string)
    (path : list string) : bool :=
  published_path_matches 2 (src_PathComponents (dr_Navigation request)) artifactID path.

Definition validRemuxArtifact (artifact : option Artifact) : bool := valid_artifact artifact.

(** The checks shared by the import states of both validations. *)
Definition validate_remux_import (record : RemuxExecution) : result unit :=
  match rx_Import record with
  | None => Err "remux import lacks request"
  | Some import =>
      _ ← validateStoredJoinImport import (rx_PreparedAt record) (rx_UpdatedAt record);
      _ ← fail_if (bool_decide (rx_State record = RemuxImportPrepared) &&
                   negb (bool_decide (ji_CommandID import = None)))
            "prepared remux import has a command ID";
      _ ← fail_if ((bool_decide (rx_State record = RemuxImportRequested) ||
                    bool_decide (rx_State record = RemuxImportFailed)) &&
                   bool_decide (ji_CommandID import = None))
            "requested remux import lacks a command ID";
      if bool_decide (rx_State record = RemuxImported) then
        match rx_Confirmation record with
        | None => Err "imported remux lacks confirmation"
        | Some c => fail_if (negb (is_ok (validateRadarrImportConfirmation c)))
                      "imported remux lacks confirmation"
        end
      else fail_if (negb (bool_decide (rx_Confirmation record = None)))
             "unconfirmed remux has import confirmation"
  end.

(** The published file is where the stage request says it belongs. *)
Definition remux_destination (request : BlurayRemuxRequestV1) (artifact : option Artifact)
    (published : option PublishedArtifact) : bool :=
  match artifact, published with
  | Some a, Some p => bool_decide (pb_RootID p = br_RootID request) &&
                      remuxPublishedPathMatches request (af_ID a) (pb_PathComponents p)
  | _, _ => false
  end.
Definition dvd_destination (request : DVDRemuxRequestV1) (artifact : option Artifact)
    (published : option PublishedArtifact) : bool :=
  match artifact, published with
  | Some a, Some p => bool_decide (pb_RootID p = dr_RootID request) &&
                      dvdPublishedPathMatches request (af_ID a) (pb_PathComponents p)
  | _, _ => false
  end.

Definition no_import (record : RemuxExecution) : bool :=
  both_none (rx_Import record) (rx_Confirmation record).

(** The evidence of a Blu-ray remux that has left the prepared state. *)
Definition validate_remux_result (record : RemuxExecution) : result unit :=
  match rx_StageRequest record with
  | None => Err "remux staging evidence is invalid"
  | Some request =>
      match rx_State record with
      | RemuxStaged | RemuxPublished =>
          _ ← fail_if (negb (bool_decide (rx_Failure record = None)) ||
                       negb (valid_artifact (rx_Artifact record)) ||
                       negb (remuxStageMatches record request))
                "remux staging evidence is invalid";
          _ ← fail_if (negb (is_ok (EncodeBlurayRemuxRequest request))) "remux stage request is invalid";
          _ ← fail_if (bool_decide (rx_State record = RemuxStaged) &&
                       negb (bool_decide (rx_Published record = None)))
                "unpublished remux has a destination";
          _ ← fail_if (bool_decide (rx_State record = RemuxPublished) &&
                       negb (remux_destination request (rx_Artifact record) (rx_Published record)))
                "published remux destination is invalid";
          fail_if (negb (no_import record)) "remux has unexpected import evidence"
      | RemuxFailed =>
          match rx_Failure record with
          | None => Err "failed remux has inconsistent evidence"
          | Some failure =>
              _ ← fail_if (negb (bool_decide (rx_Published record = None)) || negb (no_import record))
                    "failed remux has inconsistent evidence";
              _ ← fail_if (bool_decide (ef_Reason failure = "") ||
                           negb (remuxStageMatches record request))
                    "failed remux lacks stage evidence";
              _ ← fail_if (negb (is_ok (EncodeBlurayRemuxRequest request)))
                    "failed remux stage request is invalid";
              if bool_decide (ef_Operation failure = StageBlurayRemuxV1)
              then fail_if (negb (bool_decide (rx_Artifact record = None)))
                     "failed remux stage has artifact"
              else if bool_decide (ef_Operation failure = PublishBlurayRemuxV1)
              then fail_if (negb (valid_artifact (rx_Artifact record)))
                     "failed remux publish lacks artifact"
              else Err "unknown failed remux operation"
          end
      | RemuxImportPrepared | RemuxImportRequested | RemuxImported | RemuxImportFailed =>
          _ ← fail_if (negb (valid_artifact (rx_Artifact record)) ||
                       negb (bool_decide (rx_Failure record = None)) ||
                       negb (remuxStageMatches record request) ||
                       negb (remux_destination request (rx_Artifact record) (rx_Published record)) ||
                       bool_decide (rx_Import record = None))
                "remux import lacks published artifact";
          _ ← fail_if (negb (is_ok (EncodeBlurayRemuxRequest request)))
                "remux import stage request is invalid";
          validate_remux_import record
      | RemuxPrepared | RemuxOtherState _ => Err "unknown remux execution state"
      end
  end.

Definition validateRemuxExecution (record : RemuxExecution) : result unit :=
  _ ← fail_if (negb (bool_decide (rx_Version record = RemuxExecutionVersionV1)))
        "unsupported remux execution version";
  _ ← fail_if (negb (both_none (rx_DVDAuthorization record) (rx_DVDStageRequest record)))
        "Blu-ray remux contains DVD evidence";
  identity ← RemuxExecutionID (rx_Authorization record);
  _ ← fail_if (negb (bool_decide (rx_ExecutionID record = identity)))
        "remux execution identity does not match authorization";
  _ ← fail_if (IsZero (rx_PreparedAt record) || IsZero (rx_UpdatedAt record) ||
               Before (rx_UpdatedAt record) (rx_PreparedAt record))
        "remux execution timestamps are invalid";
  match rx_State record with
  | RemuxPrepared =>
      fail_if (negb (bool_decide (rx_StageRequest record = None) &&
                     bool_decide (rx_Artifact record = None) &&
                     bool_decide (rx_Published record = None) &&
                     bool_decide (rx_Failure record = None) && no_import record))
        "prepared remux has result evidence"
  | _ => validate_remux_result record
  end.

(** The evidence of a DVD remux that has left the prepared state. *)
Definition validate_dvd_result (record : RemuxExecution) : result unit :=
  match rx_DVDStageRequest record with
  | None => Err "DVD remux staging evidence is invalid"
  | Some request =>
      _ ← fail_if (negb (dvdStageMatches record request)) "DVD remux staging evidence is invalid";
      _ ← fail_if (negb (is_ok (EncodeDVDRemuxRequest request))) "DVD stage request is invalid";
      match rx_State record with
      | RemuxFailed =>
          match rx_Failure record with
          | None => Err "failed DVD remux has inconsistent evidence"
          | Some failure =>
              _ ← fail_if (bool_decide (ef_Reason failure = "") ||
                           negb (bool_decide (rx_Published record = None)) || negb (no_import record))
                    "failed DVD remux has inconsistent evidence";
              if bool_decide (ef_Operation failure = StageDVDRemuxV1)
              then fail_if (negb (bool_decide (rx_Artifact record = None)))
                     "failed DVD stage has artifact"
              else if bool_decide (ef_Operation failure = PublishDVDRemuxV1)
              then fail_if (negb (validRemuxArtifact (rx_Artifact record)))
                     "failed DVD publish lacks artifact"
              else Err "unknown failed DVD operation"
          end
      | state =>
          _ ← fail_if (negb (bool_decide (rx_Failure record = None)) ||
                       negb (validRemuxArtifact (rx_Artifact record)))
                "DVD artifact evidence is invalid";
          if bool_decide (state = RemuxStaged) then
            fail_if (negb (bool_decide (rx_Published record = None)) || negb (no_import record))
              "staged DVD remux has unexpected evidence"
          else
            _ ← fail_if (negb (dvd_destination request (rx_Artifact record) (rx_Published record)))
                  "published DVD destination is invalid";
            if bool_decide (state = RemuxPublished)
            then fail_if (negb (no_import record))
                   "published DVD remux has unexpected import evidence"
            else validate_remux_import record
      end
  end.

Definition validateDVDExecution (record : RemuxExecution) : result unit :=
  match rx_DVDAuthorization record with
  | None => Err "DVD remux contains Blu-ray evidence"
  | Some authorized =>
      _ ← fail_if (negb (bool_decide (rx_StageRequest record = None)) ||
                   negb (bool_decide (rx_Authorization record = zero_AuthorizedRemux)))
            "DVD remux contains Blu-ray evidence";
      identity ← DVDExecutionID authorized;
      _ ← fail_if (negb (bool_decide (rx_ExecutionID record = identity)))
            "DVD execution identity does not match authorization";
      _ ← fail_if (IsZero (rx_PreparedAt record) || IsZero (rx_UpdatedAt record) ||
                   Before (rx_UpdatedAt record) (rx_PreparedAt record))
            "DVD execution timestamps are invalid";
      match rx_State record with
      | RemuxPrepared =>
          fail_if (negb (bool_decide (rx_DVDStageRequest record = None) &&
                         bool_decide (rx_Artifact record = None) &&
                         bool_decide (rx_Published record = None) &&
                         bool_decide (rx_Failure record = None) && no_import record))
            "prepared DVD remux has result evidence"
      | RemuxOtherState _ => Err "unknown DVD execution state"
      | _ => validate_dvd_result record
      end
  end.

Definition validateDiscExecution (record : RemuxExecution) : result unit :=
  if bool_decide (rx_Version record = DVDExecutionVersionV1) then validateDVDExecution record
  else validateRemuxExecution record.

Definition EncodeRemuxExecution (record : RemuxExecution) : result RemuxExecution :=
  _ ← validateDiscExecution record;
  _ ← marshal_times (rx_PreparedAt record :: rx_UpdatedAt record ::
        match rx_Import record with Some i => [ji_PreparedAt i] | None => [] end ++
        match rx_Confirmation record with Some c => [ic_OccurredAt c] | None => [] end);
  mret record.
