(* ===== verification/ExecutionStore.v ===== *)
(** * The executions directory

    The part of [internal/casestore] that every kind of execution shares: one
    private file per case under [executions/], named by the digest of the case
    identifier, holding a manual-import, a join or a disc-remux record. A file
    is modelled by the record it decodes to; decoding it as another kind fails
    because unknown fields are disallowed. Every operation takes the store
    lock, so it is one atomic step from a store to a store. A failure to read,
    lock or replace a file for other reasons is not modelled. *)
From stdpp Require Import base strings list gmap.
From S2P Require Import Prelude GoStrings FileIdentity Probe Media Radarr WorkerContracts Decisions.
From S2P Require Import ManualImportPolicy JoinPolicy DiscPolicy JoinVerification ExecutionRecords.

(** ** Planned cases (planned_case.go, execution_plan.go) *)

Record PolicyOverrides := mkPolicyOverrides { po_MaximumRuntimeDifferenceMS : Z }.

#[global] Instance PolicyOverrides_eq_dec : EqDecision PolicyOverrides.
Proof. solve_decision. Defined.

Record PlannedCase := mkPlannedCase
  { pc_Assembly : Assembly; pc_Decision : RepairDecisionV3; pc_ReconsiderationID : string;
    pc_PolicyOverrides : option PolicyOverrides }.

(** [PlannedCase.RuntimePolicy]. *)
Definition planned_RuntimePolicy (planned : PlannedCase) : RuntimePolicy :=
  match pc_PolicyOverrides planned with
  | None => mkRuntimePolicy 0
  | Some overrides => mkRuntimePolicy (po_MaximumRuntimeDifferenceMS overrides)
  end.

(** What the executions need from the case, planning and plan directories: the
    planned case of an identifier, and the plan bound for its execution. The
    implementation only returns a case stored under the identifier asked for. *)
Class PlanSource (P : Type) :=
  { GetPlannedCase : P -> string -> result PlannedCase;
    GetExecutionPlan : P -> string -> result PlannedCase;
    GetPlannedCase_case : forall plans caseID planned,
      GetPlannedCase plans caseID = Ok planned ->
      rc_CaseID (as_Request (pc_Assembly planned)) = caseID;
    GetExecutionPlan_case : forall plans caseID planned,
      GetExecutionPlan plans caseID = Ok planned ->
      rc_CaseID (as_Request (pc_Assembly planned)) = caseID }.

(** ** Files and kinds *)

Inductive execution_file :=
| ManualFile (record : ManualImportExecution)
| JoinFile (record : JoinExecution)
| RemuxFile (record : RemuxExecution).

(** What the generic read, write and update need to know of a kind of record.
    The laws say that a file of the kind decodes to the record it was written
    from, that only valid records are encoded, and that the update time is a
    field of its own. *)
Class ExecutionKind (R : Type) :=
  { to_file : R -> execution_file;
    of_file : execution_file -> option R;
    record_CaseID : R -> string;
    record_UpdatedAt : R -> time;
    set_UpdatedAt : time -> R -> R;
    validate_record : R -> result unit;
    encode_record : R -> result R;
    of_to_file : forall record, of_file (to_file record) = Some record;
    to_of_file : forall file record, of_file file = Some record -> to_file record = file;
    encode_valid : forall record record',
      encode_record record = Ok record' -> record' = record /\ validate_record record = Ok tt;
    set_CaseID : forall t record, record_CaseID (set_UpdatedAt t record) = record_CaseID record;
    set_UpdatedAt_get : forall t record, record_UpdatedAt (set_UpdatedAt t record) = t;
    valid_CaseID : forall record,
      validate_record record = Ok tt -> is_ok (caseDigest (record_CaseID record)) = true }.

Definition manual_of_file (file : execution_file) : option ManualImportExecution :=
  match file with ManualFile record => Some record | _ => None end.
Definition join_of_file (file : execution_file) : option JoinExecution :=
  match file with JoinFile record => Some record | _ => None end.
Definition remux_of_file (file : execution_file) : option RemuxExecution :=
  match file with RemuxFile record => Some record | _ => None end.

#[local] Obligation Tactic := idtac.

#[global] Program Instance manual_kind : ExecutionKind ManualImportExecution :=
  {| to_file := ManualFile;
     of_file := manual_of_file;
     record_CaseID := mx_CaseID;
     record_UpdatedAt := mx_UpdatedAt;
     set_UpdatedAt := fun t r =>
       mkManualImportExecution (mx_Version r) (mx_CaseID r) (mx_CapabilityID r) (mx_FileID r)
         (mx_ExpectedFingerprint r) (mx_State r) (mx_HistoryIDBefore r) (mx_PreparedAt r) t
         (mx_CommandID r) (mx_Confirmation r);
     validate_record := validateManualImportExecution;
     encode_record := EncodeManualImportExecution |}.
Next Obligation. done. Qed.
Next Obligation. by intros [] ? [= <-]. Qed.
Next Obligation.
  intros record record'. unfold EncodeManualImportExecution. intros H. inv_result.
  by destruct_units.
Qed.
Next Obligation. done. Qed.
Next Obligation. done. Qed.
Next Obligation.
  intros record. unfold validateManualImportExecution. intros H. inv_result. apply is_ok_true. eauto.
Qed.

#[global] Program Instance join_kind : ExecutionKind JoinExecution :=
  {| to_file := JoinFile;
     of_file := join_of_file;
     record_CaseID := fun r => aj_CaseID (jx_Authorization r);
     record_UpdatedAt := jx_UpdatedAt;
     set_UpdatedAt := fun t r =>
       mkJoinExecution (jx_Version r) (jx_ExecutionID r) (jx_Authorization r) (jx_State r)
         (jx_PreparedAt r) t (jx_Stage r) (jx_Artifact r) (jx_Published r) (jx_Failure r)
         (jx_Import r) (jx_Confirmation r);
     validate_record := validateJoinExecution;
     encode_record := EncodeJoinExecution |}.
Next Obligation. done. Qed.
Next Obligation. by intros [] ? [= <-]. Qed.
Next Obligation.
  intros record record'. unfold EncodeJoinExecution. intros H. inv_result.
  by destruct_units.
Qed.
Next Obligation. done. Qed.
Next Obligation. done. Qed.
Next Obligation.
  intros record. unfold validateJoinExecution. cbv zeta. intros H. inv_result. apply is_ok_true. eauto.
Qed.

Lemma validateRemuxAuthorizationShape_case authorized u :
  validateRemuxAuthorizationShape authorized = Ok u -> is_ok (caseDigest (ar_CaseID authorized)) = true.
Proof. unfold validateRemuxAuthorizationShape. intros H. inv_result. apply is_ok_true. eauto. Qed.

Lemma validateDVDAuthorizationShape_case authorized u :
  validateDVDAuthorizationShape authorized = Ok u -> is_ok (caseDigest (ad_CaseID authorized)) = true.
Proof. unfold validateDVDAuthorizationShape. intros H. inv_result. apply is_ok_true. eauto. Qed.

#[global] Program Instance remux_kind : ExecutionKind RemuxExecution :=
  {| to_file := RemuxFile;
     of_file := remux_of_file;
     record_CaseID := remux_CaseID;
     record_UpdatedAt := rx_UpdatedAt;
     set_UpdatedAt := fun t r =>
       mkRemuxExecution (rx_Version r) (rx_ExecutionID r) (rx_Authorization r)
         (rx_DVDAuthorization r) (rx_State r) (rx_PreparedAt r) t (rx_StageRequest r)
         (rx_DVDStageRequest r) (rx_Artifact r) (rx_Published r) (rx_Failure r) (rx_Import r)
         (rx_Confirmation r);
     validate_record := validateDiscExecution;
     encode_record := EncodeRemuxExecution |}.
Next Obligation. done. Qed.
Next Obligation. by intros [] ? [= <-]. Qed.
Next Obligation.
  intros record record'. unfold EncodeRemuxExecution. intros H. inv_result.
  by destruct_units.
Qed.
Next Obligation. done. Qed.
Next Obligation. done. Qed.
Next Obligation.
  intros record. unfold validateDiscExecution, validateDVDExecution, validateRemuxExecution, remux_CaseID.
  case_bool_decide; intros Hv.
  - destruct (rx_DVDAuthorization record); [|done]. unfold DVDExecutionID in Hv. inv_result.
    by eapply validateDVDAuthorizationShape_case.
  - unfold RemuxExecutionID in Hv. inv_result.
    destruct (rx_DVDAuthorization record), (rx_DVDStageRequest record); try done.
    by eapply validateRemuxAuthorizationShape_case.
Qed.

(** ** Reading, writing and updating *)

Record Store (P : Type) := mkStore
  { st_plans : P; st_executions : gmap string execution_file }.
Arguments mkStore {P} _ _.
Arguments st_plans {P} _.
Arguments st_executions {P} _.

Section generic.
Context {P : Type} {R : Type} `{!ExecutionKind R}.

(** [readManualImportExecution], [readJoinExecution], [readRemuxExecution]. *)
Definition read_execution (store : Store P) (digest : string) : result (option R) :=
  match st_executions store !! digest with
  | None => Ok None
  | Some file =>
      match of_file file with
      | None => Err "decode execution"
      | Some record => _ ← validate_record record; mret (Some record)
      end
  end.

(** [writeManualImportExecution], [writeJoinExecution], [writeRemuxExecution]. *)
Definition write_execution (store : Store P) (digest : string) (record : R) : result (Store P) :=
  encoded ← encode_record record;
  mret (mkStore (st_plans store) (<[digest := to_file encoded]> (st_executions store))).

(** [GetManualImportExecution], [GetJoinExecution], [GetRemuxExecution]. *)
Definition get_execution (store : Store P) (caseID : string) : result (option R) :=
  digest ← caseDigest caseID;
  found ← read_execution store digest;
  match found with
  | None => mret None
  | Some record =>
      _ ← fail_if (negb (bool_decide (record_CaseID record = caseID)))
            "stored execution has unexpected case ID";
      mret (Some record)
  end.

(** [updateManualImportExecution], [updateJoinExecution] and
    [updateRemuxExecution]: the record, whether it changed, and the store. *)
Definition update_execution (store : Store P) (caseID : string) (updatedAt : time)
    (update : R -> result (R * bool)) : result (R * bool * Store P) :=
  _ ← fail_if (IsZero updatedAt) "update time is required";
  digest ← caseDigest caseID;
  found ← read_execution store digest;
  match found with
  | None => Err "execution for case is not prepared"
  | Some previous =>
      _ ← fail_if (negb (bool_decide (record_CaseID previous = caseID)))
            "stored execution has unexpected case ID";
      _ ← fail_if (Before updatedAt (record_UpdatedAt previous)) "update time moved backwards";
      updated ← update previous;
      let '(record, changed) := updated in
      if negb changed then mret (record, false, store)
      else
        let record := set_UpdatedAt (UTC updatedAt) record in
        store' ← write_execution store digest record;
        mret (record, true, store')
  end.
End generic.

(** ** The invariant of the directory

    Every file holds a record that passes validation and encodes, under the
    digest of that record's case. *)
Definition valid_file (digest : string) (file : execution_file) : Prop :=
  match file with
  | ManualFile r => EncodeManualImportExecution r = Ok r /\ caseDigest (mx_CaseID r) = Ok digest
  | JoinFile r => EncodeJoinExecution r = Ok r /\
                  caseDigest (aj_CaseID (jx_Authorization r)) = Ok digest
  | RemuxFile r => EncodeRemuxExecution r = Ok r /\ caseDigest (remux_CaseID r) = Ok digest
  end.

Definition store_valid {P} (store : Store P) : Prop :=
  forall digest file, st_executions store !! digest = Some file -> valid_file digest file.

(** A kind whose valid files are its valid records. *)
Class LawfulKind (R : Type) `{ExecutionKind R} : Prop :=
  valid_to_file : forall digest (record : R),
    valid_file digest (to_file record) <->
    encode_record record = Ok record /\ caseDigest (record_CaseID record) = Ok digest.

#[global] Instance manual_lawful : LawfulKind ManualImportExecution.
Proof. done. Qed.
#[global] Instance join_lawful : LawfulKind JoinExecution.
Proof. done. Qed.
#[global] Instance remux_lawful : LawfulKind RemuxExecution.
Proof. done. Qed.

(** The effect of an operation on the directory: nothing, or one file of the
    kind written for the case it was asked about. *)
Definition writes {P R} `{ExecutionKind R} (store store' : Store P) (caseID : string)
    (before : option R) (after : R) : Prop :=
  exists digest, caseDigest caseID = Ok digest /\
    st_executions store !! digest = to_file <$> before /\
    st_plans store' = st_plans store /\
    st_executions store' = <[digest := to_file after]> (st_executions store) /\
    encode_record after = Ok after /\ record_CaseID after = caseID.

Section generic_properties.
Context {P : Type} {R : Type} `{!ExecutionKind R} `{!LawfulKind R}.
Implicit Types store : Store P.

Lemma read_execution_Some store digest (record : R) :
  read_execution store digest = Ok (Some record) <->
  st_executions store !! digest = Some (to_file record) /\ validate_record record = Ok tt.
Proof.
  unfold read_execution. split.
  - destruct (st_executions store !! digest) as [file|]; [|done].
    destruct (of_file file) as [r|] eqn:Hf; [|done]. intros H. inv_result. destruct_units.
    apply to_of_file in Hf. by subst.
  - intros [-> Hv]. rewrite of_to_file, Hv. done.
Qed.

Lemma read_execution_None store digest :
  read_execution (R := R) store digest = Ok None <-> st_executions store !! digest = None.
Proof.
  unfold read_execution. destruct (st_executions store !! digest) as [file|]; [|done].
  destruct (of_file file) as [r|]; [|done]. split; [|done]. intros H. by inv_result.
Qed.

Lemma writes_valid store store' caseID before (after : R) :
  store_valid store -> writes store store' caseID before after -> store_valid store'.
Proof.
  intros Hs (digest & Hd & _ & _ & Hw & Hv & Hc) d file. rewrite Hw.
  destruct (decide (digest = d)) as [->|Hne].
  - rewrite lookup_insert_eq. intros [= <-]. apply valid_to_file. by rewrite Hc.
  - rewrite lookup_insert_ne by done. apply Hs.
Qed.

Lemma write_execution_Ok store digest (record : R) store' :
  write_execution store digest record = Ok store' ->
  encode_record record = Ok record /\ st_plans store' = st_plans store /\
  st_executions store' = <[digest := to_file record]> (st_executions store).
Proof.
  unfold write_execution. intros H. inv_result.
  match goal with H : encode_record _ = Ok _ |- _ =>
    pose proof (encode_valid _ _ H) as [-> _] end. done.
Qed.

(** A record found for a case is valid and is that case's. *)
Lemma get_execution_valid store caseID (r : R) :
  get_execution store caseID = Ok (Some r) ->
  validate_record r = Ok tt /\ record_CaseID r = caseID.
Proof.
  unfold get_execution. intros H. inv_result. case_match; inv_result. split_bool.
  match goal with H : read_execution _ _ = Ok _ |- _ => apply read_execution_Some in H as [_ ?] end.
  done.
Qed.

(** What a successful update did: it read a record of the case that was not
    updated later, and either changed nothing or wrote what the update
    returned, stamped with the update time. *)
Lemma update_execution_Ok store caseID updatedAt update (record : R) changed store' :
  update_execution store caseID updatedAt update = Ok (record, changed, store') ->
  exists previous next, IsZero updatedAt = false /\
    get_execution store caseID = Ok (Some previous) /\
    t_ns (record_UpdatedAt previous) <= t_ns updatedAt /\
    update previous = Ok (next, changed) /\
    if changed then record = set_UpdatedAt (UTC updatedAt) next /\
                    (record_CaseID next = caseID ->
                     writes store store' caseID (Some previous) record)
    else record = next /\ store' = store.
Proof.
  unfold update_execution. intros H.
  apply bind_Ok in H as ([] & Hz & H). apply fail_if_Ok in Hz.
  apply bind_Ok in H as (digest & Hd & H).
  apply bind_Ok in H as ([previous|] & Hr & H); [|done].
  apply bind_Ok in H as ([] & Hc & H). apply bind_Ok in H as ([] & Hb & H).
  apply bind_Ok in H as ([next changed'] & Hu & H). apply fail_if_Ok in Hb.
  exists previous, next.
  assert (get_execution store caseID = Ok (Some previous)) as Hget.
  { unfold get_execution. rewrite Hd. simpl. rewrite Hr. simpl. by rewrite Hc. }
  unfold Before in Hb. split_bool.
  destruct changed'; simpl in H; inv_result;
    (do 2 (split; [done|]); split; [lia|]; split; [done|]); [|done].
  split; [done|]. intros Hcase.
  match goal with H : write_execution _ _ _ = Ok _ |- _ =>
    apply write_execution_Ok in H as (? & ? & ?) end.
  apply read_execution_Some in Hr as [? _].
  eexists. split_and!; try done. by rewrite set_CaseID.
Qed.
End generic_properties.

(** ** Effects

    What an operation of one kind may do to the store, given how the kind
    creates records ([creates]: in which store, in place of which record) and
    how it changes them ([moves]): nothing, one record created, or one record
    moved. The case of a record never changes and its update time does not go
    back. *)
Section effects.
Context {P : Type} {R : Type} `{!ExecutionKind R}.
Context (creates : Store P -> option R -> R -> Prop) (moves : Store P -> R -> R -> Prop).

Inductive execution_effect (store : Store P) : R -> bool -> Store P -> Prop :=
| effect_none r caseID :
    get_execution store caseID = Ok (Some r) -> execution_effect store r false store
| effect_create before r store' :
    creates store before r -> writes store store' (record_CaseID r) before r ->
    execution_effect store r true store'
| effect_move r r' store' :
    get_execution store (record_CaseID r) = Ok (Some r) -> moves store r r' ->
    t_ns (record_UpdatedAt r) <= t_ns (record_UpdatedAt r') ->
    writes store store' (record_CaseID r) (Some r) r' -> execution_effect store r' true store'.

Context `{!LawfulKind R}.

(** An update has an effect when it leaves unchanged what it reports as
    unchanged and makes a move otherwise. *)
Lemma update_effect store caseID t update r changed store' :
  update_execution store caseID t update = Ok (r, changed, store') ->
  (forall previous next u, validate_record previous = Ok tt -> record_CaseID previous = caseID ->
     update previous = Ok (next, true) ->
     record_CaseID next = record_CaseID previous /\ moves store previous (set_UpdatedAt u next)) ->
  (forall previous next, update previous = Ok (next, false) -> next = previous) ->
  execution_effect store r changed store'.
Proof.
  intros H Hmove Hsame. apply update_execution_Ok in H as (previous & next & _ & Hg & Ht & Hu & H).
  destruct (get_execution_valid _ _ _ Hg) as [Hv Hc]. destruct changed.
  - destruct H as [-> Hw]. destruct (Hmove previous next (UTC t) Hv Hc Hu) as [Hid Hm].
    apply (effect_move _ previous); rewrite ?Hc, ?set_UpdatedAt_get; try done. apply Hw. congruence.
  - destruct H as [-> ->]. apply Hsame in Hu as ->. by eapply effect_none.
Qed.

(** An effect keeps the invariant of the directory. *)
Lemma effect_valid store r changed store' :
  store_valid store -> execution_effect store r changed store' -> store_valid store'.
Proof. intros Hs []; [done|by eapply writes_valid..]. Qed.

Lemma effect_plans store r changed store' :
  execution_effect store r changed store' -> st_plans store' = st_plans store.
Proof. intros [|? ? ? _ (? & _ & _ & ? & _)|? ? ? _ _ _ (? & _ & _ & ? & _)]; done. Qed.
End effects.
