(* ===== verification/ManualExecution.v ===== *)
(** * Manual-import executions

    [internal/casestore/execution.go]: preparing the import of an authorized
    file, recording the Radarr command, its confirmation or its failure. *)
From stdpp Require Import base strings list gmap.
From S2P Require Import Prelude GoStrings FileIdentity Probe Media Radarr WorkerContracts Decisions.
From S2P Require Import ManualImportPolicy JoinPolicy DiscPolicy JoinVerification ExecutionRecords.
From S2P Require Import ExecutionStore.

(** A copy of the record in another state; the other fields as given. *)
Definition manual_with (r : ManualImportExecution) (state : ManualImportExecutionState)
    (commandID : option Z) (confirmation : option RadarrImportConfirmation) : ManualImportExecution :=
  mkManualImportExecution (mx_Version r) (mx_CaseID r) (mx_CapabilityID r) (mx_FileID r)
    (mx_ExpectedFingerprint r) state (mx_HistoryIDBefore r) (mx_PreparedAt r) (mx_UpdatedAt r)
    commandID confirmation.

(** The update closures of the [Mark...] operations. *)
Definition manual_requested (commandID : Z) (previous : ManualImportExecution)
    : result (ManualImportExecution * bool) :=
  match mx_State previous with
  | ManualImportPrepared =>
      Ok (manual_with previous ManualImportRequested (Some commandID) (mx_Confirmation previous), true)
  | ManualImportRequested =>
      if bool_decide (mx_CommandID previous = Some commandID) then Ok (previous, false)
      else Err "manual import is already bound to a different Radarr command"
  | _ => Err "cannot request manual import"
  end.

Definition manual_imported (authorized : AuthorizedManualImport)
    (confirmation : RadarrImportConfirmation) (previous : ManualImportExecution)
    : result (ManualImportExecution * bool) :=
  _ ← fail_if (negb (sameManualImport previous authorized))
        "manual import confirmation does not match the prepared operation";
  match mx_State previous with
  | ManualImportPrepared | ManualImportRequested =>
      _ ← fail_if (bool_decide (ic_HistoryID confirmation <= mx_HistoryIDBefore previous))
            "Radarr import confirmation predates the request";
      mret (manual_with previous ManualImportImported (mx_CommandID previous) (Some confirmation), true)
  | ManualImportImported =>
      if bool_decide (mx_Confirmation previous = Some confirmation) then Ok (previous, false)
      else Err "manual import is already bound to different confirmation evidence"
  | _ => Err "cannot mark manual import imported"
  end.

Definition manual_failed (previous : ManualImportExecution) : result (ManualImportExecution * bool) :=
  match mx_State previous with
  | ManualImportPrepared | ManualImportRequested =>
      Ok (manual_with previous ManualImportFailed (mx_CommandID previous) (mx_Confirmation previous),
          true)
  | ManualImportFailed => Ok (previous, false)
  | _ => Err "cannot mark manual import failed"
  end.

Section operations.
Context {P : Type} `{!PlanSource P}.

Definition validateManualImportAuthorization (store : Store P) (authorized : AuthorizedManualImport)
    : result unit :=
  planned ← GetExecutionPlan (st_plans store) (am_CaseID authorized);
  let validation := ValidateManualImportWithPolicy (pc_Assembly planned) (pc_Decision planned)
                      (planned_RuntimePolicy planned) in
  fail_if (negb (manual_Accepted validation) ||
           negb (bool_decide (miv_Authorized validation = Some authorized)))
    "manual import authorization does not match stored case and decision".

Definition GetManualImportExecution (store : Store P) (caseID : string)
    : result (option ManualImportExecution) :=
  get_execution store caseID.

Definition PrepareManualImport (store : Store P) (authorized : AuthorizedManualImport)
    (historyIDBefore : Z) (preparedAt : time) : result (ManualImportExecution * bool * Store P) :=
  _ ← fail_if (bool_decide (historyIDBefore < 0)) "Radarr history ID cannot be negative";
  _ ← fail_if (IsZero preparedAt) "manual import preparation time is required";
  digest ← caseDigest (am_CaseID authorized);
  _ ← validateManualImportAuthorization store authorized;
  found ← read_execution store digest;
  match found with
  | Some previous =>
      if sameManualImport previous authorized then mret (previous, false, store)
      else Err "case is already bound to a different manual import"
  | None =>
      let record := mkManualImportExecution ManualImportExecutionVersionV1 (am_CaseID authorized)
        (am_CapabilityID authorized) (am_FileID authorized) (am_ExpectedFingerprint authorized)
        ManualImportPrepared historyIDBefore (UTC preparedAt) (UTC preparedAt) None None in
      store' ← write_execution store digest record;
      mret (record, true, store')
  end.

Definition updateManualImportExecution (store : Store P) (caseID : string) (updatedAt : time)
    (update : ManualImportExecution -> result (ManualImportExecution * bool))
    : result (ManualImportExecution * bool * Store P) :=
  update_execution store caseID updatedAt update.

Definition MarkManualImportRequested (store : Store P) (caseID : string) (commandID : Z)
    (updatedAt : time) : result (ManualImportExecution * bool * Store P) :=
  _ ← fail_if (bool_decide (commandID <= 0)) "Radarr command ID must be positive";
  updateManualImportExecution store caseID updatedAt (manual_requested commandID).

Definition MarkManualImportImported (store : Store P) (authorized : AuthorizedManualImport)
    (imported : RadarrImportedFile) (updatedAt : time)
    : result (ManualImportExecution * bool * Store P) :=
  _ ← validateManualImportAuthorization store authorized;
  _ ← fail_if (negb (bool_decide (imp_MovieID imported = cf_MovieID (am_File authorized))) ||
               negb (bool_decide (imp_DownloadID imported = cf_DownloadID (am_File authorized))) ||
               negb (bool_decide (imp_DroppedPath imported = cf_Path (am_File authorized))))
        "Radarr import confirmation does not match the authorized file";
  let confirmation := radarrImportConfirmation imported in
  _ ← validateRadarrImportConfirmation confirmation;
  updateManualImportExecution store (am_CaseID authorized) updatedAt
    (manual_imported authorized confirmation).

Definition MarkManualImportFailed (store : Store P) (caseID : string) (updatedAt : time)
    : result (ManualImportExecution * bool * Store P) :=
  updateManualImportExecution store caseID updatedAt manual_failed.
End operations.

(** ** The protocol of one manual import *)

Section protocol.
Context {P : Type} `{!PlanSource P}.

(** A record is created for a manual import that the stored case and decision
    authorize, and only when the case has no execution. *)
Definition manual_creates (store : Store P) (before : option ManualImportExecution)
    (r : ManualImportExecution) : Prop :=
  before = None /\ mx_State r = ManualImportPrepared /\
  exists authorized, validateManualImportAuthorization store authorized = Ok tt /\
    sameManualImport r authorized = true.

(** What no move changes. *)
Definition manual_identity (r : ManualImportExecution) :=
  (mx_Version r, mx_CaseID r, mx_CapabilityID r, mx_FileID r, mx_ExpectedFingerprint r,
   mx_HistoryIDBefore r, mx_PreparedAt r).

(** The moves of the protocol. A command is bound once and kept; an import is
    confirmed for the file the stored case still authorizes, by a history
    entry newer than the preparation; imported and failed are final. *)
Inductive manual_step (store : Store P) (r r' : ManualImportExecution) : Prop :=
| manual_step_request commandID :
    mx_State r = ManualImportPrepared -> mx_State r' = ManualImportRequested -> 0 < commandID ->
    mx_CommandID r' = Some commandID -> mx_Confirmation r' = None -> manual_step store r r'
| manual_step_import authorized confirmation :
    mx_State r = ManualImportPrepared \/ mx_State r = ManualImportRequested ->
    mx_State r' = ManualImportImported -> mx_CommandID r' = mx_CommandID r ->
    mx_Confirmation r' = Some confirmation ->
    validateManualImportAuthorization store authorized = Ok tt ->
    sameManualImport r authorized = true ->
    ic_MovieID confirmation = cf_MovieID (am_File authorized) ->
    ic_DownloadID confirmation = cf_DownloadID (am_File authorized) ->
    ic_DroppedPath confirmation = cf_Path (am_File authorized) ->
    mx_HistoryIDBefore r < ic_HistoryID confirmation -> manual_step store r r'
| manual_step_fail :
    mx_State r = ManualImportPrepared \/ mx_State r = ManualImportRequested ->
    mx_State r' = ManualImportFailed -> mx_CommandID r' = mx_CommandID r ->
    mx_Confirmation r' = None -> manual_step store r r'.

Definition manual_moves (store : Store P) (r r' : ManualImportExecution) : Prop :=
  manual_identity r' = manual_identity r /\ manual_step store r r'.

(** The operations as a command language. *)
Inductive manual_op :=
| OpPrepareManual (authorized : AuthorizedManualImport) (historyIDBefore : Z) (at_ : time)
| OpManualRequested (caseID : string) (commandID : Z) (at_ : time)
| OpManualImported (authorized : AuthorizedManualImport) (imported : RadarrImportedFile) (at_ : time)
| OpManualFailed (caseID : string) (at_ : time).

Definition run_manual (store : Store P) (op : manual_op)
    : result (ManualImportExecution * bool * Store P) :=
  match op with
  | OpPrepareManual authorized historyIDBefore t =>
      PrepareManualImport store authorized historyIDBefore t
  | OpManualRequested caseID commandID t => MarkManualImportRequested store caseID commandID t
  | OpManualImported authorized imported t => MarkManualImportImported store authorized imported t
  | OpManualFailed caseID t => MarkManualImportFailed store caseID t
  end.
End protocol.

Section properties.
Context {P : Type} `{!PlanSource P}.
Implicit Types store : Store P.

(** The evidence a valid record may have before it is imported. *)
Lemma unconfirmed r :
  validateManualImportExecution r = Ok tt ->
  mx_State r = ManualImportPrepared \/ mx_State r = ManualImportRequested ->
  mx_Confirmation r = None.
Proof.
  unfold validateManualImportExecution. intros H [Hs|Hs]; rewrite Hs in H; inv_result; split_bool.
  - unfold both_none in *. destruct (mx_CommandID r), (mx_Confirmation r); done.
  - destruct (mx_CommandID r); inv_result. split_bool. done.
Qed.

Lemma PrepareManualImport_effect store authorized h t r changed store' :
  PrepareManualImport store authorized h t = Ok (r, changed, store') ->
  execution_effect manual_creates manual_moves store r changed store'.
Proof.
  unfold PrepareManualImport. intros H.
  apply bind_Ok in H as (_ & _ & H). apply bind_Ok in H as (_ & _ & H).
  apply bind_Ok in H as (digest & Hd & H). apply bind_Ok in H as ([] & Ha & H).
  apply bind_Ok in H as ([previous|] & Hr & H).
  - destruct (sameManualImport previous authorized) eqn:Hsame; inv_result.
    apply (effect_none _ _ _ _ (am_CaseID authorized)). unfold get_execution.
    rewrite Hd. simpl. rewrite Hr. simpl. unfold sameManualImport in Hsame. split_bool.
    by rewrite bool_decide_true.
  - apply bind_Ok in H as (written & Hw & H). inv_result.
    apply (effect_create _ _ _ None).
    + split_and!; [done..|]. exists authorized. split; [done|].
      unfold sameManualImport. simpl. by rewrite !bool_decide_true.
    + apply write_execution_Ok in Hw as (? & ? & ?). apply read_execution_None in Hr.
      exists digest. by split_and!.
Qed.

Lemma manual_requested_moves store commandID previous next u :
  0 < commandID -> validateManualImportExecution previous = Ok tt ->
  manual_requested commandID previous = Ok (next, true) ->
  manual_moves store previous (set_UpdatedAt u next).
Proof.
  intros Hpos Hv. unfold manual_requested. destruct (mx_State previous) eqn:Hs; try done.
  - intros [= <-]. split; [done|].
    eapply manual_step_request; try done. simpl. apply unconfirmed; [done|by left].
  - by case_bool_decide.
Qed.

Lemma manual_imported_moves store authorized imported previous next u :
  validateManualImportAuthorization store authorized = Ok tt ->
  imp_MovieID imported = cf_MovieID (am_File authorized) ->
  imp_DownloadID imported = cf_DownloadID (am_File authorized) ->
  imp_DroppedPath imported = cf_Path (am_File authorized) ->
  manual_imported authorized (radarrImportConfirmation imported) previous = Ok (next, true) ->
  manual_moves store previous (set_UpdatedAt u next).
Proof.
  intros Ha Hm Hd Hp H. unfold manual_imported in H.
  apply bind_Ok in H as ([] & Hsame & H). apply fail_if_Ok in Hsame. split_bool.
  destruct (mx_State previous) eqn:Hs; try done; [..|by case_bool_decide];
    inv_result; split_bool; (split; [done|]);
    eapply (manual_step_import _ _ _ authorized); simpl; try done; eauto; simpl in *; lia.
Qed.

Lemma manual_failed_moves store previous next u :
  validateManualImportExecution previous = Ok tt -> manual_failed previous = Ok (next, true) ->
  manual_moves store previous (set_UpdatedAt u next).
Proof.
  intros Hv H. unfold manual_failed in H.
  destruct (mx_State previous) eqn:Hs; simplify_eq; (split; [done|]);
    eapply manual_step_fail; simpl; try done; eauto using unconfirmed.
Qed.

Lemma manual_moves_case store r r' u :
  manual_moves store r (set_UpdatedAt u r') -> mx_CaseID r' = mx_CaseID r.
Proof. unfold manual_moves, manual_identity. simpl. intros [? _]. congruence. Qed.

Lemma run_manual_effect store op r changed store' :
  run_manual store op = Ok (r, changed, store') ->
  execution_effect manual_creates manual_moves store r changed store'.
Proof.
  destruct op as [a h t|caseID commandID t|a imported t|caseID t]; simpl.
  - apply PrepareManualImport_effect.
  - unfold MarkManualImportRequested. intros H. apply bind_Ok in H as ([] & Hpos & H).
    apply fail_if_Ok in Hpos. split_bool. eapply update_effect; [exact H|..].
    + intros previous next u Hv _ Hu. eapply manual_requested_moves in Hu; [|lia|done].
      split; [by eapply manual_moves_case|exact Hu].
    + intros previous next. unfold manual_requested.
      destruct (mx_State previous); try done. by case_bool_decide; intros [= <-].
  - unfold MarkManualImportImported. intros H. apply bind_Ok in H as ([] & Ha & H).
    apply bind_Ok in H as ([] & Hf & H). apply bind_Ok in H as ([] & Hc & H).
    apply fail_if_Ok in Hf. split_bool. eapply update_effect; [exact H|..].
    + intros previous next u _ _ Hu. eapply manual_imported_moves in Hu; [|done..].
      split; [by eapply manual_moves_case|exact Hu].
    + intros previous next Hu. unfold manual_imported in Hu. apply bind_Ok in Hu as (_ & _ & Hu).
      destruct (mx_State previous); inv_result; try done. case_bool_decide; by inv_result.
  - intros H. eapply update_effect; [exact H|..].
    + intros previous next u Hv _ Hu. eapply manual_failed_moves in Hu; [|done].
      split; [by eapply manual_moves_case|exact Hu].
    + intros previous next. unfold manual_failed. destruct (mx_State previous); try done.
      by intros [= <-].
Qed.

(** Every successful operation on a manual import refines the protocol: it changes
    nothing, creates a record the policy authorized, or makes one move of the
    protocol; and it keeps the directory valid. *)
Theorem run_manual_refines store op r changed store' :
  run_manual store op = Ok (r, changed, store') ->
  execution_effect manual_creates manual_moves store r changed store' /\
  (store_valid store -> store_valid store').
Proof.
  intros H%run_manual_effect. split; [exact H|]. intros Hs. exact (effect_valid _ _ _ _ _ _ Hs H).
Qed.
End properties.
