(* ===== verification/JoinExecution.v ===== *)
(** * Join executions

    [internal/casestore/join_execution.go] and [join_import_execution.go]:
    preparing a join, recording the staged artifact, its publication or its
    discard, and the import of the published file. A nil dereference is a
    panic and is an error that leaves the store alone. *)
From stdpp Require Import base strings list gmap.
From S2P Require Import Prelude GoStrings FileIdentity Probe Media Radarr WorkerContracts Decisions.
From S2P Require Import ManualImportPolicy JoinPolicy DiscPolicy JoinVerification ExecutionRecords.
From S2P Require Import ExecutionStore.

Definition joinRejectionReasons (validation : Validation) : list RejectionReason :=
  val_Rejections validation.

Definition hasJoinRejection (validation : Validation) (want : RejectionReason) : bool :=
  existsb (fun reason => bool_decide (reason = want)) (val_Rejections validation).

Definition staged_artifact (success : StageSuccessV1) : Artifact :=
  mkArtifact (ss_ArtifactID success) (ss_ArtifactFingerprint success) (ss_SizeBytes success).

(** The result of a staged join: the state, the stage evidence, the artifact
    and the failure to record. *)
Record JoinOutcome := mkJoinOutcome
  { jo_State : JoinExecutionState; jo_Stage : JoinStage; jo_Artifact : option Artifact;
    jo_Failure : option ExecutionFailure }.

Definition joinStageOutcome (response : StageJoinResponseV1) (validation : Validation)
    : result JoinOutcome :=
  let stage := mkJoinStage (joinRejectionReasons validation) in
  if bool_decide (r_Kind response = ProbeResponseFailed) then
    match r_Failure response with
    | None => Err "panic"
    | Some failure =>
        Ok (mkJoinOutcome JoinFailed stage None
              (Some (mkExecutionFailure StageJoinV1 (fr_Reason failure))))
    end
  else match r_Success response with
  | None => Err "successful staged join lacks an artifact"
  | Some success =>
      let artifact := staged_artifact success in
      if staged_Accepted validation
      then Ok (mkJoinOutcome JoinArtifactReady stage (Some artifact) None)
      else match val_Discard validation with
      | Some _ => Ok (mkJoinOutcome JoinDiscardPending stage (Some artifact) None)
      | None => Err "staged join produced neither publish nor discard authorization"
      end
  end.

Definition repeatedJoinFailure {S} (previous : JoinExecution) (operation : string)
    (response : Response S) : bool :=
  match jx_State previous, jx_Failure previous with
  | JoinFailed, Some failure =>
      if negb (bool_decide (ef_Operation failure = operation)) then false
      else match r_Failure response with
      | Some f => bool_decide (ef_Reason failure = fr_Reason f)
      | None => false
      end
  | _, _ => false
  end.

Definition publishedArtifactMatches (artifact : Artifact) (response : PublishResponseV1) : bool :=
  match r_Success response with
  | Some success => bool_decide (pu_ArtifactID success = af_ID artifact) &&
                    bool_decide (pu_ArtifactFingerprint success = af_Fingerprint artifact)
  | None => false
  end.

Definition publishedResultMatches (record : JoinExecution) (response : PublishResponseV1) : bool :=
  match jx_Artifact record, jx_Published record, r_Success response with
  | Some artifact, Some published, Some success =>
      publishedArtifactMatches artifact response &&
      bool_decide (pu_RootID success = pb_RootID published) &&
      bool_decide (pu_PathComponents success = pb_PathComponents published)
  | _, _, _ => false
  end.

Definition discardedArtifactMatches (artifact : Artifact) (response : DiscardResponseV1) : bool :=
  match r_Success response with
  | Some success => bool_decide (ds_ArtifactID success = af_ID artifact) &&
                    bool_decide (ds_ArtifactFingerprint success = af_Fingerprint artifact)
  | None => false
  end.

(** A copy of the record with another state and other evidence. *)
Definition join_with (r : JoinExecution) (state : JoinExecutionState) (stage : option JoinStage)
    (artifact : option Artifact) (published : option PublishedArtifact)
    (failure : option ExecutionFailure) (import : option JoinImport)
    (confirmation : option RadarrImportConfirmation) : JoinExecution :=
  mkJoinExecution (jx_Version r) (jx_ExecutionID r) (jx_Authorization r) state (jx_PreparedAt r)
    (jx_UpdatedAt r) stage artifact published failure import confirmation.

Definition join_with_state (r : JoinExecution) (state : JoinExecutionState) : JoinExecution :=
  join_with r state (jx_Stage r) (jx_Artifact r) (jx_Published r) (jx_Failure r) (jx_Import r)
    (jx_Confirmation r).
Definition join_with_failure (r : JoinExecution) (failure : ExecutionFailure) : JoinExecution :=
  join_with r JoinFailed (jx_Stage r) (jx_Artifact r) (jx_Published r) (Some failure) (jx_Import r)
    (jx_Confirmation r).
Definition join_with_import (r : JoinExecution) (state : JoinExecutionState) (import : JoinImport)
    (confirmation : option RadarrImportConfirmation) : JoinExecution :=
  join_with r state (jx_Stage r) (jx_Artifact r) (jx_Published r) (jx_Failure r) (Some import)
    confirmation.

(** ** The update closures *)

Definition join_staged (authorized : AuthorizedJoin) (request : StageJoinRequestV1)
    (outcome : JoinOutcome) (previous : JoinExecution) : result (JoinExecution * bool) :=
  _ ← fail_if (negb (bool_decide (jx_Authorization previous = authorized)) ||
               negb (bool_decide (sj_ExecutionID request = jx_ExecutionID previous)))
        "staged join does not match the prepared operation";
  match jx_Stage previous with
  | Some stage =>
      if bool_decide (stage = jo_Stage outcome) &&
         bool_decide (jx_Artifact previous = jo_Artifact outcome) &&
         (negb (bool_decide (jo_State outcome = JoinFailed)) ||
          bool_decide (jx_Failure previous = jo_Failure outcome))
      then mret (previous, false)
      else Err "join already has a different staged result"
  | None =>
      if negb (bool_decide (jx_State previous = JoinPrepared))
      then Err "cannot record staged join from this state"
      else mret (join_with previous (jo_State outcome) (Some (jo_Stage outcome)) (jo_Artifact outcome)
                   (jx_Published previous) (jo_Failure outcome) (jx_Import previous)
                   (jx_Confirmation previous), true)
  end.

Definition join_published (response : PublishResponseV1) (previous : JoinExecution)
    : result (JoinExecution * bool) :=
  if bool_decide (jx_State previous = JoinPublished) then
    if bool_decide (r_Kind response = ProbeResponseSucceeded) &&
       publishedResultMatches previous response
    then Ok (previous, false) else Err "join already has a different publish result"
  else if repeatedJoinFailure previous PublishV1 response then Ok (previous, false)
  else match jx_State previous, jx_Artifact previous with
  | JoinArtifactReady, Some artifact =>
      if bool_decide (r_Kind response = ProbeResponseFailed) then
        match r_Failure response with
        | None => Err "panic"
        | Some failure =>
            Ok (join_with_failure previous (mkExecutionFailure PublishV1 (fr_Reason failure)), true)
        end
      else if negb (publishedArtifactMatches artifact response)
      then Err "published artifact does not match the verified artifact"
      else match r_Success response with
      | None => Err "panic"
      | Some success =>
          Ok (join_with previous JoinPublished (jx_Stage previous) (jx_Artifact previous)
                (Some (mkPublished (pu_RootID success) (pu_PathComponents success)))
                (jx_Failure previous) (jx_Import previous) (jx_Confirmation previous), true)
      end
  | _, _ => Err "cannot publish join from this state"
  end.

Definition join_discarded (response : DiscardResponseV1) (previous : JoinExecution)
    : result (JoinExecution * bool) :=
  if bool_decide (jx_State previous = JoinDiscarded) then
    if bool_decide (r_Kind response = ProbeResponseSucceeded) then
      match jx_Artifact previous with
      | None => Err "panic"
      | Some artifact =>
          if discardedArtifactMatches artifact response then Ok (previous, false)
          else Err "join already has a different discard result"
      end
    else Err "join already has a different discard result"
  else if repeatedJoinFailure previous DiscardV1 response then Ok (previous, false)
  else match jx_State previous, jx_Artifact previous with
  | JoinDiscardPending, Some artifact =>
      if bool_decide (r_Kind response = ProbeResponseFailed) then
        match r_Failure response with
        | None => Err "panic"
        | Some failure =>
            Ok (join_with_failure previous (mkExecutionFailure DiscardV1 (fr_Reason failure)), true)
        end
      else if negb (discardedArtifactMatches artifact response)
      then Err "discarded artifact does not match the rejected artifact"
      else Ok (join_with_state previous JoinDiscarded, true)
  | _, _ => Err "cannot discard join from this state"
  end.

Definition join_import_prepared (request : JoinImportRequest) (preparedAt : time)
    (previous : JoinExecution) : result (JoinExecution * bool) :=
  match jx_Import previous with
  | Some import =>
      if sameJoinImportRequest import request then Ok (previous, false)
      else Err "join is already bound to a different Radarr import"
  | None =>
      if negb (bool_decide (jx_State previous = JoinPublished))
      then Err "cannot prepare Radarr import from this state"
      else Ok (join_with_import previous JoinImportPrepared
                 (mkJoinImport (jir_Command request) (jir_HistoryIDBefore request) (UTC preparedAt) None)
                 (jx_Confirmation previous), true)
  end.

(** The import with its command. *)
Definition bound_to (commandID : Z) (import : JoinImport) : JoinImport :=
  mkJoinImport (ji_Command import) (ji_HistoryIDBefore import) (ji_PreparedAt import) (Some commandID).

Definition join_import_requested (commandID : Z) (previous : JoinExecution)
    : result (JoinExecution * bool) :=
  match jx_State previous with
  | JoinImportPrepared =>
      match jx_Import previous with
      | None => Err "prepared Radarr import is missing"
      | Some import =>
          Ok (join_with_import previous JoinImportRequested (bound_to commandID import)
                (jx_Confirmation previous), true)
      end
  | JoinImportRequested =>
      match jx_Import previous with
      | Some import =>
          if bool_decide (ji_CommandID import = Some commandID) then Ok (previous, false)
          else Err "Radarr import is already bound to a different command"
      | None => Err "Radarr import is already bound to a different command"
      end
  | _ => Err "cannot request Radarr import from this state"
  end.

Definition join_imported (imported : RadarrImportedFile) (confirmation : RadarrImportConfirmation)
    (previous : JoinExecution) : result (JoinExecution * bool) :=
  match jx_Import previous with
  | None => Err "Radarr import confirmation does not match the joined file"
  | Some import =>
      _ ← fail_if (negb (confirms (imp_MovieID imported) (imp_DownloadID imported)
                           (imp_DroppedPath imported) import))
            "Radarr import confirmation does not match the joined file";
      match jx_State previous with
      | JoinImportPrepared | JoinImportRequested =>
          _ ← fail_if (bool_decide (ic_HistoryID confirmation <= ji_HistoryIDBefore import))
                "Radarr import confirmation predates the request";
          mret (join_with_import previous JoinImported import (Some confirmation), true)
      | JoinImported =>
          if bool_decide (jx_Confirmation previous = Some confirmation) then mret (previous, false)
          else Err "joined file is already bound to different import evidence"
      | _ => Err "cannot mark joined file imported from this state"
      end
  end.

Definition join_import_failed (previous : JoinExecution) : result (JoinExecution * bool) :=
  match jx_State previous with
  | JoinImportRequested => Ok (join_with_state previous JoinImportFailed, true)
  | JoinImportFailed => Ok (previous, false)
  | _ => Err "cannot mark joined-file import failed from this state"
  end.

(** ** Operations *)
Section operations.
Context {P : Type} `{!PlanSource P}.

Definition validateJoinAuthorization (store : Store P) (authorized : AuthorizedJoin) : result unit :=
  planned ← GetExecutionPlan (st_plans store) (aj_CaseID authorized);
  match ValidateJoin (pc_Assembly planned) (pc_Decision planned) with
  | None => Err "panic"
  | Some validation =>
      fail_if (negb (join_Accepted validation) ||
               negb (bool_decide (jv_Authorized validation = Some authorized)))
        "join authorization does not match stored case and decision"
  end.

Definition GetJoinExecution (store : Store P) (caseID : string) : result (option JoinExecution) :=
  get_execution store caseID.

Definition PrepareJoin (store : Store P) (authorized : AuthorizedJoin) (preparedAt : time)
    : result (JoinExecution * bool * Store P) :=
  _ ← fail_if (IsZero preparedAt) "join preparation time is required";
  digest ← caseDigest (aj_CaseID authorized);
  _ ← validateJoinAuthorization store authorized;
  found ← read_execution store digest;
  let record := mkJoinExecution JoinExecutionVersionV2 (JoinExecutionID authorized) authorized
    JoinPrepared (UTC preparedAt) (UTC preparedAt) None None None None None None in
  let write :=
    store' ← write_execution store digest record;
    mret (record, true, store') in
  match found with
  | Some previous =>
      if negb (bool_decide (jx_Authorization previous = authorized))
      then Err "case is already bound to a different join"
      else if negb (JoinExecutionNeedsRecheck previous) then mret (previous, false, store)
      else write
  | None => write
  end.

Definition updateJoinExecution (store : Store P) (caseID : string) (updatedAt : time)
    (update : JoinExecution -> result (JoinExecution * bool))
    : result (JoinExecution * bool * Store P) :=
  update_execution store caseID updatedAt update.

Definition RecordJoinStage (store : Store P) (authorized : AuthorizedJoin)
    (request : StageJoinRequestV1) (response : StageJoinResponseV1) (updatedAt : time)
    : result (JoinExecution * bool * Store P) :=
  _ ← EncodeStageJoinRequest request;
  _ ← EncodeStageJoinResponse response;
  let validation := ValidateStagedJoin authorized request response in
  _ ← fail_if (hasJoinRejection validation StageRequestNotAuthorized ||
               hasJoinRejection validation StageResponseNotCorrelated)
        "staged join exchange does not match its authorization";
  outcome ← joinStageOutcome response validation;
  updateJoinExecution store (aj_CaseID authorized) updatedAt (join_staged authorized request outcome).

Definition RecordJoinPublish (store : Store P) (caseID : string) (response : PublishResponseV1)
    (updatedAt : time) : result (JoinExecution * bool * Store P) :=
  _ ← EncodePublishResponse response;
  updateJoinExecution store caseID updatedAt (join_published response).

Definition RecordJoinDiscard (store : Store P) (caseID : string) (response : DiscardResponseV1)
    (updatedAt : time) : result (JoinExecution * bool * Store P) :=
  _ ← EncodeDiscardResponse response;
  updateJoinExecution store caseID updatedAt (join_discarded response).

Definition validateJoinImportRequest (store : Store P) (caseID : string) (request : JoinImportRequest)
    : result unit :=
  _ ← fail_if (negb (command_Complete (jir_Command request)) ||
               bool_decide (jir_HistoryIDBefore request < 0)) "Radarr import request is invalid";
  planned ← GetPlannedCase (st_plans store) caseID;
  let observation := ls_Observation (as_LocalSnapshot (pc_Assembly planned)) in
  let queue := dc_Radarr (ob_Correlation observation) in
  match ob_Movie observation with
  | None => Err "Radarr import does not match the stored case"
  | Some movie =>
      _ ← fail_if (negb (bool_decide (q_MovieID queue = Some (mv_ID movie))))
            "Radarr import does not match the stored case";
      let '(expected, complete) := BuildRadarrPublishedFileImport
        (cf_Path (cmd_File (jir_Command request))) (mv_ID movie) (q_DownloadID queue)
        (ob_History observation) in
      fail_if (negb complete || negb (bool_decide (expected = Some (jir_Command request))))
        "Radarr import does not match the stored case"
  end.

Definition PrepareJoinImport (store : Store P) (caseID : string) (request : JoinImportRequest)
    (preparedAt : time) : result (JoinExecution * bool * Store P) :=
  _ ← validateJoinImportRequest store caseID request;
  updateJoinExecution store caseID preparedAt (join_import_prepared request preparedAt).

Definition MarkJoinImportRequested (store : Store P) (caseID : string) (commandID : Z)
    (updatedAt : time) : result (JoinExecution * bool * Store P) :=
  _ ← fail_if (bool_decide (commandID <= 0)) "Radarr command ID must be positive";
  updateJoinExecution store caseID updatedAt (join_import_requested commandID).

Definition MarkJoinImported (store : Store P) (caseID : string) (imported : RadarrImportedFile)
    (updatedAt : time) : result (JoinExecution * bool * Store P) :=
  let confirmation := radarrImportConfirmation imported in
  _ ← validateRadarrImportConfirmation confirmation;
  updateJoinExecution store caseID updatedAt (join_imported imported confirmation).

Definition MarkJoinImportFailed (store : Store P) (caseID : string) (updatedAt : time)
    : result (JoinExecution * bool * Store P) :=
  updateJoinExecution store caseID updatedAt join_import_failed.
End operations.

(** ** The protocol of a join *)
Section protocol.
Context {P : Type} `{!PlanSource P}.

(** A record is created, under the current execution identifier, for a join
    that the stored case and decision authorize: when the case has none, or in
    place of a discarded join of the same authorization that an older
    verification rejected. *)
Definition join_creates (store : Store P) (before : option JoinExecution) (r : JoinExecution) : Prop :=
  validateJoinAuthorization store (jx_Authorization r) = Ok tt /\ jx_State r = JoinPrepared /\
  jx_ExecutionID r = JoinExecutionID (jx_Authorization r) /\
  match before with
  | None => True
  | Some old => jx_Authorization old = jx_Authorization r /\ jx_State old = JoinDiscarded /\
                jx_ExecutionID old <> jx_ExecutionID r
  end.

(** What no move changes. *)
Definition join_identity (r : JoinExecution) :=
  (jx_Version r, jx_ExecutionID r, jx_Authorization r, jx_PreparedAt r).

(** The exchange with the worker is the one of the prepared join. *)
Definition join_exchange (r : JoinExecution) (request : StageJoinRequestV1)
    (response : StageJoinResponseV1) : Prop :=
  is_ok (EncodeStageJoinRequest request) = true /\ is_ok (EncodeStageJoinResponse response) = true /\
  requestMatchesAuthorization request (jx_Authorization r) = true /\
  sj_ExecutionID request = jx_ExecutionID r /\ stage_RequestID response = sj_RequestID request.

(** The staged result stays as it was recorded. *)
Definition join_kept (r r' : JoinExecution) : Prop :=
  jx_Stage r' = jx_Stage r /\ jx_Artifact r' = jx_Artifact r.

(** The moves of the protocol: staging ends with a verified artifact, a
    rejected one or a failure; a verified artifact is published or fails to
    be, a rejected one is discarded or fails to be; a published file is
    imported. *)
Inductive join_step (store : Store P) (r r' : JoinExecution) : Prop :=
| join_step_ready request response success :
    jx_State r = JoinPrepared -> jx_State r' = JoinArtifactReady ->
    join_exchange r request response -> r_Success response = Some success ->
    staged_Accepted (ValidateStagedJoin (jx_Authorization r) request response) = true ->
    jx_Artifact r' = Some (staged_artifact success) -> join_step store r r'
| join_step_rejected request response success :
    jx_State r = JoinPrepared -> jx_State r' = JoinDiscardPending ->
    join_exchange r request response -> r_Success response = Some success ->
    staged_Accepted (ValidateStagedJoin (jx_Authorization r) request response) = false ->
    jx_Artifact r' = Some (staged_artifact success) -> join_step store r r'
| join_step_stage_failed request response failure :
    jx_State r = JoinPrepared -> jx_State r' = JoinFailed -> join_exchange r request response ->
    r_Failure response = Some failure -> jx_Artifact r' = None ->
    jx_Failure r' = Some (mkExecutionFailure StageJoinV1 (fr_Reason failure)) -> join_step store r r'
| join_step_publish artifact success :
    jx_State r = JoinArtifactReady -> jx_State r' = JoinPublished -> join_kept r r' ->
    jx_Artifact r = Some artifact -> pu_ArtifactID success = af_ID artifact ->
    pu_ArtifactFingerprint success = af_Fingerprint artifact ->
    jx_Published r' = Some (mkPublished (pu_RootID success) (pu_PathComponents success)) ->
    join_step store r r'
| join_step_publish_failed failure :
    jx_State r = JoinArtifactReady -> jx_State r' = JoinFailed -> join_kept r r' ->
    jx_Failure r' = Some (mkExecutionFailure PublishV1 (fr_Reason failure)) -> join_step store r r'
| join_step_discard artifact success :
    jx_State r = JoinDiscardPending -> jx_State r' = JoinDiscarded -> join_kept r r' ->
    jx_Artifact r = Some artifact -> ds_ArtifactID success = af_ID artifact ->
    ds_ArtifactFingerprint success = af_Fingerprint artifact -> join_step store r r'
| join_step_discard_failed failure :
    jx_State r = JoinDiscardPending -> jx_State r' = JoinFailed -> join_kept r r' ->
    jx_Failure r' = Some (mkExecutionFailure DiscardV1 (fr_Reason failure)) -> join_step store r r'
| join_step_import request t :
    jx_State r = JoinPublished -> jx_State r' = JoinImportPrepared -> join_kept r r' ->
    validateJoinImportRequest store (aj_CaseID (jx_Authorization r)) request = Ok tt ->
    jx_Import r' = Some (mkJoinImport (jir_Command request) (jir_HistoryIDBefore request) t None) ->
    join_step store r r'
| join_step_request import commandID :
    jx_State r = JoinImportPrepared -> jx_State r' = JoinImportRequested -> join_kept r r' ->
    jx_Import r = Some import -> 0 < commandID -> jx_Import r' = Some (bound_to commandID import) ->
    join_step store r r'
| join_step_imported import confirmation :
    jx_State r = JoinImportPrepared \/ jx_State r = JoinImportRequested ->
    jx_State r' = JoinImported -> join_kept r r' -> jx_Import r = Some import ->
    jx_Import r' = Some import -> jx_Confirmation r' = Some confirmation ->
    confirms (ic_MovieID confirmation) (ic_DownloadID confirmation) (ic_DroppedPath confirmation)
      import = true ->
    ji_HistoryIDBefore import < ic_HistoryID confirmation -> join_step store r r'
| join_step_import_failed :
    jx_State r = JoinImportRequested -> jx_State r' = JoinImportFailed -> join_kept r r' ->
    jx_Import r' = jx_Import r -> join_step store r r'.

Definition join_moves (store : Store P) (r r' : JoinExecution) : Prop :=
  join_identity r' = join_identity r /\ join_step store r r'.

(** The operations as a command language. *)
Inductive join_op :=
| OpPrepareJoin (authorized : AuthorizedJoin) (at_ : time)
| OpJoinStage (authorized : AuthorizedJoin) (request : StageJoinRequestV1)
    (response : StageJoinResponseV1) (at_ : time)
| OpJoinPublish (caseID : string) (response : PublishResponseV1) (at_ : time)
| OpJoinDiscard (caseID : string) (response : DiscardResponseV1) (at_ : time)
| OpPrepareJoinImport (caseID : string) (request : JoinImportRequest) (at_ : time)
| OpJoinImportRequested (caseID : string) (commandID : Z) (at_ : time)
| OpJoinImported (caseID : string) (imported : RadarrImportedFile) (at_ : time)
| OpJoinImportFailed (caseID : string) (at_ : time).

Definition run_join (store : Store P) (op : join_op) : result (JoinExecution * bool * Store P) :=
  match op with
  | OpPrepareJoin authorized t => PrepareJoin store authorized t
  | OpJoinStage authorized request response t => RecordJoinStage store authorized request response t
  | OpJoinPublish caseID response t => RecordJoinPublish store caseID response t
  | OpJoinDiscard caseID response t => RecordJoinDiscard store caseID response t
  | OpPrepareJoinImport caseID request t => PrepareJoinImport store caseID request t
  | OpJoinImportRequested caseID commandID t => MarkJoinImportRequested store caseID commandID t
  | OpJoinImported caseID imported t => MarkJoinImported store caseID imported t
  | OpJoinImportFailed caseID t => MarkJoinImportFailed store caseID t
  end.
End protocol.

(** ** Lemmas *)
Section properties.
Context {P : Type} `{!PlanSource P}.
Implicit Types store : Store P.

Lemma PrepareJoin_effect store authorized t r changed store' :
  PrepareJoin store authorized t = Ok (r, changed, store') ->
  execution_effect join_creates join_moves store r changed store'.
Proof.
  unfold PrepareJoin. cbv zeta. intros H.
  apply bind_Ok in H as (_ & _ & H). apply bind_Ok in H as (digest & Hd & H).
  apply bind_Ok in H as ([] & Ha & H). apply bind_Ok in H as (found & Hr & H).
  set (record := mkJoinExecution _ _ _ _ _ _ _ _ _ _ _ _) in H.
  assert (forall before, st_executions store !! digest = to_file <$> before ->
    join_creates store before record ->
    forall s, write_execution store digest record = Ok s ->
    execution_effect join_creates join_moves store record true s) as Hwrite.
  { intros before Hb Hc s Hw. apply (effect_create _ _ _ before); [done|].
    apply write_execution_Ok in Hw as (? & ? & ?). exists digest. by split_and!. }
  destruct found as [previous|].
  - destruct (decide (jx_Authorization previous = authorized)) as [Heq|Heq];
      [rewrite (bool_decide_true _ Heq) in H|by rewrite (bool_decide_false _ Heq) in H].
    cbn [negb] in H.
    destruct (JoinExecutionNeedsRecheck previous) eqn:Hn; cbn [negb] in H.
    + apply bind_Ok in H as (s & Hw & H). inv_result. apply (Hwrite (Some previous)); [|split_and!|done].
      * by apply read_execution_Some in Hr as [? _].
      * done.
      * done.
      * done.
      * done.
      * unfold JoinExecutionNeedsRecheck in Hn. case_bool_decide; [done|discriminate Hn].
      * unfold JoinExecutionNeedsRecheck in Hn. destruct (bool_decide (jx_State _ = _)); [|done].
        by simpl in Hn; split_bool.
    + inv_result. apply (effect_none _ _ _ _ (aj_CaseID (jx_Authorization r))). unfold get_execution.
      rewrite Hd. simpl. rewrite Hr. simpl. by rewrite bool_decide_true.
  - apply bind_Ok in H as (s & Hw & H). inv_result. apply (Hwrite None); [|done|done].
    by apply read_execution_None in Hr.
Qed.

(** What the checks before recording a staged join establish. *)
Lemma stage_exchange authorized request response :
  is_ok (EncodeStageJoinRequest request) = true -> is_ok (EncodeStageJoinResponse response) = true ->
  let validation := ValidateStagedJoin authorized request response in
  hasJoinRejection validation StageRequestNotAuthorized = false ->
  hasJoinRejection validation StageResponseNotCorrelated = false ->
  requestMatchesAuthorization request authorized = true /\
  stage_RequestID response = sj_RequestID request.
Proof.
  intros Hq Hr. unfold ValidateStagedJoin, hasJoinRejection. cbv zeta. rewrite Hq, Hr. cbn [negb].
  destruct (requestMatchesAuthorization request authorized),
    (decide (stage_RequestID response = sj_RequestID request)) as [Hid|Hid];
    rewrite ?(bool_decide_true _ Hid), ?(bool_decide_false _ Hid); try done;
    intros H1 H2; exfalso; revert H1 H2; cbn [negb]; simpl;
    repeat (case_match; simpl; try done).
Qed.

Lemma joinStageOutcome_cases response validation outcome :
  joinStageOutcome response validation = Ok outcome ->
  jo_Stage outcome = mkJoinStage (val_Rejections validation) /\
  ((exists failure, r_Failure response = Some failure /\ jo_State outcome = JoinFailed /\
      jo_Artifact outcome = None /\
      jo_Failure outcome = Some (mkExecutionFailure StageJoinV1 (fr_Reason failure))) \/
   (exists success, r_Success response = Some success /\
      jo_State outcome = (if staged_Accepted validation then JoinArtifactReady
                          else JoinDiscardPending) /\
      jo_Artifact outcome = Some (staged_artifact success) /\ jo_Failure outcome = None)).
Proof.
  unfold joinStageOutcome. cbv zeta. intros H.
  destruct (bool_decide (r_Kind response = ProbeResponseFailed)).
  - destruct (r_Failure response) as [failure|]; [|done]. inv_ok H. split; [done|]. left.
    by exists failure.
  - destruct (r_Success response) as [success|]; [|done].
    destruct (staged_Accepted validation); [|destruct (val_Discard validation); [|done]];
      inv_ok H; (split; [done|]); right; by exists success.
Qed.

Lemma join_staged_moves store request response outcome previous next u :
  joinStageOutcome response (ValidateStagedJoin (jx_Authorization previous) request response) =
    Ok outcome ->
  join_exchange previous request response ->
  join_staged (jx_Authorization previous) request outcome previous = Ok (next, true) ->
  join_moves store previous (set_UpdatedAt u next).
Proof.
  intros Ho Hx H. unfold join_staged in H. apply bind_Ok in H as (_ & _ & H).
  destruct (jx_Stage previous); [by destruct (_ && _ && _)%bool|].
  destruct (decide (jx_State previous = JoinPrepared)) as [Hp|Hp];
    [rewrite (bool_decide_true _ Hp) in H|by rewrite (bool_decide_false _ Hp) in H].
  inv_ok H. split; [reflexivity|].
  remember (ValidateStagedJoin _ _ _) as validation eqn:Hv.
  apply joinStageOutcome_cases in Ho
    as [_ [(failure & Hf & Hs & Ha & Hj)|(success & Hr & Hs & Ha & _)]].
  - eapply join_step_stage_failed; [exact Hp|exact Hs|exact Hx|exact Hf|exact Ha|exact Hj].
  - destruct (staged_Accepted validation) eqn:Hacc; rewrite Hv in Hacc.
    + eapply join_step_ready; [exact Hp|exact Hs|exact Hx|exact Hr|exact Hacc|exact Ha].
    + eapply join_step_rejected; [exact Hp|exact Hs|exact Hx|exact Hr|exact Hacc|exact Ha].
Qed.

Lemma RecordJoinStage_effect store authorized request response t r changed store' :
  RecordJoinStage store authorized request response t = Ok (r, changed, store') ->
  execution_effect join_creates join_moves store r changed store'.
Proof.
  unfold RecordJoinStage. cbv zeta. intros H.
  apply bind_Ok in H as (d1 & Hq & H). apply bind_Ok in H as (d2 & Hr & H).
  apply bind_Ok in H as ([] & Hf & H). apply bind_Ok in H as (outcome & Ho & H).
  apply fail_if_Ok, orb_false_iff in Hf as [Hf1 Hf2].
  assert (is_ok (EncodeStageJoinRequest request) = true) as Hq' by (rewrite Hq; reflexivity).
  assert (is_ok (EncodeStageJoinResponse response) = true) as Hr' by (rewrite Hr; reflexivity).
  destruct (stage_exchange _ _ _ Hq' Hr' Hf1 Hf2) as [Hm Hid]. clear Hq Hr Hf1 Hf2.
  eapply update_effect; [exact H|..].
  - intros previous next u _ _ Hu.
    assert (jx_Authorization previous = authorized /\ sj_ExecutionID request = jx_ExecutionID previous)
      as [<- Hx].
    { clear -Hu. unfold join_staged in Hu. apply bind_Ok in Hu as ([] & Hsame & _).
      apply fail_if_Ok in Hsame. by split_bool. }
    split; [|eapply join_staged_moves; [exact Ho|repeat split; assumption|exact Hu]].
    clear -Hu. unfold join_staged in Hu. apply bind_Ok in Hu as (_ & _ & Hu).
    destruct (jx_Stage previous); [by destruct (_ && _ && _)%bool|].
    destruct (negb _); [discriminate Hu|by inv_ok Hu].
  - clear. intros previous next Hu. unfold join_staged in Hu. apply bind_Ok in Hu as (_ & _ & Hu).
    destruct (jx_Stage previous); [by destruct (_ && _ && _)%bool; [inv_ok Hu|]|].
    by destruct (negb _).
Qed.

Lemma join_published_moves store response previous next u :
  join_published response previous = Ok (next, true) ->
  jx_Authorization next = jx_Authorization previous /\ join_moves store previous (set_UpdatedAt u next).
Proof.
  unfold join_published. intros H. destruct (bool_decide (jx_State previous = _)).
  { by destruct (_ && _)%bool. }
  destruct (repeatedJoinFailure _ _ _); [done|].
  destruct (jx_State previous) eqn:Hs; try done. destruct (jx_Artifact previous) as [a|] eqn:Ha; [|done].
  destruct (bool_decide (r_Kind response = _)).
  - destruct (r_Failure response) as [f|]; [|done]. inv_ok H. split; [done|]. split; [done|].
    by eapply join_step_publish_failed.
  - unfold publishedArtifactMatches in H. destruct (r_Success response) as [success|]; [|done].
    destruct (bool_decide (pu_ArtifactID _ = _) && _)%bool eqn:Hm; [|done]. inv_ok H. split_bool.
    split; [done|]. split; [done|]. by eapply join_step_publish.
Qed.

Lemma join_discarded_moves store response previous next u :
  join_discarded response previous = Ok (next, true) ->
  jx_Authorization next = jx_Authorization previous /\ join_moves store previous (set_UpdatedAt u next).
Proof.
  unfold join_discarded. intros H. destruct (bool_decide (jx_State previous = _)).
  { destruct (bool_decide _), (jx_Artifact previous); try done.
    by destruct (discardedArtifactMatches _ _). }
  destruct (repeatedJoinFailure _ _ _); [done|].
  destruct (jx_State previous) eqn:Hs; try done. destruct (jx_Artifact previous) as [a|] eqn:Ha; [|done].
  destruct (bool_decide (r_Kind response = _)).
  - destruct (r_Failure response) as [f|]; [|done]. inv_ok H. split; [done|]. split; [done|].
    by eapply join_step_discard_failed.
  - unfold discardedArtifactMatches in H. destruct (r_Success response) as [success|]; [|done].
    destruct (bool_decide (ds_ArtifactID _ = _) && _)%bool eqn:Hm; [|done]. inv_ok H. split_bool.
    split; [done|]. split; [done|]. by eapply join_step_discard.
Qed.

Lemma join_import_prepared_moves store request t previous next u :
  validateJoinImportRequest store (aj_CaseID (jx_Authorization previous)) request = Ok tt ->
  join_import_prepared request t previous = Ok (next, true) ->
  jx_Authorization next = jx_Authorization previous /\ join_moves store previous (set_UpdatedAt u next).
Proof.
  unfold join_import_prepared. intros Hv H.
  destruct (jx_Import previous); [by destruct (sameJoinImportRequest _ _)|].
  destruct (decide (jx_State previous = JoinPublished)) as [Hs|Hs];
    [rewrite (bool_decide_true _ Hs) in H|by rewrite (bool_decide_false _ Hs) in H].
  inv_ok H. split; [done|]. split; [done|]. by eapply join_step_import.
Qed.

Lemma join_import_requested_moves store commandID previous next u :
  0 < commandID -> join_import_requested commandID previous = Ok (next, true) ->
  jx_Authorization next = jx_Authorization previous /\ join_moves store previous (set_UpdatedAt u next).
Proof.
  unfold join_import_requested. intros Hpos H. destruct (jx_State previous) eqn:Hs; try done;
    (destruct (jx_Import previous) eqn:Hi; [|done]).
  - inv_ok H. split; [done|]. split; [done|]. by eapply join_step_request.
  - by destruct (bool_decide _).
Qed.

Lemma join_imported_moves store imported previous next u :
  join_imported imported (radarrImportConfirmation imported) previous = Ok (next, true) ->
  jx_Authorization next = jx_Authorization previous /\ join_moves store previous (set_UpdatedAt u next).
Proof.
  unfold join_imported. intros H. destruct (jx_Import previous) as [import|] eqn:Hi; [|done].
  apply bind_Ok in H as ([] & Hc & H). apply fail_if_Ok, negb_false_iff in Hc.
  destruct (jx_State previous) eqn:Hs; try done; [| |by destruct (bool_decide _)];
    apply bind_Ok in H as ([] & Hh & H); apply fail_if_Ok in Hh; inv_ok H; split_bool;
    (split; [done|]); (split; [done|]);
    eapply (join_step_imported _ _ _ import); eauto; simpl in *; try done; lia.
Qed.

Lemma join_import_failed_moves store previous next u :
  join_import_failed previous = Ok (next, true) ->
  jx_Authorization next = jx_Authorization previous /\ join_moves store previous (set_UpdatedAt u next).
Proof.
  unfold join_import_failed. intros H. destruct (jx_State previous) eqn:Hs; try done.
  inv_ok H. split; [done|]. split; [done|]. by eapply join_step_import_failed.
Qed.

(** Reporting no change means returning the record as it was. *)
Lemma join_update_same update previous next :
  (exists response, update = join_published response) \/
  (exists response, update = join_discarded response) \/
  (exists request t, update = join_import_prepared request t) \/
  (exists commandID, update = join_import_requested commandID) \/
  (exists imported confirmation, update = join_imported imported confirmation) \/
  update = join_import_failed ->
  update previous = Ok (next, false) -> next = previous.
Proof.
  intros [[? ->]|[[? ->]|[(? & ? & ->)|[[? ->]|[(? & ? & ->)| ->]]]]] H;
    unfold join_published, join_discarded, join_import_prepared, join_import_requested, join_imported,
      join_import_failed in H;
    repeat first
      [ discriminate H | inv_ok H; reflexivity | apply bind_Ok in H as (_ & _ & H)
      | match type of H with context [match ?x with _ => _ end] =>
          lazymatch x with context [match _ with _ => _ end] => fail | _ => destruct x end end ].
Qed.

Lemma run_join_effect store op r changed store' :
  run_join store op = Ok (r, changed, store') ->
  execution_effect join_creates join_moves store r changed store'.
Proof.
  destruct op as [a t|a request response t|caseID response t|caseID response t|caseID request t|
    caseID commandID t|caseID imported t|caseID t]; simpl.
  - apply PrepareJoin_effect.
  - apply RecordJoinStage_effect.
  - unfold RecordJoinPublish. intros H. apply bind_Ok in H as (_ & _ & H).
    eapply update_effect; [exact H|..|intros ? ? ?; eapply join_update_same; [|eassumption]; eauto 10].
    intros previous next u _ _ Hu. eapply join_published_moves in Hu as [Ha Hu].
    split; [exact (f_equal aj_CaseID Ha)|exact Hu].
  - unfold RecordJoinDiscard. intros H. apply bind_Ok in H as (_ & _ & H).
    eapply update_effect; [exact H|..|intros ? ? ?; eapply join_update_same; [|eassumption]; eauto 10].
    intros previous next u _ _ Hu. eapply join_discarded_moves in Hu as [Ha Hu].
    split; [exact (f_equal aj_CaseID Ha)|exact Hu].
  - unfold PrepareJoinImport. intros H. apply bind_Ok in H as ([] & Hv & H).
    eapply update_effect; [exact H|..|intros ? ? ?; eapply join_update_same; [|eassumption]; eauto 10].
    simpl. intros previous next u _ <- Hu. eapply join_import_prepared_moves in Hu as [Ha Hu]; [|done].
    split; [exact (f_equal aj_CaseID Ha)|exact Hu].
  - unfold MarkJoinImportRequested. intros H. apply bind_Ok in H as ([] & Hp & H).
    apply fail_if_Ok in Hp. split_bool.
    eapply update_effect; [exact H|..|intros ? ? ?; eapply join_update_same; [|eassumption]; eauto 10].
    intros previous next u _ _ Hu. eapply join_import_requested_moves in Hu as [Ha Hu]; [|lia].
    split; [exact (f_equal aj_CaseID Ha)|exact Hu].
  - unfold MarkJoinImported. cbv zeta. intros H. apply bind_Ok in H as ([] & Hc & H).
    eapply update_effect; [exact H|..|intros ? ? ?; eapply join_update_same; [|eassumption]; eauto 10].
    intros previous next u _ _ Hu. eapply join_imported_moves in Hu as [Ha Hu].
    split; [exact (f_equal aj_CaseID Ha)|exact Hu].
  - intros H. eapply update_effect; [exact H|..|intros ? ? ?; eapply join_update_same; [|eassumption]; eauto 10].
    intros previous next u _ _ Hu. eapply join_import_failed_moves in Hu as [Ha Hu].
    split; [exact (f_equal aj_CaseID Ha)|exact Hu].
Qed.

(** C30. Every successful operation on a join refines the protocol: it changes
    nothing, creates a record the policy authorized, or makes one move of the
    protocol; and it keeps the directory valid. *)
Theorem run_join_refines store op r changed store' :
  run_join store op = Ok (r, changed, store') ->
  execution_effect join_creates join_moves store r changed store' /\
  (store_valid store -> store_valid store').
Proof.
  intros H%run_join_effect. split; [exact H|]. intros Hs. exact (effect_valid _ _ _ _ _ _ Hs H).
Qed.
End properties.
