(* ===== verification/RemuxExecution.v ===== *)
(** * Disc remux executions

    [internal/casestore/remux_execution.go], [dvd_execution.go] and
    [remux_import_execution.go]: preparing the remux of a Blu-ray playlist or a
    DVD title, recording the staged and verified file and its publication, and
    the import of the published file. Both discs share one record type; the
    version tells them apart. *)
From stdpp Require Import base strings list gmap.
From S2P Require Import Prelude GoStrings FileIdentity Probe Media Radarr WorkerContracts Decisions.
From S2P Require Import ManualImportPolicy JoinPolicy DiscPolicy JoinVerification RemuxVerification.
From S2P Require Import ExecutionRecords ExecutionStore JoinExecution.

(** [workerclient.BlurayRemuxExchange] and [DVDRemuxExchange]. *)
Record BlurayRemuxExchange := mkBlurayExchange
  { bx_Request : BlurayRemuxRequestV1; bx_Response : BlurayRemuxResponseV1 }.
Record DVDRemuxExchange := mkDVDExchange
  { dx_Request : DVDRemuxRequestV1; dx_Response : DVDRemuxResponseV1 }.

(** Copies of the record with another state and other evidence. *)
Definition remux_with (r : RemuxExecution) (state : RemuxExecutionState)
    (stageRequest : option BlurayRemuxRequestV1) (dvdStageRequest : option DVDRemuxRequestV1)
    (artifact : option Artifact) (published : option PublishedArtifact)
    (failure : option ExecutionFailure) (import : option JoinImport)
    (confirmation : option RadarrImportConfirmation) : RemuxExecution :=
  mkRemuxExecution (rx_Version r) (rx_ExecutionID r) (rx_Authorization r) (rx_DVDAuthorization r)
    state (rx_PreparedAt r) (rx_UpdatedAt r) stageRequest dvdStageRequest artifact published failure
    import confirmation.

Definition remux_with_state (r : RemuxExecution) (state : RemuxExecutionState) : RemuxExecution :=
  remux_with r state (rx_StageRequest r) (rx_DVDStageRequest r) (rx_Artifact r) (rx_Published r)
    (rx_Failure r) (rx_Import r) (rx_Confirmation r).
Definition remux_with_failure (r : RemuxExecution) (failure : ExecutionFailure) : RemuxExecution :=
  remux_with r RemuxFailed (rx_StageRequest r) (rx_DVDStageRequest r) (rx_Artifact r)
    (rx_Published r) (Some failure) (rx_Import r) (rx_Confirmation r).
Definition remux_with_artifact (r : RemuxExecution) (artifact : Artifact) : RemuxExecution :=
  remux_with r RemuxStaged (rx_StageRequest r) (rx_DVDStageRequest r) (Some artifact)
    (rx_Published r) (rx_Failure r) (rx_Import r) (rx_Confirmation r).
Definition remux_with_published (r : RemuxExecution) (published : PublishedArtifact)
    : RemuxExecution :=
  remux_with r RemuxPublished (rx_StageRequest r) (rx_DVDStageRequest r) (rx_Artifact r)
    (Some published) (rx_Failure r) (rx_Import r) (rx_Confirmation r).
Definition remux_with_import (r : RemuxExecution) (state : RemuxExecutionState) (import : JoinImport)
    (confirmation : option RadarrImportConfirmation) : RemuxExecution :=
  remux_with r state (rx_StageRequest r) (rx_DVDStageRequest r) (rx_Artifact r) (rx_Published r)
    (rx_Failure r) (Some import) confirmation.

(** The record that remembers its stage request. *)
Definition remux_with_request (r : RemuxExecution) (request : BlurayRemuxRequestV1)
    : RemuxExecution :=
  remux_with r (rx_State r) (Some request) (rx_DVDStageRequest r) (rx_Artifact r) (rx_Published r)
    (rx_Failure r) (rx_Import r) (rx_Confirmation r).
Definition remux_with_dvd_request (r : RemuxExecution) (request : DVDRemuxRequestV1)
    : RemuxExecution :=
  remux_with r (rx_State r) (rx_StageRequest r) (Some request) (rx_Artifact r) (rx_Published r)
    (rx_Failure r) (rx_Import r) (rx_Confirmation r).

(** ** The update closures *)

Definition remux_staged (exchange : BlurayRemuxExchange) (previous : RemuxExecution)
    : result (RemuxExecution * bool) :=
  _ ← fail_if (negb (bool_decide (rx_State previous = RemuxPrepared)) ||
               negb (remuxStageMatches previous (bx_Request exchange)) ||
               negb (bool_decide (stage_RequestID (bx_Response exchange) =
                                  br_RequestID (bx_Request exchange))))
        "staged Blu-ray remux does not match authorization";
  let next := remux_with_request previous (bx_Request exchange) in
  match r_Failure (bx_Response exchange) with
  | Some failure =>
      mret (remux_with_failure next (mkExecutionFailure StageBlurayRemuxV1 (fr_Reason failure)), true)
  | None =>
      match r_Success (bx_Response exchange) with
      | None => Err "staged remux has no result"
      | Some success =>
          _ ← ValidateRemuxOutput (ar_ExpectedDurationMS (rx_Authorization previous))
                (ar_ExpectedChapters (rx_Authorization previous))
                (ar_ExpectedTracks (rx_Authorization previous)) (ss_Evidence success);
          mret (remux_with_artifact next (staged_artifact success), true)
      end
  end.

Definition remux_published (response : BlurayPublishResponseV1) (previous : RemuxExecution)
    : result (RemuxExecution * bool) :=
  match rx_State previous, rx_Artifact previous, rx_StageRequest previous with
  | RemuxStaged, Some artifact, Some request =>
      match r_Failure response with
      | Some failure =>
          Ok (remux_with_failure previous
                (mkExecutionFailure PublishBlurayRemuxV1 (fr_Reason failure)), true)
      | None =>
          match r_Success response with
          | None => Err "published remux does not match staged artifact"
          | Some success =>
              _ ← fail_if (negb (bool_decide (pu_ArtifactID success = af_ID artifact)) ||
                           negb (bool_decide (pu_ArtifactFingerprint success =
                                              af_Fingerprint artifact)) ||
                           negb (bool_decide (pu_RootID success = br_RootID request)) ||
                           negb (remuxPublishedPathMatches request (af_ID artifact)
                                   (pu_PathComponents success)))
                    "published remux does not match staged artifact";
              mret (remux_with_published previous
                      (mkPublished (pu_RootID success) (pu_PathComponents success)), true)
          end
      end
  | _, _, _ => Err "remux is not ready to publish"
  end.

Definition dvd_staged (exchange : DVDRemuxExchange) (previous : RemuxExecution)
    : result (RemuxExecution * bool) :=
  _ ← fail_if (negb (bool_decide (rx_Version previous = DVDExecutionVersionV1)) ||
               negb (bool_decide (rx_State previous = RemuxPrepared)) ||
               negb (dvdStageMatches previous (dx_Request exchange)) ||
               negb (bool_decide (stage_RequestID (dx_Response exchange) =
                                  dr_RequestID (dx_Request exchange))))
        "staged DVD remux does not match authorization";
  let next := remux_with_dvd_request previous (dx_Request exchange) in
  match r_Failure (dx_Response exchange) with
  | Some failure =>
      mret (remux_with_failure next (mkExecutionFailure StageDVDRemuxV1 (fr_Reason failure)), true)
  | None =>
      match r_Success (dx_Response exchange) with
      | None => Err "staged DVD remux has no result"
      | Some success =>
          match rx_DVDAuthorization previous with
          | None => Err "panic"
          | Some authorized =>
              _ ← ValidateDVDOutput (ad_ExpectedDurationMS authorized) (ad_ExpectedChapters authorized)
                    (ad_ExpectedTracks authorized) (ss_Evidence success);
              mret (remux_with_artifact next (staged_artifact success), true)
          end
      end
  end.

Definition dvd_published (response : DVDPublishResponseV1) (previous : RemuxExecution)
    : result (RemuxExecution * bool) :=
  _ ← fail_if (negb (bool_decide (rx_Version previous = DVDExecutionVersionV1)))
        "DVD remux is not ready to publish";
  match rx_State previous, rx_Artifact previous, rx_DVDStageRequest previous with
  | RemuxStaged, Some artifact, Some request =>
      match r_Failure response with
      | Some failure =>
          mret (remux_with_failure previous
                  (mkExecutionFailure PublishDVDRemuxV1 (fr_Reason failure)), true)
      | None =>
          match r_Success response with
          | None => Err "published DVD remux does not match staged artifact"
          | Some success =>
              _ ← fail_if (negb (bool_decide (pu_ArtifactID success = af_ID artifact)) ||
                           negb (bool_decide (pu_ArtifactFingerprint success =
                                              af_Fingerprint artifact)) ||
                           negb (bool_decide (pu_RootID success = dr_RootID request)) ||
                           negb (dvdPublishedPathMatches request (af_ID artifact)
                                   (pu_PathComponents success)))
                    "published DVD remux does not match staged artifact";
              mret (remux_with_published previous
                      (mkPublished (pu_RootID success) (pu_PathComponents success)), true)
          end
      end
  | _, _, _ => Err "DVD remux is not ready to publish"
  end.

Definition remux_import_prepared (request : JoinImportRequest) (preparedAt : time)
    (previous : RemuxExecution) : result (RemuxExecution * bool) :=
  match rx_Import previous with
  | Some import =>
      if bool_decide (ji_Command import = jir_Command request) &&
         bool_decide (ji_HistoryIDBefore import = jir_HistoryIDBefore request)
      then Ok (previous, false) else Err "remux is bound to a different Radarr import"
  | None =>
      if negb (bool_decide (rx_State previous = RemuxPublished)) then Err "remux is not published"
      else Ok (remux_with_import previous RemuxImportPrepared
                 (mkJoinImport (jir_Command request) (jir_HistoryIDBefore request) (UTC preparedAt) None)
                 (rx_Confirmation previous), true)
  end.

Definition remux_import_requested (commandID : Z) (previous : RemuxExecution)
    : result (RemuxExecution * bool) :=
  match rx_State previous with
  | RemuxImportPrepared =>
      match rx_Import previous with
      | None => Err "panic"
      | Some import =>
          Ok (remux_with_import previous RemuxImportRequested (bound_to commandID import)
                (rx_Confirmation previous), true)
      end
  | RemuxImportRequested =>
      match rx_Import previous with
      | Some import =>
          if bool_decide (ji_CommandID import = Some commandID) then Ok (previous, false)
          else Err "remux import is bound to a different command"
      | None => Err "remux import is bound to a different command"
      end
  | _ => Err "remux import is not prepared"
  end.

Definition remux_imported (imported : RadarrImportedFile) (confirmation : RadarrImportConfirmation)
    (previous : RemuxExecution) : result (RemuxExecution * bool) :=
  match rx_Import previous with
  | None => Err "Radarr import does not confirm the remux"
  | Some import =>
      _ ← fail_if (negb (confirms (imp_MovieID imported) (imp_DownloadID imported)
                           (imp_DroppedPath imported) import) ||
                   bool_decide (ic_HistoryID confirmation <= ji_HistoryIDBefore import))
            "Radarr import does not confirm the remux";
      match rx_State previous with
      | RemuxImportPrepared | RemuxImportRequested =>
          mret (remux_with_import previous RemuxImported import (Some confirmation), true)
      | RemuxImported =>
          if bool_decide (rx_Confirmation previous = Some confirmation) then mret (previous, false)
          else Err "remux is bound to a different import"
      | _ => Err "remux import is not pending"
      end
  end.

Definition remux_import_failed (previous : RemuxExecution) : result (RemuxExecution * bool) :=
  match rx_State previous with
  | RemuxImportRequested => Ok (remux_with_state previous RemuxImportFailed, true)
  | RemuxImportFailed => Ok (previous, false)
  | _ => Err "remux import is not requested"
  end.

(** ** Operations *)
Section operations.
Context {P : Type} `{!PlanSource P}.

(** The stored case and decision authorize this remux; inlined in [PrepareRemux]. *)
Definition validate_remux_authorization (store : Store P) (authorized : AuthorizedRemux)
    : result unit :=
  planned ← GetExecutionPlan (st_plans store) (ar_CaseID authorized);
  match ValidateRemuxWithPolicy (pc_Assembly planned) (pc_Decision planned)
          (planned_RuntimePolicy planned) with
  | None => Err "panic"
  | Some validation =>
      fail_if (negb (disc_Accepted validation) ||
               negb (bool_decide (dv_Authorized validation = Some authorized)))
        "remux does not match stored case and decision"
  end.

(** The stored case and decision authorize this title; inlined in [PrepareDVD]. *)
Definition validate_dvd_authorization (store : Store P) (authorized : AuthorizedDVD) : result unit :=
  planned ← GetExecutionPlan (st_plans store) (ad_CaseID authorized);
  let validation := ValidateDVDWithPolicy (pc_Assembly planned) (pc_Decision planned)
                      (planned_RuntimePolicy planned) in
  fail_if (negb (disc_Accepted validation) ||
           negb (bool_decide (dv_Authorized validation = Some authorized)))
    "DVD remux does not match stored case and decision".

Definition GetRemuxExecution (store : Store P) (caseID : string) : result (option RemuxExecution) :=
  get_execution store caseID.

Definition PrepareRemux (store : Store P) (authorized : AuthorizedRemux) (preparedAt : time)
    : result (RemuxExecution * bool * Store P) :=
  _ ← fail_if (IsZero preparedAt) "remux preparation time is required";
  executionID ← RemuxExecutionID authorized;
  digest ← caseDigest (ar_CaseID authorized);
  _ ← validate_remux_authorization store authorized;
  found ← read_execution store digest;
  match found with
  | Some previous =>
      if negb (bool_decide (rx_ExecutionID previous = executionID)) ||
         negb (bool_decide (rx_Authorization previous = authorized))
      then Err "case is bound to a different remux"
      else mret (previous, false, store)
  | None =>
      let record := mkRemuxExecution RemuxExecutionVersionV1 executionID authorized None RemuxPrepared
        (UTC preparedAt) (UTC preparedAt) None None None None None None None in
      store' ← write_execution store digest record;
      mret (record, true, store')
  end.

Definition PrepareDVD (store : Store P) (authorized : AuthorizedDVD) (preparedAt : time)
    : result (RemuxExecution * bool * Store P) :=
  _ ← fail_if (IsZero preparedAt) "DVD preparation time is required";
  executionID ← DVDExecutionID authorized;
  digest ← caseDigest (ad_CaseID authorized);
  _ ← validate_dvd_authorization store authorized;
  found ← read_execution store digest;
  match found with
  | Some previous =>
      if negb (bool_decide (rx_Version previous = DVDExecutionVersionV1)) ||
         negb (bool_decide (rx_ExecutionID previous = executionID)) ||
         negb (bool_decide (rx_DVDAuthorization previous = Some authorized))
      then Err "case is bound to a different repair"
      else mret (previous, false, store)
  | None =>
      let record := mkRemuxExecution DVDExecutionVersionV1 executionID zero_AuthorizedRemux
        (Some authorized) RemuxPrepared (UTC preparedAt) (UTC preparedAt) None None None None None
        None None in
      store' ← write_execution store digest record;
      mret (record, true, store')
  end.

Definition updateRemuxExecution (store : Store P) (caseID : string) (updatedAt : time)
    (update : RemuxExecution -> result (RemuxExecution * bool))
    : result (RemuxExecution * bool * Store P) :=
  update_execution store caseID updatedAt update.

Definition RecordRemuxStage (store : Store P) (caseID : string) (exchange : BlurayRemuxExchange)
    (updatedAt : time) : result (RemuxExecution * bool * Store P) :=
  _ ← EncodeBlurayRemuxRequest (bx_Request exchange);
  _ ← EncodeBlurayRemuxResponse (bx_Response exchange);
  updateRemuxExecution store caseID updatedAt (remux_staged exchange).

Definition RecordRemuxPublish (store : Store P) (caseID : string) (response : BlurayPublishResponseV1)
    (updatedAt : time) : result (RemuxExecution * bool * Store P) :=
  _ ← EncodeBlurayPublishResponse response;
  updateRemuxExecution store caseID updatedAt (remux_published response).

Definition RecordDVDStage (store : Store P) (caseID : string) (exchange : DVDRemuxExchange)
    (updatedAt : time) : result (RemuxExecution * bool * Store P) :=
  _ ← EncodeDVDRemuxRequest (dx_Request exchange);
  _ ← EncodeDVDRemuxResponse (dx_Response exchange);
  updateRemuxExecution store caseID updatedAt (dvd_staged exchange).

Definition RecordDVDPublish (store : Store P) (caseID : string) (response : DVDPublishResponseV1)
    (updatedAt : time) : result (RemuxExecution * bool * Store P) :=
  _ ← EncodeDVDPublishResponse response;
  updateRemuxExecution store caseID updatedAt (dvd_published response).

Definition PrepareRemuxImport (store : Store P) (caseID : string) (request : JoinImportRequest)
    (preparedAt : time) : result (RemuxExecution * bool * Store P) :=
  _ ← validateJoinImportRequest store caseID request;
  updateRemuxExecution store caseID preparedAt (remux_import_prepared request preparedAt).

Definition MarkRemuxImportRequested (store : Store P) (caseID : string) (commandID : Z)
    (updatedAt : time) : result (RemuxExecution * bool * Store P) :=
  _ ← fail_if (bool_decide (commandID <= 0)) "Radarr command ID must be positive";
  updateRemuxExecution store caseID updatedAt (remux_import_requested commandID).

Definition MarkRemuxImported (store : Store P) (caseID : string) (imported : RadarrImportedFile)
    (updatedAt : time) : result (RemuxExecution * bool * Store P) :=
  let confirmation := radarrImportConfirmation imported in
  _ ← validateRadarrImportConfirmation confirmation;
  updateRemuxExecution store caseID updatedAt (remux_imported imported confirmation).

Definition MarkRemuxImportFailed (store : Store P) (caseID : string) (updatedAt : time)
    : result (RemuxExecution * bool * Store P) :=
  updateRemuxExecution store caseID updatedAt remux_import_failed.
End operations.

(** ** The protocol of a disc remux *)
Section protocol.
Context {P : Type} `{!PlanSource P}.

(** A record is created for a remux that the stored case and decision
    authorize, and only when the case has no execution. *)
Definition remux_creates (store : Store P) (before : option RemuxExecution) (r : RemuxExecution)
    : Prop :=
  before = None /\ rx_State r = RemuxPrepared /\
  match rx_DVDAuthorization r with
  | None => rx_Version r = RemuxExecutionVersionV1 /\
            validate_remux_authorization store (rx_Authorization r) = Ok tt
  | Some authorized => rx_Version r = DVDExecutionVersionV1 /\
                       validate_dvd_authorization store authorized = Ok tt
  end.

(** What no move changes. *)
Definition remux_identity (r : RemuxExecution) :=
  (rx_Version r, rx_ExecutionID r, rx_Authorization r, rx_DVDAuthorization r, rx_PreparedAt r).

(** A verified staging of the prepared remux: the request is the authorized
    one, the response answers it, and the probed file has the duration,
    chapters and tracks of the playlist or title. *)
Inductive disc_staged (r r' : RemuxExecution) : StageSuccessV1 -> Prop :=
| disc_staged_bluray exchange success :
    remuxStageMatches r (bx_Request exchange) = true ->
    stage_RequestID (bx_Response exchange) = br_RequestID (bx_Request exchange) ->
    r_Success (bx_Response exchange) = Some success ->
    ValidateRemuxOutput (ar_ExpectedDurationMS (rx_Authorization r))
      (ar_ExpectedChapters (rx_Authorization r)) (ar_ExpectedTracks (rx_Authorization r))
      (ss_Evidence success) = Ok tt ->
    rx_StageRequest r' = Some (bx_Request exchange) -> rx_DVDStageRequest r' = rx_DVDStageRequest r ->
    disc_staged r r' success
| disc_staged_dvd authorized exchange success :
    rx_DVDAuthorization r = Some authorized ->
    dvdStageMatches r (dx_Request exchange) = true ->
    stage_RequestID (dx_Response exchange) = dr_RequestID (dx_Request exchange) ->
    r_Success (dx_Response exchange) = Some success ->
    ValidateDVDOutput (ad_ExpectedDurationMS authorized) (ad_ExpectedChapters authorized)
      (ad_ExpectedTracks authorized) (ss_Evidence success) = Ok tt ->
    rx_DVDStageRequest r' = Some (dx_Request exchange) -> rx_StageRequest r' = rx_StageRequest r ->
    disc_staged r r' success.

(** The staged result stays as it was recorded. *)
Definition remux_kept (r r' : RemuxExecution) : Prop :=
  rx_StageRequest r' = rx_StageRequest r /\ rx_DVDStageRequest r' = rx_DVDStageRequest r /\
  rx_Artifact r' = rx_Artifact r.

(** The moves of the protocol. *)
Inductive remux_step (store : Store P) (r r' : RemuxExecution) : Prop :=
| remux_step_staged success :
    rx_State r = RemuxPrepared -> rx_State r' = RemuxStaged -> disc_staged r r' success ->
    rx_Artifact r' = Some (staged_artifact success) -> remux_step store r r'
| remux_step_stage_failed failure :
    rx_State r = RemuxPrepared -> rx_State r' = RemuxFailed -> rx_Artifact r' = rx_Artifact r ->
    rx_Failure r' = Some failure -> remux_step store r r'
| remux_step_publish artifact success :
    rx_State r = RemuxStaged -> rx_State r' = RemuxPublished -> remux_kept r r' ->
    rx_Artifact r = Some artifact -> pu_ArtifactID success = af_ID artifact ->
    pu_ArtifactFingerprint success = af_Fingerprint artifact ->
    rx_Published r' = Some (mkPublished (pu_RootID success) (pu_PathComponents success)) ->
    remux_step store r r'
| remux_step_publish_failed failure :
    rx_State r = RemuxStaged -> rx_State r' = RemuxFailed -> remux_kept r r' ->
    rx_Failure r' = Some failure -> remux_step store r r'
| remux_step_import request t :
    rx_State r = RemuxPublished -> rx_State r' = RemuxImportPrepared -> remux_kept r r' ->
    validateJoinImportRequest store (remux_CaseID r) request = Ok tt ->
    rx_Import r' = Some (mkJoinImport (jir_Command request) (jir_HistoryIDBefore request) t None) ->
    remux_step store r r'
| remux_step_request import commandID :
    rx_State r = RemuxImportPrepared -> rx_State r' = RemuxImportRequested -> remux_kept r r' ->
    rx_Import r = Some import -> 0 < commandID -> rx_Import r' = Some (bound_to commandID import) ->
    remux_step store r r'
| remux_step_imported import confirmation :
    rx_State r = RemuxImportPrepared \/ rx_State r = RemuxImportRequested ->
    rx_State r' = RemuxImported -> remux_kept r r' -> rx_Import r = Some import ->
    rx_Import r' = Some import -> rx_Confirmation r' = Some confirmation ->
    confirms (ic_MovieID confirmation) (ic_DownloadID confirmation) (ic_DroppedPath confirmation)
      import = true ->
    ji_HistoryIDBefore import < ic_HistoryID confirmation -> remux_step store r r'
| remux_step_import_failed :
    rx_State r = RemuxImportRequested -> rx_State r' = RemuxImportFailed -> remux_kept r r' ->
    rx_Import r' = rx_Import r -> remux_step store r r'.

Definition remux_moves (store : Store P) (r r' : RemuxExecution) : Prop :=
  remux_identity r' = remux_identity r /\ remux_step store r r'.

(** The operations as a command language. *)
Inductive remux_op :=
| OpPrepareRemux (authorized : AuthorizedRemux) (at_ : time)
| OpPrepareDVD (authorized : AuthorizedDVD) (at_ : time)
| OpRemuxStage (caseID : string) (exchange : BlurayRemuxExchange) (at_ : time)
| OpDVDStage (caseID : string) (exchange : DVDRemuxExchange) (at_ : time)
| OpRemuxPublish (caseID : string) (response : BlurayPublishResponseV1) (at_ : time)
| OpDVDPublish (caseID : string) (response : DVDPublishResponseV1) (at_ : time)
| OpPrepareRemuxImport (caseID : string) (request : JoinImportRequest) (at_ : time)
| OpRemuxImportRequested (caseID : string) (commandID : Z) (at_ : time)
| OpRemuxImported (caseID : string) (imported : RadarrImportedFile) (at_ : time)
| OpRemuxImportFailed (caseID : string) (at_ : time).

Definition run_remux (store : Store P) (op : remux_op) : result (RemuxExecution * bool * Store P) :=
  match op with
  | OpPrepareRemux authorized t => PrepareRemux store authorized t
  | OpPrepareDVD authorized t => PrepareDVD store authorized t
  | OpRemuxStage caseID exchange t => RecordRemuxStage store caseID exchange t
  | OpDVDStage caseID exchange t => RecordDVDStage store caseID exchange t
  | OpRemuxPublish caseID response t => RecordRemuxPublish store caseID response t
  | OpDVDPublish caseID response t => RecordDVDPublish store caseID response t
  | OpPrepareRemuxImport caseID request t => PrepareRemuxImport store caseID request t
  | OpRemuxImportRequested caseID commandID t => MarkRemuxImportRequested store caseID commandID t
  | OpRemuxImported caseID imported t => MarkRemuxImported store caseID imported t
  | OpRemuxImportFailed caseID t => MarkRemuxImportFailed store caseID t
  end.
End protocol.

(** ** Lemmas *)
Section properties.
Context {P : Type} `{!PlanSource P}.
Implicit Types store : Store P.

(** A valid record of a well-shaped Blu-ray authorization is not a DVD's. *)
Lemma valid_bluray_case r u :
  validateDiscExecution r = Ok tt -> validateRemuxAuthorizationShape (rx_Authorization r) = Ok u ->
  remux_CaseID r = ar_CaseID (rx_Authorization r).
Proof.
  unfold validateDiscExecution, remux_CaseID. intros Hv Hshape.
  destruct (bool_decide (rx_Version r = DVDExecutionVersionV1)).
  - exfalso. unfold validateDVDExecution in Hv. destruct (rx_DVDAuthorization r); [|done].
    apply bind_Ok in Hv as ([] & Hz & _). apply fail_if_Ok, orb_false_iff in Hz as [_ Hz].
    apply negb_false_iff, bool_decide_eq_true in Hz. by rewrite Hz in Hshape.
  - unfold validateRemuxExecution in Hv. apply bind_Ok in Hv as (_ & _ & Hv).
    apply bind_Ok in Hv as ([] & Hn & _). apply fail_if_Ok, negb_false_iff in Hn.
    by destruct (rx_DVDAuthorization r).
Qed.

Lemma PrepareRemux_effect store authorized t r changed store' :
  PrepareRemux store authorized t = Ok (r, changed, store') ->
  execution_effect remux_creates remux_moves store r changed store'.
Proof.
  unfold PrepareRemux. intros H.
  apply bind_Ok in H as (_ & _ & H). apply bind_Ok in H as (executionID & He & H).
  apply bind_Ok in H as (digest & Hd & H). apply bind_Ok in H as ([] & Ha & H).
  apply bind_Ok in H as ([previous|] & Hr & H).
  - destruct (_ || _)%bool eqn:Hc; [discriminate H|]. inv_ok H.
    apply orb_false_iff in Hc as [_ Hc]. apply negb_false_iff, bool_decide_eq_true in Hc. subst.
    apply (effect_none _ _ _ _ (ar_CaseID (rx_Authorization r))). unfold get_execution.
    rewrite Hd. simpl. rewrite Hr. simpl. apply read_execution_Some in Hr as [_ Hv].
    apply bind_Ok in He as (u & Hshape & _).
    rewrite bool_decide_true; [done|]. by eapply valid_bluray_case.
  - apply bind_Ok in H as (written & Hw & H). inv_ok H. apply (effect_create _ _ _ None); [done|].
    apply write_execution_Ok in Hw as (? & ? & ?). apply read_execution_None in Hr.
    exists digest. by split_and!.
Qed.

Lemma PrepareDVD_effect store authorized t r changed store' :
  PrepareDVD store authorized t = Ok (r, changed, store') ->
  execution_effect remux_creates remux_moves store r changed store'.
Proof.
  unfold PrepareDVD. intros H.
  apply bind_Ok in H as (_ & _ & H). apply bind_Ok in H as (executionID & _ & H).
  apply bind_Ok in H as (digest & Hd & H). apply bind_Ok in H as ([] & Ha & H).
  apply bind_Ok in H as ([previous|] & Hr & H).
  - destruct (_ || _)%bool eqn:Hc; [discriminate H|]. inv_ok H. split_bool.
    apply (effect_none _ _ _ _ (ad_CaseID authorized)). unfold get_execution.
    rewrite Hd. simpl. rewrite Hr. simpl. rewrite bool_decide_true; [done|].
    unfold remux_CaseID. match goal with H : rx_DVDAuthorization r = _ |- _ => by rewrite H end.
  - apply bind_Ok in H as (written & Hw & H). inv_ok H. apply (effect_create _ _ _ None); [done|].
    apply write_execution_Ok in Hw as (? & ? & ?). apply read_execution_None in Hr.
    exists digest. by split_and!.
Qed.

Lemma remux_staged_moves store exchange previous next u :
  remux_staged exchange previous = Ok (next, true) ->
  remux_identity next = remux_identity previous /\ remux_step store previous (set_UpdatedAt u next).
Proof.
  unfold remux_staged. cbv zeta. intros H. apply bind_Ok in H as ([] & Hg & H).
  apply fail_if_Ok in Hg. split_bool. destruct (r_Failure (bx_Response exchange)) as [f|].
  - inv_ok H. split; [done|]. by eapply remux_step_stage_failed.
  - destruct (r_Success (bx_Response exchange)) as [success|] eqn:Hs; [|done].
    apply bind_Ok in H as ([] & Ho & H). inv_ok H. split; [done|].
    apply (remux_step_staged _ _ _ success); try done.
    by apply (disc_staged_bluray _ _ exchange success).
Qed.

Lemma dvd_staged_moves store exchange previous next u :
  dvd_staged exchange previous = Ok (next, true) ->
  remux_identity next = remux_identity previous /\ remux_step store previous (set_UpdatedAt u next).
Proof.
  unfold dvd_staged. cbv zeta. intros H. apply bind_Ok in H as ([] & Hg & H).
  apply fail_if_Ok in Hg. split_bool. destruct (r_Failure (dx_Response exchange)) as [f|].
  - inv_ok H. split; [done|]. by eapply remux_step_stage_failed.
  - destruct (r_Success (dx_Response exchange)) as [success|] eqn:Hs; [|done].
    destruct (rx_DVDAuthorization previous) as [authorized|] eqn:Ha; [|done].
    apply bind_Ok in H as ([] & Ho & H). inv_ok H. split; [done|].
    apply (remux_step_staged _ _ _ success); try done.
    by apply (disc_staged_dvd _ _ authorized exchange success).
Qed.

Lemma remux_published_moves store response previous next u :
  remux_published response previous = Ok (next, true) ->
  remux_identity next = remux_identity previous /\ remux_step store previous (set_UpdatedAt u next).
Proof.
  unfold remux_published. intros H. destruct (rx_State previous) eqn:Hst; try done.
  destruct (rx_Artifact previous) as [a|] eqn:Ha; [|done].
  destruct (rx_StageRequest previous) as [request|]; [|done].
  destruct (r_Failure response) as [f|].
  - inv_ok H. split; [done|]. by eapply remux_step_publish_failed.
  - destruct (r_Success response) as [success|]; [|done]. apply bind_Ok in H as ([] & Hg & H).
    apply fail_if_Ok in Hg. inv_ok H. split_bool. split; [done|]. by eapply remux_step_publish.
Qed.

Lemma dvd_published_moves store response previous next u :
  dvd_published response previous = Ok (next, true) ->
  remux_identity next = remux_identity previous /\ remux_step store previous (set_UpdatedAt u next).
Proof.
  unfold dvd_published. intros H. apply bind_Ok in H as (_ & _ & H).
  destruct (rx_State previous) eqn:Hst; try done.
  destruct (rx_Artifact previous) as [a|] eqn:Ha; [|done].
  destruct (rx_DVDStageRequest previous) as [request|]; [|done].
  destruct (r_Failure response) as [f|].
  - inv_ok H. split; [done|]. by eapply remux_step_publish_failed.
  - destruct (r_Success response) as [success|]; [|done]. apply bind_Ok in H as ([] & Hg & H).
    apply fail_if_Ok in Hg. inv_ok H. split_bool. split; [done|]. by eapply remux_step_publish.
Qed.

Lemma remux_import_prepared_moves store request t previous next u :
  validateJoinImportRequest store (remux_CaseID previous) request = Ok tt ->
  remux_import_prepared request t previous = Ok (next, true) ->
  remux_identity next = remux_identity previous /\ remux_step store previous (set_UpdatedAt u next).
Proof.
  unfold remux_import_prepared. intros Hv H.
  destruct (rx_Import previous); [by destruct (_ && _)%bool|].
  destruct (decide (rx_State previous = RemuxPublished)) as [Hs|Hs];
    [rewrite (bool_decide_true _ Hs) in H|by rewrite (bool_decide_false _ Hs) in H].
  inv_ok H. split; [done|]. by eapply remux_step_import.
Qed.

Lemma remux_import_requested_moves store commandID previous next u :
  0 < commandID -> remux_import_requested commandID previous = Ok (next, true) ->
  remux_identity next = remux_identity previous /\ remux_step store previous (set_UpdatedAt u next).
Proof.
  unfold remux_import_requested. intros Hpos H. destruct (rx_State previous) eqn:Hs; try done;
    (destruct (rx_Import previous) eqn:Hi; [|done]).
  - inv_ok H. split; [done|]. by eapply remux_step_request.
  - by destruct (bool_decide _).
Qed.

Lemma remux_imported_moves store imported previous next u :
  remux_imported imported (radarrImportConfirmation imported) previous = Ok (next, true) ->
  remux_identity next = remux_identity previous /\ remux_step store previous (set_UpdatedAt u next).
Proof.
  unfold remux_imported. intros H. destruct (rx_Import previous) as [import|] eqn:Hi; [|done].
  apply bind_Ok in H as ([] & Hc & H). apply fail_if_Ok in Hc. split_bool.
  destruct (rx_State previous) eqn:Hs; try done; [| |by destruct (bool_decide _)];
    inv_ok H; (split; [done|]);
    eapply (remux_step_imported _ _ _ import); eauto; simpl in *; try done; lia.
Qed.

Lemma remux_import_failed_moves store previous next u :
  remux_import_failed previous = Ok (next, true) ->
  remux_identity next = remux_identity previous /\ remux_step store previous (set_UpdatedAt u next).
Proof.
  unfold remux_import_failed. intros H. destruct (rx_State previous) eqn:Hs; try done.
  inv_ok H. split; [done|]. by eapply remux_step_import_failed.
Qed.

(** Reporting no change means returning the record as it was. *)
Lemma remux_update_same update previous next :
  (exists exchange, update = remux_staged exchange) \/ (exists exchange, update = dvd_staged exchange) \/
  (exists response, update = remux_published response) \/
  (exists response, update = dvd_published response) \/
  (exists request t, update = remux_import_prepared request t) \/
  (exists commandID, update = remux_import_requested commandID) \/
  (exists imported confirmation, update = remux_imported imported confirmation) \/
  update = remux_import_failed ->
  update previous = Ok (next, false) -> next = previous.
Proof.
  intros [[? ->]|[[? ->]|[[? ->]|[[? ->]|[(? & ? & ->)|[[? ->]|[(? & ? & ->)| ->]]]]]]] H;
    unfold remux_staged, dvd_staged, remux_published, dvd_published, remux_import_prepared,
      remux_import_requested, remux_imported, remux_import_failed in H;
    repeat first
      [ discriminate H | inv_ok H; reflexivity | apply bind_Ok in H as (_ & _ & H)
      | match type of H with context [match ?x with _ => _ end] =>
          lazymatch x with context [match _ with _ => _ end] => fail | _ => destruct x end end ].
Qed.

Lemma remux_update_effect store caseID t update r changed store' :
  updateRemuxExecution store caseID t update = Ok (r, changed, store') ->
  (forall previous next u, remux_CaseID previous = caseID -> update previous = Ok (next, true) ->
     remux_identity next = remux_identity previous /\
     remux_step store previous (set_UpdatedAt u next)) ->
  (forall previous next, update previous = Ok (next, false) -> next = previous) ->
  execution_effect remux_creates remux_moves store r changed store'.
Proof.
  intros H Hm Hs. eapply update_effect; [exact H| |exact Hs].
  intros previous next u _ Hc Hu. destruct (Hm _ _ u Hc Hu) as [Hid Hstep].
  split; [|split; [exact Hid|exact Hstep]]. unfold remux_identity in Hid. simpl. unfold remux_CaseID.
  injection Hid as _ _ -> -> _. reflexivity.
Qed.

#[local] Ltac remux_same :=
  intros ? ? ?; eapply remux_update_same; [|eassumption]; eauto 12.

Lemma run_remux_effect store op r changed store' :
  run_remux store op = Ok (r, changed, store') ->
  execution_effect remux_creates remux_moves store r changed store'.
Proof.
  destruct op as [a t|a t|caseID exchange t|caseID exchange t|caseID response t|caseID response t|
    caseID request t|caseID commandID t|caseID imported t|caseID t]; simpl.
  - apply PrepareRemux_effect.
  - apply PrepareDVD_effect.
  - unfold RecordRemuxStage. intros H. do 2 apply bind_Ok in H as (_ & _ & H).
    eapply remux_update_effect; [exact H|intros ? ? ? ? ?|remux_same].
    by eapply remux_staged_moves.
  - unfold RecordDVDStage. intros H. do 2 apply bind_Ok in H as (_ & _ & H).
    eapply remux_update_effect; [exact H|intros ? ? ? ? ?|remux_same].
    by eapply dvd_staged_moves.
  - unfold RecordRemuxPublish. intros H. apply bind_Ok in H as (_ & _ & H).
    eapply remux_update_effect; [exact H|intros ? ? ? ? ?|remux_same].
    by eapply remux_published_moves.
  - unfold RecordDVDPublish. intros H. apply bind_Ok in H as (_ & _ & H).
    eapply remux_update_effect; [exact H|intros ? ? ? ? ?|remux_same].
    by eapply dvd_published_moves.
  - unfold PrepareRemuxImport. intros H. apply bind_Ok in H as ([] & Hv & H).
    eapply remux_update_effect; [exact H|intros ? ? ? ? ?|remux_same].
    eapply remux_import_prepared_moves; [|eassumption]. by subst.
  - unfold MarkRemuxImportRequested. intros H. apply bind_Ok in H as ([] & Hp & H).
    apply fail_if_Ok in Hp. split_bool.
    eapply remux_update_effect; [exact H|intros ? ? ? ? ?|remux_same].
    eapply remux_import_requested_moves; [|eassumption]. lia.
  - unfold MarkRemuxImported. cbv zeta. intros H. apply bind_Ok in H as (_ & _ & H).
    eapply remux_update_effect; [exact H|intros ? ? ? ? ?|remux_same].
    by eapply remux_imported_moves.
  - intros H. eapply remux_update_effect; [exact H|intros ? ? ? ? ?|remux_same].
    by eapply remux_import_failed_moves.
Qed.

(** Every successful operation on a disc remux refines the protocol: it changes
    nothing, creates a record the policy authorized, or makes one move of the
    protocol; and it keeps the directory valid. *)
Theorem run_remux_refines store op r changed store' :
  run_remux store op = Ok (r, changed, store') ->
  execution_effect remux_creates remux_moves store r changed store' /\
  (store_valid store -> store_valid store').
Proof.
  intros H%run_remux_effect. split; [exact H|]. intros Hs. exact (effect_valid _ _ _ _ _ _ Hs H).
Qed.
End properties.
