(* ===== verification/ExecutionProtocol.v ===== *)
(** * The executions of a store over time

    Every operation of [internal/casestore] on the executions directory as a
    step, together with the steps of other code that store a new observation,
    decision or plan of a case. The theorems hold of every store that such
    steps reach from one without executions, in any order and with any
    arguments. *)
From stdpp Require Import base strings list gmap.
From S2P Require Import Prelude GoStrings FileIdentity Probe Media Radarr WorkerContracts Decisions.
From S2P Require Import ManualImportPolicy JoinPolicy DiscPolicy JoinVerification RemuxVerification.
From S2P Require Import ExecutionRecords ExecutionStore ManualExecution JoinExecution RemuxExecution.

Section protocol.
Context {P : Type} `{!PlanSource P}.

(** One call, or a change of the stored cases, decisions and plans. *)
Inductive execution_step (store : Store P) : Store P -> Prop :=
| step_manual op r changed store' :
    run_manual store op = Ok (r, changed, store') -> execution_step store store'
| step_join op r changed store' :
    run_join store op = Ok (r, changed, store') -> execution_step store store'
| step_remux op r changed store' :
    run_remux store op = Ok (r, changed, store') -> execution_step store store'
| step_plans plans : execution_step store (mkStore plans (st_executions store)).

(** The stores that can arise, with the plans that were current on the way. *)
Inductive reachable : list P -> Store P -> Prop :=
| reachable_new plans : reachable [plans] (mkStore plans ∅)
| reachable_step seen store store' :
    reachable seen store -> execution_step store store' ->
    reachable (st_plans store' :: seen) store'.

(** ** What an execution file remembers *)

(** The repair a file is about: its kind and its authorization. *)
Definition same_repair (file file' : execution_file) : Prop :=
  match file, file' with
  | ManualFile r, ManualFile r' => manual_identity r' = manual_identity r
  | JoinFile r, JoinFile r' => jx_Authorization r' = jx_Authorization r
  | RemuxFile r, RemuxFile r' => remux_identity r' = remux_identity r
  | _, _ => False
  end.

(** The state of a repair that ended. A join that an older version discarded
    is the only one that may start again. *)
Definition ended (file : execution_file) : bool :=
  match file with
  | ManualFile r =>
      match mx_State r with ManualImportImported | ManualImportFailed => true | _ => false end
  | JoinFile r =>
      match jx_State r with
      | JoinFailed | JoinImported | JoinImportFailed => true
      | JoinDiscarded => bool_decide (jx_ExecutionID r = JoinExecutionID (jx_Authorization r))
      | _ => false
      end
  | RemuxFile r =>
      match rx_State r with
      | RemuxFailed | RemuxImported | RemuxImportFailed => true | _ => false
      end
  end.

(** A policy accepted the authorization against plans that were current. *)
Definition was_authorized (seen : list P) (file : execution_file) : Prop :=
  exists plans, plans ∈ seen /\
  match file with
  | ManualFile r => exists authorized, sameManualImport r authorized = true /\
      validateManualImportAuthorization (mkStore plans ∅) authorized = Ok tt
  | JoinFile r => validateJoinAuthorization (mkStore plans ∅) (jx_Authorization r) = Ok tt
  | RemuxFile r =>
      match rx_DVDAuthorization r with
      | None => validate_remux_authorization (mkStore plans ∅) (rx_Authorization r) = Ok tt
      | Some authorized => validate_dvd_authorization (mkStore plans ∅) authorized = Ok tt
      end
  end.

(** A staged join was verified: the worker's answer to the authorized request
    passed the output checks, and the artifact on record is the one it names. *)
Definition join_verified (r : JoinExecution) : Prop :=
  exists request response success, join_exchange r request response /\
    r_Success response = Some success /\
    staged_Accepted (ValidateStagedJoin (jx_Authorization r) request response) = true /\
    jx_Artifact r = Some (staged_artifact success).

(** The states of a join whose artifact may leave the worker's staging area. *)
Definition join_released (state : JoinExecutionState) : bool :=
  match state with
  | JoinArtifactReady | JoinPublished | JoinImportPrepared | JoinImportRequested | JoinImported
  | JoinImportFailed => true
  | _ => false
  end.

(** The same for a disc: the request on record is the one that was staged. *)
Definition disc_verified (r : RemuxExecution) : Prop :=
  exists success, disc_staged r r success /\ rx_Artifact r = Some (staged_artifact success).

Definition disc_released (state : RemuxExecutionState) : bool :=
  match state with
  | RemuxStaged | RemuxPublished | RemuxImportPrepared | RemuxImportRequested | RemuxImported
  | RemuxImportFailed => true
  | _ => false
  end.

(** The confirmation of an import, by a history entry newer than the request. *)
Definition import_confirmed (import : option JoinImport)
    (confirmation : option RadarrImportConfirmation) : Prop :=
  exists i c, import = Some i /\ confirmation = Some c /\
    confirms (ic_MovieID c) (ic_DownloadID c) (ic_DroppedPath c) i = true /\
    ji_HistoryIDBefore i < ic_HistoryID c.

Definition evidence_kept (file : execution_file) : Prop :=
  match file with
  | ManualFile r => True
  | JoinFile r => join_released (jx_State r) = true -> join_verified r
  | RemuxFile r =>
      (disc_released (rx_State r) = true -> disc_verified r) /\
      (rx_State r = RemuxImported -> import_confirmed (rx_Import r) (rx_Confirmation r))
  end.

(** The relation of a step to one file of the directory. *)
Definition file_effect (store : Store P) (before : option execution_file) (after : execution_file)
    : Prop :=
  match after with
  | ManualFile r' =>
      before = None /\ manual_creates store None r' \/
      exists r, before = Some (ManualFile r) /\ manual_moves store r r'
  | JoinFile r' =>
      before = None /\ join_creates store None r' \/
      exists r, before = Some (JoinFile r) /\ (join_creates store (Some r) r' \/ join_moves store r r')
  | RemuxFile r' =>
      before = None /\ remux_creates store None r' \/
      exists r, before = Some (RemuxFile r) /\ remux_moves store r r'
  end.
End protocol.

(** ** Lemmas *)
Section properties.
Context {P : Type} `{!PlanSource P}.
Implicit Types store : Store P.

(** The outcome of a step: the directory is as before or one file is written. *)
Definition directory_effect store store' : Prop :=
  st_executions store' = st_executions store \/
  exists digest after,
    st_executions store' = <[digest := after]> (st_executions store) /\
    valid_file digest after /\ file_effect store (st_executions store !! digest) after.

Lemma writes_directory {R} `{!ExecutionKind R} `{!LawfulKind R} store store' caseID before (after : R) :
  writes store store' caseID before after ->
  exists digest, st_executions store' = <[digest := to_file after]> (st_executions store) /\
    valid_file digest (to_file after) /\ st_executions store !! digest = to_file <$> before.
Proof.
  intros (digest & Hd & Hb & _ & Hw & Hv & Hc). exists digest. split_and!; try done.
  apply valid_to_file. by rewrite Hc.
Qed.

Lemma execution_step_directory store store' :
  execution_step store store' -> directory_effect store store'.
Proof.
  intros [op r0 ch s0 H|op r0 ch s0 H|op r0 ch s0 H|plans]; [..|by left].
  - apply run_manual_effect in H as [r c|before r s Hcr Hw|r r' s _ Hm _ Hw]; [by left|..].
    + destruct Hcr as [-> Hcr]. apply writes_directory in Hw as (d & ? & ? & Hd). right. exists d, (ManualFile r).
      split_and!; try done. left. split; [done|]. by split.
    + apply writes_directory in Hw as (d & ? & ? & Hd). right. exists d, (ManualFile r').
      split_and!; try done. right. by exists r.
  - apply run_join_effect in H as [r c|before r s Hcr Hw|r r' s _ Hm _ Hw]; [by left|..].
    + apply writes_directory in Hw as (d & ? & ? & Hd). right. exists d, (JoinFile r).
      split_and!; try done. destruct before as [old|]; [right; exists old; auto|by left].
    + apply writes_directory in Hw as (d & ? & ? & Hd). right. exists d, (JoinFile r').
      split_and!; try done. right. exists r. auto.
  - apply run_remux_effect in H as [r c|before r s Hcr Hw|r r' s _ Hm _ Hw]; [by left|..].
    + destruct Hcr as [-> Hcr]. apply writes_directory in Hw as (d & ? & ? & Hd). right. exists d, (RemuxFile r).
      split_and!; try done. left. split; [done|]. by split.
    + apply writes_directory in Hw as (d & ? & ? & Hd). right. exists d, (RemuxFile r').
      split_and!; try done. right. by exists r.
Qed.

(** *** One file *)

Lemma file_effect_same_repair store file after :
  file_effect store (Some file) after -> same_repair file after.
Proof.
  destruct after as [r'|r'|r']; simpl.
  - intros [[? _]|(r & [= ->] & Hid & _)]; done.
  - intros [[? _]|(r & [= ->] & [(_ & _ & _ & Hold)|[Hid _]])]; [done|by destruct Hold as [? _]|].
    unfold join_identity in Hid. by injection Hid.
  - intros [[? _]|(r & [= ->] & Hid & _)]; done.
Qed.

Lemma file_effect_ended store file after :
  file_effect store (Some file) after -> ended file = false.
Proof.
  destruct after as [r'|r'|r']; simpl.
  - intros [[? _]|(r & [= ->] & _ & Hstep)]; [done|]. simpl.
    destruct Hstep as [? Hs|? ? [Hs|Hs]|[Hs|Hs]]; by rewrite Hs.
  - intros [[? _]|(r & [= ->] & [(_ & _ & Hn & Hold)|[_ Hstep]])]; [done|..]; simpl.
    + destruct Hold as (Ha & Hs & Hne). rewrite Hs, Ha, <-Hn. by apply bool_decide_false.
    + destruct Hstep; repeat match goal with
        | H : _ \/ _ |- _ => destruct H | H : jx_State r = _ |- _ => rewrite H end; done.
  - intros [[? _]|(r & [= ->] & _ & Hstep)]; [done|]. simpl.
    destruct Hstep; repeat match goal with
        | H : _ \/ _ |- _ => destruct H | H : rx_State r = _ |- _ => rewrite H end; done.
Qed.

Lemma join_moves_evidence store r r' :
  join_moves store r r' -> evidence_kept (JoinFile r) -> evidence_kept (JoinFile r').
Proof.
  intros [Hid Hstep] Hr Hrel. unfold join_identity in Hid. injection Hid as _ He Ha _.
  assert (forall request response, join_exchange r request response ->
    join_exchange r' request response) as Hx.
  { intros request response. unfold join_exchange. rewrite He, Ha. exact (fun H => H). }
  assert (join_released (jx_State r) = true -> join_kept r r' -> join_verified r') as Hkept.
  { intros Hs [_ Hk]. destruct (Hr Hs) as (request & response & success & ? & ? & ? & ?).
    exists request, response, success. rewrite Ha, Hk. auto. }
  destruct Hstep as [request response success Hs Hs'|? ? ? Hs Hs'|? ? ? Hs Hs'|? ? Hs Hs'|? Hs Hs'|
    ? ? Hs Hs'|? Hs Hs'|? ? Hs Hs'|? ? Hs Hs'|? ? [Hs|Hs] Hs'|Hs Hs'];
    rewrite Hs' in Hrel; try discriminate Hrel; rewrite Hs in Hkept; auto.
  exists request, response, success. rewrite Ha. auto.
Qed.

Lemma disc_staged_identity r r' s success :
  remux_identity r' = remux_identity r -> rx_StageRequest s = rx_StageRequest r' ->
  rx_DVDStageRequest s = rx_DVDStageRequest r' -> disc_staged r s success -> disc_staged r' r' success.
Proof.
  intros Hid Hq Hdq Hst. unfold remux_identity in Hid. injection Hid as _ He Ha Hd _.
  destruct Hst as [exchange success Hm ? ? Ho Hq'|authorized exchange success Hda Hm ? ? Ho Hq'].
  - apply (disc_staged_bluray _ _ exchange); try congruence.
    unfold remuxStageMatches in *. by rewrite He, Ha.
  - apply (disc_staged_dvd _ _ authorized exchange); try congruence.
    unfold dvdStageMatches in *. by rewrite He, Hd.
Qed.

Lemma remux_moves_evidence store r r' :
  remux_moves store r r' -> evidence_kept (RemuxFile r) -> evidence_kept (RemuxFile r').
Proof.
  intros [Hid Hstep] [Hr _].
  assert (disc_released (rx_State r) = true -> remux_kept r r' -> disc_verified r') as Hkept.
  { intros Hs (Hq & Hdq & Hk). destruct (Hr Hs) as (success & Hst & Hart). exists success.
    rewrite Hk. split; [|done]. by eapply disc_staged_identity. }
  split.
  - intros Hrel. destruct Hstep as [success Hs Hs' Hst Hart|? Hs Hs'|? ? Hs Hs'|? Hs Hs'|? ? Hs Hs'|
      ? ? Hs Hs'|? ? [Hs|Hs] Hs'|Hs Hs'];
      rewrite Hs' in Hrel; try discriminate Hrel; rewrite Hs in Hkept; auto.
    exists success. split; [|done]. by eapply disc_staged_identity.
  - intros Himp. destruct Hstep; try congruence. eexists _, _. by split_and!.
Qed.

Lemma file_effect_evidence store before after :
  file_effect store before after -> (forall file, before = Some file -> evidence_kept file) ->
  evidence_kept after.
Proof.
  destruct after as [r'|r'|r']; simpl; [done|..].
  - intros [[_ (_ & Hs & _)]|(r & -> & [(_ & Hs & _)|Hm])] Hb; [by rewrite Hs..|].
    eapply join_moves_evidence; [exact Hm|]. by apply Hb.
  - intros [[_ (_ & Hs & _)]|(r & -> & Hm)] Hb; [by rewrite Hs|].
    eapply remux_moves_evidence; [exact Hm|]. by apply Hb.
Qed.

Lemma was_authorized_more seen plans file :
  was_authorized seen file -> was_authorized (plans :: seen) file.
Proof. intros (p & Hp & H). exists p. split; [by apply elem_of_cons; right|exact H]. Qed.

Lemma was_authorized_same seen file file' :
  same_repair file file' -> was_authorized seen file -> was_authorized seen file'.
Proof.
  intros Hs (p & Hp & H). exists p. split; [exact Hp|].
  destruct file as [r|r|r], file' as [r'|r'|r']; try done; simpl in Hs.
  - destruct H as (authorized & Hsame & H). exists authorized. split; [|exact H].
    unfold manual_identity in Hs. injection Hs as _ H1 H2 H3 H4 _ _.
    unfold sameManualImport in *. by rewrite H1, H2, H3, H4.
  - by rewrite Hs.
  - unfold remux_identity in Hs. injection Hs as _ _ -> -> _. exact H.
Qed.

Lemma file_effect_authorized seen store before after :
  st_plans store ∈ seen -> file_effect store before after ->
  (forall file, before = Some file -> was_authorized seen file) -> was_authorized seen after.
Proof.
  intros Hp He Hb. destruct before as [file|].
  { eapply was_authorized_same; [by eapply file_effect_same_repair|by apply Hb]. }
  exists (st_plans store). split; [exact Hp|]. destruct after as [r|r|r]; simpl in He.
  - destruct He as [(_ & _ & _ & authorized & H & ?)|(? & ? & _)]; [|done]. by exists authorized.
  - by destruct He as [(_ & H & _)|(? & ? & _)].
  - destruct He as [(_ & _ & _ & H)|(? & ? & _)]; [|done].
    by destruct (rx_DVDAuthorization r); destruct H as [_ H].
Qed.

(** *** The directory *)

Lemma reachable_plans seen store : reachable seen store -> st_plans store ∈ seen.
Proof. intros []; [by apply list_elem_of_singleton|apply elem_of_cons; by left]. Qed.

(** What holds of new files when it holds of the old ones holds of every file. *)
Lemma reachable_files (Q : list P -> string -> execution_file -> Prop) seen store :
  (forall seen plans digest file, Q seen digest file -> Q (plans :: seen) digest file) ->
  (forall seen store digest after, st_plans store ∈ seen -> valid_file digest after ->
     file_effect store (st_executions store !! digest) after ->
     (forall file, st_executions store !! digest = Some file -> Q seen digest file) ->
     Q seen digest after) ->
  reachable seen store ->
  forall digest file, st_executions store !! digest = Some file -> Q seen digest file.
Proof.
  intros Hmore Hnew. induction 1 as [plans|seen store store' Hr IH Hstep]; intros digest file; [done|].
  destruct (execution_step_directory _ _ Hstep) as [->|(d & after & -> & Hv & He)]; [auto|].
  destruct (decide (d = digest)) as [->|Hne].
  - rewrite lookup_insert_eq. intros [= <-]. apply Hmore. eapply Hnew; [|done..|apply IH].
    by apply reachable_plans.
  - rewrite lookup_insert_ne by done. auto.
Qed.

Lemma step_files store store' digest file :
  execution_step store store' -> st_executions store !! digest = Some file ->
  exists file', st_executions store' !! digest = Some file' /\
    (file' = file \/ file_effect store (Some file) file').
Proof.
  intros Hstep Hf.
  destruct (execution_step_directory _ _ Hstep) as [->|(d & after & -> & Hv & He)]; [eauto|].
  destruct (decide (d = digest)) as [->|Hne].
  - rewrite lookup_insert_eq. rewrite Hf in He. eauto.
  - rewrite lookup_insert_ne by done. eauto.
Qed.

(** C9. Every file of a reachable store is valid for the case its name stands for:
    no operation writes a record its own reader would refuse. *)
Theorem reachable_valid seen store : reachable seen store -> store_valid store.
Proof.
  intros Hr digest file. revert digest file.
  by apply (reachable_files (fun _ => valid_file) seen).
Qed.

(** C6. Whatever the order of operations, every execution on record was accepted by
    the decision policy of its kind, against the case, decision and plan that
    were stored when it was prepared. *)
Theorem reachable_authorized seen store digest file :
  reachable seen store -> st_executions store !! digest = Some file -> was_authorized seen file.
Proof.
  intros Hr. revert digest file. apply (reachable_files (fun seen _ => was_authorized seen)); [..|done].
  - intros ? ? _ ?. apply was_authorized_more.
  - intros ? ? ? ? ? _ ? ?. by eapply file_effect_authorized.
Qed.

(** C4. A join whose artifact is ready, published or imported, and a disc remux
    that is staged or later, has on record the artifact of a worker exchange
    that passed verification; an imported disc remux is confirmed by a newer
    history entry for the imported file. *)
Theorem reachable_evidence seen store digest file :
  reachable seen store -> st_executions store !! digest = Some file -> evidence_kept file.
Proof.
  intros Hr. revert digest file. apply (reachable_files (fun _ _ => evidence_kept) seen); [done| |done].
  intros ? ? ? ? _ _. apply file_effect_evidence.
Qed.

(** An execution is never dropped and never becomes an execution of another
    kind or authorization. *)
Theorem step_keeps_repair store store' digest file :
  execution_step store store' -> st_executions store !! digest = Some file ->
  exists file', st_executions store' !! digest = Some file' /\ same_repair file file'.
Proof.
  intros Hstep Hf. destruct (step_files _ _ _ _ Hstep Hf) as (file' & Hf' & [->|He]).
  - exists file. split; [done|]. by destruct file.
  - exists file'. split; [done|]. by eapply file_effect_same_repair.
Qed.

(** C10. An ended repair stays exactly as it was recorded, whatever happens next. *)
Theorem ended_final store store' digest file :
  rtc execution_step store store' -> st_executions store !! digest = Some file ->
  ended file = true -> st_executions store' !! digest = Some file.
Proof.
  induction 1 as [|s1 s2 s3 Hstep _ IH]; [done|]. intros Hf He. apply IH; [|done].
  destruct (step_files _ _ _ _ Hstep Hf) as (file' & Hf' & [->|Heff]); [done|].
  apply file_effect_ended in Heff. congruence.
Qed.
End properties.
