(* ===== verification/ExecutionProgress.v ===== *)
(** * Operations that must succeed

    The operations of [internal/casestore] that record what has happened
    outside succeed whenever the stored execution allows them: the record they
    build always passes the validation in front of the write. *)
From stdpp Require Import base strings list gmap.
From S2P Require Import Prelude GoStrings FileIdentity Probe Media Radarr WorkerContracts Decisions.
From S2P Require Import ManualImportPolicy JoinPolicy DiscPolicy JoinVerification RemuxVerification.
From S2P Require Import ExecutionRecords ExecutionStore ManualExecution JoinExecution.

(** A time at which an execution may be updated: set, not before the last
    update, and one that JSON can represent. *)
Definition update_time (last t : time) : Prop :=
  IsZero t = false /\ t_ns last <= t_ns t /\ json_time (UTC t) = true.

Section generic.
Context {P : Type} {R : Type} `{!ExecutionKind R} `{!LawfulKind R}.
Implicit Types store : Store P.

Lemma get_execution_digest store caseID (r : R) :
  get_execution store caseID = Ok (Some r) ->
  exists digest, caseDigest caseID = Ok digest /\ read_execution store digest = Ok (Some r) /\
    record_CaseID r = caseID.
Proof.
  unfold get_execution. intros H. apply bind_Ok in H as (digest & Hd & H).
  apply bind_Ok in H as ([r'|] & Hr & H); [|done]. apply bind_Ok in H as ([] & Hc & H).
  apply fail_if_Ok in Hc. inv_ok H. split_bool. eauto.
Qed.

(** The record of a case in a store that keeps its invariant encodes. *)
Lemma get_execution_encodes store caseID (r : R) :
  store_valid store -> get_execution store caseID = Ok (Some r) -> encode_record r = Ok r.
Proof.
  intros Hs (digest & _ & Hr & _)%get_execution_digest. apply read_execution_Some in Hr as [Hf _].
  by apply Hs, valid_to_file in Hf as [? _].
Qed.

Lemma update_progress store caseID t update (previous next : R) :
  get_execution store caseID = Ok (Some previous) -> IsZero t = false ->
  t_ns (record_UpdatedAt previous) <= t_ns t -> update previous = Ok (next, true) ->
  encode_record (set_UpdatedAt (UTC t) next) = Ok (set_UpdatedAt (UTC t) next) ->
  exists digest, caseDigest caseID = Ok digest /\
    update_execution store caseID t update =
    Ok (set_UpdatedAt (UTC t) next, true,
        mkStore (st_plans store) (<[digest := to_file (set_UpdatedAt (UTC t) next)]>
          (st_executions store))).
Proof.
  intros (digest & Hd & Hr & Hc)%get_execution_digest Hz Ht Hu He. exists digest. split; [done|].
  unfold update_execution. rewrite Hz. simpl. rewrite Hd. simpl. rewrite Hr. simpl.
  rewrite (bool_decide_true _ Hc). simpl. unfold Before. rewrite bool_decide_false by lia. simpl.
  rewrite Hu. simpl. unfold write_execution. by rewrite He.
Qed.

(** What an operation wrote is what the next one reads. *)
Lemma writes_get store store' caseID before (after : R) :
  writes store store' caseID before after -> get_execution store' caseID = Ok (Some after).
Proof.
  intros (digest & Hd & _ & _ & Hw & He & Hc). unfold get_execution. rewrite Hd. simpl.
  assert (read_execution store' digest = Ok (Some after)) as ->.
  { apply read_execution_Some. rewrite Hw, lookup_insert_eq. split; [done|]. by apply encode_valid in He as [_ ?]. }
  simpl. by rewrite (bool_decide_true _ Hc).
Qed.

End generic.

(** ** Manual imports *)

Lemma EncodeManual_spec r :
  EncodeManualImportExecution r = Ok r <->
  validateManualImportExecution r = Ok tt /\ json_time (mx_PreparedAt r) = true /\
  json_time (mx_UpdatedAt r) = true /\
  (forall c, mx_Confirmation r = Some c -> json_time (ic_OccurredAt c) = true).
Proof.
  unfold EncodeManualImportExecution, marshal_times. split.
  - intros H. apply bind_Ok in H as ([] & Hv & H). apply bind_Ok in H as ([] & Hm & _).
    apply fail_if_Ok, negb_false_iff in Hm. simpl in Hm. split_bool. split_and!; try done.
    intros c Hc. rewrite Hc in *. simpl in *. by split_bool.
  - intros (-> & Hp & Hu & Hc). simpl. rewrite Hp, Hu. simpl.
    destruct (mx_Confirmation r) as [c|]; [|done]. simpl. by rewrite (Hc c).
Qed.

Lemma valid_manual_update r state commandID t :
  validateManualImportExecution r = Ok tt -> mx_State r = ManualImportPrepared \/
    mx_State r = ManualImportRequested ->
  IsZero t = false -> t_ns (mx_UpdatedAt r) <= t_ns t ->
  match state with
  | ManualImportRequested => exists id, commandID = Some id /\ 0 < id
  | ManualImportFailed => commandID = mx_CommandID r
  | _ => False
  end ->
  validateManualImportExecution (set_UpdatedAt (UTC t) (manual_with r state commandID None)) = Ok tt.
Proof.
  intros Hv Hs Hz Ht Hc.
  assert (bad_command (mx_CommandID r) = false) as Hbad.
  { unfold validateManualImportExecution in Hv. do 4 apply bind_Ok in Hv as (? & _ & Hv).
    destruct Hs as [Hs|Hs]; rewrite Hs in Hv.
    - apply fail_if_Ok, negb_false_iff in Hv. by destruct (mx_CommandID r), (mx_Confirmation r).
    - destruct (mx_CommandID r) as [id|]; [|done]. apply bind_Ok in Hv as ([] & Hb & _).
      by apply fail_if_Ok in Hb. }
  unfold validateManualImportExecution in *.
  apply bind_Ok in Hv as ([] & Hver & Hv). apply bind_Ok in Hv as (digest & Hd & Hv).
  apply bind_Ok in Hv as ([] & Hi & Hv). apply bind_Ok in Hv as ([] & Hti & _). simpl.
  rewrite Hver. simpl. rewrite Hd. simpl. rewrite Hi. simpl.
  apply fail_if_Ok, orb_false_iff in Hti as [Hti Hb]. apply orb_false_iff in Hti as [Hp _].
  unfold Before in *. split_bool. rewrite Hp, IsZero_UTC, Hz. simpl.
  rewrite bool_decide_false by lia. simpl.
  destruct state; try done.
  - destruct Hc as (id & -> & Hpos). rewrite bool_decide_false by lia. done.
  - by rewrite Hc, Hbad.
Qed.

Section manual.
Context {P : Type} `{!PlanSource P}.
Implicit Types store : Store P.

Lemma manual_update_progress store r state commandID t update :
  store_valid store -> get_execution store (mx_CaseID r) = Ok (Some r) ->
  mx_State r = ManualImportPrepared \/ mx_State r = ManualImportRequested ->
  update_time (mx_UpdatedAt r) t ->
  match state with
  | ManualImportRequested => exists id, commandID = Some id /\ 0 < id
  | ManualImportFailed => commandID = mx_CommandID r
  | _ => False
  end ->
  update r = Ok (manual_with r state commandID None, true) ->
  exists store', updateManualImportExecution store (mx_CaseID r) t update =
    Ok (set_UpdatedAt (UTC t) (manual_with r state commandID None), true, store').
Proof.
  intros Hs Hg Hst (Hz & Ht & Hj) Hc Hu.
  pose proof (get_execution_encodes _ _ _ Hs Hg) as (Hv & Hp & _ & _)%EncodeManual_spec.
  destruct (update_progress store (mx_CaseID r) t update r (manual_with r state commandID None))
    as (digest & _ & H); [done..| |by eexists].
  apply EncodeManual_spec. split_and!; [by apply valid_manual_update|done..].
Qed.

(** A prepared manual import can always be bound to a command, and a prepared
    or requested one can always be marked failed, at any later time. *)
Theorem manual_import_progress store r t :
  store_valid store -> get_execution store (mx_CaseID r) = Ok (Some r) ->
  update_time (mx_UpdatedAt r) t ->
  (mx_State r = ManualImportPrepared -> forall commandID, 0 < commandID ->
   exists store', MarkManualImportRequested store (mx_CaseID r) commandID t =
     Ok (set_UpdatedAt (UTC t) (manual_with r ManualImportRequested (Some commandID) None), true,
         store')) /\
  (mx_State r = ManualImportPrepared \/ mx_State r = ManualImportRequested ->
   exists store', MarkManualImportFailed store (mx_CaseID r) t =
     Ok (set_UpdatedAt (UTC t) (manual_with r ManualImportFailed (mx_CommandID r) None), true,
         store')).
Proof.
  intros Hs Hg Ht. pose proof (get_execution_valid _ _ _ Hg) as [Hv _]. split.
  - intros Hst id Hpos. unfold MarkManualImportRequested. rewrite bool_decide_false by lia.
    apply manual_update_progress; try done; [by left|by exists id|].
    unfold manual_requested. by rewrite Hst, unconfirmed by auto.
  - intros Hst. apply manual_update_progress; try done.
    unfold manual_failed. rewrite unconfirmed by done. by destruct Hst as [-> | ->].
Qed.
End manual.

(** ** Joins *)

Lemma EncodeJoin_spec r :
  EncodeJoinExecution r = Ok r <->
  validateJoinExecution r = Ok tt /\ json_time (jx_PreparedAt r) = true /\
  json_time (jx_UpdatedAt r) = true /\
  (forall i, jx_Import r = Some i -> json_time (ji_PreparedAt i) = true) /\
  (forall c, jx_Confirmation r = Some c -> json_time (ic_OccurredAt c) = true).
Proof.
  unfold EncodeJoinExecution, marshal_times. split.
  - intros H. apply bind_Ok in H as ([] & Hv & H). apply bind_Ok in H as ([] & Hm & _).
    apply fail_if_Ok, negb_false_iff in Hm. simpl in Hm. split_bool.
    match goal with H : forallb _ (_ ++ _) = true |- _ => rewrite forallb_app in H end. split_bool.
    split_and!; [done..| |].
    + intros i Hi. rewrite Hi in *. simpl in *. by split_bool.
    + intros c Hc. rewrite Hc in *. simpl in *. by split_bool.
  - intros (-> & Hp & Hu & Hi & Hc). simpl. rewrite Hp, Hu. simpl. rewrite forallb_app.
    destruct (jx_Import r) as [i|], (jx_Confirmation r) as [c|]; simpl;
      rewrite ?(Hi i), ?(Hc c) by done; done.
Qed.

(** The verification of an exchange that belongs to its authorization. *)
Lemma ValidateStagedJoin_exchange authorized request response success :
  is_ok (EncodeStageJoinRequest request) = true -> is_ok (EncodeStageJoinResponse response) = true ->
  requestMatchesAuthorization request authorized = true ->
  stage_RequestID response = sj_RequestID request -> r_Success response = Some success ->
  r_Kind response <> ProbeResponseFailed ->
  let rejections := ValidateOutput authorized (ss_Evidence success) (ss_SizeBytes success) in
  let validation := ValidateStagedJoin authorized request response in
  val_Rejections validation = rejections /\
  staged_Accepted validation = bool_decide (rejections = []) /\
  (rejections <> [] -> is_Some (val_Discard validation)).
Proof.
  intros Hq Hr Hm Hid Hs Hk. cbv zeta. unfold ValidateStagedJoin. cbv zeta.
  rewrite Hq, Hr, Hm, (bool_decide_true _ Hid), (bool_decide_false _ Hk), Hs. cbn [negb app val_Rejections].
  destruct (ValidateOutput _ _ _); (split_and!; [reflexivity|reflexivity|]); [done|].
  intros _. by eexists.
Qed.

Lemma ValidateOutput_reasons authorized evidence sizeBytes :
  Forall (fun reason => reason <> StageRequestNotAuthorized /\ reason <> StageResponseNotCorrelated)
    (ValidateOutput authorized evidence sizeBytes).
Proof.
  unfold ValidateOutput. cbv zeta.
  repeat apply Forall_app_2; repeat case_match; repeat constructor; try done.
Qed.

Lemma no_rejection validation reason :
  Forall (fun other => other <> reason) (val_Rejections validation) ->
  hasJoinRejection validation reason = false.
Proof.
  unfold hasJoinRejection. induction 1 as [|x l Hx _ IH]; [done|]. simpl.
  by rewrite (bool_decide_false _ Hx).
Qed.

(** The parts of the validation that every state of a join has in common. *)
Lemma valid_join_parts r :
  validateJoinExecution r = Ok tt -> jx_State r = JoinPrepared ->
  jx_Published r = None /\ jx_Import r = None /\ jx_Confirmation r = None /\ jx_Stage r = None.
Proof.
  unfold validateJoinExecution. cbv zeta. intros Hv Hs.
  do 5 apply bind_Ok in Hv as (? & _ & Hv). rewrite Hs in Hv.
  apply fail_if_Ok, negb_false_iff in Hv. split_bool.
  destruct (jx_Import r), (jx_Confirmation r); done.
Qed.

Lemma valid_join_staged r stage artifact t :
  validateJoinExecution r = Ok tt -> jx_State r = JoinPrepared -> IsZero t = false ->
  t_ns (jx_UpdatedAt r) <= t_ns t -> valid_artifact (Some artifact) = true ->
  validateJoinExecution (set_UpdatedAt (UTC t)
    (join_with r (if bool_decide (stg_Rejections stage = []) then JoinArtifactReady
                  else JoinDiscardPending) (Some stage) (Some artifact) None None None None)) = Ok tt.
Proof.
  intros Hv _ Hz Ht Ha. unfold validateJoinExecution in *. cbv zeta in *.
  apply bind_Ok in Hv as ([] & Hver & Hv). apply bind_Ok in Hv as (digest & Hd & Hv).
  apply bind_Ok in Hv as ([] & Hsh & Hv). apply bind_Ok in Hv as ([] & Hid & Hv).
  apply bind_Ok in Hv as ([] & Hti & _). cbn -[fail_if IsZero Before].
  rewrite Hver. cbn -[fail_if IsZero Before]. rewrite Hd. cbn -[fail_if IsZero Before].
  rewrite Hsh. cbn -[fail_if IsZero Before]. rewrite Hid. cbn -[fail_if IsZero Before].
  apply fail_if_Ok, orb_false_iff in Hti as [Hti Hb]. apply orb_false_iff in Hti as [Hp _].
  unfold Before in *. split_bool. rewrite Hp, IsZero_UTC, Hz. cbn [orb].
  rewrite (bool_decide_false (t_ns (UTC t) < _)) by (simpl; lia). cbn [fail_if].
  destruct (decide (stg_Rejections stage = [])) as [Hr|Hr];
    rewrite ?(bool_decide_true _ Hr), ?(bool_decide_false _ Hr); cbn -[valid_artifact];
    unfold validate_join_result, requireJoinBeforeImport, requireJoinArtifact; cbn -[valid_artifact];
    rewrite Ha; cbn.
  - rewrite Hr. reflexivity.
  - destruct (stg_Rejections stage); [done|reflexivity].
Qed.

Section join.
Context {P : Type} `{!PlanSource P}.
Implicit Types store : Store P.

Lemma stage_artifact_valid response success :
  is_ok (EncodeStageJoinResponse response) = true -> r_Success response = Some success ->
  r_Kind response <> ProbeResponseFailed /\ valid_artifact (Some (staged_artifact success)) = true.
Proof.
  intros Hr Hs. apply is_ok_true in Hr as [data Hr].
  apply encodeOperationResponse_Ok in Hr as [(Hk & _ & s & Hs' & Hv)|(_ & Hn & _)];
    [|rewrite Hn in Hs; discriminate Hs].
  rewrite Hs in Hs'. injection Hs' as <-. split; [rewrite Hk; discriminate|].
  apply join_response_stage, stage_success_facts in Hv as (_ & Hid & Hf & Hsize).
  unfold valid_artifact. simpl.
  by rewrite (bool_decide_false _ Hid), (bool_decide_false _ Hf), (bool_decide_true _ Hsize).
Qed.

(** C29. A worker's answer to the authorized request can always be recorded for a
    prepared join: a verified artifact becomes ready and a rejected one is
    kept for its discard. *)
Theorem RecordJoinStage_progress store r request response success t :
  store_valid store -> get_execution store (aj_CaseID (jx_Authorization r)) = Ok (Some r) ->
  jx_State r = JoinPrepared -> update_time (jx_UpdatedAt r) t ->
  join_exchange r request response -> r_Success response = Some success ->
  let rejections :=
    ValidateOutput (jx_Authorization r) (ss_Evidence success) (ss_SizeBytes success) in
  exists r' store', RecordJoinStage store (jx_Authorization r) request response t =
      Ok (r', true, store') /\
    jx_State r' = (if bool_decide (rejections = []) then JoinArtifactReady else JoinDiscardPending) /\
    jx_Stage r' = Some (mkJoinStage rejections) /\ jx_Artifact r' = Some (staged_artifact success).
Proof.
  intros Hs Hg Hst (Hz & Ht & Hj) (Hq & Hr & Hm & Hx & Hid) Hsuc. cbv zeta.
  destruct (stage_artifact_valid _ _ Hr Hsuc) as [Hk Hart].
  destruct (ValidateStagedJoin_exchange _ _ _ _ Hq Hr Hm Hid Hsuc Hk) as (Hrej & Hacc & Hdis).
  pose proof (get_execution_encodes _ _ _ Hs Hg) as (Hv & Hp & _ & _)%EncodeJoin_spec.
  destruct (valid_join_parts _ Hv Hst) as (Hpub & Himp & Hconf & Hstage).
  pose proof (ValidateOutput_reasons (jx_Authorization r) (ss_Evidence success) (ss_SizeBytes success))
    as Hreasons.
  pose proof (valid_join_staged r (mkJoinStage (ValidateOutput (jx_Authorization r)
    (ss_Evidence success) (ss_SizeBytes success))) (staged_artifact success) t Hv Hst Hz Ht Hart) as Hnext.
  apply is_ok_true in Hq as [d1 Hq]. apply is_ok_true in Hr as [d2 Hr].
  unfold RecordJoinStage. rewrite Hq. cbn [mbind result_bind]. rewrite Hr. cbn [mbind result_bind].
  cbv zeta. remember (ValidateStagedJoin _ _ _) as validation eqn:Hval. clear Hval.
  revert Hrej Hacc Hdis Hreasons Hnext.
  generalize (ValidateOutput (jx_Authorization r) (ss_Evidence success) (ss_SizeBytes success)).
  intros rejections Hrej Hacc Hdis Hreasons Hnext.
  rewrite !no_rejection by (rewrite Hrej; eapply Forall_impl; [exact Hreasons|by intros ? [? ?]]).
  cbn [orb fail_if mbind result_bind].
  set (state := if bool_decide (rejections = []) then JoinArtifactReady else JoinDiscardPending).
  assert (joinStageOutcome response validation =
    Ok (mkJoinOutcome state (mkJoinStage rejections) (Some (staged_artifact success)) None)) as ->.
  { unfold joinStageOutcome, joinRejectionReasons, state.
    rewrite (bool_decide_false _ Hk), Hsuc, Hacc, Hrej.
    destruct (decide (rejections = [])) as [Hn|Hn];
      rewrite ?(bool_decide_true _ Hn), ?(bool_decide_false _ Hn); [reflexivity|].
    destruct (Hdis Hn) as [reference Href]. rewrite Href. reflexivity. }
  cbn [mbind result_bind].
  set (next := join_with r state (Some (mkJoinStage rejections)) (Some (staged_artifact success))
                 None None None None).
  destruct (update_progress store (aj_CaseID (jx_Authorization r)) t
    (join_staged (jx_Authorization r) request
       (mkJoinOutcome state (mkJoinStage rejections) (Some (staged_artifact success)) None))
    r next Hg Hz Ht) as (digest & _ & Hupd).
  - unfold join_staged. rewrite (bool_decide_true (jx_Authorization r = jx_Authorization r)) by done.
    rewrite (bool_decide_true _ Hx). cbn [negb orb fail_if mbind result_bind].
    rewrite Hstage, (bool_decide_true _ Hst), Hpub, Himp, Hconf. reflexivity.
  - apply EncodeJoin_spec. split_and!; [exact Hnext|exact Hp|exact Hj|done..].
  - eexists _, _. split; [exact Hupd|]. by split_and!.
Qed.
End join.

(** ** Repeated calls *)

(** The same call at another time. *)
Definition join_op_at (t : time) (op : join_op) : join_op :=
  match op with
  | OpPrepareJoin authorized _ => OpPrepareJoin authorized t
  | OpJoinStage authorized request response _ => OpJoinStage authorized request response t
  | OpJoinPublish caseID response _ => OpJoinPublish caseID response t
  | OpJoinDiscard caseID response _ => OpJoinDiscard caseID response t
  | OpPrepareJoinImport caseID request _ => OpPrepareJoinImport caseID request t
  | OpJoinImportRequested caseID commandID _ => OpJoinImportRequested caseID commandID t
  | OpJoinImported caseID imported _ => OpJoinImported caseID imported t
  | OpJoinImportFailed caseID _ => OpJoinImportFailed caseID t
  end.

Section replay.
Context {P : Type} `{!PlanSource P}.
Implicit Types store : Store P.

(** A closure that accepts its own result without a change. *)
Definition repeatable (update : JoinExecution -> result (JoinExecution * bool)) : Prop :=
  forall previous next u, update previous = Ok (next, true) ->
    jx_Authorization next = jx_Authorization previous /\
    update (set_UpdatedAt u next) = Ok (set_UpdatedAt u next, false).

Lemma join_staged_repeatable authorized request outcome :
  repeatable (join_staged authorized request outcome).
Proof.
  intros previous next u H. unfold join_staged in H. apply bind_Ok in H as ([] & Hg & H).
  destruct (jx_Stage previous); [by destruct (_ && _ && _)%bool|].
  destruct (negb _) in H; [discriminate H|]. inv_ok H. split; [reflexivity|].
  unfold join_staged. cbn -[fail_if bool_decide]. rewrite Hg. cbn -[bool_decide].
  rewrite (bool_decide_true (jo_Stage outcome = _)), (bool_decide_true (jo_Artifact outcome = _)),
    (bool_decide_true (jo_Failure outcome = _)), orb_true_r by reflexivity. reflexivity.
Qed.

Lemma join_published_repeatable response :
  is_ok (EncodePublishResponse response) = true -> repeatable (join_published response).
Proof.
  intros Hr previous next u H. apply is_ok_true in Hr as [data Hr]. apply encodeOperationResponse_Ok in Hr.
  unfold join_published in H. destruct (bool_decide (jx_State previous = _)).
  { by destruct (_ && _)%bool. }
  destruct (repeatedJoinFailure _ _ _); [done|].
  destruct (jx_State previous); try discriminate H.
  destruct (jx_Artifact previous) as [a|] eqn:Ha; [|discriminate H].
  destruct Hr as [(Hk & _ & success & Hs & _)|(Hk & _ & failure & Hf & _)]; rewrite Hk in H; cbn in H.
  - destruct (publishedArtifactMatches a response) eqn:Hm; [|discriminate H]. cbn in H.
    rewrite Hs in H. inv_ok H. split; [reflexivity|].
    unfold join_published. cbn. rewrite Hk. cbn. unfold publishedResultMatches. cbn.
    rewrite ?Ha, Hs, Hm. cbn -[bool_decide]. by rewrite !bool_decide_true.
  - rewrite Hf in H. inv_ok H. split; [reflexivity|].
    unfold join_published, repeatedJoinFailure. cbn -[bool_decide]. rewrite Hf.
    rewrite (bool_decide_false (JoinFailed = _)) by done.
    rewrite (bool_decide_true (PublishV1 = _)), (bool_decide_true (fr_Reason failure = _)) by done.
    reflexivity.
Qed.

Lemma join_discarded_repeatable response :
  is_ok (EncodeDiscardResponse response) = true -> repeatable (join_discarded response).
Proof.
  intros Hr previous next u H. apply is_ok_true in Hr as [data Hr]. apply encodeOperationResponse_Ok in Hr.
  unfold join_discarded in H. destruct (bool_decide (jx_State previous = _)).
  { destruct (bool_decide _), (jx_Artifact previous); try done.
    by destruct (discardedArtifactMatches _ _). }
  destruct (repeatedJoinFailure _ _ _); [done|].
  destruct (jx_State previous); try discriminate H.
  destruct (jx_Artifact previous) as [a|] eqn:Ha; [|discriminate H].
  destruct Hr as [(Hk & _ & success & Hs & _)|(Hk & _ & failure & Hf & _)]; rewrite Hk in H; cbn in H.
  - destruct (discardedArtifactMatches a response) eqn:Hm; [|discriminate H]. inv_ok H.
    split; [reflexivity|]. unfold join_discarded. cbn. by rewrite Hk, ?Ha, Hm.
  - rewrite Hf in H. inv_ok H. split; [reflexivity|].
    unfold join_discarded, repeatedJoinFailure. cbn -[bool_decide]. rewrite Hf.
    rewrite (bool_decide_false (JoinFailed = _)) by done.
    rewrite (bool_decide_true (DiscardV1 = _)), (bool_decide_true (fr_Reason failure = _)) by done.
    reflexivity.
Qed.

Lemma join_import_repeatable update :
  (exists commandID, update = join_import_requested commandID) \/
  (exists imported confirmation, update = join_imported imported confirmation) \/
  update = join_import_failed -> repeatable update.
Proof.
  intros [[id ->]|[(imported & c & ->)| ->]] previous next u H.
  - unfold join_import_requested in H. destruct (jx_State previous); try discriminate H;
      (destruct (jx_Import previous) as [i|]; [|discriminate H]).
    + inv_ok H. split; [reflexivity|]. unfold join_import_requested. cbn -[bool_decide].
      by rewrite bool_decide_true.
    + by destruct (bool_decide _).
  - unfold join_imported in H. destruct (jx_Import previous) as [i|] eqn:Hi; [|discriminate H].
    apply bind_Ok in H as ([] & Hc & H).
    destruct (jx_State previous); try discriminate H; [| |by destruct (bool_decide _)];
      apply bind_Ok in H as (_ & _ & H); inv_ok H; (split; [reflexivity|]);
      unfold join_imported; cbn -[bool_decide fail_if]; rewrite Hc; cbn -[bool_decide];
      by rewrite bool_decide_true.
  - unfold join_import_failed in H. destruct (jx_State previous); try discriminate H.
    by inv_ok H.
Qed.

Lemma join_import_prepared_repeatable request t t' previous next u :
  join_import_prepared request t previous = Ok (next, true) ->
  jx_Authorization next = jx_Authorization previous /\
  join_import_prepared request t' (set_UpdatedAt u next) = Ok (set_UpdatedAt u next, false).
Proof.
  unfold join_import_prepared. intros H.
  destruct (jx_Import previous); [by destruct (sameJoinImportRequest _ _)|].
  destruct (negb _); [discriminate H|]. inv_ok H. split; [reflexivity|].
  cbn -[bool_decide sameJoinImportRequest]. unfold sameJoinImportRequest. cbn -[bool_decide].
  by rewrite bool_decide_true.
Qed.

(** The closure of a repeated call may depend on its time, as the one that
    prepares an import does. *)
Lemma join_update_replay store caseID t t' update update' r store' :
  updateJoinExecution store caseID t update = Ok (r, true, store') ->
  (forall previous next u, update previous = Ok (next, true) ->
     jx_Authorization next = jx_Authorization previous /\
     update' (set_UpdatedAt u next) = Ok (set_UpdatedAt u next, false)) ->
  IsZero t' = false -> t_ns (jx_UpdatedAt r) <= t_ns t' ->
  updateJoinExecution store' caseID t' update' = Ok (r, false, store').
Proof.
  intros (previous & next & _ & Hg & _ & Hu & -> & Hw)%update_execution_Ok Hrep Hz Ht.
  destruct (Hrep previous next (UTC t) Hu) as [Ha Hsame].
  destruct (get_execution_valid _ _ _ Hg) as [_ Hcase].
  assert (get_execution store' caseID = Ok (Some (set_UpdatedAt (UTC t) next)))
    as (digest & Hd & Hr & Hc')%get_execution_digest
    by (eapply writes_get, Hw; simpl in *; congruence).
  unfold updateJoinExecution, update_execution. rewrite Hz. simpl. rewrite Hd. simpl. rewrite Hr. simpl.
  simpl in Hc'. rewrite (bool_decide_true _ Hc'). simpl. unfold Before.
  rewrite bool_decide_false by (cbn in Ht |- *; lia). simpl. simpl in Hsame. by rewrite Hsame.
Qed.

Lemma PrepareJoin_replay store authorized t t' r store' :
  PrepareJoin store authorized t = Ok (r, true, store') -> IsZero t' = false ->
  PrepareJoin store' authorized t' = Ok (r, false, store').
Proof.
  unfold PrepareJoin. cbv zeta. intros H Hz.
  apply bind_Ok in H as (_ & _ & H). apply bind_Ok in H as (digest & Hd & H).
  apply bind_Ok in H as ([] & Ha & H). apply bind_Ok in H as (found & _ & H).
  set (record := mkJoinExecution _ _ _ _ (UTC t) _ _ _ _ _ _ _) in H.
  assert (r = record /\ write_execution store digest record = Ok store') as [-> Hw].
  { destruct found as [previous|].
    - destruct (negb (bool_decide (jx_Authorization _ = _))); [discriminate H|].
      destruct (negb (JoinExecutionNeedsRecheck _)); [discriminate H|].
      apply bind_Ok in H as (s & Hw & H). by inv_ok H.
    - apply bind_Ok in H as (s & Hw & H). by inv_ok H. }
  apply write_execution_Ok in Hw as (He & Hp & Hf).
  rewrite Hz. simpl. rewrite Hd. simpl.
  assert (validateJoinAuthorization store' authorized = Ok tt) as ->
    by (unfold validateJoinAuthorization in *; by rewrite Hp). simpl.
  assert (read_execution store' digest = Ok (Some record)) as ->.
  { apply read_execution_Some. rewrite Hf, lookup_insert_eq. split; [done|].
    by apply encode_valid in He as [_ ?]. }
  simpl. rewrite (bool_decide_true (authorized = authorized)) by done. reflexivity.
Qed.

(** C28. Every operation on a join can be repeated: the same call made again, at
    any later time, changes nothing and returns the record the first call
    returned. *)
Theorem run_join_replay store op r store' t :
  run_join store op = Ok (r, true, store') -> IsZero t = false ->
  t_ns (jx_UpdatedAt r) <= t_ns t ->
  run_join store' (join_op_at t op) = Ok (r, false, store').
Proof.
  intros H Hz Ht.
  assert (st_plans store' = st_plans store) as Hp
    by exact (effect_plans _ _ _ _ _ _ (run_join_effect _ _ _ _ _ H)).
  destruct op as [a t0|a request response t0|caseID response t0|caseID response t0|caseID request t0|
    caseID commandID t0|caseID imported t0|caseID t0]; simpl in *.
  - by eapply PrepareJoin_replay.
  - unfold RecordJoinStage in *. cbv zeta in *.
    apply bind_Ok in H as (d1 & -> & H). apply bind_Ok in H as (d2 & -> & H).
    apply bind_Ok in H as ([] & -> & H). apply bind_Ok in H as (outcome & -> & H).
    cbn [mbind result_bind]. eapply join_update_replay; [exact H|apply join_staged_repeatable|done..].
  - unfold RecordJoinPublish in *. apply bind_Ok in H as (d & He & H). rewrite He. cbn [mbind result_bind].
    eapply join_update_replay; [exact H|apply join_published_repeatable; by rewrite He|done..].
  - unfold RecordJoinDiscard in *. apply bind_Ok in H as (d & He & H). rewrite He. cbn [mbind result_bind].
    eapply join_update_replay; [exact H|apply join_discarded_repeatable; by rewrite He|done..].
  - unfold PrepareJoinImport in *. apply bind_Ok in H as ([] & Hv & H).
    assert (validateJoinImportRequest store' caseID request = Ok tt) as ->
      by (unfold validateJoinImportRequest in *; by rewrite Hp). cbn [mbind result_bind].
    eapply join_update_replay; [exact H|intros *; apply join_import_prepared_repeatable|done..].
  - unfold MarkJoinImportRequested in *. apply bind_Ok in H as ([] & -> & H). cbn [mbind result_bind].
    eapply join_update_replay; [exact H|apply join_import_repeatable; eauto|done..].
  - unfold MarkJoinImported in *. cbv zeta in *. apply bind_Ok in H as ([] & -> & H).
    cbn [mbind result_bind].
    eapply join_update_replay; [exact H|apply join_import_repeatable; eauto|done..].
  - eapply join_update_replay; [exact H|apply join_import_repeatable; eauto|done..].
Qed.
End replay.
