(* ===== verification/Jobs.v ===== *)
(** * The job database

    [internal/jobs]: one row per download that a service cannot import, one row
    per attempt at repairing it, and one row per planning result. gorm and
    SQLite are behind the interface [JobDatabase]: what a query returns and what
    a write leaves in the three tables. A [Transaction] that returns an error
    leaves the database as it was, so each operation is a function into
    [result]. Reads do not fail; a write may, for any reason. *)
From stdpp Require Import base strings list gmap sorting.
From coqutil Require Import Datatypes.RecordSetters.
From S2P Require Import Prelude.
Import DoubleBraceUpdate.

#[global] Arguments apply_update {_ _} _ _ : simpl never.

Module jobs.

(** ** Rows (store.go, planning_history.go) *)

Inductive Service := Radarr | Lidarr.

Inductive State :=
| Observed | Ready | Running | Importing | Imported | Blocked | Failed | Removed | Removing.

#[global] Instance Service_eq_dec : EqDecision Service.
Proof. solve_decision. Defined.
#[global] Instance State_eq_dec : EqDecision State.
Proof. solve_decision. Defined.

Definition Reconsider : string := "reconsider".
Definition Delete : string := "delete".

Record Job := mkJob
  { job_ID : Z; job_Service : Service; job_QueueID : Z; job_DownloadID : string;
    job_Title : string; job_SourceFingerprint : string; job_PlanningFingerprint : string;
    job_PreviousPlanningFingerprint : string; job_PlanningChange : string;
    job_StableSince : time; job_Evidence : string; job_CollectionError : string;
    job_Plan : string; job_Guidance : string; job_RuntimeToleranceMS : Z; job_RetryAt : time;
    job_PlanningAttempts : Z; job_PendingAction : string; job_Revision : Z; job_InQueue : bool;
    job_State : State; job_Reason : string; job_UpdatedAt : time }.

Record Attempt := mkAttempt
  { att_JobID : Z; att_Number : Z; att_State : State; att_Plan : string; att_OutputPath : string;
    att_ImportRequest : string; att_HistoryIDBefore : Z; att_CommandID : Z;
    att_ImportStartedAt : time; att_ImportTerminalAt : time; att_ImportReceipt : string;
    att_Reason : string; att_StartedAt : time; att_UpdatedAt : time }.

Record PlanningResult := mkPlanningResult
  { pr_JobID : Z; pr_Fingerprint : string; pr_Revision : Z; pr_Complete : bool; pr_Attempts : Z;
    pr_RetryAt : time; pr_Reason : string; pr_Plan : string }.

#[global] Instance Job_eq_dec : EqDecision Job.
Proof. solve_decision. Defined.
#[global] Instance Attempt_eq_dec : EqDecision Attempt.
Proof. solve_decision. Defined.

Definition zero_time : time := mkTime 0 None.

Definition ErrConflict : error :=
  "job changed or operation is not valid in its current state".
Definition ErrRecordNotFound : error := "record not found".

Definition active (state : State) : bool :=
  match state with Running | Importing | Removing => true | _ => false end.

(** ** The database *)

(** Two fields of a job are not columns. *)
Definition stored (job : Job) : Job :=
  job {{ job_PreviousPlanningFingerprint := ""; job_PlanningChange := "" }}.

(** The rows, by primary key. *)
Record Tables := mkTables
  { tb_jobs : gmap Z Job; tb_attempts : gmap (Z * Z) Attempt;
    tb_results : gmap (Z * string * Z) PlanningResult }.

Definition attempt_key (attempt : Attempt) : Z * Z := (att_JobID attempt, att_Number attempt).
Definition result_key (r : PlanningResult) : Z * string * Z :=
  (pr_JobID r, pr_Fingerprint r, pr_Revision r).

Definition put_job (job : Job) (t : Tables) : Tables :=
  mkTables (<[job_ID job := stored job]> (tb_jobs t)) (tb_attempts t) (tb_results t).
Definition put_attempt (attempt : Attempt) (t : Tables) : Tables :=
  mkTables (tb_jobs t) (<[attempt_key attempt := attempt]> (tb_attempts t)) (tb_results t).
Definition put_planning (r : PlanningResult) (t : Tables) : Tables :=
  mkTables (tb_jobs t) (tb_attempts t) (<[result_key r := r]> (tb_results t)).

(** What gorm on SQLite provides: rows carry their primary key, generated job
    identifiers are new and positive, [Find] returns the rows that satisfy its
    condition, and a successful write changes the row it names. *)
Class JobDatabase (DB : Type) :=
  { tables : DB -> Tables;
    find_jobs : DB -> Service -> list Job;
    find_attempts : DB -> Z -> list Attempt;
    create_job : DB -> Job -> result (Z * DB);
    save_job : DB -> Job -> result DB;
    create_attempt : DB -> Attempt -> result DB;
    save_attempt : DB -> Attempt -> result DB;
    upsert_result : DB -> PlanningResult -> result DB;
    jobs_keyed : forall db id job, tb_jobs (tables db) !! id = Some job -> job_ID job = id;
    attempts_keyed : forall db key attempt,
      tb_attempts (tables db) !! key = Some attempt -> attempt_key attempt = key;
    find_jobs_rows : forall db service job,
      job ∈ find_jobs db service <->
      tb_jobs (tables db) !! job_ID job = Some job /\ job_Service job = service;
    find_jobs_unique : forall db service, NoDup (job_ID <$> find_jobs db service);
    find_attempts_rows : forall db id attempt,
      attempt ∈ find_attempts db id <->
      tb_attempts (tables db) !! attempt_key attempt = Some attempt /\ att_JobID attempt = id;
    find_attempts_order : forall db id,
      StronglySorted (fun a b => att_Number a < att_Number b) (find_attempts db id);
    create_job_row : forall db job id db', create_job db job = Ok (id, db') ->
      0 < id /\ tb_jobs (tables db) !! id = None /\
      tables db' = put_job (job {{ job_ID := id }}) (tables db);
    save_job_row : forall db job db', save_job db job = Ok db' ->
      tables db' = put_job job (tables db);
    create_attempt_row : forall db attempt db', create_attempt db attempt = Ok db' ->
      tb_attempts (tables db) !! attempt_key attempt = None /\
      tables db' = put_attempt attempt (tables db);
    save_attempt_row : forall db attempt db', save_attempt db attempt = Ok db' ->
      tables db' = put_attempt attempt (tables db);
    upsert_result_row : forall db r db', upsert_result db r = Ok db' ->
      tables db' = put_planning r (tables db) }.

(** ** Queue entries (queue.go) *)

Record QueueKey := mkQueueKey { qk_QueueID : Z; qk_DownloadID : string }.

#[global] Instance QueueKey_eq_dec : EqDecision QueueKey.
Proof. solve_decision. Defined.

Definition job_QueueKey (job : Job) : QueueKey :=
  mkQueueKey (job_QueueID job) (job_DownloadID job).

Fixpoint match_loop (wanted : QueueKey) (candidates : list QueueKey) (index : nat)
    (found : option nat) (count : Z) : result (option nat) :=
  match candidates with
  | [] =>
      if bool_decide (1 < count)
      then Err "download matches multiple queue entries; cannot follow changed queue ID"
      else Ok found
  | candidate :: rest =>
      if bool_decide (candidate = wanted) then Ok (Some index)
      else if negb (bool_decide (qk_DownloadID wanted = "")) &&
              bool_decide (qk_DownloadID candidate = qk_DownloadID wanted)
      then match_loop wanted rest (S index) (Some index) (count + 1)
      else match_loop wanted rest (S index) found count
  end.

(** The index -1 is [None]. *)
Definition MatchQueue (wanted : QueueKey) (candidates : list QueueKey) : result (option nat) :=
  match_loop wanted candidates 0 None 0.

Section store.
Context {DB : Type} `{!JobDatabase DB}.

(** ** Queries *)

(** [tx.First(&job, id)]. *)
Definition first_job (db : DB) (id : Z) : result Job :=
  match tb_jobs (tables db) !! id with Some job => Ok job | None => Err ErrRecordNotFound end.

Definition Get (db : DB) (id : Z) : result Job := first_job db id.

#[global] Instance job_order_dec : RelDecision (fun a b : Job => job_ID a <= job_ID b).
Proof. intros a b. apply _. Defined.

Definition List (db : DB) (service : Service) : list Job :=
  merge_sort (fun a b => job_ID a <= job_ID b) (find_jobs db service).

Definition Attempts (db : DB) (id : Z) : list Attempt := find_attempts db id.

Definition LatestAttempt (db : DB) (id : Z) : result Attempt :=
  match last (find_attempts db id) with
  | Some attempt => Ok attempt
  | None => Err ErrRecordNotFound
  end.

(** ** Planning history (planning_history.go) *)

Definition rememberPlanning (db : DB) (job : Job) : result DB :=
  if bool_decide (job_PlanningFingerprint job = "") then Ok db
  else upsert_result db
         (mkPlanningResult (job_ID job) (job_PlanningFingerprint job) (job_Revision job)
            (negb (bool_decide (job_State job = Observed))) (job_PlanningAttempts job)
            (job_RetryAt job) (job_Reason job) (job_Plan job)).

(** The identity given to a row that was stored before there was one. *)
Definition bootstrap (job observed : Job) : Job :=
  let job := job {{ job_PlanningFingerprint := job_PreviousPlanningFingerprint observed }} in
  if bool_decide (job_PlanningFingerprint job = "")
  then job {{ job_PlanningFingerprint := job_PlanningFingerprint observed }} else job.

(** Whether the planning input changed, the job and the database. *)
Definition observePlanning (db : DB) (job observed : Job) : result (bool * Job * DB) :=
  if bool_decide (job_PlanningFingerprint observed = "")
  then Ok (negb (bool_decide (job_SourceFingerprint job = job_SourceFingerprint observed)), job, db)
  else
    boot ← (if bool_decide (job_PlanningFingerprint job = "")
            then
              let job := bootstrap job observed in
              db ← (if negb (bool_decide (job_State job = Observed)) ||
                       bool_decide (0 < job_PlanningAttempts job)
                    then rememberPlanning db job else Ok db);
              mret (job, db)
            else mret (job, db));
    let '(job, db) := boot in
    db ← (if negb (bool_decide (job_State job = Observed)) && negb (bool_decide (job_Plan job = ""))
          then rememberPlanning db job else Ok db);
    let changed :=
      negb (bool_decide (job_PlanningFingerprint job = job_PlanningFingerprint observed)) in
    mret (changed, job {{ job_PlanningFingerprint := job_PlanningFingerprint observed }}, db).

Definition already_planned : string :=
  "these inputs were already planned; request reconsideration to try again".

Definition restorePlanning (db : DB) (job : Job) : Job :=
  if bool_decide (job_PlanningFingerprint job = "") then job
  else
    match tb_results (tables db) !! (job_ID job, job_PlanningFingerprint job, job_Revision job) with
    | None => job
    | Some r =>
        let job := job {{ job_PlanningAttempts := pr_Attempts r; job_RetryAt := pr_RetryAt r;
                          job_Reason := pr_Reason r }} in
        if pr_Complete r
        then job {{ job_State := Blocked; job_Reason := already_planned; job_Plan := pr_Plan r }}
        else job
    end.

(** ** Observations (store.go) *)

Definition same_identity (observed job : Job) : Prop :=
  job_QueueID job = job_QueueID observed /\ job_DownloadID job = job_DownloadID observed.

#[global] Instance same_identity_dec observed job : Decision (same_identity observed job).
Proof. unfold same_identity. apply _. Defined.

(** A row that goes back to the planner. *)
Definition replan (job observed : Job) : Job :=
  job {{ job_Plan := ""; job_State := Observed; job_Reason := job_PlanningChange observed;
         job_StableSince := job_UpdatedAt observed; job_RetryAt := zero_time;
         job_PlanningAttempts := 0 }}.

(** What a new observation changes in the row of a job that is not active. *)
Definition observe_inputs (db : DB) (job observed : Job) : result (Job * DB) :=
  seen ← observePlanning db job observed;
  let '(changed, job, db) := seen in
  let job :=
    if changed && negb (bool_decide (job_State job = Imported)) &&
       negb (bool_decide (job_State job = Removed))
    then restorePlanning db (replan job observed)
    else job in
  let job :=
    if negb (bool_decide (job_State job = Ready)) || changed ||
       bool_decide (job_PlanningFingerprint observed = "")
    then job {{ job_SourceFingerprint := job_SourceFingerprint observed;
                job_Evidence := job_Evidence observed }}
    else job in
  mret (job, db).

Definition Observe (db : DB) (observed : Job) : result (Job * DB) :=
  match head (filter (same_identity observed) (List db (job_Service observed))) with
  | None =>
      let job := observed {{ job_ID := 0; job_State := Observed;
                             job_StableSince := job_UpdatedAt observed; job_InQueue := true }} in
      created ← create_job db job;
      let '(id, db) := created in
      mret (job {{ job_ID := id }}, db)
  | Some job =>
      let job := job {{ job_Title := job_Title observed; job_UpdatedAt := job_UpdatedAt observed;
                        job_InQueue := true;
                        job_CollectionError := job_CollectionError observed }} in
      updated ← (if negb (active (job_State job)) && negb (bool_decide (job_Evidence observed = ""))
                 then observe_inputs db job observed else mret (job, db));
      let '(job, db) := updated in
      db ← save_job db job;
      mret (job, db)
  end.

(** ** Plans and attempts (store.go) *)

Definition SetPlan (db : DB) (id : Z) (fingerprint plan guidance : string) (at_ : time) : result DB :=
  job ← first_job db id;
  _ ← fail_if (negb (bool_decide (job_SourceFingerprint job = fingerprint)) ||
               active (job_State job) || bool_decide (job_State job = Imported) ||
               bool_decide (job_State job = Removed)) ErrConflict;
  let job := job {{ job_Plan := plan; job_Guidance := guidance; job_UpdatedAt := at_;
                    job_State := Ready; job_Reason := "" }} in
  db ← rememberPlanning db job;
  save_job db job.

Definition Start (db : DB) (id : Z) (at_ : time) : result (Attempt * DB) :=
  job ← first_job db id;
  _ ← fail_if (negb (bool_decide (job_State job = Ready)) ||
               negb (bool_decide (job_PendingAction job = ""))) ErrConflict;
  let previous :=
    match last (find_attempts db id) with Some attempt => att_Number attempt | None => 0 end in
  let attempt :=
    mkAttempt id (add64 previous 1) Running (job_Plan job) "" "" 0 0 zero_time zero_time "" ""
      (UTC at_) (UTC at_) in
  db ← create_attempt db attempt;
  db ← save_job db (job {{ job_State := Running; job_Reason := ""; job_UpdatedAt := at_ }});
  mret (attempt, db).

(** gorm leaves a condition out whose field is zero. Jobs and attempts are numbered
    from one, so the lookup always has both conditions, and here it has them for
    zero too. *)
Definition UpdateAttempt (db : DB) (attempt : Attempt) : result DB :=
  match tb_attempts (tables db) !! attempt_key attempt with
  | None => Err ErrRecordNotFound
  | Some previous =>
      _ ← fail_if (negb (active (att_State previous))) ErrConflict;
      let previous :=
        previous {{ att_State := att_State attempt; att_Reason := att_Reason attempt;
                    att_UpdatedAt := att_UpdatedAt attempt;
                    att_OutputPath := att_OutputPath attempt;
                    att_ImportReceipt := att_ImportReceipt attempt;
                    att_ImportRequest := att_ImportRequest attempt;
                    att_HistoryIDBefore := att_HistoryIDBefore attempt;
                    att_CommandID := att_CommandID attempt;
                    att_ImportStartedAt := att_ImportStartedAt attempt;
                    att_ImportTerminalAt := att_ImportTerminalAt attempt }} in
      db ← save_attempt db previous;
      job ← first_job db (att_JobID attempt);
      save_job db (job {{ job_State := att_State attempt; job_Reason := att_Reason attempt;
                          job_UpdatedAt := att_UpdatedAt attempt }})
  end.

(** ** Operator actions and planning (planning.go) *)

(** Whether the job is no longer the one the operator saw. *)
Definition stale (expected : option Job) (job : Job) : bool :=
  match expected with
  | None => false
  | Some e =>
      negb (bool_decide (job_Revision job = job_Revision e)) ||
      negb (bool_decide (job_SourceFingerprint job = job_SourceFingerprint e)) ||
      negb (bool_decide (job_State job = job_State e)) || negb (job_InQueue job) ||
      negb (bool_decide (job_PendingAction job = "")) ||
      negb (bool_decide (job_CollectionError job = ""))
  end.

Definition requestAction (db : DB) (id : Z) (action guidance : string) (runtimeToleranceMS : Z)
    (at_ : time) (expected : option Job) : result DB :=
  job ← first_job db id;
  _ ← fail_if (stale expected job) ErrConflict;
  _ ← fail_if (active (job_State job) || bool_decide (job_State job = Removed) ||
               negb (bool_decide (action = Reconsider)) && negb (bool_decide (action = Delete)))
        ErrConflict;
  _ ← fail_if (bool_decide (action = Reconsider) && bool_decide (job_State job = Imported))
        ErrConflict;
  let job := job {{ job_Revision := add64 (job_Revision job) 1; job_PendingAction := action;
                    job_Reason := ""; job_RetryAt := zero_time; job_UpdatedAt := at_ }} in
  let job :=
    if bool_decide (action = Reconsider)
    then job {{ job_Guidance := guidance; job_RuntimeToleranceMS := runtimeToleranceMS;
                job_PlanningAttempts := 0; job_State := Observed }}
    else job in
  save_job db job.

Definition RequestAction (db : DB) (id : Z) (action guidance : string) (runtimeToleranceMS : Z)
    (at_ : time) : result DB :=
  requestAction db id action guidance runtimeToleranceMS at_ None.

Definition RequestReconsideration (db : DB) (expected : Job) (guidance : string)
    (runtimeToleranceMS : Z) (at_ : time) : result DB :=
  requestAction db (job_ID expected) Reconsider guidance runtimeToleranceMS at_ (Some expected).

Definition FinishPlanning (db : DB) (planned : Job) : result DB :=
  job ← first_job db (job_ID planned);
  _ ← fail_if (negb (bool_decide (job_Revision job = job_Revision planned)) ||
               negb (bool_decide (job_SourceFingerprint job = job_SourceFingerprint planned)) ||
               active (job_State job) || bool_decide (job_State job = Removed) ||
               bool_decide (job_State job = Imported)) ErrConflict;
  let job := job {{ job_Plan := job_Plan planned; job_State := job_State planned;
                    job_Reason := job_Reason planned; job_RetryAt := job_RetryAt planned;
                    job_PlanningAttempts := job_PlanningAttempts planned;
                    job_UpdatedAt := job_UpdatedAt planned }} in
  let job :=
    if bool_decide (job_State planned = Ready) || bool_decide (job_State planned = Blocked)
    then job {{ job_PendingAction := "" }} else job in
  db ← rememberPlanning db job;
  save_job db job.

(** [time.Time.Add]; the instants of the code are far from its limits. *)
Definition Add (t : time) (d : Z) : time := mkTime (t_ns t + d) (t_zone t).

Definition minute : Z := 60 * 10 ^ 9.

Definition FinishRemoval (db : DB) (requested : Job) (failure : option error) (at_ : time) : result DB :=
  job ← first_job db (job_ID requested);
  _ ← fail_if (negb (bool_decide (job_Revision job = job_Revision requested)) ||
               negb (bool_decide (job_PendingAction job = Delete))) ErrConflict;
  let job := job {{ job_UpdatedAt := at_ }} in
  save_job db
    match failure with
    | None => job {{ job_State := Removed; job_InQueue := false; job_PendingAction := "";
                     job_Reason := "queue tracking removed; media retained" }}
    | Some text => job {{ job_State := Blocked; job_Reason := text;
                          job_RetryAt := Add at_ (5 * minute) }}
    end.

Definition StartRemoval (db : DB) (id : Z) (at_ : time) : result (Job * DB) :=
  job ← first_job db id;
  _ ← fail_if (negb (bool_decide (job_PendingAction job = Delete)) ||
               bool_decide (job_State job = Running) || bool_decide (job_State job = Importing))
        ErrConflict;
  let job := job {{ job_State := Removing; job_UpdatedAt := at_ }} in
  db ← save_job db job;
  mret (job, db).

(** One job of [ReconcileQueue]: [None] leaves its row alone. *)
Definition reconcile_job (previous present : list QueueKey) (at_ : time) (index : nat) (job : Job)
    : result (option Job) :=
  matched ← MatchQueue (job_QueueKey job) present;
  match matched with
  | Some position =>
      match present !! position with
      | None => Err "panic: index out of range"
      | Some entry =>
          owner ← MatchQueue entry previous;
          if negb (bool_decide (owner = Some index)) then mret None
          else if bool_decide (job_QueueID job = qk_QueueID entry) && job_InQueue job &&
                  negb (bool_decide (job_State job = Removed))
          then mret None
          else
            let job := job {{ job_QueueID := qk_QueueID entry; job_InQueue := true }} in
            mret (Some (if bool_decide (job_State job = Removed)
                        then job {{ job_State := Blocked; job_Reason := "queue entry is present again" }}
                        else job))
      end
  | None =>
      if negb (job_InQueue job) then mret None
      else
        let job := job {{ job_InQueue := false; job_UpdatedAt := at_ }} in
        mret (Some (if negb (active (job_State job)) && negb (bool_decide (job_State job = Imported))
                    then job {{ job_State := Removed; job_Reason := "no longer in the queue";
                                job_PendingAction := "" }}
                    else job))
  end.

Fixpoint reconcile_jobs (db : DB) (previous present : list QueueKey) (at_ : time) (index : nat)
    (l : list Job) : result DB :=
  match l with
  | [] => Ok db
  | job :: rest =>
      changed ← reconcile_job previous present at_ index job;
      db ← match changed with None => Ok db | Some job => save_job db job end;
      reconcile_jobs db previous present at_ (S index) rest
  end.

Definition ReconcileQueue (db : DB) (service : Service) (present : list QueueKey) (at_ : time)
    : result DB :=
  let l := find_jobs db service in
  reconcile_jobs db (job_QueueKey <$> l) present at_ 0 l.

End store.
End jobs.
