(* ===== verification/JobInvariants.v ===== *)
(** * What the operations on the job database keep

    The invariant of the tables of [internal/jobs], and the effect of each
    operation of [Jobs] on them: most operations are quiet, which means that
    they leave every attempt and every job under repair alone. *)
From stdpp Require Import base strings list gmap sorting.
From coqutil Require Import Datatypes.RecordSetters.
From S2P Require Import Prelude Jobs.
Import DoubleBraceUpdate jobs.

(** A job or an attempt under repair. *)
Definition live (state : State) : bool :=
  match state with Running | Importing => true | _ => false end.

(** The states an attempt goes through. *)
Definition attempt_state (state : State) : bool :=
  match state with Running | Importing | Imported | Failed | Blocked => true | _ => false end.

Lemma live_active state : live state = true -> active state = true.
Proof. by destruct state. Qed.

Lemma active_not_live state : active state = true -> live state = false -> state = Removing.
Proof. by destruct state. Qed.

(** A job is under repair exactly while one attempt of it is, which is its last
    one and in the same state; no operator action is pending then. Attempts are
    numbered from one without gaps. A job is being removed only on request. An
    attempt that imported holds the receipt. *)
Record tables_ok (t : Tables) : Prop := mkTablesOk
  { ok_job_live : forall id job, tb_jobs t !! id = Some job -> live (job_State job) = true ->
      job_PendingAction job = "" /\
      exists n attempt, tb_attempts t !! (id, n) = Some attempt /\ att_State attempt = job_State job;
    ok_attempt_live : forall id n attempt, tb_attempts t !! (id, n) = Some attempt ->
      live (att_State attempt) = true ->
      (exists job, tb_jobs t !! id = Some job /\ job_State job = att_State attempt) /\
      forall m, is_Some (tb_attempts t !! (id, m)) -> m <= n;
    ok_attempt_row : forall id n attempt, tb_attempts t !! (id, n) = Some attempt ->
      is_Some (tb_jobs t !! id) /\ 1 <= n /\ attempt_state (att_State attempt) = true /\
      (n = 1 \/ is_Some (tb_attempts t !! (id, n - 1))) /\
      (att_State attempt = Imported -> att_ImportReceipt attempt <> "");
    ok_removing : forall id job, tb_jobs t !! id = Some job -> job_State job = Removing ->
      job_PendingAction job = Delete }.

(** ** Quiet changes *)

Definition row_kept (j j' : Job) : Prop :=
  job_State j' = job_State j /\ job_PendingAction j' = job_PendingAction j /\
  job_Revision j' = job_Revision j.

(** A row under repair or removal is kept; only the end of a removal, [freed],
    releases a row that was being removed. *)
Definition row_step (freed : bool) (j j' : Job) : Prop :=
  job_Service j' = job_Service j /\
  (row_kept j j' \/
   (active (job_State j) = true -> freed = true /\ job_State j = Removing) /\
   live (job_State j') = false /\
   (job_State j' = Removing -> job_PendingAction j' = Delete)).

Definition quiet (freed : option Z) (t t' : Tables) : Prop :=
  tb_attempts t' = tb_attempts t /\
  forall id,
    match tb_jobs t !! id with
    | Some j => exists j', tb_jobs t' !! id = Some j' /\ row_step (bool_decide (freed = Some id)) j j'
    | None => forall j', tb_jobs t' !! id = Some j' ->
        live (job_State j') = false /\ (job_State j' = Removing -> job_PendingAction j' = Delete)
    end.

Lemma row_step_refl freed j : row_step freed j j.
Proof. split; [done|]. by left. Qed.

Lemma row_step_trans freed j j' j'' :
  row_step freed j j' -> row_step freed j' j'' -> row_step freed j j''.
Proof.
  intros [Hs H1] [Hs' H2]. split; [congruence|].
  destruct H1 as [(E1 & E2 & E3)|(Ha & Hl & Hr)], H2 as [(F1 & F2 & F3)|(Ha' & Hl' & Hr')].
  - left. unfold row_kept. by rewrite F1, F2, F3.
  - right. rewrite E1 in Ha'. done.
  - right. rewrite F1, F2. done.
  - by right.
Qed.

Lemma quiet_refl freed t : quiet freed t t.
Proof.
  split; [done|]. intros id. destruct (tb_jobs t !! id) as [j|] eqn:E; [|by intros j' [=]].
  exists j. split; [done|apply row_step_refl].
Qed.

Lemma row_step_settled freed j j' :
  live (job_State j) = false -> (job_State j = Removing -> job_PendingAction j = Delete) ->
  row_step freed j j' ->
  live (job_State j') = false /\ (job_State j' = Removing -> job_PendingAction j' = Delete).
Proof. intros Hl Hr [_ [(E1 & E2 & _)|(_ & ? & ?)]]; [by rewrite E1, E2|done]. Qed.

Lemma quiet_trans freed t1 t2 t3 : quiet freed t1 t2 -> quiet freed t2 t3 -> quiet freed t1 t3.
Proof.
  intros [E1 H1] [E2 H2]. split; [congruence|]. intros id. specialize (H1 id). specialize (H2 id).
  destruct (tb_jobs t1 !! id) as [j|].
  - destruct H1 as (j' & Ej & Hj). rewrite Ej in H2. destruct H2 as (j'' & ? & ?).
    exists j''. split; [done|by eapply row_step_trans].
  - intros j'' Ej''. destruct (tb_jobs t2 !! id) as [j'|].
    + destruct H2 as (k & Ek & Hk). rewrite Ej'' in Ek. injection Ek as <-.
      destruct (H1 j' eq_refl) as [? ?]. by eapply row_step_settled.
    + by apply H2.
Qed.

Lemma quiet_put_job freed t j j' :
  tb_jobs t !! job_ID j' = Some j ->
  row_step (bool_decide (freed = Some (job_ID j'))) j (stored j') -> quiet freed t (put_job j' t).
Proof.
  intros E H. split; [done|]. intros id. simpl. destruct (decide (job_ID j' = id)) as [<-|Hne].
  - rewrite E, lookup_insert_eq. by exists (stored j').
  - rewrite lookup_insert_ne by done. apply (quiet_refl freed t).
Qed.

Lemma quiet_put_planning freed t r : quiet freed t (put_planning r t).
Proof. apply (quiet_refl freed t). Qed.

(** A quiet change keeps the invariant, the job rows, and removals in progress. *)
Lemma quiet_ok freed t t' : quiet freed t t' -> tables_ok t -> tables_ok t'.
Proof.
  intros [Ea Hq] [H1 H2 H3 H4]. split; rewrite ?Ea.
  - intros id j' Ej' Hl. specialize (Hq id). destruct (tb_jobs t !! id) as [j|] eqn:Ej.
    + destruct Hq as (k & Ek & [_ Hk]). rewrite Ej' in Ek. injection Ek as <-.
      destruct Hk as [(E1 & E2 & _)|(_ & Hn & _)]; [|congruence].
      rewrite E1, E2 in *. by apply (H1 id j).
    + destruct (Hq j' Ej'). congruence.
  - intros id n a Ha Hl. destruct (H2 id n a Ha Hl) as [(j & Ej & Es) Hm]. split; [|done].
    specialize (Hq id). rewrite Ej in Hq. destruct Hq as (j' & Ej' & [_ Hk]).
    exists j'. split; [done|]. destruct Hk as [(E1 & _)|(Hact & _)]; [congruence|].
    rewrite <- Es in Hl. destruct (Hact (live_active _ Hl)) as [_ Hr]. by rewrite Hr in Hl.
  - intros id n a Ha. destruct (H3 id n a Ha) as ((j & Ej) & ? & ? & ? & ?). split_and!; try done.
    specialize (Hq id). rewrite Ej in Hq. destruct Hq as (j' & -> & _). by eexists.
  - intros id j' Ej' Hr. specialize (Hq id). destruct (tb_jobs t !! id) as [j|] eqn:Ej.
    + destruct Hq as (k & Ek & [_ Hk]). rewrite Ej' in Ek. injection Ek as <-.
      destruct Hk as [(E1 & E2 & _)|(_ & _ & Hk)]; [|by apply Hk].
      rewrite E2. apply (H4 id j Ej). congruence.
    + by apply (Hq j' Ej').
Qed.

Lemma quiet_job freed t t' id j :
  quiet freed t t' -> tb_jobs t !! id = Some j ->
  exists j', tb_jobs t' !! id = Some j' /\ job_Service j' = job_Service j.
Proof.
  intros [_ Hq] Ej. specialize (Hq id). rewrite Ej in Hq. destruct Hq as (j' & ? & [? _]). eauto.
Qed.

Lemma quiet_removing freed t t' id j :
  quiet freed t t' -> freed <> Some id -> tb_jobs t !! id = Some j -> job_State j = Removing ->
  exists j', tb_jobs t' !! id = Some j' /\ row_kept j j'.
Proof.
  intros [_ Hq] Hf Ej Hr. specialize (Hq id). rewrite Ej in Hq. destruct Hq as (j' & ? & [_ Hk]).
  exists j'. split; [done|]. destruct Hk as [?|(Ha & _)]; [done|].
  rewrite Hr in Ha. destruct (Ha eq_refl) as [Hb _]. by apply bool_decide_eq_true in Hb.
Qed.

(** ** The operations are quiet *)

Section operations.
Context {DB : Type} `{!JobDatabase DB}.
Implicit Types db : DB.

Lemma first_job_Ok db id job :
  first_job db id = Ok job -> tb_jobs (tables db) !! id = Some job /\ job_ID job = id.
Proof.
  unfold first_job. destruct (tb_jobs (tables db) !! id) as [j|] eqn:E; [|done].
  intros [= <-]. split; [done|by eapply jobs_keyed].
Qed.

(** Jobs and attempts are as before; the planning results may have changed. *)
Definition same_rows db db' : Prop :=
  tb_jobs (tables db') = tb_jobs (tables db) /\ tb_attempts (tables db') = tb_attempts (tables db).

Lemma same_rows_trans db1 db2 db3 : same_rows db1 db2 -> same_rows db2 db3 -> same_rows db1 db3.
Proof. unfold same_rows. intros [-> ->] [-> ->]. done. Qed.

Lemma same_rows_save db db1 freed j j' db' :
  same_rows db db1 -> save_job db1 j' = Ok db' ->
  tb_jobs (tables db) !! job_ID j' = Some j ->
  row_step (bool_decide (freed = Some (job_ID j'))) j j' ->
  quiet freed (tables db) (tables db').
Proof.
  intros [Ej Ea] Hs E H. rewrite (save_job_row _ _ _ Hs).
  destruct (quiet_put_job freed (tables db) j j' E) as [Hq Hr]; [by destruct j'|].
  split; simpl; [by rewrite Ea|]. intros id. rewrite Ej. apply Hr.
Qed.

Lemma save_quiet db freed j j' db' :
  save_job db j' = Ok db' -> tb_jobs (tables db) !! job_ID j' = Some j ->
  row_step (bool_decide (freed = Some (job_ID j'))) j j' ->
  quiet freed (tables db) (tables db').
Proof. by apply same_rows_save. Qed.

Lemma rememberPlanning_rows db job db' : rememberPlanning db job = Ok db' -> same_rows db db'.
Proof.
  unfold rememberPlanning. case_bool_decide.
  - by intros [= <-].
  - intros H'. by rewrite (upsert_result_row _ _ _ H') || (split; rewrite (upsert_result_row _ _ _ H')).
Qed.

(** A job row that differs from another in planning data only. *)
Definition same_core (j j' : Job) : Prop :=
  job_ID j' = job_ID j /\ job_Service j' = job_Service j /\ row_kept j j'.

Lemma same_core_row freed j j' : same_core j j' -> row_step freed j j'.
Proof. intros (? & ? & ?). split; [done|by left]. Qed.

Lemma observePlanning_rows db job observed changed job' db' :
  observePlanning db job observed = Ok (changed, job', db') ->
  same_rows db db' /\ same_core job job'.
Proof.
  unfold observePlanning. destruct (bool_decide _); [by intros [= <- <- <-]|].
  intros H. apply bind_Ok in H as ([job1 db1] & Hb & H). apply bind_Ok in H as (db2 & Hm & H).
  injection H as <- <- <-.
  assert (same_rows db db1 /\ same_core job job1) as [Hr Hc].
  { destruct (bool_decide _) in Hb; [|by injection Hb as <- <-].
    apply bind_Ok in Hb as (db3 & Hr & Hb). injection Hb as <- <-. split.
    - destruct (_ || _) in Hr; [by eapply rememberPlanning_rows|by injection Hr as <-].
    - clear. unfold bootstrap. by case_match. }
  split; [|exact Hc]. eapply same_rows_trans; [exact Hr|].
  destruct (_ && _) in Hm; [by eapply rememberPlanning_rows|by injection Hm as <-].
Qed.

Lemma restorePlanning_row db job :
  job_ID (restorePlanning db job) = job_ID job /\
  job_Service (restorePlanning db job) = job_Service job /\
  (row_kept job (restorePlanning db job) \/ job_State (restorePlanning db job) = Blocked).
Proof.
  unfold restorePlanning, row_kept. case_bool_decide; [tauto|]. case_match; [|tauto].
  case_match; split_and!; try done; [by right|by left].
Qed.

Lemma observe_inputs_row db job observed job' db' :
  active (job_State job) = false -> observe_inputs db job observed = Ok (job', db') ->
  same_rows db db' /\ job_ID job' = job_ID job /\ forall freed, row_step freed job job'.
Proof.
  unfold observe_inputs. intros Hact H. apply bind_Ok in H as ([[changed job1] db1] & Hp & H).
  apply observePlanning_rows in Hp as [? Hc]. injection H as <- <-. split; [done|].
  match goal with |- context [restorePlanning db1 ?j] =>
    pose proof (restorePlanning_row db1 j) as (Hi & Hs & Hk); remember (restorePlanning db1 j) as job2 end.
  assert (job_ID job1 = job_ID job /\ forall freed, row_step freed job job1) as [Hi1 Hs1].
  { split; [apply Hc|]. intros. by apply same_core_row. }
  assert (job_ID job2 = job_ID job /\ forall freed, row_step freed job job2) as [Hi2 Hs2].
  { destruct Hc as (Ei & Es & Ek). split; [by rewrite Hi|]. intros freed. split; [by rewrite Hs|].
    right. rewrite Hact. split; [done|]. by destruct Hk as [(-> & _)| ->]. }
  destruct (_ && _ && _); destruct (_ || _ || _); done.
Qed.

Lemma Observe_quiet db observed job db' :
  Observe db observed = Ok (job, db') -> quiet None (tables db) (tables db').
Proof.
  unfold Observe. destruct (head _) as [row|] eqn:E.
  - apply head_Some_elem_of, list_elem_of_filter in E as [_ E].
    unfold List in E. rewrite merge_sort_Permutation in E. apply find_jobs_rows in E as [Erow _].
    intros H. inv_result.
    match goal with H : context [let '(_, _) := ?p in _] |- _ => destruct p as [job1 db1] end. inv_result.
    match goal with H : (if _ then _ else _) = _ |- _ => rename H into Hu end.
    match goal with H : save_job _ _ = _ |- _ => rename H into Hs end.
    destruct (active _) eqn:Hact in Hu; [|destruct (bool_decide _) in Hu]; cbn [negb andb] in Hu.
    + inv_ok Hu. by eapply (save_quiet _ _ row); [exact Hs|done|apply same_core_row].
    + inv_ok Hu. by eapply (save_quiet _ _ row); [exact Hs|done|apply same_core_row].
    + apply observe_inputs_row in Hu as (Hr & Hi & Hstep); [|done].
      eapply (same_rows_save _ _ _ row); [exact Hr|exact Hs|by rewrite Hi|apply Hstep].
  - intros H. inv_result.
    match goal with H : context [let '(_, _) := ?p in _] |- _ => destruct p as [id db1] end. inv_result.
    match goal with H : create_job _ _ = _ |- _ => apply create_job_row in H as (_ & Hn & ->) end.
    split; [done|]. intros i. simpl. destruct (decide (id = i)) as [<-|Hne].
    + rewrite Hn, lookup_insert_eq. by intros j' [= <-].
    + rewrite lookup_insert_ne by done. apply (quiet_refl None (tables db)).
Qed.

Lemma SetPlan_quiet db id fingerprint plan guidance at_ db' :
  SetPlan db id fingerprint plan guidance at_ = Ok db' -> quiet None (tables db) (tables db').
Proof.
  unfold SetPlan. intros H. inv_result. split_bool.
  match goal with H : first_job _ _ = _ |- _ => apply first_job_Ok in H as [Ej <-] end.
  match goal with H : rememberPlanning _ _ = _ |- _ => apply rememberPlanning_rows in H end.
  eapply same_rows_save; [done|done|exact Ej|]. split; [done|right]. split_and!; [congruence|done|done].
Qed.

Lemma requestAction_quiet db id action guidance tolerance at_ expected db' :
  requestAction db id action guidance tolerance at_ expected = Ok db' ->
  quiet None (tables db) (tables db').
Proof.
  unfold requestAction. intros H. inv_result. split_bool.
  match goal with H : first_job _ _ = _ |- _ => apply first_job_Ok in H as [Ej <-] end.
  match goal with H : active (job_State ?j) = false |- _ => rename H into Hact, j into row end.
  case_bool_decide; (eapply save_quiet; [done|exact Ej|]; split; [done|right]);
    (split; [by rewrite Hact|]); [done|].
  change (live (job_State row) = false /\ (job_State row = Removing -> action = Delete)).
  destruct (job_State row); done.
Qed.

Lemma FinishPlanning_quiet db planned db' :
  FinishPlanning db planned = Ok db' -> live (job_State planned) = false ->
  job_State planned <> Removing -> quiet None (tables db) (tables db').
Proof.
  unfold FinishPlanning. intros H Hl Hr. inv_result. split_bool.
  match goal with H : first_job _ _ = _ |- _ => apply first_job_Ok in H as [Ej Ei] end.
  match goal with H : rememberPlanning _ _ = _ |- _ => apply rememberPlanning_rows in H end.
  match goal with H : active _ = false |- _ => rename H into Hact end.
  rewrite <- Ei in Ej.
  destruct (_ || _); (eapply same_rows_save; [done|done|exact Ej|]; split; [done|right]);
    (split; [by rewrite Hact|]); done.
Qed.

Lemma FinishRemoval_quiet db requested failure at_ db' :
  tables_ok (tables db) -> FinishRemoval db requested failure at_ = Ok db' ->
  quiet (Some (job_ID requested)) (tables db) (tables db').
Proof.
  unfold FinishRemoval. intros Hok H. inv_result. split_bool.
  match goal with H : first_job _ _ = Ok ?j |- _ => apply first_job_Ok in H as [Ej Ei]; rename j into row end.
  assert (active (job_State row) = true -> job_State row = Removing) as Hrow.
  { intros Ha. apply active_not_live; [done|]. destruct (live (job_State row)) eqn:Hl; [|done].
    destruct (ok_job_live _ Hok _ _ Ej Hl) as [Hp _]. by rewrite Hp in *. }
  rewrite <- Ei in Ej.
  destruct failure; (eapply save_quiet; [done|exact Ej|]; split; [done|right]);
    (split; [intros Ha; split; [by apply bool_decide_eq_true; simpl; rewrite <- Ei|by apply Hrow]|]); done.
Qed.

Lemma StartRemoval_quiet db id at_ job db' :
  tables_ok (tables db) -> StartRemoval db id at_ = Ok (job, db') ->
  quiet None (tables db) (tables db') /\ tb_jobs (tables db') !! id = Some (stored job) /\
  job_ID job = id /\ job_State job = Removing /\ job_PendingAction job = Delete.
Proof.
  unfold StartRemoval. intros Hok H. inv_result. split_bool.
  match goal with H : first_job _ _ = Ok ?j |- _ => apply first_job_Ok in H as [Ej <-]; rename j into row end.
  split_and!; try done.
  - eapply save_quiet; [done|exact Ej|]. split; [done|].
    destruct (active (job_State row)) eqn:Ha; [left|by right].
    unfold row_kept. simpl. split_and!; [|done..]. by destruct (job_State row).
  - match goal with H : save_job _ _ = Ok _ |- _ => rewrite (save_job_row _ _ _ H) end.
    simpl. apply lookup_insert_eq.
Qed.

(** ** Queue entries *)

Lemma match_loop_Some wanted candidates index found count i :
  match_loop wanted candidates index found count = Ok (Some i) ->
  (exists k entry, i = (index + k)%nat /\ candidates !! k = Some entry) \/ found = Some i.
Proof.
  revert index found count. induction candidates as [|c l IH]; intros index found count; simpl.
  - case_bool_decide; [done|]. intros [= ->]. by right.
  - case_bool_decide as Hc.
    + intros [= <-]. left. exists 0%nat, c. split; [lia|done].
    + destruct (_ && _); intros [(k & entry & -> & Hk)|Hf]%IH.
      1,3: left; exists (S k), entry; split; [lia|done].
      * injection Hf as <-. left. exists 0%nat, c. split; [lia|done].
      * by right.
Qed.

Lemma MatchQueue_in_range wanted candidates i :
  MatchQueue wanted candidates = Ok (Some i) -> is_Some (candidates !! i).
Proof. intros [(k & entry & -> & Hk)|[=]]%match_loop_Some. by eexists. Qed.

Lemma reconcile_job_row previous present at_ index job job' :
  reconcile_job previous present at_ index job = Ok (Some job') ->
  job_ID job' = job_ID job /\ forall freed, row_step freed job job'.
Proof.
  unfold reconcile_job. intros H. apply bind_Ok in H as (matched & _ & H).
  assert (forall j, job_ID j = job_ID job -> job_Service j = job_Service job -> row_kept job j ->
    job_ID j = job_ID job /\ forall freed, row_step freed job j) as Hkept.
  { intros j ? ? ?. split; [done|]. intros. by apply same_core_row. }
  assert (forall j, job_ID j = job_ID job -> job_Service j = job_Service job ->
    active (job_State job) = false -> live (job_State j) = false -> job_State j <> Removing ->
    job_ID j = job_ID job /\ forall freed, row_step freed job j) as Hset.
  { intros j ? ? Ha ? ?. split; [done|]. intros. split; [done|]. right. by rewrite Ha. }
  destruct matched as [position|].
  - destruct (present !! position) as [entry|]; [|done].
    apply bind_Ok in H as (owner & _ & H). destruct (negb _); [done|]. destruct (_ && _ && _); [done|].
    injection H as <-. case_bool_decide as Hs; [|by apply Hkept].
    change (job_State job = Removed) in Hs. apply Hset; try done. by rewrite Hs.
  - destruct (job_InQueue job); [|done]. injection H as <-.
    destruct (active _) eqn:Ha; cbn [negb andb]; [by apply Hkept|].
    destruct (bool_decide _); cbn [negb]; [by apply Hkept|]. by apply Hset.
Qed.

Lemma reconcile_jobs_quiet db previous present at_ index l db' :
  NoDup (job_ID <$> l) -> (forall job, job ∈ l -> tb_jobs (tables db) !! job_ID job = Some job) ->
  reconcile_jobs db previous present at_ index l = Ok db' -> quiet None (tables db) (tables db').
Proof.
  revert db index. induction l as [|job l IH]; intros db index Hnd Hrows H; simpl in H.
  - injection H as <-. apply quiet_refl.
  - apply NoDup_cons in Hnd as [Hni Hnd]. apply bind_Ok in H as (changed & Hc & H).
    apply bind_Ok in H as (db1 & Hs & H).
    destruct changed as [job'|]; [|injection Hs as <-; eapply IH; [done| |exact H]; intros; apply Hrows; by right].
    apply reconcile_job_row in Hc as [Hi Hstep].
    eapply quiet_trans.
    + eapply (save_quiet _ _ job); [exact Hs|rewrite Hi; apply Hrows; by left|apply Hstep].
    + eapply IH; [done| |exact H]. intros other Ho. rewrite (save_job_row _ _ _ Hs). simpl.
      rewrite lookup_insert_ne; [apply Hrows; by right|].
      rewrite Hi. intros E. apply Hni. rewrite E. by apply list_elem_of_fmap_2.
Qed.

Lemma ReconcileQueue_quiet db service present at_ db' :
  ReconcileQueue db service present at_ = Ok db' -> quiet None (tables db) (tables db').
Proof.
  apply reconcile_jobs_quiet; [apply find_jobs_unique|]. by intros job [? _]%find_jobs_rows.
Qed.

(** ** Attempts *)

Lemma last_attempt db id :
  match last (find_attempts db id) with
  | Some a => tb_attempts (tables db) !! (id, att_Number a) = Some a /\ att_JobID a = id /\
              forall m, is_Some (tb_attempts (tables db) !! (id, m)) -> m <= att_Number a
  | None => forall m, tb_attempts (tables db) !! (id, m) = None
  end.
Proof.
  pose proof (find_attempts_order db id) as Hsort.
  assert (forall m b, tb_attempts (tables db) !! (id, m) = Some b ->
            b ∈ find_attempts db id /\ att_Number b = m) as Hin.
  { intros m b Hb. pose proof (attempts_keyed _ _ _ Hb) as Hk. injection Hk as Hk1 Hk2.
    split; [|done]. apply find_attempts_rows. unfold attempt_key. by rewrite Hk1, Hk2. }
  destruct (last (find_attempts db id)) as [a|] eqn:Hl.
  - apply last_Some in Hl as [l' Hl]. rewrite Hl in Hsort, Hin.
    assert (a ∈ find_attempts db id) as Ha by (rewrite Hl; set_solver).
    apply find_attempts_rows in Ha as [Ha Hid]. unfold attempt_key in Ha. rewrite Hid in Ha.
    split_and!; [done|done|]. intros m [b Hb]. apply Hin in Hb as [Hb <-].
    apply elem_of_app in Hb as [Hb|Hb%list_elem_of_singleton]; [|subst; lia].
    apply StronglySorted_app in Hsort as (Hle & _ & _).
    assert (att_Number b < att_Number a); [|lia]. apply Hle; [done|by left].
  - apply last_None in Hl. intros m. destruct (tb_attempts (tables db) !! (id, m)) as [b|] eqn:Hb; [|done].
    apply Hin in Hb as [Hb _]. rewrite Hl in Hb. by apply elem_of_nil in Hb.
Qed.

(** The number of the next attempt is an [int64]. *)
Definition attempt_fits db id : Prop :=
  forall a, last (find_attempts db id) = Some a -> att_Number a < max_int64.

(** [Start] adds one running attempt after the last one of a ready job. *)
Lemma Start_rows db id at_ attempt db' :
  Start db id at_ = Ok (attempt, db') ->
  exists job, tb_jobs (tables db) !! id = Some job /\ job_State job = Ready /\
    job_PendingAction job = "" /\ job_ID job = id /\
    tb_attempts (tables db) !! attempt_key attempt = None /\
    att_JobID attempt = id /\ att_State attempt = Running /\ att_ImportRequest attempt = "" /\
    att_Number attempt = add64 (match last (find_attempts db id) with
                                | Some a => att_Number a | None => 0 end) 1 /\
    tables db' = put_job (job {{ job_State := Running; job_Reason := ""; job_UpdatedAt := at_ }})
                   (put_attempt attempt (tables db)).
Proof.
  unfold Start. intros H. apply bind_Ok in H as (job & Hj & H). apply bind_Ok in H as (u & Hg & H).
  apply bind_Ok in H as (db1 & Ha & H). apply bind_Ok in H as (db2 & Hs & H).
  injection H as <- <-. apply fail_if_Ok in Hg. split_bool.
  apply first_job_Ok in Hj as [Ej Ei]. apply create_attempt_row in Ha as [Hn Ha].
  exists job. split_and!; try done. by rewrite (save_job_row _ _ _ Hs), Ha.
Qed.

(** [UpdateAttempt] changes the state of an active attempt and of its job. *)
Lemma UpdateAttempt_rows db attempt db' :
  UpdateAttempt db attempt = Ok db' ->
  exists previous current job, tb_attempts (tables db) !! attempt_key attempt = Some previous /\
    active (att_State previous) = true /\ attempt_key current = attempt_key attempt /\
    att_State current = att_State attempt /\ att_ImportRequest current = att_ImportRequest attempt /\
    att_ImportReceipt current = att_ImportReceipt attempt /\
    att_CommandID current = att_CommandID attempt /\
    tb_jobs (tables db) !! att_JobID attempt = Some job /\ job_ID job = att_JobID attempt /\
    tables db' = put_job (job {{ job_State := att_State attempt; job_Reason := att_Reason attempt;
                                 job_UpdatedAt := att_UpdatedAt attempt }})
                   (put_attempt current (tables db)).
Proof.
  unfold UpdateAttempt. destruct (tb_attempts (tables db) !! attempt_key attempt) as [previous|] eqn:E; [|done].
  intros H. apply bind_Ok in H as (u & Hg & H). apply bind_Ok in H as (db1 & Ha & H).
  apply bind_Ok in H as (job & Hj & H). apply fail_if_Ok in Hg. split_bool.
  pose proof (attempts_keyed _ _ _ E) as Hk.
  apply save_attempt_row in Ha. apply first_job_Ok in Hj as [Ej Ei]. rewrite Ha in Ej.
  match type of Ha with _ = put_attempt ?current _ => exists previous, current, job end.
  split_and!; try done. by rewrite (save_job_row _ _ _ H), Ha.
Qed.

(** A job whose only attempt under repair can be [attempt], its last one, may
    move together with that attempt. *)
Lemma attempt_move_ok t attempt job' :
  let id := att_JobID attempt in
  let n := att_Number attempt in
  tables_ok t -> is_Some (tb_jobs t !! id) -> job_ID job' = id ->
  job_State job' = att_State attempt -> job_PendingAction job' = "" ->
  attempt_state (att_State attempt) = true ->
  (att_State attempt = Imported -> att_ImportReceipt attempt <> "") ->
  1 <= n -> (n = 1 \/ is_Some (tb_attempts t !! (id, n - 1))) ->
  (forall m b, tb_attempts t !! (id, m) = Some b -> m <= n /\ (m <> n -> live (att_State b) = false)) ->
  tables_ok (put_job job' (put_attempt attempt t)).
Proof.
  intros id n Hok Hjob Hid Hst Hp Has Hrec Hone Hprev Hmax.
  assert (forall i m, i <> id -> <[attempt_key attempt := attempt]> (tb_attempts t) !! (i, m) =
            tb_attempts t !! (i, m)) as Hother.
  { intros i m Hi. apply lookup_insert_ne. intros [= E _]. by apply Hi. }
  assert (<[attempt_key attempt := attempt]> (tb_attempts t) !! (id, n) = Some attempt) as Hthis
    by apply lookup_insert_eq.
  assert (forall m b, <[attempt_key attempt := attempt]> (tb_attempts t) !! (id, m) = Some b ->
            (m = n /\ b = attempt) \/ m <> n /\ tb_attempts t !! (id, m) = Some b) as Hsame.
  { intros m b. destruct (decide (m = n)) as [->|Hm].
    - rewrite Hthis. intros [= <-]. by left.
    - rewrite lookup_insert_ne; [by right|]. unfold attempt_key. intros [= E]. by apply Hm. }
  split; simpl; rewrite Hid.
  - intros i j Ej Hl. destruct (decide (id = i)) as [<-|Hi].
    + rewrite lookup_insert_eq in Ej. injection Ej as <-. split; [exact Hp|]. by exists n, attempt.
    + rewrite lookup_insert_ne in Ej by done. setoid_rewrite Hother; [|done].
      by apply (ok_job_live _ Hok).
  - intros i m a Ha Hl. destruct (decide (id = i)) as [<-|Hi].
    + apply Hsame in Ha as [[-> ->]|[Hm Ha]].
      * rewrite lookup_insert_eq. split; [by eexists|]. intros k [b Hb].
        apply Hsame in Hb as [[-> ->]|[_ Hb]]; [done|]. by apply (Hmax k b).
      * destruct (Hmax m a Ha) as [_ Hdead]. by rewrite Hdead in Hl.
    + rewrite lookup_insert_ne by done. setoid_rewrite Hother; [|done]. rewrite Hother in Ha by done.
      by apply (ok_attempt_live _ Hok).
  - intros i m a Ha. destruct (decide (id = i)) as [<-|Hi].
    + rewrite lookup_insert_eq. split; [by eexists|].
      assert (forall k, is_Some (tb_attempts t !! (id, k)) ->
                is_Some (<[attempt_key attempt := attempt]> (tb_attempts t) !! (id, k))) as Hgrow.
      { intros k Hk. apply lookup_insert_is_Some'. by right. }
      apply Hsame in Ha as [[-> ->]|[_ Ha]].
      * split_and!; [done|done| |done]. destruct Hprev; [by left|right; by apply Hgrow].
      * destruct (ok_attempt_row _ Hok _ _ _ Ha) as (_ & ? & ? & Hp' & ?). split_and!; [done|done| |done].
        destruct Hp'; [by left|right; by apply Hgrow].
    + rewrite lookup_insert_ne, Hother by done. rewrite Hother in Ha by done.
      by apply (ok_attempt_row _ Hok).
  - intros i j Ej Hr. destruct (decide (id = i)) as [<-|Hi].
    + rewrite lookup_insert_eq in Ej. injection Ej as <-. change (job_State job' = Removing) in Hr.
      rewrite Hst in Hr. by rewrite Hr in Has.
    + rewrite lookup_insert_ne in Ej by done. by apply (ok_removing _ Hok i).
Qed.

Lemma Start_ok db id at_ attempt db' :
  tables_ok (tables db) -> attempt_fits db id -> Start db id at_ = Ok (attempt, db') ->
  tables_ok (tables db').
Proof.
  intros Hok Hfits H. pose proof (Start_rows _ _ _ _ _ H) as
    (job & Ej & Es & Ep & Ei & Hn & Hid & Hst & _ & Hnum & ->).
  pose proof (last_attempt db id) as Hlast. unfold attempt_fits in Hfits.
  assert (1 <= att_Number attempt /\ (forall m, is_Some (tb_attempts (tables db) !! (id, m)) -> m < att_Number attempt) /\
          (att_Number attempt = 1 \/ is_Some (tb_attempts (tables db) !! (id, att_Number attempt - 1))))
    as (Hone & Hnext & Hprev).
  { rewrite Hnum. destruct (last (find_attempts db id)) as [a|].
    - destruct Hlast as (Ha & _ & Hm). pose proof (ok_attempt_row _ Hok _ _ _ Ha) as (_ & ? & _).
      specialize (Hfits a eq_refl). rewrite add64_small by (unfold max_int64 in *; lia).
      split_and!; [lia| |right; replace (att_Number a + 1 - 1) with (att_Number a) by lia; by eexists].
      intros m Hs. specialize (Hm m Hs). lia.
    - split_and!; [done| |by left]. intros m [b Hb]. by rewrite Hlast in Hb. }
  apply attempt_move_ok; rewrite ?Hid; try done; [by rewrite Hst|by rewrite Hst|].
  intros m a Ha. split; [apply Z.lt_le_incl, Hnext; by eexists|]. intros _.
  destruct (live (att_State a)) eqn:Hl; [|done].
  destruct (ok_attempt_live _ Hok _ _ _ Ha Hl) as [(j & Ej' & Es') _].
  rewrite Ej in Ej'. injection Ej' as <-. rewrite <- Es', Es in Hl. done.
Qed.

Lemma attempt_active_live t id n a :
  tables_ok t -> tb_attempts t !! (id, n) = Some a -> active (att_State a) = true ->
  live (att_State a) = true.
Proof.
  intros Hok Ha. pose proof (ok_attempt_row _ Hok _ _ _ Ha) as (_ & _ & Hs & _).
  by destruct (att_State a).
Qed.

Lemma UpdateAttempt_ok db attempt db' :
  tables_ok (tables db) -> UpdateAttempt db attempt = Ok db' ->
  attempt_state (att_State attempt) = true ->
  (att_State attempt = Imported -> att_ImportReceipt attempt <> "") -> tables_ok (tables db').
Proof.
  intros Hok H Has Hrec. pose proof (UpdateAttempt_rows _ _ _ H) as
    (previous & current & job & Hp & Hact & Hk & Hst & _ & Hr & _ & Ej & Ei & ->).
  injection Hk as Hk1 Hk2.
  pose proof (attempt_active_live _ _ _ _ Hok Hp Hact) as Hl.
  destruct (ok_attempt_live _ Hok _ _ _ Hp Hl) as [(j & Ej' & Es) Hmax].
  rewrite Ej in Ej'. injection Ej' as <-.
  pose proof (ok_attempt_row _ Hok _ _ _ Hp) as (_ & Hone & _ & Hprev & _).
  pose proof (ok_job_live _ Hok _ _ Ej) as Hpend. rewrite Es in Hpend. destruct (Hpend Hl) as [Hpend' _].
  apply attempt_move_ok; rewrite ?Hk1, ?Hk2, ?Hst, ?Hr; try done.
  intros m b Hb. split; [apply Hmax; by eexists|]. intros Hm.
  destruct (live (att_State b)) eqn:Hlb; [|done].
  destruct (ok_attempt_live _ Hok _ _ _ Hb Hlb) as [_ Hmb].
  assert (att_Number attempt <= m) by (apply Hmb; by eexists).
  assert (m <= att_Number attempt) by (apply Hmax; by eexists). lia.
Qed.
End operations.
