(* ===== verification/RepairEngine.v ===== *)
(** * The repair engine and scheduler

    [internal/repair]: the programs that advance the jobs of one service. A
    program is a tree of calls: to the job database, to the service adapter, to
    the clock and to the configuration. It is executed one call at a time, so
    that other programs, the operator and a crash can come between two calls.
    Logging, timers and channels are left out; [context.WithoutCancel] is the
    identity, since a call may be answered in any way. The texts that errors
    are wrapped in are kept where they are stored, and left out elsewhere. *)
From stdpp Require Import base strings list gmap.
From coqutil Require Import Datatypes.RecordSetters.
From S2P Require Import Prelude GoStrings Jobs.
Import DoubleBraceUpdate jobs.

Module repair.

(** ** What the engine exchanges with a service (engine.go, scheduler.go) *)

Record PreparedImport := mkPreparedImport
  { pi_OutputPath : string; pi_Request : string; pi_HistoryIDBefore : Z }.

Record ImportStatus := mkImportStatus { is_Receipt : string; is_Failure : string }.

(** An error of [Adapter.Repair]; the flag says that it is a [BlockedError]. *)
Record RepairError := mkRepairError { re_Blocked : bool; re_Text : error }.

Record Observation := mkObservation
  { ob_Jobs : list Job; ob_Queue : list QueueKey; ob_Complete : list QueueKey }.

Record PlanDecision := mkPlanDecision { de_Data : string; de_Repair : bool; de_Reason : string }.

(** ** Calls *)

(** Transactions of the job store, by the type of what they return. *)
Inductive transaction : Type -> Type :=
| TxGet (id : Z) : transaction Job
| TxList (service : Service) : transaction (list Job)
| TxLatestAttempt (id : Z) : transaction Attempt
| TxObserve (observed : Job) : transaction Job
| TxStart (id : Z) (at_ : time) : transaction Attempt
| TxUpdateAttempt (attempt : Attempt) : transaction unit
| TxRequestAction (id : Z) (action guidance : string) (tolerance : Z) (at_ : time) : transaction unit
| TxRequestReconsideration (expected : Job) (guidance : string) (tolerance : Z) (at_ : time)
    : transaction unit
| TxSetPlan (id : Z) (fingerprint plan guidance : string) (at_ : time) : transaction unit
| TxFinishPlanning (planned : Job) : transaction unit
| TxStartRemoval (id : Z) (at_ : time) : transaction Job
| TxFinishRemoval (requested : Job) (failure : option error) (at_ : time) : transaction unit
| TxReconcileQueue (service : Service) (present : list QueueKey) (at_ : time) : transaction unit.

Definition run_transaction {DB} `{!JobDatabase DB} {A} (tx : transaction A) (db : DB)
    : result (A * DB) :=
  let unit_result (r : result DB) := db' ← r; mret (tt, db') in
  match tx in transaction A return result (A * DB) with
  | TxGet id => job ← Get db id; mret (job, db)
  | TxList service => Ok (List db service, db)
  | TxLatestAttempt id => attempt ← LatestAttempt db id; mret (attempt, db)
  | TxObserve observed => Observe db observed
  | TxStart id at_ => Start db id at_
  | TxUpdateAttempt attempt => unit_result (UpdateAttempt db attempt)
  | TxRequestAction id action guidance tolerance at_ =>
      unit_result (RequestAction db id action guidance tolerance at_)
  | TxRequestReconsideration expected guidance tolerance at_ =>
      unit_result (RequestReconsideration db expected guidance tolerance at_)
  | TxSetPlan id fingerprint plan guidance at_ =>
      unit_result (SetPlan db id fingerprint plan guidance at_)
  | TxFinishPlanning planned => unit_result (FinishPlanning db planned)
  | TxStartRemoval id at_ => StartRemoval db id at_
  | TxFinishRemoval requested failure at_ => unit_result (FinishRemoval db requested failure at_)
  | TxReconcileQueue service present at_ => unit_result (ReconcileQueue db service present at_)
  end.

(** [Submit] is given the attempt whose request it sends, so that a trace can
    tell submissions apart; the service sees [att_ImportRequest] only. *)
Inductive call : Type -> Type :=
| Transact {A} (tx : transaction A) : call (result A)
| Now : call time
| Cancelled : call (result unit)
| Disabled : call (result bool)
| ServiceObserve (previous : list Job) : call (result Observation)
| ServicePlan (job : Job) : call (result PlanDecision)
| ServiceReady (job : Job) : call bool
| ServiceRemove (job : Job) : call (result unit)
| Repair (job : Job) (attempt : Attempt) : call (PreparedImport + RepairError)
| Submit (attempt : Attempt) : call (result Z)
| CheckImport (attempt : Attempt) : call (result ImportStatus).

Inductive program (A : Type) : Type :=
| Ret (a : A)
| Call {B} (c : call B) (k : B -> program A).
Arguments Ret {A} a.
Arguments Call {A B} c k.

Fixpoint bind {A B} (f : A -> program B) (p : program A) : program B :=
  match p with
  | Ret a => f a
  | Call c k => Call c (fun b => bind f (k b))
  end.

#[global] Instance program_ret : MRet program := fun _ => Ret.
#[global] Instance program_bind : MBind program := fun _ _ => bind.

Definition perform {B} (c : call B) : program B := Call c Ret.
Definition transact {A} (tx : transaction A) : program (result A) := perform (Transact tx).

(** A step after one that may fail, as in [if err != nil { return err }]. *)
Definition andThen {A B} (p : program (result A)) (f : A -> program (result B)) : program (result B) :=
  r ← p;
  match r with Ok a => f a | Err e => mret (Err e) end.

Definition newline : string := String (Ascii.ascii_of_nat 10) "".

(** [errors.Join]; nil is [Ok tt]. *)
Definition Join (left right : result unit) : result unit :=
  match left, right with
  | Ok _, Ok _ => Ok tt
  | Err e, Ok _ => Err e
  | Ok _, Err e => Err e
  | Err e, Err f => Err (e +:+ newline +:+ f)
  end.

(** [errors.Is(err, jobs.ErrConflict)]: the error is the conflict, or one of the
    lines of a joined error is. *)
Definition conflict (r : result unit) : bool :=
  match r with
  | Ok _ => false
  | Err e => bool_decide (ErrConflict ∈ split_on (Ascii.ascii_of_nat 10) e)
  end.

Definition seconds : Z := 10 ^ 9.

(** ** The engine (engine.go) *)

Definition finish (attempt : Attempt) (state : State) (reason : string) : program (result unit) :=
  now ← perform Now;
  transact (TxUpdateAttempt
    (attempt {{ att_State := state; att_Reason := reason; att_UpdatedAt := UTC now }})).

(** The attempt after its import was checked; the clock is read only on the
    path where the command is finished and has no receipt. *)
Definition check_status (attempt : Attempt) (checked : result ImportStatus) : program Attempt :=
  match checked with
  | Err e => mret (attempt {{ att_Reason := "checking import: " +:+ e }})
  | Ok status =>
      if negb (bool_decide (is_Receipt status = ""))
      then mret (attempt {{ att_State := Imported; att_Reason := "";
                            att_ImportReceipt := is_Receipt status }})
      else if negb (bool_decide (is_Failure status = ""))
      then
        attempt ← (if IsZero (att_ImportTerminalAt attempt)
                   then now ← perform Now; mret (attempt {{ att_ImportTerminalAt := UTC now }})
                   else mret attempt);
        now ← perform Now;
        let attempt := attempt {{ att_Reason := "command finished; waiting for import history" }} in
        mret (if bool_decide (30 * seconds <= t_ns now - t_ns (att_ImportTerminalAt attempt))
              then attempt {{ att_State := Failed; att_Reason := is_Failure status }}
              else attempt)
      else if bool_decide (att_CommandID attempt = 0)
      then mret (attempt {{ att_Reason :=
                   "import submission uncertain; checking history without resubmitting" }})
      else mret attempt
  end.

Definition reconcile (attempt : Attempt) : program (result unit) :=
  checked ← perform (CheckImport attempt);
  attempt ← check_status attempt checked;
  now ← perform Now;
  updated ← transact (TxUpdateAttempt (attempt {{ att_UpdatedAt := UTC now }}));
  mret (Join (_ ← checked; mret tt) updated).

Definition execute (job : Job) (attempt : Attempt) : program (result unit) :=
  prepared ← perform (Repair job attempt);
  match prepared with
  | inr failure =>
      let state := if re_Blocked failure then Blocked else Failed in
      finished ← finish attempt state (re_Text failure);
      mret (Join (Err (re_Text failure)) finished)
  | inl import =>
      started ← perform Now;
      let attempt :=
        attempt {{ att_OutputPath := pi_OutputPath import; att_ImportRequest := pi_Request import;
                   att_HistoryIDBefore := pi_HistoryIDBefore import; att_State := Importing;
                   att_ImportStartedAt := UTC started; att_UpdatedAt := UTC started }} in
      andThen (transact (TxUpdateAttempt attempt)) (fun _ =>
        submitted ← perform (Submit attempt);
        let attempt :=
          match submitted with
          | Err e => attempt {{ att_Reason := "import submission uncertain: " +:+ e }}
          | Ok commandID => attempt {{ att_CommandID := commandID }}
          end in
        let submitErr := _ ← submitted; mret tt in
        now ← perform Now;
        let attempt := attempt {{ att_UpdatedAt := UTC now }} in
        updated ← transact (TxUpdateAttempt attempt);
        match updated with
        | Err e => mret (Join submitErr (Err e))
        | Ok _ => reconciled ← reconcile attempt; mret (Join submitErr reconciled)
        end)
  end.

Definition engine_Run (id : Z) : program (result unit) :=
  andThen (transact (TxGet id)) (fun job =>
    if bool_decide (job_State job = Ready)
    then
      now ← perform Now;
      andThen (transact (TxStart id now)) (fun attempt => execute job attempt)
    else if negb (bool_decide (job_State job = Running)) && negb (bool_decide (job_State job = Importing))
    then mret (Ok tt)
    else
      andThen (transact (TxLatestAttempt id)) (fun attempt =>
        if bool_decide (att_State attempt = Running)
        then finish attempt Failed "repair interrupted before import; reconsider to retry"
        else reconcile attempt)).

(** ** The scheduler (scheduler.go) *)

Definition hour : Z := 60 * minute.

(** The loop runs while it doubles a delay below six hours, at most as often as
    there are earlier attempts; [n] is the number of those left. *)
Fixpoint planning_delay_loop (n : nat) (delay : Z) : Z :=
  match n with
  | O => delay
  | S n => if bool_decide (delay < 6 * hour) then planning_delay_loop n (mul64 delay 2) else delay
  end.

Definition planningDelay (attempt : Z) : Z :=
  Z.min (planning_delay_loop (Z.to_nat (attempt - 1)) (5 * minute)) (6 * hour).

Definition plan (job : Job) : program (result unit) :=
  decided ← perform (ServicePlan job);
  now ← perform Now;
  let job := job {{ job_PlanningAttempts := add64 (job_PlanningAttempts job) 1;
                    job_UpdatedAt := UTC now }} in
  let job :=
    match decided with
    | Err e => job {{ job_Reason := "planning: " +:+ e;
                      job_RetryAt := Add (job_UpdatedAt job) (planningDelay (job_PlanningAttempts job)) }}
    | Ok decision => job {{ job_Plan := de_Data decision; job_Reason := de_Reason decision;
                            job_State := if de_Repair decision then Ready else Blocked }}
    end in
  finished ← transact (TxFinishPlanning job);
  mret (Join (_ ← decided; mret tt) finished).

Definition advanceJob (job : Job) (disabled : bool) : program (result unit) :=
  if bool_decide (job_State job = Importing) || bool_decide (job_State job = Running)
  then engine_Run (job_ID job)
  else if negb (job_InQueue job) then mret (Ok tt)
  else
    now ← perform Now;
    if Before now (job_RetryAt job) then mret (Ok tt)
    else if bool_decide (job_PendingAction job = Delete) then mret (Ok tt)
    else if bool_decide (job_State job = Observed) && bool_decide (job_CollectionError job = "") &&
            negb (bool_decide (job_Evidence job = ""))
    then plan job
    else if bool_decide (job_State job = Ready) && bool_decide (job_CollectionError job = "") &&
            negb disabled
    then
      ready ← perform (ServiceReady job);
      if ready : bool then engine_Run (job_ID job) else mret (Ok tt)
    else mret (Ok tt).

Fixpoint advance_jobs (disabled : bool) (listed : list Job) (failures : result unit)
    : program (result unit) :=
  match listed with
  | [] => mret failures
  | job :: rest =>
      cancelled ← perform Cancelled;
      match cancelled with
      | Err e => mret (Err e)
      | Ok _ =>
          advanced ← advanceJob job disabled;
          advance_jobs disabled rest (if conflict advanced then failures else Join failures advanced)
      end
  end.

Definition advance (name : Service) : program (result unit) :=
  andThen (transact (TxList name)) (fun listed =>
    andThen (perform Disabled) (fun disabled => advance_jobs disabled listed (Ok tt))).

Fixpoint request_removals (complete : list QueueKey) (listed : list Job) : program (result unit) :=
  match listed with
  | [] => mret (Ok tt)
  | job :: rest =>
      if negb (bool_decide (job_QueueKey job ∈ complete)) ||
         negb (bool_decide (job_PendingAction job = "")) || bool_decide (job_State job = Removed)
      then request_removals complete rest
      else
        now ← perform Now;
        requested ← transact (TxRequestAction (job_ID job) Delete "" 0 now);
        if negb (is_ok requested) && negb (conflict requested) then mret requested
        else request_removals complete rest
  end.

Definition requestCompletedRemovals (name : Service) (complete : list QueueKey) : program (result unit) :=
  andThen (perform Disabled) (fun disabled =>
    if disabled || bool_decide (complete = []) then mret (Ok tt)
    else andThen (transact (TxList name)) (fun listed => request_removals complete listed)).

Fixpoint observe_jobs (name : Service) (observed : list Job) : program (result unit) :=
  match observed with
  | [] => mret (Ok tt)
  | job :: rest =>
      now ← perform Now;
      andThen (transact (TxObserve (job {{ job_Service := name; job_UpdatedAt := UTC now }})))
        (fun _ => observe_jobs name rest)
  end.

Definition observe (name : Service) : program (result unit) :=
  andThen (transact (TxList name)) (fun previous =>
    andThen (perform (ServiceObserve previous)) (fun observed =>
      now ← perform Now;
      andThen (transact (TxReconcileQueue name (ob_Queue observed) now)) (fun _ =>
        andThen (observe_jobs name (ob_Jobs observed)) (fun _ =>
          requestCompletedRemovals name (ob_Complete observed))))).

(** One turn of the loop of [Scheduler.Run]: the time of the next observation
    and the outcomes that are logged. *)
Definition run_turn (name : Service) (interval : Z) (nextObservation : time)
    : program (time * result unit * result unit) :=
  now ← perform Now;
  observed ← (if Before now nextObservation then mret (nextObservation, Ok tt)
              else r ← observe name; mret (Add now interval, r));
  let '(next, seen) := observed in
  advanced ← advance name;
  mret (next, seen, advanced).

Fixpoint remove_jobs (listed : list Job) (failures : result unit) : program (result unit) :=
  match listed with
  | [] => mret failures
  | job :: rest =>
      if negb (bool_decide (job_PendingAction job = Delete)) then remove_jobs rest failures
      else
        now ← perform Now;
        if Before now (job_RetryAt job) then remove_jobs rest failures
        else
          now ← perform Now;
          started ← transact (TxStartRemoval (job_ID job) now);
          match started with
          | Err e => if bool_decide (e = ErrConflict) then remove_jobs rest failures else mret (Err e)
          | Ok requested =>
              removed ← perform (ServiceRemove requested);
              now ← perform Now;
              finished ← transact (TxFinishRemoval requested
                                     (match removed with Ok _ => None | Err e => Some e end) now);
              remove_jobs rest (Join failures (Join removed finished))
          end
  end.

(** The body of the loop of [runActions]. *)
Definition removeRequested (name : Service) : program (result unit) :=
  andThen (transact (TxList name)) (fun listed => remove_jobs listed (Ok tt)).

End repair.

(** ** The delay before planning is retried *)

Lemma planning_delay_loop_value n delay :
  0 < delay <= 6 * repair.hour ->
  Z.min (repair.planning_delay_loop n delay) (6 * repair.hour) =
  Z.min (delay * 2 ^ Z.of_nat n) (6 * repair.hour).
Proof.
  revert delay. induction n as [|n IH]; intros delay Hd; [by rewrite Z.mul_1_r|].
  simpl repair.planning_delay_loop. rewrite Nat2Z.inj_succ, Z.pow_succ_r by lia.
  assert (1 <= 2 ^ Z.of_nat n) by (apply (Z.pow_le_mono_r 2 0); lia).
  case_bool_decide as Hlt.
  - assert (mul64 delay 2 = delay * 2) as Hm.
    { unfold mul64. apply wrap64_id. unfold int64_range, repair.hour, minute in *. lia. }
    rewrite Hm. destruct (decide (delay * 2 <= 6 * repair.hour)) as [Hle|Hgt].
    + rewrite IH by lia. f_equal. lia.
    + rewrite (Z.min_r (delay * _)) by nia. apply Z.min_r.
      destruct n as [|n]; simpl; [lia|]. rewrite bool_decide_false by lia. lia.
  - rewrite Z.min_r by lia. symmetry. apply Z.min_r. nia.
Qed.

(** Planning is retried after five minutes, doubled for every earlier attempt
    and capped at six hours; no attempt count overflows the computation. *)
Theorem planningDelay_value (attempt : Z) :
  repair.planningDelay attempt =
    Z.min (5 * minute * 2 ^ Z.max 0 (attempt - 1)) (6 * repair.hour) /\
  5 * minute <= repair.planningDelay attempt <= 6 * repair.hour.
Proof.
  assert (repair.planningDelay attempt =
    Z.min (5 * minute * 2 ^ Z.max 0 (attempt - 1)) (6 * repair.hour)) as ->.
  { unfold repair.planningDelay. rewrite planning_delay_loop_value by (unfold repair.hour, minute; lia).
    do 2 f_equal. lia. }
  split; [done|]. assert (1 <= 2 ^ Z.max 0 (attempt - 1)) by (apply (Z.pow_le_mono_r 2 0); lia).
  unfold repair.hour, minute. lia.
Qed.
