(* ===== verification/RepairProtocol.v ===== *)
(** * Schedulers, the operator and crashes, interleaved

    The two services have a scheduler each, which runs two loops: one observes
    the queue and advances repairs, the other carries out removals. The operator
    requests actions at any time, and the process may stop between any two calls
    and start again with the database it left. Every program below satisfies a
    rely-guarantee condition, by recursion over its calls; the theorems follow
    for all interleavings. *)
From stdpp Require Import base strings list gmap sorting relations.
From coqutil Require Import Datatypes.RecordSetters.
From S2P Require Import Prelude Jobs JobInvariants RepairEngine.
Import DoubleBraceUpdate jobs repair.

Inductive thread := Main (service : Service) | Actions (service : Service).

#[global] Instance thread_eq_dec : EqDecision thread.
Proof. solve_decision. Defined.

Section protocol.
Context {DB : Type} `{!JobDatabase DB}.

(** The database and the attempts whose import was submitted, latest first. *)
Record World := mkWorld { w_db : DB; w_submitted : list Attempt }.

Definition w_jobs (w : World) : gmap Z Job := tb_jobs (tables (w_db w)).
Definition w_attempts (w : World) : gmap (Z * Z) Attempt := tb_attempts (tables (w_db w)).

(** How often an attempt was submitted. *)
Definition submissions (w : World) (key : Z * Z) : nat :=
  length (filter (fun a => attempt_key a = key) (w_submitted w)).

(** ** Answers

    A transaction is answered by the database or fails, a submission is
    recorded, and anything else may answer anything. *)

(** Attempt numbers and revisions stay below the largest [int64]. *)
Definition revision_fits (db : DB) (id : Z) : Prop :=
  forall job, tb_jobs (tables db) !! id = Some job ->
    int64_range (job_Revision job) /\ job_Revision job < max_int64.

Definition fits {A} (tx : transaction A) (db : DB) : Prop :=
  match tx with
  | TxStart id _ => attempt_fits db id
  | TxRequestAction id _ _ _ _ => revision_fits db id
  | TxRequestReconsideration expected _ _ _ => revision_fits db (job_ID expected)
  | _ => True
  end.

Definition answers {B} (c : call B) (w : World) : B -> World -> Prop :=
  match c in call B return B -> World -> Prop with
  | Transact tx => fun r w' =>
      match r with
      | Ok a => fits tx (w_db w) /\ exists db', run_transaction tx (w_db w) = Ok (a, db') /\
                                               w' = mkWorld db' (w_submitted w)
      | Err _ => w' = w
      end
  | Submit attempt => fun _ w' => w' = mkWorld (w_db w) (attempt :: w_submitted w)
  | _ => fun _ w' => w' = w
  end.

(** ** The system *)

(** What the operator and the UI may run at any time. *)
Inductive operator_transaction : transaction unit -> Prop :=
| operator_action id action guidance tolerance at_ :
    operator_transaction (TxRequestAction id action guidance tolerance at_)
| operator_reconsideration expected guidance tolerance at_ :
    operator_transaction (TxRequestReconsideration expected guidance tolerance at_)
| operator_plan id fingerprint plan guidance at_ :
    operator_transaction (TxSetPlan id fingerprint plan guidance at_).

(** What a thread is doing: nothing, or the rest of a turn of its loop. *)
Definition Activity := option (program unit).

Definition discard {A} (p : program A) : program unit := _ ← p; mret tt.

(** The turns of the loops of [Scheduler.Run] and [runActions]. *)
Inductive turn : thread -> program unit -> Prop :=
| turn_main service interval next :
    turn (Main service) (discard (run_turn service interval next))
| turn_actions service : turn (Actions service) (discard (removeRequested service)).

Record System := mkSystem { sy_world : World; sy_threads : thread -> Activity }.

Definition set_thread (threads : thread -> Activity) (th : thread) (a : Activity) : thread -> Activity :=
  fun th' => if decide (th' = th) then a else threads th'.

Inductive system_step : System -> System -> Prop :=
| system_begin w threads th p :
    threads th = None -> turn th p ->
    system_step (mkSystem w threads) (mkSystem w (set_thread threads th (Some p)))
| system_call w threads th B (c : call B) k b w' :
    threads th = Some (Call c k) -> answers c w b w' ->
    system_step (mkSystem w threads) (mkSystem w' (set_thread threads th (Some (k b))))
| system_end w threads th u :
    threads th = Some (Ret u) ->
    system_step (mkSystem w threads) (mkSystem w (set_thread threads th None))
| system_operator w threads tx db' :
    operator_transaction tx -> fits tx (w_db w) -> run_transaction tx (w_db w) = Ok (tt, db') ->
    system_step (mkSystem w threads) (mkSystem (mkWorld db' (w_submitted w)) threads)
| system_crash w threads :
    system_step (mkSystem w threads) (mkSystem w (fun _ => None)).

(** A new database is empty; what is stored later is reached from it. *)
Definition empty_tables (t : Tables) : Prop :=
  tb_jobs t = ∅ /\ tb_attempts t = ∅ /\ tb_results t = ∅.

Inductive reachable_system : System -> Prop :=
| reachable_empty db :
    empty_tables (tables db) -> reachable_system (mkSystem (mkWorld db []) (fun _ => None))
| reachable_step s s' : reachable_system s -> system_step s s' -> reachable_system s'.

(** ** Invariant, interference and guarantee *)

(** No attempt is submitted twice, and an attempt that was submitted is no
    longer in the state in which it may be prepared again. *)
Record world_ok (w : World) : Prop := mkWorldOk
  { ok_tables : tables_ok (tables (w_db w));
    ok_once : forall key, (submissions w key <= 1)%nat;
    ok_submitted : forall a, a ∈ w_submitted w ->
      exists b, w_attempts w !! attempt_key a = Some b /\ att_State b <> Running }.

Definition keeps_jobs (w w' : World) : Prop :=
  forall id j, w_jobs w !! id = Some j ->
    exists j', w_jobs w' !! id = Some j' /\ job_Service j' = job_Service j.

Definition keeps_attempts (service : Service) (w w' : World) : Prop :=
  forall id j, w_jobs w !! id = Some j -> job_Service j = service ->
    forall n, w_attempts w' !! (id, n) = w_attempts w !! (id, n) /\
              submissions w' (id, n) = submissions w (id, n).

Definition keeps_removals (service : Service) (w w' : World) : Prop :=
  forall id j, w_jobs w !! id = Some j -> job_Service j = service -> job_State j = Removing ->
    exists j', w_jobs w' !! id = Some j' /\ row_kept j j'.

Definition rely (th : thread) (w w' : World) : Prop :=
  world_ok w' /\ keeps_jobs w w' /\
  match th with
  | Main service => keeps_attempts service w w'
  | Actions service => keeps_removals service w w'
  end.

Definition guarantee (th : option thread) (w w' : World) : Prop :=
  world_ok w' /\ keeps_jobs w w' /\
  (forall service, th <> Some (Main service) -> keeps_attempts service w w') /\
  (forall service, th <> Some (Actions service) -> keeps_removals service w w').

(** When a call may be made that has an effect outside the database, or that
    stores a state of its own choice. *)
Definition permitted {B} (c : call B) (w : World) : Prop :=
  match c with
  | Transact (TxUpdateAttempt attempt) => attempt_state (att_State attempt) = true
  | Transact (TxFinishPlanning planned) => live (job_State planned) = false
  | Submit attempt =>
      submissions w (attempt_key attempt) = 0%nat /\
      exists b, w_attempts w !! attempt_key attempt = Some b /\ att_State b = Importing /\
                att_ImportRequest b = att_ImportRequest attempt
  | ServiceRemove job =>
      exists j, w_jobs w !! job_ID job = Some j /\ job_State j = Removing /\
                job_PendingAction j = Delete
  | _ => True
  end.

Fixpoint wp {A} (th : thread) (p : program A) (Q : A -> World -> Prop) (w : World) : Prop :=
  forall w', rely th w w' ->
    match p with
    | Ret a => Q a w'
    | Call c k =>
        permitted c w' /\
        forall b w'', answers c w' b w'' -> guarantee (Some th) w' w'' /\ wp th (k b) Q w''
    end.

(** ** Structure of interference *)

Lemma rely_refl th w : world_ok w -> rely th w w.
Proof.
  intros Hok. split; [done|]. split; [by intros id j Ej; exists j|].
  destruct th; [done|]. intros id j Ej _ _. exists j. done.
Qed.

Lemma keeps_jobs_trans w1 w2 w3 : keeps_jobs w1 w2 -> keeps_jobs w2 w3 -> keeps_jobs w1 w3.
Proof.
  intros H1 H2 id j (j' & Ej' & Es')%H1. apply H2 in Ej' as (j'' & ? & ?). exists j''.
  split; [done|congruence].
Qed.

Lemma rely_trans th w1 w2 w3 : rely th w1 w2 -> rely th w2 w3 -> rely th w1 w3.
Proof.
  intros (_ & Hj & Hk) (Hok & Hj' & Hk'). split; [done|]. split; [by eapply keeps_jobs_trans|].
  destruct th as [service|service].
  - intros id j Ej Es n. destruct (Hj _ _ Ej) as (j' & Ej' & Es').
    destruct (Hk _ _ Ej Es n) as [<- <-]. apply (Hk' _ _ Ej'). congruence.
  - intros id j Ej Es Hr. destruct (Hk _ _ Ej Es Hr) as (j' & Ej' & K1 & K2 & K3).
    destruct (Hj _ _ Ej) as (k & Ek & Ek'). rewrite Ej' in Ek. injection Ek as <-.
    destruct (Hk' _ _ Ej') as (j'' & ? & L1 & L2 & L3); [congruence|congruence|].
    exists j''. split; [done|]. unfold row_kept. by rewrite L1, L2, L3.
Qed.

Lemma guarantee_rely th th' w w' : Some th' <> th -> guarantee th w w' -> rely th' w w'.
Proof.
  intros Hne (? & ? & Ha & Hr). split; [done|]. split; [done|].
  destruct th'; [apply Ha|apply Hr]; congruence.
Qed.

(** ** Rules for programs *)

Lemma wp_pre {A} th (p : program A) Q w :
  (forall w', rely th w w' -> wp th p Q w') -> wp th p Q w.
Proof.
  intros H. destruct p; simpl in *; intros w' R;
    apply (H w' R w'), rely_refl; by destruct R.
Qed.

Lemma wp_later {A} th (p : program A) Q w w' : rely th w w' -> wp th p Q w -> wp th p Q w'.
Proof. intros R H. destruct p; simpl in *; intros w'' R'; apply H; by eapply rely_trans. Qed.

Lemma wp_ret {A} th (a : A) Q w : (forall w', rely th w w' -> Q a w') -> wp th (mret a) Q w.
Proof. done. Qed.

Lemma wp_bind {A B} th (p : program A) (f : A -> program B) Q w :
  wp th p (fun a => wp th (f a) Q) w -> wp th (p ≫= f) Q w.
Proof.
  revert w. induction p as [a|C c k IH]; intros w H.
  - apply wp_pre. intros w' R. by apply H.
  - intros w' R. destruct (H w' R) as [Hp Hk]. split; [done|].
    intros b w'' Hb. destruct (Hk b w'' Hb) as [Hg Hw]. split; [done|]. by apply IH.
Qed.

Lemma wp_conseq {A} th (p : program A) (Q Q' : A -> World -> Prop) w :
  (forall a w', Q a w' -> Q' a w') -> wp th p Q w -> wp th p Q' w.
Proof.
  intros HQ. revert w. induction p as [a|C c k IH]; intros w H w' R.
  - by apply HQ, H.
  - destruct (H w' R) as [Hp Hk]. split; [done|]. intros b w'' Hb.
    destruct (Hk b w'' Hb) as [Hg Hw]. split; [done|]. by apply IH.
Qed.

(** Every call keeps the jobs, so a program does. *)
Lemma wp_keeps_from {A} th (p : program A) (Q : A -> World -> Prop) w0 w :
  keeps_jobs w0 w -> wp th p Q w -> wp th p (fun a w' => keeps_jobs w0 w' /\ Q a w') w.
Proof.
  revert w. induction p as [a|C c k IH]; intros w H0 H w' R.
  - split; [|by apply H]. eapply keeps_jobs_trans; [exact H0|apply R].
  - destruct (H w' R) as [Hp Hk]. split; [done|]. intros b w'' Hb.
    destruct (Hk b w'' Hb) as [Hg Hw]. split; [done|]. apply IH; [|done].
    eapply keeps_jobs_trans; [exact H0|]. eapply keeps_jobs_trans; [apply R|apply Hg].
Qed.

Lemma wp_keeps {A} th (p : program A) (Q : A -> World -> Prop) w :
  wp th p Q w -> wp th p (fun a w' => keeps_jobs w w' /\ Q a w') w.
Proof. apply wp_keeps_from. intros id j Ej. by exists j. Qed.

Lemma wp_andThen {A B} th (p : program (result A)) (f : A -> program (result B)) Q w :
  wp th p (fun r w' => match r with Ok a => wp th (f a) Q w' | Err e => Q (Err e) w' end) w ->
  (forall w' e, world_ok w' -> Q (Err e) w' -> forall w'', rely th w' w'' -> Q (Err e) w'') ->
  wp th (andThen p f) Q w.
Proof.
  intros H Hst. apply wp_bind. revert H. revert w. induction p as [r|C c k IH]; intros w H w' R.
  - specialize (H w' R). destruct r as [a|e]; [done|]. intros w'' R'. by apply (Hst w'); destruct R.
  - destruct (H w' R) as [Hp Hk]. split; [done|]. intros b w'' Hb.
    destruct (Hk b w'' Hb) as [Hg Hw]. split; [done|]. by apply IH.
Qed.

Lemma guarantee_refl th w : world_ok w -> guarantee th w w.
Proof.
  intros. split; [done|]. split; [by intros id j Ej; exists j|]. split; [done|].
  intros service _ id j Ej _ _. by exists j.
Qed.

(** Calls that only return something. *)
Definition reads {B} (c : call B) : bool :=
  match c with Transact _ | Submit _ | ServiceRemove _ => false | _ => true end.

Lemma reads_answers {B} (c : call B) w b w' : reads c = true -> answers c w b w' -> w' = w.
Proof. by destruct c. Qed.

Lemma wp_reads {B} th (c : call B) Q w :
  reads c = true -> (forall b w', rely th w w' -> Q b w') -> wp th (perform c) Q w.
Proof.
  intros Hc H w' R. split; [by destruct c|]. intros b w'' Ha.
  apply reads_answers in Ha as ->; [|done].
  split; [apply guarantee_refl; by destruct R|]. intros w3 R3. apply H. by eapply rely_trans.
Qed.

Lemma wp_transact {A} th (tx : transaction A) Q w :
  (forall w', permitted (Transact tx) w') ->
  (forall w' a db', rely th w w' -> fits tx (w_db w') ->
     run_transaction tx (w_db w') = Ok (a, db') ->
     guarantee (Some th) w' (mkWorld db' (w_submitted w')) /\
     forall w'', rely th (mkWorld db' (w_submitted w')) w'' -> Q (Ok a) w'') ->
  (forall w' e, rely th w w' -> Q (Err e) w') ->
  wp th (transact tx) Q w.
Proof.
  intros Hp Hok Herr w' R. split; [apply Hp|]. intros [a|e] w'' Ha; simpl in Ha.
  - destruct Ha as (Hf & db' & Hrun & ->). destruct (Hok w' a db' R Hf Hrun). done.
  - subst w''. split; [apply guarantee_refl; by destruct R|].
    intros w'' R'. apply Herr. by eapply rely_trans.
Qed.

(** ** What transactions guarantee *)

Lemma quiet_guarantee freed th w db' :
  world_ok w -> quiet freed (tables (w_db w)) (tables db') ->
  (forall id service j, freed = Some id -> w_jobs w !! id = Some j -> job_Service j = service ->
     th = Some (Actions service)) ->
  guarantee th w (mkWorld db' (w_submitted w)).
Proof.
  intros [Ht Ho Hs] Hq Hfreed. pose proof Hq as [Ea _]. split_and!.
  - split; [by eapply quiet_ok|done|]. unfold w_attempts. simpl. rewrite Ea. apply Hs.
  - intros id j Ej. by eapply quiet_job.
  - intros service _ id j Ej _ n. unfold w_attempts. simpl. rewrite Ea. done.
  - intros service Hne id j Ej Es Hr. eapply quiet_removing; try done.
    intros ->. apply Hne. by eapply Hfreed.
Qed.

Lemma calm_guarantee th w db' :
  world_ok w -> quiet None (tables (w_db w)) (tables db') ->
  guarantee th w (mkWorld db' (w_submitted w)).
Proof. intros. by eapply quiet_guarantee. Qed.

(** Transactions that any thread may run. *)
Definition calm {A} (tx : transaction A) : Prop :=
  match tx with
  | TxStart _ _ | TxUpdateAttempt _ | TxFinishRemoval _ _ _ => False
  | TxFinishPlanning planned => live (job_State planned) = false /\ job_State planned <> Removing
  | _ => True
  end.

Lemma calm_quiet {A} (tx : transaction A) db a db' :
  calm tx -> tables_ok (tables db) -> run_transaction tx db = Ok (a, db') ->
  quiet None (tables db) (tables db').
Proof.
  intros Hc Hok H. destruct tx; simpl in *; try done.
  - apply bind_Ok in H as (? & _ & H). injection H as _ <-. apply quiet_refl.
  - injection H as _ <-. apply quiet_refl.
  - apply bind_Ok in H as (? & _ & H). injection H as _ <-. apply quiet_refl.
  - by eapply Observe_quiet.
  - apply bind_Ok in H as (? & H & Hr). injection Hr as _ <-. by eapply requestAction_quiet.
  - apply bind_Ok in H as (? & H & Hr). injection Hr as _ <-. by eapply requestAction_quiet.
  - apply bind_Ok in H as (? & H & Hr). injection Hr as _ <-. by eapply SetPlan_quiet.
  - apply bind_Ok in H as (? & H & Hr). injection Hr as _ <-.
    destruct Hc. by eapply FinishPlanning_quiet.
  - by apply StartRemoval_quiet in H as [? _].
  - apply bind_Ok in H as (? & H & Hr). injection Hr as _ <-. by eapply ReconcileQueue_quiet.
Qed.

Lemma wp_calm {A} th (tx : transaction A) Q w :
  calm tx -> (forall r w', rely th w w' -> Q r w') -> wp th (transact tx) Q w.
Proof.
  intros Hc H. apply wp_transact; [intros w'; destruct tx; try done; apply Hc| |intros; by apply H].
  intros w' a db' R _ Hrun. pose proof R as (Hok & _).
  assert (quiet None (tables (w_db w')) (tables db')) by (eapply calm_quiet; [done|apply Hok|done]).
  split; [by apply calm_guarantee|]. intros w'' R''. apply H.
  eapply rely_trans; [exact R|]. eapply rely_trans; [|exact R''].
  apply (guarantee_rely None); [done|by apply calm_guarantee].
Qed.

(** ** The main loop *)

Section main.
Context (service : Service).

(** A job of this service; it stays one. *)
Definition owned (id : Z) (w : World) : Prop :=
  exists j, w_jobs w !! id = Some j /\ job_Service j = service.

Lemma owned_later th id w w' : rely th w w' -> owned id w -> owned id w'.
Proof.
  intros (_ & Hj & _) (j & Ej & Es). destruct (Hj _ _ Ej) as (j' & ? & ?). exists j'.
  split; [done|congruence].
Qed.

Lemma owned_attempts id n w w' :
  rely (Main service) w w' -> owned id w ->
  w_attempts w' !! (id, n) = w_attempts w !! (id, n) /\ submissions w' (id, n) = submissions w (id, n).
Proof. intros (_ & _ & Hk) (j & Ej & Es). by apply (Hk _ _ Ej). Qed.

(** An attempt that the engine may store. *)
Definition storable (attempt : Attempt) : Prop :=
  attempt_state (att_State attempt) = true /\ att_State attempt <> Running /\
  (att_State attempt = Imported -> att_ImportReceipt attempt <> "").

(** A job and one of its attempts move together. *)
Lemma move_guarantee w job job' attempt db' :
  world_ok w -> w_jobs w !! att_JobID attempt = Some job -> job_Service job = service ->
  job_ID job' = att_JobID attempt -> job_Service job' = service -> job_State job <> Removing ->
  tables db' = put_job job' (put_attempt attempt (tables (w_db w))) -> tables_ok (tables db') ->
  (att_State attempt <> Running \/ w_attempts w !! attempt_key attempt = None) ->
  guarantee (Some (Main service)) w (mkWorld db' (w_submitted w)).
Proof.
  intros [Ht Ho Hs] Ej Es Ei' Es' Hr Htb Hok Hst.
  assert (forall id, id <> att_JobID attempt -> w_jobs (mkWorld db' (w_submitted w)) !! id = w_jobs w !! id)
    as Hother.
  { intros id Hne. unfold w_jobs. simpl. rewrite Htb. simpl. apply lookup_insert_ne. congruence. }
  assert (w_jobs (mkWorld db' (w_submitted w)) !! att_JobID attempt = Some (stored job')) as Hthis.
  { unfold w_jobs. simpl. rewrite Htb. simpl. rewrite Ei'. apply lookup_insert_eq. }
  split_and!.
  - split; [done|done|]. intros a Ha. destruct (Hs a Ha) as (b & Hb & Hbs).
    unfold w_attempts in *. simpl. rewrite Htb. simpl.
    destruct (decide (attempt_key attempt = attempt_key a)) as [Hk|Hk].
    + rewrite Hk, lookup_insert_eq. exists attempt. split; [done|].
      destruct Hst as [?|Hn]; [done|]. by rewrite Hk, Hb in Hn.
    + rewrite lookup_insert_ne by done. by exists b.
  - intros id j Ej0. destruct (decide (id = att_JobID attempt)) as [->|Hne].
    + exists (stored job'). split; [done|]. rewrite Ej in Ej0. injection Ej0 as <-.
      change (job_Service job' = job_Service job). congruence.
    + exists j. by rewrite Hother.
  - intros s Hne id j Ej0 Es0 n. split; [|done]. unfold w_attempts. simpl. rewrite Htb. simpl.
    apply lookup_insert_ne. intros [= E _]. rewrite <- E, Ej in Ej0. injection Ej0 as <-.
    apply Hne. congruence.
  - intros s _ id j Ej0 _ Hrj. destruct (decide (id = att_JobID attempt)) as [->|Hne].
    + rewrite Ej in Ej0. injection Ej0 as <-. done.
    + exists j. rewrite Hother by done. by split.
Qed.

(** The row of an attempt as the engine last stored it. *)
Definition recorded (attempt : Attempt) (w : World) : Prop :=
  exists b, w_attempts w !! attempt_key attempt = Some b /\ att_State b = att_State attempt /\
            att_ImportRequest b = att_ImportRequest attempt.

Lemma wp_update attempt (Q : result unit -> World -> Prop) w :
  owned (att_JobID attempt) w -> storable attempt ->
  (forall w', owned (att_JobID attempt) w' -> recorded attempt w' ->
     submissions w' (attempt_key attempt) = submissions w (attempt_key attempt) -> Q (Ok tt) w') ->
  (forall e w', Q (Err e) w') ->
  wp (Main service) (transact (TxUpdateAttempt attempt)) Q w.
Proof.
  intros Hown (Has & Hnr & Hrec) HQ Herr. apply wp_transact; [done| |done].
  intros w' [] db' R _ H. pose proof R as (Hok & _). simpl in H. apply bind_Ok in H as (d & H & Hd).
  injection Hd as <-. pose proof (owned_later _ _ _ _ R Hown) as (j & Ej & Es).
  pose proof (UpdateAttempt_ok _ _ _ (ok_tables _ Hok) H Has Hrec) as Hok'.
  destruct (UpdateAttempt_rows _ _ _ H) as
    (previous & current & job & Hp & Hact & Hk & Hst & Hreq & _ & _ & Ejob & Ei & Ht).
  unfold w_jobs in Ej. rewrite Ejob in Ej. injection Ej as <-.
  pose proof (attempt_active_live _ _ _ _ (ok_tables _ Hok) Hp Hact) as Hl.
  destruct (ok_attempt_live _ (ok_tables _ Hok) _ _ _ Hp Hl) as [(j' & Ej' & Es') _].
  rewrite Ejob in Ej'. injection Ej' as <-. injection Hk as Hk1 Hk2.
  assert (guarantee (Some (Main service)) w' (mkWorld d (w_submitted w'))) as Hg.
  { eapply move_guarantee; [| | | | | |exact Ht|..]; rewrite ?Hk1; try done; [intros E; by rewrite <- Es', E in Hl|].
    left. congruence. }
  split; [done|]. intros w'' R''. pose proof Hg as (_ & Hkj & _).
  destruct (Hkj (att_JobID attempt) job Ejob) as (j2 & Ej2 & Es2).
  assert (owned (att_JobID attempt) (mkWorld d (w_submitted w'))) as Hown' by (exists j2; by rewrite Es2).
  destruct (owned_attempts (att_JobID attempt) (att_Number attempt) _ _ R'' Hown') as [Ea Esub].
  destruct (owned_attempts (att_JobID attempt) (att_Number attempt) _ _ R Hown) as [_ Esub0].
  apply HQ.
  - by eapply owned_later.
  - exists current. unfold attempt_key. rewrite Ea. unfold w_attempts. simpl. rewrite Ht. simpl.
    unfold attempt_key. rewrite Hk1, Hk2. by rewrite lookup_insert_eq.
  - unfold attempt_key. by rewrite Esub, <- Esub0.
Qed.

Definition anything {A} (a : A) (w : World) : Prop := True.

Lemma wp_finish attempt state reason w :
  owned (att_JobID attempt) w -> state = Failed \/ state = Blocked ->
  wp (Main service) (finish attempt state reason) anything w.
Proof.
  intros Hown Hst. apply wp_bind, wp_reads; [done|]. intros now w' R.
  apply wp_update; [by eapply owned_later|by destruct Hst as [-> | ->]|done|done].
Qed.

(** Checking an import keeps the attempt, or ends it with a receipt or a failure. *)
Lemma wp_check_status attempt checked (Q : Attempt -> World -> Prop) w :
  (forall attempt' w', rely (Main service) w w' -> attempt_key attempt' = attempt_key attempt ->
     (att_State attempt' = att_State attempt /\
        att_ImportReceipt attempt' = att_ImportReceipt attempt \/
      att_State attempt' = Imported /\ att_ImportReceipt attempt' <> "" \/
      att_State attempt' = Failed) -> Q attempt' w') ->
  wp (Main service) (check_status attempt checked) Q w.
Proof.
  intros HQ. unfold check_status. destruct checked as [status|e].
  2: { apply wp_ret. intros w' R. apply HQ; [done|done|by left]. }
  destruct (decide (is_Receipt status = "")) as [Hr|Hr].
  2: { rewrite bool_decide_false by done. apply wp_ret. intros w' R.
       apply HQ; [done|done|right; by left]. }
  rewrite (bool_decide_true (is_Receipt status = "")) by done. cbn [negb].
  destruct (bool_decide (is_Failure status = "")); cbn [negb].
  { destruct (bool_decide _); apply wp_ret; intros w' R; (apply HQ; [done|done|by left]). }
  apply wp_bind.
  assert (forall a w', rely (Main service) w w' -> attempt_key a = attempt_key attempt ->
    att_State a = att_State attempt -> att_ImportReceipt a = att_ImportReceipt attempt ->
    wp (Main service)
      (now ← perform Now;
       mret (if bool_decide (30 * seconds <= t_ns now - t_ns (att_ImportTerminalAt
                 (a {{ att_Reason := "command finished; waiting for import history" }})))
             then a {{ att_Reason := "command finished; waiting for import history";
                       att_State := Failed; att_Reason := is_Failure status }}
             else a {{ att_Reason := "command finished; waiting for import history" }})) Q w') as Hrest.
  { intros a w' R Hk Hs Hrc. apply wp_bind, wp_reads; [done|]. intros now w1 R1. apply wp_ret.
    intros w2 R2. assert (rely (Main service) w w2) by (do 2 (eapply rely_trans; [done|]); done).
    destruct (bool_decide _); apply HQ; try done; [by do 2 right|by left]. }
  destruct (IsZero _).
  - apply wp_bind, wp_reads; [done|]. intros now w1 R1. apply wp_ret. intros w2 R2.
    apply Hrest; try done. by eapply rely_trans.
  - apply wp_ret. intros w1 R1. by apply Hrest.
Qed.

Lemma wp_reconcile attempt w :
  owned (att_JobID attempt) w -> storable attempt ->
  wp (Main service) (reconcile attempt) anything w.
Proof.
  intros Hown (Has & Hnr & Hrec). apply wp_bind, wp_reads; [done|]. intros checked w1 R1.
  apply wp_bind, wp_check_status. intros attempt' w2 R2 Hk Hs. injection Hk as Hk1 Hk2.
  apply wp_bind, wp_reads; [done|]. intros now w3 R3.
  apply wp_bind, wp_update.
  - change (owned (att_JobID attempt') w3). rewrite Hk1.
    do 3 (eapply owned_later; [done|]). done.
  - unfold storable. change (storable attempt'). unfold storable.
    destruct Hs as [[-> ->]|[[-> ?]| ->]]; done.
  - intros. apply wp_ret. done.
  - intros. apply wp_ret. done.
Qed.

(** A submission is made once, from the recorded request. *)
Lemma wp_submit attempt (Q : result Z -> World -> Prop) w :
  owned (att_JobID attempt) w -> recorded attempt w -> att_State attempt = Importing ->
  submissions w (attempt_key attempt) = 0%nat ->
  (forall r w', owned (att_JobID attempt) w' -> Q r w') ->
  wp (Main service) (perform (Submit attempt)) Q w.
Proof.
  intros Hown Hrow Hst Hzero HQ w' R. pose proof R as (Hok & _).
  destruct (owned_attempts (att_JobID attempt) (att_Number attempt) _ _ R Hown) as [Ea Esub].
  pose proof (owned_later _ _ _ _ R Hown) as Hown'.
  destruct Hrow as (b & Hb & Hbs & Hbr). unfold attempt_key in Hb, Hzero.
  assert (w_attempts w' !! attempt_key attempt = Some b) as Hb' by (unfold attempt_key; by rewrite Ea).
  split.
  - simpl. unfold attempt_key at 1. rewrite Esub. split; [done|]. exists b.
    split_and!; [done|congruence|done].
  - intros r w'' ->.
    assert (forall id n, (id, n) <> attempt_key attempt ->
              submissions (mkWorld (w_db w') (attempt :: w_submitted w')) (id, n) =
              submissions w' (id, n)) as Hother.
    { intros id n Hne. unfold submissions. simpl. rewrite filter_cons_False by done. done. }
    assert (submissions (mkWorld (w_db w') (attempt :: w_submitted w')) (attempt_key attempt) = 1%nat) as Hone.
    { unfold submissions at 1. simpl. rewrite filter_cons_True by done. simpl.
      change (S (submissions w' (att_JobID attempt, att_Number attempt)) = 1%nat).
      by rewrite Esub, Hzero. }
    split.
    + split_and!.
      * split; [apply Hok| |].
        -- intros [id n]. destruct (decide ((id, n) = attempt_key attempt)) as [->|Hne]; [lia|].
           rewrite Hother by done. apply (ok_once _ Hok).
        -- intros a [->|Ha]%elem_of_cons; [exists b; split; [done|congruence]|].
           by apply (ok_submitted _ Hok).
      * intros id j Ej. by exists j.
      * intros s Hne id j Ej Es n. split; [done|]. apply Hother. intros [= -> ->].
        destruct Hown' as (j' & Ej' & Es'). rewrite Ej in Ej'. injection Ej' as <-. apply Hne. congruence.
      * intros s _ id j Ej _ _. by exists j.
    + intros w3 R3. apply HQ. by eapply owned_later.
Qed.

Lemma wp_execute job attempt w :
  owned (att_JobID attempt) w -> submissions w (attempt_key attempt) = 0%nat ->
  wp (Main service) (execute job attempt) anything w.
Proof.
  intros Hown Hzero. apply wp_bind, wp_reads; [done|]. intros [import|failure] w1 R1.
  - assert (submissions w1 (attempt_key attempt) = 0%nat) as Hzero1.
    { unfold attempt_key in *. by destruct (owned_attempts _ (att_Number attempt) _ _ R1 Hown) as [_ ->]. }
    apply (owned_later _ _ _ _ R1) in Hown. apply wp_bind, wp_reads; [done|]. intros now w2 R2.
    assert (submissions w2 (attempt_key attempt) = 0%nat) as Hzero2.
    { unfold attempt_key in *. by destruct (owned_attempts _ (att_Number attempt) _ _ R2 Hown) as [_ ->]. }
    apply (owned_later _ _ _ _ R2) in Hown. apply wp_andThen; [|done].
    apply wp_update; [exact Hown|done| |done]. intros w3 Hown3 Hrow Hsub.
    apply wp_bind, wp_submit; [exact Hown3|exact Hrow|done|by rewrite Hsub|].
    intros submitted w4 Hown4. apply wp_bind, wp_reads; [done|]. intros t w5 R5.
    apply (owned_later _ _ _ _ R5) in Hown4.
    destruct submitted as [commandID|e]; apply wp_bind;
      (apply wp_update; [exact Hown4|done| |]).
    all: try (intros; by apply wp_ret).
    all: intros w6 Hown6 _ _; apply wp_bind;
      (eapply wp_conseq; [|apply wp_reconcile; [exact Hown6|done]]); intros; by apply wp_ret.
  - apply wp_bind. eapply wp_conseq; [|apply wp_finish; [by eapply owned_later|]].
    + intros. by apply wp_ret.
    + destruct (re_Blocked failure); tauto.
Qed.

Lemma submissions_zero w key :
  (forall a, a ∈ w_submitted w -> attempt_key a <> key) -> submissions w key = 0%nat.
Proof.
  intros H. unfold submissions. destruct (filter _ _) as [|a l] eqn:E; [done|].
  assert (a ∈ a :: l) as Ha by by left. rewrite <- E in Ha.
  apply list_elem_of_filter in Ha as [Hk Ha]. by apply H in Ha.
Qed.

(** A new attempt has not been submitted. *)
Lemma wp_start id at_ (Q : result Attempt -> World -> Prop) w :
  owned id w ->
  (forall attempt w', owned (att_JobID attempt) w' -> submissions w' (attempt_key attempt) = 0%nat ->
     Q (Ok attempt) w') ->
  (forall e w', Q (Err e) w') ->
  wp (Main service) (transact (TxStart id at_)) Q w.
Proof.
  intros Hown HQ Herr. apply wp_transact; [done| |done].
  intros w' attempt db' R Hfits H. pose proof R as (Hok & _). simpl in Hfits, H.
  pose proof (owned_later _ _ _ _ R Hown) as (j & Ej & Es).
  pose proof (Start_ok _ _ _ _ _ (ok_tables _ Hok) Hfits H) as Hok'.
  destruct (Start_rows _ _ _ _ _ H) as (job & Ejob & Est & _ & Ei & Hn & Hid & Hst & _ & _ & Ht).
  unfold w_jobs in Ej. rewrite Ejob in Ej. injection Ej as <-.
  assert (guarantee (Some (Main service)) w' (mkWorld db' (w_submitted w'))) as Hg.
  { eapply move_guarantee; [| | | | | |exact Ht|..]; rewrite ?Hid; try done; [by rewrite Est|by right]. }
  split; [done|]. intros w'' R''. pose proof Hg as (_ & Hkj & _).
  destruct (Hkj id job Ejob) as (j2 & Ej2 & Es2).
  assert (owned id (mkWorld db' (w_submitted w'))) as Hown' by (exists j2; by rewrite Es2).
  apply HQ; rewrite ?Hid; [by eapply owned_later|].
  destruct (owned_attempts id (att_Number attempt) _ _ R'' Hown') as [_ Esub].
  unfold attempt_key in *. rewrite Hid in *. rewrite Esub. apply submissions_zero.
  intros a Ha Hk. destruct (ok_submitted _ Hok a Ha) as (b & Hb & _).
  unfold attempt_key, w_attempts in *. congruence.
Qed.

Lemma wp_engine_Run id w : owned id w -> wp (Main service) (engine_Run id) anything w.
Proof.
  intros Hown. apply wp_andThen; [|done]. apply wp_calm; [done|]. intros [job|e] w1 R1; [|done].
  apply (owned_later _ _ _ _ R1) in Hown.
  destruct (bool_decide _).
  { apply wp_bind, wp_reads; [done|]. intros now w2 R2. apply wp_andThen; [|done].
    apply wp_start; [by eapply owned_later| |done]. intros attempt w3 Hown3 Hzero. by apply wp_execute. }
  destruct (_ && _); [by apply wp_ret|]. apply wp_andThen; [|done].
  apply wp_transact; [done| |done]. intros w2 attempt db' R2 _ H. simpl in H.
  apply bind_Ok in H as (a & Ha & H). injection H as <- <-. pose proof R2 as (Hok & _).
  destruct w2 as [db2 tr2]. simpl in *. split; [by apply guarantee_refl|]. intros w3 R3.
  unfold LatestAttempt in Ha. pose proof (last_attempt db2 id) as Hlast.
  destruct (last (find_attempts db2 id)) as [b|]; [|done]. injection Ha as <-.
  destruct Hlast as (Hrow & Hid & _).
  pose proof (ok_attempt_row _ (ok_tables _ Hok) _ _ _ Hrow) as (_ & _ & Hs & _ & Hrec).
  assert (owned (att_JobID b) w3) by (rewrite Hid; by do 2 (eapply owned_later; [done|])).
  destruct (decide (att_State b = Running)) as [Hr|Hr].
  - rewrite bool_decide_true by done. apply wp_finish; [done|by left].
  - rewrite bool_decide_false by done. by apply wp_reconcile.
Qed.

Lemma wp_plan job w :
  job_State job = Observed -> wp (Main service) (plan job) anything w.
Proof.
  intros Hst. apply wp_bind, wp_reads; [done|]. intros decided w1 R1.
  apply wp_bind, wp_reads; [done|]. intros now w2 R2. apply wp_bind, wp_calm.
  - destruct decided as [decision|e]; simpl.
    + change (live (if de_Repair decision then Ready else Blocked) = false /\
              (if de_Repair decision then Ready else Blocked) <> Removing).
      by destruct (de_Repair decision).
    + change (live (job_State job) = false /\ job_State job <> Removing). by rewrite Hst.
  - intros. by apply wp_ret.
Qed.

Lemma wp_advanceJob job disabled w :
  owned (job_ID job) w -> wp (Main service) (advanceJob job disabled) anything w.
Proof.
  intros Hown. unfold advanceJob. destruct (_ || _); [by apply wp_engine_Run|].
  destruct (negb _); [by apply wp_ret|]. apply wp_bind, wp_reads; [done|]. intros now w1 R1.
  destruct (Before _ _); [by apply wp_ret|]. destruct (bool_decide _); [by apply wp_ret|].
  destruct (decide (job_State job = Observed)) as [Hst|Hst].
  - rewrite (bool_decide_true (job_State job = Observed)) by done. cbn [andb negb].
    destruct (_ && _); [by apply wp_plan|]. rewrite bool_decide_false by (by rewrite Hst).
    by apply wp_ret.
  - rewrite (bool_decide_false (job_State job = Observed)) by done. cbn [andb negb].
    destruct (_ && _); [|by apply wp_ret]. apply wp_bind, wp_reads; [done|]. intros ready w2 R2.
    destruct ready; [|by apply wp_ret]. apply wp_engine_Run. by do 2 (eapply owned_later; [done|]).
Qed.

Lemma owned_kept id w w' : keeps_jobs w w' -> owned id w -> owned id w'.
Proof.
  intros Hk (j & Ej & Es). destruct (Hk _ _ Ej) as (j' & ? & ?). exists j'. split; [done|congruence].
Qed.

Lemma wp_advance_jobs disabled listed failures w :
  (forall job, job ∈ listed -> owned (job_ID job) w) ->
  wp (Main service) (advance_jobs disabled listed failures) anything w.
Proof.
  revert failures w. induction listed as [|job rest IH]; intros failures w Hown; [by apply wp_ret|].
  apply wp_bind, wp_reads; [done|]. intros [[]|e] w1 R1; [|by apply wp_ret]. apply wp_bind.
  eapply wp_conseq; [|apply wp_keeps, wp_advanceJob; eapply owned_later; [done|apply Hown; by left]].
  intros advanced w2 [Hk _]. apply IH. intros other Ho. eapply owned_kept; [exact Hk|].
  eapply owned_later; [exact R1|]. apply Hown. by right.
Qed.

(** The rows of a list are jobs of the service. *)
Lemma wp_list th (Q : result (list Job) -> World -> Prop) w :
  (forall listed w', rely th w w' -> (forall job, job ∈ listed -> owned (job_ID job) w') ->
     Q (Ok listed) w') ->
  (forall e w', Q (Err e) w') -> wp th (transact (TxList service)) Q w.
Proof.
  intros HQ Herr. apply wp_transact; [done| |done]. intros [db tr] listed db' R _ H. injection H as <- <-.
  pose proof R as (Hok & _). split; [by apply guarantee_refl|]. intros w2 R2.
  apply HQ; [by eapply rely_trans|]. intros job Hj. eapply owned_later; [exact R2|].
  unfold List in Hj. rewrite merge_sort_Permutation in Hj. apply find_jobs_rows in Hj as [Ej Es].
  by exists job.
Qed.

Lemma wp_advance w : wp (Main service) (advance service) anything w.
Proof.
  apply wp_andThen; [|done]. apply wp_list; [|done]. intros listed w1 R1 Hown.
  apply wp_andThen; [|done]. apply wp_reads; [done|]. intros [disabled|e] w2 R2; [|done].
  apply wp_advance_jobs. intros job Hj. eapply owned_later; [done|by apply Hown].
Qed.

Lemma wp_request_removals complete listed w :
  wp (Main service) (request_removals complete listed) anything w.
Proof.
  revert w. induction listed as [|job rest IH]; intros w; [by apply wp_ret|]. cbn [request_removals].
  destruct (_ || _ || _); [apply IH|]. apply wp_bind, wp_reads; [done|]. intros now w1 R1.
  apply wp_bind, wp_calm; [done|]. intros requested w2 R2. destruct (_ && _); [by apply wp_ret|apply IH].
Qed.

Lemma wp_observe w : wp (Main service) (observe service) anything w.
Proof.
  apply wp_andThen; [|done]. apply wp_calm; [done|]. intros [previous|e] w1 R1; [|done].
  apply wp_andThen; [|done]. apply wp_reads; [done|]. intros [observed|e] w2 R2; [|done].
  apply wp_bind, wp_reads; [done|]. intros now w3 R3.
  apply wp_andThen; [|done]. apply wp_calm; [done|]. intros [[]|e] w4 R4; [|done].
  apply wp_andThen; [|done].
  apply (wp_conseq _ _ anything).
  { intros [[]|e] w5 _; [|done]. apply wp_andThen; [|done]. apply wp_reads; [done|].
    intros [disabled|e] w6 R6; [|done]. destruct (_ || _); [by apply wp_ret|].
    apply wp_andThen; [|done]. apply wp_calm; [done|]. intros [listed|e] w7 R7; [|done].
    apply wp_request_removals. }
  clear. revert w4. induction (ob_Jobs observed) as [|job rest IH]; intros w; [by apply wp_ret|].
  apply wp_bind, wp_reads; [done|]. intros now w1 R1. apply wp_andThen; [|done].
  apply wp_calm; [done|]. intros [r|e] w2 R2; [apply IH|done].
Qed.

Lemma wp_run_turn interval next w :
  wp (Main service) (discard (run_turn service interval next)) anything w.
Proof.
  apply wp_bind, wp_bind, wp_reads; [done|]. intros now w1 R1. apply wp_bind.
  apply (wp_conseq _ _ anything).
  { intros [n r] w2 _. apply wp_bind. eapply wp_conseq; [|apply wp_advance]. intros. by apply wp_ret. }
  destruct (Before _ _); [by apply wp_ret|]. apply wp_bind. eapply wp_conseq; [|apply wp_observe].
  intros. by apply wp_ret.
Qed.

(** ** The removal loop *)

Definition removing (job : Job) (w : World) : Prop :=
  exists j, w_jobs w !! job_ID job = Some j /\ job_Service j = service /\ job_State j = Removing /\
            job_PendingAction j = Delete.

Lemma removing_later job w w' : rely (Actions service) w w' -> removing job w -> removing job w'.
Proof.
  intros (_ & Hj & Hk) (j & Ej & Es & Hst & Hp). destruct (Hj _ _ Ej) as (j1 & Ej1 & Es1).
  destruct (Hk _ _ Ej Es Hst) as (j' & Ej' & K1 & K2 & _). rewrite Ej1 in Ej'. injection Ej' as <-.
  exists j1. split_and!; congruence.
Qed.

Lemma wp_service_remove job (Q : result unit -> World -> Prop) w :
  removing job w -> (forall r w', rely (Actions service) w w' -> Q r w') ->
  wp (Actions service) (perform (ServiceRemove job)) Q w.
Proof.
  intros Hrow HQ w' R. split.
  - destruct (removing_later _ _ _ R Hrow) as (j & ? & ? & ? & ?). by exists j.
  - intros r w'' ->. split; [apply guarantee_refl; by destruct R|]. intros w3 R3.
    apply HQ. by eapply rely_trans.
Qed.

Lemma wp_finish_removal requested failure at_ (Q : result unit -> World -> Prop) w :
  owned (job_ID requested) w -> (forall r w', keeps_jobs w w' -> Q r w') ->
  wp (Actions service) (transact (TxFinishRemoval requested failure at_)) Q w.
Proof.
  intros Hown HQ. apply wp_transact; [done| |intros w' e (_ & Hk & _); by apply HQ].
  intros w' [] db' R _ H. pose proof R as (Hok & Hk & _). simpl in H.
  apply bind_Ok in H as (d & H & Hd). injection Hd as <-.
  apply FinishRemoval_quiet in H; [|apply Hok].
  assert (guarantee (Some (Actions service)) w' (mkWorld d (w_submitted w'))) as Hg.
  { eapply quiet_guarantee; [done|done|]. intros id s j [= <-] Ej Es.
    destruct (owned_later _ _ _ _ R Hown) as (j' & Ej' & Es'). rewrite Ej in Ej'. injection Ej' as <-.
    congruence. }
  split; [done|]. intros w'' (_ & Hk'' & _). apply HQ. eapply keeps_jobs_trans; [exact Hk|].
  eapply keeps_jobs_trans; [apply Hg|exact Hk''].
Qed.

Lemma wp_remove_jobs listed failures w :
  (forall job, job ∈ listed -> owned (job_ID job) w) ->
  wp (Actions service) (remove_jobs listed failures) anything w.
Proof.
  revert failures w. induction listed as [|job rest IH]; intros failures w Hown; [by apply wp_ret|].
  assert (forall job, job ∈ rest -> owned (job_ID job) w) as Hrest by (intros; apply Hown; by right).
  cbn [remove_jobs]. destruct (negb _); [by apply IH|].
  apply wp_bind, wp_reads; [done|]. intros now w1 R1.
  destruct (Before _ _); [apply IH; intros; eapply owned_later; [done|by apply Hrest]|].
  apply wp_bind, wp_reads; [done|]. intros now2 w2 R2.
  assert (forall w', keeps_jobs w2 w' -> forall job, job ∈ rest -> owned (job_ID job) w') as Hlater.
  { intros w' Hk other Ho. eapply owned_kept; [exact Hk|]. do 2 (eapply owned_later; [done|]). by apply Hrest. }
  assert (owned (job_ID job) w2) as Hjob by (do 2 (eapply owned_later; [done|]); apply Hown; by left).
  apply wp_bind, wp_transact; [done| |].
  2: { intros w3 e R3. destruct (bool_decide _); [|by apply wp_ret]. apply IH, Hlater, R3. }
  intros w3 requested db' R3 _ H. pose proof R3 as (Hok & Hkj3 & _). simpl in H.
  destruct (StartRemoval_quiet _ _ _ _ _ (ok_tables _ Hok) H) as (Hq & Erow & Hid & Hst & Hp).
  assert (guarantee (Some (Actions service)) w3 (mkWorld db' (w_submitted w3))) as Hg
    by by apply calm_guarantee.
  split; [done|]. intros w4 R4.
  assert (keeps_jobs w2 w4) as Hk4.
  { eapply keeps_jobs_trans; [exact Hkj3|]. eapply keeps_jobs_trans; [apply Hg|apply R4]. }
  assert (removing requested w4) as Hrem.
  { eapply removing_later; [exact R4|]. exists (stored requested). rewrite Hid. split; [done|].
    destruct (owned_kept _ _ _ Hkj3 Hjob) as (j & Ej & Es).
    destruct Hg as (_ & Hkg & _). destruct (Hkg _ _ Ej) as (j' & Ej' & Es').
    unfold w_jobs in Ej'. simpl in Ej'. rewrite Erow in Ej'. injection Ej' as <-.
    split_and!; [congruence|done|done]. }
  apply wp_bind, wp_service_remove; [done|]. intros removed w5 R5.
  apply wp_bind, wp_reads; [done|]. intros now3 w6 R6.
  assert (keeps_jobs w2 w6) as Hk6.
  { eapply keeps_jobs_trans; [exact Hk4|]. eapply keeps_jobs_trans; [apply R5|apply R6]. }
  apply wp_bind, wp_finish_removal; [rewrite Hid; by eapply owned_kept|].
  intros finished w7 Hk7. apply IH, Hlater. by eapply keeps_jobs_trans.
Qed.

Lemma wp_removeRequested w : wp (Actions service) (discard (removeRequested service)) anything w.
Proof.
  apply wp_bind. apply wp_andThen; [|intros; by apply wp_ret]. apply wp_list; [|intros; by apply wp_ret].
  intros listed w1 R1 Hown. eapply wp_conseq; [|by apply wp_remove_jobs]. intros. by apply wp_ret.
Qed.
End main.

(** ** All interleavings *)

Definition system_ok (s : System) : Prop :=
  world_ok (sy_world s) /\
  forall th p, sy_threads s th = Some p -> wp th p anything (sy_world s).

Lemma turn_wp th p w : turn th p -> wp th p anything w.
Proof. intros []; [apply wp_run_turn|apply wp_removeRequested]. Qed.

Lemma empty_ok db : empty_tables (tables db) -> world_ok (mkWorld db []).
Proof.
  intros (Ej & Ea & _). split.
  - simpl. split; rewrite Ej, ?Ea; intros *; by rewrite lookup_empty.
  - intros key. unfold submissions. simpl. lia.
  - intros a Ha. by apply elem_of_nil in Ha.
Qed.

Lemma system_step_ok s s' : system_ok s -> system_step s s' -> system_ok s'.
Proof.
  intros [Hw Ht] Hstep. destruct Hstep as [w threads th p Hn Hp|w threads th B c k b w' Hc Ha
    |w threads th u Hu|w threads tx db' Hop Hfits Hrun|w threads]; simpl in *.
  - split; [done|]. intros th' p'. simpl. unfold set_thread. destruct (decide (th' = th)) as [->|].
    + intros [= <-]. by apply turn_wp.
    + apply Ht.
  - pose proof (Ht th _ Hc w (rely_refl _ _ Hw)) as [_ Hk]. destruct (Hk b w' Ha) as [Hg Hwp].
    split; [apply Hg|]. intros th' p'. simpl. unfold set_thread. destruct (decide (th' = th)) as [->|].
    + intros [= <-]. done.
    + intros Hp'. eapply wp_later; [|by apply Ht]. by apply (guarantee_rely (Some th)); [congruence|].
  - split; [done|]. intros th' p'. simpl. unfold set_thread. destruct (decide (th' = th)); [done|apply Ht].
  - assert (quiet None (tables (w_db w)) (tables db')) as Hq.
    { eapply calm_quiet; [|apply Hw|exact Hrun]. by destruct Hop. }
    pose proof (calm_guarantee None _ _ Hw Hq) as Hg. split; [apply Hg|]. intros th p Hp. simpl in *.
    eapply wp_later; [|by apply Ht]. by apply (guarantee_rely None).
  - done.
Qed.

Lemma reachable_system_ok s : reachable_system s -> system_ok s.
Proof.
  induction 1 as [db Hdb|s s' _ IH Hstep]; [|by eapply system_step_ok]. split; [by apply empty_ok|done].
Qed.

(** No transaction changes an attempt that ended. *)
Lemma transaction_final {A} (tx : transaction A) db a db' key attempt :
  tables_ok (tables db) -> run_transaction tx db = Ok (a, db') ->
  tb_attempts (tables db) !! key = Some attempt -> active (att_State attempt) = false ->
  tb_attempts (tables db') !! key = Some attempt.
Proof.
  intros Hok H Ha Hend.
  assert (calm tx -> tb_attempts (tables db') !! key = Some attempt) as Hcalm.
  { intros Hc. destruct (calm_quiet _ _ _ _ Hc Hok H) as [-> _]. done. }
  destruct tx; simpl in H; try (by apply Hcalm).
  - destruct (Start_rows _ _ _ _ _ H) as (job & _ & _ & _ & _ & Hn & _ & _ & _ & _ & ->). simpl.
    rewrite lookup_insert_ne; [done|]. congruence.
  - apply bind_Ok in H as (d & H & Hd). injection Hd as _ <-.
    destruct (UpdateAttempt_rows _ _ _ H) as (previous & current & job & Hp & Hact & Hk & _ & _ & _ & _ & _ & _ & ->).
    simpl. rewrite lookup_insert_ne; [done|]. congruence.
  - apply bind_Ok in H as (d & H & Hd). injection Hd as _ <-.
    unfold FinishPlanning in H. apply bind_Ok in H as (job & _ & H). apply bind_Ok in H as (u & _ & H).
    apply bind_Ok in H as (db1 & Hr & H). rewrite (save_job_row _ _ _ H). simpl.
    apply rememberPlanning_rows in Hr as [_ ->]. done.
  - apply bind_Ok in H as (d & H & Hd). injection Hd as _ <-.
    apply FinishRemoval_quiet in H as [-> _]; done.
Qed.

(** ** Theorems *)

(** C1. An import is never submitted twice, whatever crashes, operator actions and
    other threads come between, and when a submission is next, its request is
    already recorded with the attempt in the state from which it is only checked. *)
Theorem submitted_once (s : System) :
  reachable_system s ->
  (forall key, (submissions (sy_world s) key <= 1)%nat) /\
  (forall th attempt k, sy_threads s th = Some (Call (Submit attempt) k) ->
     submissions (sy_world s) (attempt_key attempt) = 0%nat /\
     exists row, w_attempts (sy_world s) !! attempt_key attempt = Some row /\
       att_State row = Importing /\ att_ImportRequest row = att_ImportRequest attempt).
Proof.
  intros [Hw Ht]%reachable_system_ok. split; [apply Hw|]. intros th attempt k Hc.
  by destruct (Ht th _ Hc _ (rely_refl _ _ Hw)) as [Hp _].
Qed.

(** C7. When queue tracking is about to be removed, the job is marked as being
    removed on request and no attempt at repairing it is under way. *)
Theorem removal_excludes_repair (s : System) th job k :
  reachable_system s -> sy_threads s th = Some (Call (ServiceRemove job) k) ->
  (exists row, w_jobs (sy_world s) !! job_ID job = Some row /\ job_State row = Removing /\
               job_PendingAction row = Delete) /\
  forall n attempt, w_attempts (sy_world s) !! (job_ID job, n) = Some attempt ->
    live (att_State attempt) = false.
Proof.
  intros [Hw Ht]%reachable_system_ok Hc.
  destruct (Ht th _ Hc _ (rely_refl _ _ Hw)) as [(row & Er & Hst & Hp) _].
  split; [by exists row|]. intros n attempt Ha. destruct (live (att_State attempt)) eqn:Hl; [|done].
  destruct (ok_attempt_live _ (ok_tables _ Hw) _ _ _ Ha Hl) as [(j & Ej & Es) _].
  unfold w_jobs in Er. rewrite Er in Ej. injection Ej as <-. by rewrite <- Es, Hst in Hl.
Qed.

(** C11. A job is under repair exactly while its last attempt is, in the same state,
    and then no operator action is pending; attempts are numbered from one
    without gaps, and one that imported holds the receipt. *)
Theorem attempts_follow_jobs (s : System) :
  reachable_system s ->
  (forall id job, w_jobs (sy_world s) !! id = Some job -> live (job_State job) = true ->
     job_PendingAction job = "" /\
     exists n attempt, w_attempts (sy_world s) !! (id, n) = Some attempt /\
       att_State attempt = job_State job /\
       forall m, is_Some (w_attempts (sy_world s) !! (id, m)) -> m <= n) /\
  (forall id n attempt, w_attempts (sy_world s) !! (id, n) = Some attempt ->
     (exists job, w_jobs (sy_world s) !! id = Some job /\
        (live (att_State attempt) = true -> job_State job = att_State attempt)) /\
     (forall m, 1 <= m <= n -> is_Some (w_attempts (sy_world s) !! (id, m))) /\
     (att_State attempt = Imported -> att_ImportReceipt attempt <> "")).
Proof.
  intros [[Hok _ _] _]%reachable_system_ok. split.
  - intros id job Ej Hl. destruct (ok_job_live _ Hok _ _ Ej Hl) as (Hp & n & a & Ha & Hs).
    split; [done|]. exists n, a. split_and!; [done|done|].
    rewrite <- Hs in Hl. by destruct (ok_attempt_live _ Hok _ _ _ Ha Hl) as [_ Hm].
  - intros id n a Ha. destruct (ok_attempt_row _ Hok _ _ _ Ha) as ((j & Ej) & Hone & _ & _ & Hr).
    split_and!; [| |done].
    + exists j. split; [done|]. intros Hl. destruct (ok_attempt_live _ Hok _ _ _ Ha Hl) as [(j' & Ej' & Hs) _].
      congruence.
    + clear Hr Ej j. revert a Ha. refine (Zlt_0_ind (fun n => forall a, _ !! (id, n) = Some a -> _) _ n _); [|lia].
      intros k IH _ a Ha m Hm.
      destruct (ok_attempt_row _ Hok _ _ _ Ha) as (_ & Hk & _ & [->|[b Hb]] & _).
      * replace m with 1 by lia. by exists a.
      * destruct (decide (m = k)) as [->|Hne]; [by exists a|].
        apply (IH (k - 1) ltac:(lia) b Hb). lia.
Qed.

(** C12. An attempt that ended is never changed again, by any step of the system. *)
Theorem attempt_final (s s' : System) key attempt :
  reachable_system s -> system_step s s' ->
  w_attempts (sy_world s) !! key = Some attempt -> active (att_State attempt) = false ->
  w_attempts (sy_world s') !! key = Some attempt.
Proof.
  intros [[Hok _ _] _]%reachable_system_ok Hstep Ha Hend.
  destruct Hstep as [w threads th p Hn Hp|w threads th B c k b w' Hc Hans
    |w threads th u Hu|w threads tx db' Hop Hfits Hrun|w threads]; try done.
  - simpl in *. destruct c; try (by simpl in Hans; subst).
    destruct b as [b|e]; simpl in Hans; [|by subst]. destruct Hans as (_ & db' & Hrun & ->).
    by eapply transaction_final.
  - by eapply transaction_final.
Qed.
End protocol.
