(* ===== verification/PlanningHistory.v ===== *)
(** * Planning history

    [internal/jobs/planning_history.go] keeps the result of planning each input
    of a job at each revision, so that returning to an old input does not buy
    another decision. Here this is an invariant of every reachable system. *)
From stdpp Require Import base strings list gmap sorting.
From coqutil Require Import Datatypes.RecordSetters.
From S2P Require Import Prelude Jobs JobInvariants RepairEngine RepairProtocol.
Import DoubleBraceUpdate jobs repair.

(** What the results of a job say about its row: a row that waits for the
    planner has no complete result for its input and revision. *)
Definition row_planning (h : gmap (Z * string * Z) PlanningResult) (job : Job) : Prop :=
  (job_PlanningFingerprint job = "" -> forall f rev, h !! (job_ID job, f, rev) = None) /\
  (forall f rev, is_Some (h !! (job_ID job, f, rev)) -> rev <= job_Revision job) /\
  (job_State job = Observed -> forall r,
     h !! (job_ID job, job_PlanningFingerprint job, job_Revision job) = Some r -> pr_Complete r = false).

Definition planning_ok (t : Tables) : Prop :=
  (forall id f rev, is_Some (tb_results t !! (id, f, rev)) -> is_Some (tb_jobs t !! id)) /\
  forall id job, tb_jobs t !! id = Some job -> row_planning (tb_results t) job.

(** A change of one job and its results. *)
Definition others_kept (id : Z) (h h' : gmap (Z * string * Z) PlanningResult) : Prop :=
  forall i f rev, i <> id -> h' !! (i, f, rev) = h !! (i, f, rev).

Lemma row_planning_other id h h' job :
  others_kept id h h' -> job_ID job <> id -> row_planning h job -> row_planning h' job.
Proof.
  intros Ho Hne (H1 & H2 & H3). split_and!.
  - intros Hf f rev. rewrite Ho by done. by apply H1.
  - intros f rev. rewrite Ho by done. apply H2.
  - intros Hs r. rewrite Ho by done. by apply H3.
Qed.

Section operations.
Context {DB : Type} `{!JobDatabase DB}.
Implicit Types db : DB.

(** The row of one job was replaced, and only its results changed. *)
Lemma planning_ok_update db t' j j' :
  planning_ok (tables db) -> tb_jobs (tables db) !! job_ID j' = Some j ->
  others_kept (job_ID j') (tb_results (tables db)) (tb_results t') ->
  tb_jobs t' = <[job_ID j' := stored j']> (tb_jobs (tables db)) ->
  row_planning (tb_results t') j' -> planning_ok t'.
Proof.
  intros [H1 H2] Ej Ho Ht Hrow. split.
  - intros id f rev Hs. rewrite Ht. apply lookup_insert_is_Some.
    destruct (decide (job_ID j' = id)) as [|Hne]; [by left|right]. split; [done|].
    rewrite Ho in Hs by done. by eapply H1.
  - intros id job. rewrite Ht. destruct (decide (job_ID j' = id)) as [<-|Hne].
    + rewrite lookup_insert_eq. intros [= <-]. exact Hrow.
    + rewrite lookup_insert_ne by done. intros Ejob. eapply row_planning_other; [exact Ho| |by eapply H2].
      rewrite (jobs_keyed _ _ _ Ejob). congruence.
Qed.














(** ** Observations *)

(** The results of one job after some of its inputs were remembered. *)
Definition grown db db' (job : Job) : Prop :=
  tb_jobs (tables db') = tb_jobs (tables db) /\
  others_kept (job_ID job) (tb_results (tables db)) (tb_results (tables db')) /\
  forall f rev, is_Some (tb_results (tables db') !! (job_ID job, f, rev)) -> rev <= job_Revision job.




Lemma planning_grown_save db db1 db' j j' :
  planning_ok (tables db) -> grown db db1 j' -> save_job db1 j' = Ok db' ->
  tb_jobs (tables db) !! job_ID j' = Some j -> row_planning (tb_results (tables db1)) j' ->
  planning_ok (tables db').
Proof.
  intros Hok (G1 & G2 & _) Hs Ej Hrow. rewrite (save_job_row _ _ _ Hs).
  eapply planning_ok_update; [exact Hok|exact Ej|exact G2| |exact Hrow]. simpl. by rewrite G1.
Qed.





(** ** What was decided stays decided *)


















(** ** A returned input *)





End operations.
