(* ===== verification/JobQueue.v ===== *)
(** * Queue identities and stale answers

    [MatchQueue] of [internal/jobs/queue.go] against a declarative
    specification, and the conflicts that protect a job from answers that were
    computed for an older instruction. *)
From stdpp Require Import base strings list gmap.
From coqutil Require Import Datatypes.RecordSetters.
From S2P Require Import Prelude Jobs JobInvariants.
Import DoubleBraceUpdate jobs.

(** ** Matching queue entries *)

(** A candidate for the same download, whose queue identifier may differ. *)
Definition follows (wanted candidate : QueueKey) : Prop :=
  qk_DownloadID wanted <> "" /\ qk_DownloadID candidate = qk_DownloadID wanted.

#[global] Instance follows_dec wanted c : Decision (follows wanted c).
Proof. unfold follows. apply _. Defined.

Section matching.
Context (wanted : QueueKey).

(** What the loop knows after it passed [pre]. *)
Definition scanned (pre : list QueueKey) (found : option nat) (count : Z) : Prop :=
  (wanted ∉ pre) /\
  ((count = 0 /\ found = None /\ forall c, c ∈ pre -> ~ follows wanted c) \/
   (count = 1 /\ exists i c, found = Some i /\ pre !! i = Some c /\ follows wanted c /\
      forall k d, pre !! k = Some d -> follows wanted d -> k = i) \/
   (1 < count /\ exists i k c d, i <> k /\ pre !! i = Some c /\ pre !! k = Some d /\
      follows wanted c /\ follows wanted d)).

Lemma scanned_skip pre found count c :
  scanned pre found count -> c <> wanted -> ~ follows wanted c -> scanned (pre ++ [c]) found count.
Proof.
  intros [Hn H] Hc Hf. split; [set_solver|].
  destruct H as [(-> & -> & H)|[(-> & i & d & -> & Hi & Hd & Hu)|(Hc1 & i & k & d & e & Hne & Hi & Hk & Hd & He)]].
  - left. split_and!; [done|done|]. intros d [?| ->%list_elem_of_singleton]%elem_of_app; auto.
  - right; left. split; [done|]. exists i, d. split_and!; [done|by apply lookup_app_l_Some|done|].
    intros k e [Hk|[_ Hk]]%lookup_app_Some Hfe; [by eapply Hu|].
    by apply list_lookup_singleton_Some in Hk as [_ <-].
  - right; right. split; [done|]. exists i, k, d, e. by split_and!; try apply lookup_app_l_Some.
Qed.

Lemma scanned_follow pre found count c :
  scanned pre found count -> c <> wanted -> follows wanted c ->
  scanned (pre ++ [c]) (Some (length pre)) (count + 1).
Proof.
  intros [Hn H] Hc Hf. split; [set_solver|].
  assert ((pre ++ [c]) !! length pre = Some c) as Hlast by by apply list_lookup_middle.
  destruct H as [(-> & -> & H)|[(-> & i & d & -> & Hi & Hd & Hu)|(Hc1 & i & k & d & e & Hne & Hi & Hk & Hd & He)]].
  - right; left. split; [done|]. exists (length pre), c. split_and!; [done|done|done|].
    intros k e [Hk|[Hle Hk]]%lookup_app_Some Hfe.
    + apply list_elem_of_lookup_2 in Hk. by apply H in Hk.
    + apply list_lookup_singleton_Some in Hk as [? _]. lia.
  - right; right. split; [done|]. exists i, (length pre), d, c. split_and!; [|by apply lookup_app_l_Some|done|done|done].
    apply lookup_lt_Some in Hi. lia.
  - right; right. split; [lia|]. exists i, k, d, e. by split_and!; try apply lookup_app_l_Some.
Qed.

Definition matched (candidates : list QueueKey) (r : result (option nat)) : Prop :=
  match r with
  | Ok (Some i) => exists c, candidates !! i = Some c /\
      (c = wanted /\ (forall k, (k < i)%nat -> candidates !! k <> Some wanted) \/
       (wanted ∉ candidates) /\ follows wanted c /\
       forall k d, candidates !! k = Some d -> follows wanted d -> k = i)
  | Ok None => (wanted ∉ candidates) /\ forall c, c ∈ candidates -> ~ follows wanted c
  | Err _ => (wanted ∉ candidates) /\ exists i k c d, i <> k /\ candidates !! i = Some c /\
      candidates !! k = Some d /\ follows wanted c /\ follows wanted d
  end.

Lemma match_loop_matched pre rest found count :
  scanned pre found count ->
  matched (pre ++ rest) (match_loop wanted rest (length pre) found count).
Proof.
  revert pre found count. induction rest as [|c rest IH]; intros pre found count Hs; simpl.
  - rewrite app_nil_r. destruct Hs as [Hn [(-> & -> & H)|[(-> & i & d & -> & Hi & Hd & Hu)|(Hc1 & H)]]]; simpl.
    + done.
    + exists d. split; [done|]. by right.
    + rewrite bool_decide_true by done. simpl. by split.
  - case_bool_decide as Hc.
    + subst c. simpl. exists wanted. split; [by apply list_lookup_middle|]. left. split; [done|].
      intros k Hk. rewrite lookup_app_l by done. intros Hk'%list_elem_of_lookup_2. by destruct Hs.
    + assert (pre ++ c :: rest = (pre ++ [c]) ++ rest) as -> by by rewrite <- app_assoc.
      assert (S (length pre) = length (pre ++ [c])) as -> by (rewrite length_app; simpl; lia).
      destruct (decide (follows wanted c)) as [Hf|Hf].
      * destruct Hf as [Hf1 Hf2]. rewrite bool_decide_false, bool_decide_true by done. cbn [negb andb].
        by apply IH, (scanned_follow _ found).
      * replace (negb _ && _) with false; [by apply IH, scanned_skip|].
        symmetry. apply andb_false_iff. unfold follows in Hf.
        destruct (decide (qk_DownloadID wanted = "")) as [E|E]; [left; by rewrite bool_decide_true|].
        right. apply bool_decide_eq_false. tauto.
Qed.
End matching.

(** A queue entry is found by its exact identity, the first one if several
    have it; otherwise by its download, if exactly one candidate has that;
    several such candidates are an error, and an empty download matches none. *)
Theorem MatchQueue_correct (wanted : QueueKey) (candidates : list QueueKey) :
  matched wanted candidates (MatchQueue wanted candidates).
Proof.
  apply (match_loop_matched wanted [] candidates None 0). split; [set_solver|]. left. split_and!; try done.
  by intros c Hc%elem_of_nil.
Qed.

(** ** Stale answers *)

Section stale.
Context {DB : Type} `{!JobDatabase DB}.

Lemma add64_succ_ne x : add64 x 1 <> x.
Proof. unfold add64, wrap64. intros H. Z.div_mod_to_equations. lia. Qed.

(** C33. An operator instruction invalidates the model answer that is in flight:
    when the answer to the job as it was before arrives, it is refused and
    nothing is stored. *)
Theorem stale_plan_refused (db db' : DB) id action guidance tolerance at_ expected job planned :
  first_job db id = Ok job ->
  requestAction db id action guidance tolerance at_ expected = Ok db' ->
  job_ID planned = id -> job_Revision planned = job_Revision job ->
  FinishPlanning db' planned = Err ErrConflict.
Proof.
  intros Hj H Hid Hrev. unfold requestAction in H. rewrite Hj in H. simpl in H.
  apply bind_Ok in H as (u & _ & H). apply bind_Ok in H as (u1 & _ & H). apply bind_Ok in H as (u2 & _ & H).
  apply first_job_Ok in Hj as [_ Ei].
  assert (exists row, first_job db' id = Ok row /\ job_Revision row = add64 (job_Revision job) 1)
    as (row & Hrow & Hr).
  { unfold first_job. rewrite (save_job_row _ _ _ H). simpl.
    match goal with |- context [<[_ := stored ?j]> _] => exists (stored j) end.
    split; [|by destruct (bool_decide _)].
    assert (forall j, job_ID j = id -> <[job_ID j := stored j]> (tb_jobs (tables db)) !! id = Some (stored j))
      as Hlk by (intros j <-; apply lookup_insert_eq).
    rewrite Hlk; [done|]. by destruct (bool_decide _). }
  unfold FinishPlanning. rewrite Hid, Hrow. simpl. rewrite Hr, Hrev, (bool_decide_false (add64 _ _ = _)); [done|].
  apply add64_succ_ne.
Qed.
End stale.
