(* ===== verification/JobScenarios.v ===== *)
(** * Concrete job databases and runs

    An instance of [JobDatabase] in memory, and an executable run of one thread
    against answers that are given as functions, which reaches systems in the
    sense of [RepairProtocol]; and the theorems of [RepairProtocol],
    [PlanningHistory] and [JobQueue] that have hypotheses, applied to it. *)
From stdpp Require Import base strings list gmap sorting fin_maps.
From coqutil Require Import Datatypes.RecordSetters.
From S2P Require Import Prelude Jobs JobInvariants RepairEngine RepairProtocol.
From S2P Require Import PlanningHistory JobQueue.
Import DoubleBraceUpdate jobs repair.

(** ** A database in memory: lists of rows, the latest version first *)

Record MemoryDB := mkMemoryDB
  { m_jobs : list Job; m_attempts : list Attempt; m_results : list PlanningResult }.

Definition rows {K V} `{Countable K} (key : V -> K) (l : list V) : gmap K V :=
  list_to_map ((fun v => (key v, v)) <$> l).

Lemma rows_keyed {K V} `{Countable K} (key : V -> K) l k v : rows key l !! k = Some v -> key v = k.
Proof.
  intros E%elem_of_list_to_map_2. apply list_elem_of_fmap in E as (v' & [= -> ->] & _). done.
Qed.

Definition m_tables (db : MemoryDB) : Tables :=
  mkTables (rows job_ID (m_jobs db)) (rows attempt_key (m_attempts db))
    (rows result_key (m_results db)).

Definition values {K V} `{Countable K} (m : gmap K V) : list V := (map_to_list m).*2.

Lemma elem_of_values {K V} `{Countable K} (key : V -> K) l v :
  v ∈ values (rows key l) <-> rows key l !! key v = Some v.
Proof.
  unfold values. rewrite list_elem_of_fmap. split.
  - intros ([k v'] & -> & E%elem_of_map_to_list). simpl.
    by rewrite (rows_keyed _ _ _ _ E).
  - intros E. exists (key v, v). split; [done|]. by apply elem_of_map_to_list.
Qed.

Lemma values_keys {K V} `{Countable K} (key : V -> K) l : NoDup (key <$> values (rows key l)).
Proof.
  unfold values. rewrite <- list_fmap_compose.
  rewrite (list_fmap_ext _ fst); [apply NoDup_fst_map_to_list|].
  intros i [k v] E%list_elem_of_lookup_2%elem_of_map_to_list. simpl. by apply rows_keyed in E.
Qed.

Definition job_le (a b : Attempt) : Prop := att_Number a <= att_Number b.
#[global] Instance job_le_dec a b : Decision (job_le a b).
Proof. unfold job_le. apply _. Defined.

Definition m_find_attempts (db : MemoryDB) (id : Z) : list Attempt :=
  merge_sort job_le (filter (fun a => att_JobID a = id) (values (rows attempt_key (m_attempts db)))).

Definition next_id (l : list Job) : Z := 1 + fold_right Z.max 0 (job_ID <$> l).

Lemma next_id_fresh l job : job ∈ l -> job_ID job < next_id l.
Proof.
  unfold next_id. induction l as [|j l IH]; [by intros ?%elem_of_nil|].
  rewrite fmap_cons. intros [->|H%IH]%elem_of_cons; cbn [fold_right]; lia.
Qed.

Lemma next_id_pos l : 0 < next_id l.
Proof. unfold next_id. induction l as [|j l IH]; [done|]. rewrite fmap_cons. cbn [fold_right]. lia. Qed.

(** Numbers of one job's attempts are distinct, so sorting orders them strictly. *)
Lemma sorted_strict (l : list Attempt) :
  StronglySorted job_le l -> NoDup (att_Number <$> l) ->
  StronglySorted (fun a b => att_Number a < att_Number b) l.
Proof.
  induction 1 as [|a l _ IH Ha]; intros Hnd; constructor; apply NoDup_cons in Hnd as [Hni Hnd]; [by apply IH|].
  rewrite Forall_forall in *. intros b Hb. specialize (Ha b Hb). unfold job_le in Ha.
  assert (att_Number a <> att_Number b); [|lia]. intros E. apply Hni. rewrite E.
  by apply list_elem_of_fmap_2.
Qed.

Lemma filter_keys {K V} (key : V -> K) (P : V -> Prop) `{forall v, Decision (P v)} l :
  NoDup (key <$> l) -> NoDup (key <$> filter P l).
Proof.
  induction l as [|v l IH]; [done|]. rewrite fmap_cons. intros [Hni Hnd]%NoDup_cons.
  rewrite filter_cons. destruct (decide (P v)); [|by apply IH]. rewrite fmap_cons.
  apply NoDup_cons. split; [|by apply IH].
  intros (b & E & [_ Hl]%list_elem_of_filter)%list_elem_of_fmap. apply Hni. rewrite E.
  by apply list_elem_of_fmap_2.
Qed.

Lemma distinct_numbers (l : list Attempt) id :
  NoDup (attempt_key <$> l) -> NoDup (att_Number <$> filter (fun a => att_JobID a = id) l).
Proof.
  induction l as [|a l IH]; simpl; [constructor|]. intros [Hni Hnd]%NoDup_cons.
  rewrite filter_cons. destruct (decide (att_JobID a = id)) as [Hid|]; [|by apply IH].
  simpl. apply NoDup_cons. split; [|by apply IH]. intros (b & E & [Hb Hl]%list_elem_of_filter)%list_elem_of_fmap.
  apply Hni. apply list_elem_of_fmap. exists b. split; [|done]. unfold attempt_key. congruence.
Qed.

#[local] Obligation Tactic := idtac.

#[global] Program Instance memory_database : JobDatabase MemoryDB :=
  {| tables := m_tables;
     find_jobs := fun db service =>
       filter (fun job => job_Service job = service) (values (rows job_ID (m_jobs db)));
     find_attempts := m_find_attempts;
     create_job := fun db job =>
       let id := next_id (m_jobs db) in
       Ok (id, mkMemoryDB (stored (job {{ job_ID := id }}) :: m_jobs db) (m_attempts db) (m_results db));
     save_job := fun db job =>
       Ok (mkMemoryDB (stored job :: m_jobs db) (m_attempts db) (m_results db));
     create_attempt := fun db attempt =>
       match rows attempt_key (m_attempts db) !! attempt_key attempt with
       | Some _ => Err "UNIQUE constraint failed"
       | None => Ok (mkMemoryDB (m_jobs db) (attempt :: m_attempts db) (m_results db))
       end;
     save_attempt := fun db attempt =>
       Ok (mkMemoryDB (m_jobs db) (attempt :: m_attempts db) (m_results db));
     upsert_result := fun db r =>
       Ok (mkMemoryDB (m_jobs db) (m_attempts db) (r :: m_results db)) |}.
Next Obligation. intros db id job. apply rows_keyed. Qed.
Next Obligation. intros db key attempt. apply rows_keyed. Qed.
Next Obligation.
  intros db service job. rewrite list_elem_of_filter, elem_of_values. simpl. tauto.
Qed.
Next Obligation.
  intros db service. apply filter_keys, values_keys.
Qed.
Next Obligation.
  intros db id attempt. unfold m_find_attempts. rewrite merge_sort_Permutation, list_elem_of_filter,
    elem_of_values. simpl. tauto.
Qed.
Next Obligation.
  intros db id. apply sorted_strict.
  - apply StronglySorted_merge_sort.
    + intros a b c. unfold job_le. lia.
    + intros a b. unfold job_le. lia.
  - unfold m_find_attempts. rewrite merge_sort_Permutation. apply distinct_numbers, values_keys.
Qed.
Next Obligation.
  intros db job id db' [= <- <-]. split_and!; [apply next_id_pos| |done]. simpl.
  apply not_elem_of_list_to_map_1. rewrite <- list_fmap_compose.
  intros (j & E & Hj)%list_elem_of_fmap. apply next_id_fresh in Hj. simpl in E. lia.
Qed.
Next Obligation. intros db job db' [= <-]. done. Qed.
Next Obligation.
  intros db attempt db'. cbv beta.
  destruct (rows attempt_key (m_attempts db) !! attempt_key attempt) eqn:E; [done|].
  intros [= <-]. done.
Qed.
Next Obligation. intros db attempt db' [= <-]. done. Qed.
Next Obligation. intros db r db' [= <-]. done. Qed.

(** ** Executable runs of one thread *)

(** Answers to the calls that leave the database. *)
Record Answers := mkAnswers
  { an_Now : time; an_Disabled : bool; an_Observe : Observation; an_Plan : result PlanDecision;
    an_Ready : bool; an_Remove : result unit; an_Repair : PreparedImport + RepairError;
    an_Submit : result Z; an_Check : result ImportStatus }.

Definition given (an : Answers) {B} (c : call B) (w : World (DB := MemoryDB)) : B * World :=
  match c in call B return B * World with
  | Transact tx =>
      match run_transaction tx (w_db w) with
      | Ok (a, db') => (Ok a, mkWorld db' (w_submitted w))
      | Err e => (Err e, w)
      end
  | Now => (an_Now an, w)
  | Cancelled => (Ok tt, w)
  | Disabled => (Ok (an_Disabled an), w)
  | ServiceObserve _ => (Ok (an_Observe an), w)
  | ServicePlan _ => (an_Plan an, w)
  | ServiceReady _ => (an_Ready an, w)
  | ServiceRemove _ => (an_Remove an, w)
  | Repair _ _ => (an_Repair an, w)
  | Submit attempt => (an_Submit an, mkWorld (w_db w) (attempt :: w_submitted w))
  | CheckImport _ => (an_Check an, w)
  end.

Definition revision_fits_now (id : Z) (db : MemoryDB) : bool :=
  match tb_jobs (tables db) !! id with
  | Some job => bool_decide (0 <= job_Revision job < max_int64)
  | None => true
  end.

Lemma revision_fits_now_spec id db : revision_fits_now id db = true -> revision_fits db id.
Proof.
  unfold revision_fits_now, revision_fits. intros H job E. rewrite E in H. apply bool_decide_eq_true in H.
  unfold int64_range, max_int64 in *. lia.
Qed.

Definition fits_now {B} (c : call B) (db : MemoryDB) : bool :=
  match c with
  | Transact (TxStart id _) =>
      match last (find_attempts db id) with
      | Some a => bool_decide (att_Number a < max_int64)
      | None => true
      end
  | Transact (TxRequestAction id _ _ _ _) => revision_fits_now id db
  | Transact (TxRequestReconsideration expected _ _ _) => revision_fits_now (job_ID expected) db
  | _ => true
  end.

Lemma given_answers an {B} (c : call B) w :
  fits_now c (w_db w) = true -> answers c w (given an c w).1 (given an c w).2.
Proof.
  destruct c; try done. intros Hf. simpl in *. destruct (run_transaction tx (w_db w)) as [[a db']|e] eqn:E;
    simpl; [|done]. split; [|by exists db']. destruct tx; try done; [|by apply revision_fits_now_spec..].
  intros a' Ha'. simpl in *. rewrite Ha' in Hf. by apply bool_decide_eq_true in Hf.
Qed.

(** What is left of a program after [n] calls, and the world it leaves; a
    program that has returned stays. *)
Fixpoint drive (an : Answers) (n : nat) {A} (p : program A) (w : World) : program A * World :=
  match n, p with
  | S n, Call c k =>
      if fits_now c (w_db w) then drive an n (k (given an c w).1) (given an c w).2 else (p, w)
  | _, _ => (p, w)
  end.

Lemma drive_reachable an n th p w threads :
  reachable_system (mkSystem w threads) -> threads th = Some p ->
  exists threads', threads' th = Some (drive an n p w).1 /\
    reachable_system (mkSystem (drive an n p w).2 threads') /\
    (forall th', th' <> th -> threads' th' = threads th').
Proof.
  revert p w threads. induction n as [|n IH]; intros p w threads Hr Hp; [by exists threads|].
  destruct p as [u|B c k]; [by exists threads|]. simpl. destruct (fits_now c (w_db w)) eqn:Hf; [|by exists threads].
  destruct (IH (k (given an c w).1) (given an c w).2
              (set_thread threads th (Some (k (given an c w).1)))) as (threads' & Ht & Hr' & Ho).
  - eapply reachable_step; [exact Hr|]. eapply system_call; [exact Hp|by apply given_answers].
  - unfold set_thread. by destruct (decide (th = th)).
  - exists threads'. split_and!; [done|done|]. intros th' Hne. rewrite (Ho th' Hne).
    unfold set_thread. by destruct (decide (th' = th)).
Qed.

(** A turn of a loop that begins while the others are idle. *)
Lemma turn_reachable an n th p w :
  reachable_system (mkSystem w (fun _ => None)) -> turn th p ->
  exists threads, threads th = Some (drive an n p w).1 /\
    reachable_system (mkSystem (drive an n p w).2 threads).
Proof.
  intros Hr Ht. destruct (drive_reachable an n th p w (set_thread (fun _ => None) th (Some p)))
    as (threads & ? & ? & _).
  - eapply reachable_step; [exact Hr|by apply system_begin].
  - unfold set_thread. by destruct (decide (th = th)).
  - by exists threads.
Qed.

(** A crash leaves the database. *)
Lemma crash_reachable w threads :
  reachable_system (mkSystem w threads) -> reachable_system (mkSystem w (fun _ => None)).
Proof. intros. eapply reachable_step; [done|apply system_crash]. Qed.

(** ** A download that is repaired

    One stuck download is observed, planned and repaired; its import is
    submitted, and the answer to the submission is lost. *)
Definition noon : time := mkTime (10 ^ 18) None.

Definition stuck_download : Job :=
  mkJob 0 Radarr 7 "ABCDEF" "Movie" "sha256:1" "" "" "" zero_time "{}" "" "" "" 0 zero_time 0 "" 0
    false Observed "" zero_time.

Definition repairing : Answers :=
  mkAnswers noon false (mkObservation [stuck_download] [mkQueueKey 7 "ABCDEF"] [])
    (Ok (mkPlanDecision "plan" true "")) true (Ok tt)
    (inl (mkPreparedImport "/media/movie.mkv" "request" 12)) (Err "timeout")
    (Ok (mkImportStatus "" "")).

Definition empty_world : World (DB := MemoryDB) := mkWorld (mkMemoryDB [] [] []) [].

Definition main_turn : program unit := discard (run_turn Radarr 0 zero_time).
Definition action_turn : program unit := discard (removeRequested Radarr).

(** The world after one complete turn: the job is ready. *)
Definition planned_world : World := (drive repairing 100 main_turn empty_world).2.
(** The second turn starts an attempt and submits its import. *)
Definition submitted_world : World := (drive repairing 100 main_turn planned_world).2.

Lemma planned_reachable : reachable_system (mkSystem planned_world (fun _ => None)).
Proof.
  destruct (turn_reachable repairing 100 (Main Radarr) main_turn empty_world) as (threads & _ & H).
  - by apply reachable_empty.
  - constructor.
  - by eapply crash_reachable.
Qed.

(** The attempt that is submitted next, if the next call is a submission. *)
Definition next_submission {A} (p : program A) : option Attempt :=
  match p with Call (Submit attempt) _ => Some attempt | _ => None end.

Lemma next_submission_call {A} (p : program A) attempt :
  next_submission p = Some attempt -> exists k, p = Call (Submit attempt) k.
Proof. destruct p as [a|B c k]; [done|]. destruct c; try done. intros [= ->]. by exists k. Qed.

Definition next_removal {A} (p : program A) : option Job :=
  match p with Call (ServiceRemove job) _ => Some job | _ => None end.

Lemma next_removal_call {A} (p : program A) job :
  next_removal p = Some job -> exists k, p = Call (ServiceRemove job) k.
Proof. destruct p as [a|B c k]; [done|]. destruct c; try done. intros [= ->]. by exists k. Qed.

(** The operator asks for the removal of the planned job. *)
Definition removal_db : MemoryDB :=
  match RequestAction (w_db planned_world) 1 Delete "" 0 noon with
  | Ok db => db
  | Err _ => w_db planned_world
  end.

Definition removal_requested : World := mkWorld removal_db (w_submitted planned_world).

Lemma removal_requested_reachable : reachable_system (mkSystem removal_requested (fun _ => None)).
Proof.
  eapply reachable_step; [exact planned_reachable|].
  eapply (system_operator _ _ (TxRequestAction 1 Delete "" 0 noon)).
  - constructor.
  - apply revision_fits_now_spec. by vm_compute.
  - by vm_compute.
Qed.

(** The import is confirmed by a later turn. *)
Definition confirming : Answers :=
  mkAnswers noon false (mkObservation [stuck_download] [mkQueueKey 7 "ABCDEF"] [])
    (Ok (mkPlanDecision "plan" true "")) true (Ok tt)
    (inl (mkPreparedImport "/media/movie.mkv" "request" 12)) (Ok 5)
    (Ok (mkImportStatus "receipt" "")).

Definition imported_world : World := (drive confirming 100 main_turn planned_world).2.









(** ** The theorems on jobs and their repair, at these runs *)

Lemma submitted_once_witness : exists s attempt k,
  reachable_system s /\ sy_threads s (Main Radarr) = Some (Call (Submit attempt) k) /\
  att_ImportRequest attempt = "request" /\
  submissions (sy_world s) (attempt_key attempt) = 0%nat.
Proof.
  destruct (turn_reachable repairing 19 (Main Radarr) main_turn planned_world planned_reachable
              (turn_main Radarr 0 zero_time)) as (threads & Ht & Hr).
  destruct (next_submission (drive repairing 19 main_turn planned_world).1) as [attempt|] eqn:E;
    [|by vm_compute in E].
  destruct (next_submission_call _ _ E) as [k Hk]. rewrite Hk in Ht.
  exists (mkSystem (drive repairing 19 main_turn planned_world).2 threads), attempt, k.
  split; [exact Hr|]. split; [exact Ht|]. split.
  - assert (Some (att_ImportRequest attempt) = Some "request") as H; [|by injection H].
    change (att_ImportRequest <$> Some attempt = Some "request"). rewrite <- E. by vm_compute.
  - apply (proj2 (submitted_once _ Hr) (Main Radarr) attempt k Ht).
Defined.

Lemma removal_excludes_repair_witness : exists s job k,
  reachable_system s /\ sy_threads s (Actions Radarr) = Some (Call (ServiceRemove job) k) /\
  exists row, w_jobs (sy_world s) !! job_ID job = Some row /\ job_State row = Removing.
Proof.
  destruct (turn_reachable repairing 4 (Actions Radarr) action_turn removal_requested
              removal_requested_reachable (turn_actions Radarr)) as (threads & Ht & Hr).
  destruct (next_removal (drive repairing 4 action_turn removal_requested).1) as [job|] eqn:E;
    [|by vm_compute in E].
  destruct (next_removal_call _ _ E) as [k Hk]. rewrite Hk in Ht.
  exists (mkSystem (drive repairing 4 action_turn removal_requested).2 threads), job, k.
  split; [exact Hr|]. split; [exact Ht|].
  destruct (removal_excludes_repair _ (Actions Radarr) job k Hr Ht) as [(row & Hrow & Hst & _) _].
  exists row. by split.
Defined.

Lemma attempts_follow_jobs_witness : exists s,
  reachable_system s /\
  (exists job, w_jobs (sy_world s) !! 1 = Some job /\ job_State job = Importing /\
     job_PendingAction job = "").
Proof.
  destruct (turn_reachable repairing 100 (Main Radarr) main_turn planned_world planned_reachable
              (turn_main Radarr 0 zero_time)) as (threads & _ & Hr).
  eexists. split; [exact Hr|].
  destruct (w_jobs (drive repairing 100 main_turn planned_world).2 !! 1) as [job|] eqn:E;
    [|by vm_compute in E].
  assert (job_State job = Importing) as Hst.
  { assert (Some (job_State job) = Some Importing) as H; [|by injection H].
    change (job_State <$> Some job = Some Importing). rewrite <- E. by vm_compute. }
  exists job. split; [exact E|]. split; [done|].
  apply (proj1 (attempts_follow_jobs _ Hr) 1 job E). by rewrite Hst.
Defined.

Lemma attempt_final_witness : exists s s' attempt,
  reachable_system s /\ system_step s s' /\ att_State attempt = Imported /\
  w_attempts (sy_world s') !! (1, 1) = Some attempt.
Proof.
  destruct (turn_reachable confirming 100 (Main Radarr) main_turn planned_world planned_reachable
              (turn_main Radarr 0 zero_time)) as (threads & _ & Hr).
  destruct (w_attempts (drive confirming 100 main_turn planned_world).2 !! (1, 1)) as [attempt|] eqn:E;
    [|by vm_compute in E].
  assert (att_State attempt = Imported) as Hst.
  { assert (Some (att_State attempt) = Some Imported) as H; [|by injection H].
    change (att_State <$> Some attempt = Some Imported). rewrite <- E. by vm_compute. }
  eexists _, _, attempt. split; [exact Hr|]. split; [apply system_crash|]. split; [exact Hst|].
  eapply attempt_final; [exact Hr|apply system_crash|exact E|by rewrite Hst].
Defined.

Lemma stale_plan_refused_witness :
  exists db' planned, requestAction (w_db planned_world) 1 Reconsider "look again" 0 noon None = Ok db' /\
    FinishPlanning db' planned = Err ErrConflict.
Proof.
  destruct (requestAction (w_db planned_world) 1 Reconsider "look again" 0 noon None) as [db'|e] eqn:E;
    [|by vm_compute in E].
  destruct (first_job (w_db planned_world) 1) as [job|e] eqn:Hj; [|by vm_compute in Hj].
  exists db', job. split; [done|].
  apply (stale_plan_refused _ _ _ _ _ _ _ _ _ _ Hj E); [|done].
  by apply (first_job_Ok (w_db planned_world)) in Hj as [_ ->].
Defined.

