(* ===== verification/PlanningState.v ===== *)
(** * Stored planning results and cases

    [internal/planning] (failures and stored results) and
    [internal/planningstate] (the directories of results and cases, which the
    Radarr and Lidarr stores share). A directory is the map from case digests to
    files. A result file is the record it decodes to; a case file is what the
    codec of the store encodes, of a type that is a parameter. Every update
    holds the store lock, so it is one step. Failures of the file system and
    constructors, which only check that nothing is nil, are not modelled. *)
From stdpp Require Import base strings list gmap.
From S2P Require Import Prelude GoStrings JsonSchema ExecutionRecords.

Module planning.

(** ** Failures (failure.go) *)

Inductive FailureKind :=
| FailureUnavailable | FailureTimeout | FailureHTTP | FailureInvalidResult | FailureUnexpected
| FailureOther (kind : string).

Record Failure := mkFailure { fl_Kind : FailureKind; fl_StatusCode : Z }.

Definition ValidFailure (failure : Failure) : bool :=
  match fl_Kind failure with
  | FailureHTTP => bool_decide (100 <= fl_StatusCode failure) && bool_decide (fl_StatusCode failure <= 599)
  | FailureUnavailable | FailureTimeout | FailureInvalidResult | FailureUnexpected =>
      bool_decide (fl_StatusCode failure = 0)
  | FailureOther _ => false
  end.

(** An error, as far as [ClassifyFailure] looks at it: what its
    [PlanningFailure] method returns, if a wrapped error has one. *)
Definition ClassifyFailure (source : option Failure) : Failure :=
  match source with Some failure => failure | None => mkFailure FailureUnexpected 0 end.

(** ** Stored results (state_record.go) *)

Definition ResultVersionV1 : string := "media-repair-planning/v1".
Definition legacyRadarrResultVersion : string := "radarr-repair-planning/v1".
Definition legacyLidarrResultVersion : string := "lidarr-repair-planning/v1".

Definition caseIDPattern (caseID : string) : bool := wire.sha256_pattern caseID.

(** The decision is the bytes of a JSON value, empty when there is none. *)
Record StoredResult := mkStoredResult
  { sr_Version : string; sr_CaseID : string; sr_Attempts : Z; sr_AttemptedAt : time;
    sr_RetryAfter : option time; sr_Failure : option Failure; sr_Decision : string }.

Record Status := mkStatus { ps_Attempts : Z; ps_RetryAfter : option time; ps_Decided : bool }.

#[global] Instance FailureKind_eq_dec : EqDecision FailureKind.
Proof. solve_decision. Defined.
#[global] Instance Failure_eq_dec : EqDecision Failure.
Proof. solve_decision. Defined.
#[global] Instance StoredResult_eq_dec : EqDecision StoredResult.
Proof. solve_decision. Defined.

(** The case and the canonical bytes of a decision. *)
Definition DecisionValidator := string -> result (string * string).

Definition HasDecision (r : StoredResult) : bool := negb (bool_decide (sr_Decision r = "")).

Definition stored_Status (r : StoredResult) : Status :=
  mkStatus (sr_Attempts r) (sr_RetryAfter r) (HasDecision r).

Definition validateStoredResult (r : StoredResult) (validateDecision : option DecisionValidator)
    : result unit :=
  _ ← fail_if (negb (caseIDPattern (sr_CaseID r))) "invalid planning result case ID";
  _ ← fail_if (bool_decide (sr_Attempts r = 0)) "planning result must contain at least one attempt";
  _ ← fail_if (IsZero (sr_AttemptedAt r)) "planning result attempt time is required";
  let hasFailure := negb (bool_decide (sr_Failure r = None)) in
  _ ← fail_if (Bool.eqb (HasDecision r) hasFailure)
        "planning result must contain exactly one decision or failure";
  if HasDecision r
  then
    _ ← fail_if (negb (bool_decide (sr_RetryAfter r = None)))
          "successful planning result cannot have a retry time";
    match validateDecision with
    | None => Err "planning decision validator is required"
    | Some validate =>
        checked ← validate (sr_Decision r);
        let '(caseID, canonical) := checked in
        _ ← fail_if (negb (bool_decide (sr_Decision r = canonical)))
              "stored planning decision is not in canonical encoded form";
        fail_if (negb (bool_decide (caseID = sr_CaseID r)))
          "planning decision case ID does not match its record"
    end
  else
    _ ← match sr_RetryAfter r with
        | None => Err "failed planning result must have a later retry time"
        | Some retry => fail_if (negb (After retry (sr_AttemptedAt r)))
                          "failed planning result must have a later retry time"
        end;
    match sr_Failure r with
    | None => Err "panic: nil dereference"
    | Some failure => fail_if (negb (ValidFailure failure)) "invalid planning failure"
    end.

(** [json.Marshal] writes a time whose year has four digits. *)
Definition marshal_result (r : StoredResult) : result unit :=
  fail_if (negb (json_time (sr_AttemptedAt r) &&
                 match sr_RetryAfter r with Some t => json_time t | None => true end))
    "encode planning result".

Definition EncodeStoredResult (r : StoredResult) (validateDecision : option DecisionValidator)
    : result StoredResult :=
  _ ← fail_if (negb (bool_decide (sr_Version r = ResultVersionV1)))
        "unsupported planning result version";
  _ ← validateStoredResult r validateDecision;
  _ ← marshal_result r;
  mret r.

Definition DecodeStoredResult (r : StoredResult) (validateDecision : option DecisionValidator)
    : result StoredResult :=
  _ ← fail_if (negb (bool_decide (sr_Version r = ResultVersionV1)) &&
               negb (bool_decide (sr_Version r = legacyRadarrResultVersion)) &&
               negb (bool_decide (sr_Version r = legacyLidarrResultVersion)))
        "unsupported planning result version";
  _ ← validateStoredResult r validateDecision;
  mret r.

Definition max_uint64 : Z := 2 ^ 64 - 1.

Definition nextAttempts (previous : option StoredResult) : result Z :=
  match previous with
  | None => Ok 1
  | Some r =>
      if bool_decide (sr_Attempts r = max_uint64) then Err "planning attempt count overflow"
      else Ok (sr_Attempts r + 1)
  end.

Definition decided (previous : option StoredResult) : option StoredResult :=
  match previous with Some r => if HasDecision r then Some r else None | None => None end.

(** The next result, and whether it has to be stored. *)
Definition NextFailure (previous : option StoredResult) (caseID : string) (failure : Failure)
    (attemptedAt retryAfter : time) : result (StoredResult * bool) :=
  match decided previous with
  | Some r => Ok (r, false)
  | None =>
      attempts ← nextAttempts previous;
      mret (mkStoredResult ResultVersionV1 caseID attempts (UTC attemptedAt) (Some (UTC retryAfter))
              (Some failure) "", true)
  end.

Definition NextDecision (previous : option StoredResult) (caseID decision : string)
    (attemptedAt : time) : result (StoredResult * bool) :=
  match decided previous with
  | Some r =>
      if bool_decide (sr_Decision r = decision) then Ok (r, false)
      else Err "case ID is already bound to a different planning decision"
  | None =>
      attempts ← nextAttempts previous;
      mret (mkStoredResult ResultVersionV1 caseID attempts (UTC attemptedAt) None None decision, true)
  end.
End planning.
Import planning.

(** ** The directory of results (planning_results.go) *)

Module ResultStore.
Abbreviation Files := (gmap string StoredResult).

Section store.
Context (validateDecision : DecisionValidator).

Definition Path (caseID : string) : result string :=
  if caseIDPattern caseID then Ok (s_drop 7 caseID) else Err "invalid planning case ID".

Definition read (files : Files) (path : string) : result (option StoredResult) :=
  match files !! path with
  | None => Ok None
  | Some r => r ← DecodeStoredResult r (Some validateDecision); mret (Some r)
  end.

Definition unexpected (caseID : string) (found : option StoredResult) : result unit :=
  match found with
  | Some r => fail_if (negb (bool_decide (sr_CaseID r = caseID)))
                "stored planning result has unexpected case ID"
  | None => Ok tt
  end.

Definition Get (files : Files) (caseID : string) : result (option StoredResult) :=
  path ← Path caseID;
  found ← read files path;
  _ ← unexpected caseID found;
  mret found.

(** The result, whether it changed, and the directory. *)
Definition update (files : Files) (caseExists : string -> result bool) (caseID : string)
    (step : option StoredResult -> result (StoredResult * bool)) : result (StoredResult * bool * Files) :=
  path ← Path caseID;
  exists_ ← caseExists caseID;
  _ ← fail_if (negb exists_) "case is not stored";
  previous ← read files path;
  _ ← unexpected caseID previous;
  next ← step previous;
  let '(r, changed) := next in
  if negb changed then mret (r, false, files)
  else
    encoded ← EncodeStoredResult r (Some validateDecision);
    mret (r, true, <[path := encoded]> files).

Definition PutFailure (files : Files) (caseExists : string -> result bool) (caseID : string)
    (failure : Failure) (attemptedAt retryAfter : time) : result (StoredResult * bool * Files) :=
  update files caseExists caseID
    (fun previous => NextFailure previous caseID failure attemptedAt retryAfter).

Definition PutDecision (files : Files) (caseExists : string -> result bool) (caseID decision : string)
    (attemptedAt : time) : result (StoredResult * bool * Files) :=
  update files caseExists caseID (fun previous => NextDecision previous caseID decision attemptedAt).
End store.
End ResultStore.

(** ** The directory of cases (cases.go) *)

(** What a service provides for its cases; [B] is the type of file contents. *)
Record CaseCodec (Case B : Type) := mkCaseCodec
  { codec_CaseID : Case -> string;
    codec_Encode : Case -> result B;
    codec_Decode : B -> result Case;
    codec_SameIdentity : Case -> Case -> result bool;
    codec_Merge : Case -> Case -> result Case }.
Arguments codec_CaseID {Case B} _ _.
Arguments codec_Encode {Case B} _ _.
Arguments codec_Decode {Case B} _ _.
Arguments codec_SameIdentity {Case B} _ _ _.
Arguments codec_Merge {Case B} _ _ _.

Module CaseStore.

Record Observation := mkObservation { ob_Created : bool; ob_Updated : bool }.

Section store.
Context {Case B : Type} `{!EqDecision B} (codec : CaseCodec Case B).

Definition casePath (caseID : string) : result string :=
  if caseIDPattern caseID then Ok (s_drop 7 caseID) else Err "invalid planning case ID".

Definition readCase (files : gmap string B) (path : string) : result (option Case) :=
  match files !! path with
  | None => Ok None
  | Some data => record ← codec_Decode codec data; mret (Some record)
  end.

Definition validate (record : Case) : result string :=
  let caseID := codec_CaseID codec record in
  _ ← fail_if (negb (caseIDPattern caseID)) "invalid planning case ID";
  _ ← codec_Encode codec record;
  mret caseID.

(** What is stored for a case that may have been observed before. *)
Definition wanted (stored : option Case) (current : Case) : result Case :=
  match stored with
  | None => Ok current
  | Some stored =>
      same ← codec_SameIdentity codec stored current;
      _ ← fail_if (negb same) "case ID is already bound to different planning evidence";
      codec_Merge codec stored current
  end.

(** The observation and the directory; the file is written before [after] runs,
    which may fail. *)
Definition Observe (files : gmap string B) (current : Case) (after : result unit)
    : result Observation * gmap string B :=
  let write :=
    caseID ← validate current;
    path ← casePath caseID;
    stored ← readCase files path;
    record ← wanted stored current;
    data ← codec_Encode codec record;
    match stored with
    | None => mret (mkObservation true true, <[path := data]> files)
    | Some stored =>
        storedData ← codec_Encode codec stored;
        if bool_decide (storedData = data) then mret (mkObservation false false, files)
        else mret (mkObservation false true, <[path := data]> files)
    end in
  match write with
  | Err e => (Err e, files)
  | Ok (observed, files') => (_ ← after; mret observed, files')
  end.

Definition GetCase (files : gmap string B) (caseID : string) : result (option Case) :=
  path ← casePath caseID;
  found ← readCase files path;
  match found with
  | None => mret None
  | Some stored =>
      storedID ← validate stored;
      _ ← fail_if (negb (bool_decide (storedID = caseID))) "stored planning case has unexpected ID";
      mret (Some stored)
  end.
End store.
End CaseStore.

(** ** Properties of stored results *)

Lemma caseIDPattern_digest caseID :
  caseDigest caseID = if caseIDPattern caseID then Ok (s_drop 7 caseID) else Err "invalid case ID".
Proof.
  unfold caseDigest, caseIDPattern, wire.sha256_pattern.
  destruct (HasPrefix _ _); [|done]. change (7 + 64)%nat with 71%nat.
  destruct (bool_decide _); [|done]. simpl. by destruct (s_forall _ _).
Qed.

Lemma HasPrefix_app s p : HasPrefix s p = true -> exists t, s = p +:+ t.
Proof.
  unfold HasPrefix. revert s. induction p as [|a p IH]; intros s; [by exists s|].
  destruct s as [|b s]; [done|]. simpl. destruct (Ascii.ascii_dec a b) as [->|]; [|done].
  intros [t ->]%IH. by exists t.
Qed.

Section results.
Context (validateDecision : DecisionValidator).
(** A file that was encoded for the case of its name. *)
Definition result_ok (path : string) (r : StoredResult) : Prop :=
  EncodeStoredResult r (Some validateDecision) = Ok r /\ ResultStore.Path (sr_CaseID r) = Ok path.

Lemma Encode_Ok r r' validate :
  EncodeStoredResult r validate = Ok r' ->
  r' = r /\ sr_Version r = ResultVersionV1 /\ validateStoredResult r validate = Ok tt.
Proof. unfold EncodeStoredResult. intros H. inv_result. split_bool. by destruct_units. Qed.

Lemma read_Some (files : ResultStore.Files) path r :
  ResultStore.read validateDecision files path = Ok (Some r) -> files !! path = Some r.
Proof.
  unfold ResultStore.read. destruct (files !! path) as [r'|]; [|done]. intros H.
  apply bind_Ok in H as (r0 & Hd & H). injection H as <-. unfold DecodeStoredResult in Hd. by inv_result.
Qed.

Lemma Decode_Encode r :
  EncodeStoredResult r (Some validateDecision) = Ok r ->
  DecodeStoredResult r (Some validateDecision) = Ok r.
Proof.
  intros (_ & Hv & Hs)%Encode_Ok. unfold DecodeStoredResult.
  by rewrite Hs, (bool_decide_true (sr_Version r = ResultVersionV1)).
Qed.

(** A result may follow another: the first one counts one attempt, a failure is
    followed by the next attempt, and a decision by nothing. *)
Definition succeeds (previous : option StoredResult) (r : StoredResult) : Prop :=
  match previous with
  | None => sr_Attempts r = 1
  | Some p => HasDecision p = false /\ sr_Attempts r = sr_Attempts p + 1 /\
              sr_Attempts p <> max_uint64
  end.

Definition result_step (caseID : string)
    (step : option StoredResult -> result (StoredResult * bool)) : Prop :=
  forall previous r changed, step previous = Ok (r, changed) ->
    if changed then sr_CaseID r = caseID /\ succeeds previous r else previous = Some r.

Lemma nextAttempts_succeeds previous attempts r :
  decided previous = None -> nextAttempts previous = Ok attempts -> sr_Attempts r = attempts ->
  succeeds previous r.
Proof.
  destruct previous as [p|]; simpl; [|congruence]. destruct (HasDecision p); [done|].
  intros _. case_bool_decide; [done|]. intros [= <-] ->. done.
Qed.

Lemma decided_Some previous r : decided previous = Some r -> previous = Some r.
Proof. destruct previous as [p|]; [|done]. simpl. by destruct (HasDecision p). Qed.

Lemma NextFailure_step caseID failure attemptedAt retryAfter :
  result_step caseID (fun previous => NextFailure previous caseID failure attemptedAt retryAfter).
Proof.
  intros previous r changed. unfold NextFailure. destruct (decided previous) as [d|] eqn:E.
  - intros [= <- <-]. by apply decided_Some.
  - intros H. apply bind_Ok in H as (n & Hn & H). injection H as <- <-.
    split; [done|]. by eapply nextAttempts_succeeds.
Qed.

Lemma NextDecision_step caseID decision attemptedAt :
  result_step caseID (fun previous => NextDecision previous caseID decision attemptedAt).
Proof.
  intros previous r changed. unfold NextDecision. destruct (decided previous) as [d|] eqn:E.
  - case_bool_decide; [|done]. intros [= <- <-]. by apply decided_Some.
  - intros H. apply bind_Ok in H as (n & Hn & H). injection H as <- <-.
    split; [done|]. by eapply nextAttempts_succeeds.
Qed.

Lemma NextDecision_changed previous caseID decision attemptedAt r :
  NextDecision previous caseID decision attemptedAt = Ok (r, true) ->
  sr_Decision r = decision /\ sr_Failure r = None.
Proof.
  unfold NextDecision. destruct (decided previous); [by case_bool_decide|].
  intros H. apply bind_Ok in H as (n & _ & H). by injection H as <-.
Qed.

(** A failure leaves a decision, or the retry time. *)
Lemma NextFailure_status previous caseID failure attemptedAt retryAfter r changed :
  NextFailure previous caseID failure attemptedAt retryAfter = Ok (r, changed) ->
  ps_Decided (stored_Status r) = true \/ ps_RetryAfter (stored_Status r) = Some (UTC retryAfter).
Proof.
  unfold NextFailure. destruct (decided previous) as [d|] eqn:E.
  - intros [= <- _]. left. destruct previous as [p|]; [|done]. simpl in E.
    destruct (HasDecision p) eqn:Hp; [|done]. by injection E as <-.
  - intros H. apply bind_Ok in H as (n & _ & H). injection H as <- _. by right.
Qed.

(** What a successful update did. *)
Lemma update_Ok (files files' : ResultStore.Files) caseExists caseID step r changed :
  result_step caseID step ->
  ResultStore.update validateDecision files caseExists caseID step = Ok (r, changed, files') ->
  exists path, ResultStore.Path caseID = Ok path /\ step (files !! path) = Ok (r, changed) /\
    if changed then succeeds (files !! path) r /\ result_ok path r /\ files' = <[path := r]> files
    else files' = files /\ files !! path = Some r.
Proof.
  intros Hstep H. unfold ResultStore.update in H. apply bind_Ok in H as (path & Hp & H).
  apply bind_Ok in H as (ex & _ & H). apply bind_Ok in H as (u & _ & H).
  apply bind_Ok in H as (previous & Hr & H). apply bind_Ok in H as (u1 & _ & H).
  apply bind_Ok in H as ([r1 changed1] & Hs & H). specialize (Hstep _ _ _ Hs).
  exists path. split; [done|].
  assert (files !! path = previous) as Hprev.
  { destruct previous as [p|]; [by apply read_Some|]. unfold ResultStore.read in Hr.
    destruct (files !! path); [|done]. by apply bind_Ok in Hr as (? & _ & ?). }
  destruct changed1; simpl in H.
  - apply bind_Ok in H as (r2 & He & H). injection H as <- <- <-.
    pose proof (Encode_Ok _ _ _ He) as [-> _]. destruct Hstep as [Hc Hsucc]. rewrite Hprev.
    split_and!; [done|done| |done]. split; [done|]. by rewrite Hc.
  - injection H as <- <- <-. by rewrite Hprev.
Qed.

(** Results are put in any order, for any cases; a put that fails leaves the
    directory as it was. *)
Inductive put (files files' : ResultStore.Files) : Prop :=
| put_failure caseExists caseID failure attemptedAt retryAfter r changed :
    ResultStore.PutFailure validateDecision files caseExists caseID failure attemptedAt retryAfter
      = Ok (r, changed, files') -> put files files'
| put_decision caseExists caseID decision attemptedAt r changed :
    ResultStore.PutDecision validateDecision files caseExists caseID decision attemptedAt
      = Ok (r, changed, files') -> put files files'.

Lemma put_Ok files files' :
  put files files' ->
  files' = files \/
  exists path r, succeeds (files !! path) r /\ result_ok path r /\ files' = <[path := r]> files.
Proof.
  assert (forall caseExists caseID step r changed, result_step caseID step ->
    ResultStore.update validateDecision files caseExists caseID step = Ok (r, changed, files') ->
    files' = files \/
    exists path r, succeeds (files !! path) r /\ result_ok path r /\ files' = <[path := r]> files) as Hu.
  { intros * Hs H. apply update_Ok in H as (path & _ & _ & H); [|done].
    destruct changed; [right; eauto|left; apply H]. }
  intros [? ? ? ? ? ? ? H|? ? ? ? ? ? H]; eapply Hu, H.
  - apply NextFailure_step.
  - apply NextDecision_step.
Qed.

(** The invariant of the directory. *)
Definition results_ok : ResultStore.Files -> Prop :=
  map_Forall (fun path r => result_ok path r /\ 1 <= sr_Attempts r <= max_uint64).

Lemma put_results_ok files files' : results_ok files -> put files files' -> results_ok files'.
Proof.
  intros Hok [->|(path & r & Hs & Hr & ->)]%put_Ok; [done|].
  apply map_Forall_insert_2; [|done]. split; [done|]. unfold succeeds in Hs.
  destruct (files !! path) as [p|] eqn:E.
  - apply Hok in E as [_ ?]. lia.
  - rewrite Hs. unfold max_uint64. lia.
Qed.

(** How a result and a later one of the same case are related. *)
Definition follows (r r' : StoredResult) : Prop :=
  r' = r \/ (HasDecision r = false /\ sr_Attempts r < sr_Attempts r').

Lemma follows_trans r r' r'' : follows r r' -> follows r' r'' -> follows r r''.
Proof. unfold follows. intros [->|[]] [->|[]]; auto. right. split; [done|lia]. Qed.

Lemma put_follows files files' path r :
  put files files' -> files !! path = Some r -> exists r', files' !! path = Some r' /\ follows r r'.
Proof.
  intros [->|(path' & r' & Hs & Hr & ->)]%put_Ok E; [exists r; by split; [|left]|].
  destruct (decide (path = path')) as [->|Hne].
  - rewrite E in Hs. destruct Hs as (Hd & Ha & _). exists r'. split; [by rewrite lookup_insert_eq|].
    right. split; [done|lia].
  - exists r. split; [by rewrite lookup_insert_ne|by left].
Qed.

Lemma puts_follow files files' path r :
  rtc put files files' -> files !! path = Some r ->
  exists r', files' !! path = Some r' /\ follows r r'.
Proof.
  intros H. revert r. induction H as [|files files1 files' Hput _ IH]; intros r E.
  - exists r. by split; [|left].
  - destruct (put_follows _ _ _ _ Hput E) as (r1 & E1 & F1).
    destruct (IH _ E1) as (r' & E' & F'). exists r'. eauto using follows_trans.
Qed.

Lemma puts_results_ok files files' : rtc put files files' -> results_ok files -> results_ok files'.
Proof. induction 1; eauto using put_results_ok. Qed.

(** Reading a directory that satisfies the invariant. *)
Lemma read_ok files path : results_ok files -> ResultStore.read validateDecision files path = Ok (files !! path).
Proof.
  intros Hok. unfold ResultStore.read. destruct (files !! path) as [r|] eqn:E; [|done].
  apply Hok in E as [[He _] _]. by rewrite Decode_Encode.
Qed.

Lemma Path_inj caseID caseID' path :
  ResultStore.Path caseID = Ok path -> ResultStore.Path caseID' = Ok path -> caseID = caseID'.
Proof.
  unfold ResultStore.Path, caseIDPattern, wire.sha256_pattern. intros H H'.
  destruct (HasPrefix caseID _) eqn:E; [|done]. destruct (HasPrefix caseID' _) eqn:E'; [|done].
  apply HasPrefix_app in E as [a ->]. apply HasPrefix_app in E' as [b ->].
  repeat case_match; try done. change (Ok a = Ok path) in H. change (Ok b = Ok path) in H'. congruence.
Qed.

Lemma unexpected_ok files caseID path :
  results_ok files -> ResultStore.Path caseID = Ok path ->
  ResultStore.unexpected caseID (files !! path) = Ok tt.
Proof.
  intros Hok Hp. unfold ResultStore.unexpected. destruct (files !! path) as [r|] eqn:E; [|done].
  apply Hok in E as [[_ Hp'] _]. rewrite bool_decide_true; [done|]. by eapply Path_inj.
Qed.

Lemma Get_ok files caseID path :
  results_ok files -> ResultStore.Path caseID = Ok path ->
  ResultStore.Get validateDecision files caseID = Ok (files !! path).
Proof.
  intros Hok Hp. unfold ResultStore.Get. rewrite Hp. simpl. rewrite (read_ok _ _ Hok). simpl.
  by rewrite (unexpected_ok _ _ _ Hok Hp).
Qed.

Lemma Get_Some files caseID r :
  results_ok files -> ResultStore.Get validateDecision files caseID = Ok (Some r) ->
  exists path, ResultStore.Path caseID = Ok path /\ files !! path = Some r.
Proof.
  intros Hok H. destruct (ResultStore.Path caseID) as [path|] eqn:Hp.
  - exists path. rewrite (Get_ok _ _ _ Hok Hp) in H. by injection H.
  - unfold ResultStore.Get in H. by rewrite Hp in H.
Qed.

(** The results of planning are bound to their cases: in every directory that
    puts from the empty one lead to, the result read for a case is that case's
    and counts between one and 2^64-1 attempts; and after any further puts the
    case has a result that is the same one, or, only when it held no decision,
    one with more attempts. *)
Theorem planning_results_bound (files files' : ResultStore.Files) caseID r :
  rtc put ∅ files -> rtc put files files' ->
  ResultStore.Get validateDecision files caseID = Ok (Some r) ->
  sr_CaseID r = caseID /\ 1 <= sr_Attempts r <= max_uint64 /\
  exists r', ResultStore.Get validateDecision files' caseID = Ok (Some r') /\
    (r' = r \/ (HasDecision r = false /\ sr_Attempts r < sr_Attempts r')).
Proof.
  intros H0 H1 Hg. assert (results_ok files) as Hok by (eapply puts_results_ok; [done|apply map_Forall_empty]).
  apply Get_Some in Hg as (path & Hp & E); [|done].
  destruct (Hok _ _ E) as [[_ Hp'] Ha]. split_and!; [by eapply Path_inj|lia|lia|].
  destruct (puts_follow _ _ _ _ H1 E) as (r' & E' & F). exists r'. split; [|done].
  rewrite (Get_ok _ _ _ (puts_results_ok _ _ H1 Hok) Hp). by rewrite E'.
Qed.
End results.
