(* ===== verification/CaseStorage.v ===== *)
(** * Stored cases and execution plans

    [internal/casestore] (record.go, store.go, planning.go, planned_case.go,
    execution_plan.go): the directories of case records, planning results and
    execution plans, which are the source of plans for the executions. A file
    is the record it decodes to; a record that cannot be marshaled, because of
    a time outside the four-digit years, is not written. Preparing directories
    and locks is not modelled: an operation with the store lock is one step. *)
From stdpp Require Import base strings list gmap.
From S2P Require Import Prelude GoStrings FileIdentity Probe Media Radarr CaseContracts Decisions.
From S2P Require Import ManualImportPolicy ExecutionRecords ExecutionStore PlanningState.
From S2P Require Import CaseCodec CaseAssembly.

(** ** Records (record.go) *)

Module casestore.
Import planning.

Definition RecordVersionV1 : string := "radarr-repair-state/v1".
Definition RecordVersionV2 : string := "radarr-repair-state/v2".
Definition RecordVersionV3 : string := "radarr-repair-state/v3".
Definition RecordVersionV4 : string := "radarr-repair-state/v4".

Record CaseRecord := mkCaseRecord
  { cr_Version : string; cr_CaseID : string; cr_Request : string; cr_Snapshot : LocalSnapshot;
    cr_StableSince : time }.

#[global] Instance CaseRecord_eq_dec : EqDecision CaseRecord.
Proof. solve_decision. Defined.

(** [ObservedAt.UTC()] of the snapshot. *)
Definition observedAt (record : CaseRecord) : time :=
  UTC (ob_ObservedAt (ls_Observation (cr_Snapshot record))).

(** The times that [json.Marshal] writes. *)
Definition record_times (record : CaseRecord) : list time :=
  let o := ls_Observation (cr_Snapshot record) in
  let download := dc_Download (ob_Correlation o) in
  cr_StableSince record :: ob_ObservedAt o ::
  option_list (q_EstimatedCompletionTime (dc_Radarr (ob_Correlation o))) ++
  map he_OccurredAt (ob_History o) ++
  option_list (dl_CreatedAt download) ++ option_list (dl_AddedAt download) ++
  option_list (dl_CompletedAt download).

Section records.
Context {codec : RepairCodec}.

Definition validateRecord (record : CaseRecord) : result unit :=
  _ ← fail_if (negb (bool_decide (cr_Version record = RecordVersionV1)) &&
               negb (bool_decide (cr_Version record = RecordVersionV2)) &&
               negb (bool_decide (cr_Version record = RecordVersionV3)) &&
               negb (bool_decide (cr_Version record = RecordVersionV4)))
        "unsupported case record version";
  _ ← (if bool_decide (cr_Version record = RecordVersionV4)
       then fail_if (IsZero (cr_StableSince record) || negb (bool_decide (t_zone (cr_StableSince record) = None)) ||
                     After (cr_StableSince record) (observedAt record))
              "stored case stability time is invalid"
       else fail_if (negb (IsZero (cr_StableSince record))) "legacy case record contains a stability time");
  request ← DecodeCase (cr_Request record);
  canonicalRequest ← EncodeCase request;
  _ ← fail_if (negb (bool_decide (cr_Request record = canonicalRequest)))
        "stored repair case is not in canonical encoded form";
  _ ← fail_if (negb (bool_decide (cr_CaseID record = rc_CaseID request)))
        "record case ID does not match its repair case";
  _ ← fail_if (negb (bool_decide (ls_CaseID (cr_Snapshot record) = cr_CaseID record)))
        "snapshot case ID does not match its record";
  rebuilt ← assemble.Assemble (ls_Observation (cr_Snapshot record));
  rebuiltEncoded ← EncodeCase (as_Request rebuilt);
  _ ← fail_if (negb (bool_decide (rebuiltEncoded = cr_Request record)))
        "stored observation does not reproduce its repair case";
  fail_if (negb (bool_decide (ls_ManualImportBindings (as_LocalSnapshot rebuilt) =
                              ls_ManualImportBindings (cr_Snapshot record))))
    "stored manual import bindings do not match the repair case".

Definition NewRecord (assembly : Assembly) : result CaseRecord :=
  encodedRequest ← EncodeCase (as_Request assembly);
  _ ← fail_if (negb (bool_decide (encodedRequest = as_EncodedRequest assembly)))
        "assembly request bytes do not match its typed request";
  let record := mkCaseRecord RecordVersionV4 (rc_CaseID (as_Request assembly)) (as_EncodedRequest assembly)
    (as_LocalSnapshot assembly) (rc_ObservedAt (as_Request assembly)) in
  _ ← validateRecord record;
  mret record.

Definition EncodeRecord (record : CaseRecord) : result CaseRecord :=
  _ ← validateRecord record;
  _ ← fail_if (negb (forallb json_time (record_times record))) "encode case record";
  mret record.

Definition DecodeRecord (record : CaseRecord) : result CaseRecord :=
  _ ← validateRecord record;
  mret record.

(** ** Observations of a case (store.go) *)

Definition recordAssembly (record : CaseRecord) : result Assembly :=
  request ← DecodeCase (cr_Request record);
  mret (mkAssembly request (cr_Request record) (cr_Snapshot record)).

Definition recordStableSince (record : CaseRecord) : time :=
  if negb (IsZero (cr_StableSince record)) then cr_StableSince record else observedAt record.

Definition sameRadarrCaseIdentity (left right : CaseRecord) : result bool :=
  leftRequest ← DecodeCase (cr_Request left);
  rightRequest ← DecodeCase (cr_Request right);
  if negb (bool_decide (cr_CaseID left = cr_CaseID right)) then mret false
  else SameCaseIdentity leftRequest rightRequest.

(** The new observation, stable for as long as nothing else changed. *)
Definition mergeRadarrCaseObservation (stored current : CaseRecord) : result CaseRecord :=
  storedAssembly ← recordAssembly stored;
  currentAssembly ← recordAssembly current;
  let since := if assemble.SameCaseState storedAssembly currentAssembly
               then recordStableSince stored else observedAt current in
  mret (mkCaseRecord RecordVersionV4 (cr_CaseID current) (cr_Request current) (cr_Snapshot current) since).

Definition case_codec : CaseCodec CaseRecord CaseRecord :=
  mkCaseCodec _ _ cr_CaseID EncodeRecord DecodeRecord sameRadarrCaseIdentity mergeRadarrCaseObservation.

(** ** The directories (store.go, planning.go) *)

Definition executionPlanVersion : string := "radarr-repair-execution-plan/v1".
Definition MaximumRuntimeDifferenceLimitMS : Z := 60 * 60 * 1000.

Record executionPlanRecord := mkPlanRecord
  { ep_Version : string; ep_CaseID : string; ep_Decision : string; ep_ReconsiderationID : string;
    ep_PolicyOverrides : option PolicyOverrides }.

#[global] Instance executionPlanRecord_eq_dec : EqDecision executionPlanRecord.
Proof. solve_decision. Defined.

(** The directories [cases], [planning] and [execution-plans]. *)
Record Directories := mkDirectories
  { dir_cases : gmap string CaseRecord; dir_planning : ResultStore.Files;
    dir_plans : gmap string executionPlanRecord }.

Definition Put (dirs : Directories) (record : CaseRecord) : result bool * Directories :=
  let '(observed, cases) := CaseStore.Observe case_codec (dir_cases dirs) record (Ok tt) in
  (observed ← observed; mret (CaseStore.ob_Created observed),
   mkDirectories cases (dir_planning dirs) (dir_plans dirs)).

Definition PutAssembly (dirs : Directories) (assembly : Assembly) : result bool * Directories :=
  match NewRecord assembly with
  | Ok record => Put dirs record
  | Err e => (Err e, dirs)
  end.

Definition GetRecord (dirs : Directories) (caseID : string) : result (option CaseRecord) :=
  CaseStore.GetCase case_codec (dir_cases dirs) caseID.

Definition StableSince (dirs : Directories) (caseID : string) : result time :=
  found ← GetRecord dirs caseID;
  match found with
  | None => Err "case is not stored"
  | Some record => mret (recordStableSince record)
  end.

Definition validateRadarrDecision (data : string) : result (string * string) :=
  decision ← DecodeDecision data;
  canonical ← EncodeDecision decision;
  mret (decision_CaseID decision, canonical).

Definition case_stored (dirs : Directories) (caseID : string) : result bool :=
  found ← GetRecord dirs caseID;
  mret (bool_decide (is_Some found)).

Definition with_planning (dirs : Directories) (planning : ResultStore.Files) : Directories :=
  mkDirectories (dir_cases dirs) planning (dir_plans dirs).

Definition GetPlanningResult (dirs : Directories) (caseID : string) : result (option StoredResult) :=
  ResultStore.Get validateRadarrDecision (dir_planning dirs) caseID.

Definition PutPlanningFailure (dirs : Directories) (caseID : string) (failure : Failure)
    (attemptedAt retryAfter : time) : result (StoredResult * bool * Directories) :=
  '(r, changed, planning) ← ResultStore.PutFailure validateRadarrDecision (dir_planning dirs)
    (case_stored dirs) caseID failure attemptedAt retryAfter;
  mret (r, changed, with_planning dirs planning).

Definition PutPlanningDecision (dirs : Directories) (caseID : string) (decision : RepairDecisionV3)
    (attemptedAt : time) : result (StoredResult * bool * Directories) :=
  encoded ← EncodeDecision decision;
  _ ← fail_if (negb (bool_decide (decision_CaseID decision = caseID)))
        "planning decision case ID does not match its record";
  '(r, changed, planning) ← ResultStore.PutDecision validateRadarrDecision (dir_planning dirs)
    (case_stored dirs) caseID encoded attemptedAt;
  mret (r, changed, with_planning dirs planning).

(** ** Planned cases (planned_case.go) *)

Definition readRecord (dirs : Directories) (digest : string) : result (option CaseRecord) :=
  match dir_cases dirs !! digest with
  | None => Ok None
  | Some record => record ← DecodeRecord record; mret (Some record)
  end.

Definition GetPlannedCase (dirs : Directories) (caseID : string) : result PlannedCase :=
  digest ← caseDigest caseID;
  found ← readRecord dirs digest;
  match found with
  | None => Err "case is not stored"
  | Some caseRecord =>
      _ ← fail_if (negb (bool_decide (cr_CaseID caseRecord = caseID))) "stored record has unexpected case ID";
      planning ← GetPlanningResult dirs caseID;
      match decided planning with
      | None => Err "case has no stored planning decision"
      | Some planning =>
          _ ← fail_if (negb (bool_decide (sr_CaseID planning = caseID)))
                "stored planning result has unexpected case ID";
          decision ← DecodeDecision (sr_Decision planning);
          assembly ← recordAssembly caseRecord;
          mret (mkPlannedCase assembly decision "" None)
      end
  end.

(** ** Execution plans (execution_plan.go) *)

Definition invalid_overrides (overrides : option PolicyOverrides) : bool :=
  match overrides with
  | None => false
  | Some o => bool_decide (po_MaximumRuntimeDifferenceMS o <= 0) ||
              bool_decide (MaximumRuntimeDifferenceLimitMS < po_MaximumRuntimeDifferenceMS o)
  end.

Definition newExecutionPlanRecord (base planned : PlannedCase) : result executionPlanRecord :=
  let caseID := rc_CaseID (as_Request (pc_Assembly base)) in
  decision ← EncodeDecision (pc_Decision planned);
  _ ← fail_if (negb (bool_decide (decision_CaseID (pc_Decision planned) = caseID)))
        "execution decision belongs to another case";
  _ ← (if bool_decide (pc_ReconsiderationID planned = "")
       then fail_if (negb (bool_decide (pc_PolicyOverrides planned = None)) ||
                     negb (bool_decide (pc_Decision planned = pc_Decision base)))
              "changed execution plan has no reconsideration identity"
       else
         _ ← caseDigest (pc_ReconsiderationID planned);
         fail_if (invalid_overrides (pc_PolicyOverrides planned)) "execution policy overrides are invalid");
  mret (mkPlanRecord executionPlanVersion caseID decision (pc_ReconsiderationID planned)
          (pc_PolicyOverrides planned)).

Definition validateExecutionPlan (record : executionPlanRecord) (base : PlannedCase) : result unit :=
  _ ← fail_if (negb (bool_decide (ep_Version record = executionPlanVersion)) ||
               negb (bool_decide (ep_CaseID record = rc_CaseID (as_Request (pc_Assembly base)))))
        "execution plan identity is invalid";
  decision ← DecodeDecision (ep_Decision record);
  _ ← match EncodeDecision decision with
      | Ok canonical =>
          fail_if (negb (bool_decide (canonical = ep_Decision record)) ||
                   negb (bool_decide (decision_CaseID decision = ep_CaseID record)))
            "execution plan decision is invalid"
      | Err _ => Err "execution plan decision is invalid"
      end;
  match newExecutionPlanRecord base
          (mkPlannedCase (pc_Assembly base) decision (ep_ReconsiderationID record) (ep_PolicyOverrides record)) with
  | Ok wanted => fail_if (negb (bool_decide (wanted = record))) "execution plan is invalid"
  | Err _ => Err "execution plan is invalid"
  end.

Definition encodeExecutionPlan (record : executionPlanRecord) (base : PlannedCase) : result executionPlanRecord :=
  _ ← validateExecutionPlan record base;
  mret record.

Definition readExecutionPlan (dirs : Directories) (digest : string) (base : PlannedCase)
    : result (option executionPlanRecord) :=
  match dir_plans dirs !! digest with
  | None => Ok None
  | Some record => _ ← validateExecutionPlan record base; mret (Some record)
  end.

Definition GetExecutionPlan (dirs : Directories) (caseID : string) : result PlannedCase :=
  base ← GetPlannedCase dirs caseID;
  digest ← caseDigest caseID;
  found ← readExecutionPlan dirs digest base;
  match found with
  | None => mret base
  | Some record =>
      decision ← DecodeDecision (ep_Decision record);
      mret (mkPlannedCase (pc_Assembly base) decision (ep_ReconsiderationID record) (ep_PolicyOverrides record))
  end.

(** The plan of a case is replaced as long as nothing was executed. The code reads
    the base case before it takes the lock of the plans; here both are one step,
    which is the same since a stored case and its decision do not change once
    they can be read as planned. *)
Definition BindExecutionPlan (store : Store Directories) (planned : PlannedCase) : result (Store Directories) :=
  let dirs := st_plans store in
  let request := as_Request (pc_Assembly planned) in
  base ← GetPlannedCase dirs (rc_CaseID request);
  let baseID := rc_CaseID (as_Request (pc_Assembly base)) in
  sameCase ← SameCaseIdentity (as_Request (pc_Assembly base)) request;
  _ ← fail_if (negb sameCase || negb (bool_decide (rc_CaseID request = baseID)) ||
               negb (bool_decide (ls_CaseID (as_LocalSnapshot (pc_Assembly planned)) = baseID)))
        "execution plan does not match the stored repair case";
  record ← newExecutionPlanRecord base planned;
  digest ← caseDigest (ep_CaseID record);
  previous ← readExecutionPlan dirs digest base;
  if bool_decide (previous = Some record) then mret store
  else
    _ ← fail_if (bool_decide (is_Some previous) && bool_decide (is_Some (st_executions store !! digest)))
          "case is already bound to a different execution plan";
    encoded ← encodeExecutionPlan record base;
    mret (mkStore (mkDirectories (dir_cases dirs) (dir_planning dirs) (<[digest := encoded]> (dir_plans dirs)))
            (st_executions store)).
End records.
End casestore.
