(* ===== verification/CaseStorageSafety.v ===== *)
(** * What the stored cases and plans keep

    The stored directories implement [PlanSource]; a plan that was bound is
    read back, and no longer changes once the case has an execution. *)
From stdpp Require Import base strings list gmap.
From S2P Require Import Prelude GoStrings FileIdentity Probe Media Radarr CaseContracts Decisions.
From S2P Require Import ManualImportPolicy ExecutionRecords ExecutionStore PlanningState.
From S2P Require Import ManualExecution JoinExecution RemuxExecution ExecutionProtocol.
From S2P Require Import CaseCodec CaseAssembly CaseStorage.
Import planning casestore.

Section planned.
Context {codec : RepairCodec}.

(** The request of a valid record. *)
Lemma validateRecord_Ok record :
  validateRecord record = Ok tt ->
  exists request, DecodeCase (cr_Request record) = Ok request /\ EncodeCase request = Ok (cr_Request record) /\
    rc_CaseID request = cr_CaseID record.
Proof.
  unfold validateRecord. intros (? & _ & (? & _ & (request & Hd & (canonical & He & H)%bind_Ok)%bind_Ok)%bind_Ok)%bind_Ok.
  apply bind_Ok in H as (? & Hc%fail_if_Ok & (? & Hi%fail_if_Ok & _)%bind_Ok).
  apply negb_false_iff, bool_decide_eq_true in Hc. apply negb_false_iff, bool_decide_eq_true in Hi.
  exists request. split; [done|]. by rewrite He, Hc, Hi.
Qed.

(** What a planned case is read from. *)
Record planned_from (dirs : Directories) (caseID : string) (p : PlannedCase)
    (digest : string) (record : CaseRecord) (r : StoredResult) : Prop := mkPlannedFrom
  { pf_digest : caseDigest caseID = Ok digest;
    pf_record : dir_cases dirs !! digest = Some record;
    pf_valid : validateRecord record = Ok tt;
    pf_case : cr_CaseID record = caseID;
    pf_result : GetPlanningResult dirs caseID = Ok (Some r);
    pf_decided : HasDecision r = true;
    pf_result_case : sr_CaseID r = caseID;
    pf_decision : DecodeDecision (sr_Decision r) = Ok (pc_Decision p);
    pf_assembly : recordAssembly record = Ok (pc_Assembly p);
    pf_plain : pc_ReconsiderationID p = "" /\ pc_PolicyOverrides p = None }.

Lemma GetPlannedCase_Ok dirs caseID p :
  GetPlannedCase dirs caseID = Ok p <-> exists digest record r, planned_from dirs caseID p digest record r.
Proof.
  split.
  - unfold GetPlannedCase. intros (digest & Hd & (found & Hr & H)%bind_Ok)%bind_Ok.
    destruct found as [record|]; [|done]. unfold readRecord in Hr.
    destruct (dir_cases dirs !! digest) as [record'|] eqn:Hl; [|done].
    apply bind_Ok in Hr as (record'' & Hdec & [= ->]). unfold DecodeRecord in Hdec.
    apply bind_Ok in Hdec as ([] & Hv & [= ->]).
    apply bind_Ok in H as (? & Hc%fail_if_Ok & (planning & Hp & H)%bind_Ok).
    apply negb_false_iff, bool_decide_eq_true in Hc.
    destruct (decided planning) as [r|] eqn:Hdd; [|done].
    destruct planning as [r'|]; [|done]. cbn in Hdd. destruct (HasDecision r') eqn:Hh; [|done]. injection Hdd as ->.
    apply bind_Ok in H as (? & Hi%fail_if_Ok & (decision & Hde & (assembly & Ha & [= <-])%bind_Ok)%bind_Ok).
    apply negb_false_iff, bool_decide_eq_true in Hi. exists digest, record, r. by constructor.
  - intros (digest & record & r & []). unfold GetPlannedCase, readRecord. rewrite pf_digest0. cbn.
    rewrite pf_record0. cbn. unfold DecodeRecord. rewrite pf_valid0. cbn. rewrite bool_decide_true by done. cbn.
    rewrite pf_result0. cbn. rewrite pf_decided0. cbn. rewrite bool_decide_true by done. cbn.
    rewrite pf_decision0. cbn. rewrite pf_assembly0. cbn. destruct p as [assembly decision id overrides]; cbn in *.
    by destruct pf_plain0 as [-> ->].
Qed.

(** The request of a planned case. *)
Lemma planned_request dirs caseID p digest record r :
  planned_from dirs caseID p digest record r ->
  DecodeCase (cr_Request record) = Ok (as_Request (pc_Assembly p)) /\
  EncodeCase (as_Request (pc_Assembly p)) = Ok (cr_Request record) /\
  rc_CaseID (as_Request (pc_Assembly p)) = caseID.
Proof.
  intros []. destruct (validateRecord_Ok _ pf_valid0) as (request & Hd & He & Hc).
  unfold recordAssembly in pf_assembly0. rewrite Hd in pf_assembly0. injection pf_assembly0 as <-. cbn.
  by rewrite Hc, pf_case0.
Qed.

Lemma planned_case_id dirs caseID p :
  GetPlannedCase dirs caseID = Ok p -> rc_CaseID (as_Request (pc_Assembly p)) = caseID.
Proof. intros (digest & record & r & H)%GetPlannedCase_Ok. by eapply planned_request. Qed.

(** An execution plan is the planned case, or what was bound for it. *)
Lemma GetExecutionPlan_Ok dirs caseID p :
  GetExecutionPlan dirs caseID = Ok p ->
  exists base digest, GetPlannedCase dirs caseID = Ok base /\ caseDigest caseID = Ok digest /\
    pc_Assembly p = pc_Assembly base /\
    match dir_plans dirs !! digest with
    | None => p = base
    | Some record => validateExecutionPlan record base = Ok tt /\
        DecodeDecision (ep_Decision record) = Ok (pc_Decision p) /\
        pc_ReconsiderationID p = ep_ReconsiderationID record /\ pc_PolicyOverrides p = ep_PolicyOverrides record
    end.
Proof.
  unfold GetExecutionPlan, readExecutionPlan.
  intros (base & Hb & (digest & Hd & (found & Hf & H)%bind_Ok)%bind_Ok)%bind_Ok. exists base, digest.
  do 2 (split; [done|]). destruct (dir_plans dirs !! digest) as [record|].
  - apply bind_Ok in Hf as ([] & Hv & [= <-]). apply bind_Ok in H as (decision & Hde & [= <-]). by split.
  - injection Hf as <-. injection H as <-. done.
Qed.

#[export, refine] Instance directories_plans : PlanSource Directories :=
  {| ExecutionStore.GetPlannedCase := GetPlannedCase;
     ExecutionStore.GetExecutionPlan := GetExecutionPlan |}.
Proof.
  - apply planned_case_id.
  - intros dirs caseID p (base & digest & Hb & _ & Ha & _)%GetExecutionPlan_Ok.
    rewrite Ha. by eapply planned_case_id.
Defined.
End planned.

(** What storing an observation may do to the directory of cases. *)
Lemma Observe_cases {Case B} `{!EqDecision B} (codec : CaseCodec Case B) files current after r files' :
  CaseStore.Observe codec files current after = (r, files') ->
  files' = files \/
  exists path record data, CaseStore.casePath (codec_CaseID codec current) = Ok path /\
    codec_Encode codec record = Ok data /\ files' = <[path := data]> files /\
    match files !! path with
    | None => record = current
    | Some stored => exists stored', codec_Decode codec stored = Ok stored' /\
        codec_SameIdentity codec stored' current = Ok true /\ codec_Merge codec stored' current = Ok record
    end.
Proof.
  unfold CaseStore.Observe. cbv zeta.
  match goal with |- (match ?w with _ => _ end) = _ -> _ => destruct w as [[o cases]|e] eqn:Hw end.
  2: { intros [= _ <-]. by left. }
  intros [= _ <-]. apply bind_Ok in Hw as (id & Hid & (path & Hpath & (stored & Hst & H)%bind_Ok)%bind_Ok).
  apply bind_Ok in H as (record & Hr & (data & He & H)%bind_Ok).
  assert (id = codec_CaseID codec current) as ->.
  { unfold CaseStore.validate in Hid. by apply bind_Ok in Hid as (? & _ & (? & _ & [= <-])%bind_Ok). }
  unfold CaseStore.readCase in Hst. destruct stored as [stored|].
  - apply bind_Ok in H as (old & _ & H). case_bool_decide; [injection H as _ <-; by left|]. injection H as _ <-.
    right. exists path, record, data. do 3 (split; [done|]). destruct (files !! path) as [file|]; [|done].
    apply bind_Ok in Hst as (stored' & Hd & [= ->]). exists stored. split; [done|].
    unfold CaseStore.wanted in Hr. apply bind_Ok in Hr as (same & Hs & (? & Hf%fail_if_Ok & Hm)%bind_Ok).
    apply negb_false_iff in Hf as ->. done.
  - injection H as _ <-. right. exists path, record, data. do 3 (split; [done|]).
    destruct (files !! path) as [file|]; [by apply bind_Ok in Hst as (? & _ & ?)|]. by injection Hr.
Qed.

(** ** Binding a plan *)

Section binding.
Context {codec : RepairCodec}.
Implicit Types store : Store Directories.

Lemma newExecutionPlanRecord_Ok base planned record :
  newExecutionPlanRecord base planned = Ok record ->
  ep_CaseID record = rc_CaseID (as_Request (pc_Assembly base)) /\
  EncodeDecision (pc_Decision planned) = Ok (ep_Decision record) /\
  ep_ReconsiderationID record = pc_ReconsiderationID planned /\
  ep_PolicyOverrides record = pc_PolicyOverrides planned.
Proof.
  unfold newExecutionPlanRecord. intros (decision & He & (? & _ & (? & _ & [= <-])%bind_Ok)%bind_Ok)%bind_Ok. done.
Qed.

(** What a valid plan record decodes to. *)
Lemma validateExecutionPlan_Ok record base :
  validateExecutionPlan record base = Ok tt ->
  exists decision, DecodeDecision (ep_Decision record) = Ok decision /\
    EncodeDecision decision = Ok (ep_Decision record).
Proof.
  unfold validateExecutionPlan. intros (? & _ & (decision & Hd & (? & He & _)%bind_Ok)%bind_Ok)%bind_Ok.
  exists decision. split; [done|]. destruct (EncodeDecision decision) as [canonical|]; [|done].
  apply fail_if_Ok, orb_false_iff in He as [He _]. apply negb_false_iff, bool_decide_eq_true in He. by subst.
Qed.

(** Only the case and the original decision matter to the validation. *)
Lemma validateExecutionPlan_base record base base' :
  rc_CaseID (as_Request (pc_Assembly base')) = rc_CaseID (as_Request (pc_Assembly base)) ->
  pc_Decision base' = pc_Decision base ->
  validateExecutionPlan record base' = validateExecutionPlan record base.
Proof.
  intros Hid Hd. unfold validateExecutionPlan, newExecutionPlanRecord. cbn. by rewrite Hid, Hd.
Qed.

(** A successful call binds the plan, or finds it bound. *)
Lemma BindExecutionPlan_Ok store planned store' :
  BindExecutionPlan store planned = Ok store' ->
  exists base digest record,
    GetPlannedCase (st_plans store) (rc_CaseID (as_Request (pc_Assembly planned))) = Ok base /\
    caseDigest (rc_CaseID (as_Request (pc_Assembly planned))) = Ok digest /\
    SameCaseIdentity (as_Request (pc_Assembly base)) (as_Request (pc_Assembly planned)) = Ok true /\
    newExecutionPlanRecord base planned = Ok record /\ validateExecutionPlan record base = Ok tt /\
    (store' = store /\ dir_plans (st_plans store) !! digest = Some record \/
     store' = mkStore (mkDirectories (dir_cases (st_plans store)) (dir_planning (st_plans store))
                         (<[digest := record]> (dir_plans (st_plans store)))) (st_executions store) /\
     (st_executions store !! digest = None \/ readExecutionPlan (st_plans store) digest base = Ok None)).
Proof.
  unfold BindExecutionPlan. intros (base & Hb & (same & Hs & (? & Hm%fail_if_Ok & H)%bind_Ok)%bind_Ok)%bind_Ok.
  apply orb_false_iff in Hm as [[Hm Hid]%orb_false_iff _]. apply negb_false_iff in Hm as ->.
  apply negb_false_iff, bool_decide_eq_true in Hid.
  apply bind_Ok in H as (record & Hr & (digest & Hd & (previous & Hp & H)%bind_Ok)%bind_Ok).
  pose proof (newExecutionPlanRecord_Ok _ _ _ Hr) as (Hc & _). rewrite Hc, <- Hid in Hd.
  exists base, digest, record. do 4 (split; [done|]). case_bool_decide as Heq.
  - injection H as <-. rewrite Heq in Hp. unfold readExecutionPlan in Hp.
    destruct (dir_plans (st_plans store) !! digest) as [record'|]; [|done].
    apply bind_Ok in Hp as ([] & Hv & [= ->]). split; [done|]. by left.
  - apply bind_Ok in H as (? & Hf%fail_if_Ok & (encoded & He & [= <-])%bind_Ok). unfold encodeExecutionPlan in He.
    apply bind_Ok in He as ([] & Hv & [= ->]). split; [done|]. right. split; [done|].
    apply andb_false_iff in Hf as [Hf|Hf]; apply bool_decide_eq_false, eq_None_not_Some in Hf; [right|left]; by subst.
Qed.

(** C39. A plan that was bound is the plan of the case: what [GetExecutionPlan]
    then returns has the decision, the reconsideration and the policy that
    were bound, for the stored observation of the same case. *)
Theorem bound_plan_is_read store store' planned :
  BindExecutionPlan store planned = Ok store' ->
  exists p, GetExecutionPlan (st_plans store') (rc_CaseID (as_Request (pc_Assembly planned))) = Ok p /\
    EncodeDecision (pc_Decision p) = EncodeDecision (pc_Decision planned) /\
    is_ok (EncodeDecision (pc_Decision p)) = true /\
    pc_ReconsiderationID p = pc_ReconsiderationID planned /\ pc_PolicyOverrides p = pc_PolicyOverrides planned /\
    SameCaseIdentity (as_Request (pc_Assembly p)) (as_Request (pc_Assembly planned)) = Ok true.
Proof.
  intros (base & digest & record & Hb & Hd & Hsame & Hr & Hv & Hstore)%BindExecutionPlan_Ok.
  pose proof (newExecutionPlanRecord_Ok _ _ _ Hr) as (_ & He & Hid & Hpo).
  destruct (validateExecutionPlan_Ok _ _ Hv) as (decision & Hdec & Henc).
  assert (GetPlannedCase (st_plans store') (rc_CaseID (as_Request (pc_Assembly planned))) = Ok base /\
          dir_plans (st_plans store') !! digest = Some record) as [Hb' Hl].
  { destruct Hstore as [[-> Hl]|[-> _]]; [done|]. split; [exact Hb|apply lookup_insert_eq]. }
  exists (mkPlannedCase (pc_Assembly base) decision (ep_ReconsiderationID record) (ep_PolicyOverrides record)).
  cbn. rewrite Henc, He, Hid, Hpo. unfold GetExecutionPlan, readExecutionPlan. rewrite Hb'. cbn. rewrite Hd. cbn.
  rewrite Hl. cbn. rewrite Hv. cbn. rewrite Hdec. cbn. by rewrite Hid, Hpo.
Qed.

(** ** The plan of an execution *)

(** An operation on the case store. *)
Inductive storage_step store : Store Directories -> Prop :=
| step_put record r dirs :
    Put (st_plans store) record = (r, dirs) -> storage_step store (mkStore dirs (st_executions store))
| step_failure caseID failure attemptedAt retryAfter r changed dirs :
    PutPlanningFailure (st_plans store) caseID failure attemptedAt retryAfter = Ok (r, changed, dirs) ->
    storage_step store (mkStore dirs (st_executions store))
| step_decision caseID decision attemptedAt r changed dirs :
    PutPlanningDecision (st_plans store) caseID decision attemptedAt = Ok (r, changed, dirs) ->
    storage_step store (mkStore dirs (st_executions store))
| step_bind planned store' : BindExecutionPlan store planned = Ok store' -> storage_step store store'
| step_run_manual op r changed store' : run_manual store op = Ok (r, changed, store') -> storage_step store store'
| step_run_join op r changed store' : run_join store op = Ok (r, changed, store') -> storage_step store store'
| step_run_remux op r changed store' : run_remux store op = Ok (r, changed, store') -> storage_step store store'.

(** The same plan for the same case. *)
Definition same_plan (p p' : PlannedCase) : Prop :=
  pc_Decision p' = pc_Decision p /\ pc_ReconsiderationID p' = pc_ReconsiderationID p /\
  pc_PolicyOverrides p' = pc_PolicyOverrides p /\
  canonicalCaseIdentity (as_Request (pc_Assembly p')) = canonicalCaseIdentity (as_Request (pc_Assembly p)).

Lemma same_plan_trans p p' p'' : same_plan p p' -> same_plan p' p'' -> same_plan p p''.
Proof. unfold same_plan. intros (?&?&?&?) (?&?&?&?). repeat split; congruence. Qed.

Lemma SameCaseIdentity_Ok left right :
  SameCaseIdentity left right = Ok true -> canonicalCaseIdentity right = canonicalCaseIdentity left.
Proof.
  unfold SameCaseIdentity. intros (l & Hl & (r & Hr & [= H])%bind_Ok)%bind_Ok.
  apply bool_decide_eq_true in H as ->. congruence.
Qed.

(** A new observation of a planned case keeps its plan. *)
Lemma put_planned dirs record r dirs' caseID p :
  Put dirs record = (r, dirs') -> GetPlannedCase dirs caseID = Ok p ->
  dir_planning dirs' = dir_planning dirs /\ dir_plans dirs' = dir_plans dirs /\
  exists p', GetPlannedCase dirs' caseID = Ok p' /\ same_plan p p'.
Proof.
  unfold Put. destruct (CaseStore.Observe _ _ _ _) as [observed cases] eqn:Ho. intros [= _ <-] Hp.
  split; [done|split; [done|]]. pose proof Hp as (digest & stored & result & Hf)%GetPlannedCase_Ok.
  assert (dir_cases dirs !! digest = cases !! digest -> exists p', GetPlannedCase
    (mkDirectories cases (dir_planning dirs) (dir_plans dirs)) caseID = Ok p' /\ same_plan p p') as Hkept.
  { intros Heq. exists p. split; [|done]. apply GetPlannedCase_Ok. exists digest, stored, result.
    destruct Hf. constructor; try done. cbn. by rewrite <- Heq. }
  destruct (Observe_cases _ _ _ _ _ _ Ho) as [->|(path & merged & data & Hpath & He & -> & Hstored)]; [by apply Hkept|].
  destruct (decide (path = digest)) as [->|Hne]; [|apply Hkept; by rewrite lookup_insert_ne]. clear Hkept.
  rewrite (pf_record _ _ _ _ _ _ Hf) in Hstored. destruct Hstored as (stored' & Hdec & Hsame & Hmerge).
  cbn in Hdec, Hsame, Hmerge, He. unfold DecodeRecord in Hdec. apply bind_Ok in Hdec as (? & _ & [= <-]).
  unfold EncodeRecord in He. apply bind_Ok in He as ([] & Hv & (? & _ & [= <-])%bind_Ok).
  destruct (planned_request _ _ _ _ _ _ Hf) as (Hreq & _ & _).
  unfold sameRadarrCaseIdentity in Hsame. rewrite Hreq in Hsame. cbn in Hsame.
  apply bind_Ok in Hsame as (request & Hd & Hsame). destruct (bool_decide_reflect (cr_CaseID stored = cr_CaseID record)) as [Hid|];
    [|done]. cbn in Hsame. apply SameCaseIdentity_Ok in Hsame.
  unfold mergeRadarrCaseObservation in Hmerge. apply bind_Ok in Hmerge as (? & _ & (? & _ & [= <-])%bind_Ok).
  exists (mkPlannedCase (mkAssembly request (cr_Request record) (cr_Snapshot record)) (pc_Decision p) "" None).
  split.
  - apply GetPlannedCase_Ok. eexists digest, _, result. destruct Hf as [? ? ? Hc ? ? ? ? ? ?]. constructor; try done.
    + cbn. apply lookup_insert_eq.
    + cbn. congruence.
    + unfold recordAssembly. cbn. by rewrite Hd.
  - destruct (pf_plain _ _ _ _ _ _ Hf) as [Hi Hpo]. unfold same_plan. by rewrite Hi, Hpo.
Qed.

(** A new planning result leaves a decided case as it is. *)
Lemma result_planned dirs planning caseID p :
  put validateRadarrDecision (dir_planning dirs) planning -> GetPlannedCase dirs caseID = Ok p ->
  GetPlannedCase (with_planning dirs planning) caseID = Ok p.
Proof.
  intros Hput (digest & record & r & Hf)%GetPlannedCase_Ok. apply GetPlannedCase_Ok. exists digest, record, r.
  destruct Hf as [? ? ? ? Hget Hdec ? ? ? ?]. constructor; try done.
  unfold GetPlanningResult, ResultStore.Get in *. apply bind_Ok in Hget as (path & Hp & (found & Hr & H)%bind_Ok).
  apply bind_Ok in H as (? & Hu & [= ->]). pose proof (read_Some _ _ _ _ Hr) as Hl.
  destruct (put_follows _ _ _ _ _ Hput Hl) as (r' & Hl' & [->|[Hn _]]); [|congruence].
  rewrite Hp. cbn. unfold ResultStore.read in *. cbn. rewrite Hl'. rewrite Hl in Hr. rewrite Hr. cbn. unfold ResultStore.unexpected in Hu. by rewrite Hu.
Qed.

(** The planned case, and what was bound for it, after a change of the rest. *)
Lemma plan_kept dirs dirs' caseID digest record base base' p :
  GetPlannedCase dirs caseID = Ok base -> GetPlannedCase dirs' caseID = Ok base' -> same_plan base base' ->
  caseDigest caseID = Ok digest -> dir_plans dirs !! digest = Some record -> dir_plans dirs' !! digest = Some record ->
  GetExecutionPlan dirs caseID = Ok p -> exists p', GetExecutionPlan dirs' caseID = Ok p' /\ same_plan p p'.
Proof.
  intros Hb Hb' (Hdec & _ & _ & Hcanon) Hd Hl Hl' (base0 & digest0 & Hb0 & Hd0 & Ha & Hm)%GetExecutionPlan_Ok.
  assert (base0 = base) as -> by congruence. assert (digest0 = digest) as -> by congruence. rewrite Hl in Hm.
  destruct Hm as (Hv & Hde & Hi & Ho). rewrite <- (validateExecutionPlan_base record base base') in Hv; [| |done].
  - exists (mkPlannedCase (pc_Assembly base') (pc_Decision p) (ep_ReconsiderationID record) (ep_PolicyOverrides record)).
    unfold GetExecutionPlan, readExecutionPlan. rewrite Hb'. cbn. rewrite Hd. cbn. rewrite Hl'. cbn. rewrite Hv. cbn.
    rewrite Hde. cbn. split; [done|]. unfold same_plan. cbn. by rewrite Hi, Ho, Ha.
  - by rewrite (planned_case_id _ _ _ Hb), (planned_case_id _ _ _ Hb').
Qed.

Lemma caseDigest_inj caseID caseID' digest :
  caseDigest caseID = Ok digest -> caseDigest caseID' = Ok digest -> caseID = caseID'.
Proof.
  rewrite !caseIDPattern_digest. destruct (caseIDPattern caseID) eqn:E, (caseIDPattern caseID') eqn:E'; try done.
  intros H H'. apply (Path_inj caseID caseID' digest); unfold ResultStore.Path; by rewrite ?E, ?E'.
Qed.

(** A case with a bound plan and an execution. *)
Definition executing store (caseID digest : string) (record : executionPlanRecord) : Prop :=
  caseDigest caseID = Ok digest /\ dir_plans (st_plans store) !! digest = Some record /\
  is_Some (st_executions store !! digest).

Lemma bind_executing store planned store' caseID digest record p :
  BindExecutionPlan store planned = Ok store' -> executing store caseID digest record ->
  GetExecutionPlan (st_plans store) caseID = Ok p ->
  executing store' caseID digest record /\ GetExecutionPlan (st_plans store') caseID = Ok p.
Proof.
  intros (base & digest' & record' & Hb & Hd' & _ & _ & _ & Hor)%BindExecutionPlan_Ok (Hd & Hl & Hex) Hp.
  destruct Hor as [[-> _]|[-> Hor]]; [done|]. destruct (decide (digest' = digest)) as [->|Hne].
  - exfalso. assert (rc_CaseID (as_Request (pc_Assembly planned)) = caseID) as Hid by (by eapply caseDigest_inj).
    destruct Hor as [Hnone|Hread]; [rewrite Hnone in Hex; by destruct Hex|].
    apply GetExecutionPlan_Ok in Hp as (base' & digest' & Hb' & Hd'' & _ & Hm).
    assert (base' = base) as -> by congruence. assert (digest' = digest) as -> by congruence.
    rewrite Hl in Hm. unfold readExecutionPlan in Hread. rewrite Hl in Hread. destruct Hm as [Hv _].
    rewrite Hv in Hread. done.
  - split.
    + repeat split; [done| |done]. cbn. by rewrite lookup_insert_ne.
    + unfold GetExecutionPlan in *. cbn. change (GetPlannedCase (mkDirectories _ _ _) caseID) with (GetPlannedCase (st_plans store) caseID).
      apply bind_Ok in Hp as (base0 & Hb0 & Hp). rewrite Hb0. cbn. rewrite Hd in *. cbn in *.
      unfold readExecutionPlan in *. cbn. by rewrite lookup_insert_ne.
Qed.

Lemma executing_step store store' caseID digest record p :
  storage_step store store' -> executing store caseID digest record ->
  GetExecutionPlan (st_plans store) caseID = Ok p ->
  executing store' caseID digest record /\
  exists p', GetExecutionPlan (st_plans store') caseID = Ok p' /\ same_plan p p'.
Proof.
  intros Hstep Hex Hp. pose proof Hex as (Hd & Hl & file & Hfile).
  pose proof Hp as (base & ? & Hb & _)%GetExecutionPlan_Ok.
  assert (forall planning, put validateRadarrDecision (dir_planning (st_plans store)) planning ->
    exists p', GetExecutionPlan (with_planning (st_plans store) planning) caseID = Ok p' /\ same_plan p p') as Hput.
  { intros planning H. eapply (plan_kept (st_plans store)); [done|by apply result_planned|done..]. }
  assert (forall store', execution_step store store' -> st_plans store' = st_plans store ->
    executing store' caseID digest record /\
    exists p', GetExecutionPlan (st_plans store') caseID = Ok p' /\ same_plan p p') as Hexec.
  { intros s Hs Heq. destruct (step_files _ _ _ _ Hs Hfile) as (file' & Hf' & _). unfold executing.
    rewrite Heq. split; [by eauto|]. by exists p. }
  destruct Hstep as [cr r dirs H|? ? ? ? r changed dirs H|? ? ? r changed dirs H|planned s H|op r ch s H|op r ch s H|op r ch s H].
  - destruct (put_planned _ _ _ _ _ _ H Hb) as (_ & Heq & base' & Hb' & Hsame). split.
    + unfold executing. cbn. rewrite Heq. eauto.
    + eapply (plan_kept (st_plans store)); try done. cbn. by rewrite Heq.
  - unfold PutPlanningFailure in H. apply bind_Ok in H as ([[r' ch] planning] & H & [= _ _ <-]).
    split; [done|]. apply Hput. by eapply put_failure.
  - unfold PutPlanningDecision in H.
    apply bind_Ok in H as (encoded & _ & (? & _ & ([[r' ch] planning] & H & [= _ _ <-])%bind_Ok)%bind_Ok).
    split; [done|]. apply Hput. by eapply put_decision.
  - destruct (bind_executing _ _ _ _ _ _ _ H Hex Hp) as [Hex' Hp']. split; [done|]. by exists p.
  - apply Hexec; [by eapply step_manual|]. apply run_manual_effect in H. exact (@effect_plans _ _ _ _ _ _ _ _ _ H).
  - apply Hexec; [by eapply step_join|]. apply run_join_effect in H. exact (@effect_plans _ _ _ _ _ _ _ _ _ H).
  - apply Hexec; [by eapply step_remux|]. apply run_remux_effect in H. exact (@effect_plans _ _ _ _ _ _ _ _ _ H).
Qed.

(** C19. Once a case with a bound plan has an execution, its plan does not change:
    whatever is observed, planned, bound or executed later, [GetExecutionPlan]
    returns the same decision, reconsideration and policy, for the same case. *)
Theorem executed_plan_final store store' caseID digest record p :
  caseDigest caseID = Ok digest -> dir_plans (st_plans store) !! digest = Some record ->
  is_Some (st_executions store !! digest) -> GetExecutionPlan (st_plans store) caseID = Ok p ->
  rtc storage_step store store' ->
  exists p', GetExecutionPlan (st_plans store') caseID = Ok p' /\ same_plan p p'.
Proof.
  intros Hd Hl Hex Hp Hsteps. assert (executing store caseID digest record) as He by done. clear Hd Hl Hex.
  revert p Hp He. induction Hsteps as [|s1 s2 s3 Hstep _ IH]; intros p Hp He; [by exists p|].
  destruct (executing_step _ _ _ _ _ _ Hstep He Hp) as (He' & p' & Hp' & Hsame).
  destruct (IH p' Hp' He') as (p'' & Hp'' & Hsame'). exists p''. eauto using same_plan_trans.
Qed.
End binding.
