(* ===== verification/PlanningRunner.v ===== *)
(** * The planning runner

    [internal/planning/runner.go]: the generic runner that stores a case, asks
    the planner for a decision at most once per retry window, and stores the
    decision or the failure. The store is the interface [PlanningStore], with
    the laws that the runner relies on as [LawfulPlanningStore]. The planner
    takes time, during which other processes may change the store: it is a
    function from the store it starts in to its answer and the store when it
    returns. The two readings of the clock and the cancellation of the context
    are arguments. *)
From stdpp Require Import base strings list sets.
From S2P Require Import Prelude GoStrings Jobs PlanningState.
Import planning.

Module runner.

Class PlanningStore (S Case Decision : Type) :=
  { PutCase : S -> Case -> result bool * S;
    GetStatus : S -> string -> result (option Status);
    GetDecision : S -> string -> result Decision;
    PutFailure : S -> string -> Failure -> time -> time -> result (Status * bool) * S;
    PutDecision : S -> string -> Decision -> time -> result (Status * bool) * S }.

Record Backoff := mkBackoff { Initial : Z; Maximum : Z }.

(** A loop of [Delay] whose [fuel] bounds its iterations. *)
Fixpoint delay_loop (fuel : nat) (backoff : Backoff) (delay priorAttempts : Z) : option Z :=
  match fuel with
  | O => None
  | S fuel =>
      if bool_decide (0 < priorAttempts) && bool_decide (delay < Maximum backoff)
      then
        if bool_decide (Z.quot (Maximum backoff) 2 < delay) then Some (Maximum backoff)
        else delay_loop fuel backoff (mul64 delay 2) (priorAttempts - 1)
      else
        Some (if bool_decide (Maximum backoff < delay) then Maximum backoff else delay)
  end.

(** A positive delay below 2^63 doubles at most 62 times. *)
Definition Delay (backoff : Backoff) (priorAttempts : Z) : Z :=
  default 0 (delay_loop 64 backoff (Initial backoff) priorAttempts).

(** [time.Time.Sub], which saturates. *)
Definition Sub (a b : time) : Z :=
  Z.max (- max_int64 - 1) (Z.min max_int64 (t_ns a - t_ns b)).

Inductive Outcome := Failed | Decided | AlreadyDecided | Deferred | Superseded.

#[global] Instance Outcome_eq_dec : EqDecision Outcome.
Proof. solve_decision. Defined.

Section runner.
Context {S Case Decision E : Type} `{!PlanningStore S Case Decision}.

Record Dependencies := mkDependencies
  { dep_CaseID : Case -> string;
    dep_DecisionCaseID : Decision -> string;
    dep_Superseded : Case -> bool;
    dep_ClassifyFailure : E -> Failure;
    dep_Backoff : Backoff }.

Definition New (dependencies : Dependencies) : result Dependencies :=
  _ ← fail_if (bool_decide (Initial (dep_Backoff dependencies) <= 0))
        "initial planner retry delay must be positive";
  _ ← fail_if (bool_decide (Maximum (dep_Backoff dependencies) < Initial (dep_Backoff dependencies)))
        "maximum planner retry delay must not be shorter than the initial delay";
  mret dependencies.

(** [None] is the zero value of an outcome, a case or a decision. *)
Record Result := mkResult
  { re_Outcome : option Outcome; re_Stored : bool; re_Submitted : bool;
    re_Case : option Case; re_Decision : option Decision;
    re_Failure : option Failure; re_PlannerDuration : Z }.

Definition zero_result : Result := mkResult None false false None None None 0.

Definition with_outcome (r : Result) (outcome : Outcome) : Result :=
  mkResult (Some outcome) (re_Stored r) (re_Submitted r) (re_Case r) (re_Decision r) (re_Failure r)
    (re_PlannerDuration r).
Definition with_decision (r : Result) (decision : Decision) : Result :=
  mkResult (re_Outcome r) (re_Stored r) (re_Submitted r) (re_Case r) (Some decision) (re_Failure r)
    (re_PlannerDuration r).
Definition with_failure (r : Result) (failure : Failure) : Result :=
  mkResult (re_Outcome r) (re_Stored r) (re_Submitted r) (re_Case r) (re_Decision r) (Some failure)
    (re_PlannerDuration r).
Definition submitted (r : Result) (duration : Z) : Result :=
  mkResult (re_Outcome r) (re_Stored r) true (re_Case r) (re_Decision r) (re_Failure r) duration.

(** What a call returns: a result, perhaps an error, and the store. *)
Definition answer : Type := Result * option error * S.

Definition failed (r : Result) (e : error) (s : S) : answer := (with_outcome r Failed, Some e, s).

Section configured.
Context (dependencies : Dependencies).

Definition loadPlanned (caseID : string) (r : Result) (outcome : Outcome) (s : S) : answer :=
  match GetDecision s caseID with
  | Err e => failed r e s
  | Ok decision =>
      if negb (bool_decide (dep_DecisionCaseID dependencies decision = caseID))
      then failed r "planning decision case ID does not match observed case" s
      else (with_outcome (with_decision r decision) outcome, None, s)
  end.

(** The end of [Process], after the planner answered. *)
Definition planned (caseID : string) (previous : option Status) (r : Result) (completedAt : time)
    (answered : Decision + E) (s : S) : answer :=
  match answered with
  | inr planErr =>
      let priorAttempts := match previous with Some status => ps_Attempts status | None => 0 end in
      let retryAfter := jobs.Add completedAt (Delay (dep_Backoff dependencies) priorAttempts) in
      let failure := dep_ClassifyFailure dependencies planErr in
      let '(stored, s) := PutFailure s caseID failure completedAt retryAfter in
      failed (with_failure r failure)
        match stored with Err e => "planner failed: store planner failure: " +:+ e | Ok _ => "planner failed" end s
  | inl decision =>
      if negb (bool_decide (dep_DecisionCaseID dependencies decision = caseID))
      then failed r "planning decision case ID does not match observed case" s
      else
        let '(stored, s) := PutDecision s caseID decision completedAt in
        match stored with
        | Err e => failed r e s
        | Ok (status, changed) =>
            if negb changed && ps_Decided status then loadPlanned caseID r AlreadyDecided s
            else if negb changed then failed r "result store did not record the planning decision" s
            else (with_outcome (with_decision r decision) Decided, None, s)
        end
  end.

Definition Process (cancelled : option error) (clock completion : time)
    (Plan : Case -> S -> (Decision + E) * S) (current : Case) (s : S) : answer :=
  match cancelled with
  | Some e => (zero_result, Some e, s)
  | None =>
  let '(created, s) := PutCase s current in
  match created with
  | Err e => failed zero_result e s
  | Ok created =>
  let r := mkResult None created false (Some current) None None 0 in
  if dep_Superseded dependencies current then (with_outcome r Superseded, None, s)
  else
  let caseID := dep_CaseID dependencies current in
  if bool_decide (caseID = "") then failed r "repair case identity is empty" s
  else
  match GetStatus s caseID with
  | Err e => failed r e s
  | Ok previous =>
  if match previous with Some status => ps_Decided status | None => false end
  then loadPlanned caseID r AlreadyDecided s
  else
  let now := UTC clock in
  if IsZero now then failed r "clock returned a zero time" s
  else
  if match previous with
     | Some status => match ps_RetryAfter status with Some retry => Before now retry | None => false end
     | None => false
     end
  then (with_outcome r Deferred, None, s)
  else
  let '(answered, s) := Plan current s in
  let completedAt := UTC completion in
  if IsZero completedAt then failed (submitted r 0) "clock returned a zero time" s
  else
  let r := submitted r (if After completedAt now then Sub completedAt now else 0) in
  planned caseID previous r completedAt answered s
  end end end.
End configured.
End runner.

(** What the runner relies on: the store changes along a preorder in which
    decisions are final; what a put reports is what can be read afterwards. A
    stored decision may differ from the one that was put in what its encoding
    does not keep. *)
Class LawfulPlanningStore (S Case Decision : Type) `{!PlanningStore S Case Decision} :=
  { evolves : S -> S -> Prop;
    consistent : S -> Prop;
    same_decision : Decision -> Decision -> Prop;
    same_decision_refl decision : same_decision decision decision;
    evolves_refl s : evolves s s;
    evolves_trans s1 s2 s3 : evolves s1 s2 -> evolves s2 s3 -> evolves s1 s3;
    consistent_evolves s s' : consistent s -> evolves s s' -> consistent s';
    attempts_nonneg s id status :
      consistent s -> GetStatus s id = Ok (Some status) -> 0 <= ps_Attempts status;
    PutCase_evolves s case : evolves s (PutCase s case).2;
    PutFailure_evolves s id failure at_ retry : evolves s (PutFailure s id failure at_ retry).2;
    PutDecision_evolves s id decision at_ : evolves s (PutDecision s id decision at_).2;
    decision_final s s' id decision :
      consistent s -> evolves s s' -> GetDecision s id = Ok decision -> GetDecision s' id = Ok decision;
    PutDecision_stored s id decision at_ status :
      consistent s -> (PutDecision s id decision at_).1 = Ok (status, true) ->
      exists stored, GetDecision (PutDecision s id decision at_).2 id = Ok stored /\
        same_decision decision stored;
    PutFailure_stored s id failure at_ retry status changed :
      consistent s -> (PutFailure s id failure at_ retry).1 = Ok (status, changed) ->
      GetStatus (PutFailure s id failure at_ retry).2 id = Ok (Some status) /\
      (ps_Decided status = true \/ ps_RetryAfter status = Some (UTC retry)) }.
End runner.

(** ** The retry delay *)

Definition backoff_ok (backoff : runner.Backoff) : Prop :=
  0 < runner.Initial backoff <= runner.Maximum backoff /\ runner.Maximum backoff <= max_int64.

Lemma delay_loop_value fuel backoff delay attempts :
  runner.Maximum backoff <= max_int64 -> 0 < delay <= runner.Maximum backoff -> 0 <= attempts ->
  max_int64 < delay * 2 ^ (Z.of_nat fuel - 1) ->
  runner.delay_loop fuel backoff delay attempts =
    Some (Z.min (runner.Maximum backoff) (delay * 2 ^ attempts)).
Proof.
  intros Hmax. revert delay attempts. induction fuel as [|fuel IH]; intros delay attempts Hd Ha Hf.
  { simpl in Hf. unfold max_int64 in *. lia. }
  cbn [runner.delay_loop]. destruct (decide (attempts = 0)) as [->|Hne].
  { simpl. rewrite (bool_decide_false (runner.Maximum backoff < delay)) by lia. f_equal. lia. }
  assert (2 ^ attempts = 2 * 2 ^ (attempts - 1)) as Hp.
  { rewrite <- Z.pow_succ_r by lia. f_equal. lia. }
  assert (1 <= 2 ^ (attempts - 1)) as H1 by (apply (Z.pow_le_mono_r 2 0); lia).
  assert (delay * 2 <= delay * 2 ^ attempts) as Hm by (rewrite Hp; nia).
  rewrite (bool_decide_true (0 < attempts)) by lia. simpl.
  destruct (decide (delay < runner.Maximum backoff)) as [Hlt|Hge].
  2:{ rewrite !bool_decide_false by lia. apply f_equal. cbv iota. lia. }
  rewrite (bool_decide_true (delay < runner.Maximum backoff)) by done.
  rewrite Z.quot_div_nonneg by lia.
  pose proof (Z.mul_div_le (runner.Maximum backoff) 2 ltac:(lia)).
  pose proof (Z.mul_succ_div_gt (runner.Maximum backoff) 2 ltac:(lia)).
  destruct (decide (runner.Maximum backoff / 2 < delay)) as [Hh|Hh].
  { rewrite bool_decide_true by done. cbv iota. apply f_equal. lia. }
  rewrite bool_decide_false by done.
  assert (2 * delay <= runner.Maximum backoff) by lia.
  unfold mul64. rewrite wrap64_id by (unfold int64_range, max_int64 in *; lia).
  rewrite IH; [f_equal; rewrite Hp; nia|lia|lia|].
  destruct fuel as [|fuel]; [simpl in Hf; unfold max_int64 in *; lia|].
  replace (Z.of_nat (S (S fuel)) - 1) with (Z.succ (Z.of_nat (S fuel) - 1)) in Hf by lia.
  rewrite Z.pow_succ_r in Hf by lia. nia.
Qed.

(** The delay is the initial one, doubled for every earlier attempt and capped
    at the maximum; the loop ends and never overflows. *)
Lemma Delay_value backoff attempts :
  backoff_ok backoff -> 0 <= attempts ->
  runner.Delay backoff attempts =
    Z.min (runner.Maximum backoff) (runner.Initial backoff * 2 ^ attempts).
Proof.
  intros [H1 H2] Ha. unfold runner.Delay. rewrite delay_loop_value; [done..|].
  change (2 ^ (Z.of_nat 64 - 1)) with (2 ^ 63). unfold max_int64. nia.
Qed.

(** ** What a run of the runner does *)
Section process.
Context {S Case Decision E : Type} `{!runner.PlanningStore S Case Decision}
  `{!runner.LawfulPlanningStore S Case Decision}.
Context (dependencies : runner.Dependencies (Case := Case) (Decision := Decision) (E := E)).

(** A decision is returned exactly with the two outcomes that announce one, and
    it is, up to its encoding, the one that the store holds for the case. *)
Definition outcome_ok (id : string) (a : runner.answer (S := S) (Case := Case) (Decision := Decision)) : Prop :=
  let '(r, e, s) := a in
  match runner.re_Decision r with
  | Some decision =>
      e = None /\ runner.re_Outcome r ∈ [Some runner.Decided; Some runner.AlreadyDecided] /\
      runner.dep_DecisionCaseID dependencies decision = id /\
      exists stored, runner.GetDecision s id = Ok stored /\ runner.same_decision decision stored
  | None => runner.re_Outcome r ∉ [Some runner.Decided; Some runner.AlreadyDecided]
  end.

Lemma failed_ok id r e s : runner.re_Decision r = None -> outcome_ok id (runner.failed r e s).
Proof. intros Hr. simpl. rewrite Hr. set_solver. Qed.
Hint Resolve failed_ok : core.

Lemma loadPlanned_ok id r s :
  runner.re_Decision r = None ->
  outcome_ok id (runner.loadPlanned dependencies id r runner.AlreadyDecided s).
Proof.
  intros Hr. unfold runner.loadPlanned. destruct (runner.GetDecision s id) eqn:Hd; [|auto].
  destruct (bool_decide _) eqn:Hb; simpl negb; cbv iota; [|auto].
  apply bool_decide_eq_true in Hb. simpl. split_and!; try done; [set_solver|].
  eauto using runner.same_decision_refl.
Qed.
Hint Resolve loadPlanned_ok : core.

Lemma loadPlanned_store id r outcome s : (runner.loadPlanned dependencies id r outcome s).2 = s.
Proof. unfold runner.loadPlanned. by repeat case_match. Qed.

Lemma planned_ok id previous r at_ answered s :
  runner.consistent s -> runner.re_Decision r = None ->
  outcome_ok id (runner.planned dependencies id previous r at_ answered s).
Proof.
  intros Hc Hr. unfold runner.planned. destruct answered as [decision|e].
  - destruct (bool_decide _) eqn:Hb; simpl negb; cbv iota; [|auto]. apply bool_decide_eq_true in Hb.
    destruct (runner.PutDecision s id decision at_) as [stored s'] eqn:Hp.
    destruct stored as [[status changed]|]; [|auto]. destruct changed; simpl; [|destruct ps_Decided; auto].
    split_and!; try done; [set_solver|].
    pose proof (runner.PutDecision_stored s id decision at_ status Hc) as Hs. rewrite Hp in Hs. by apply Hs.
  - destruct (runner.PutFailure s id _ at_ _) as [stored s']. by apply failed_ok.
Qed.

Lemma planned_evolves id previous r at_ answered s :
  runner.evolves s (runner.planned dependencies id previous r at_ answered s).2.
Proof.
  unfold runner.planned. destruct answered as [decision|e].
  - destruct (bool_decide _); simpl; [|apply runner.evolves_refl].
    pose proof (runner.PutDecision_evolves s id decision at_).
    destruct (runner.PutDecision s id decision at_) as [[[status []]|] s']; simpl in *; try done.
    destruct (ps_Decided status); simpl; [by rewrite loadPlanned_store|done].
  - match goal with |- context [runner.PutFailure s id ?f at_ ?t] =>
      pose proof (runner.PutFailure_evolves s id f at_ t); by destruct (runner.PutFailure s id f at_ t) end.
Qed.

(** The planner may be asked: the store holds no decision, and a retry time that
    is not in the future. *)
Definition may_plan (clock : time) (previous : option Status) : Prop :=
  forall status, previous = Some status ->
    ps_Decided status = false /\
    forall retry, ps_RetryAfter status = Some retry -> t_ns retry <= t_ns clock.

(** A failure that was recorded is followed by the retry delay, unless another
    process stored a decision meanwhile. *)
Definition retry_scheduled (id : string) (previous : option Status) (completion : time)
    (a : runner.answer (S := S) (Case := Case) (Decision := Decision)) : Prop :=
  let '(r, e, s) := a in
  runner.re_Failure r <> None -> e = Some "planner failed" ->
  exists status, runner.GetStatus s id = Ok (Some status) /\
    (ps_Decided status = true \/
     ps_RetryAfter status =
       Some (UTC (jobs.Add completion
         (Z.min (runner.Maximum (runner.dep_Backoff dependencies))
            (runner.Initial (runner.dep_Backoff dependencies) *
             2 ^ from_option ps_Attempts 0 previous))))).

Lemma loadPlanned_failure id r outcome s :
  runner.re_Failure (runner.loadPlanned dependencies id r outcome s).1.1 = runner.re_Failure r.
Proof. unfold runner.loadPlanned. by repeat case_match. Qed.

Lemma planned_failure id previous r completion decision s :
  runner.re_Failure (runner.planned dependencies id previous r completion (inl decision) s).1.1
    = runner.re_Failure r.
Proof.
  unfold runner.planned. repeat case_match; try done. apply loadPlanned_failure.
Qed.

Lemma planned_retry id previous r completion answered s0 s :
  backoff_ok (runner.dep_Backoff dependencies) -> runner.consistent s0 -> runner.consistent s ->
  runner.GetStatus s0 id = Ok previous -> runner.re_Failure r = None ->
  retry_scheduled id previous completion (runner.planned dependencies id previous r completion answered s).
Proof.
  intros Hb Hs0 Hs Hg Hr. destruct answered as [decision|e].
  - pose proof (planned_failure id previous r completion decision s) as Hf. unfold retry_scheduled.
    destruct (runner.planned _ _ _ _ _ _ _) as [[r' e'] s']. simpl in Hf. congruence.
  - unfold runner.planned.
    replace (match previous with Some status => ps_Attempts status | None => 0 end)
      with (from_option ps_Attempts 0 previous) by (by destruct previous).
    rewrite Delay_value; [|done|].
    2:{ destruct previous as [status|]; simpl; [|lia]. exact (runner.attempts_nonneg _ _ _ Hs0 Hg). }
    match goal with |- context [runner.PutFailure s id ?f completion ?t] =>
      pose proof (runner.PutFailure_stored s id f completion t) as Hput;
      destruct (runner.PutFailure s id f completion t) as [[[status changed]|] s'] end; simpl in *; [|done].
    intros _ _. exists status. by eapply Hput.
Qed.

(** An answer given before the planner is asked. *)
Lemma early_ok id previous_ok s s' (a : runner.answer (S := S) (Case := Case) (Decision := Decision)) :
  runner.evolves s s' -> a.2 = s' -> outcome_ok id a -> runner.re_Submitted a.1.1 = false ->
  runner.evolves s a.2 /\ outcome_ok id a /\ (runner.re_Submitted a.1.1 = true -> previous_ok).
Proof. intros He -> Ho Hs. split_and!; [done|done|]. congruence. Qed.

Lemma loadPlanned_submitted id r outcome s :
  runner.re_Submitted (runner.loadPlanned dependencies id r outcome s).1.1 = runner.re_Submitted r.
Proof. unfold runner.loadPlanned. by repeat case_match. Qed.

Ltac early He :=
  eapply early_ok; [exact He|reflexivity|cbn; set_solver|reflexivity].

Lemma Process_ok cancelled clock completion Plan current s :
  backoff_ok (runner.dep_Backoff dependencies) -> runner.consistent s ->
  (forall s1, runner.evolves s1 (Plan current s1).2) ->
  let id := runner.dep_CaseID dependencies current in
  let a := runner.Process dependencies cancelled clock completion Plan current s in
  runner.evolves s a.2 /\ outcome_ok id a /\
  (runner.re_Submitted a.1.1 = true ->
     exists previous, runner.GetStatus (runner.PutCase s current).2 id = Ok previous /\
       may_plan clock previous /\ retry_scheduled id previous (UTC completion) a).
Proof.
  intros Hb Hc HPlan id a. subst a. unfold runner.Process. fold id.
  destruct cancelled; [early (runner.evolves_refl s)|].
  pose proof (runner.PutCase_evolves s current) as He1.
  destruct (runner.PutCase s current) as [created s1]. simpl in He1 |- *.
  assert (runner.consistent s1) as Hc1 by (by eapply runner.consistent_evolves).
  destruct created as [created|]; [|early He1].
  destruct (runner.dep_Superseded _ _); [early He1|].
  destruct (bool_decide (id = "")); [early He1|].
  destruct (runner.GetStatus s1 id) as [previous|] eqn:Hg; [|early He1].
  destruct (match previous with Some status => ps_Decided status | None => false end) eqn:Hdec.
  { eapply early_ok; [exact He1|apply loadPlanned_store|by apply loadPlanned_ok|].
    by rewrite loadPlanned_submitted. }
  destruct (IsZero (UTC clock)); [early He1|].
  destruct (match previous with
            | Some status => match ps_RetryAfter status with
                             | Some retry => Before (UTC clock) retry | None => false end
            | None => false end) eqn:Hretry.
  { early He1. }
  destruct (Plan current s1) as [answered s2] eqn:EP. pose proof (HPlan s1) as He2. rewrite EP in He2.
  simpl in He2. assert (runner.evolves s s2) as He by (by eapply runner.evolves_trans).
  assert (runner.consistent s2) as Hc2 by (by eapply runner.consistent_evolves).
  assert (may_plan clock previous) as Hm.
  { intros status ->. split; [done|]. intros retry Hr. rewrite Hr in Hretry.
    apply bool_decide_eq_false in Hretry. simpl in Hretry. lia. }
  destruct (IsZero (UTC completion)).
  { split_and!; [done|apply failed_ok; done|]. intros _. exists previous. split_and!; done. }
  split_and!.
  - eapply runner.evolves_trans; [exact He|]. apply planned_evolves.
  - by apply planned_ok.
  - intros _. exists previous. split_and!; [done|done|]. apply (planned_retry _ _ _ _ _ s1 s2 Hb Hc1 Hc2 Hg). done.
Qed.

(** C14. What the run of a case does, in every store that keeps its laws, whatever
    other processes do while the planner works. The store only evolves. A decision
    is returned exactly with the outcomes that announce one; it belongs to the case
    and is, up to its encoding, the one every later store has for it. The planner is asked only when the
    store had no decision and no retry time in the future, and a recorded failure
    schedules the next attempt after the initial delay, doubled for every earlier
    attempt and capped at the maximum. *)
Theorem process_outcome cancelled clock completion
    (Plan : Case -> S -> (Decision + E) * S) (current : Case) (s : S) :
  backoff_ok (runner.dep_Backoff dependencies) -> runner.consistent s ->
  (forall s1, runner.evolves s1 (Plan current s1).2) ->
  let id := runner.dep_CaseID dependencies current in
  let a := runner.Process dependencies cancelled clock completion Plan current s in
  let s1 := (runner.PutCase s current).2 in
  runner.evolves s a.2 /\
  outcome_ok id a /\
  (forall decision s', runner.re_Decision a.1.1 = Some decision -> runner.evolves a.2 s' ->
     exists stored, runner.GetDecision s' id = Ok stored /\ runner.same_decision decision stored) /\
  (runner.re_Submitted a.1.1 = true ->
     exists previous, runner.GetStatus s1 id = Ok previous /\ may_plan clock previous /\
       retry_scheduled id previous (UTC completion) a).
Proof.
  intros Hb Hc HPlan id a s1.
  assert (runner.evolves s a.2 /\ outcome_ok id a /\ (runner.re_Submitted a.1.1 = true ->
     exists previous, runner.GetStatus s1 id = Ok previous /\ may_plan clock previous /\
       retry_scheduled id previous (UTC completion) a)) as (He & Ho & Hsub).
  { apply Process_ok; done. }
  split_and!; [done|done| |done].
  intros decision s' Hd Hs'. assert (runner.consistent a.2) by (by eapply runner.consistent_evolves).
  destruct a as [[r e] s2]. simpl in *. rewrite Hd in Ho. destruct Ho as (_ & _ & _ & stored & Hg & Hsame).
  exists stored. split; [|done]. by eapply runner.decision_final.
Qed.
End process.
