(* ===== verification/Reconsideration.v ===== *)
(** * Requests to reconsider a case

    [internal/reconsideration]: an operator's request (model.go), the directory
    of requests (store.go), the directory of results (result_store.go) and the
    processing of the latest request of a case (processor.go). A file is the
    record it decodes to. The JSON text a request identifier is the digest of
    is the parameter [MarshalIdentity]. *)
From stdpp Require Import base strings list gmap sorting pretty.
From Stdlib Require Import Ascii.
From S2P Require Import Prelude GoStrings GoCrypto JsonSchema ExecutionRecords ExecutionStore Jobs.
From S2P Require Import PlanningState PlanningRunner.
Import planning.

Module reconsideration.

(** ** Requests (model.go) *)

Definition RequestVersion : string := "media-repair-reconsideration/v1".
Definition MaximumGuidanceLen : Z := 2000.
Definition MaximumRuntimeDifferenceLimitMS : Z := 60 * 60 * 1000.

Definition Service := string.
Definition ServiceLidarr : Service := "lidarr".
Definition ServiceRadarr : Service := "radarr".

Definition fingerprintPattern (s : string) : bool := wire.sha256_pattern s.

Record Request := mkRequest
  { rq_Version : string; rq_RequestID : string; rq_Service : Service; rq_CaseID : string;
    rq_Guidance : string; rq_PolicyOverrides : option PolicyOverrides; rq_CreatedAt : time }.

#[global] Instance Request_eq_dec : EqDecision Request.
Proof. solve_decision. Defined.

(** [requestIdentity]: the fields the identifier is calculated from. *)
Record requestIdentity := mkrequestIdentity
  { id_Version : string; id_Service : Service; id_CaseID : string; id_Guidance : string;
    id_PolicyOverrides : option PolicyOverrides; id_CreatedAt : time }.

Definition identity_of (request : Request) : requestIdentity :=
  mkrequestIdentity (rq_Version request) (rq_Service request) (rq_CaseID request)
    (rq_Guidance request) (rq_PolicyOverrides request) (rq_CreatedAt request).

(** [unicode.IsControl] other than newline and tab, somewhere in a string: the
    ASCII controls are one byte, the others two bytes beginning with 0xC2. *)
Fixpoint forbidden_control (fuel : nat) (bs : list Z) : bool :=
  match fuel, bs with
  | S fuel, b :: rest =>
      match json.rune_len bs with
      | 0%nat | 1%nat =>
          ((b <? 32) && negb (bool_decide (b = 10)) && negb (bool_decide (b = 9)) || bool_decide (b = 127))
          || forbidden_control fuel rest
      | n =>
          (bool_decide (b = 194) && match rest with c :: _ => c <? 160 | [] => false end)
          || forbidden_control fuel (drop n bs)
      end
  | _, _ => false
  end.

Section model.
(** [json.Marshal] of the identity. *)
Context (MarshalIdentity : requestIdentity -> string).

Definition calculateID (request : Request) : string :=
  "sha256:" +:+ sha256_hex (string_bytes (MarshalIdentity (identity_of request))).

Definition Validate (request : Request) : result unit :=
  _ ← fail_if (negb (bool_decide (rq_Version request = RequestVersion)))
        "unsupported reconsideration request version %q";
  _ ← fail_if (negb (bool_decide (rq_Service request = ServiceLidarr)) &&
               negb (bool_decide (rq_Service request = ServiceRadarr))) "invalid reconsideration service %q";
  _ ← fail_if (negb (fingerprintPattern (rq_CaseID request))) "invalid reconsideration case ID";
  _ ← fail_if (negb (bool_decide (rq_Guidance request = TrimSpace (rq_Guidance request))) ||
               bool_decide (MaximumGuidanceLen < Z.of_nat (String.length (rq_Guidance request))))
        "reconsideration guidance is invalid";
  _ ← fail_if (forbidden_control (String.length (rq_Guidance request)) (string_bytes (rq_Guidance request)))
        "reconsideration guidance contains control characters";
  _ ← fail_if (bool_decide (rq_Guidance request = "") && bool_decide (rq_PolicyOverrides request = None))
        "reconsideration request has no guidance or policy override";
  _ ← match rq_PolicyOverrides request with
      | None => Ok tt
      | Some overrides =>
          fail_if (negb (bool_decide (rq_Service request = ServiceRadarr)) ||
                   bool_decide (po_MaximumRuntimeDifferenceMS overrides <= 0) ||
                   bool_decide (MaximumRuntimeDifferenceLimitMS < po_MaximumRuntimeDifferenceMS overrides))
            "reconsideration policy overrides are invalid"
      end;
  _ ← fail_if (IsZero (rq_CreatedAt request) || negb (bool_decide (t_zone (rq_CreatedAt request) = None)))
        "reconsideration creation time must be UTC";
  fail_if (negb (fingerprintPattern (rq_RequestID request)) ||
           negb (bool_decide (rq_RequestID request = calculateID request)))
    "reconsideration request ID does not match its contents".

Definition NewRequest (service : Service) (caseID guidance : string)
    (policyOverrides : option PolicyOverrides) (createdAt : time) : result Request :=
  let unnamed := mkRequest RequestVersion "" service caseID guidance policyOverrides (UTC createdAt) in
  let request := mkRequest RequestVersion (calculateID unnamed) service caseID guidance policyOverrides
                   (UTC createdAt) in
  _ ← Validate request;
  mret request.

(** ** The directory of requests (store.go)

    A file either decodes to a request or does not decode. *)
Abbreviation Requests := (gmap string (result Request)).

Definition digest (fingerprint : string) : string :=
  if HasPrefix fingerprint "sha256:" then s_drop 7 fingerprint else fingerprint.

Definition requestFileName (request : Request) : string :=
  digest (rq_CaseID request) +:+ "-" +:+ digest (rq_RequestID request) +:+ ".json".

Definition readRequest (directory : Requests) (name : string) : result Request :=
  match directory !! name with
  | None => Err "read reconsideration request"
  | Some contents =>
      request ← contents;
      _ ← Validate request;
      mret request
  end.

(** Go's [==] on the structures: overrides are pointers, and those of a request
    that was just decoded are never those of another. *)
Definition same_request (existing request : Request) : bool :=
  bool_decide (existing = request) && bool_decide (rq_PolicyOverrides request = None).

(** Whether the request is new, and the directory. [json.Marshal] refuses a
    year of more than four digits. *)
Definition Submit (service : Service) (directory : Requests) (request : Request)
    : result bool * Requests :=
  match (_ ← Validate request;
         _ ← fail_if (negb (bool_decide (rq_Service request = service)))
               "reconsideration request belongs to another service";
         fail_if (negb (json_time (rq_CreatedAt request))) "encode reconsideration request") with
  | Err e => (Err e, directory)
  | Ok _ =>
      let name := requestFileName request in
      match directory !! name with
      | None => (Ok true, <[name := Ok request]> directory)
      | Some _ =>
          match readRequest directory name with
          | Err e => (Err e, directory)
          | Ok existing =>
              if same_request existing request then (Ok false, directory)
              else (Err "reconsideration request ID collision", directory)
          end
      end
  end.

(** The names [Latest] reads, in the order of [os.ReadDir]. *)
Definition request_names (directory : Requests) (prefix : string) : list string :=
  List.filter (fun name => HasPrefix name prefix && HasSuffix name ".json")
    (merge_sort string_le (map fst (map_to_list directory))).

Definition read_named (service : Service) (caseID : string) (directory : Requests) (name : string)
    : result Request :=
  request ← readRequest directory name;
  _ ← fail_if (negb (bool_decide (rq_Service request = service)) ||
               negb (bool_decide (rq_CaseID request = caseID)) ||
               negb (bool_decide (name = requestFileName request)))
        "reconsideration request identity is inconsistent";
  mret request.

(** Newest first; requests created at the same instant by falling identifier. *)
Definition newest_first (a b : Request) : Prop :=
  t_ns (rq_CreatedAt b) < t_ns (rq_CreatedAt a) \/
  t_ns (rq_CreatedAt a) = t_ns (rq_CreatedAt b) /\ string_le (rq_RequestID b) (rq_RequestID a).
#[global] Instance newest_first_dec : RelDecision newest_first.
Proof. intros a b. unfold newest_first. apply _. Defined.

Definition Latest (service : Service) (directory : Requests) (caseID : string) : result (option Request) :=
  _ ← fail_if (negb (fingerprintPattern caseID)) "invalid reconsideration case ID";
  requests ← mapM (read_named service caseID directory)
               (request_names directory (digest caseID +:+ "-"));
  mret (head (merge_sort newest_first requests)).

(** ** The directory of results (result_store.go) *)

Definition resultVersion : string := "media-repair-reconsideration-result/v1".

Record Result := mkResult
  { rs_Version : string; rs_RequestID : string; rs_Outcome : StoredResult }.

Abbreviation Results := (gmap string Result).

Context (validateDecision : DecisionValidator).

Definition validateResult (r : Result) : result unit :=
  _ ← fail_if (negb (bool_decide (rs_Version r = resultVersion)) ||
               negb (fingerprintPattern (rs_RequestID r))) "invalid reconsideration result identity";
  data ← EncodeStoredResult (rs_Outcome r) (Some validateDecision);
  canonical ← DecodeStoredResult data (Some validateDecision);
  fail_if (negb (bool_decide (sr_Decision (rs_Outcome r) = sr_Decision canonical)))
    "reconsideration decision is not canonical".

Definition path (requestID : string) : string := digest requestID +:+ ".json".

Definition Get (results : Results) (request : Request) : result (option Result) :=
  _ ← Validate request;
  match results !! path (rq_RequestID request) with
  | None => Ok None
  | Some r =>
      _ ← validateResult r;
      _ ← fail_if (negb (bool_decide (rs_RequestID r = rq_RequestID request)) ||
                   negb (bool_decide (sr_CaseID (rs_Outcome r) = rq_CaseID request)))
            "reconsideration result does not match its request";
      Ok (Some r)
  end.

(** The result and the directory; a result that did not change is not written.
    The code reads the result and replaces it without a lock. This is one step:
    it stands for a directory with one writer at a time, as the scheduler has,
    and another writer between the two is not modelled. *)
Definition update (results : Results) (request : Request)
    (step : option StoredResult -> result (StoredResult * bool)) : result (Result * Results) :=
  previous ← Get results request;
  '(outcome, changed) ← step (rs_Outcome <$> previous);
  let next := mkResult resultVersion (rq_RequestID request) outcome in
  if negb changed then mret (default next previous, results)
  else
    _ ← validateResult next;
    mret (next, <[path (rq_RequestID request) := next]> results).

Definition PutFailure (results : Results) (request : Request) (failure : Failure)
    (attemptedAt retryAfter : time) : result (Result * Results) :=
  update results request
    (fun previous => NextFailure previous (rq_CaseID request) failure attemptedAt retryAfter).

Definition PutDecision (results : Results) (request : Request) (decision : string)
    (attemptedAt : time) : result (Result * Results) :=
  update results request
    (fun previous => NextDecision previous (rq_CaseID request) decision attemptedAt).

(** ** The processor (processor.go) *)

(** The decision that may be executed, if there is one, and the stored result.
    The result that accompanies an error is not modelled. *)
Record processed := mkprocessed { pr_Decision : option string; pr_Result : option Result }.

(** The planner takes time, in which other processes may change the directory:
    its answer is a decision or a classified failure, with the directory as it
    is then. [contextErr] and the two readings of the clock are arguments. *)
Definition Process {E} (classify : E -> Failure) (backoff : runner.Backoff) (contextErr : option error)
    (now completed : time) (plan : Results -> Request -> string -> (string + E) * Results)
    (results : Results) (request : Request) (prior : string) : result processed * Results :=
  match contextErr with Some e => (Err e, results) | None =>
  match Get results request with
  | Err e => (Err e, results)
  | Ok stored =>
      let decided := stored ≫= fun r => if HasDecision (rs_Outcome r) then Some r else None in
      match decided with
      | Some r => (Ok (mkprocessed (Some (sr_Decision (rs_Outcome r))) (Some r)), results)
      | None =>
          let now := UTC now in
          if IsZero now then (Err "reconsideration clock returned a zero time", results)
          else if match stored ≫= fun r => sr_RetryAfter (rs_Outcome r) with
                  | Some retry => Before now retry
                  | None => false
                  end
          then (Ok (mkprocessed None stored), results)
          else
            let '(answer, results) := plan results request prior in
            let completedAt := UTC completed in
            if IsZero completedAt then (Err "reconsideration clock returned a zero time", results)
            else match answer with
            | inr e =>
                let attempts := default 0 ((fun r => sr_Attempts (rs_Outcome r)) <$> stored) in
                let retryAfter := jobs.Add completedAt (runner.Delay backoff attempts) in
                match PutFailure results request (classify e) completedAt retryAfter with
                | Err storeErr => (Err storeErr, results)
                | Ok (failed, results) => (Err "reconsideration planner failed", results)
                end
            | inl decision =>
                match PutDecision results request decision completedAt with
                | Err e => (Err e, results)
                | Ok (r, results) =>
                    (Ok (mkprocessed (Some (sr_Decision (rs_Outcome r))) (Some r)), results)
                end
            end
      end
  end end.

End model.
End reconsideration.

(** * Reconsideration keeps requests and decisions

    Requests are never replaced and the latest one is the newest stored; a
    decision that processing returns is the validated, canonical decision that
    is stored for that request and case, and once stored it is final. *)
Import planning reconsideration.

(** ** Order of requests *)

Lemma newest_first_total : Total newest_first.
Proof.
  intros a b. unfold newest_first. rewrite !string_le_le.
  destruct (Z.lt_trichotomy (t_ns (rq_CreatedAt a)) (t_ns (rq_CreatedAt b))) as [?|[?|?]]; [auto| |auto].
  destruct (String.le_total (rq_RequestID a) (rq_RequestID b)); auto.
Qed.

Lemma newest_first_trans : Transitive newest_first.
Proof.
  intros a b c. unfold newest_first. rewrite !string_le_le.
  intros [?|[? ?]] [?|[? ?]]; [left; lia|left; lia|left; lia|right]. split; [lia|].
  by transitivity (rq_RequestID b).
Qed.

Lemma head_newest requests r :
  head (merge_sort newest_first requests) = Some r ->
  r ∈ requests /\ forall r', r' ∈ requests -> newest_first r r'.
Proof.
  pose proof (merge_sort_Permutation newest_first requests) as Hp.
  pose proof (@StronglySorted_merge_sort _ newest_first _ newest_first_trans newest_first_total requests) as Hs.
  destruct (merge_sort newest_first requests) as [|x sorted]; [done|]. intros [= ->].
  split; [rewrite <- Hp; by left|]. intros r'. rewrite <- Hp. inversion_clear Hs as [|? ? _ Hall].
  intros [->|Hin]%elem_of_cons.
  - by destruct (newest_first_total r r).
  - rewrite Forall_forall in Hall. by apply Hall.
Qed.

Section requests.
Context (MarshalIdentity : requestIdentity -> string).

Lemma readRequest_Ok directory name r :
  readRequest MarshalIdentity directory name = Ok r ->
  directory !! name = Some (Ok r) /\ exists u, Validate MarshalIdentity r = Ok u.
Proof.
  unfold readRequest. destruct (directory !! name) as [contents|]; [|done]. intros H.
  apply bind_Ok in H as (r' & -> & H). apply bind_Ok in H as (u & Hv & H). inv_ok H. eauto.
Qed.

Lemma readRequest_valid directory name r u :
  directory !! name = Some (Ok r) -> Validate MarshalIdentity r = Ok u ->
  readRequest MarshalIdentity directory name = Ok r.
Proof. intros Hl Hv. unfold readRequest. rewrite Hl. cbn. by rewrite Hv. Qed.

(** A valid request of a case, stored under its name. *)
Definition stored_request (directory : gmap string (result Request)) (caseID : string) (r : Request) : Prop :=
  directory !! requestFileName r = Some (Ok r) /\ rq_CaseID r = caseID /\
  exists u, Validate MarshalIdentity r = Ok u.

Lemma request_name_listed directory (caseID : string) r :
  stored_request directory caseID r ->
  requestFileName r ∈ request_names directory (digest caseID +:+ "-").
Proof.
  intros (Hl & <- & _). unfold request_names. apply list_elem_of_In, List.filter_In. split.
  - apply list_elem_of_In. rewrite merge_sort_Permutation. apply list_elem_of_In, List.in_map_iff.
    exists (requestFileName r, Ok r). split; [done|]. by apply list_elem_of_In, elem_of_map_to_list.
  - apply andb_true_iff. unfold requestFileName. split.
    + rewrite string_app_assoc. apply prefix_app.
    + rewrite !string_app_assoc. apply HasSuffix_app.
Qed.

Lemma Latest_Ok service directory caseID o :
  Latest MarshalIdentity service directory caseID = Ok o ->
  match o with
  | None => forall r, ~ stored_request directory caseID r
  | Some latest => stored_request directory caseID latest /\ rq_Service latest = service /\
      forall r, stored_request directory caseID r -> rq_Service r = service /\ newest_first latest r
  end.
Proof.
  unfold Latest. intros H. apply bind_Ok in H as (u & _ & H).
  apply bind_Ok in H as (requests & Hread%mapM_Ok & H). inv_ok H.
  assert (forall name r, read_named MarshalIdentity service caseID directory name = Ok r ->
            stored_request directory caseID r /\ rq_Service r = service /\ name = requestFileName r) as Hname.
  { intros name r Hr. apply bind_Ok in Hr as (r' & Hr' & Hr). apply bind_Ok in Hr as (u' & Hf & Hr).
    inv_ok Hr. apply fail_if_Ok in Hf. split_bool. apply readRequest_Ok in Hr' as [Hl Hv].
    subst name. by split_and!. }
  assert (forall r, stored_request directory caseID r -> r ∈ requests /\ rq_Service r = service) as Hall.
  { intros r Hr. pose proof (request_name_listed _ _ _ Hr) as Hin.
    revert Hin. induction Hread as [|name r' names requests Hn Hread IH]; intros Hin;
      [by apply elem_of_nil in Hin|].
    apply elem_of_cons in Hin as [<-|Hin].
    - pose proof (Hname _ _ Hn) as (_ & Hs & _). apply bind_Ok in Hn as (r2 & Hr2 & Hn).
      apply bind_Ok in Hn as (u' & _ & Hn). inv_ok Hn. apply readRequest_Ok in Hr2 as [Hl _].
      destruct Hr as (Hl' & _). assert (r' = r) as -> by congruence. split; [by left|done].
    - destruct (IH Hin) as [? ?]. split; [by right|done]. }
  destruct (head (merge_sort newest_first requests)) as [latest|] eqn:Eh.
  - apply head_newest in Eh as [Hin Hnew].
    assert (stored_request directory caseID latest /\ rq_Service latest = service) as [Hs Hserv].
    { clear Hall Hnew. induction Hread as [|name r names requests Hn Hread IH]; [by apply elem_of_nil in Hin|].
      apply elem_of_cons in Hin as [->|Hin]; [|by apply IH]. by destruct (Hname _ _ Hn) as (? & ? & _). }
    split; [done|]. split; [done|]. intros r Hr. destruct (Hall r Hr) as [Hi Hsr]. auto.
  - intros r Hr. destruct (Hall r Hr) as [Hin _].
    pose proof (merge_sort_Permutation newest_first requests) as Hp.
    destruct (merge_sort newest_first requests); [|done]. rewrite <- Hp in Hin. by apply elem_of_nil in Hin.
Qed.

Lemma Submit_kept service directory request answer directory' :
  Submit MarshalIdentity service directory request = (answer, directory') ->
  (forall name contents, directory !! name = Some contents -> directory' !! name = Some contents) /\
  (forall created, answer = Ok created ->
     stored_request directory' (rq_CaseID request) request /\ rq_Service request = service /\
     (if created then directory !! requestFileName request = None /\
                      directory' = <[requestFileName request := Ok request]> directory
      else directory' = directory)) /\
  (forall e, answer = Err e -> directory' = directory).
Proof.
  unfold Submit. destruct (_ ≫= _) as [u|e] eqn:Hv.
  2: { intros [= <- <-]. split_and!; try done. }
  apply bind_Ok in Hv as (u1 & Hv & Hrest). apply bind_Ok in Hrest as (u2 & Hs & _).
  apply fail_if_Ok in Hs. split_bool. destruct (directory !! requestFileName request) as [contents|] eqn:El.
  - destruct (readRequest _ _ _) as [existing|e] eqn:Er.
    + destruct (same_request existing request) eqn:Esame; intros [= <- <-]; [|by split_and!].
      split_and!; try done. intros created [= <-]. unfold same_request in Esame. split_bool. subst existing.
      apply readRequest_Ok in Er as [Hl Hval]. by split_and!.
    + intros [= <- <-]. by split_and!.
  - intros [= <- <-]. split_and!; try done.
    + intros name contents Hl. rewrite lookup_insert_ne; [done|]. intros <-. congruence.
    + intros created [= <-]. split_and!; try done. split_and!; [apply lookup_insert_eq|done|by exists u1].
Qed.

(** Submitting a request never changes a stored one. It succeeds only for a
    valid request of the service, which is then stored under its name, new or
    as it already was; a failed submission leaves the directory as it is. The
    latest request of the case is then a valid one of the case and the service,
    stored under its name, at least as new as the submitted one and as every
    other stored request of the case. *)
Theorem latest_request_newest service directory request answer directory' latest :
  Submit MarshalIdentity service directory request = (answer, directory') ->
  (forall name contents, directory !! name = Some contents -> directory' !! name = Some contents) /\
  (is_ok answer = false -> directory' = directory) /\
  (is_ok answer = true -> stored_request directory' (rq_CaseID request) request) /\
  (is_ok answer = true -> Latest MarshalIdentity service directory' (rq_CaseID request) = Ok latest ->
   exists newest, latest = Some newest /\ newest_first newest request /\
     stored_request directory' (rq_CaseID request) newest /\ rq_Service newest = service /\
     forall r, stored_request directory' (rq_CaseID request) r -> newest_first newest r).
Proof.
  intros (Hkept & Hok & Herr)%Submit_kept. split; [done|]. split; [|split].
  - destruct answer; [done|]. intros _. by eapply Herr.
  - intros (created & ->)%is_ok_true. by destruct (Hok created eq_refl).
  - intros (created & ->)%is_ok_true Hlatest%Latest_Ok. destruct (Hok created eq_refl) as (Hs & _ & _).
    destruct latest as [newest|]; [|by destruct (Hlatest _ Hs)].
    destruct Hlatest as (Hn & Hserv & Hall). exists newest. split; [done|].
    split; [by apply Hall|]. split; [done|]. split; [done|]. intros r Hr. by apply Hall.
Qed.
End requests.

(** ** Processing *)

Section results.
Context (MarshalIdentity : requestIdentity -> string) (validateDecision : DecisionValidator).

Abbreviation get := (Get MarshalIdentity validateDecision).

Lemma validateResult_Ok r u :
  validateResult validateDecision r = Ok u ->
  rs_Version r = resultVersion /\
  EncodeStoredResult (rs_Outcome r) (Some validateDecision) = Ok (rs_Outcome r).
Proof.
  unfold validateResult. intros H. apply bind_Ok in H as (u1 & Hv & H).
  apply bind_Ok in H as (data & He & H). apply fail_if_Ok in Hv. split_bool.
  split; [done|]. by pose proof (Encode_Ok _ _ _ He) as [-> _].
Qed.

(** A stored decision is the canonical text of a decision about its case. *)
Lemma decision_canonical r u :
  validateResult validateDecision r = Ok u -> HasDecision (rs_Outcome r) = true ->
  validateDecision (sr_Decision (rs_Outcome r)) =
    Ok (sr_CaseID (rs_Outcome r), sr_Decision (rs_Outcome r)).
Proof.
  intros [_ He]%validateResult_Ok Hd. pose proof (Encode_Ok _ _ _ He) as (_ & _ & Hv).
  unfold validateStoredResult in Hv. rewrite Hd in Hv. do 4 apply bind_Ok in Hv as (? & _ & Hv).
  apply bind_Ok in Hv as (u2 & _ & Hv). apply bind_Ok in Hv as ([caseID canonical] & Hc & Hv).
  apply bind_Ok in Hv as (u3 & H1 & H2). rewrite fail_if_Ok in H1, H2. split_bool. by subst.
Qed.

Lemma Get_Ok results request o :
  get results request = Ok o ->
  (exists u, Validate MarshalIdentity request = Ok u) /\
  results !! path (rq_RequestID request) = o /\
  forall r, o = Some r -> (exists u, validateResult validateDecision r = Ok u) /\
    rs_RequestID r = rq_RequestID request /\ sr_CaseID (rs_Outcome r) = rq_CaseID request.
Proof.
  unfold Get. intros H. apply bind_Ok in H as (u & Hv & H). split; [by exists u|].
  destruct (results !! path (rq_RequestID request)) as [r|]; [|by inv_ok H].
  apply bind_Ok in H as (u1 & Hr & H). apply bind_Ok in H as (u2 & Hf & H). inv_ok H.
  apply fail_if_Ok in Hf. split_bool. split; [done|]. intros r' [= <-]. split_and!; eauto.
Qed.

Lemma Get_stored results request r u u' :
  Validate MarshalIdentity request = Ok u -> results !! path (rq_RequestID request) = Some r ->
  validateResult validateDecision r = Ok u' ->
  rs_RequestID r = rq_RequestID request -> sr_CaseID (rs_Outcome r) = rq_CaseID request ->
  get results request = Ok (Some r).
Proof.
  intros Hv Hl Hr Hid Hc. unfold Get. rewrite Hv. cbn. rewrite Hl, Hr. cbn.
  by rewrite !bool_decide_eq_true_2.
Qed.

(** What a successful update returns is what is stored for the request. *)
Lemma result_update_Ok results request step r results' :
  result_step (rq_CaseID request) step ->
  reconsideration.update MarshalIdentity validateDecision results request step = Ok (r, results') ->
  get results' request = Ok (Some r) /\
  (results' = results /\ results !! path (rq_RequestID request) = Some r \/
   results' = <[path (rq_RequestID request) := r]> results /\
   (forall p, results !! path (rq_RequestID request) = Some p -> HasDecision (rs_Outcome p) = false) /\
   step (rs_Outcome <$> results !! path (rq_RequestID request)) = Ok (rs_Outcome r, true)).
Proof.
  intros Hstep H. unfold reconsideration.update in H. apply bind_Ok in H as (previous & Hp & H).
  apply bind_Ok in H as ([outcome changed] & Hs & H). specialize (Hstep _ _ _ Hs).
  destruct (Get_Ok _ _ _ Hp) as ((u & Hv) & Hl & Hprev). destruct changed; cbn in H.
  - apply bind_Ok in H as (u' & Hr & H). injection H as <- <-. destruct Hstep as [Hc Hsucc]. split.
    + eapply Get_stored; eauto. apply lookup_insert_eq.
    + right. rewrite Hl. split_and!; [done| |done]. intros p ->. by destruct Hsucc.
  - injection H as <- <-. destruct previous as [p|]; [|done]. cbn in *. injection Hstep as Hstep. split; [done|by left].
Qed.

Lemma update_final results request step r results' p :
  result_step (rq_CaseID request) step ->
  reconsideration.update MarshalIdentity validateDecision results request step = Ok (r, results') ->
  results !! path (rq_RequestID request) = Some p -> HasDecision (rs_Outcome p) = true ->
  results' = results /\ r = p.
Proof.
  intros Hstep H Hp Hd. destruct (result_update_Ok _ _ _ _ _ Hstep H) as (_ & [[-> Hr]|(_ & Hn & _)]).
  - split; [done|congruence].
  - specialize (Hn p Hp). congruence.
Qed.

(** The decisions of a directory; [finals_kept] that none of them is lost. *)
Definition finals_kept (results results' : gmap string Result) : Prop :=
  forall name r, results !! name = Some r -> HasDecision (rs_Outcome r) = true -> results' !! name = Some r.

Lemma update_finals_kept results request step r results' :
  result_step (rq_CaseID request) step ->
  reconsideration.update MarshalIdentity validateDecision results request step = Ok (r, results') ->
  finals_kept results results'.
Proof.
  intros Hstep H name p Hp Hd. destruct (result_update_Ok _ _ _ _ _ Hstep H) as (_ & [[-> _]|(-> & Hn & _)]); [done|].
  rewrite lookup_insert_ne; [done|]. intros <-. specialize (Hn p Hp). congruence.
Qed.

(** A decision that was put is one. *)
Lemma PutDecision_decided results request decision at_ r results' :
  PutDecision MarshalIdentity validateDecision results request decision at_ = Ok (r, results') ->
  get results' request = Ok (Some r) /\ HasDecision (rs_Outcome r) = true /\ finals_kept results results'.
Proof.
  intros H. pose proof (NextDecision_step (rq_CaseID request) decision at_) as Hstep.
  pose proof (update_finals_kept _ _ _ _ _ Hstep H) as Hkept.
  destruct (result_update_Ok _ _ _ _ _ Hstep H) as (Hget & Hcase). split; [done|]. split; [|done].
  destruct (Get_Ok _ _ _ Hget) as (_ & _ & Hr). destruct (Hr r eq_refl) as ((u & Hv) & _ & _).
  destruct Hcase as [[-> Hl]|(_ & _ & Hnext)].
  - unfold PutDecision, reconsideration.update in H. apply bind_Ok in H as (previous & Hp & H).
    destruct (Get_Ok _ _ _ Hp) as (_ & Hl' & _). rewrite Hl in Hl'. subst previous.
    apply bind_Ok in H as ([outcome changed] & Hs & H). cbn in Hs. unfold NextDecision in Hs. cbn in Hs.
    destruct (HasDecision (rs_Outcome r)) eqn:Hd; [done|].
    apply bind_Ok in Hs as (n & Hn & Hs). injection Hs as <- <-.
    apply bind_Ok in H as (u' & _ & H). injection H as H1 H2. rewrite <- H1 in Hl.
    pose proof (f_equal (fun m => m !! path (rq_RequestID request)) H2) as Hsame. cbn in Hsame.
    rewrite lookup_insert_eq, Hl in Hsame. exfalso.
    unfold nextAttempts in Hn. case_bool_decide; [done|]. injection Hn as Hn.
    rewrite <- H1 in Hn. cbn in Hn. lia.
  - apply NextDecision_changed in Hnext as [_ Hf]. apply validateResult_Ok in Hv as [_ He].
    pose proof (Encode_Ok _ _ _ He) as (_ & _ & Hval). unfold validateStoredResult in Hval.
    do 3 apply bind_Ok in Hval as (? & _ & Hval). apply bind_Ok in Hval as (u1 & Hx & _).
    apply fail_if_Ok in Hx. rewrite Hf in Hx. destruct (HasDecision (rs_Outcome r)); [done|].
    by rewrite bool_decide_eq_true_2 in Hx.
Qed.

Section process.
Context {E : Type} (classify : E -> Failure) (backoff : runner.Backoff).
Context (plan : gmap string Result -> Request -> string -> (string + E) * gmap string Result).

Abbreviation process := (Process MarshalIdentity validateDecision classify backoff).

(** The part of the processor that asks the planner. *)
Lemma run_planner results request prior completed stored out results' :
  (let '(answer, results) := plan results request prior in
   let completedAt := UTC completed in
   if IsZero completedAt then (Err "reconsideration clock returned a zero time", results)
   else match answer with
   | inr e =>
       let attempts := default 0 ((fun r => sr_Attempts (rs_Outcome r)) <$> stored) in
       let retryAfter := jobs.Add completedAt (runner.Delay backoff attempts) in
       match PutFailure MarshalIdentity validateDecision results request (classify e) completedAt retryAfter with
       | Err storeErr => (Err storeErr, results)
       | Ok (failed, results) => (Err "reconsideration planner failed", results)
       end
   | inl decision =>
       match PutDecision MarshalIdentity validateDecision results request decision completedAt with
       | Err e => (Err e, results)
       | Ok (r, results) => (Ok (mkprocessed (Some (sr_Decision (rs_Outcome r))) (Some r)), results)
       end
   end) = (out, results') ->
  (forall processed d, out = Ok processed -> pr_Decision processed = Some d ->
     exists r, get results' request = Ok (Some r) /\ pr_Result processed = Some r /\
       sr_Decision (rs_Outcome r) = d /\ validateDecision d = Ok (rq_CaseID request, d)) /\
  finals_kept (plan results request prior).2 results'.
Proof.
  destruct (plan results request prior) as [answer mid]. cbn. destruct (IsZero _).
  { intros [= <- <-]. split; [done|]. by intros name r. }
  destruct answer as [decision|e].
  - destruct (PutDecision _ _ _ _ _ _) as [[r after]|e] eqn:Ep; intros [= <- <-].
    + apply PutDecision_decided in Ep as (Hget & Hd & Hkept). split; [|done].
      intros processed d [= <-] [= <-]. exists r. split; [done|]. split; [done|]. split; [done|].
      destruct (Get_Ok _ _ _ Hget) as (_ & _ & Hr). destruct (Hr r eq_refl) as ((u & Hv) & _ & <-).
      by eapply decision_canonical.
    + split; [done|]. by intros name r.
  - destruct (PutFailure _ _ _ _ _ _ _) as [[r after]|e'] eqn:Ep; intros [= <- <-].
    + split; [done|]. eapply update_finals_kept; [apply NextFailure_step|exact Ep].
    + split; [done|]. by intros name r.
Qed.

(** C22. A decision that the processor returns for a request is stored for it:
    it is the canonical text of a decision about the case of the request, and
    reading the result again gives it. A decision that is already stored is
    returned without asking the planner and without a change; while a failed
    attempt waits for its retry time the planner is not asked and no decision
    is returned. A decision stored when the planner answers, of any request, is
    never replaced. *)
Theorem process_decision_final contextErr now completed results request prior out results' :
  process contextErr now completed plan results request prior = (out, results') ->
  (forall processed d, out = Ok processed -> pr_Decision processed = Some d ->
     exists r, get results' request = Ok (Some r) /\ pr_Result processed = Some r /\
       sr_Decision (rs_Outcome r) = d /\ validateDecision d = Ok (rq_CaseID request, d)) /\
  (forall r, contextErr = None -> get results request = Ok (Some r) -> HasDecision (rs_Outcome r) = true ->
     out = Ok (mkprocessed (Some (sr_Decision (rs_Outcome r))) (Some r)) /\ results' = results) /\
  (forall r retry, contextErr = None -> get results request = Ok (Some r) ->
     HasDecision (rs_Outcome r) = false -> sr_RetryAfter (rs_Outcome r) = Some retry ->
     t_ns now < t_ns retry -> t_ns now <> 0 ->
     out = Ok (mkprocessed None (Some r)) /\ results' = results) /\
  (results' = results \/ finals_kept (plan results request prior).2 results').
Proof.
  unfold Process. destruct contextErr as [e|].
  { intros [= <- <-]. split_and!; try done. by left. }
  destruct (Get MarshalIdentity validateDecision results request) as [stored|e] eqn:Eg.
  2: { intros [= <- <-]. split_and!; try done. by left. }
  destruct (stored ≫= _) as [r|] eqn:Ed.
  - destruct stored as [r'|]; [|done]. cbn in Ed. destruct (HasDecision (rs_Outcome r')) eqn:Hd; [|done].
    injection Ed as ->. intros [= <- <-].
    split; [|split; [|split; [|by left]]].
    + intros processed d [= <-] [= <-]. exists r. split; [done|]. split; [done|]. split; [done|].
      destruct (Get_Ok _ _ _ Eg) as (_ & _ & Hr). destruct (Hr r eq_refl) as ((u & Hv) & _ & <-).
      by eapply decision_canonical.
    + intros r0 _ [= <-] _. done.
    + intros r0 retry _ [= <-] Hn. congruence.
  - assert (forall r, stored = Some r -> HasDecision (rs_Outcome r) = false) as Hnone.
    { intros r ->. cbn in Ed. by destruct (HasDecision (rs_Outcome r)). }
    clear Ed. destruct (IsZero (UTC now)) eqn:Hz.
    { intros [= <- <-]. split; [done|]. split; [|split; [|by left]].
      - intros r _ [= ->] Hd. rewrite (Hnone r eq_refl) in Hd. done.
      - intros r retry _ [= ->] _ _ _ Hnz. unfold IsZero, UTC in Hz. split_bool. done. }
    destruct (stored ≫= (fun r => sr_RetryAfter (rs_Outcome r))) as [retry|] eqn:Er;
      [destruct (Before (UTC now) retry) eqn:Hb|].
    + intros [= <- <-]. split; [by intros processed d [= <-]|]. split; [|split; [|by left]].
      * intros r _ [= ->] Hd. rewrite (Hnone r eq_refl) in Hd. done.
      * intros r retry' _ [= ->]. done.
    + intros H. apply run_planner in H as (H1 & H2). split; [done|]. split; [|split; [|by right]].
      * intros r _ [= ->] Hd. rewrite (Hnone r eq_refl) in Hd. done.
      * intros r retry' _ [= ->] _ Hretry Hlt. cbn in Er. unfold Before, UTC in Hb. split_bool.
        rewrite Hretry in Er. injection Er as ->. cbn in Hb. lia.
    + intros H. apply run_planner in H as (H1 & H2). split; [done|]. split; [|split; [|by right]].
      * intros r _ [= ->] Hd. rewrite (Hnone r eq_refl) in Hd. done.
      * intros r retry' _ [= ->] _ Hretry. cbn in Er. congruence.
Qed.
End process.

End results.

(** ** Two requests about one case *)

Definition example_identity (identity : requestIdentity) : string :=
  id_CaseID identity +:+ "|" +:+ id_Guidance identity +:+ "|" +:+ pretty (t_ns (id_CreatedAt identity)).

Definition example_caseID : string :=
  "sha256:" +:+ sha256_hex (string_bytes "the case").

Definition example_request (guidance : string) (seconds : Z) : Request :=
  match NewRequest example_identity ServiceRadarr example_caseID guidance None
          (mkTime (seconds * 1000000000) None) with
  | Ok request => request
  | Err _ => mkRequest "" "" "" "" "" None (mkTime 0 None)
  end.

Definition first_request : Request := example_request "Use the other release." 63000000000.
Definition second_request : Request := example_request "Keep the commentary." 63000000060.

Definition first_directory : gmap string (result Request) :=
  {[ requestFileName first_request := Ok first_request ]}.

Lemma latest_request_newest_witness :
  exists newest,
    Latest example_identity ServiceRadarr
      (Submit example_identity ServiceRadarr first_directory second_request).2 (rq_CaseID second_request) =
      Ok (Some newest) /\
    newest_first newest second_request.
Proof.
  destruct (latest_request_newest example_identity ServiceRadarr first_directory second_request
    (Submit example_identity ServiceRadarr first_directory second_request).1
    (Submit example_identity ServiceRadarr first_directory second_request).2 (Some second_request))
    as (_ & _ & _ & H); [apply surjective_pairing|].
  assert (is_ok (Submit example_identity ServiceRadarr first_directory second_request).1 = true) as E1
    by (vm_compute; reflexivity).
  assert (Latest example_identity ServiceRadarr
      (Submit example_identity ServiceRadarr first_directory second_request).2 (rq_CaseID second_request) =
      Ok (Some second_request)) as E2 by (vm_compute; reflexivity).
  destruct (H E1 E2) as (newest & Heq & Hn & _). exists newest. rewrite <- Heq. split; [exact E2|exact Hn].
Defined.

Definition example_validator : DecisionValidator := fun decision =>
  if bool_decide (decision = "decision") then Ok (example_caseID, decision) else Err "malformed decision".

Definition example_plan (results : gmap string Result) (request : Request) (prior : string)
    : (string + unit) * gmap string Result := (inl "decision", results).

Abbreviation example_outcome :=
  (Process example_identity example_validator (fun _ => mkFailure FailureUnexpected 0)
    (runner.mkBackoff 1 2) None (mkTime 63000000120000000000 None) (mkTime 63000000130000000000 None)
    example_plan ∅ second_request "").

Lemma process_decision_final_witness :
  exists r, Get example_identity example_validator example_outcome.2 second_request = Ok (Some r) /\
    sr_Decision (rs_Outcome r) = "decision".
Proof.
  assert (match example_outcome.1 with Ok p => pr_Decision p | Err _ => None end = Some "decision") as F
    by (vm_compute; reflexivity).
  remember example_outcome as outcome eqn:E. destruct outcome as [out results'].
  symmetry in E. apply process_decision_final in E as (H & _).
  cbn [fst snd] in *. destruct out as [p|]; [|discriminate F].
  destruct (H p "decision" eq_refl F) as (r & Hg & _ & Hd & _). exists r. split; [exact Hg|exact Hd].
Defined.
