(* ===== verification/LidarrContracts.v ===== *)
(** * Cases and decisions of the Lidarr planner

    [lidarrcontracts/model.go] and [codec.go]. What the codec takes from
    [encoding/json], from the schema validator and from the canonicaliser of JSON
    is the class [Codec]: nothing is assumed of it, since every reader of stored
    bytes checks what it decodes. *)
From stdpp Require Import base strings list.
From S2P Require Import Prelude GoStrings GoCrypto.

Module lidarrcontracts.

Definition SchemaVersion : string := "lidarr-repair/v3".

Record Queue := mkQueue
  { lq_QueueID : Z; lq_Title : string; lq_DownloadRef : string; lq_Messages : list string }.

Record Album := mkAlbum
  { la_AlbumID : Z; la_ArtistID : Z; la_Artist : string; la_Title : string; la_Monitored : bool }.

Record Release := mkRelease
  { lr_ReleaseID : Z; lr_ForeignReleaseID : string; lr_Title : string; lr_Disambiguation : string;
    lr_Format : string; lr_Countries : list string; lr_Labels : list string; lr_TrackCount : Z;
    lr_MediumCount : Z; lr_Monitored : bool }.

Record Track := mkTrack
  { lt_TrackID : Z; lt_ReleaseID : Z; lt_Number : string; lt_AbsoluteNumber : Z; lt_MediumNumber : Z;
    lt_Title : string; lt_DurationMS : Z; lt_HasFile : bool }.

Record Tag := mkTag { ltag_Name : string; ltag_Value : string }.

Record Stream := mkStream
  { ls_Kind : string; ls_Codec : option string; ls_SampleRateHz : option Z; ls_Channels : option Z;
    ls_BitRateBPS : option Z }.

Record Artifact := mkArtifact
  { lf_ArtifactID : string; lf_RelativePath : string; lf_Fingerprint : string; lf_SizeBytes : Z;
    lf_DurationMS : option Z; lf_Formats : list string; lf_Tags : list Tag; lf_Streams : list Stream }.

Record Assessment := mkAssessment
  { ass_ArtifactID : string; ass_AlbumID : option Z; ass_ReleaseID : option Z; ass_TrackIDs : list Z;
    ass_TagTitle : option string; ass_TagArtist : option string; ass_TagAlbum : option string;
    ass_TagTrackNumbers : list Z; ass_Rejections : list string }.

Record Capability := mkCapability
  { cap_Action : string; cap_CapabilityID : string; cap_AlbumID : Z; cap_ArtifactIDs : list string;
    cap_ReleaseID : Z; cap_TrackIDs : list Z }.

Record Case := mkCase
  { lc_SchemaVersion : string; lc_CaseID : string; lc_ObservedAt : time; lc_Queue : Queue;
    lc_Album : Album; lc_Releases : list Release; lc_Tracks : list Track;
    lc_Artifacts : list Artifact; lc_Assessments : list Assessment; lc_Capabilities : list Capability }.

Definition ActionNoRepair : string := "no_repair".
Definition ActionImportMissingTracks : string := "import_missing_tracks_v1".

Record NoRepairDecision := mkNoRepair
  { nr_SchemaVersion : string; nr_CaseID : string; nr_Action : string; nr_Reason : string;
    nr_EvidenceRefs : list string; nr_Explanation : string }.

Record TrackMapping := mkTrackMapping { tm_ArtifactID : string; tm_TrackID : Z }.

Record ImportMissingTracksDecision := mkImportMissingTracks
  { im_SchemaVersion : string; im_CaseID : string; im_Action : string; im_CapabilityID : string;
    im_AlbumID : Z; im_ReleaseID : Z; im_Mappings : list TrackMapping;
    im_EvidenceRefs : list string; im_Explanation : string }.

Record Decision := mkDecision
  { ld_Kind : string; ld_NoRepair : option NoRepairDecision;
    ld_ImportMissingTracks : option ImportMissingTracksDecision }.

Definition decision_CaseID (decision : Decision) : string :=
  if bool_decide (ld_Kind decision = ActionNoRepair) then
    match ld_NoRepair decision with Some d => nr_CaseID d | None => "" end
  else if bool_decide (ld_Kind decision = ActionImportMissingTracks) then
    match ld_ImportMissingTracks decision with Some d => im_CaseID d | None => "" end
  else "".

#[global] Instance Queue_eq_dec : EqDecision Queue.
Proof. solve_decision. Defined.
#[global] Instance Album_eq_dec : EqDecision Album.
Proof. solve_decision. Defined.
#[global] Instance Release_eq_dec : EqDecision Release.
Proof. solve_decision. Defined.
#[global] Instance Track_eq_dec : EqDecision Track.
Proof. solve_decision. Defined.
#[global] Instance Tag_eq_dec : EqDecision Tag.
Proof. solve_decision. Defined.
#[global] Instance Stream_eq_dec : EqDecision Stream.
Proof. solve_decision. Defined.
#[global] Instance Artifact_eq_dec : EqDecision Artifact.
Proof. solve_decision. Defined.
#[global] Instance Assessment_eq_dec : EqDecision Assessment.
Proof. solve_decision. Defined.
#[global] Instance Capability_eq_dec : EqDecision Capability.
Proof. solve_decision. Defined.
#[global] Instance Case_eq_dec : EqDecision Case.
Proof. solve_decision. Defined.

(** The message that [decisionValue] selects. *)
Inductive Message :=
| NoRepair (d : NoRepairDecision)
| ImportMissingTracks (d : ImportMissingTracksDecision).

(** What the case ID is calculated from. *)
Record caseIdentity := mkCaseIdentity
  { ci_SchemaVersion : string; ci_Queue : Queue; ci_Album : Album; ci_Releases : list Release;
    ci_Tracks : list Track; ci_Artifacts : list Artifact; ci_Assessments : list Assessment;
    ci_Capabilities : list Capability }.

Class Codec :=
  { MarshalCase : Case -> result string;
    MarshalIdentity : caseIdentity -> result string;
    MarshalMessage : Message -> result string;
    ValidCase : string -> result unit;
    ValidDecision : string -> result unit;
    UnmarshalCase : string -> result Case;
    UnmarshalAction : string -> result string;
    UnmarshalNoRepair : string -> result NoRepairDecision;
    UnmarshalImport : string -> result ImportMissingTracksDecision;
    Canonicalize : string -> result string }.

Section codec.
Context `{!Codec}.

Definition identity_of (repairCase : Case) : caseIdentity :=
  mkCaseIdentity (lc_SchemaVersion repairCase) (lc_Queue repairCase) (lc_Album repairCase)
    (lc_Releases repairCase) (lc_Tracks repairCase) (lc_Artifacts repairCase)
    (lc_Assessments repairCase) (lc_Capabilities repairCase).

Definition CalculateCaseID (repairCase : Case) : result string :=
  serialized ← MarshalIdentity (identity_of repairCase);
  canonical ← Canonicalize serialized;
  mret ("sha256:" +:+ sha256_hex (string_bytes canonical)).

Definition EncodeCase (repairCase : Case) : result string :=
  expectedID ← CalculateCaseID repairCase;
  _ ← fail_if (negb (bool_decide (lc_CaseID repairCase = expectedID)))
        "Lidarr repair case ID does not match its planning evidence";
  data ← MarshalCase repairCase;
  _ ← ValidCase data;
  mret data.

Definition DecodeCase (data : string) : result Case :=
  _ ← ValidCase data;
  repairCase ← UnmarshalCase data;
  expectedID ← CalculateCaseID repairCase;
  _ ← fail_if (negb (bool_decide (lc_CaseID repairCase = expectedID)))
        "invalid Lidarr repair case: case ID does not match its planning evidence";
  mret repairCase.

Definition decisionValue (decision : Decision) : result Message :=
  _ ← fail_if (Bool.eqb (bool_decide (ld_NoRepair decision = None))
                        (bool_decide (ld_ImportMissingTracks decision = None)))
        "Lidarr repair decision must contain exactly one action";
  let mismatch := Err "Lidarr repair decision kind does not match its action" in
  if bool_decide (ld_Kind decision = ActionNoRepair) then
    match ld_NoRepair decision with Some d => Ok (NoRepair d) | None => mismatch end
  else if bool_decide (ld_Kind decision = ActionImportMissingTracks) then
    match ld_ImportMissingTracks decision with Some d => Ok (ImportMissingTracks d) | None => mismatch end
  else mismatch.

Definition EncodeDecision (decision : Decision) : result string :=
  value ← decisionValue decision;
  data ← MarshalMessage value;
  _ ← ValidDecision data;
  mret data.

Definition DecodeDecision (data : string) : result Decision :=
  _ ← ValidDecision data;
  action ← UnmarshalAction data;
  if bool_decide (action = ActionNoRepair) then
    value ← UnmarshalNoRepair data;
    mret (mkDecision ActionNoRepair (Some value) None)
  else if bool_decide (action = ActionImportMissingTracks) then
    value ← UnmarshalImport data;
    mret (mkDecision ActionImportMissingTracks None (Some value))
  else Err "unsupported Lidarr repair decision action".
End codec.

(** The decoded case carries the ID of its own evidence. *)
Lemma DecodeCase_ID {C : Codec} data repairCase :
  DecodeCase data = Ok repairCase -> CalculateCaseID repairCase = Ok (lc_CaseID repairCase).
Proof.
  unfold DecodeCase. intros H. apply bind_Ok in H as (u & _ & H). apply bind_Ok in H as (c & _ & H).
  apply bind_Ok in H as (id & Hid & H). apply bind_Ok in H as (u' & Hf & H). injection H as <-.
  apply fail_if_Ok, negb_false_iff, bool_decide_eq_true in Hf. by rewrite Hid, Hf.
Qed.

(** A decoded decision has the message of its kind, and only that. *)
Lemma DecodeDecision_kind {C : Codec} data decision :
  DecodeDecision data = Ok decision ->
  (exists d, decision = mkDecision ActionNoRepair (Some d) None) \/
  (exists d, decision = mkDecision ActionImportMissingTracks None (Some d)).
Proof.
  unfold DecodeDecision. intros H. apply bind_Ok in H as (u & _ & H).
  apply bind_Ok in H as (action & _ & H).
  destruct (bool_decide (action = ActionNoRepair)).
  - apply bind_Ok in H as (d & _ & H). injection H as <-. eauto.
  - destruct (bool_decide (action = ActionImportMissingTracks)); [|done].
    apply bind_Ok in H as (d & _ & H). injection H as <-. eauto.
Qed.
End lidarrcontracts.
