(* ===== verification/LidarrState.v ===== *)
(** * Stored state of Lidarr repairs

    [internal/lidarrrepair/state.go] and [planning_state.go]: the record of a
    planned repair and the directories of cases, planning results and
    observations, which the planning runner uses through [PlanningStore]. A case
    file is the record it decodes to. The quality of a release is a type of the
    Lidarr client library, and so a parameter. The directory of imports and the
    names of legacy files are not modelled. *)
From stdpp Require Import base strings list gmap.
From S2P Require Import Prelude GoStrings GoCrypto JsonSchema LidarrContracts PlanningState PlanningRunner.
Import planning lidarrcontracts.

Module lidarrstate.

Definition stateVersion : string := "lidarr-repair-state/v3".
Definition caseRecordVersion : string := "lidarr-repair-case/v1".
Definition observationVersion : string := "lidarr-repair-observation/v1".

Definition stateFingerprint (s : string) : bool := wire.sha256_pattern s.

Definition SourceTarAudio : string := "tar_audio_v1".
Definition SourceRARAudio : string := "rar_audio_v1".
Definition SourceDirectoryAudio : string := "directory_audio_v1".

Record ImportBinding (Quality : Type) := mkBinding
  { ib_ArtifactID : string; ib_Path : string; ib_Quality : option Quality; ib_IndexerFlags : Z;
    ib_DownloadID : string; ib_DisableReleaseSwitching : bool }.
Arguments mkBinding {Quality}.
Arguments ib_ArtifactID {Quality}.
Arguments ib_Path {Quality}.
Arguments ib_Quality {Quality}.
Arguments ib_IndexerFlags {Quality}.
Arguments ib_DownloadID {Quality}.
Arguments ib_DisableReleaseSwitching {Quality}.

Record Record_ (Quality : Type) := mkRecord
  { rec_Version : string; rec_QueueID : Z; rec_SourceKind : string; rec_SourcePath : string;
    rec_SourceFingerprint : string; rec_WorkspaceRoot : string; rec_Case : string;
    rec_Decision : string; rec_Bindings : list (ImportBinding Quality) }.
Arguments mkRecord {Quality}.
Arguments rec_Version {Quality}.
Arguments rec_QueueID {Quality}.
Arguments rec_SourceKind {Quality}.
Arguments rec_SourcePath {Quality}.
Arguments rec_SourceFingerprint {Quality}.
Arguments rec_WorkspaceRoot {Quality}.
Arguments rec_Case {Quality}.
Arguments rec_Decision {Quality}.
Arguments rec_Bindings {Quality}.

Record caseRecord (Quality : Type) := mkCaseRecord
  { cr_Version : string; cr_CaseID : string; cr_QueueID : Z; cr_SourceKind : string;
    cr_SourcePath : string; cr_SourceFingerprint : string; cr_WorkspaceRoot : string;
    cr_Case : string; cr_Bindings : list (ImportBinding Quality) }.
Arguments mkCaseRecord {Quality}.
Arguments cr_Version {Quality}.
Arguments cr_CaseID {Quality}.
Arguments cr_QueueID {Quality}.
Arguments cr_SourceKind {Quality}.
Arguments cr_SourcePath {Quality}.
Arguments cr_SourceFingerprint {Quality}.
Arguments cr_WorkspaceRoot {Quality}.
Arguments cr_Case {Quality}.
Arguments cr_Bindings {Quality}.

Record observationRecord := mkObservation
  { ob_Version : string; ob_QueueID : Z; ob_CaseID : string }.

#[global] Instance ImportBinding_eq_dec `{EqDecision Quality} : EqDecision (ImportBinding Quality).
Proof. solve_decision. Defined.
#[global] Instance caseRecord_eq_dec `{EqDecision Quality} : EqDecision (caseRecord Quality).
Proof. solve_decision. Defined.

(** The directories, by case digest and by queue. *)
Record Store (Quality : Type) := mkStore
  { st_cases : gmap string (caseRecord Quality);
    st_results : gmap string StoredResult;
    st_observations : gmap Z observationRecord }.
Arguments mkStore {Quality}.
Arguments st_cases {Quality}.
Arguments st_results {Quality}.
Arguments st_observations {Quality}.

(** An absolute path in its clean form. *)
Definition cleanPath (path : string) : bool :=
  negb (bool_decide (path = "")) && filepath.IsAbs path && bool_decide (filepath.Clean path = path).

Section store.
Context {Quality : Type} `{!EqDecision Quality} `{!Codec}.

(** ** Validation *)

Fixpoint validBindings (seen : list string) (bindings : list (ImportBinding Quality)) : result unit :=
  match bindings with
  | [] => Ok tt
  | binding :: rest =>
      _ ← fail_if (bool_decide (ib_ArtifactID binding = "") || negb (cleanPath (ib_Path binding)) ||
                   bool_decide (ib_DownloadID binding = ""))
            "stored Lidarr import binding is invalid";
      _ ← fail_if (bool_decide (ib_ArtifactID binding ∈ seen))
            "stored Lidarr import binding is duplicated";
      validBindings (ib_ArtifactID binding :: seen) rest
  end.

Definition validSourceKind (kind : string) : bool :=
  bool_decide (kind = SourceTarAudio) || bool_decide (kind = SourceRARAudio) ||
  bool_decide (kind = SourceDirectoryAudio).

Definition validateCaseRecord (record : caseRecord Quality) : result unit :=
  _ ← fail_if (negb (bool_decide (cr_Version record = caseRecordVersion)) ||
               bool_decide (cr_QueueID record <= 0) || negb (validSourceKind (cr_SourceKind record)) ||
               negb (cleanPath (cr_SourcePath record)) ||
               negb (stateFingerprint (cr_SourceFingerprint record)) ||
               negb (cleanPath (cr_WorkspaceRoot record)))
        "Lidarr case record identity is invalid";
  repairCase ← DecodeCase (cr_Case record);
  _ ← fail_if (negb (bool_decide (lc_CaseID repairCase = cr_CaseID record)) ||
               negb (bool_decide (lq_QueueID (lc_Queue repairCase) = cr_QueueID record)))
        "stored Lidarr case record has mismatched identities";
  validBindings [] (cr_Bindings record).

Definition validateRecord (record : Record_ Quality) : result unit :=
  _ ← fail_if (negb (bool_decide (rec_Version record = stateVersion)) ||
               bool_decide (rec_QueueID record <= 0) || negb (validSourceKind (rec_SourceKind record)) ||
               negb (cleanPath (rec_SourcePath record)) ||
               negb (stateFingerprint (rec_SourceFingerprint record)) ||
               negb (cleanPath (rec_WorkspaceRoot record)))
        "Lidarr repair state identity is invalid";
  repairCase ← DecodeCase (rec_Case record);
  decision ← DecodeDecision (rec_Decision record);
  _ ← fail_if (negb (bool_decide (decision_CaseID decision = lc_CaseID repairCase)) ||
               negb (bool_decide (lq_QueueID (lc_Queue repairCase) = rec_QueueID record)))
        "stored Lidarr repair state has mismatched identities";
  validBindings [] (rec_Bindings record).

(** ** The codec of the case store *)

Definition encodeCaseRecord (record : caseRecord Quality) : result (caseRecord Quality) :=
  _ ← validateCaseRecord record; mret record.
Definition decodeCaseRecord (record : caseRecord Quality) : result (caseRecord Quality) :=
  _ ← validateCaseRecord record; mret record.

Definition zero_time : time := mkTime 0 None.

Definition unobserved (repairCase : Case) : Case :=
  mkCase (lc_SchemaVersion repairCase) (lc_CaseID repairCase) zero_time (lc_Queue repairCase)
    (lc_Album repairCase) (lc_Releases repairCase) (lc_Tracks repairCase) (lc_Artifacts repairCase)
    (lc_Assessments repairCase) (lc_Capabilities repairCase).

Definition sameLidarrCaseIdentity (left right : caseRecord Quality) : result bool :=
  leftCase ← DecodeCase (cr_Case left);
  rightCase ← DecodeCase (cr_Case right);
  mret (bool_decide (cr_CaseID left = cr_CaseID right) &&
        bool_decide (unobserved leftCase = unobserved rightCase)).

Definition mergeLidarrCaseObservation (stored current : caseRecord Quality) : caseRecord Quality :=
  mkCaseRecord (cr_Version current) (cr_CaseID current) (cr_QueueID current) (cr_SourceKind current)
    (cr_SourcePath current) (cr_SourceFingerprint current) (cr_WorkspaceRoot current)
    (cr_Case stored) (cr_Bindings current).

Definition caseCodec : CaseCodec (caseRecord Quality) (caseRecord Quality) :=
  mkCaseCodec _ _ cr_CaseID encodeCaseRecord decodeCaseRecord sameLidarrCaseIdentity
    (fun stored current => Ok (mergeLidarrCaseObservation stored current)).

Definition validateLidarrDecision (data : string) : result (string * string) :=
  decision ← DecodeDecision data;
  canonical ← EncodeDecision decision;
  mret (decision_CaseID decision, canonical).

(** ** Operations *)

Definition newCaseRecord (record : Record_ Quality) : result (caseRecord Quality) :=
  repairCase ← DecodeCase (rec_Case record);
  let stored := mkCaseRecord caseRecordVersion (lc_CaseID repairCase) (rec_QueueID record)
                  (rec_SourceKind record) (rec_SourcePath record) (rec_SourceFingerprint record)
                  (rec_WorkspaceRoot record) (rec_Case record) (rec_Bindings record) in
  _ ← validateCaseRecord stored;
  mret stored.

Definition join (stored : caseRecord Quality) (decision : string) : Record_ Quality :=
  mkRecord stateVersion (cr_QueueID stored) (cr_SourceKind stored) (cr_SourcePath stored)
    (cr_SourceFingerprint stored) (cr_WorkspaceRoot stored) (cr_Case stored) decision
    (cr_Bindings stored).

Definition recordCaseID (record : Record_ Quality) : result string :=
  repairCase ← DecodeCase (rec_Case record); mret (lc_CaseID repairCase).

Definition observationPath (queueID : Z) : result unit :=
  fail_if (bool_decide (queueID <= 0)) "Lidarr queue ID must be positive".

Definition PutCase (store : Store Quality) (record : Record_ Quality) : result bool * Store Quality :=
  match newCaseRecord record with
  | Err e => (Err e, store)
  | Ok stored =>
      let '(observed, cases) :=
        CaseStore.Observe caseCodec (st_cases store) stored (observationPath (cr_QueueID stored)) in
      match observed with
      | Err e => (Err e, mkStore cases (st_results store) (st_observations store))
      | Ok observed =>
          (Ok (CaseStore.ob_Created observed),
           mkStore cases (st_results store)
             (<[cr_QueueID stored :=
                  mkObservation observationVersion (cr_QueueID stored) (cr_CaseID stored)]>
                (st_observations store)))
      end
  end.

Definition caseExists (store : Store Quality) (caseID : string) : result bool :=
  found ← CaseStore.GetCase caseCodec (st_cases store) caseID;
  mret (match found with Some _ => true | None => false end).

Definition readPlanningResult (store : Store Quality) (caseID : string) : result (option StoredResult) :=
  ResultStore.Get validateLidarrDecision (st_results store) caseID.

Definition GetStatus (store : Store Quality) (caseID : string) : result (option Status) :=
  found ← readPlanningResult store caseID;
  mret (option_map stored_Status found).

Definition GetDecision (store : Store Quality) (caseID : string) : result Decision :=
  found ← readPlanningResult store caseID;
  match found with
  | Some r => if HasDecision r then DecodeDecision (sr_Decision r)
              else Err "case has no stored planning decision"
  | None => Err "case has no stored planning decision"
  end.

Definition GetRepairCase (store : Store Quality) (caseID : string) : result Case :=
  found ← CaseStore.GetCase caseCodec (st_cases store) caseID;
  match found with
  | None => Err "case is not stored"
  | Some record => DecodeCase (cr_Case record)
  end.

(** The answer of the result store, with its directory put back. *)
Definition put_results (store : Store Quality) (put : result (StoredResult * bool * ResultStore.Files))
    : result (Status * bool) * Store Quality :=
  match put with
  | Err e => (Err e, store)
  | Ok (r, changed, results) =>
      (Ok (stored_Status r, changed), mkStore (st_cases store) results (st_observations store))
  end.

Definition PutFailure (store : Store Quality) (caseID : string) (failure : Failure)
    (attemptedAt retryAfter : time) : result (Status * bool) * Store Quality :=
  put_results store
    (ResultStore.PutFailure validateLidarrDecision (st_results store) (caseExists store) caseID failure
       attemptedAt retryAfter).

Definition PutDecision (store : Store Quality) (caseID : string) (decision : Decision)
    (attemptedAt : time) : result (Status * bool) * Store Quality :=
  put_results store
    (encoded ← EncodeDecision decision;
     _ ← fail_if (negb (bool_decide (decision_CaseID decision = caseID)))
           "Lidarr planning decision case ID does not match its record";
     ResultStore.PutDecision validateLidarrDecision (st_results store) (caseExists store) caseID encoded
       attemptedAt).

(** [latestPlanned], which [Get] returns. *)
Definition latestPlanned (store : Store Quality) (queueID : Z) : result (option (Record_ Quality)) :=
  _ ← fail_if (bool_decide (queueID <= 0)) "Lidarr queue ID must be positive";
  match st_observations store !! queueID with
  | None => Ok None
  | Some observation =>
      _ ← fail_if (negb (bool_decide (ob_Version observation = observationVersion)) ||
                   negb (bool_decide (ob_QueueID observation = queueID)) ||
                   negb (stateFingerprint (ob_CaseID observation)))
            "Lidarr observation record identity is invalid";
      latest ← CaseStore.GetCase caseCodec (st_cases store) (ob_CaseID observation);
      match latest with
      | None => Ok None
      | Some latest =>
          _ ← fail_if (negb (bool_decide (cr_QueueID latest = queueID)))
                "Lidarr observation points to another queue";
          found ← readPlanningResult store (ob_CaseID observation);
          match found with
          | None => Ok None
          | Some r => if HasDecision r then Ok (Some (join latest (sr_Decision r))) else Ok None
          end
      end
  end.

(** [Put], which stores a planned record; the state when a step fails is the
    one before that step. *)
Definition Put (store : Store Quality) (record : Record_ Quality) (now : time)
    : result unit * Store Quality :=
  match validateRecord record with
  | Err e => (Err e, store)
  | Ok _ =>
      let '(created, store) := PutCase store record in
      match (_ ← created; decision ← DecodeDecision (rec_Decision record);
             caseID ← recordCaseID record; mret (caseID, decision)) with
      | Err e => (Err e, store)
      | Ok (caseID, decision) =>
          let '(put, store) := PutDecision store caseID decision (UTC now) in
          (_ ← put; mret tt, store)
      end
  end.

(** [migrateLegacyRecords] on the records it read, in the order of their names. *)
Fixpoint migrateLegacyRecords (store : Store Quality) (records : list (Record_ Quality)) (now : time)
    : result unit * Store Quality :=
  match records with
  | [] => (Ok tt, store)
  | record :: rest =>
      match validateRecord record with
      | Err e => (Err e, store)
      | Ok _ =>
          let '(put, store) := Put store record now in
          match put with
          | Err e => (Err e, store)
          | Ok _ => migrateLegacyRecords store rest now
          end
      end
  end.

#[export] Instance lidarr_store : runner.PlanningStore (Store Quality) (Record_ Quality) Decision :=
  {| runner.PutCase := PutCase; runner.GetStatus := GetStatus; runner.GetDecision := GetDecision;
     runner.PutFailure := PutFailure; runner.PutDecision := PutDecision |}.
End store.
End lidarrstate.
Import lidarrstate.

(** ** The store keeps the runner's laws *)
Section laws.
Context {Quality : Type} `{!EqDecision Quality} {codec : Codec}.

Definition lidarr_evolves (s s' : Store Quality) : Prop :=
  rtc (put validateLidarrDecision) (st_results s) (st_results s').
Definition lidarr_consistent (s : Store Quality) : Prop :=
  results_ok validateLidarrDecision (st_results s).

Lemma PutCase_results (s : Store Quality) record : st_results (PutCase s record).2 = st_results s.
Proof. unfold PutCase. by repeat case_match. Qed.

Lemma PutFailure_evolves (s : Store Quality) id failure at_ retry :
  lidarr_evolves s (PutFailure s id failure at_ retry).2.
Proof.
  unfold lidarr_evolves, PutFailure, put_results.
  destruct (ResultStore.PutFailure _ _ _ _ _ _ _) as [[[r changed] results]|] eqn:E; simpl; [|done].
  apply rtc_once. by eapply put_failure.
Qed.

Lemma PutDecision_Ok (s : Store Quality) id decision at_ status changed :
  (PutDecision s id decision at_).1 = Ok (status, changed) ->
  exists encoded r, EncodeDecision decision = Ok encoded /\ status = stored_Status r /\
    ResultStore.PutDecision validateLidarrDecision (st_results s) (caseExists s) id encoded at_
      = Ok (r, changed, st_results (PutDecision s id decision at_).2).
Proof.
  unfold PutDecision, put_results. intros H. destruct (_ ≫= _) as [[[r changed'] results]|] eqn:E; [|done].
  simpl in *. injection H as <- <-. apply bind_Ok in E as (encoded & He & E).
  apply bind_Ok in E as (u & _ & E). eauto 10.
Qed.

Lemma PutDecision_evolves (s : Store Quality) id decision at_ :
  lidarr_evolves s (PutDecision s id decision at_).2.
Proof.
  destruct (PutDecision s id decision at_).1 as [[status changed]|] eqn:E.
  - apply PutDecision_Ok in E as (encoded & r & _ & _ & E). apply rtc_once. by eapply put_decision.
  - unfold lidarr_evolves, PutDecision, put_results in *. by repeat case_match.
Qed.

(** A readable result. *)
Lemma read_evolves (s s' : Store Quality) id r :
  lidarr_consistent s -> lidarr_evolves s s' -> readPlanningResult s id = Ok (Some r) ->
  exists r', readPlanningResult s' id = Ok (Some r') /\ follows r r'.
Proof.
  intros Hc He H. apply Get_Some in H as (path & Hp & E); [|done].
  destruct (puts_follow _ _ _ _ _ He E) as (r' & E' & F). exists r'. split; [|done].
  unfold readPlanningResult. erewrite Get_ok; [|by eapply puts_results_ok|done]. by rewrite E'.
Qed.

Lemma GetDecision_Ok (s : Store Quality) id decision :
  GetDecision s id = Ok decision <->
  exists r, readPlanningResult s id = Ok (Some r) /\ HasDecision r = true /\
            DecodeDecision (sr_Decision r) = Ok decision.
Proof.
  unfold GetDecision. split.
  - intros H. apply bind_Ok in H as ([r|] & Hr & H); [|done]. destruct (HasDecision r) eqn:E; [|done]. eauto.
  - intros (r & -> & Hd & H). simpl. by rewrite Hd.
Qed.

(** A stored decision decodes to one with the same encoding. *)
Lemma stored_decision path r :
  result_ok validateLidarrDecision path r -> sr_Failure r = None ->
  HasDecision r = true /\
  exists stored, DecodeDecision (sr_Decision r) = Ok stored /\ EncodeDecision stored = Ok (sr_Decision r).
Proof.
  intros [(_ & _ & H)%Encode_Ok _] Hf. unfold validateStoredResult in H.
  apply bind_Ok in H as (u1 & _ & H). apply bind_Ok in H as (u2 & _ & H).
  apply bind_Ok in H as (u3 & _ & H). rewrite Hf in H. apply bind_Ok in H as (u4 & Hone & H).
  apply fail_if_Ok in Hone. destruct (HasDecision r); [|done]. split; [done|].
  apply bind_Ok in H as (u5 & _ & H). apply bind_Ok in H as ([caseID canonical] & Hv & H).
  apply bind_Ok in H as (u6 & Hc & _). apply fail_if_Ok, negb_false_iff, bool_decide_eq_true in Hc.
  rewrite <- Hc in Hv. unfold validateLidarrDecision in Hv. apply bind_Ok in Hv as (stored & Hd & Hv).
  apply bind_Ok in Hv as (bytes & He & Hv). injection Hv as _ ->. eauto.
Qed.

Lemma lidarr_PutDecision_stored (s : Store Quality) id decision at_ status :
  lidarr_consistent s -> (PutDecision s id decision at_).1 = Ok (status, true) ->
  exists stored, GetDecision (PutDecision s id decision at_).2 id = Ok stored /\
    EncodeDecision decision = EncodeDecision stored.
Proof.
  intros Hc H. pose proof (PutDecision_evolves s id decision at_) as He.
  apply PutDecision_Ok in H as (encoded & r & Henc & _ & H).
  remember (PutDecision s id decision at_).2 as s'.
  apply update_Ok in H as (path & Hp & Hs & _ & Hok & Hfiles); [|apply NextDecision_step].
  apply NextDecision_changed in Hs as [Hd Hf].
  destruct (stored_decision _ _ Hok Hf) as (Hh & stored & Hdec & Hst). rewrite Hd in *.
  exists stored. split; [|congruence]. apply GetDecision_Ok. exists r. rewrite Hd. split_and!; try done.
  unfold readPlanningResult. erewrite Get_ok; [|by eapply puts_results_ok|done].
  rewrite Hfiles. by rewrite lookup_insert_eq.
Qed.

Lemma lidarr_PutFailure_stored (s : Store Quality) id failure at_ retry status changed :
  lidarr_consistent s -> (PutFailure s id failure at_ retry).1 = Ok (status, changed) ->
  GetStatus (PutFailure s id failure at_ retry).2 id = Ok (Some status) /\
  (ps_Decided status = true \/ ps_RetryAfter status = Some (UTC retry)).
Proof.
  intros Hc H. pose proof (PutFailure_evolves s id failure at_ retry) as He.
  unfold GetStatus, readPlanningResult. unfold lidarr_evolves in He.
  unfold PutFailure, put_results in *.
  destruct (ResultStore.PutFailure _ _ _ _ _ _ _) as [[[r changed'] results]|] eqn:E; [|done].
  simpl in *. injection H as <- <-.
  apply update_Ok in E as (path & Hp & Hs & E); [|apply NextFailure_step].
  assert (results !! path = Some r) as Hl.
  { destruct changed'; [destruct E as (_ & _ & ->); apply lookup_insert_eq|by destruct E as [-> ?]]. }
  erewrite Get_ok; [|by eapply puts_results_ok|done]. rewrite Hl. split; [done|].
  by eapply NextFailure_status.
Qed.

#[export] Instance lidarr_lawful : runner.LawfulPlanningStore (Store Quality) (Record_ Quality) Decision.
Proof.
  refine {| runner.evolves := lidarr_evolves; runner.consistent := lidarr_consistent;
            runner.same_decision := fun d d' => EncodeDecision d = EncodeDecision d' |}.
  - done.
  - intros s. apply rtc_refl.
  - intros s1 s2 s3 H1 H2. unfold lidarr_evolves in *. by etrans.
  - intros s s' Hc He. exact (puts_results_ok _ _ _ He Hc).
  - intros s id status Hc H. apply bind_Ok in H as ([r|] & Hr & H); [|done]. injection H as <-.
    apply Get_Some in Hr as (path & _ & E); [|done]. apply Hc in E as [_ ?]. simpl. lia.
  - intros s record. unfold lidarr_evolves. simpl. by rewrite PutCase_results.
  - intros. apply PutFailure_evolves.
  - intros. apply PutDecision_evolves.
  - intros s s' id decision Hc He (r & Hr & Hd & H)%GetDecision_Ok.
    destruct (read_evolves _ _ _ _ Hc He Hr) as (r' & Hr' & [->|[Hn _]]); [|congruence].
    apply GetDecision_Ok. eauto.
  - apply lidarr_PutDecision_stored.
  - apply lidarr_PutFailure_stored.
Defined.
End laws.
