(* ===== verification/LidarrRepair.v ===== *)
(** * Lidarr repairs: assembling a case, checking a decision, authorizing an import

    [internal/lidarrrepair] ([assemble.go], [validate.go], [authorize.go]), the
    types it reads from [internal/lidarr], and the import command and the check
    for its completion of [internal/repairlidarr/adapter.go]. The materialized
    files, the answers of Lidarr and the resolver of published paths are
    arguments. Records have the fields that this code reads. *)
From stdpp Require Import base strings list gmap sorting pretty.
From S2P Require Import Prelude GoStrings GoCrypto Probe LidarrContracts LidarrState.
Import lidarrcontracts lidarrstate.

(** ** What Lidarr answers ([internal/lidarr]) *)
Module lidarr.

Record StatusMessage := mkStatusMessage { sm_Title : string; sm_Messages : list string }.

Record QueueRecord := mkQueueRecord
  { q_ID : Z; q_ArtistID : option Z; q_AlbumID : option Z; q_Title : string; q_Status : string;
    q_TrackedDownloadStatus : string; q_StatusMessages : list StatusMessage; q_ErrorMessage : string;
    q_DownloadID : string; q_OutputPath : string }.

Record Release := mkRelease
  { r_ID : Z; r_ForeignReleaseID : string; r_Title : string; r_Disambiguation : string;
    r_Format : string; r_Countries : list string; r_Labels : list string; r_TrackCount : Z;
    r_MediumCount : Z; r_Monitored : bool }.

Record Album := mkAlbum
  { al_ID : Z; al_ArtistID : Z; al_ArtistName : string; al_Title : string; al_Monitored : bool;
    al_Releases : list Release }.

Record Track := mkTrack
  { t_ID : Z; t_AlbumID : Z; t_ReleaseID : Z; t_ArtistID : Z; t_AbsoluteTrackNumber : Z;
    t_TrackNumber : string; t_MediumNumber : Z; t_Title : string; t_DurationMS : Z; t_HasFile : bool;
    t_TrackFileID : Z }.

Record AudioTags := mkAudioTags
  { at_Title : string; at_Artist : string; at_Album : string; at_TrackNumbers : list Z }.

Record ManualImportRejection := mkRejection { mr_Type : string; mr_Reason : string }.

Record ManualImport (Quality : Type) := mkManualImport
  { mi_Path : string; mi_AlbumID : Z; mi_AlbumReleaseID : Z; mi_TrackIDs : list Z;
    mi_Quality : option Quality; mi_IndexerFlags : Z; mi_DisableReleaseSwitching : bool;
    mi_AudioTags : option AudioTags; mi_Rejections : list ManualImportRejection }.
Arguments mkManualImport {Quality}.
Arguments mi_Path {Quality}.
Arguments mi_AlbumID {Quality}.
Arguments mi_AlbumReleaseID {Quality}.
Arguments mi_TrackIDs {Quality}.
Arguments mi_Quality {Quality}.
Arguments mi_IndexerFlags {Quality}.
Arguments mi_DisableReleaseSwitching {Quality}.
Arguments mi_AudioTags {Quality}.
Arguments mi_Rejections {Quality}.

(** ** Commands and history ([command.go], [history.go]) *)

Record ManualImportCommandFile (Quality : Type) := mkCommandFile
  { cf_Path : string; cf_ArtistID : Z; cf_AlbumID : Z; cf_AlbumReleaseID : Z; cf_TrackID : Z;
    cf_Quality : option Quality; cf_IndexerFlags : Z; cf_DownloadID : string;
    cf_DisableReleaseSwitching : bool }.
Arguments mkCommandFile {Quality}.
Arguments cf_Path {Quality}.
Arguments cf_ArtistID {Quality}.
Arguments cf_AlbumID {Quality}.
Arguments cf_AlbumReleaseID {Quality}.
Arguments cf_TrackID {Quality}.
Arguments cf_Quality {Quality}.
Arguments cf_IndexerFlags {Quality}.
Arguments cf_DownloadID {Quality}.
Arguments cf_DisableReleaseSwitching {Quality}.

Definition contains_nul (s : string) : bool :=
  negb (s_forall (fun c => negb (bool_decide (Ascii.nat_of_ascii c = 0%nat))) s).

(** The loop of [ManualImportCommand.validate]. *)
Fixpoint validate_files {Quality} (paths : list string) (tracks : list Z)
    (files : list (ManualImportCommandFile Quality)) : result unit :=
  match files with
  | [] => Ok tt
  | file :: rest =>
      _ ← fail_if (negb (cleanPath (cf_Path file)) || contains_nul (cf_Path file) ||
                   bool_decide (cf_ArtistID file <= 0) || bool_decide (cf_AlbumID file <= 0) ||
                   bool_decide (cf_AlbumReleaseID file <= 0) || bool_decide (cf_TrackID file <= 0) ||
                   match cf_Quality file with None => true | Some _ => false end ||
                   negb (bool_decide (cf_DownloadID file = TrimSpace (cf_DownloadID file))) ||
                   contains_nul (cf_DownloadID file))
            "Lidarr manual-import file is incomplete";
      _ ← fail_if (bool_decide (cf_Path file ∈ paths)) "Lidarr manual-import path is duplicated";
      _ ← fail_if (bool_decide (cf_TrackID file ∈ tracks)) "Lidarr manual-import track is duplicated";
      validate_files (cf_Path file :: paths) (cf_TrackID file :: tracks) rest
  end.

Definition validate_command {Quality} (files : list (ManualImportCommandFile Quality)) : result unit :=
  _ ← fail_if (bool_decide (length files = 0%nat)) "Lidarr manual-import command has no files";
  validate_files [] [] files.

Record ImportedTrack := mkImportedTrack
  { it_HistoryID : Z; it_AlbumID : Z; it_ArtistID : Z; it_TrackID : Z; it_DownloadID : string;
    it_DroppedPath : string; it_ImportedPath : string; it_OccurredAt : time }.

Definition HighestImportedTrackHistoryID (imports : list ImportedTrack) : Z :=
  foldl (fun highest imported =>
    if bool_decide (highest < it_HistoryID imported) then it_HistoryID imported else highest) 0 imports.

Record ImportedTrackMatch := mkImportedTrackMatch
  { itm_TrackID : Z; itm_DownloadID : string; itm_DroppedPath : string; itm_AfterHistoryID : Z;
    itm_NotBefore : time }.

Definition matches (match_ : ImportedTrackMatch) (imported : ImportedTrack) : bool :=
  bool_decide (itm_AfterHistoryID match_ < it_HistoryID imported) &&
  bool_decide (it_TrackID imported = itm_TrackID match_) &&
  (bool_decide (itm_DownloadID match_ = "") ||
   bool_decide (it_DownloadID imported = itm_DownloadID match_)) &&
  bool_decide (it_DroppedPath imported = itm_DroppedPath match_) &&
  negb (Before (it_OccurredAt imported) (itm_NotBefore match_)).

Definition FindImportedTrack (imports : list ImportedTrack) (match_ : ImportedTrackMatch)
    : option ImportedTrack := List.find (matches match_) imports.
End lidarr.
Import lidarr lidarrcontracts.

(** ** Commands of a Servarr application ([internal/servarr/command.go]) *)
Module servarr.

Record Command := mkCommand { com_ID : Z; com_Message : string; com_Status : string; com_Result : string }.

Inductive ImportCommandDisposition := ImportCommandPending | ImportCommandCompleted | ImportCommandFailed.

Definition ClassifyImportCommand (command : Command) (requireCompletionResult : bool)
    : result ImportCommandDisposition :=
  if bool_decide (com_Status command ∈ ["queued"; "started"]) then
    _ ← fail_if (negb (bool_decide (com_Result command ∈ [""; "unknown"])))
          "active import command has unexpected result";
    mret ImportCommandPending
  else if bool_decide (com_Status command = "completed") then
    if bool_decide (com_Result command = "successful") then mret ImportCommandCompleted
    else if bool_decide (com_Result command = "unsuccessful") then mret ImportCommandFailed
    else if bool_decide (com_Result command = "") && negb requireCompletionResult
    then mret ImportCommandCompleted
    else Err "completed import command has unexpected result"
  else if bool_decide (com_Status command ∈ ["failed"; "aborted"; "cancelled"; "orphaned"])
  then mret ImportCommandFailed
  else Err "import command has unknown status".
End servarr.
Import servarr.

(** ** Validating a decision ([validate.go]) *)
Module lidarrrepair.

Definition decisionVersion (decision : Decision) : string :=
  if bool_decide (ld_Kind decision = ActionNoRepair) then
    match ld_NoRepair decision with Some d => nr_SchemaVersion d | None => "" end
  else if bool_decide (ld_Kind decision = ActionImportMissingTracks) then
    match ld_ImportMissingTracks decision with Some d => im_SchemaVersion d | None => "" end
  else "".

Definition validateEvidenceReferences (repairCase : Case) (references : list string) : result unit :=
  let allowed := map lf_ArtifactID (lc_Artifacts repairCase) ++
                 map cap_CapabilityID (lc_Capabilities repairCase) in
  fail_if (negb (forallb (fun reference => bool_decide (reference ∈ allowed)) references))
    "Lidarr decision references unknown evidence".

(** The loop over the mappings, with the artifacts and tracks mapped before. *)
Fixpoint validateMappings (capability : Capability) (artifacts : list string) (tracks : list Z)
    (mappings : list TrackMapping) : result unit :=
  match mappings with
  | [] => Ok tt
  | mapping :: rest =>
      _ ← fail_if (negb (bool_decide (tm_ArtifactID mapping ∈ cap_ArtifactIDs capability)) ||
                   negb (bool_decide (tm_TrackID mapping ∈ cap_TrackIDs capability)))
            "Lidarr decision mapping is outside its capability";
      _ ← fail_if (bool_decide (tm_ArtifactID mapping ∈ artifacts))
            "Lidarr decision maps an artifact more than once";
      _ ← fail_if (bool_decide (tm_TrackID mapping ∈ tracks))
            "Lidarr decision maps a track more than once";
      validateMappings capability (tm_ArtifactID mapping :: artifacts) (tm_TrackID mapping :: tracks) rest
  end.

Definition validateDecisionSelection (repairCase : Case) (decision : Decision) : result unit :=
  _ ← fail_if (negb (bool_decide (lc_SchemaVersion repairCase = SchemaVersion)))
        "unsupported Lidarr repair schema version";
  _ ← fail_if (negb (bool_decide (decisionVersion decision = lc_SchemaVersion repairCase)))
        "Lidarr decision schema version does not match its case";
  match bool_decide (ld_Kind decision = ActionNoRepair), ld_NoRepair decision with
  | true, Some noRepair => validateEvidenceReferences repairCase (nr_EvidenceRefs noRepair)
  | _, _ =>
      match bool_decide (ld_Kind decision = ActionImportMissingTracks), ld_ImportMissingTracks decision with
      | true, Some selected =>
          _ ← validateEvidenceReferences repairCase (im_EvidenceRefs selected);
          match List.find (fun c => bool_decide (cap_CapabilityID c = im_CapabilityID selected))
                  (lc_Capabilities repairCase) with
          | None => Err "Lidarr decision selects an unknown capability"
          | Some capability =>
              _ ← fail_if (negb (bool_decide (cap_Action capability = ActionImportMissingTracks)))
                    "Lidarr decision selects an unknown capability";
              _ ← fail_if (negb (bool_decide (im_AlbumID selected = cap_AlbumID capability)) ||
                           negb (bool_decide (im_ReleaseID selected = cap_ReleaseID capability)))
                    "Lidarr decision selects an album or release outside its capability";
              _ ← validateMappings capability [] [] (im_Mappings selected);
              fail_if (bool_decide (length (im_Mappings selected) = 0%nat))
                "Lidarr decision does not map any missing track"
          end
      | _, _ => Err "Lidarr decision action is inconsistent"
      end
  end.

Definition ValidateDecision (repairCase : Case) (decision : Decision) : result unit :=
  _ ← fail_if (negb (bool_decide (decision_CaseID decision = lc_CaseID repairCase)))
        "Lidarr decision case ID does not match";
  validateDecisionSelection repairCase decision.

(** ** Assembling a case ([assemble.go]) *)

Definition maximumAssessmentIDs : nat := 32.
Definition maximumQueueMessages : nat := 256.
Definition maximumReleaseNames : nat := 64.

Fixpoint distinct_texts (seen : list string) (values : list string) : list string :=
  match values with
  | [] => []
  | value :: rest =>
      let value := TrimSpace value in
      if bool_decide (value = "") then distinct_texts seen rest
      else if bool_decide (value ∈ seen) then distinct_texts seen rest
      else value :: distinct_texts (value :: seen) rest
  end.

Definition normalizedTextList (values : list string) (maximum : nat) : list string :=
  take maximum (merge_sort string_le (distinct_texts [] values)).

(** [normalizedPositiveInt64List] and [normalizedPositiveIntList]; the values
    taken so far are the values seen. *)
Fixpoint positive_values (taken : list Z) (values : list Z) (maximum : nat) : list Z :=
  match values with
  | [] => taken
  | value :: rest =>
      if bool_decide (value <= 0) || bool_decide (value ∈ taken) then positive_values taken rest maximum
      else
        let taken := taken ++ [value] in
        if bool_decide (length taken = maximum) then taken else positive_values taken rest maximum
  end.
Definition normalizedPositiveList (values : list Z) (maximum : nat) : list Z :=
  positive_values [] values maximum.

Definition optionalText (value : string) : option string :=
  let value := TrimSpace value in if bool_decide (value = "") then None else Some value.

Definition positive_id (id : Z) : option Z := if bool_decide (0 < id) then Some id else None.

Definition queueMessages (queue : QueueRecord) : list string :=
  normalizedTextList
    (flat_map (fun status => sm_Title status :: sm_Messages status) (q_StatusMessages queue) ++
     [q_ErrorMessage queue]) maximumQueueMessages.

Definition stableID (kind value : string) : string :=
  kind +:+ ":" +:+ sha256_hex (string_bytes value).
Definition opaqueDownloadRef (downloadID : string) : string := stableID "download" downloadID.

Definition caseArtifactID (index : nat) : string := "artifact:" +:+ pretty (Z.of_nat index + 1).

Definition contractTags (tags : list ProbeTag) : list Tag :=
  List.filter (fun tag => negb (bool_decide (ltag_Name tag = "")) && negb (bool_decide (ltag_Value tag = "")))
    (map (fun tag => mkTag (TrimSpace (tag_Name tag)) (TrimSpace (tag_Value tag))) tags).

Definition streamTags (streams : list ProbeStream) : list Tag :=
  flat_map (fun stream => contractTags (ps_Tags stream)) streams.

Definition contractStreams (streams : list ProbeStream) : list Stream :=
  map (fun stream =>
    mkStream (default "other" (ps_Kind stream)) (ps_CodecName stream) (ps_SampleRateHz stream)
      (ps_Channels stream) (ps_BitRateBPS stream)) streams.

Definition longest_stream (streams : list ProbeStream) : Z :=
  foldl (fun longest stream =>
    match ps_DurationMS stream with
    | Some d => if bool_decide (longest < d) then d else longest
    | None => longest
    end) 0 streams.

Definition effectiveDuration (evidence : ProbeEvidence) : option Z :=
  let longest := longest_stream (pe_Streams evidence) in
  let fallback := if bool_decide (longest = 0) then None else Some longest in
  match pf_DurationMS (pe_Format evidence) with
  | Some d => if bool_decide (0 < d) then Some d else fallback
  | None => fallback
  end.

(** [materialize.Artifact] and [materialize.Success]. *)
Record Materialized := mkMaterialized
  { mf_ArtifactID : string; mf_RelativePath : string; mf_PathComponents : list string;
    mf_Fingerprint : string; mf_SizeBytes : Z; mf_Evidence : ProbeEvidence }.
Record Success := mkSuccess { su_RootID : string; su_Artifacts : list Materialized }.

Definition contractArtifact (artifact : Materialized) (artifactID : string) : Artifact :=
  let evidence := mf_Evidence artifact in
  mkArtifact artifactID (mf_RelativePath artifact) (mf_Fingerprint artifact) (mf_SizeBytes artifact)
    (effectiveDuration evidence) (pf_Names (pe_Format evidence))
    (contractTags (pf_Tags (pe_Format evidence)) ++ streamTags (pe_Streams evidence))
    (contractStreams (pe_Streams evidence)).

(** Tracks by release: how many there are, and which have no file. *)
Definition count_track (counts : gmap Z Z) (track : Track) : gmap Z Z :=
  <[lt_ReleaseID track := default 0 (counts !! lt_ReleaseID track) + 1]> counts.
Definition note_missing (missing : gmap Z (list Z)) (track : Track) : gmap Z (list Z) :=
  if lt_HasFile track then missing
  else <[lt_ReleaseID track := default [] (missing !! lt_ReleaseID track) ++ [lt_TrackID track]]> missing.

Fixpoint release_capabilities (albumID : Z) (counts : gmap Z Z) (missing : gmap Z (list Z))
    (albumHasFiles : bool) (artifactIDs : list string) (releases : list Release)
    : result (list Capability) :=
  match releases with
  | [] => Ok []
  | release :: rest =>
      _ ← fail_if (negb (bool_decide (default 0 (counts !! lr_ReleaseID release) = lr_TrackCount release)))
            "Lidarr release advertises another number of tracks";
      let missingTrackIDs := default [] (missing !! lr_ReleaseID release) in
      capabilities ← release_capabilities albumID counts missing albumHasFiles artifactIDs rest;
      if bool_decide (length missingTrackIDs = 0%nat) || (albumHasFiles && negb (lr_Monitored release))
      then mret capabilities
      else mret (mkCapability ActionImportMissingTracks
                   ("capability:import_missing_tracks:" +:+ pretty (lr_ReleaseID release)) albumID
                   artifactIDs (lr_ReleaseID release) missingTrackIDs :: capabilities)
  end.

Definition buildImportCapabilities (albumID : Z) (releases : list Release) (tracks : list Track)
    (artifactIDs : list string) : result (list Capability) :=
  release_capabilities albumID (foldl count_track ∅ tracks) (foldl note_missing ∅ tracks)
    (existsb lt_HasFile tracks) artifactIDs releases.

Section assemble.
Context {Quality : Type} `{!EqDecision Quality} {codec : Codec}.

Definition contractAssessment (artifactID : string) (item : ManualImport Quality) : Assessment :=
  mkAssessment artifactID (positive_id (mi_AlbumID item)) (positive_id (mi_AlbumReleaseID item))
    (normalizedPositiveList (mi_TrackIDs item) maximumAssessmentIDs)
    (mi_AudioTags item ≫= fun tags => optionalText (at_Title tags))
    (mi_AudioTags item ≫= fun tags => optionalText (at_Artist tags))
    (mi_AudioTags item ≫= fun tags => optionalText (at_Album tags))
    match mi_AudioTags item with
    | Some tags => normalizedPositiveList (at_TrackNumbers tags) maximumAssessmentIDs
    | None => []
    end
    (map (fun rejection => mr_Type rejection +:+ ": " +:+ mr_Reason rejection) (mi_Rejections item)).

Definition bindingFromImport (artifactID : string) (item : ManualImport Quality) (downloadID : string)
    : ImportBinding Quality :=
  mkBinding artifactID (mi_Path item) (mi_Quality item) (mi_IndexerFlags item) downloadID
    (mi_DisableReleaseSwitching item).

Definition byPath (manualImports : list (ManualImport Quality)) : gmap string (ManualImport Quality) :=
  foldl (fun m item => <[mi_Path item := item]> m) ∅ manualImports.

Definition incomplete (queue : QueueRecord) (album : lidarr.Album) : bool :=
  match q_AlbumID queue, q_ArtistID queue with
  | Some albumID, Some artistID =>
      negb (bool_decide (al_ID album = albumID)) || negb (bool_decide (al_ArtistID album = artistID))
  | _, _ => true
  end.

Definition contractRelease (release : lidarr.Release) : Release :=
  mkRelease (r_ID release) (r_ForeignReleaseID release) (r_Title release) (r_Disambiguation release)
    (r_Format release) (normalizedTextList (r_Countries release) maximumReleaseNames)
    (normalizedTextList (r_Labels release) maximumReleaseNames) (r_TrackCount release)
    (r_MediumCount release) (r_Monitored release).

Definition contractTrack (track : lidarr.Track) : Track :=
  mkTrack (t_ID track) (t_ReleaseID track) (t_TrackNumber track) (t_AbsoluteTrackNumber track)
    (t_MediumNumber track) (t_Title track) (t_DurationMS track) (t_HasFile track).

Definition assembleCase (observedAt : time) (queue : QueueRecord) (album : lidarr.Album)
    (tracks : list lidarr.Track) (artifacts : list Artifact) (assessments : list Assessment)
    (bindings : list (ImportBinding Quality)) (artifactIDs : list string)
    : result (Case * list (ImportBinding Quality)) :=
  _ ← fail_if (incomplete queue album || bool_decide (length artifacts = 0%nat))
        "Lidarr repair evidence is incomplete";
  let releases := map contractRelease (al_Releases album) in
  _ ← fail_if (negb (forallb (fun track => bool_decide (t_ReleaseID track ∈ map r_ID (al_Releases album)))
                       tracks))
        "Lidarr track belongs to unknown release";
  let contractTracks := map contractTrack tracks in
  _ ← fail_if (bool_decide (length releases = 0%nat) || bool_decide (length contractTracks = 0%nat))
        "Lidarr album has no release or track candidates";
  capabilities ← buildImportCapabilities (al_ID album) releases contractTracks artifactIDs;
  let unidentified (caseID : string) :=
    mkCase SchemaVersion caseID (UTC observedAt)
      (mkQueue (q_ID queue) (q_Title queue) (opaqueDownloadRef (q_DownloadID queue)) (queueMessages queue))
      (mkAlbum (al_ID album) (al_ArtistID album) (al_ArtistName album) (al_Title album) (al_Monitored album))
      releases contractTracks artifacts assessments capabilities in
  caseID ← CalculateCaseID (unidentified "");
  let repairCase := unidentified caseID in
  _ ← EncodeCase repairCase;
  mret (repairCase, bindings).

Definition assess (resolve : string -> list string -> result string) (rootID downloadID : string)
    (imports : gmap string (ManualImport Quality)) (index : nat) (artifact : Materialized)
    : result (Artifact * Assessment * ImportBinding Quality) :=
  absolutePath ← resolve rootID (mf_PathComponents artifact);
  match imports !! absolutePath with
  | None => Err "Lidarr did not assess materialized artifact"
  | Some item =>
      let artifactID := caseArtifactID index in
      mret (contractArtifact artifact artifactID, contractAssessment artifactID item,
            bindingFromImport artifactID item downloadID)
  end.

Definition Assemble (observedAt : time) (queue : QueueRecord) (album : lidarr.Album)
    (tracks : list lidarr.Track) (materialized : Success) (manualImports : list (ManualImport Quality))
    (resolve : string -> list string -> result string) : result (Case * list (ImportBinding Quality)) :=
  _ ← fail_if (incomplete queue album || bool_decide (length (su_Artifacts materialized) = 0%nat))
        "Lidarr repair evidence is incomplete";
  let imports := byPath manualImports in
  assessed ← mapM id (imap (assess resolve (su_RootID materialized) (q_DownloadID queue) imports)
                        (su_Artifacts materialized));
  assembleCase observedAt queue album tracks (map (fun x => x.1.1) assessed)
    (map (fun x => x.1.2) assessed) (map snd assessed)
    (map (fun x => lf_ArtifactID x.1.1) assessed).

(** A relative path that stays below the directory it is joined to; slashes are
    the separators of the host. *)
Definition unsafe_relative (path : string) : bool :=
  bool_decide (path = ".") || filepath.IsAbs path || negb (bool_decide (filepath.Clean path = path)) ||
  bool_decide (path = "..") || HasPrefix path "../".

Definition reassess (workspaceRoot downloadID : string) (imports : gmap string (ManualImport Quality))
    (artifact : Artifact) : result (Assessment * ImportBinding Quality) :=
  let relativePath := lf_RelativePath artifact in
  _ ← fail_if (unsafe_relative relativePath) "stored Lidarr artifact has an unsafe path";
  match imports !! filepath.Join workspaceRoot relativePath with
  | None => Err "Lidarr did not reassess stored artifact"
  | Some item => mret (contractAssessment (lf_ArtifactID artifact) item,
                       bindingFromImport (lf_ArtifactID artifact) item downloadID)
  end.

Definition AssembleStored (observedAt : time) (queue : QueueRecord) (album : lidarr.Album)
    (tracks : list lidarr.Track) (workspaceRoot : string) (artifacts : list Artifact)
    (manualImports : list (ManualImport Quality)) : result (Case * list (ImportBinding Quality)) :=
  _ ← fail_if (negb (cleanPath workspaceRoot) || bool_decide (length artifacts = 0%nat))
        "stored Lidarr repair evidence is incomplete";
  let imports := byPath manualImports in
  assessed ← mapM (reassess workspaceRoot (q_DownloadID queue) imports) artifacts;
  assembleCase observedAt queue album tracks artifacts (map fst assessed) (map snd assessed)
    (map lf_ArtifactID artifacts).
End assemble.

(** ** Authorizing an import ([authorize.go]) *)

Record Evidence (Quality : Type) := mkEvidence
  { ev_Queue : QueueRecord; ev_SourceKind : string; ev_SourcePath : string;
    ev_SourceFingerprint : string; ev_WorkspaceRoot : string; ev_Case : Case;
    ev_Bindings : list (ImportBinding Quality); ev_Recovered : bool }.
Arguments mkEvidence {Quality}.
Arguments ev_Queue {Quality}.
Arguments ev_SourceKind {Quality}.
Arguments ev_SourcePath {Quality}.
Arguments ev_SourceFingerprint {Quality}.
Arguments ev_WorkspaceRoot {Quality}.
Arguments ev_Case {Quality}.
Arguments ev_Bindings {Quality}.
Arguments ev_Recovered {Quality}.

Record AuthorizedTrack (Quality : Type) := mkAuthorizedTrack
  { au_ArtifactID : string; au_ArtifactFingerprint : string; au_TrackID : Z; au_Path : string;
    au_Quality : Quality; au_IndexerFlags : Z; au_DownloadID : string;
    au_DisableReleaseSwitching : bool }.
Arguments mkAuthorizedTrack {Quality}.
Arguments au_ArtifactID {Quality}.
Arguments au_ArtifactFingerprint {Quality}.
Arguments au_TrackID {Quality}.
Arguments au_Path {Quality}.
Arguments au_Quality {Quality}.
Arguments au_IndexerFlags {Quality}.
Arguments au_DownloadID {Quality}.
Arguments au_DisableReleaseSwitching {Quality}.

Record AuthorizedImport (Quality : Type) := mkAuthorizedImport
  { ai_CaseID : string; ai_CapabilityID : string; ai_QueueID : Z; ai_ArtistID : Z; ai_AlbumID : Z;
    ai_ReleaseID : Z; ai_Tracks : list (AuthorizedTrack Quality) }.
Arguments mkAuthorizedImport {Quality}.
Arguments ai_CaseID {Quality}.
Arguments ai_CapabilityID {Quality}.
Arguments ai_QueueID {Quality}.
Arguments ai_ArtistID {Quality}.
Arguments ai_AlbumID {Quality}.
Arguments ai_ReleaseID {Quality}.
Arguments ai_Tracks {Quality}.

Section authorize.
Context {Quality : Type} `{!EqDecision Quality} {codec : Codec}.

Definition bindingsByArtifact (bindings : list (ImportBinding Quality))
    : gmap string (ImportBinding Quality) :=
  foldl (fun m binding => <[ib_ArtifactID binding := binding]> m) ∅ bindings.

Definition fingerprintsByArtifact (artifacts : list Artifact) : gmap string string :=
  foldl (fun m artifact => <[lf_ArtifactID artifact := lf_Fingerprint artifact]> m) ∅ artifacts.

Definition authorizeMapping (current : Evidence Quality) (mapping : TrackMapping)
    : result (AuthorizedTrack Quality) :=
  match bindingsByArtifact (ev_Bindings current) !! tm_ArtifactID mapping,
        fingerprintsByArtifact (lc_Artifacts (ev_Case current)) !! tm_ArtifactID mapping with
  | Some binding, Some fingerprint =>
      match ib_Quality binding with
      | None => Err "Lidarr import mapping has no complete current binding"
      | Some quality =>
          _ ← fail_if (negb (bool_decide (ib_DownloadID binding = q_DownloadID (ev_Queue current))))
                "Lidarr import mapping has no complete current binding";
          mret (mkAuthorizedTrack (tm_ArtifactID mapping) fingerprint (tm_TrackID mapping)
                  (ib_Path binding) quality (ib_IndexerFlags binding) (ib_DownloadID binding)
                  (existsb lt_HasFile (lc_Tracks (ev_Case current))))
      end
  | _, _ => Err "Lidarr import mapping has no complete current binding"
  end.

Definition track_le (a b : AuthorizedTrack Quality) : Prop := au_TrackID a <= au_TrackID b.
#[global] Instance track_le_dec : RelDecision track_le.
Proof. intros a b. unfold track_le. apply _. Defined.

(** The authorized import, or [None] for a decision not to repair. *)
Definition AuthorizeImport (planned : Record_ Quality) (current : Evidence Quality)
    : result (option (AuthorizedImport Quality)) :=
  plannedCase ← DecodeCase (rec_Case planned);
  decision ← DecodeDecision (rec_Decision planned);
  if bool_decide (ld_Kind decision = ActionNoRepair) then mret None
  else
    _ ← fail_if (negb (bool_decide (rec_QueueID planned = q_ID (ev_Queue current))) ||
                 negb (bool_decide (rec_QueueID planned = lq_QueueID (lc_Queue (ev_Case current)))) ||
                 negb (bool_decide (rec_SourceKind planned = ev_SourceKind current)) ||
                 negb (bool_decide (rec_SourcePath planned = ev_SourcePath current)) ||
                 negb (bool_decide (rec_SourceFingerprint planned = ev_SourceFingerprint current)) ||
                 negb (bool_decide (rec_WorkspaceRoot planned = ev_WorkspaceRoot current)))
          "current Lidarr evidence does not match the planned case";
    _ ← fail_if (negb (bool_decide (rec_Bindings planned = ev_Bindings current)))
          "current Lidarr import bindings changed after planning";
    _ ← (if ev_Recovered current then validateDecisionSelection (ev_Case current) decision
         else
           _ ← fail_if (negb (bool_decide (lc_CaseID plannedCase = lc_CaseID (ev_Case current))))
                 "current Lidarr evidence does not match the planned case";
           ValidateDecision (ev_Case current) decision);
    match ld_ImportMissingTracks decision with
    | None => Err "Lidarr import decision is missing"
    | Some selected =>
        tracks ← mapM (authorizeMapping current) (im_Mappings selected);
        mret (Some (mkAuthorizedImport (lc_CaseID plannedCase) (im_CapabilityID selected)
                      (q_ID (ev_Queue current)) (la_ArtistID (lc_Album (ev_Case current)))
                      (im_AlbumID selected) (im_ReleaseID selected) (merge_sort track_le tracks)))
    end.

(** ** The import command and its completion ([repairlidarr/adapter.go]) *)

Definition importCommand (authorized : AuthorizedImport Quality) : list (ManualImportCommandFile Quality) :=
  map (fun track =>
    mkCommandFile (au_Path track) (ai_ArtistID authorized) (ai_AlbumID authorized)
      (ai_ReleaseID authorized) (au_TrackID track) (Some (au_Quality track)) (au_IndexerFlags track) ""
      (au_DisableReleaseSwitching track)) (ai_Tracks authorized).

(** The tracks of the history that confirm files of the request. *)
Definition confirmedTracks (history : list ImportedTrack) (historyIDBefore : Z) (startedAt : time)
    (files : list (ManualImportCommandFile Quality)) : list ImportedTrack :=
  omap (fun file =>
    FindImportedTrack history
      (mkImportedTrackMatch (cf_TrackID file) "" (cf_Path file) historyIDBefore startedAt)) files.

(** What [CheckImport] learns; a receipt stands for the JSON of its tracks. *)
Record ImportStatus := mkImportStatus { st_Receipt : option (list ImportedTrack); st_Failure : string }.

Definition CommandStatus (command : Command) (requireResult : bool) : result ImportStatus :=
  disposition ← ClassifyImportCommand command requireResult;
  match disposition with
  | ImportCommandPending => mret (mkImportStatus None "")
  | _ => mret (mkImportStatus None
                 ("import command " +:+ pretty (com_ID command) +:+
                  " finished without matching import history: " +:+ com_Message command))
  end.

Definition CheckImport (ReadImportedTracks : Z -> result (list ImportedTrack))
    (ReadManualImportCommand : Z -> result Command) (files : list (ManualImportCommandFile Quality))
    (historyIDBefore commandID : Z) (importStartedAt : time) : result ImportStatus :=
  match files with
  | [] => Err "stored import has no selected tracks"
  | first :: _ =>
      history ← ReadImportedTracks (cf_AlbumID first);
      let confirmed := confirmedTracks history historyIDBefore importStartedAt files in
      if bool_decide (length confirmed = length files) then mret (mkImportStatus (Some confirmed) "")
      else if bool_decide (commandID = 0) then mret (mkImportStatus None "")
      else
        command ← ReadManualImportCommand commandID;
        CommandStatus command false
  end.
End authorize.

(** ** Collecting the current evidence ([runner.go])

    The answers of the worker and of Lidarr are arguments, an answer for each
    call; [findArchive] and the verification of stored files read the file
    system. *)
Section collect.
Context {Quality : Type} `{!EqDecision Quality} {codec : Codec}.

Definition eligibleQueueWithoutIdentity (queue : QueueRecord) : bool :=
  negb (bool_decide (q_OutputPath queue = "")) && negb (bool_decide (q_DownloadID queue = "")) &&
  bool_decide (q_Status queue = "completed") && bool_decide (q_TrackedDownloadStatus queue = "warning").

Definition eligibleQueue (queue : QueueRecord) : bool :=
  match q_AlbumID queue, q_ArtistID queue with
  | Some _, Some _ => eligibleQueueWithoutIdentity queue
  | _, _ => false
  end.

(** [readCatalog]: the album, and the tracks of its releases in order. *)
Definition readCatalog (ReadAlbum : Z -> result lidarr.Album)
    (ReadReleaseTracks : Z -> Z -> result (list lidarr.Track)) (queue : QueueRecord)
    : result (lidarr.Album * list lidarr.Track) :=
  match q_AlbumID queue with
  | None => Err "panic: nil dereference"
  | Some albumID =>
      album ← ReadAlbum albumID;
      tracks ← mapM (fun release => ReadReleaseTracks (al_ID album) (r_ID release)) (al_Releases album);
      mret (album, concat tracks)
  end.

Context (ReadAlbum : Z -> result lidarr.Album)
  (ReadReleaseTracks : Z -> Z -> result (list lidarr.Track))
  (ReadManualImports : string -> Z -> result (list (ManualImport Quality)))
  (resolve : string -> list string -> result string) (now : time).

Definition assembleMaterializedEvidence (queue : QueueRecord) (sourceKind sourcePath : string)
    (fingerprint : string) (workspaceComponents : list string) (operationMatches : bool)
    (materialized : Success) : result (Evidence Quality) :=
  _ ← fail_if (negb operationMatches) "worker returned the wrong materialization operation";
  resolved ← resolve (su_RootID materialized) workspaceComponents;
  let root := filepath.Clean resolved in
  catalog ← readCatalog ReadAlbum ReadReleaseTracks queue;
  let '(album, tracks) := catalog in
  match q_ArtistID queue with
  | None => Err "panic: nil dereference"
  | Some artistID =>
      manualImports ← ReadManualImports root artistID;
      assembled ← Assemble now queue album tracks materialized manualImports resolve;
      let '(repairCase, bindings) := assembled in
      mret (mkEvidence queue sourceKind sourcePath fingerprint root repairCase bindings false)
  end.

Definition stored_mismatch (queue : QueueRecord) (planned : Record_ Quality) (plannedCase : Case) : bool :=
  negb (bool_decide (rec_QueueID planned = q_ID queue)) ||
  negb (bool_decide (lq_QueueID (lc_Queue plannedCase) = q_ID queue)) ||
  negb (bool_decide (q_AlbumID queue = Some (la_AlbumID (lc_Album plannedCase)))) ||
  negb (bool_decide (q_ArtistID queue = Some (la_ArtistID (lc_Album plannedCase)))).

Definition buildStoredEvidence (verifyStoredArtifacts : result unit) (queue : QueueRecord)
    (planned : Record_ Quality) : result (Evidence Quality) :=
  plannedCase ← DecodeCase (rec_Case planned);
  _ ← fail_if (stored_mismatch queue planned plannedCase)
        "stored Lidarr case does not match the current queue item";
  _ ← fail_if (negb (forallb (fun binding => bool_decide (ib_DownloadID binding = q_DownloadID queue))
                       (rec_Bindings planned)))
        "stored Lidarr binding changed download identity";
  _ ← verifyStoredArtifacts;
  catalog ← readCatalog ReadAlbum ReadReleaseTracks queue;
  let '(album, tracks) := catalog in
  match q_ArtistID queue with
  | None => Err "panic: nil dereference"
  | Some artistID =>
      manualImports ← ReadManualImports (rec_WorkspaceRoot planned) artistID;
      assembled ← AssembleStored now queue album tracks (rec_WorkspaceRoot planned)
                    (lc_Artifacts plannedCase) manualImports;
      let '(repairCase, bindings) := assembled in
      mret (mkEvidence queue (rec_SourceKind planned) (rec_SourcePath planned)
              (rec_SourceFingerprint planned) (rec_WorkspaceRoot planned) repairCase bindings true)
  end.
End collect.
End lidarrrepair.
