(* ===== verification/LidarrSafety.v ===== *)
(** * What an authorized Lidarr import may do

    The import that is authorized against the current evidence adds missing
    tracks of one release and nothing else, from the files that were bound when
    the repair was planned; and an import counts as complete exactly when the
    history that follows it has an entry for every file. *)
From stdpp Require Import base strings list gmap sorting.
From S2P Require Import Prelude GoStrings LidarrContracts LidarrState LidarrRepair.
Import lidarrcontracts lidarrstate lidarr lidarrcontracts servarr lidarrrepair.

(** ** Loops *)

Lemma elem_of_map_inv {A B} (f : A -> B) l y : y ∈ map f l -> exists x, f x = y /\ x ∈ l.
Proof. rewrite list_elem_of_In, List.in_map_iff. setoid_rewrite <- list_elem_of_In. done. Qed.

Lemma foldl_insert_elem {A} (key : A -> string) (l : list A) (m : gmap string A) k x :
  foldl (fun m x => <[key x := x]> m) m l !! k = Some x ->
  (x ∈ l /\ key x = k) \/ m !! k = Some x.
Proof.
  revert m. induction l as [|y l IH]; intros m; simpl; [by right|]. intros [[Hx Hk]|H]%IH.
  - left. split; [by right|done].
  - destruct (decide (key y = k)) as [<-|Hne].
    + rewrite lookup_insert_eq in H. injection H as <-. left. split; [left|done].
    + rewrite lookup_insert_ne in H by done. by right.
Qed.

Lemma note_missing_lookup tracks missing release :
  default [] (foldl note_missing missing tracks !! release) =
  default [] (missing !! release) ++
  map lt_TrackID (List.filter (fun t => bool_decide (lt_ReleaseID t = release) && negb (lt_HasFile t)) tracks).
Proof.
  revert missing. induction tracks as [|t tracks IH]; intros missing; simpl; [by rewrite app_nil_r|].
  rewrite IH. unfold note_missing. destruct (lt_HasFile t); simpl.
  - by rewrite andb_false_r.
  - rewrite andb_true_r. destruct (decide (lt_ReleaseID t = release)) as [<-|Hne].
    + rewrite lookup_insert_eq, bool_decide_true by done. simpl. by rewrite <- app_assoc.
    + rewrite lookup_insert_ne, bool_decide_false by done. done.
Qed.

(** A track that a capability offers is missing from its release. *)
Lemma release_capabilities_elem albumID counts tracks hasFiles artifactIDs releases capabilities c :
  release_capabilities albumID counts (foldl note_missing ∅ tracks) hasFiles artifactIDs releases
    = Ok capabilities -> c ∈ capabilities ->
  cap_AlbumID c = albumID /\ exists release, release ∈ releases /\ lr_ReleaseID release = cap_ReleaseID c /\
    (hasFiles = true -> lr_Monitored release = true) /\
    forall id, id ∈ cap_TrackIDs c ->
      exists t, t ∈ tracks /\ lt_TrackID t = id /\ lt_ReleaseID t = lr_ReleaseID release /\ lt_HasFile t = false.
Proof.
  revert capabilities. induction releases as [|release releases IH]; intros capabilities.
  { intros [= <-]. by intros ?%elem_of_nil. }
  cbn [release_capabilities]. intros H. apply bind_Ok in H as (u & _ & H).
  apply bind_Ok in H as (rest & Hrest & H). rewrite note_missing_lookup in H. simpl in H.
  assert (c ∈ rest -> cap_AlbumID c = albumID /\ exists r, r ∈ release :: releases /\
    lr_ReleaseID r = cap_ReleaseID c /\ (hasFiles = true -> lr_Monitored r = true) /\
    forall id, id ∈ cap_TrackIDs c -> exists t, t ∈ tracks /\ lt_TrackID t = id /\
      lt_ReleaseID t = lr_ReleaseID r /\ lt_HasFile t = false) as Hin.
  { intros (? & r & Hr & Hc)%(IH _ Hrest). split; [done|]. exists r. split; [by right|done]. }
  destruct (bool_decide _ || _) eqn:E; injection H as <-; [done|].
  intros [->|Hc]%elem_of_cons; [|by apply Hin]. split; [done|]. exists release. simpl.
  split_and!; [left|done| |].
  - intros ->. apply orb_false_iff in E as [_ E]. by destruct (lr_Monitored release).
  - intros id Hid. apply elem_of_map_inv in Hid as (t & <- & Ht).
    apply list_elem_of_In, List.filter_In in Ht as [Ht Hf].
    apply andb_true_iff in Hf as [Hr%bool_decide_eq_true Hf%negb_true_iff].
    exists t. split_and!; try done. by apply list_elem_of_In.
Qed.

(** Validated mappings are within the capability and repeat nothing. *)
Lemma validateMappings_Ok c artifacts tracks mappings :
  validateMappings c artifacts tracks mappings = Ok tt ->
  Forall (fun m => tm_ArtifactID m ∈ cap_ArtifactIDs c /\ tm_TrackID m ∈ cap_TrackIDs c) mappings /\
  NoDup (map tm_ArtifactID mappings) /\ NoDup (map tm_TrackID mappings) /\
  (forall m, m ∈ mappings -> (tm_ArtifactID m ∉ artifacts) /\ (tm_TrackID m ∉ tracks)).
Proof.
  revert artifacts tracks. induction mappings as [|m mappings IH]; intros artifacts tracks.
  { intros _. split_and!; try constructor; by apply elem_of_nil in H. }
  cbn [validateMappings]. intros H. apply bind_Ok in H as (u & Hc & H). apply bind_Ok in H as (u1 & Ha & H).
  apply bind_Ok in H as (u2 & Ht & H). apply fail_if_Ok in Hc, Ha, Ht. split_bool.
  destruct (IH _ _ H) as (HF & Hda & Hdt & Hfresh). split_and!.
  - by constructor.
  - constructor; [|done]. intros (m' & E & Hm)%elem_of_map_inv.
    apply Hfresh in Hm as [Hm _]. apply Hm. rewrite E. left.
  - constructor; [|done]. intros (m' & E & Hm)%elem_of_map_inv.
    apply Hfresh in Hm as [_ Hm]. apply Hm. rewrite E. left.
  - intros m' [->|Hm]%elem_of_cons; [done|]. apply Hfresh in Hm as [? ?]. set_solver.
Qed.

(** ** The assembled case *)
Section assembled.
Context {Quality : Type} `{!EqDecision Quality} {codec : Codec}.

(** What a case and its bindings have in common with the answers of Lidarr. *)
Record assembled (queue : QueueRecord) (album : lidarr.Album) (tracks : list lidarr.Track)
    (repairCase : Case) : Prop := mkAssembled
  { asm_album : la_AlbumID (lc_Album repairCase) = al_ID album;
    asm_artist : la_ArtistID (lc_Album repairCase) = al_ArtistID album;
    asm_queue : q_AlbumID queue = Some (al_ID album) /\ q_ArtistID queue = Some (al_ArtistID album);
    asm_tracks : lc_Tracks repairCase = map contractTrack tracks;
    asm_capabilities : exists artifactIDs,
      buildImportCapabilities (al_ID album) (map contractRelease (al_Releases album))
        (lc_Tracks repairCase) artifactIDs = Ok (lc_Capabilities repairCase) }.

Lemma assembleCase_Ok observedAt queue album tracks artifacts assessments
    (bindings bindings' : list (ImportBinding Quality)) artifactIDs repairCase :
  assembleCase observedAt queue album tracks artifacts assessments bindings artifactIDs
    = Ok (repairCase, bindings') ->
  assembled queue album tracks repairCase.
Proof.
  unfold assembleCase. intros H. apply bind_Ok in H as (u & Hi & H). apply bind_Ok in H as (u1 & _ & H).
  apply bind_Ok in H as (u2 & _ & H). apply bind_Ok in H as (capabilities & Hc & H).
  apply bind_Ok in H as (caseID & _ & H). apply bind_Ok in H as (data & _ & H). injection H as <- _.
  apply fail_if_Ok, orb_false_iff in Hi as [Hi _]. unfold incomplete in Hi.
  destruct (q_AlbumID queue) eqn:EA; [|done]. destruct (q_ArtistID queue) eqn:ER; [|done]. split_bool.
  constructor; simpl; [done|done| |done|eauto]. rewrite EA, ER. split; congruence.
Qed.

Lemma Assemble_Ok observedAt queue album tracks materialized (imports : list (ManualImport Quality)) resolve
    repairCase bindings :
  Assemble observedAt queue album tracks materialized imports resolve = Ok (repairCase, bindings) ->
  assembled queue album tracks repairCase.
Proof.
  unfold Assemble. intros H. apply bind_Ok in H as (u & _ & H). apply bind_Ok in H as (assessed & _ & H).
  by eapply assembleCase_Ok.
Qed.

Lemma AssembleStored_Ok observedAt queue album tracks root artifacts (imports : list (ManualImport Quality))
    repairCase bindings :
  AssembleStored observedAt queue album tracks root artifacts imports = Ok (repairCase, bindings) ->
  assembled queue album tracks repairCase.
Proof.
  unfold AssembleStored. intros H. apply bind_Ok in H as (u & _ & H). apply bind_Ok in H as (assessed & _ & H).
  by eapply assembleCase_Ok.
Qed.

(** A capability of the case, in terms of the catalogue. *)
Lemma assembled_capability queue album tracks repairCase c :
  assembled queue album tracks repairCase -> c ∈ lc_Capabilities repairCase ->
  cap_AlbumID c = al_ID album /\ exists release, release ∈ al_Releases album /\
    r_ID release = cap_ReleaseID c /\
    (existsb t_HasFile tracks = true -> r_Monitored release = true) /\
    forall id, id ∈ cap_TrackIDs c ->
      exists t, t ∈ tracks /\ t_ID t = id /\ t_ReleaseID t = r_ID release /\ t_HasFile t = false.
Proof.
  intros [_ _ _ Ht (artifactIDs & Hb)] Hc. unfold buildImportCapabilities in Hb. rewrite Ht in Hb.
  destruct (release_capabilities_elem _ _ _ _ _ _ _ _ Hb Hc) as (Ha & release & Hr & Hid & Hm & Htr).
  split; [done|]. apply elem_of_map_inv in Hr as (release0 & <- & Hr). exists release0.
  split_and!; [done|done| |].
  - intros Hf. apply Hm. apply existsb_bool in Hf as (t & Ht1 & Ht2).
    apply existsb_bool. exists (contractTrack t). split; [|done]. apply list_elem_of_In, List.in_map. by apply list_elem_of_In.
  - intros id (t & Ht1 & <- & Hrel & Hf)%Htr. apply elem_of_map_inv in Ht1 as (t0 & <- & Ht0).
    by exists t0.
Qed.
End assembled.

(** ** The authorized import *)
Section authorized.
Context {Quality : Type} `{!EqDecision Quality} {codec : Codec}.

(** A track that is authorized for a mapping comes from a binding. *)
Definition bound_track (current : Evidence Quality) (mapping : TrackMapping)
    (track : AuthorizedTrack Quality) : Prop :=
  au_ArtifactID track = tm_ArtifactID mapping /\ au_TrackID track = tm_TrackID mapping /\
  au_DisableReleaseSwitching track = existsb lt_HasFile (lc_Tracks (ev_Case current)) /\
  exists binding, binding ∈ ev_Bindings current /\ ib_ArtifactID binding = au_ArtifactID track /\
    au_Path track = ib_Path binding /\ ib_Quality binding = Some (au_Quality track) /\
    ib_DownloadID binding = q_DownloadID (ev_Queue current).

Lemma authorizeMapping_Ok current mapping track :
  authorizeMapping current mapping = Ok track -> bound_track current mapping track.
Proof.
  unfold authorizeMapping. intros H.
  destruct (bindingsByArtifact _ !! _) as [binding|] eqn:Eb; [|done].
  destruct (fingerprintsByArtifact _ !! _) as [fingerprint|]; [|done].
  destruct (ib_Quality binding) as [quality|] eqn:Eq; [|done].
  apply bind_Ok in H as (u & Hd & H). injection H as <-. apply fail_if_Ok, negb_false_iff, bool_decide_eq_true in Hd.
  unfold bindingsByArtifact in Eb. apply foldl_insert_elem in Eb as [[Hin Hid]|?]; [|done].
  split_and!; try done. exists binding. done.
Qed.

(** The parts of a decision that was validated against a case. *)
Lemma selection_Ok repairCase decision selected :
  validateDecisionSelection repairCase decision = Ok tt ->
  ld_Kind decision <> ActionNoRepair -> ld_ImportMissingTracks decision = Some selected ->
  exists c, c ∈ lc_Capabilities repairCase /\ cap_CapabilityID c = im_CapabilityID selected /\
    cap_AlbumID c = im_AlbumID selected /\ cap_ReleaseID c = im_ReleaseID selected /\
    im_Mappings selected <> [] /\ validateMappings c [] [] (im_Mappings selected) = Ok tt.
Proof.
  intros H Hk Hs. unfold validateDecisionSelection in H.
  apply bind_Ok in H as (u & _ & H). apply bind_Ok in H as (u1 & _ & H).
  rewrite bool_decide_false in H by done. rewrite Hs in H. destruct (bool_decide _); [|done].
  apply bind_Ok in H as (u2 & _ & H). destruct (List.find _ _) as [c|] eqn:Ef; [|done].
  apply List.find_some in Ef as [Hin%list_elem_of_In Hid%bool_decide_eq_true].
  apply bind_Ok in H as (u3 & _ & H). apply bind_Ok in H as (u4 & Hal & H).
  apply bind_Ok in H as (u5 & Hm & H). destruct_units. apply fail_if_Ok in Hal, H. split_bool.
  exists c. split_and!; try done. by destruct (im_Mappings selected).
Qed.

Lemma AuthorizeImport_Ok planned current authorized :
  AuthorizeImport planned current = Ok (Some authorized) ->
  exists selected tracks c,
    ai_AlbumID authorized = im_AlbumID selected /\ ai_ReleaseID authorized = im_ReleaseID selected /\
    ai_ArtistID authorized = la_ArtistID (lc_Album (ev_Case current)) /\
    rec_Bindings planned = ev_Bindings current /\
    ai_Tracks authorized = merge_sort track_le tracks /\
    Forall2 (bound_track current) (im_Mappings selected) tracks /\
    c ∈ lc_Capabilities (ev_Case current) /\ cap_AlbumID c = im_AlbumID selected /\
    cap_ReleaseID c = im_ReleaseID selected /\ im_Mappings selected <> [] /\
    validateMappings c [] [] (im_Mappings selected) = Ok tt.
Proof.
  unfold AuthorizeImport. intros H. apply bind_Ok in H as (plannedCase & _ & H).
  apply bind_Ok in H as (decision & _ & H).
  destruct (bool_decide (ld_Kind decision = ActionNoRepair)) eqn:Hk; [done|].
  apply bool_decide_eq_false in Hk. apply bind_Ok in H as (u & _ & H).
  apply bind_Ok in H as (u1 & Hb & H). apply fail_if_Ok, negb_false_iff, bool_decide_eq_true in Hb.
  apply bind_Ok in H as (u2 & Hv & H). destruct_units.
  destruct (ld_ImportMissingTracks decision) as [selected|] eqn:Hs; [|done].
  apply bind_Ok in H as (tracks & Ht%mapM_Ok & H). injection H as <-.
  assert (validateDecisionSelection (ev_Case current) decision = Ok tt) as Hsel.
  { destruct (ev_Recovered current); [done|]. apply bind_Ok in Hv as (u & _ & Hv).
    unfold ValidateDecision in Hv. by apply bind_Ok in Hv as (u' & _ & Hv). }
  destruct (selection_Ok _ _ _ Hsel Hk Hs) as (c & Hc & _ & Ha & Hr & Hne & Hm).
  exists selected, tracks, c. split_and!; try done.
  eapply Forall2_impl; [exact Ht|]. intros m t. apply authorizeMapping_Ok.
Qed.

Lemma AuthorizeImport_root (planned : Record_ Quality) (current : Evidence Quality) authorized :
  AuthorizeImport planned current = Ok (Some authorized) ->
  ev_WorkspaceRoot current = rec_WorkspaceRoot planned.
Proof.
  unfold AuthorizeImport. intros H. apply bind_Ok in H as (plannedCase & _ & H).
  apply bind_Ok in H as (decision & _ & H). destruct (bool_decide (ld_Kind decision = ActionNoRepair)); [done|].
  apply bind_Ok in H as (u & Hsame%fail_if_Ok & _). apply orb_false_iff in Hsame as [_ Hroot].
  by apply negb_false_iff, bool_decide_eq_true in Hroot.
Qed.

(** Mapped tracks are sorted strictly. *)
Lemma bound_tracks_sorted current mappings tracks :
  Forall2 (bound_track current) mappings tracks -> NoDup (map tm_TrackID mappings) ->
  StronglySorted (fun a b => au_TrackID a < au_TrackID b) (merge_sort track_le tracks).
Proof.
  intros HF Hnd. assert (map tm_TrackID mappings = map au_TrackID tracks) as E.
  { induction HF as [|m t ms ts (_ & Ht & _) _ IH]; [done|]. simpl. rewrite Ht. f_equal.
    apply IH. by inversion Hnd. }
  rewrite E in Hnd. assert (NoDup (map au_TrackID (merge_sort track_le tracks))) as Hnd'.
  { eapply NoDup_Permutation_proper; [|exact Hnd]. apply Permutation_map, merge_sort_Permutation. }
  assert (StronglySorted track_le (merge_sort track_le tracks)) as Hs.
  { assert (Transitive (track_le (Quality := Quality))) by (intros a b c; unfold track_le; lia).
    assert (Total (track_le (Quality := Quality))) by (intros a b; unfold track_le; lia).
    apply StronglySorted_merge_sort; apply _. }
  clear -Hnd' Hs. induction Hs as [|t ts Hs IH Ht]; [constructor|]. simpl in Hnd'.
  apply NoDup_cons in Hnd' as [Hn Hnd']. constructor; [by apply IH|].
  rewrite Forall_forall in *. intros t' Hin. specialize (Ht t' Hin). unfold track_le in Ht.
  assert (au_TrackID t <> au_TrackID t'); [|lia]. intros E. apply Hn. rewrite E.
  apply list_elem_of_In, List.in_map. by apply list_elem_of_In.
Qed.
End authorized.

(** ** Imports only add missing tracks *)
Section imports.
Context {Quality : Type} `{!EqDecision Quality} {codec : Codec}.
Context (ReadAlbum : Z -> result lidarr.Album)
  (ReadReleaseTracks : Z -> Z -> result (list lidarr.Track))
  (ReadManualImports : string -> Z -> result (list (ManualImport Quality)))
  (resolve : string -> list string -> result string).

(** The two ways the evidence of a queue item is collected. *)
Inductive collected (current : Evidence Quality) : Prop :=
| from_materialized now queue kind path fingerprint components matches materialized :
    assembleMaterializedEvidence ReadAlbum ReadReleaseTracks ReadManualImports resolve now queue kind path
      fingerprint components matches materialized = Ok current -> collected current
| from_stored now verified queue planned :
    buildStoredEvidence ReadAlbum ReadReleaseTracks ReadManualImports now verified queue planned
      = Ok current -> collected current.

Lemma collected_assembled current :
  collected current ->
  exists album tracks, readCatalog ReadAlbum ReadReleaseTracks (ev_Queue current) = Ok (album, tracks) /\
    assembled (ev_Queue current) album tracks (ev_Case current).
Proof.
  intros [now queue kind path fingerprint components matches materialized H|now verified queue planned H].
  - unfold assembleMaterializedEvidence in H. apply bind_Ok in H as (u & _ & H).
    apply bind_Ok in H as (root & _ & H). apply bind_Ok in H as ([album tracks] & Hc & H).
    destruct (q_ArtistID queue); [|done]. apply bind_Ok in H as (imports & _ & H).
    apply bind_Ok in H as ([repairCase bindings] & Ha%Assemble_Ok & H). injection H as <-. eauto.
  - unfold buildStoredEvidence in H. apply bind_Ok in H as (plannedCase & _ & H).
    apply bind_Ok in H as (u & _ & H). apply bind_Ok in H as (u1 & _ & H). apply bind_Ok in H as (u2 & _ & H).
    apply bind_Ok in H as ([album tracks] & Hc & H).
    destruct (q_ArtistID queue); [|done]. apply bind_Ok in H as (imports & _ & H).
    apply bind_Ok in H as ([repairCase bindings] & Ha%AssembleStored_Ok & H). injection H as <-. eauto.
Qed.

(** The import adds missing tracks of one release of the queue's album and does
    nothing else. There is at least one track, in strictly increasing order; the
    catalogue that was read has each of them in that release without a file; no
    two come from the same artifact; each is imported from a file bound to its
    artifact when the repair was planned, of the same download. When the album
    has files already the release is the monitored one and Lidarr is told not to
    switch releases. *)
Definition adds_missing (planned : Record_ Quality) (current : Evidence Quality)
    (authorized : AuthorizedImport Quality) : Prop :=
  exists album tracks release,
    readCatalog ReadAlbum ReadReleaseTracks (ev_Queue current) = Ok (album, tracks) /\
    q_AlbumID (ev_Queue current) = Some (ai_AlbumID authorized) /\
    q_ArtistID (ev_Queue current) = Some (ai_ArtistID authorized) /\
    release ∈ al_Releases album /\ r_ID release = ai_ReleaseID authorized /\
    (existsb t_HasFile tracks = true -> r_Monitored release = true) /\
    ai_Tracks authorized <> [] /\
    StronglySorted (fun a b => au_TrackID a < au_TrackID b) (ai_Tracks authorized) /\
    NoDup (map au_ArtifactID (ai_Tracks authorized)) /\
    forall t, t ∈ ai_Tracks authorized ->
      au_DisableReleaseSwitching t = existsb t_HasFile tracks /\
      (exists track, track ∈ tracks /\ t_ID track = au_TrackID t /\
         t_ReleaseID track = ai_ReleaseID authorized /\ t_HasFile track = false) /\
      (exists binding, binding ∈ rec_Bindings planned /\ ib_ArtifactID binding = au_ArtifactID t /\
         ib_Path binding = au_Path t /\ ib_Quality binding = Some (au_Quality t) /\
         ib_DownloadID binding = q_DownloadID (ev_Queue current)).

(** An import that is authorized against evidence collected now adds missing
    tracks. *)
Theorem authorized_import_adds_missing planned current authorized :
  collected current -> AuthorizeImport planned current = Ok (Some authorized) ->
  adds_missing planned current authorized.
Proof.
  intros (album & tracks & Hcat & Hasm)%collected_assembled Hauth.
  apply AuthorizeImport_Ok in Hauth
    as (selected & mapped & c & HA & HR & HAr & Hb & Hts & HF & Hc & HcA & HcR & Hne & Hm).
  apply validateMappings_Ok in Hm as (Hin & Hda & Hdt & _).
  destruct (assembled_capability _ _ _ _ _ Hasm Hc) as (Hal & release & Hrel & Hrid & Hmon & Hmiss).
  destruct Hasm as [_ Hart [HqA HqR] Htracks _].
  exists album, tracks, release. split_and!; try done; try congruence.
  - rewrite Hts. intros E. apply Hne. assert (mapped = []) as ->.
    { apply Permutation_nil_r. rewrite <- E. symmetry. apply merge_sort_Permutation. }
    by inversion HF.
  - rewrite Hts. by eapply bound_tracks_sorted.
  - rewrite Hts. eapply NoDup_Permutation_proper; [apply Permutation_map, merge_sort_Permutation|].
    assert (map tm_ArtifactID (im_Mappings selected) = map au_ArtifactID mapped) as <-; [|done].
    clear -HF. induction HF as [|m t ms ts (Ht & _) _ IH]; [done|]. simpl. by rewrite Ht, IH.
  - intros t Ht. rewrite Hts, merge_sort_Permutation in Ht.
    apply list_elem_of_lookup in Ht as [i Hi].
    destruct (Forall2_lookup_r _ _ _ _ _ HF Hi) as (m & Hmi & Ha & Hid & Hsw & binding & Hbin & Hrest).
    rewrite Forall_forall in Hin. apply list_elem_of_lookup_2 in Hmi.
    destruct (Hin _ Hmi) as [_ Htc]. split_and!.
    + rewrite Hsw, Htracks. clear. induction tracks as [|x l IH]; [done|]. simpl. by rewrite IH.
    + destruct (Hmiss _ Htc) as (track & Htrack & Htid & Htrel & Hfile). exists track. split_and!; try done; congruence.
    + exists binding. rewrite Hb. destruct Hrest as (? & ? & ? & ?). done.
Qed.
End imports.

(** ** An import is complete when history says so *)
Section receipts.
Context {Quality : Type} `{!EqDecision Quality}.

(** An entry of the history after the request that confirms a file. *)
Definition confirms (before : list ImportedTrack) (startedAt : time)
    (file : ManualImportCommandFile Quality) (imported : ImportedTrack) : Prop :=
  it_TrackID imported = cf_TrackID file /\ it_DroppedPath imported = cf_Path file /\
  t_ns startedAt <= t_ns (it_OccurredAt imported) /\ 0 < it_HistoryID imported /\
  Forall (fun old => it_HistoryID old < it_HistoryID imported) before.

Lemma highest_lt before id :
  HighestImportedTrackHistoryID before < id <->
  0 < id /\ Forall (fun old => it_HistoryID old < id) before.
Proof.
  unfold HighestImportedTrackHistoryID. generalize 0 as highest.
  induction before as [|old before IH]; intros highest; simpl.
  - split; [by split|]. by intros [? _].
  - rewrite IH, Forall_cons. case_bool_decide; split; intros; destruct_and?; split_and?; done || lia.
Qed.

Lemma matches_confirms before startedAt file imported :
  matches (mkImportedTrackMatch (cf_TrackID file) "" (cf_Path file)
             (HighestImportedTrackHistoryID before) startedAt) imported = true <->
  confirms before startedAt file imported.
Proof.
  unfold matches, confirms, Before. simpl. rewrite !andb_true_iff, negb_true_iff, bool_decide_eq_false,
    !bool_decide_eq_true, highest_lt. intuition lia.
Qed.

Lemma confirmedTracks_cons history id startedAt (file : ManualImportCommandFile Quality) files :
  confirmedTracks history id startedAt (file :: files) =
  match FindImportedTrack history
          (mkImportedTrackMatch (cf_TrackID file) "" (cf_Path file) id startedAt) with
  | Some imported => imported :: confirmedTracks history id startedAt files
  | None => confirmedTracks history id startedAt files
  end.
Proof. done. Qed.

Lemma confirmedTracks_le history id startedAt (files : list (ManualImportCommandFile Quality)) :
  (length (confirmedTracks history id startedAt files) <= length files)%nat.
Proof.
  induction files as [|file files IH]; [done|]. rewrite confirmedTracks_cons.
  destruct (FindImportedTrack _ _); simpl; lia.
Qed.

Lemma confirmedTracks_all history before startedAt (files : list (ManualImportCommandFile Quality)) :
  length (confirmedTracks history (HighestImportedTrackHistoryID before) startedAt files) = length files <->
  Forall2 (fun file imported => imported ∈ history /\ confirms before startedAt file imported) files
    (confirmedTracks history (HighestImportedTrackHistoryID before) startedAt files).
Proof.
  split; [|intros H; symmetry; by eapply Forall2_length].
  induction files as [|file files IH]; [constructor|]. rewrite confirmedTracks_cons.
  destruct (FindImportedTrack _ _) as [imported|] eqn:E.
  - intros Hl. injection Hl as Hl. constructor; [|by apply IH].
    apply List.find_some in E as [Hin Hm]. split; [by apply list_elem_of_In|]. by apply matches_confirms.
  - intros Hl. exfalso. pose proof (confirmedTracks_le history (HighestImportedTrackHistoryID before)
      startedAt files). simpl in Hl. lia.
Qed.

(** What is learnt about an import that was requested after the history
    [before] was read. When it is reported complete, the receipt has an entry of
    the current history for every file: of its track and path, not earlier than
    the request and newer than everything in [before]. And it is reported complete
    whenever the current history has such entries, whatever the command says. *)
Theorem import_receipt_exact ReadImportedTracks ReadManualImportCommand
    (files : list (ManualImportCommandFile Quality)) first before commandID startedAt history :
  head files = Some first -> ReadImportedTracks (cf_AlbumID first) = Ok history ->
  let checked := CheckImport ReadImportedTracks ReadManualImportCommand files
                   (HighestImportedTrackHistoryID before) commandID startedAt in
  (forall status confirmed, checked = Ok status -> st_Receipt status = Some confirmed ->
     Forall2 (fun file imported => imported ∈ history /\ confirms before startedAt file imported)
       files confirmed) /\
  (Forall (fun file => exists imported, imported ∈ history /\ confirms before startedAt file imported) files ->
   exists status confirmed, checked = Ok status /\ st_Receipt status = Some confirmed).
Proof.
  destruct files as [|first' rest]; [done|]. intros [= ->] Hh. cbv zeta.
  unfold CheckImport. rewrite Hh. cbn [mbind result_bind].
  remember (first :: rest) as files. pose proof (confirmedTracks_all history before startedAt files) as Hall.
  split.
  - intros status confirmed H Hr. destruct (bool_decide _) eqn:E.
    + injection H as <-. injection Hr as <-. apply Hall. by apply bool_decide_eq_true in E.
    + destruct (bool_decide (commandID = 0)); [by injection H as <-|].
      apply bind_Ok in H as (command & _ & H). unfold CommandStatus in H.
      apply bind_Ok in H as (disposition & _ & H). destruct disposition; by injection H as <-.
  - intros HF. rewrite bool_decide_true; [eauto|]. clear Heqfiles Hall. induction HF as [|file files Hf _ IH]; [done|].
    rewrite confirmedTracks_cons. destruct Hf as (imported & Hin & Hc%matches_confirms).
    unfold FindImportedTrack. destruct (List.find _ _) as [found|] eqn:E; [simpl; by rewrite IH|].
    apply list_elem_of_In in Hin. by rewrite (List.find_none _ _ E _ Hin) in Hc.
Qed.
End receipts.
