(* ===== verification/Programs.v ===== *)
(** * Programs with effects

    Interaction trees as the programs of this development: a logic for what a
    program may do while it runs, which holds at every prefix and so also when
    the program stops half-way, and running a program against a handler. *)
From ITree Require Import ITree.
From stdpp Require Import base list.
From S2P Require Import Prelude.

#[global] Instance itree_ret E : MRet (itree E) := fun _ => Monad.ret.
#[global] Instance itree_bind E : MBind (itree E) := fun _ _ f t => ITree.bind t f.

(** ** Programs under a protocol

    [allowed] says which events a program may perform in a state, [answers] what
    it may be answered and the state then. [wp n] is about the first [n] steps,
    so that it makes sense of loops without an end. *)
Section wp.
Context {E : Type -> Type} {S : Type}.
Context (allowed : forall X, E X -> S -> Prop) (answers : forall X, E X -> S -> X -> S -> Prop).

Fixpoint wp {R} (n : nat) (t : itree E R) (Q : R -> S -> Prop) (s : S) : Prop :=
  match n with
  | O => True
  | Datatypes.S n =>
      match observe t with
      | RetF r => Q r s
      | TauF t => wp n t Q s
      | VisF e k => allowed _ e s /\ forall x s', answers _ e s x s' -> wp n (k x) Q s'
      end
  end.

Definition safe {R} (t : itree E R) (Q : R -> S -> Prop) (s : S) : Prop := forall n, wp n t Q s.

Lemma wp_mono {R} n m (t : itree E R) (P Q : R -> S -> Prop) s :
  (m <= n)%nat -> (forall r s, P r s -> Q r s) -> wp n t P s -> wp m t Q s.
Proof.
  intros Hle HPQ. revert n t s Hle. induction m as [|m IH]; intros [|n] t s Hle; [done|done|lia|].
  cbn. destruct (observe t) as [r|t'|X e k].
  - apply HPQ.
  - apply IH. lia.
  - intros [Ha H]. split; [done|]. intros x s' Hx. eapply IH; [|by apply H]. lia.
Qed.

Lemma observe_bind {R R'} (t : itree E R) (k : R -> itree E R') :
  observe (ITree.bind t k) =
  match observe t with
  | RetF r => observe (k r)
  | TauF t => TauF (ITree.bind t k)
  | VisF e h => VisF e (fun x => ITree.bind (h x) k)
  end.
Proof.
  change (observe (ITree.bind t k)) with
    (observe (match observe t with
              | RetF r => k r
              | TauF t => Tau (ITree.bind t k)
              | VisF e h => Vis e (fun x => ITree.bind (h x) k)
              end)).
  by destruct (observe t).
Qed.

Lemma wp_seq {R R'} n (t : itree E R) (k : R -> itree E R') Q s :
  wp n t (fun r => wp n (k r) Q) s -> wp n (ITree.bind t k) Q s.
Proof.
  revert t s. induction n as [|n IH]; intros t s; [done|]. cbn [wp]. rewrite observe_bind.
  destruct (observe t) as [r|t'|X e h].
  - done.
  - intros H. apply IH. eapply wp_mono; [done| |exact H]. intros r s' Hr.
    eapply (wp_mono (Datatypes.S n)); [lia|done|exact Hr].
  - intros [Ha H]. split; [done|]. intros x s1 Hx. apply IH. eapply wp_mono; [done| |by apply H].
    intros r s' Hr. eapply (wp_mono (Datatypes.S n)); [lia|done|exact Hr].
Qed.

Lemma observe_iter {A R} (body : A -> itree E (A + R)) (a : A) :
  observe (ITree.iter body a) =
  observe (ITree.bind (body a) (fun lr => match lr with inl a => Tau (ITree.iter body a) | inr r => Ret r end)).
Proof. done. Qed.

(** A loop is safe if its body keeps an invariant. *)
Lemma safe_iter {A R} (body : A -> itree E (A + R)) (I : A -> S -> Prop) Q a s :
  (forall a s, I a s -> safe (body a) (fun lr s => match lr with inl a => I a s | inr r => Q r s end) s) ->
  I a s -> safe (ITree.iter body a) Q s.
Proof.
  intros Hbody Ha n. revert a s Ha. induction n as [|n IH]; intros a s Ha; [done|].
  assert (wp (Datatypes.S n) (ITree.bind (body a) (fun lr =>
    match lr with inl a => Tau (ITree.iter body a) | inr r => Ret r end)) Q s) as H.
  { apply wp_seq. eapply wp_mono; [done| |apply Hbody, Ha]. intros [a'|r] s'; cbn; [apply IH|done]. }
  cbn [wp] in H |- *. by rewrite observe_iter.
Qed.

Lemma safe_bind {R R'} (t : itree E R) (k : R -> itree E R') Q s :
  safe t (fun r => safe (k r) Q) s -> safe (ITree.bind t k) Q s.
Proof. intros H n. apply wp_seq. eapply wp_mono; [done| |apply H]. intros r s' Hr. apply Hr. Qed.

Lemma safe_ret {R} (r : R) (Q : R -> S -> Prop) s : Q r s -> safe (Ret r) Q s.
Proof. by intros H [|n]. Qed.

Lemma safe_trigger {X} (e : E X) (Q : X -> S -> Prop) s :
  allowed _ e s -> (forall x s', answers _ e s x s' -> Q x s') -> safe (ITree.trigger e) Q s.
Proof. intros Ha H [|n]; [done|]. split; [done|]. intros x s' Hx. destruct n; cbn; [done|by apply H]. Qed.

Lemma safe_conseq {R} (t : itree E R) (P Q : R -> S -> Prop) s :
  (forall r s, P r s -> Q r s) -> safe t P s -> safe t Q s.
Proof. intros HPQ H n. eapply wp_mono; [done|exact HPQ|apply H]. Qed.

(** One step of a safe program. *)
Lemma safe_step {R} (t : itree E R) (Q : R -> S -> Prop) s :
  safe t Q s ->
  match observe t with
  | RetF r => Q r s
  | TauF t => safe t Q s
  | VisF e k => allowed _ e s /\ forall x s', answers _ e s x s' -> safe (k x) Q s'
  end.
Proof.
  intros H. destruct (observe t) as [r|t'|X e k] eqn:Ho.
  - specialize (H 1%nat). cbn in H. by rewrite Ho in H.
  - intros n. specialize (H (Datatypes.S n)). cbn in H. by rewrite Ho in H.
  - split.
    + specialize (H 1%nat). cbn in H. rewrite Ho in H. apply H.
    + intros x s' Hx n. specialize (H (Datatypes.S n)). cbn in H. rewrite Ho in H. by apply H.
Qed.
End wp.

(** ** Running a program *)

(** A program run against a handler of its events, for a number of steps. *)
Section running.
Context {E : Type -> Type} {S : Type} (h : forall X, E X -> S -> X * S).

Fixpoint run_steps {R} (n : nat) (t : itree E R) (s : S) : option (R * S) :=
  match n with
  | O => None
  | Datatypes.S n =>
      match observe t with
      | RetF r => Some (r, s)
      | TauF t => run_steps n t s
      | VisF e k => let '(x, s) := h _ e s in run_steps n (k x) s
      end
  end.

(** The program returns, within some number of steps. *)
Definition returns {R} (t : itree E R) (s : S) (r : R) (s' : S) : Prop :=
  exists n, run_steps n t s = Some (r, s').

Lemma steps_bind {R R'} n m (t : itree E R) (k : R -> itree E R') s r s' r' s'' :
  run_steps n t s = Some (r, s') -> run_steps m (k r) s' = Some (r', s'') ->
  exists l, run_steps l (ITree.bind t k) s = Some (r', s'').
Proof.
  revert t s. induction n as [|n IH]; intros t s; [done|]. cbn [run_steps].
  destruct (observe t) as [a|t'|X e h'] eqn:Ho.
  - intros [= -> ->] Hm. destruct m as [|m]; [done|]. exists (Datatypes.S m). cbn [run_steps] in *.
    by rewrite observe_bind, Ho.
  - intros Hn Hm. destruct (IH _ _ Hn Hm) as [l Hl]. exists (Datatypes.S l). cbn [run_steps].
    by rewrite observe_bind, Ho.
  - destruct (h X e s) as [x s1] eqn:Hh. intros Hn Hm. destruct (IH _ _ Hn Hm) as [l Hl].
    exists (Datatypes.S l). cbn [run_steps]. by rewrite observe_bind, Ho, Hh.
Qed.

Lemma returns_bind {R R'} (t : itree E R) (k : R -> itree E R') s r s' r' s'' :
  returns t s r s' -> returns (k r) s' r' s'' -> returns (ITree.bind t k) s r' s''.
Proof. intros [n Hn] [m Hm]. by eapply steps_bind. Qed.

Lemma returns_ret {R} (r : R) s : returns (mret r) s r s.
Proof. by exists 1%nat. Qed.

Lemma returns_iter {A R} (body : A -> itree E (A + R)) a s a' s' r s'' :
  returns (body a) s (inl a') s' -> returns (ITree.iter body a') s' r s'' ->
  returns (ITree.iter body a) s r s''.
Proof.
  intros Hb Hr. destruct (returns_bind _ (fun lr => match lr with
    | inl a => Tau (ITree.iter body a) | inr r => Ret r end) _ _ _ r s'' Hb) as [n Hn].
  - destruct Hr as [n Hn]. by exists (Datatypes.S n).
  - exists n. destruct n as [|n]; [done|]. cbn [run_steps] in *. by rewrite observe_iter.
Qed.

Lemma returns_iter_end {A R} (body : A -> itree E (A + R)) a s r s' :
  returns (body a) s (inr r) s' -> returns (ITree.iter body a) s r s'.
Proof.
  intros Hb. destruct (returns_bind _ (fun lr => match lr with
    | inl a => Tau (ITree.iter body a) | inr r => Ret r end) _ _ _ r s' Hb) as [n Hn].
  - by exists 1%nat.
  - exists n. destruct n as [|n]; [done|]. cbn [run_steps] in *. by rewrite observe_iter.
Qed.

(** A run that is computed. *)
Lemma returns_checked {R} n (t : itree E R) s
    (check : R * S -> bool) :
  from_option check false (run_steps n t s) = true ->
  exists r s', returns t s r s' /\ check (r, s') = true.
Proof.
  destruct (run_steps n t s) as [[r s']|] eqn:Hr; [|done]. intros H. exists r, s'. split; [by exists n|exact H].
Qed.
End running.
