(* ===== verification/LidarrLedger.v ===== *)
(** * The ledger of Lidarr imports

    [internal/lidarrrepair/import_state.go]: the directory with one record for
    each case whose import was prepared, and the operations that move a record
    from prepared to requested, imported or failed. A file is the record that it
    decodes to, under the digest of its name. The lock around every operation
    makes it one step on the directory. *)
From stdpp Require Import base strings list gmap sorting pretty relations.
From coqutil Require Import Datatypes.RecordSetters.
From S2P Require Import Prelude GoStrings FileIdentity JsonSchema ExecutionRecords LidarrContracts.
From S2P Require Import PlanningState LidarrState LidarrRepair.
Import DoubleBraceUpdate planning lidarrcontracts lidarrstate lidarr lidarrrepair.

Module importstate.

Definition importExecutionVersion : string := "lidarr-repair-import/v1".

Inductive ImportExecutionState := ImportPrepared | ImportRequested | Imported | ImportFailed.
#[global] Instance ImportExecutionState_eq_dec : EqDecision ImportExecutionState.
Proof. solve_decision. Defined.

Record ImportExecutionTrack := mkExecutionTrack
  { et_ArtifactID : string; et_ArtifactFingerprint : string; et_TrackID : Z; et_Path : string;
    et_DownloadID : string }.
#[global] Instance ImportExecutionTrack_eq_dec : EqDecision ImportExecutionTrack.
Proof. solve_decision. Defined.

#[global] Instance ImportedTrack_eq_dec : EqDecision ImportedTrack.
Proof. solve_decision. Defined.

Record ImportExecution := mkImportExecution
  { ie_Version : string; ie_CaseID : string; ie_CapabilityID : string; ie_QueueID : Z;
    ie_ArtistID : Z; ie_AlbumID : Z; ie_ReleaseID : Z; ie_Tracks : list ImportExecutionTrack;
    ie_State : ImportExecutionState; ie_HistoryIDBefore : Z; ie_PreparedAt : time;
    ie_UpdatedAt : time; ie_CommandID : option Z; ie_Confirmations : list ImportedTrack }.
#[global] Instance ImportExecution_eq_dec : EqDecision ImportExecution.
Proof. solve_decision. Defined.

(** The imports directory. *)
Abbreviation Ledger := (gmap string ImportExecution).

(** ** Validation *)

(** The confirmations by track, or an error for two of one track. *)
Fixpoint confirmations_by_track (byTrack : gmap Z ImportedTrack) (confirmations : list ImportedTrack)
    : result (gmap Z ImportedTrack) :=
  match confirmations with
  | [] => Ok byTrack
  | confirmation :: rest =>
      match byTrack !! it_TrackID confirmation with
      | Some _ => Err "Lidarr import confirmation track is duplicated"
      | None => confirmations_by_track (<[it_TrackID confirmation := confirmation]> byTrack) rest
      end
  end.

(** A confirmation of one track of the record. *)
Definition confirms_track (record : ImportExecution) (track : ImportExecutionTrack)
    (confirmation : ImportedTrack) : bool :=
  bool_decide (it_AlbumID confirmation = ie_AlbumID record) &&
  bool_decide (it_ArtistID confirmation = ie_ArtistID record) &&
  bool_decide (it_DroppedPath confirmation = et_Path track) &&
  bool_decide (ie_HistoryIDBefore record < it_HistoryID confirmation) &&
  negb (Before (it_OccurredAt confirmation) (ie_PreparedAt record)).

Definition validateConfirmations (record : ImportExecution) (confirmations : list ImportedTrack)
    : result unit :=
  _ ← fail_if (negb (bool_decide (length confirmations = length (ie_Tracks record))))
        "Lidarr import confirmations do not cover every track";
  byTrack ← confirmations_by_track ∅ confirmations;
  fail_if (negb (forallb (fun track =>
    match byTrack !! et_TrackID track with
    | Some confirmation => confirms_track record track confirmation
    | None => false
    end) (ie_Tracks record))) "Lidarr import confirmation does not match".

Definition invalid_track (track : ImportExecutionTrack) : bool :=
  bool_decide (et_ArtifactID track = "") || bool_decide (et_ArtifactFingerprint track = "") ||
  bool_decide (et_TrackID track <= 0) || negb (cleanPath (et_Path track)) ||
  bool_decide (et_DownloadID track = "").

Fixpoint validate_tracks (artifacts : list string) (tracks : list Z)
    (selected : list ImportExecutionTrack) : result unit :=
  match selected with
  | [] => Ok tt
  | track :: rest =>
      _ ← fail_if (invalid_track track) "Lidarr import execution track is invalid";
      _ ← fail_if (bool_decide (et_ArtifactID track ∈ artifacts))
            "Lidarr import execution artifact is duplicated";
      _ ← fail_if (bool_decide (et_TrackID track ∈ tracks))
            "Lidarr import execution track is duplicated";
      validate_tracks (et_ArtifactID track :: artifacts) (et_TrackID track :: tracks) rest
  end.

Definition validate_state (record : ImportExecution) : result unit :=
  match ie_State record with
  | ImportPrepared =>
      fail_if (negb (bool_decide (ie_CommandID record = None)) ||
               negb (bool_decide (length (ie_Confirmations record) = 0%nat)))
        "prepared Lidarr import contains later state"
  | ImportRequested | ImportFailed =>
      fail_if (match ie_CommandID record with Some id => bool_decide (id <= 0) | None => true end ||
               negb (bool_decide (length (ie_Confirmations record) = 0%nat)))
        "requested Lidarr import state is incomplete"
  | Imported => validateConfirmations record (ie_Confirmations record)
  end.

Definition validateImportExecution (record : ImportExecution) : result unit :=
  _ ← fail_if (negb (bool_decide (ie_Version record = importExecutionVersion)) ||
               negb (stateFingerprint (ie_CaseID record)) ||
               bool_decide (ie_CapabilityID record = "") || bool_decide (ie_QueueID record <= 0) ||
               bool_decide (ie_ArtistID record <= 0) || bool_decide (ie_AlbumID record <= 0) ||
               bool_decide (ie_ReleaseID record <= 0) ||
               bool_decide (length (ie_Tracks record) = 0%nat) ||
               bool_decide (ie_HistoryIDBefore record < 0) || IsZero (ie_PreparedAt record) ||
               IsZero (ie_UpdatedAt record) || Before (ie_UpdatedAt record) (ie_PreparedAt record))
        "Lidarr import execution identity is invalid";
  _ ← validate_tracks [] [] (ie_Tracks record);
  validate_state record.

(** [json.Marshal] refuses a time whose year has not four digits. *)
Definition encodeImportExecution (record : ImportExecution) : result ImportExecution :=
  _ ← validateImportExecution record;
  _ ← fail_if (negb (forallb json_time (ie_PreparedAt record :: ie_UpdatedAt record ::
                 map it_OccurredAt (ie_Confirmations record)))) "encode Lidarr import execution";
  mret record.

Definition decodeImportExecution (record : ImportExecution) : result ImportExecution :=
  _ ← validateImportExecution record;
  mret record.

(** ** Reading and writing *)

(** The name of the file of a case, [stateDigest]. *)
Definition importExecutionPath (caseID : string) : result string :=
  if stateFingerprint caseID then Ok (s_drop 7 caseID) else Err "invalid Lidarr case ID".

Definition readImportExecution (ledger : Ledger) (path : string) : result (option ImportExecution) :=
  match ledger !! path with
  | None => Ok None
  | Some data => record ← decodeImportExecution data; mret (Some record)
  end.

Definition GetImportExecution (ledger : Ledger) (caseID : string) : result (option ImportExecution) :=
  path ← importExecutionPath caseID;
  readImportExecution ledger path.

Definition writeImportExecution (ledger : Ledger) (record : ImportExecution) : result Ledger :=
  data ← encodeImportExecution record;
  path ← importExecutionPath (ie_CaseID record);
  mret (<[path := data]> ledger).

Definition active (record : ImportExecution) : bool :=
  bool_decide (ie_State record = ImportPrepared) || bool_decide (ie_State record = ImportRequested).

(** The first active import of the queue for another case, in the order of the
    files; a file that does not decode ends the search. *)
Fixpoint find_active (queueID : Z) (exceptCaseID : string) (files : list (string * ImportExecution))
    : result (option ImportExecution) :=
  match files with
  | [] => Ok None
  | (_, data) :: rest =>
      record ← decodeImportExecution data;
      if bool_decide (ie_QueueID record = queueID) &&
         negb (bool_decide (ie_CaseID record = exceptCaseID)) && active record
      then mret (Some record)
      else find_active queueID exceptCaseID rest
  end.

Definition name_le {A} (a b : string * A) : Prop := string_le a.1 b.1.
#[global] Instance name_le_dec {A} : RelDecision (@name_le A).
Proof. intros a b. unfold name_le. apply _. Defined.

(** [os.ReadDir] lists a directory by name. *)
Definition read_dir (ledger : Ledger) : list (string * ImportExecution) :=
  merge_sort name_le (map_to_list ledger).

Definition activeImportForQueue (ledger : Ledger) (queueID : Z) (exceptCaseID : string)
    : result (option ImportExecution) :=
  find_active queueID exceptCaseID (read_dir ledger).

(** ** Operations *)

Definition execution_track {Quality} (track : AuthorizedTrack Quality) : ImportExecutionTrack :=
  mkExecutionTrack (au_ArtifactID track) (au_ArtifactFingerprint track) (au_TrackID track)
    (au_Path track) (au_DownloadID track).

Definition executionFromAuthorization {Quality} (authorized : AuthorizedImport Quality)
    (historyIDBefore : Z) (at_ : time) : ImportExecution :=
  mkImportExecution importExecutionVersion (ai_CaseID authorized) (ai_CapabilityID authorized)
    (ai_QueueID authorized) (ai_ArtistID authorized) (ai_AlbumID authorized)
    (ai_ReleaseID authorized) (map execution_track (ai_Tracks authorized)) ImportPrepared
    historyIDBefore (UTC at_) (UTC at_) None [].

Definition sameImportExecution (previous wanted : ImportExecution) : bool :=
  bool_decide (ie_Version previous = ie_Version wanted) &&
  bool_decide (ie_CaseID previous = ie_CaseID wanted) &&
  bool_decide (ie_CapabilityID previous = ie_CapabilityID wanted) &&
  bool_decide (ie_QueueID previous = ie_QueueID wanted) &&
  bool_decide (ie_ArtistID previous = ie_ArtistID wanted) &&
  bool_decide (ie_AlbumID previous = ie_AlbumID wanted) &&
  bool_decide (ie_ReleaseID previous = ie_ReleaseID wanted) &&
  bool_decide (ie_Tracks previous = ie_Tracks wanted).

Section operations.
Context {Quality : Type} `{!EqDecision Quality} {codec : Codec}.

(** The mappings of the decision by track; a later one wins, and a track that
    is not mapped has the empty artifact. *)
Definition selected_tracks (mappings : list TrackMapping) : gmap Z string :=
  foldl (fun m mapping => <[tm_TrackID mapping := tm_ArtifactID mapping]> m) ∅ mappings.

Definition validateImportAuthorization (store : Store Quality) (authorized : AuthorizedImport Quality)
    : result unit :=
  found ← latestPlanned store (ai_QueueID authorized);
  match found with
  | None => Err "Lidarr planned case for queue is absent"
  | Some planned =>
      repairCase ← DecodeCase (rec_Case planned);
      decision ← DecodeDecision (rec_Decision planned);
      match ld_ImportMissingTracks decision with
      | None => Err "Lidarr import authorization does not match the stored plan"
      | Some selected =>
          _ ← fail_if (negb (bool_decide (lc_CaseID repairCase = ai_CaseID authorized)) ||
                 negb (bool_decide (im_CapabilityID selected = ai_CapabilityID authorized)) ||
                 negb (bool_decide (im_AlbumID selected = ai_AlbumID authorized)) ||
                 negb (bool_decide (im_ReleaseID selected = ai_ReleaseID authorized)) ||
                 negb (bool_decide (la_ArtistID (lc_Album repairCase) = ai_ArtistID authorized)) ||
                 negb (bool_decide (length (im_Mappings selected) = length (ai_Tracks authorized))))
                "Lidarr import authorization does not match the stored plan";
          fail_if (negb (forallb (fun track =>
              bool_decide (default "" (selected_tracks (im_Mappings selected) !! au_TrackID track) =
                           au_ArtifactID track)) (ai_Tracks authorized)))
            "Lidarr import authorization does not match the stored mappings"
      end
  end.

(** The code reads and validates the plan before it takes the lock of the ledger;
    here both are one step. The plan store and the ledger do not depend on each
    other, so a step of another process between the two only replaces the store
    that the validation saw by an earlier one. *)
Definition PrepareImport (store : Store Quality) (ledger : Ledger)
    (authorized : AuthorizedImport Quality) (historyIDBefore : Z) (at_ : time)
    : result (ImportExecution * bool * Ledger) :=
  _ ← validateImportAuthorization store authorized;
  _ ← fail_if (bool_decide (historyIDBefore < 0) || IsZero at_)
        "Lidarr import preparation is invalid";
  path ← importExecutionPath (ai_CaseID authorized);
  previous ← readImportExecution ledger path;
  let wanted := executionFromAuthorization authorized historyIDBefore at_ in
  match previous with
  | Some previous =>
      if sameImportExecution previous wanted then mret (previous, false, ledger)
      else Err "Lidarr case is already bound to a different import"
  | None =>
      other ← activeImportForQueue ledger (ai_QueueID authorized) (ai_CaseID authorized);
      match other with
      | Some _ => Err "Lidarr queue has active import for another case"
      | None =>
          ledger ← writeImportExecution ledger wanted;
          mret (wanted, true, ledger)
      end
  end.
End operations.

Definition updateImportExecution (ledger : Ledger) (caseID : string) (at_ : time)
    (update : ImportExecution -> result (ImportExecution * bool))
    : result (ImportExecution * bool * Ledger) :=
  _ ← fail_if (IsZero at_) "Lidarr import update time is required";
  path ← importExecutionPath caseID;
  found ← readImportExecution ledger path;
  match found with
  | None => Err "Lidarr import for case is not prepared"
  | Some record =>
      _ ← fail_if (Before at_ (ie_UpdatedAt record)) "Lidarr import update time moved backwards";
      '(updated, changed) ← update record;
      if negb changed then mret (updated, false, ledger)
      else
        let updated := updated {{ ie_UpdatedAt := UTC at_ }} in
        ledger ← writeImportExecution ledger updated;
        mret (updated, true, ledger)
  end.

Definition import_requested (commandID : Z) (record : ImportExecution)
    : result (ImportExecution * bool) :=
  if bool_decide (ie_State record = ImportRequested) && bool_decide (ie_CommandID record = Some commandID)
  then mret (record, false)
  else if negb (bool_decide (ie_State record = ImportPrepared)) ||
          negb (bool_decide (ie_CommandID record = None))
  then Err "Lidarr import is not prepared"
  else mret (record {{ ie_State := ImportRequested; ie_CommandID := Some commandID }}, true).

Definition MarkImportRequested (ledger : Ledger) (caseID : string) (commandID : Z) (at_ : time)
    : result (ImportExecution * bool * Ledger) :=
  _ ← fail_if (bool_decide (commandID <= 0)) "Lidarr command ID must be positive";
  updateImportExecution ledger caseID at_ (import_requested commandID).

Definition import_confirmed (confirmations : list ImportedTrack) (record : ImportExecution)
    : result (ImportExecution * bool) :=
  match ie_State record with
  | Imported =>
      if bool_decide (ie_Confirmations record = confirmations) then mret (record, false)
      else Err "Lidarr import has different confirmations"
  | ImportPrepared | ImportRequested =>
      _ ← validateConfirmations record confirmations;
      mret (record {{ ie_State := Imported; ie_Confirmations := confirmations }}, true)
  | ImportFailed => Err "Lidarr import cannot be confirmed from state import_failed"
  end.

Definition MarkImported (ledger : Ledger) (caseID : string) (confirmations : list ImportedTrack)
    (at_ : time) : result (ImportExecution * bool * Ledger) :=
  updateImportExecution ledger caseID at_ (import_confirmed confirmations).

Definition import_failed (record : ImportExecution) : result (ImportExecution * bool) :=
  match ie_State record with
  | ImportFailed => mret (record, false)
  | ImportRequested => mret (record {{ ie_State := ImportFailed }}, true)
  | _ => Err "Lidarr import is not requested"
  end.

Definition MarkImportFailed (ledger : Ledger) (caseID : string) (at_ : time)
    : result (ImportExecution * bool * Ledger) :=
  updateImportExecution ledger caseID at_ import_failed.

(** ** Migration of legacy files *)

(** A digit that is not below the one of the given code. *)
Definition digit_from (low : nat) (c : Ascii.ascii) : bool :=
  Nat.leb low (Ascii.nat_of_ascii c) && Nat.leb (Ascii.nat_of_ascii c) 57.

(** [^import-queue-[1-9][0-9]*\.json$]. *)
Definition legacyImportExecutionName (name : string) : bool :=
  match cut_prefix name "import-queue-" with
  | None => false
  | Some rest =>
      match cut_suffix rest ".json" with
      | Some (String c digits) =>
          digit_from 49 c && s_forall (digit_from 48) digits
      | _ => false
      end
  end.

(** The outcome, the ledger and the legacy files that remain; an error leaves
    what was migrated before it. *)
Fixpoint migrateLegacyImportExecutions (ledger : Ledger) (files : list (string * ImportExecution))
    : result unit * Ledger * list (string * ImportExecution) :=
  match files with
  | [] => (Ok tt, ledger, [])
  | (name, data) :: rest =>
      if negb (legacyImportExecutionName name) then
        let '(r, ledger, remaining) := migrateLegacyImportExecutions ledger rest in
        (r, ledger, (name, data) :: remaining)
      else
        match
          (record ← decodeImportExecution data;
           _ ← fail_if (negb (bool_decide (name = "import-queue-" +:+ pretty (ie_QueueID record) +:+ ".json")))
                 "legacy Lidarr import execution has unexpected queue ID";
           destination ← importExecutionPath (ie_CaseID record);
           existing ← readImportExecution ledger destination;
           match existing with
           | Some existing =>
               _ ← fail_if (negb (bool_decide (existing = record)))
                     "legacy Lidarr import execution conflicts with case ledger";
               mret ledger
           | None => canonical ← encodeImportExecution record; mret (<[destination := canonical]> ledger)
           end)
        with
        | Err e => (Err e, ledger, (name, data) :: rest)
        | Ok ledger => migrateLegacyImportExecutions ledger rest
        end
  end.
End importstate.
