(* ===== verification/LedgerSafety.v ===== *)
(** * What the ledger of Lidarr imports keeps

    Theorems about [internal/lidarrrepair/import_state.go]: every record
    validates under the name of its case, a queue has at most one active import,
    records follow the protocol of an import and keep what was authorized, and
    an import is recorded as done only with a confirmation for every track. *)
From stdpp Require Import base strings list gmap sorting pretty relations.
From coqutil Require Import Datatypes.RecordSetters.
From S2P Require Import Prelude GoStrings FileIdentity JsonSchema ExecutionRecords LidarrContracts.
From S2P Require Import PlanningState LidarrState LidarrRepair LidarrLedger.
Import DoubleBraceUpdate planning lidarrcontracts lidarrstate lidarr lidarrrepair importstate.

(** ** Records and their files *)

Lemma importExecutionPath_inj caseID caseID' path :
  importExecutionPath caseID = Ok path -> importExecutionPath caseID' = Ok path -> caseID = caseID'.
Proof.
  unfold importExecutionPath, stateFingerprint. intros H H'.
  apply (Path_inj _ _ path); unfold ResultStore.Path, caseIDPattern; by repeat case_match.
Qed.

Lemma encodeImportExecution_Ok record data :
  encodeImportExecution record = Ok data -> data = record /\ validateImportExecution record = Ok tt.
Proof. unfold encodeImportExecution. intros H. inv_result. by destruct_units. Qed.

Lemma decodeImportExecution_Ok data record : decodeImportExecution data = Ok record -> record = data.
Proof. unfold decodeImportExecution. intros H. by inv_result. Qed.

Lemma decode_encoded record :
  encodeImportExecution record = Ok record -> decodeImportExecution record = Ok record.
Proof. intros [_ H]%encodeImportExecution_Ok. unfold decodeImportExecution. by rewrite H. Qed.

Lemma readImportExecution_Ok ledger path found :
  readImportExecution ledger path = Ok found -> ledger !! path = found.
Proof.
  unfold readImportExecution. destruct (ledger !! path); [|by intros [= <-]].
  intros (r & ->%decodeImportExecution_Ok & [= <-])%bind_Ok. done.
Qed.

(** A record in the file of its case. *)
Definition filed (path : string) (record : ImportExecution) : Prop :=
  encodeImportExecution record = Ok record /\ importExecutionPath (ie_CaseID record) = Ok path.

Lemma writeImportExecution_Ok ledger record ledger' :
  writeImportExecution ledger record = Ok ledger' ->
  exists path, filed path record /\ ledger' = <[path := record]> ledger.
Proof.
  unfold writeImportExecution. intros (data & He & (path & Hp & [= <-])%bind_Ok)%bind_Ok.
  pose proof He as [-> _]%encodeImportExecution_Ok. by exists path.
Qed.

(** ** The invariant *)

Record ledger_ok (ledger : Ledger) : Prop := mkLedgerOk
  { lo_filed : forall path record, ledger !! path = Some record -> filed path record;
    lo_active : forall p q r s, ledger !! p = Some r -> ledger !! q = Some s ->
      active r = true -> active s = true -> ie_QueueID r = ie_QueueID s -> p = q }.

Lemma ledger_ok_empty : ledger_ok ∅.
Proof. split; intros *; rewrite lookup_empty; done. Qed.

(** A record is added, or moved without becoming active, or becoming the only
    active one of its queue. *)
Lemma ledger_ok_insert ledger path record :
  ledger_ok ledger -> filed path record ->
  (active record = true -> forall q s, ledger !! q = Some s -> active s = true ->
     ie_QueueID s = ie_QueueID record -> q = path) ->
  ledger_ok (<[path := record]> ledger).
Proof.
  intros [Hf Ha] Hr Hu. split.
  - intros p r [[<- <-]|[_ H]]%lookup_insert_Some; [done|by apply Hf].
  - intros p q r s [[<- <-]|[Hp H]]%lookup_insert_Some [[<- <-]|[Hq H']]%lookup_insert_Some Hr' Hs Heq;
      [done| | |by eapply Ha].
    + by symmetry; eapply Hu.
    + by eapply Hu.
Qed.

(** ** The protocol of an import *)

(** What no operation changes. *)
Definition same_import_record (r s : ImportExecution) : Prop :=
  sameImportExecution r s = true /\ ie_HistoryIDBefore r = ie_HistoryIDBefore s /\
  ie_PreparedAt r = ie_PreparedAt s.

Lemma sameImportExecution_spec r s :
  sameImportExecution r s = true <->
  ie_Version r = ie_Version s /\ ie_CaseID r = ie_CaseID s /\ ie_CapabilityID r = ie_CapabilityID s /\
  ie_QueueID r = ie_QueueID s /\ ie_ArtistID r = ie_ArtistID s /\ ie_AlbumID r = ie_AlbumID s /\
  ie_ReleaseID r = ie_ReleaseID s /\ ie_Tracks r = ie_Tracks s.
Proof.
  unfold sameImportExecution. rewrite !andb_true_iff, !bool_decide_eq_true. tauto.
Qed.

Lemma sameImportExecution_refl r : sameImportExecution r r = true.
Proof. by apply sameImportExecution_spec. Qed.

Lemma sameImportExecution_trans r s t :
  sameImportExecution r s = true -> sameImportExecution s t = true -> sameImportExecution r t = true.
Proof. rewrite !sameImportExecution_spec. intuition congruence. Qed.

#[global] Instance same_import_record_preorder : PreOrder same_import_record.
Proof.
  split.
  - intros r. by split; [apply sameImportExecution_refl|].
  - intros r s t (Hs & Hh & Hp) (Hs' & Hh' & Hp'). split; [by eapply sameImportExecution_trans|].
    split; congruence.
Qed.

Inductive import_state_step : ImportExecution -> ImportExecution -> Prop :=
| step_requested r s id : ie_State r = ImportPrepared -> ie_State s = ImportRequested ->
    0 < id -> ie_CommandID s = Some id -> import_state_step r s
| step_confirmed r s : active r = true -> ie_State s = Imported ->
    validateConfirmations s (ie_Confirmations s) = Ok tt -> ie_CommandID s = ie_CommandID r ->
    import_state_step r s
| step_failed r s : ie_State r = ImportRequested -> ie_State s = ImportFailed ->
    ie_CommandID s = ie_CommandID r -> import_state_step r s.

Definition import_move (r s : ImportExecution) : Prop :=
  same_import_record r s /\ t_ns (ie_UpdatedAt r) <= t_ns (ie_UpdatedAt s) /\ import_state_step r s.

Lemma active_spec r :
  active r = true <-> ie_State r = ImportPrepared \/ ie_State r = ImportRequested.
Proof. unfold active. rewrite orb_true_iff, !bool_decide_eq_true. done. Qed.

Lemma import_move_active r s : import_move r s -> active r = true.
Proof. intros (_ & _ & []); rewrite ?active_spec; auto; by apply active_spec. Qed.

(** What a successful operation does to the ledger, and the record it answers
    with. *)
Inductive ledger_effect (fresh : ImportExecution -> Prop) (ledger ledger' : Ledger)
    (record : ImportExecution) (changed : bool) : Prop :=
| effect_none path : ledger' = ledger -> changed = false -> ledger !! path = Some record ->
    ledger_effect fresh ledger ledger' record changed
| effect_prepared path : ledger' = <[path := record]> ledger -> changed = true ->
    ledger !! path = None -> filed path record -> ie_State record = ImportPrepared -> fresh record ->
    (forall q s, ledger !! q = Some s -> active s = true -> ie_QueueID s <> ie_QueueID record) ->
    ledger_effect fresh ledger ledger' record changed
| effect_moved path previous : ledger' = <[path := record]> ledger -> changed = true ->
    ledger !! path = Some previous -> filed path record -> import_move previous record ->
    ledger_effect fresh ledger ledger' record changed.

Lemma filed_same path path' r s :
  filed path r -> filed path' s -> sameImportExecution r s = true -> path' = path.
Proof.
  intros [_ Hr] [_ Hs] (_ & Hc & _)%sameImportExecution_spec. rewrite <- Hc, Hr in Hs. by injection Hs.
Qed.

Lemma updateImportExecution_effect fresh ledger caseID at_ update record changed ledger' :
  ledger_ok ledger ->
  (forall r s, update r = Ok (s, false) -> s = r) ->
  (forall r s, update r = Ok (s, true) -> same_import_record r s /\ import_state_step r s) ->
  updateImportExecution ledger caseID at_ update = Ok (record, changed, ledger') ->
  ledger_effect fresh ledger ledger' record changed.
Proof.
  intros Hok Hsame Hstep. unfold updateImportExecution.
  intros (? & _ & (path & Hp & (found & Hr%readImportExecution_Ok & H)%bind_Ok)%bind_Ok)%bind_Ok.
  destruct found as [previous|]; [|done].
  apply bind_Ok in H as (? & Hb%fail_if_Ok & ([updated c] & Hu & H)%bind_Ok).
  destruct c; cbn [negb] in H; [|injection H as <- <- <-; apply Hsame in Hu as ->; by eapply effect_none].
  apply bind_Ok in H as (l & (path' & Hf & ->)%writeImportExecution_Ok & [= <- <- <-]).
  apply Hstep in Hu as [(Hid & Hh & Hpr) Hs].
  assert (path' = path) as -> by exact (filed_same _ _ _ _ (lo_filed _ Hok _ _ Hr) Hf Hid).
  eapply effect_moved; [done..|]. split; [done|]. split.
  - unfold Before in Hb. apply bool_decide_eq_false in Hb.
    change (t_ns (ie_UpdatedAt previous) <= t_ns at_). lia.
  - destruct Hs; [eapply step_requested|eapply step_confirmed|eapply step_failed]; done.
Qed.

Lemma import_requested_step id r s : 0 < id ->
  (import_requested id r = Ok (s, false) -> s = r) /\
  (import_requested id r = Ok (s, true) -> same_import_record r s /\ import_state_step r s).
Proof.
  intros Hid. unfold import_requested. destruct (_ && _) eqn:E; [by split; intros [= <-]|].
  destruct (_ || _) eqn:E'; [done|]. split; [done|]. intros [= <-]. split_bool. split.
  - split; [|done]. by apply sameImportExecution_spec.
  - by eapply step_requested.
Qed.

Lemma validateConfirmations_same r s confirmations :
  same_import_record r s -> validateConfirmations r confirmations = validateConfirmations s confirmations.
Proof.
  intros [(_ & _ & _ & _ & Ha & Hal & _ & Ht)%sameImportExecution_spec [Hh Hp]].
  unfold validateConfirmations, confirms_track. by rewrite Ha, Hal, Ht, Hh, Hp.
Qed.

Lemma import_confirmed_step confirmations r s :
  (import_confirmed confirmations r = Ok (s, false) -> s = r) /\
  (import_confirmed confirmations r = Ok (s, true) -> same_import_record r s /\ import_state_step r s).
Proof.
  unfold import_confirmed.
  assert (same_import_record r (r {{ ie_State := Imported; ie_Confirmations := confirmations }})) as Hsame
    by (split; [by apply sameImportExecution_spec|done]).
  assert (forall Hact : active r = true,
    (_ ← validateConfirmations r confirmations;
     mret (r {{ ie_State := Imported; ie_Confirmations := confirmations }}, true)) = Ok (s, true) ->
    same_import_record r s /\ import_state_step r s) as Hmove.
  { intros Hact (u & Hv & [= <-])%bind_Ok. split; [done|]. destruct u. eapply step_confirmed; [done..| |done].
    erewrite <- validateConfirmations_same; done. }
  destruct (ie_State r) eqn:E.
  - split; [by intros (? & _ & ?)%bind_Ok|]. apply Hmove, active_spec. by left.
  - split; [by intros (? & _ & ?)%bind_Ok|]. apply Hmove, active_spec. by right.
  - case_bool_decide; [by split; intros [= <-]|done].
  - done.
Qed.

Lemma import_failed_step r s :
  (import_failed r = Ok (s, false) -> s = r) /\
  (import_failed r = Ok (s, true) -> same_import_record r s /\ import_state_step r s).
Proof.
  unfold import_failed. destruct (ie_State r) eqn:E; try done; [|by split; intros [= <-]].
  split; [done|]. intros [= <-]. split; [split; [by apply sameImportExecution_spec|done]|].
  by eapply step_failed.
Qed.

(** ** Operations *)

Section ledger.
Context {Quality : Type} `{!EqDecision Quality} {codec : Codec}.

(** The plan of the queue in the store selects the import of the record: the
    case, the capability, the artist, the album and the release are those of the
    stored decision, and the tracks with their artifacts are its mappings. *)
Definition plan_selects (store : Store Quality) (record : ImportExecution) : Prop :=
  exists planned repairCase decision selected,
    latestPlanned store (ie_QueueID record) = Ok (Some planned) /\
    DecodeCase (rec_Case planned) = Ok repairCase /\
    DecodeDecision (rec_Decision planned) = Ok decision /\
    ld_ImportMissingTracks decision = Some selected /\
    lc_CaseID repairCase = ie_CaseID record /\
    la_ArtistID (lc_Album repairCase) = ie_ArtistID record /\
    im_CapabilityID selected = ie_CapabilityID record /\
    im_AlbumID selected = ie_AlbumID record /\
    im_ReleaseID selected = ie_ReleaseID record /\
    map (fun m => (tm_TrackID m, tm_ArtifactID m)) (im_Mappings selected) ≡ₚ
    map (fun t => (et_TrackID t, et_ArtifactID t)) (ie_Tracks record).

Inductive ledger_op :=
| OpPrepare (store : Store Quality) (authorized : AuthorizedImport Quality) (historyIDBefore : Z) (at_ : time)
| OpRequested (caseID : string) (commandID : Z) (at_ : time)
| OpImported (caseID : string) (confirmations : list ImportedTrack) (at_ : time)
| OpFailed (caseID : string) (at_ : time).

Definition run_ledger (op : ledger_op) (ledger : Ledger) : result (ImportExecution * bool * Ledger) :=
  match op with
  | OpPrepare store authorized history at_ => PrepareImport store ledger authorized history at_
  | OpRequested caseID commandID at_ => MarkImportRequested ledger caseID commandID at_
  | OpImported caseID confirmations at_ => MarkImported ledger caseID confirmations at_
  | OpFailed caseID at_ => MarkImportFailed ledger caseID at_
  end.

(** What makes a record new: the preparation that wrote it. *)
Definition prepared_by (op : ledger_op) (record : ImportExecution) : Prop :=
  match op with
  | OpPrepare store authorized history at_ =>
      validateImportAuthorization store authorized = Ok tt /\
      record = executionFromAuthorization authorized history at_
  | _ => False
  end.

Lemma find_active_None queueID caseID files :
  find_active queueID caseID files = Ok None ->
  Forall (fun '(_, r) => active r = true -> ie_QueueID r = queueID -> ie_CaseID r = caseID) files.
Proof.
  induction files as [|[name data] files IH]; [constructor|]. cbn [find_active].
  intros (r & ->%decodeImportExecution_Ok & H)%bind_Ok.
  destruct (_ && active data) eqn:E; [done|]. constructor; [|by apply IH].
  intros Ha Hq. rewrite Ha, andb_true_r in E. apply andb_false_iff in E as [E|E]; split_bool; [done|].
  done.
Qed.

Lemma activeImportForQueue_None ledger queueID caseID path r :
  activeImportForQueue ledger queueID caseID = Ok None -> ledger !! path = Some r ->
  active r = true -> ie_QueueID r = queueID -> ie_CaseID r = caseID.
Proof.
  intros H Hl. apply find_active_None in H. rewrite Forall_forall in H.
  apply (H (path, r)). unfold read_dir. rewrite merge_sort_Permutation. by apply elem_of_map_to_list.
Qed.

(** A preparation finds the import that was prepared for the case before, or
    writes the wanted one. *)
Lemma PrepareImport_Ok (store : Store Quality) ledger authorized history at_ record changed ledger' :
  PrepareImport store ledger authorized history at_ = Ok (record, changed, ledger') ->
  exists path, validateImportAuthorization store authorized = Ok tt /\
    importExecutionPath (ai_CaseID authorized) = Ok path /\
    let wanted := executionFromAuthorization authorized history at_ in
    (changed = false /\ ledger' = ledger /\ ledger !! path = Some record /\
     sameImportExecution record wanted = true) \/
    (changed = true /\ record = wanted /\ ledger !! path = None /\
     activeImportForQueue ledger (ai_QueueID authorized) (ai_CaseID authorized) = Ok None /\
     writeImportExecution ledger wanted = Ok ledger').
Proof.
  unfold PrepareImport.
  intros ([] & Hv & (? & _ & (path & Hp & (previous & Hr & H)%bind_Ok)%bind_Ok)%bind_Ok)%bind_Ok.
  apply readImportExecution_Ok in Hr. exists path. split; [done|]. split; [done|].
  destruct previous as [previous|].
  - destruct (sameImportExecution _ _) eqn:Hs; [|done]. injection H as <- <- <-. by left.
  - apply bind_Ok in H as ([other|] & Hother & H); [done|]. apply bind_Ok in H as (l & Hw & [= <- <- <-]).
    by right.
Qed.

Lemma run_ledger_effect op ledger record changed ledger' :
  ledger_ok ledger -> run_ledger op ledger = Ok (record, changed, ledger') ->
  ledger_effect (prepared_by op) ledger ledger' record changed.
Proof.
  intros Hok. destruct op as [store authorized history at_|caseID id at_|caseID cs at_|caseID at_];
    cbn [run_ledger].
  - intros H. apply PrepareImport_Ok in H as (path & Hv & Hp & [(-> & -> & Hl & _)|(-> & -> & Hl & Hother & Hw)]).
    + by eapply effect_none.
    + apply writeImportExecution_Ok in Hw as (path' & Hf & ->).
      assert (path' = path) as -> by (destruct Hf as [_ Hf]; cbn in Hf; congruence).
      eapply effect_prepared; [done..|].
      * intros q s Hs Ha Hq. pose proof (activeImportForQueue_None _ _ _ _ _ Hother Hs Ha Hq) as Hc.
        destruct (lo_filed _ Hok _ _ Hs) as [_ Hpath]. rewrite Hc in Hpath. congruence.
  - unfold MarkImportRequested. intros (? & Hid%fail_if_Ok & H)%bind_Ok. split_bool.
    eapply updateImportExecution_effect; [done| | |exact H]; intros r s;
      by destruct (import_requested_step id r s) as [? ?]; [lia|].
  - intros H. eapply updateImportExecution_effect; [done| | |exact H]; intros r s;
      by destruct (import_confirmed_step cs r s).
  - intros H. eapply updateImportExecution_effect; [done| | |exact H]; intros r s;
      by destruct (import_failed_step r s).
Qed.

Lemma ledger_effect_ok fresh ledger ledger' record changed :
  ledger_ok ledger -> ledger_effect fresh ledger ledger' record changed -> ledger_ok ledger'.
Proof.
  intros Hok [path -> _ _|path -> _ Hn Hf _ _ Hu|path previous -> _ Hp Hf Hm]; [done| |].
  - apply ledger_ok_insert; [done..|]. intros _ q s Hs Ha Hq. by destruct (Hu q s).
  - apply ledger_ok_insert; [done..|]. intros _ q s Hs Ha Hq.
    destruct Hok as [_ Hu]. eapply (Hu q path); [done..|by eapply import_move_active|].
    destruct Hm as ((Hsame & _) & _). apply sameImportExecution_spec in Hsame. rewrite Hq. symmetry. apply Hsame.
Qed.

(** ** Reachable ledgers *)

Definition legacy_name (queueID : Z) : string := "import-queue-" +:+ pretty queueID +:+ ".json".

Lemma migrate_ok files ledger :
  NoDup files.*1 -> ledger_ok ledger ->
  (forall path r, ledger !! path = Some r -> legacy_name (ie_QueueID r) ∉ files.*1) ->
  let '(_, ledger', _) := migrateLegacyImportExecutions ledger files in
  ledger_ok ledger' /\
  forall path r, ledger' !! path = Some r -> ledger !! path = Some r \/ r ∈ files.*2.
Proof.
  revert ledger. induction files as [|[name data] files IH]; intros ledger Hnd Hok Hnew.
  { split; [done|]. by left. }
  cbn [migrateLegacyImportExecutions]. apply NoDup_cons in Hnd as [Hname Hnd].
  assert (forall path r, ledger !! path = Some r -> legacy_name (ie_QueueID r) ∉ files.*1) as Hrest.
  { intros path r Hl Hin. apply (Hnew path r Hl). by right. }
  destruct (negb _).
  { specialize (IH _ Hnd Hok Hrest). destruct (migrateLegacyImportExecutions ledger files) as [[r l] rem].
    destruct IH as [? IH]. split; [done|]. intros p s [?|?]%IH; [by left|right; by right]. }
  destruct (_ ≫= _) as [ledger'|e] eqn:E; [|by split; [done|]; left].
  apply bind_Ok in E as (record & ->%decodeImportExecution_Ok & (? & Hn%fail_if_Ok & E)%bind_Ok).
  apply bind_Ok in E as (path & Hp & (existing & Hr%readImportExecution_Ok & E)%bind_Ok).
  apply negb_false_iff, bool_decide_eq_true in Hn. destruct existing as [existing|].
  { apply bind_Ok in E as (? & _ & [= <-]). specialize (IH _ Hnd Hok Hrest).
    destruct (migrateLegacyImportExecutions ledger files) as [[r l] rem].
    destruct IH as [? IH]. split; [done|]. intros p s [?|?]%IH; [by left|right; by right]. }
  apply bind_Ok in E as (canonical & He & [= <-]). pose proof He as [-> _]%encodeImportExecution_Ok.
  assert (forall q s, ledger !! q = Some s -> ie_QueueID s <> ie_QueueID data) as Hq.
  { intros q s Hs Heq. apply (Hnew q s Hs). rewrite Heq. change (legacy_name (ie_QueueID data)) with
      ("import-queue-" +:+ pretty (ie_QueueID data) +:+ ".json"). rewrite <- Hn. by left. }
  assert (ledger_ok (<[path := data]> ledger)) as Hok'.
  { apply ledger_ok_insert; [done..|]. intros _ q s Hs _ Heq. by destruct (Hq q s). }
  specialize (IH _ Hnd Hok').
  destruct (migrateLegacyImportExecutions (<[path := data]> ledger) files) as [[r l] rem].
  destruct IH as [Hl IH].
  { intros p s [[<- <-]|[_ Hs]]%lookup_insert_Some; [|by eapply Hrest]. by rewrite Hn in Hname. }
  split; [done|]. intros p s [[[<- <-]|[_ ?]]%lookup_insert_Some|?]%IH; [right; by left|by left|right; by right].
Qed.

(** Ledgers that operations reach from the migration of the legacy files. *)
Inductive reachable_ledger (files : list (string * ImportExecution)) : Ledger -> Prop :=
| reachable_migrated :
    NoDup files.*1 -> reachable_ledger files (migrateLegacyImportExecutions ∅ files).1.2
| reachable_operation op ledger record changed ledger' :
    reachable_ledger files ledger -> run_ledger op ledger = Ok (record, changed, ledger') ->
    reachable_ledger files ledger'.

(** The same, with the operations that were run, oldest first; a preparation
    carries the plans that were stored when it was run. *)
Inductive reached_by (files : list (string * ImportExecution)) : list ledger_op -> Ledger -> Prop :=
| reached_migrated :
    NoDup files.*1 -> reached_by files [] (migrateLegacyImportExecutions ∅ files).1.2
| reached_operation ops op ledger record changed ledger' :
    reached_by files ops ledger -> run_ledger op ledger = Ok (record, changed, ledger') ->
    reached_by files (ops ++ [op]) ledger'.

Lemma reachable_reached files ledger : reachable_ledger files ledger <-> exists ops, reached_by files ops ledger.
Proof.
  split.
  - induction 1 as [Hnd|op ledger record changed ledger' _ [ops IH] H].
    + exists []. by constructor.
    + exists (ops ++ [op]). by econstructor.
  - intros [ops H]. induction H; [by constructor|by econstructor].
Qed.

(** A record comes from the legacy files, or from a preparation that was run. *)
Definition comes_from (files : list (string * ImportExecution)) (ops : list ledger_op)
    (record : ImportExecution) : Prop :=
  (exists op prepared, op ∈ ops /\ prepared_by op prepared /\ same_import_record prepared record) \/
  exists legacy, legacy ∈ files.*2 /\ same_import_record legacy record.

Lemma comes_from_mono files ops ops' r s :
  (forall op, op ∈ ops -> op ∈ ops') -> same_import_record r s -> comes_from files ops r ->
  comes_from files ops' s.
Proof.
  intros Hops Hs [(op & prepared & Hin & Hp & Hr)|(legacy & Hin & Hr)]; [left|right].
  - exists op, prepared. split; [by apply Hops|]. split; [done|]. by etrans.
  - exists legacy. split; [done|]. by etrans.
Qed.

Lemma reached_by_ok files ops ledger :
  reached_by files ops ledger ->
  ledger_ok ledger /\ forall path r, ledger !! path = Some r -> comes_from files ops r.
Proof.
  induction 1 as [Hnd|ops op ledger record changed ledger' _ [Hok IH] H].
  - pose proof (migrate_ok files ∅ Hnd ledger_ok_empty) as H.
    destruct (migrateLegacyImportExecutions ∅ files) as [[r l] rem]. destruct H as [Hok H].
    { intros path s. by rewrite lookup_empty. }
    split; [done|]. intros path s [Hl|Hin]%H; [by rewrite lookup_empty in Hl|]. right. by exists s.
  - assert (forall o, o ∈ ops -> o ∈ ops ++ [op]) as Hops by (intros; apply elem_of_app; by left).
    assert (forall p r, ledger !! p = Some r -> comes_from files (ops ++ [op]) r) as IH'.
    { intros p r Hl. eapply comes_from_mono; [exact Hops|reflexivity|by eapply IH]. }
    apply run_ledger_effect in H; [|done]. split; [by eapply ledger_effect_ok|].
    destruct H as [path -> _ _|path -> _ _ _ _ Hfresh _|path previous -> _ Hp _ [Hs _]]; [done| |];
      intros q s [[<- <-]|[_ Hl]]%lookup_insert_Some; [|by eapply IH'| |by eapply IH'].
    + left. exists op, record. split; [apply elem_of_app; right; by left|]. done.
    + eapply (comes_from_mono _ (ops ++ [op])); [by intros|exact Hs|by eapply IH'].
Qed.

Lemma reachable_ledger_ok files ledger : reachable_ledger files ledger -> ledger_ok ledger.
Proof. intros [ops H]%reachable_reached. by apply reached_by_ok in H as [Hok _]. Qed.

(** ** Validity *)

(** What the validation of a record asks of it. *)
Record valid_execution (record : ImportExecution) : Prop := mkValidExecution
  { ve_version : ie_Version record = importExecutionVersion;
    ve_case : stateFingerprint (ie_CaseID record) = true;
    ve_capability : ie_CapabilityID record <> "";
    ve_ids : 0 < ie_QueueID record /\ 0 < ie_ArtistID record /\ 0 < ie_AlbumID record /\
             0 < ie_ReleaseID record;
    ve_history : 0 <= ie_HistoryIDBefore record;
    ve_times : t_ns (ie_PreparedAt record) <> 0 /\ t_ns (ie_UpdatedAt record) <> 0 /\
               t_ns (ie_PreparedAt record) <= t_ns (ie_UpdatedAt record);
    ve_tracks : ie_Tracks record <> [];
    ve_track : Forall (fun track => et_ArtifactID track <> "" /\ et_ArtifactFingerprint track <> "" /\
      0 < et_TrackID track /\ cleanPath (et_Path track) = true /\ et_DownloadID track <> "")
      (ie_Tracks record);
    ve_artifacts_once : NoDup (map et_ArtifactID (ie_Tracks record));
    ve_tracks_once : NoDup (map et_TrackID (ie_Tracks record));
    ve_command : match ie_State record with
                 | ImportPrepared => ie_CommandID record = None
                 | ImportRequested | ImportFailed => exists id, ie_CommandID record = Some id /\ 0 < id
                 | Imported => True
                 end;
    ve_confirmations : ie_State record <> Imported -> ie_Confirmations record = [] }.

Lemma validate_tracks_Ok artifacts ids selected :
  validate_tracks artifacts ids selected = Ok tt ->
  Forall (fun track => invalid_track track = false) selected /\
  NoDup (map et_ArtifactID selected) /\ NoDup (map et_TrackID selected) /\
  (forall track, track ∈ selected -> (et_ArtifactID track ∉ artifacts) /\ et_TrackID track ∉ ids).
Proof.
  revert artifacts ids. induction selected as [|track rest IH]; intros artifacts ids; cbn [validate_tracks].
  - intros _. split_and!; try constructor; by apply not_elem_of_nil in H.
  - intros (? & Hi%fail_if_Ok & (? & Ha%fail_if_Ok & (? & Ht%fail_if_Ok & H)%bind_Ok)%bind_Ok)%bind_Ok.
    apply bool_decide_eq_false in Ha, Ht. apply IH in H as (Hf & Hna & Hnt & Hnew).
    split; [by constructor|]. cbn [map]. split_and!.
    + constructor; [|done]. intros (t & E & Hin)%list_elem_of_fmap. destruct (Hnew t Hin) as [Hn _].
      apply Hn. rewrite <- E. by left.
    + constructor; [|done]. intros (t & E & Hin)%list_elem_of_fmap. destruct (Hnew t Hin) as [_ Hn].
      apply Hn. rewrite <- E. by left.
    + intros t [->|Hin]%elem_of_cons; [done|]. destruct (Hnew t Hin) as [H1 H2].
      split; intros Hin'; [apply H1|apply H2]; by right.
Qed.

Lemma validateImportExecution_Ok record :
  validateImportExecution record = Ok tt -> valid_execution record.
Proof.
  unfold validateImportExecution. intros (? & H%fail_if_Ok & ([] & Ht & Hst)%bind_Ok)%bind_Ok.
  apply validate_tracks_Ok in Ht as (Hf & Hna & Hnt & _). unfold IsZero, Before in *. split_bool.
  split; try done.
  - split_and!; lia.
  - lia.
  - split_and!; [done..|lia].
  - by intros E; rewrite E in *.
  - eapply Forall_impl; [exact Hf|]. intros track Hi. unfold invalid_track in Hi. split_bool.
    split_and!; try done. lia.
  - unfold validate_state in Hst. destruct (ie_State record); try done; apply fail_if_Ok in Hst; split_bool;
      [done| |]; destruct (ie_CommandID record) as [id|]; try done; exists id; split_bool; (split; [done|lia]).
  - unfold validate_state in Hst. destruct (ie_State record); try done; apply fail_if_Ok in Hst; split_bool;
      intros _; by apply nil_length_inv.
Qed.

(** ** Authorizations *)

Lemma selected_tracks_lookup (mappings : list TrackMapping) (id : Z) (artifact : string) :
  selected_tracks mappings !! id = Some artifact ->
  (id, artifact) ∈ map (fun m => (tm_TrackID m, tm_ArtifactID m)) mappings.
Proof.
  unfold selected_tracks. intros H.
  assert (forall m : gmap Z string,
    foldl (fun m mapping => <[tm_TrackID mapping := tm_ArtifactID mapping]> m) m mappings !! id = Some artifact ->
    m !! id = Some artifact \/ (id, artifact) ∈ map (fun m => (tm_TrackID m, tm_ArtifactID m)) mappings) as Hgen.
  { clear H. induction mappings as [|x xs IH]; intros m; cbn [foldl map]; [by left|].
    intros [[[<- <-]|[_ ?]]%lookup_insert_Some|?]%IH; [right; by left|by left|right; by right]. }
  destruct (Hgen _ H) as [Hm|Hm]; [by rewrite lookup_empty in Hm|done].
Qed.

(** Pairs with distinct first components that are all in a list of the same
    length are that list, in some order. *)
Lemma pairs_permutation {A B} (l k : list (A * B)) :
  NoDup l.*1 -> (forall p, p ∈ l -> p ∈ k) -> length k = length l -> k ≡ₚ l.
Proof.
  intros Hnd Hin Hlen. symmetry. apply submseteq_length_Permutation; [|lia].
  apply NoDup_submseteq; [by eapply NoDup_fmap_1|]. exact Hin.
Qed.

Lemma authorization_selects store authorized history at_ record :
  validateImportAuthorization store authorized = Ok tt ->
  same_import_record (executionFromAuthorization authorized history at_) record ->
  valid_execution record -> plan_selects store record.
Proof.
  unfold validateImportAuthorization. intros H [Hsame _] Hv.
  apply sameImportExecution_spec in Hsame as (_ & Hcase & Hcap & Hq & Har & Hal & Hrel & Htr).
  cbn [executionFromAuthorization ie_CaseID ie_CapabilityID ie_QueueID ie_ArtistID ie_AlbumID
       ie_ReleaseID ie_Tracks] in *.
  apply bind_Ok in H as ([planned|] & Hp & H); [|done].
  apply bind_Ok in H as (repairCase & Hc & (decision & Hd & H)%bind_Ok).
  destruct (ld_ImportMissingTracks decision) as [selected|] eqn:Hs; [|done].
  apply bind_Ok in H as (? & Hf%fail_if_Ok & Hm%fail_if_Ok). split_bool.
  exists planned, repairCase, decision, selected. rewrite <- Hcase, <- Hcap, <- Hq, <- Har, <- Hal, <- Hrel.
  split_and!; try done. pose proof (ve_tracks_once _ Hv) as Hnd.
  pose proof (ve_track _ Hv) as Hne. rewrite Forall_forall in Hne.
  apply pairs_permutation.
  - change (NoDup (fst <$> ((fun t => (et_TrackID t, et_ArtifactID t)) <$> ie_Tracks record))).
    by rewrite <- list_fmap_compose.
  - intros p (track & -> & Hin)%list_elem_of_fmap. destruct (Hne _ Hin) as (Ha & _).
    rewrite <- Htr in Hin. apply list_elem_of_fmap in Hin as (t & -> & Hin).
    rewrite forallb_forall in Hm. specialize (Hm t (proj1 (list_elem_of_In _ _) Hin)).
    apply bool_decide_eq_true in Hm. apply selected_tracks_lookup. cbn in *.
    destruct (selected_tracks _ !! _) as [a|]; cbn in Hm; congruence.
  - rewrite !length_map. rewrite <- Htr, length_map. done.
Qed.

(** ** Confirmations *)

Lemma confirmations_by_track_lookup byTrack confirmations m id c :
  confirmations_by_track byTrack confirmations = Ok m -> m !! id = Some c ->
  byTrack !! id = Some c \/ (c ∈ confirmations /\ it_TrackID c = id).
Proof.
  revert byTrack. induction confirmations as [|x cs IH]; intros byTrack; cbn [confirmations_by_track].
  - intros [= <-]. by left.
  - destruct (byTrack !! _); [done|]. intros H Hl. destruct (IH _ H Hl) as [Hin|[Hin Hid]].
    + apply lookup_insert_Some in Hin as [[<- <-]|[_ ?]]; [right; split; [by left|done]|by left].
    + right. split; [by right|done].
Qed.

(** Every track has exactly one confirmation, from the history after the import
    was prepared, of the file that was submitted for it. *)
Definition confirmed (record : ImportExecution) : Prop :=
  map it_TrackID (ie_Confirmations record) ≡ₚ map et_TrackID (ie_Tracks record) /\
  Forall (fun track => exists c, c ∈ ie_Confirmations record /\ it_TrackID c = et_TrackID track /\
    it_DroppedPath c = et_Path track /\
    it_AlbumID c = ie_AlbumID record /\ it_ArtistID c = ie_ArtistID record /\
    ie_HistoryIDBefore record < it_HistoryID c /\
    t_ns (ie_PreparedAt record) <= t_ns (it_OccurredAt c)) (ie_Tracks record).

Lemma validateConfirmations_Ok record :
  valid_execution record -> validateConfirmations record (ie_Confirmations record) = Ok tt ->
  confirmed record.
Proof.
  unfold validateConfirmations. intros Hv (? & Hlen%fail_if_Ok & (m & Hm & H%fail_if_Ok)%bind_Ok)%bind_Ok.
  split_bool.
  assert (Forall (fun track => exists c, c ∈ ie_Confirmations record /\ it_TrackID c = et_TrackID track /\
    it_DroppedPath c = et_Path track /\
    it_AlbumID c = ie_AlbumID record /\ it_ArtistID c = ie_ArtistID record /\
    ie_HistoryIDBefore record < it_HistoryID c /\
    t_ns (ie_PreparedAt record) <= t_ns (it_OccurredAt c)) (ie_Tracks record)) as Hall.
  { apply forallb_Forall in H. eapply Forall_impl; [exact H|].
    intros track Ht. cbn in Ht. destruct (m !! et_TrackID track) as [c|] eqn:E; [|done]. exists c.
    destruct (confirmations_by_track_lookup _ _ _ _ _ Hm E) as [Hn|[Hin Hid]]; [by rewrite lookup_empty in Hn|].
    unfold confirms_track, Before in Ht. split_bool. split_and!; try done. lia. }
  split; [|done]. symmetry. apply submseteq_length_Permutation; [|rewrite !length_map; lia].
  apply NoDup_submseteq; [by apply ve_tracks_once|].
  intros id (track & -> & Hin)%list_elem_of_fmap. rewrite Forall_forall in Hall.
  destruct (Hall _ Hin) as (c & Hc & <- & _). by apply list_elem_of_fmap_2.
Qed.

Lemma filed_valid path record : filed path record -> valid_execution record.
Proof. intros [[_ H]%encodeImportExecution_Ok _]. by apply validateImportExecution_Ok. Qed.

Lemma filed_confirmed path record :
  filed path record -> ie_State record = Imported -> confirmed record.
Proof.
  intros Hf Hs. pose proof (filed_valid _ _ Hf) as Hv.
  destruct Hf as [[_ H]%encodeImportExecution_Ok _]. unfold validateImportExecution in H.
  apply bind_Ok in H as (? & _ & (? & _ & H)%bind_Ok). unfold validate_state in H. rewrite Hs in H.
  by apply validateConfirmations_Ok.
Qed.

(** C16. In every ledger that operations reach, a record is valid, in the file of
    its case. It was written by a preparation among these operations, whose
    authorization it still has, and the plan that was stored for its queue when
    that preparation was run selects it: case, capability, artist, album, release
    and the mapping of tracks to artifacts. The exception are the records of the
    legacy files, which keep what they had when they were migrated. No other
    record of its queue is active while it is, and one that is imported has for
    every track one confirmation from the history after it was prepared. *)
Theorem ledger_records_sound files ops ledger path record :
  reached_by files ops ledger -> ledger !! path = Some record ->
  (importExecutionPath (ie_CaseID record) = Ok path /\ valid_execution record) /\
  ((exists store authorized history at_,
      OpPrepare store authorized history at_ ∈ ops /\ plan_selects store record /\
      same_import_record (executionFromAuthorization authorized history at_) record) \/
   exists legacy, legacy ∈ files.*2 /\ same_import_record legacy record) /\
  (active record = true -> forall path' other, ledger !! path' = Some other -> active other = true ->
     ie_QueueID other = ie_QueueID record -> path' = path /\ other = record) /\
  (ie_State record = Imported -> confirmed record).
Proof.
  intros [Hok Horigin]%reached_by_ok Hl. pose proof (lo_filed _ Hok _ _ Hl) as Hf.
  pose proof (filed_valid _ _ Hf) as Hv.
  split; [split; [apply Hf|done]|]. split; [|split; [|by eapply filed_confirmed]].
  - destruct (Horigin _ _ Hl) as [([store authorized history at_| | |] & prepared & Hin & Hp & Hs)|?];
      [left| | | |by right]; try done. destruct Hp as [Ha ->].
    exists store, authorized, history, at_. split; [done|]. split; [|done].
    by eapply authorization_selects.
  - intros Ha path' other Ho Ha' Hq. assert (path' = path) as -> by by eapply lo_active.
    split; [done|]. congruence.
Qed.

Lemma ledger_effect_moves fresh ledger ledger' record changed path r :
  ledger_effect fresh ledger ledger' record changed -> ledger !! path = Some r ->
  exists r', ledger' !! path = Some r' /\ rtc import_move r r'.
Proof.
  intros [q -> _ _|q -> _ Hn _ _ _ _|q previous -> _ Hp _ Hm] Hl; [by exists r| |].
  - exists r. rewrite lookup_insert_ne by congruence. done.
  - destruct (decide (q = path)) as [->|Hne].
    + exists record. rewrite lookup_insert_eq. split; [done|].
      assert (previous = r) as -> by congruence. by apply rtc_once.
    + exists r. by rewrite lookup_insert_ne.
Qed.

Inductive ledger_step : Ledger -> Ledger -> Prop :=
| ledger_operation op ledger record changed ledger' :
    run_ledger op ledger = Ok (record, changed, ledger') -> ledger_step ledger ledger'.

Lemma ledger_steps_move ledger ledger' path r :
  ledger_ok ledger -> rtc ledger_step ledger ledger' -> ledger !! path = Some r ->
  exists r', ledger' !! path = Some r' /\ rtc import_move r r'.
Proof.
  intros Hok H. revert r Hok.
  induction H as [ledger|ledger l1 ledger' [op l record changed l' H] _ IH]; intros r Hok Hl; [by exists r|].
  apply run_ledger_effect in H; [|done].
  destruct (ledger_effect_moves _ _ _ _ _ _ _ H Hl) as (r1 & H1 & M1).
  destruct (IH r1) as (r' & H' & M'); [by eapply ledger_effect_ok|done|].
  exists r'. split; [done|]. by etrans.
Qed.

Lemma import_moves_same r s : rtc import_move r s -> same_import_record r s.
Proof.
  induction 1 as [r|r s t [(Hs & Hh & Hp) _] _ (Hs' & Hh' & Hp')].
  - split; [apply sameImportExecution_refl|done].
  - split; [by eapply sameImportExecution_trans|]. split; congruence.
Qed.

(** C37. Whatever operations follow, a record stays in the ledger with what was
    authorized, moves only forward in the protocol of an import, and is not
    changed any more once it is imported or failed. *)
Theorem ledger_records_final files ledger ledger' path record :
  reachable_ledger files ledger -> rtc ledger_step ledger ledger' -> ledger !! path = Some record ->
  exists record', ledger' !! path = Some record' /\ rtc import_move record record' /\
    same_import_record record record' /\ (active record = false -> record' = record).
Proof.
  intros Hok%reachable_ledger_ok Hs Hl.
  destruct (ledger_steps_move _ _ _ _ Hok Hs Hl) as (r' & Hl' & Hm). exists r'. split; [done|].
  split; [done|]. split; [by apply import_moves_same|]. intros Ha.
  inversion Hm as [|? s ? Hfirst]; [done|]. apply import_move_active in Hfirst. congruence.
Qed.
End ledger.
