(* ===== verification/ImportFlow.v ===== *)
(** * Following an import to its end

    [internal/servarr/import_execution.go], the flow that submits an import and
    polls it, and [internal/lidarrrepair/import_executor.go], which runs it over
    the ledger of Lidarr imports. Programs are interaction trees: the calls to
    the service, the store and the clock are events, and the poll, which has no
    bound of its own, is [ITree.iter]. The texts that errors are wrapped in are
    left out, apart from the case that an uncertain submission names. *)
From ITree Require Import ITree.
From stdpp Require Import base strings list gmap sorting.
From S2P Require Import Prelude Programs LidarrContracts LidarrState LidarrRepair LidarrLedger.
Import lidarrcontracts lidarrstate lidarr servarr lidarrrepair.

Module importflow.

Inductive ImportExecutionState := ImportPrepared | ImportRequested | ImportConfirmed | ImportFailed.

Definition terminalConfirmationChecks : nat := 12.

(** An error, or a [SubmissionUncertainError] with its case and cause. *)
Inductive flow_error := Failed (e : error) | SubmissionUncertain (caseID : string) (cause : option error).

(** Functions that return a value next to an error answer with both. *)
Record ImportExecutionDependencies (E : Type -> Type) (Execution : Type) := mkDependencies
  { dep_RequireCompletionResult : bool;
    dep_ctxErr : itree E (result unit);
    dep_Now : itree E time;
    dep_Wait : itree E (result unit);
    dep_CaseID : Execution -> string;
    dep_State : Execution -> result ImportExecutionState;
    dep_CommandID : Execution -> option Z;
    dep_Submit : itree E (result Command);
    dep_ReadCommand : Z -> itree E (result Command);
    dep_Confirm : Execution -> itree E (Execution * bool * option error);
    dep_MarkRequested : Execution -> Z -> time -> itree E (Execution * option error);
    dep_MarkFailed : Execution -> time -> itree E (Execution * option error) }.
Arguments mkDependencies {E Execution}.
Arguments dep_RequireCompletionResult {E Execution}.
Arguments dep_ctxErr {E Execution}.
Arguments dep_Now {E Execution}.
Arguments dep_Wait {E Execution}.
Arguments dep_CaseID {E Execution}.
Arguments dep_State {E Execution}.
Arguments dep_CommandID {E Execution}.
Arguments dep_Submit {E Execution}.
Arguments dep_ReadCommand {E Execution}.
Arguments dep_Confirm {E Execution}.
Arguments dep_MarkRequested {E Execution}.
Arguments dep_MarkFailed {E Execution}.

(** [now]: the time of the clock, which must not be zero. *)
Definition checked_now {E} (clock : itree E time) : itree E (result time) :=
  now ← clock;
  mret (if IsZero now then Err "clock returned a zero time" else Ok (UTC now)).

Section flow.
Context {E : Type -> Type} {Execution : Type} (deps : ImportExecutionDependencies E Execution).

Definition outcome : Type := Execution * option flow_error.

Definition fails (execution : Execution) (e : error) : outcome := (execution, Some (Failed e)).
Definition uncertain (execution : Execution) (cause : option error) : outcome :=
  (execution, Some (SubmissionUncertain (dep_CaseID deps execution) cause)).

(** [errors.Join] of an error and one that may be nil. *)
Definition joined (e : error) (other : option error) : option error :=
  Some (match other with Some o => e +:+ String (Ascii.ascii_of_nat 10) o | None => e end).

Definition fail (execution : Execution) : itree E outcome :=
  failedAt ← checked_now (dep_Now deps);
  match failedAt with
  | Err e => mret (fails execution e)
  | Ok failedAt =>
      '(execution, e) ← dep_MarkFailed deps execution failedAt;
      mret (execution, option_map Failed e)
  end.

(** One round of the poll: the count of terminal checks for the next round, or
    the outcome. *)
Definition poll (execution : Execution) (commandID : Z) (terminalChecks : nat)
    : itree E (nat + outcome) :=
  '(confirmed, found, e) ← dep_Confirm deps execution;
  match e with
  | Some e => mret (inr (fails confirmed e))
  | None =>
      if (found : bool) then mret (inr (confirmed, None))
      else
        command ← dep_ReadCommand deps commandID;
        match command with
        | Err e => mret (inr (fails execution e))
        | Ok command =>
            match ClassifyImportCommand command (dep_RequireCompletionResult deps) with
            | Err e => mret (inr (fails execution e))
            | Ok disposition =>
                let terminalChecks :=
                  match disposition with ImportCommandPending => 0%nat | _ => S terminalChecks end in
                if bool_decide (terminalConfirmationChecks <= terminalChecks)%nat
                then r ← fail execution; mret (inr r)
                else
                  waited ← dep_Wait deps;
                  match waited with
                  | Err e => mret (inr (fails execution e))
                  | Ok _ => mret (inl terminalChecks)
                  end
            end
        end
  end.

Definition follow (execution : Execution) : itree E outcome :=
  match dep_CommandID deps execution with
  | None => mret (fails execution "requested import has no command ID")
  | Some commandID =>
      if bool_decide (commandID <= 0) then mret (fails execution "requested import has no command ID")
      else ITree.iter (poll execution commandID) 0%nat
  end.

Definition resumePrepared (execution : Execution) : itree E outcome :=
  '(confirmed, found, e) ← dep_Confirm deps execution;
  mret (if (found : bool) then (confirmed, option_map Failed e) else uncertain execution e).

Definition submit (execution : Execution) : itree E outcome :=
  command ← dep_Submit deps;
  match command with
  | Err e =>
      '(confirmed, found, confirmErr) ← dep_Confirm deps execution;
      mret (if (found : bool) then (confirmed, option_map Failed confirmErr)
            else uncertain execution (joined e confirmErr))
  | Ok command =>
      requestedAt ← checked_now (dep_Now deps);
      match requestedAt with
      | Err e => mret (uncertain execution (Some e))
      | Ok requestedAt =>
          '(execution, e) ← dep_MarkRequested deps execution (com_ID command) requestedAt;
          match e with
          | Some e => mret (uncertain execution (Some e))
          | None => follow execution
          end
      end
  end.

Definition Run (execution : Execution) (newlyPrepared : bool) : itree E outcome :=
  cancelled ← dep_ctxErr deps;
  match cancelled with
  | Err e => mret (fails execution e)
  | Ok _ =>
      match dep_State deps execution with
      | Err e => mret (fails execution e)
      | Ok ImportConfirmed | Ok ImportFailed => mret (execution, None)
      | Ok ImportRequested => follow execution
      | Ok ImportPrepared => if newlyPrepared then submit execution else resumePrepared execution
      end
  end.
End flow.
Arguments outcome Execution : clear implicits.
End importflow.

(** ** The executor of Lidarr imports *)
Module importexecutor.
Import importstate.

(** The calls of the executor. An update of the ledger answers with a record
    also when it fails. [RequestManualImport] is given the authorized import,
    so that a trace can tell submissions apart; Lidarr sees
    [manualImportCommand] of it only. *)
Variant importE (Quality : Type) : Type -> Type :=
| ContextErr : importE Quality (result unit)
| ClockNow : importE Quality time
| Wait : importE Quality (result unit)
| RequestManualImport (authorized : AuthorizedImport Quality) : importE Quality (result Command)
| ReadManualImportCommand (id : Z) : importE Quality (result Command)
| ReadImportedTracks (albumID : Z) : importE Quality (result (list ImportedTrack))
| StorePrepareImport (authorized : AuthorizedImport Quality) (historyIDBefore : Z) (at_ : time)
    : importE Quality (result (ImportExecution * bool))
| StoreImportRequested (caseID : string) (commandID : Z) (at_ : time)
    : importE Quality (ImportExecution * option error)
| StoreImported (caseID : string) (confirmations : list ImportedTrack) (at_ : time)
    : importE Quality (ImportExecution * option error)
| StoreImportFailed (caseID : string) (at_ : time) : importE Quality (ImportExecution * option error).
Arguments ContextErr {Quality}.
Arguments ClockNow {Quality}.
Arguments Wait {Quality}.
Arguments RequestManualImport {Quality}.
Arguments ReadManualImportCommand {Quality}.
Arguments ReadImportedTracks {Quality}.
Arguments StorePrepareImport {Quality}.
Arguments StoreImportRequested {Quality}.
Arguments StoreImported {Quality}.
Arguments StoreImportFailed {Quality}.

Section executor.
Context {Quality : Type}.

Definition manualImportCommand (authorized : AuthorizedImport Quality)
    : list (ManualImportCommandFile Quality) :=
  map (fun track =>
    mkCommandFile (au_Path track) (ai_ArtistID authorized) (ai_AlbumID authorized)
      (ai_ReleaseID authorized) (au_TrackID track) (Some (au_Quality track)) (au_IndexerFlags track) ""
      (au_DisableReleaseSwitching track)) (ai_Tracks authorized).

Definition lidarrImportState (execution : ImportExecution) : result importflow.ImportExecutionState :=
  match ie_State execution with
  | ImportPrepared => Ok importflow.ImportPrepared
  | ImportRequested => Ok importflow.ImportRequested
  | Imported => Ok importflow.ImportConfirmed
  | ImportFailed => Ok importflow.ImportFailed
  end.

Definition confirmation_le (a b : ImportedTrack) : Prop := it_TrackID a <= it_TrackID b.
#[global] Instance confirmation_le_dec : RelDecision confirmation_le.
Proof. intros a b. unfold confirmation_le. apply _. Defined.

(** The confirmations of all tracks, in the order of the tracks. *)
Definition confirmations (history : list ImportedTrack) (execution : ImportExecution)
    : option (list ImportedTrack) :=
  mapM (fun track =>
    FindImportedTrack history
      (mkImportedTrackMatch (et_TrackID track) "" (et_Path track) (ie_HistoryIDBefore execution)
         (ie_PreparedAt execution))) (ie_Tracks execution).

Definition confirm (execution : ImportExecution)
    : itree (importE Quality) (ImportExecution * bool * option error) :=
  history ← ITree.trigger (ReadImportedTracks (ie_AlbumID execution));
  match history with
  | Err e => mret (execution, false, Some e)
  | Ok history =>
      match confirmations history execution with
      | None => mret (execution, false, None)
      | Some found =>
          confirmedAt ← importflow.checked_now (ITree.trigger ClockNow);
          match confirmedAt with
          | Err e => mret (execution, false, Some e)
          | Ok confirmedAt =>
              '(confirmed, e) ← ITree.trigger
                (StoreImported (ie_CaseID execution) (merge_sort confirmation_le found) confirmedAt);
              mret (match e with
                    | Some e => (execution, false, Some e)
                    | None => (confirmed, true, None)
                    end)
          end
      end
  end.

Definition dependencies (authorized : AuthorizedImport Quality)
    : importflow.ImportExecutionDependencies (importE Quality) ImportExecution :=
  importflow.mkDependencies false (ITree.trigger ContextErr) (ITree.trigger ClockNow)
    (ITree.trigger Wait) ie_CaseID lidarrImportState ie_CommandID
    (ITree.trigger (RequestManualImport authorized))
    (fun id => ITree.trigger (ReadManualImportCommand id)) confirm
    (fun current commandID at_ => ITree.trigger (StoreImportRequested (ie_CaseID current) commandID at_))
    (fun current at_ => ITree.trigger (StoreImportFailed (ie_CaseID current) at_)).

Definition run (authorized : AuthorizedImport Quality) (execution : ImportExecution)
    (newlyPrepared : bool) : itree (importE Quality) (importflow.outcome ImportExecution) :=
  importflow.Run (dependencies authorized) execution newlyPrepared.

(** [ImportExecution{}], which comes with an error; its empty state is not read. *)
Definition zero_execution : ImportExecution :=
  mkImportExecution "" "" "" 0 0 0 0 [] ImportPrepared 0 zero_time zero_time None [].

Definition incomplete_authorization (authorized : AuthorizedImport Quality) : bool :=
  match ai_Tracks authorized with
  | [] => true
  | first :: _ => bool_decide (ai_AlbumID authorized <= 0) || bool_decide (au_DownloadID first = "")
  end.

Definition Execute (authorized : AuthorizedImport Quality)
    : itree (importE Quality) (importflow.outcome ImportExecution) :=
  cancelled ← ITree.trigger ContextErr;
  match cancelled with
  | Err e => mret (importflow.fails zero_execution e)
  | Ok _ =>
      if incomplete_authorization authorized
      then mret (importflow.fails zero_execution "Lidarr import authorization is incomplete")
      else
        history ← ITree.trigger (ReadImportedTracks (ai_AlbumID authorized));
        match history with
        | Err e => mret (importflow.fails zero_execution e)
        | Ok history =>
            preparedAt ← importflow.checked_now (ITree.trigger ClockNow);
            match preparedAt with
            | Err e => mret (importflow.fails zero_execution e)
            | Ok preparedAt =>
                prepared ← ITree.trigger (StorePrepareImport authorized
                  (HighestImportedTrackHistoryID history) preparedAt);
                match prepared with
                | Err e => mret (importflow.fails zero_execution e)
                | Ok (execution, prepared) => run authorized execution prepared
                end
            end
        end
  end.
End executor.
End importexecutor.
