(* ===== verification/ImportSafety.v ===== *)
(** * An import is submitted once

    Theorems about [internal/servarr/import_execution.go] and
    [internal/lidarrrepair/import_executor.go] over the ledger: any number of
    executors may run the same imports at the same time, stop between any two
    calls and start again, and still no case is submitted twice; and an import
    whose command has ended is followed for a bounded number of rounds. *)
From ITree Require Import ITree.
From stdpp Require Import base strings list gmap sorting relations.
From S2P Require Import Prelude Programs LidarrContracts LidarrState LidarrRepair LidarrLedger LedgerSafety.
From S2P Require Import ImportFlow.
Import lidarrcontracts lidarrstate lidarr servarr lidarrrepair importstate importexecutor.

(** ** The protocol of an executor

    An executor may submit its import once, after it has prepared it. The state
    says whether it may. *)
Section protocol.
Context {Quality : Type} (authorized : AuthorizedImport Quality).

Definition may_perform (X : Type) (e : importE Quality X) (token : bool) : Prop :=
  match e with
  | RequestManualImport a => a = authorized /\ token = true
  | StorePrepareImport a _ _ => a = authorized /\ token = false
  | _ => True
  end.

Definition after_answer (X : Type) (e : importE Quality X) (token : bool) : X -> bool :=
  match e in importE _ X return X -> bool with
  | RequestManualImport _ => fun _ => false
  | StorePrepareImport _ _ _ => fun answer => match answer with Ok (_, prepared) => prepared | Err _ => false end
  | _ => fun _ => token
  end.

Definition protocol (X : Type) (e : importE Quality X) (token : bool) (x : X) (token' : bool) : Prop :=
  token' = after_answer X e token x.

Abbreviation psafe := (safe may_perform protocol).

(** A call that is neither a preparation nor a submission. *)
Definition quiet {X} (e : importE Quality X) : Prop :=
  forall token, may_perform X e token /\ forall x, after_answer X e token x = token.

Lemma psafe_quiet {X R} (e : importE Quality X) (k : X -> itree (importE Quality) R) Q token :
  quiet e -> (forall x, psafe (k x) Q token) -> psafe (x ← ITree.trigger e; k x) Q token.
Proof.
  intros He Hk. apply safe_bind, safe_trigger; [apply He|]. intros x ? ->. destruct (He token) as [_ ->]. apply Hk.
Qed.

Lemma psafe_ret {R} (r : R) (Q : R -> bool -> Prop) token : Q r token -> psafe (mret r) Q token.
Proof. apply safe_ret. Qed.

Lemma psafe_now {R} (k : result time -> itree (importE Quality) R) Q token :
  (forall x, psafe (k x) Q token) -> psafe (x ← importflow.checked_now (ITree.trigger ClockNow); k x) Q token.
Proof.
  intros Hk. apply safe_bind. unfold importflow.checked_now. apply psafe_quiet; [done|]. intros now.
  by apply psafe_ret.
Qed.

Definition keeps {R} (token : bool) (_ : R) (token' : bool) : Prop := token' = token.

Ltac quiet_calls :=
  repeat first
    [ apply psafe_ret; done
    | apply psafe_now; intros ?
    | apply psafe_quiet; [done|intros ?]
    | progress case_match ].

Lemma psafe_confirm execution token : psafe (confirm execution) (keeps token) token.
Proof. unfold confirm. quiet_calls. Qed.

Lemma psafe_confirmed {R} execution (k : ImportExecution * bool * option error -> itree (importE Quality) R)
    Q token :
  (forall x, psafe (k x) Q token) -> psafe (x ← confirm execution; k x) Q token.
Proof.
  intros Hk. apply safe_bind. eapply safe_conseq; [|apply psafe_confirm]. intros r s ->. apply Hk.
Qed.

Lemma psafe_fail execution token :
  psafe (importflow.fail (dependencies authorized) execution) (keeps token) token.
Proof. unfold importflow.fail. cbn. quiet_calls. Qed.

Lemma psafe_follow execution token :
  psafe (importflow.follow (dependencies authorized) execution) (keeps token) token.
Proof.
  unfold importflow.follow. case_match; [|by apply psafe_ret]. case_bool_decide; [by apply psafe_ret|].
  apply safe_iter with (I := keeps token); [|done]. intros checks s ->. unfold importflow.poll.
  apply psafe_confirmed. intros [[confirmed found] e]. cbn. quiet_calls;
    (apply safe_bind; eapply safe_conseq; [|apply psafe_fail]; intros r s ->; by apply psafe_ret).
Qed.

Lemma psafe_submit execution :
  psafe (importflow.submit (dependencies authorized) execution) (keeps false) true.
Proof.
  unfold importflow.submit. cbn [dependencies importflow.dep_Submit]. apply safe_bind, safe_trigger; [done|].
  intros [command|e] ? ->; cbn.
  - quiet_calls. apply psafe_follow.
  - apply psafe_confirmed. intros [[confirmed found] confirmErr]. by apply psafe_ret.
Qed.

Lemma psafe_Run execution (prepared : bool) :
  psafe (run authorized execution prepared) (fun _ _ => True) prepared.
Proof.
  unfold run, importflow.Run. cbn. apply psafe_quiet; [done|]. intros cancelled.
  quiet_calls; try (eapply safe_conseq; [|apply psafe_follow]; done).
  - eapply safe_conseq; [|apply psafe_submit]; done.
  - unfold importflow.resumePrepared. apply psafe_confirmed. intros [[confirmed found] e]. by apply psafe_ret.
Qed.

Lemma psafe_Execute : psafe (Execute authorized) (fun _ _ => True) false.
Proof.
  unfold Execute. quiet_calls. apply safe_bind, safe_trigger; [done|].
  intros [[execution prepared]|e] ? ->; cbn; [apply psafe_Run|by apply psafe_ret].
Qed.
End protocol.

(** ** Executors on one ledger *)
Section system.
Context {Quality : Type} `{!EqDecision Quality} {codec : Codec}.

Record ImportWorld := mkImportWorld
  { iw_store : Store Quality; iw_ledger : Ledger; iw_submitted : list (AuthorizedImport Quality) }.

Definition with_ledger (w : ImportWorld) (ledger : Ledger) : ImportWorld :=
  mkImportWorld (iw_store w) ledger (iw_submitted w).

(** A write may be refused, and may be done and still be reported as failed. *)
Definition updates (op : @ledger_op Quality) (w : ImportWorld) (record : ImportExecution) (e : option error)
    (w' : ImportWorld) : Prop :=
  (exists changed ledger, run_ledger op (iw_ledger w) = Ok (record, changed, ledger) /\ w' = with_ledger w ledger)
  \/ (e <> None /\ w' = w).

Definition answers {X} (e : importE Quality X) (w : ImportWorld) : X -> ImportWorld -> Prop :=
  match e in importE _ X return X -> ImportWorld -> Prop with
  | RequestManualImport a => fun _ w' =>
      w' = mkImportWorld (iw_store w) (iw_ledger w) (a :: iw_submitted w)
  | StorePrepareImport a history at_ => fun answer w' =>
      (exists record changed ledger,
         run_ledger (OpPrepare (iw_store w) a history at_) (iw_ledger w) = Ok (record, changed, ledger) /\
         w' = with_ledger w ledger /\ (answer = Ok (record, changed) \/ is_ok answer = false))
      \/ (is_ok answer = false /\ w' = w)
  | StoreImportRequested caseID commandID at_ => fun answer w' =>
      updates (OpRequested caseID commandID at_) w answer.1 answer.2 w'
  | StoreImported caseID confirmations at_ => fun answer w' =>
      updates (OpImported caseID confirmations at_) w answer.1 answer.2 w'
  | StoreImportFailed caseID at_ => fun answer w' =>
      updates (OpFailed caseID at_) w answer.1 answer.2 w'
  | _ => fun _ w' => w' = w
  end.

Abbreviation executor := (AuthorizedImport Quality * itree (importE Quality) (importflow.outcome ImportExecution))%type.

Record ImportSystem := mkImportSystem { is_world : ImportWorld; is_running : gmap nat executor }.

(** Executors start, perform calls and stop at any point, and planning changes
    the stored plans. *)
Inductive import_step : ImportSystem -> ImportSystem -> Prop :=
| import_start w running i a : running !! i = None ->
    import_step (mkImportSystem w running) (mkImportSystem w (<[i := (a, Execute a)]> running))
| import_silent w running i a t t' : running !! i = Some (a, t) -> observe t = TauF t' ->
    import_step (mkImportSystem w running) (mkImportSystem w (<[i := (a, t')]> running))
| import_call w running i a t X (e : importE Quality X) k x w' :
    running !! i = Some (a, t) -> observe t = VisF e k -> answers e w x w' ->
    import_step (mkImportSystem w running) (mkImportSystem w' (<[i := (a, k x)]> running))
| import_stop w running i :
    import_step (mkImportSystem w running) (mkImportSystem w (delete i running))
| import_planned w running store :
    import_step (mkImportSystem w running)
      (mkImportSystem (mkImportWorld store (iw_ledger w) (iw_submitted w)) running).

Inductive reachable_imports : ImportSystem -> Prop :=
| reachable_start files store ledger :
    reachable_ledger (Quality := Quality) files ledger ->
    reachable_imports (mkImportSystem (mkImportWorld store ledger []) ∅)
| reachable_next s s' : reachable_imports s -> import_step s s' -> reachable_imports s'.

(** The ledger has the record of the authorized import. *)
Definition recorded (ledger : Ledger) (a : AuthorizedImport Quality) : Prop :=
  exists path record, importExecutionPath (ai_CaseID a) = Ok path /\ ledger !! path = Some record /\
    sameImportExecution (executionFromAuthorization a 0 zero_time) record = true.

Definition submitted_case (w : ImportWorld) (caseID : string) : Prop := caseID ∈ ai_CaseID <$> iw_submitted w.

Record system_ok (tokens : nat -> bool) (s : ImportSystem) : Prop := mkSystemOk
  { so_ledger : ledger_ok (iw_ledger (is_world s));
    so_safe : forall i a t, is_running s !! i = Some (a, t) ->
      safe (may_perform a) protocol t (fun _ _ => True) (tokens i);
    so_token : forall i a t, is_running s !! i = Some (a, t) -> tokens i = true ->
      recorded (iw_ledger (is_world s)) a /\ ~ submitted_case (is_world s) (ai_CaseID a);
    so_unique : forall i j a b t u, is_running s !! i = Some (a, t) -> is_running s !! j = Some (b, u) ->
      tokens i = true -> tokens j = true -> ai_CaseID a = ai_CaseID b -> i = j;
    so_once : NoDup (ai_CaseID <$> iw_submitted (is_world s));
    so_recorded : Forall (recorded (iw_ledger (is_world s))) (iw_submitted (is_world s)) }.

Lemma recorded_effect fresh ledger ledger' record changed a :
  ledger_effect fresh ledger ledger' record changed -> recorded ledger a -> recorded ledger' a.
Proof.
  intros He (path & r & Hp & Hl & Hs).
  destruct (ledger_effect_moves _ _ _ _ _ _ _ He Hl) as (r' & Hl' & Hm).
  exists path, r'. split; [done|]. split; [done|]. eapply sameImportExecution_trans; [exact Hs|].
  apply import_moves_same in Hm. apply Hm.
Qed.

(** A step of executor [i] that leaves the ledger in order, keeps what is
    recorded and does not submit. *)
Lemma system_ok_step tokens w running i a t w' t' token :
  system_ok tokens (mkImportSystem w running) -> running !! i = Some (a, t) ->
  ledger_ok (iw_ledger w') -> (forall b, recorded (iw_ledger w) b -> recorded (iw_ledger w') b) ->
  iw_submitted w' = iw_submitted w ->
  safe (may_perform a) protocol t' (fun _ _ => True) token ->
  (token = true -> tokens i = true \/
     (recorded (iw_ledger w') a /\ forall b, recorded (iw_ledger w) b -> ai_CaseID b <> ai_CaseID a)) ->
  system_ok (fun j => if decide (j = i) then token else tokens j)
    (mkImportSystem w' (<[i := (a, t')]> running)).
Proof.
  intros [Hl Hsafe Htoken Hunique Honce Hrec] Hi Hl' Hkeep Hsub Ht Htok. cbn in *.
  assert (Hcase : forall b, token = true -> tokens i = false -> recorded (iw_ledger w) b -> ai_CaseID b <> ai_CaseID a).
  { intros b ?? Hb. destruct Htok as [?|[_ Hn]]; [done|congruence|by apply Hn]. }
  split; cbn.
  - done.
  - intros j b u [[<- [= <- <-]]|[Hne Hj]]%lookup_insert_Some.
    + by rewrite decide_True.
    + rewrite decide_False by done. by apply Hsafe.
  - intros j b u [[<- [= <- <-]]|[Hne Hj]]%lookup_insert_Some.
    + rewrite decide_True by done. intros Hk. unfold submitted_case. rewrite Hsub.
      destruct (Htok Hk) as [Hold|[Hr Hn]].
      * destruct (Htoken _ _ _ Hi Hold) as [Hr Hs]. split; [by apply Hkeep|done].
      * split; [done|]. intros (b & Hb & Hin)%list_elem_of_fmap. rewrite Forall_forall in Hrec.
        by eapply Hn; [apply Hrec|].
    + rewrite decide_False by done. intros Hk. unfold submitted_case. rewrite Hsub.
      destruct (Htoken _ _ _ Hj Hk) as [Hr Hs]. split; [by apply Hkeep|done].
  - intros j j' b c u v [[<- [= <- <-]]|[Hne Hj]]%lookup_insert_Some
      [[<- [= <- <-]]|[Hne' Hj']]%lookup_insert_Some; [done| | |].
    + rewrite decide_True, decide_False by done. intros Hk Hk' Hc. exfalso.
      destruct (tokens i) eqn:Hold.
      * apply Hne'. by eapply Hunique.
      * destruct (Htoken _ _ _ Hj' Hk') as [Hr _]. by eapply Hcase; [..|exact Hr|symmetry].
    + rewrite decide_False, decide_True by done. intros Hk Hk' Hc. exfalso.
      destruct (tokens i) eqn:Hold.
      * apply Hne. symmetry. by eapply Hunique.
      * destruct (Htoken _ _ _ Hj Hk) as [Hr _]. by eapply Hcase; [..|exact Hr|].
    + rewrite !decide_False by done. by eapply Hunique.
  - by rewrite Hsub.
  - rewrite Hsub. by eapply Forall_impl.
Qed.

Lemma updates_ok (op : @ledger_op Quality) w record e w' :
  updates op w record e w' -> ledger_ok (iw_ledger w) ->
  ledger_ok (iw_ledger w') /\ (forall b, recorded (iw_ledger w) b -> recorded (iw_ledger w') b) /\
  iw_submitted w' = iw_submitted w.
Proof.
  intros [(changed & ledger & H & ->)|[_ ->]] Hok; [|done]. apply run_ledger_effect in H; [|done].
  split; [by eapply ledger_effect_ok|]. split; [|done]. intros b. by eapply recorded_effect.
Qed.

(** A preparation that wrote the record found none for the case. *)
Lemma prepared_fresh store ledger (a : AuthorizedImport Quality) history at_ record ledger' :
  ledger_ok ledger -> run_ledger (OpPrepare store a history at_) ledger = Ok (record, true, ledger') ->
  recorded ledger' a /\ forall b, recorded ledger b -> ai_CaseID b <> ai_CaseID a.
Proof.
  intros Hok H. apply PrepareImport_Ok in H as (path & _ & Hp & [(? & _)|(_ & -> & Hl & _ & Hw)]); [done|].
  apply writeImportExecution_Ok in Hw as (path' & Hf & ->).
  assert (path' = path) as -> by (destruct Hf as [_ Hf]; cbn in Hf; congruence). split.
  - exists path. eexists. split; [done|]. rewrite lookup_insert_eq. split; [done|].
    by apply sameImportExecution_spec.
  - intros b (q & r & Hq & Hr & _) Heq. rewrite Heq in Hq. congruence.
Qed.

Lemma system_ok_call tokens w running i a t X (e : importE Quality X) k x w' :
  system_ok tokens (mkImportSystem w running) -> running !! i = Some (a, t) -> observe t = VisF e k ->
  answers e w x w' ->
  exists tokens', system_ok tokens' (mkImportSystem w' (<[i := (a, k x)]> running)).
Proof.
  intros Hok Hi Ho Hans. pose proof (safe_step _ _ _ _ _ (so_safe _ _ Hok _ _ _ Hi)) as Hstep.
  rewrite Ho in Hstep. destruct Hstep as [Hmay Hnext]. specialize (Hnext x _ eq_refl).
  pose proof (so_ledger _ _ Hok) as Hl. cbn in Hl.
  destruct e as [| | |b| | |b history at_|caseID id at_|caseID cs at_|caseID at_];
    cbn [answers after_answer may_perform] in Hans, Hnext, Hmay;
    try (subst w'; eexists; by eapply system_ok_step; [..|by left]);
    try (apply updates_ok in Hans as (? & ? & ?); [|done]; eexists; by eapply system_ok_step; [..|by left]).
  - destruct Hmay as [-> Htok]. subst w'. exists (fun j => if decide (j = i) then false else tokens j).
    destruct Hok as [_ Hsafe Htoken Hunique Honce Hrec]. cbn in *.
    destruct (Htoken _ _ _ Hi Htok) as [Hr Hn]. split; cbn.
    + done.
    + intros j b u [[<- [= <- <-]]|[Hne Hj]]%lookup_insert_Some; [by rewrite decide_True|].
      rewrite decide_False by done. by apply Hsafe.
    + intros j b u [[<- [= <- <-]]|[Hne Hj]]%lookup_insert_Some; [by rewrite decide_True|].
      rewrite decide_False by done. intros Hk. destruct (Htoken _ _ _ Hj Hk) as [Hrb Hnb].
      split; [done|]. intros [Hc|Hin]%elem_of_cons; [|done]. apply Hne.
      exact (Hunique _ _ _ _ _ _ Hi Hj Htok Hk (eq_sym Hc)).
    + intros j j' b c u v [[<- [= <- <-]]|[Hne Hj]]%lookup_insert_Some
        [[<- [= <- <-]]|[Hne' Hj']]%lookup_insert_Some; repeat case_decide; try done.
      by eapply Hunique.
    + by constructor.
    + by constructor.
  - destruct Hmay as [-> Htok]. eexists. eapply system_ok_step; [done..| | | |exact Hnext|].
    all: destruct Hans as [(record & changed & ledger & H & -> & Hx)|[Hx ->]]; cbn [with_ledger iw_ledger iw_submitted]; try done.
    + apply run_ledger_effect in H; [|done]. by eapply ledger_effect_ok.
    + apply run_ledger_effect in H; [|done]. intros b. by eapply recorded_effect.
    + destruct Hx as [->|Hx]; [|by destruct x]. intros Hc. cbn in Hc. subst changed. right.
      by eapply prepared_fresh.
    + by destruct x.
Qed.

Lemma import_step_ok s s' :
  (exists tokens, system_ok tokens s) -> import_step s s' -> exists tokens, system_ok tokens s'.
Proof.
  intros [tokens Hok] Hstep.
  destruct Hstep as [w running i a Hi|w running i a t t' Hi Ho|w running i a t X e k x w' Hi Ho Ha|w running i|w running store].
  - exists (fun j => if decide (j = i) then false else tokens j).
    destruct Hok as [Hl Hsafe Htoken Hunique Honce Hrec]. cbn in *. split; cbn; try done.
    + intros j b u [[<- [= <- <-]]|[Hne Hj]]%lookup_insert_Some; [rewrite decide_True by done; apply psafe_Execute|].
      rewrite decide_False by done. by apply Hsafe.
    + intros j b u [[<- [= <- <-]]|[Hne Hj]]%lookup_insert_Some; [by rewrite decide_True|].
      rewrite decide_False by done. by eapply Htoken.
    + intros j j' b c u v [[<- [= <- <-]]|[Hne Hj]]%lookup_insert_Some
        [[<- [= <- <-]]|[Hne' Hj']]%lookup_insert_Some; repeat case_decide; try done.
      by eapply Hunique.
  - pose proof (safe_step _ _ _ _ _ (so_safe _ _ Hok _ _ _ Hi)) as Hs. rewrite Ho in Hs.
    eexists. eapply system_ok_step; [done|exact Hi|apply (so_ledger _ _ Hok)|done|done|exact Hs|by left].
  - by eapply system_ok_call.
  - exists tokens. destruct Hok as [Hl Hsafe Htoken Hunique Honce Hrec]. cbn in *. split; cbn; try done.
    + intros j b u [_ Hj]%lookup_delete_Some. by apply Hsafe.
    + intros j b u [_ Hj]%lookup_delete_Some. by eapply Htoken.
    + intros j j' b c u v [_ Hj]%lookup_delete_Some [_ Hj']%lookup_delete_Some. by eapply Hunique.
  - exists tokens. by destruct Hok as [Hl Hsafe Htoken Hunique Honce Hrec]; split.
Qed.

Lemma reachable_imports_ok s : reachable_imports s -> exists tokens, system_ok tokens s.
Proof.
  induction 1 as [files store ledger Hl%reachable_ledger_ok|s s' _ IH Hstep]; [|by eapply import_step_ok].
  exists (fun _ => false). split; cbn; try done. constructor.
Qed.

(** C15. However many executors run the same imports, wherever they stop and whatever
    Lidarr and the disk answer, no case is submitted twice, every submitted
    import is in the ledger as it was authorized, and an executor is about to
    submit only its own import, which the ledger has and nobody submitted. *)
Theorem import_submitted_once (s : ImportSystem) :
  reachable_imports s ->
  NoDup (ai_CaseID <$> iw_submitted (is_world s)) /\
  Forall (recorded (iw_ledger (is_world s))) (iw_submitted (is_world s)) /\
  (forall i a t b k, is_running s !! i = Some (a, t) -> observe t = VisF (RequestManualImport b) k ->
     b = a /\ recorded (iw_ledger (is_world s)) a /\ ~ submitted_case (is_world s) (ai_CaseID a)).
Proof.
  intros [tokens Hok]%reachable_imports_ok. split; [apply Hok|]. split; [apply Hok|].
  intros i a t b k Hi Ho. pose proof (safe_step _ _ _ _ _ (so_safe _ _ Hok _ _ _ Hi)) as Hs. rewrite Ho in Hs.
  destruct Hs as [[-> Htok] _]. split; [done|]. by eapply so_token.
Qed.
End system.

(** ** Following a command that has ended *)

Section termination.
Context {E : Type -> Type} {Execution : Type} (deps : importflow.ImportExecutionDependencies E Execution).
Context (h : forall X, E X -> nat -> X * nat).
Context (execution failed : Execution) (commandID : Z) (commands : nat -> Command) (now : time).

(** The service never confirms the import and answers the rounds of the poll
    with the commands in turn; waiting and the store do not fail. *)
Record unconfirmed : Prop := mkUnconfirmed
  { un_command : importflow.dep_CommandID deps execution = Some commandID /\ 0 < commandID;
    un_confirm : forall n, returns h (importflow.dep_Confirm deps execution) n (execution, false, None) n;
    un_read : forall n, returns h (importflow.dep_ReadCommand deps commandID) n (Ok (commands n)) (S n);
    un_wait : forall n, returns h (importflow.dep_Wait deps) n (Ok tt) n;
    un_now : forall n, returns h (importflow.dep_Now deps) n now n;
    un_clock : IsZero now = false;
    un_failed : forall n, returns h (importflow.dep_MarkFailed deps execution (UTC now)) n (failed, None) n }.

Definition disposition (n : nat) : result ImportCommandDisposition :=
  ClassifyImportCommand (commands n) (importflow.dep_RequireCompletionResult deps).

(** A command that has ended. *)
Definition ended_command (n : nat) : Prop :=
  disposition n = Ok ImportCommandCompleted \/ disposition n = Ok ImportCommandFailed.

Hypothesis Hun : unconfirmed.

Abbreviation round := (importflow.poll deps execution commandID).

(** The terminal checks after a command of the disposition. *)
Definition counted (d : ImportCommandDisposition) (checks : nat) : nat :=
  match d with ImportCommandPending => 0%nat | _ => S checks end.

(** A round that reads a command of a known disposition. *)
Lemma round_reads n checks d lr s' :
  disposition n = Ok d ->
  returns h (if bool_decide (importflow.terminalConfirmationChecks <= counted d checks)%nat
             then r ← importflow.fail deps execution; mret (inr r)
             else waited ← importflow.dep_Wait deps;
               match waited with
               | Err e => mret (inr (importflow.fails execution e))
               | Ok _ => mret (inl (counted d checks))
               end) (S n) lr s' ->
  returns h (round checks) n lr s'.
Proof.
  intros Hd H. unfold importflow.poll. eapply returns_bind; [apply (un_confirm Hun)|]. cbn.
  eapply returns_bind; [apply (un_read Hun)|]. cbn. unfold disposition in Hd. rewrite Hd. exact H.
Qed.

Lemma round_again n checks d :
  disposition n = Ok d -> (counted d checks < importflow.terminalConfirmationChecks)%nat ->
  returns h (round checks) n (inl (counted d checks)) (S n).
Proof.
  intros Hd Hc. eapply round_reads; [done|]. rewrite bool_decide_eq_false_2 by lia.
  eapply returns_bind; [apply (un_wait Hun)|]. apply returns_ret.
Qed.

Lemma round_fails n checks d :
  disposition n = Ok d -> (importflow.terminalConfirmationChecks <= counted d checks)%nat ->
  returns h (round checks) n (inr (failed, None)) (S n).
Proof.
  intros Hd Hc. eapply round_reads; [done|]. rewrite bool_decide_eq_true_2 by lia.
  eapply (returns_bind _ _ _ _ (failed, None)); [|apply returns_ret]. unfold importflow.fail.
  eapply (returns_bind _ _ _ _ (Ok (UTC now))).
  - unfold importflow.checked_now. eapply returns_bind; [apply (un_now Hun)|]. rewrite (un_clock Hun).
    apply returns_ret.
  - eapply returns_bind; [apply (un_failed Hun)|]. apply returns_ret.
Qed.

Lemma counted_ended n d checks :
  disposition n = Ok d -> ended_command n -> counted d checks = S checks.
Proof. unfold ended_command. intros -> [[= ->]|[= ->]]; done. Qed.

Lemma rounds_end n checks left :
  (checks + left = importflow.terminalConfirmationChecks)%nat -> (0 < left)%nat ->
  (forall m, (n <= m)%nat -> ended_command m) ->
  returns h (ITree.iter round checks) n (failed, None) (n + left)%nat.
Proof.
  revert n checks. induction left as [|left IH]; intros n checks Hsum Hpos Hend; [lia|].
  assert (exists d, disposition n = Ok d) as [d Hd] by (destruct (Hend n); eauto).
  pose proof (counted_ended _ _ checks Hd (Hend n (le_n n))) as Hc. destruct left as [|left].
  - eapply returns_iter_end. rewrite Nat.add_1_r. eapply round_fails; [done|]. lia.
  - eapply returns_iter; [eapply round_again; [done|lia]|]. rewrite Hc.
    replace (n + S (S left))%nat with (S n + S left)%nat by lia. apply IH; [lia..|]. intros m Hm. apply Hend. lia.
Qed.

(** The last terminal checks before a round read commands that had ended. *)
Definition ended_before (n checks : nat) : Prop :=
  (checks <= n)%nat /\ forall m, (n - checks <= m < n)%nat -> ended_command m.

Lemma ended_before_counted n checks d :
  ended_before n checks -> disposition n = Ok d -> ended_before (S n) (counted d checks).
Proof.
  intros [Hle H] Hd. destruct d; cbn [counted]; [split; [lia|]; intros m Hm; lia|..];
    (split; [lia|]; intros m Hm; destruct (decide (m = n)) as [->|]; [unfold ended_command; rewrite Hd; auto|apply H; lia]).
Qed.

Lemma rounds_reach first ahead n checks :
  (n + ahead = first)%nat -> (checks < importflow.terminalConfirmationChecks)%nat -> ended_before n checks ->
  (forall m, exists d, disposition m = Ok d) -> (forall m, (first <= m)%nat -> ended_command m) ->
  exists rounds, (rounds <= first + importflow.terminalConfirmationChecks)%nat /\
    ended_before rounds importflow.terminalConfirmationChecks /\
    returns h (ITree.iter round checks) n (failed, None) rounds.
Proof.
  intros Hn Hc Hb Hread Hend. revert n checks Hn Hc Hb.
  induction ahead as [|ahead IH]; intros n checks Hn Hc [Hle Hb].
  - exists (n + (importflow.terminalConfirmationChecks - checks))%nat. split; [lia|]. split.
    + split; [lia|]. intros m Hm. destruct (decide (m < n)%nat); [apply Hb; lia|apply Hend; lia].
    + apply rounds_end; [lia..|]. intros m Hm. apply Hend. lia.
  - destruct (Hread n) as [d Hd]. pose proof (ended_before_counted n checks d (conj Hle Hb) Hd) as Hb'.
    destruct (decide (importflow.terminalConfirmationChecks <= counted d checks)%nat) as [Hlast|Hmore].
    + exists (S n). split; [lia|]. split; [|eapply returns_iter_end; by eapply round_fails].
      assert (counted d checks = importflow.terminalConfirmationChecks) as <-; [|done].
      destruct d; cbn [counted] in *; lia.
    + destruct (IH (S n) (counted d checks)) as (rounds & Hr & He & H); [lia..|done|]. exists rounds.
      split; [done|]. split; [done|]. eapply returns_iter; [|exact H]. eapply round_again; [done|lia].
Qed.

(** C38. An import that is never confirmed is not followed for ever: when the command
    has ended from some round on, the flow records it as failed at most twelve
    rounds later; and it does so only after twelve rounds in a row in which the
    command had ended. *)
Theorem follow_gives_up (first : nat) :
  (forall m, exists d, disposition m = Ok d) -> (forall m, (first <= m)%nat -> ended_command m) ->
  exists rounds, (12 <= rounds <= first + 12)%nat /\
    (forall m, (rounds - 12 <= m < rounds)%nat -> ended_command m) /\
    returns h (importflow.follow deps execution) 0%nat (failed, None) rounds.
Proof.
  intros Hread Hend. destruct (un_command Hun) as [Hid Hpos].
  destruct (rounds_reach first first 0 0) as (rounds & Hle & [Hge He] & Hr);
    [done|unfold importflow.terminalConfirmationChecks; lia|split; lia|done..|].
  change importflow.terminalConfirmationChecks with 12%nat in *. exists rounds. split; [lia|].
  split; [exact He|]. unfold importflow.follow. rewrite Hid. by rewrite bool_decide_eq_false_2 by lia.
Qed.
End termination.
