(* ===== verification/QueueFinalize.v ===== *)
(** * Removing finished downloads from a queue

    [internal/queuefinalize/finalizer.go], which removes queue entries whose
    repair is complete and keeps a record of every removal;
    [internal/repair/removal.go], which removes the entry of one job; and the
    choice of complete entries of [internal/lidarr/finalize.go] and
    [internal/radarr/finalize.go]. A record file is the record it decodes to; the
    service's queue is what [ReadQueue] returned, its removal an answer per call;
    [Replace] says whether a record could be written, and is a parameter.
    The lock only orders the operations on the records, so each is one step. *)
From stdpp Require Import base strings list gmap sorting.
From S2P Require Import Prelude GoStrings ExecutionRecords Jobs Radarr LidarrRepair.

Module queuefinalize.

Definition recordVersion : string := "servarr-queue-finalization/v1".

Inductive State := Prepared | Completed | OtherState (state : string).

Record Entry := mkEntry
  { en_QueueID : Z; en_DownloadID : string; en_SubjectID : Z; en_Status : string;
    en_TrackedDownloadStatus : string }.

#[global] Instance State_eq_dec : EqDecision State.
Proof. solve_decision. Defined.
#[global] Instance Entry_eq_dec : EqDecision Entry.
Proof. solve_decision. Defined.

Definition Eligible (entry : Entry) : bool :=
  bool_decide (0 < en_QueueID entry) && negb (bool_decide (TrimSpace (en_DownloadID entry) = "")) &&
  bool_decide (TrimSpace (en_DownloadID entry) = en_DownloadID entry) &&
  bool_decide (0 < en_SubjectID entry) && bool_decide (en_Status entry = "completed") &&
  bool_decide (en_TrackedDownloadStatus entry = "warning").

Inductive Outcome := OutcomeFinalized | OutcomeAlreadyAbsent | OutcomeIdentityChanged.

Record Report := mkReport { rp_Finalized : Z; rp_Reconciled : Z }.

Record record := mkRecord
  { fr_Version : string; fr_Service : string; fr_Entry : Entry; fr_State : State;
    fr_PreparedAt : time; fr_UpdatedAt : time }.

(** The records by queue ID, the removals asked of the service in their order,
    the number of clock readings, and the results so far, which an error keeps. *)
Record state := mkState
  { fs_files : gmap Z record; fs_removed : list Z; fs_ticks : nat;
    fs_report : Report; fs_outcomes : gmap Z Outcome }.

(** A step may fail and keeps the state it reached. *)
Definition M (A : Type) : Type := state -> result A * state.
#[global] Instance M_ret : MRet M := fun _ a s => (Ok a, s).
#[global] Instance M_bind : MBind M := fun _ _ f m s =>
  match m s with (Ok a, s) => f a s | (Err e, s) => (Err e, s) end.
Definition lift {A} (r : result A) : M A := fun s => (r, s).
Definition check (b : bool) (e : error) : M unit := lift (fail_if b e).

(** What [privatefile.Replace] did: the rename that publishes the record may
    succeed and the synchronisation of the directory fail after it. *)
Inductive replaced := Replaced | ReplacedUnsynced (e : error) | NotReplaced (e : error).

Section finalizer.
Context (service : string) (clock : nat -> time) (Remove : nat -> Z -> result unit)
  (Replace : state -> record -> replaced).

Definition now : M time := fun s =>
  (Ok (UTC (clock (fs_ticks s))),
   mkState (fs_files s) (fs_removed s) (S (fs_ticks s)) (fs_report s) (fs_outcomes s)).

Definition remove (queueID : Z) : M unit := fun s =>
  (Remove (length (fs_removed s)) queueID,
   mkState (fs_files s) (fs_removed s ++ [queueID]) (fs_ticks s) (fs_report s) (fs_outcomes s)).

Definition put_file (queueID : Z) (value : record) : M unit := fun s =>
  let published :=
    mkState (<[queueID := value]> (fs_files s)) (fs_removed s) (fs_ticks s) (fs_report s) (fs_outcomes s) in
  match Replace s value with
  | Replaced => (Ok tt, published)
  | ReplacedUnsynced e => (Err e, published)
  | NotReplaced e => (Err e, s)
  end.

Definition report_reconciled : M unit := fun s =>
  (Ok tt, mkState (fs_files s) (fs_removed s) (fs_ticks s)
            (mkReport (rp_Finalized (fs_report s)) (rp_Reconciled (fs_report s) + 1)) (fs_outcomes s)).
Definition report_finalized : M unit := fun s =>
  (Ok tt, mkState (fs_files s) (fs_removed s) (fs_ticks s)
            (mkReport (rp_Finalized (fs_report s) + 1) (rp_Reconciled (fs_report s))) (fs_outcomes s)).
Definition put_outcome (queueID : Z) (outcome : Outcome) : M unit := fun s =>
  (Ok tt, mkState (fs_files s) (fs_removed s) (fs_ticks s) (fs_report s)
            (<[queueID := outcome]> (fs_outcomes s))).

(** ** The store *)

Definition validate (value : record) : result unit :=
  fail_if (negb (bool_decide (fr_Version value = recordVersion)) ||
           negb (bool_decide (fr_Service value = service)) || negb (Eligible (fr_Entry value)) ||
           IsZero (fr_PreparedAt value) || IsZero (fr_UpdatedAt value) ||
           Before (fr_UpdatedAt value) (fr_PreparedAt value) ||
           (negb (bool_decide (fr_State value = Prepared)) && negb (bool_decide (fr_State value = Completed))))
    "queue finalization state is invalid".

Definition read (queueID : Z) : M (option record) := fun s =>
  (match fs_files s !! queueID with
   | None => Ok None
   | Some value => _ ← validate value; mret (Some value)
   end, s).

(** Times are encoded with a year of four digits. *)
Definition write (value : record) : M unit :=
  _ ← lift (validate value);
  _ ← check (negb (json_time (fr_PreparedAt value) && json_time (fr_UpdatedAt value)))
        "encode queue finalization state";
  put_file (en_QueueID (fr_Entry value)) value.

Definition prepare (entry : Entry) (at_ : time) : M unit :=
  _ ← check (IsZero at_) "queue finalization time is invalid";
  previous ← read (en_QueueID entry);
  match previous with
  | Some previous =>
      check (negb (bool_decide (fr_Entry previous = entry))) "queue finalization record changed identity"
  | None => write (mkRecord recordVersion service entry Prepared at_ at_)
  end.

Definition complete (entry : Entry) (at_ : time) : M unit :=
  _ ← check (IsZero at_) "queue finalization time is invalid";
  previous ← read (en_QueueID entry);
  match previous with
  | None => lift (Err "prepared queue finalization is unavailable")
  | Some previous =>
      _ ← check (negb (bool_decide (fr_Entry previous = entry)))
            "prepared queue finalization is unavailable";
      if bool_decide (fr_State previous = Completed) then mret tt
      else write (mkRecord (fr_Version previous) (fr_Service previous) (fr_Entry previous) Completed
                    (fr_PreparedAt previous) at_)
  end.

Definition record_le (a b : record) : Prop := en_QueueID (fr_Entry a) <= en_QueueID (fr_Entry b).
#[global] Instance record_le_dec : RelDecision record_le.
Proof. intros a b. unfold record_le. apply _. Defined.

Definition list_records : M (list record) := fun s =>
  let records := map snd (map_to_list (fs_files s)) in
  (_ ← mapM validate records; mret (merge_sort record_le records), s).

(** ** A run *)

Fixpoint index_queue (byID : gmap Z Entry) (current : list Entry) : result (gmap Z Entry) :=
  match current with
  | [] => Ok byID
  | entry :: rest =>
      _ ← fail_if (bool_decide (en_QueueID entry <= 0)) "queue contains an invalid record";
      _ ← fail_if (bool_decide (is_Some (byID !! en_QueueID entry))) "queue contains duplicate record ID";
      index_queue (<[en_QueueID entry := entry]> byID) rest
  end.

Fixpoint reconcile (byID : gmap Z Entry) (records : list record) : M unit :=
  match records with
  | [] => mret tt
  | value :: rest =>
      if negb (bool_decide (fr_State value = Prepared)) || bool_decide (is_Some (byID !! en_QueueID (fr_Entry value)))
      then reconcile byID rest
      else
        at_ ← now;
        _ ← complete (fr_Entry value) at_;
        _ ← report_reconciled;
        reconcile byID rest
  end.

Fixpoint finalize (byID : gmap Z Entry) (limit : Z) (ordered : list Entry) : M unit :=
  match ordered with
  | [] => mret tt
  | candidate :: rest => fun s =>
      (if bool_decide (limit <= rp_Finalized (fs_report s)) then mret tt
       else
         match byID !! en_QueueID candidate with
         | None =>
             _ ← put_outcome (en_QueueID candidate) OutcomeAlreadyAbsent; finalize byID limit rest
         | Some observed =>
             if negb (bool_decide (observed = candidate)) || negb (Eligible observed)
             then _ ← put_outcome (en_QueueID candidate) OutcomeIdentityChanged; finalize byID limit rest
             else
               at_ ← now;
               _ ← prepare candidate at_;
               _ ← remove (en_QueueID candidate);
               at_ ← now;
               _ ← complete candidate at_;
               _ ← report_finalized;
               _ ← put_outcome (en_QueueID candidate) OutcomeFinalized;
               finalize byID limit rest
         end) s
  end.

Definition entry_le (a b : Entry) : Prop := en_QueueID a <= en_QueueID b.
#[global] Instance entry_le_dec : RelDecision entry_le.
Proof. intros a b. unfold entry_le. apply _. Defined.

Definition run (ReadQueue : result (list Entry)) (candidates : list Entry) (limit : Z) : M unit :=
  _ ← check (bool_decide (limit <= 0)) "queue finalizer is not configured";
  _ ← check (negb (forallb Eligible candidates)) "queue finalization candidate is ineligible";
  current ← lift ReadQueue;
  byID ← lift (index_queue ∅ current);
  records ← list_records;
  _ ← reconcile byID records;
  finalize byID limit (merge_sort entry_le candidates).

(** A run starts with an empty report and no outcomes. *)
Definition fresh (files : gmap Z record) : state := mkState files [] 0 (mkReport 0 0) ∅.

Definition Run (ReadQueue : result (list Entry)) (candidates : list Entry) (limit : Z)
    (files : gmap Z record) : result unit * state :=
  run ReadQueue candidates limit (fresh files).

Definition outcome_of (candidate : Entry) : M Outcome := fun s =>
  (match fs_outcomes s !! en_QueueID candidate with
   | Some outcome => Ok outcome
   | None => Err "queue finalization produced no outcome"
   end, s).

Definition Finalize (ReadQueue : result (list Entry)) (candidate : Entry) (files : gmap Z record)
    : result Outcome * state :=
  (_ ← check (negb (Eligible candidate)) "queue finalization candidate is ineligible";
   _ ← run ReadQueue [candidate] 1;
   outcome_of candidate) (fresh files).
End finalizer.
End queuefinalize.
Import queuefinalize.

(** ** Removing the entry of a job ([internal/repair/removal.go]) *)
Module removal.

(** What the queue was, the removal's answer, and what the queue is then; the
    result carries the queue entry whose removal was asked, if any was. *)
Definition RemoveTracking (RemovalQueue : result (list Entry)) (FinalizeQueue : Z -> result unit)
    (Remaining : result (list Entry)) (job : jobs.Job) : result unit * option Entry :=
  match (entries ← RemovalQueue;
         index ← jobs.MatchQueue (jobs.job_QueueKey job)
                   (map (fun entry => jobs.mkQueueKey (en_QueueID entry) (en_DownloadID entry)) entries);
         mret (match index with Some index => entries !! index | None => None end)) with
  | Err e => (Err e, None)
  | Ok None => (Ok tt, None)
  | Ok (Some selected) =>
      if negb (Eligible selected)
      then (Err "queue identity or completion status changed; removal not performed", None)
      else
        (_ ← FinalizeQueue (en_QueueID selected);
         remaining ← Remaining;
         fail_if (existsb (fun entry => bool_decide (en_DownloadID entry = jobs.job_DownloadID job)) remaining)
           "queue removal accepted but the item is still present", Some selected)
  end.
End removal.

(** ** Entries that are complete *)
Module finalization.

Section lidarr.
Import lidarr.
Context (ReadQueue : result (list QueueRecord))
  (RecoverAlbumIdentity : string -> result (option (Z * Z)))
  (ReadAlbum : Z -> result Album) (ReadReleaseTracks : Z -> Z -> result (list Track)).

Definition FinalizationEntry (record : QueueRecord) : Entry :=
  mkEntry (q_ID record) (q_DownloadID record)
    (match q_AlbumID record, q_ArtistID record with Some albumID, Some _ => albumID | _, _ => 0 end)
    (q_Status record) (q_TrackedDownloadStatus record).

Definition with_identity (queue : QueueRecord) (albumID artistID : Z) : QueueRecord :=
  mkQueueRecord (q_ID queue) (Some artistID) (Some albumID) (q_Title queue) (q_Status queue)
    (q_TrackedDownloadStatus queue) (q_StatusMessages queue) (q_ErrorMessage queue) (q_DownloadID queue)
    (q_OutputPath queue).

(** The recovered identity is of the album and of the artist. *)
Definition RecoverQueueIdentity (queue : QueueRecord) : result QueueRecord :=
  match q_AlbumID queue, q_ArtistID queue with
  | Some _, Some _ => Ok queue
  | _, _ =>
      found ← RecoverAlbumIdentity (q_DownloadID queue);
      match found with
      | None => Ok queue
      | Some (albumID, artistID) =>
          _ ← fail_if (match q_AlbumID queue with Some id => negb (bool_decide (id = albumID)) | None => false end)
                "recovered Lidarr album identity conflicts with queue";
          _ ← fail_if (match q_ArtistID queue with Some id => negb (bool_decide (id = artistID)) | None => false end)
                "recovered Lidarr artist identity conflicts with queue";
          mret (with_identity queue albumID artistID)
      end
  end.

Definition recoverRecord (record : QueueRecord) : result QueueRecord :=
  match q_AlbumID record, q_ArtistID record with
  | Some _, Some _ => Ok record
  | _, _ =>
      if bool_decide (q_ID record <= 0) || bool_decide (q_DownloadID record = "") ||
         negb (bool_decide (q_Status record = "completed")) ||
         negb (bool_decide (q_TrackedDownloadStatus record = "warning"))
      then Ok record
      else RecoverQueueIdentity record
  end.

Definition readFinalizationQueue : result (list QueueRecord) :=
  records ← ReadQueue; mapM recoverRecord records.

Definition ReadFinalizationEntries : result (list Entry) :=
  records ← readFinalizationQueue; mret (map FinalizationEntry records).

Definition monitoredReleaseComplete (albumID : Z) : result bool :=
  album ← ReadAlbum albumID;
  if negb (al_Monitored album) then mret false
  else
    match List.filter r_Monitored (al_Releases album) with
    | [monitored] =>
        tracks ← ReadReleaseTracks (al_ID album) (r_ID monitored);
        if negb (bool_decide (Z.of_nat (length tracks) = r_TrackCount monitored)) then mret false
        else mret (forallb (fun track => t_HasFile track && bool_decide (0 < t_TrackFileID track)) tracks)
    | _ => mret false
    end.

(** The loop of [FinalizationCandidates], with what it checked before. *)
Fixpoint candidates_loop (complete : gmap Z bool) (records : list QueueRecord) : result (list Entry) :=
  match records with
  | [] => Ok []
  | record :: rest =>
      let entry := FinalizationEntry record in
      match Eligible entry, q_AlbumID record, q_ArtistID record with
      | true, Some albumID, Some _ =>
          complete ← (match complete !! albumID with
                      | Some _ => Ok complete
                      | None => done ← monitoredReleaseComplete albumID; mret (<[albumID := done]> complete)
                      end);
          result ← candidates_loop complete rest;
          mret (if default false (complete !! albumID) then entry :: result else result)
      | _, _, _ => candidates_loop complete rest
      end
  end.

Definition FinalizationCandidates : result (list Entry) :=
  records ← readFinalizationQueue; candidates_loop ∅ records.
End lidarr.
End finalization.
