(* ===== verification/QueueRemoval.v ===== *)
(** * Which queue entries are removed

    The finalizer removes only entries that it was asked to remove and saw
    unchanged in the queue, at most as many as allowed, each with a durable record
    of its identity; and the Lidarr entries it is asked to remove are those whose
    album is complete. *)
From stdpp Require Import base strings list gmap sorting.
From S2P Require Import Prelude GoStrings ExecutionRecords Radarr LidarrRepair LidarrSafety QueueFinalize.
Import queuefinalize.

Section finalizer.
Context (service : string) (clock : nat -> time) (Remove : nat -> Z -> result unit)
  (Replace : state -> record -> replaced).
Abbreviation prepare := (prepare service Replace).
Abbreviation complete := (complete service Replace).
Abbreviation read := (read service).
Abbreviation write := (write service Replace).
Abbreviation now := (now clock).
Abbreviation remove := (remove Remove).
Abbreviation reconcile := (reconcile service clock Replace).
Abbreviation finalize := (finalize service clock Remove Replace).
Implicit Types (s : state) (files : gmap Z record).

(** Records are never dropped and keep their entry; completed ones do not change. *)
Definition kept (r r' : record) : Prop :=
  fr_Entry r' = fr_Entry r /\ (fr_State r = Completed -> r' = r).
Definition files_evolve files files' : Prop :=
  forall id r, files !! id = Some r -> exists r', files' !! id = Some r' /\ kept r r'.

#[local] Instance files_evolve_preorder : PreOrder files_evolve.
Proof.
  split.
  - intros files id r H. exists r. by repeat split.
  - intros f1 f2 f3 H12 H23 id r H. destruct (H12 _ _ H) as (r2 & H2 & E2 & C2).
    destruct (H23 _ _ H2) as (r3 & H3 & E3 & C3). exists r3. split; [done|]. split; [congruence|].
    intros Hc. specialize (C2 Hc) as ->. by apply C3.
Qed.

Lemma files_evolve_insert files id value :
  (forall r, files !! id = Some r -> kept r value) -> files_evolve files (<[id := value]> files).
Proof.
  intros H id' r Hr. destruct (decide (id = id')) as [<-|Hne].
  - exists value. rewrite lookup_insert_eq. auto.
  - exists r. rewrite lookup_insert_ne by done. by repeat split.
Qed.

(** Everything but the records stays. *)
Definition only_files s s' : Prop :=
  fs_removed s' = fs_removed s /\ fs_report s' = fs_report s /\ fs_outcomes s' = fs_outcomes s /\
  files_evolve (fs_files s) (fs_files s').

Lemma only_files_refl s : only_files s s.
Proof. by repeat split. Qed.

(** A monadic step, taken apart. *)
Lemma M_bind_inv {A B} (m : M A) (f : A -> M B) s r s' :
  (m ≫= f) s = (r, s') ->
  (exists a s1, m s = (Ok a, s1) /\ f a s1 = (r, s')) \/ (exists e, m s = (Err e, s') /\ r = Err e).
Proof.
  unfold mbind, M_bind. destruct (m s) as [[a|e] s1]; [by left; exists a, s1|].
  intros [= <- <-]. right. by exists e.
Qed.

Lemma check_inv b e s r s' : check b e s = (r, s') -> s' = s /\ (is_ok r = true -> b = false).
Proof. unfold check, lift. intros [= <- <-]. split; [done|]. by destruct b. Qed.

Lemma read_inv id s r s' :
  read id s = (r, s') -> s' = s /\ forall found, r = Ok found -> found = fs_files s !! id.
Proof.
  unfold queuefinalize.read. intros [= <- <-]. split; [done|]. destruct (fs_files s !! id) as [value|].
  - intros found H. apply bind_Ok in H as (u & _ & H). by injection H.
  - by intros found [= <-].
Qed.

Lemma write_inv value s r s' :
  write value s = (r, s') ->
  (s' = s /\ is_ok r = false) \/
  s' = mkState (<[en_QueueID (fr_Entry value) := value]> (fs_files s)) (fs_removed s)
         (fs_ticks s) (fs_report s) (fs_outcomes s).
Proof.
  unfold queuefinalize.write, mbind, M_bind, check, lift. destruct (validate service value) as [u|e].
  - destruct (fail_if _ _) as [u1|e]; [|intros [= <- <-]; by left].
    unfold put_file. destruct (Replace s value); intros [= <- <-]; [by right|by right|by left].
  - intros [= <- <-]. by left.
Qed.

(** The record of an entry, once it was prepared or completed. *)
Definition recorded (entry : Entry) (wanted : State -> Prop) s : Prop :=
  exists value, fs_files s !! en_QueueID entry = Some value /\ fr_Entry value = entry /\ wanted (fr_State value).

Lemma write_spec value s r s' :
  (forall previous, fs_files s !! en_QueueID (fr_Entry value) = Some previous -> kept previous value) ->
  write value s = (r, s') ->
  only_files s s' /\ (is_ok r = true -> recorded (fr_Entry value) (eq (fr_State value)) s').
Proof.
  intros Hk [[-> Hr]| ->]%write_inv.
  - split; [apply only_files_refl|]. by rewrite Hr.
  - split; [repeat split; simpl; by apply files_evolve_insert|]. intros _. exists value. simpl.
    by rewrite lookup_insert_eq.
Qed.

Lemma prepare_spec entry at_ s r s' :
  prepare entry at_ s = (r, s') ->
  only_files s s' /\ (is_ok r = true -> recorded entry (fun _ => True) s').
Proof.
  unfold queuefinalize.prepare. intros [(u & s1 & H1 & H)|(e & H1 & ->)]%M_bind_inv;
    apply check_inv in H1 as [-> _]; [|by split; [apply only_files_refl|]].
  apply M_bind_inv in H as [(previous & s1 & H1 & H)|(e & H1 & ->)];
    apply read_inv in H1 as [-> Hf]; [|by split; [apply only_files_refl|]].
  specialize (Hf _ eq_refl) as ->. destruct (fs_files s !! en_QueueID entry) as [previous|] eqn:E.
  - apply check_inv in H as [-> Hb]. split; [apply only_files_refl|]. intros Hr.
    specialize (Hb Hr). apply negb_false_iff, bool_decide_eq_true in Hb. by exists previous.
  - apply write_spec in H as [Ho Hr]; [|simpl; congruence]. split; [done|].
    intros (value & Hv & He & _)%Hr. by exists value.
Qed.

Lemma complete_spec entry at_ s r s' :
  complete entry at_ s = (r, s') ->
  only_files s s' /\ (is_ok r = true -> recorded entry (eq Completed) s').
Proof.
  unfold queuefinalize.complete. intros [(u & s1 & H1 & H)|(e & H1 & ->)]%M_bind_inv;
    apply check_inv in H1 as [-> _]; [|by split; [apply only_files_refl|]].
  apply M_bind_inv in H as [(previous & s1 & H1 & H)|(e & H1 & ->)];
    apply read_inv in H1 as [-> Hf]; [|by split; [apply only_files_refl|]].
  specialize (Hf _ eq_refl) as ->. destruct (fs_files s !! en_QueueID entry) as [previous|] eqn:E.
  2:{ injection H as <- <-. by split; [apply only_files_refl|]. }
  apply M_bind_inv in H as [(u1 & s1 & H1 & H)|(e & H1 & ->)];
    apply check_inv in H1 as [-> Hb]; [|by split; [apply only_files_refl|]].
  specialize (Hb eq_refl). apply negb_false_iff, bool_decide_eq_true in Hb.
  destruct (bool_decide (fr_State previous = Completed)) eqn:Hs.
  - injection H as <- <-. apply bool_decide_eq_true in Hs. split; [apply only_files_refl|].
    intros _. by exists previous.
  - apply bool_decide_eq_false in Hs. apply write_spec in H as [Ho Hr].
    + split; [done|]. simpl in Hr. by rewrite Hb in Hr.
    + simpl. rewrite Hb, E. intros previous' [= <-]. by split.
Qed.

Lemma reconcile_spec byID records s r s' :
  reconcile byID records s = (r, s') ->
  fs_removed s' = fs_removed s /\ rp_Finalized (fs_report s') = rp_Finalized (fs_report s) /\
  files_evolve (fs_files s) (fs_files s').
Proof.
  revert s. induction records as [|value records IH]; intros s; cbn [queuefinalize.reconcile].
  { intros [= <- <-]. by repeat split. }
  destruct (negb _ || _); [apply IH|].
  intros [(at_ & s1 & [= <- <-] & H)|(e & [= <-] & _)]%M_bind_inv.
  apply M_bind_inv in H as [(u & s1 & (Hrm & Hrp & _ & Hf)%complete_spec%proj1 & H)|
                            (e & (Hrm & Hrp & _ & Hf)%complete_spec%proj1 & ->)].
  2:{ simpl in *. rewrite Hrm, Hrp. by repeat split. }
  apply M_bind_inv in H as [(u1 & s2 & [= <- <-] & H)|(e & [= <-] & _)].
  apply IH in H as (H1 & H2 & H3). simpl in *. rewrite H1, H2, Hrm, Hrp. split_and!; [done..|by etrans].
Qed.

(** The removals of a run: entries seen unchanged in the queue, with a record
    that is complete if the run was. *)
Definition removed_entry (byID : gmap Z Entry) (ordered : list Entry) (ok : bool) s (id : Z) : Prop :=
  exists c, c ∈ ordered /\ en_QueueID c = id /\ byID !! id = Some c /\ Eligible c = true /\
    recorded c (fun state => ok = true -> state = Completed) s.

Lemma removed_entry_mono byID ordered ordered' (ok ok' : bool) s s' id :
  (forall c, c ∈ ordered -> c ∈ ordered') -> (ok' = true -> ok = true) ->
  files_evolve (fs_files s) (fs_files s') ->
  removed_entry byID ordered ok s id -> removed_entry byID ordered' ok' s' id.
Proof.
  intros Hin Hok Hf (c & Hc & Hid & Hb & He & value & Hv & Hve & Hvs). exists c. split_and!; auto.
  destruct (Hf _ _ Hv) as (value' & Hv' & E & C). exists value'. split_and!; [done|congruence|].
  intros Hok'. specialize (Hvs (Hok Hok')). rewrite (C Hvs). done.
Qed.

Definition run_effect (byID : gmap Z Entry) (limit : Z) (ordered : list Entry) s (r : result unit) s' : Prop :=
  exists ids, fs_removed s' = fs_removed s ++ ids /\
    Forall (removed_entry byID ordered (is_ok r) s') ids /\
    Z.of_nat (length ids) <= Z.max 0 (limit - rp_Finalized (fs_report s)) /\
    files_evolve (fs_files s) (fs_files s') /\
    (is_ok r = true ->
     rp_Finalized (fs_report s') = rp_Finalized (fs_report s) + Z.of_nat (length ids)).

(** Nothing was removed. *)
Lemma run_effect_none byID limit ordered s r s' :
  fs_removed s' = fs_removed s -> rp_Finalized (fs_report s') = rp_Finalized (fs_report s) ->
  files_evolve (fs_files s) (fs_files s') -> run_effect byID limit ordered s r s'.
Proof.
  intros H1 H2 H3. exists []. rewrite app_nil_r. split_and!; [done|constructor|simpl; lia|done|].
  intros _. simpl. lia.
Qed.

Lemma run_effect_cons byID limit c ordered s s1 r s' :
  fs_removed s1 = fs_removed s -> rp_Finalized (fs_report s1) = rp_Finalized (fs_report s) ->
  files_evolve (fs_files s) (fs_files s1) -> run_effect byID limit ordered s1 r s' ->
  run_effect byID limit (c :: ordered) s r s'.
Proof.
  intros H1 H2 H3 (ids & Hr & HF & Hl & Hf & Hn). exists ids. rewrite H1, H2 in *. split_and!; try done.
  - eapply Forall_impl; [exact HF|]. intros id. apply removed_entry_mono; [by right|done|reflexivity].
  - by etrans.
Qed.

(** The removal of one entry: it is recorded before and completed after. *)
Lemma removed_one byID limit c ordered s r s' :
  byID !! en_QueueID c = Some c -> Eligible c = true -> rp_Finalized (fs_report s) < limit ->
  fs_removed s' = fs_removed s ++ [en_QueueID c] -> files_evolve (fs_files s) (fs_files s') ->
  recorded c (fun _ => True) s' -> is_ok r = false ->
  run_effect byID limit (c :: ordered) s r s'.
Proof.
  intros Hb He Hlim Hrm Hf (value & Hv & Hve & _) Hr. exists [en_QueueID c]. rewrite Hr.
  split_and!; [done| |simpl; lia|done|done]. constructor; [|constructor]. exists c.
  split_and!; try done; [left|]. by exists value.
Qed.

Lemma finalize_one byID limit c ordered (rest : M unit) s r s' :
  byID !! en_QueueID c = Some c -> Eligible c = true -> rp_Finalized (fs_report s) < limit ->
  (forall s1, rest s1 = (r, s') -> run_effect byID limit ordered s1 r s') ->
  (at_ ← now; _ ← prepare c at_; _ ← remove (en_QueueID c); at_ ← now; _ ← complete c at_;
   _ ← report_finalized; _ ← put_outcome (en_QueueID c) OutcomeFinalized; rest) s = (r, s') ->
  run_effect byID limit (c :: ordered) s r s'.
Proof.
  intros Hb He Hlim Hrest H.
  apply M_bind_inv in H as [(at_ & s0 & [= <- <-] & H)|(e & [= <-] & _)].
  apply M_bind_inv in H as [(u & s1 & [(Hrm & Hrp & _ & Hf) Hrec]%prepare_spec & H)|
                            (e & [(Hrm & Hrp & _ & Hf) _]%prepare_spec & ->)].
  2:{ apply run_effect_none; simpl in *; [done|by rewrite Hrp|done]. }
  specialize (Hrec eq_refl). simpl in Hrm, Hrp, Hf.
  apply M_bind_inv in H as [(u1 & s2 & [= _ <-] & H)|(e & [= _ <-] & ->)].
  2:{ apply removed_one; simpl; try done. by rewrite Hrm. }
  apply M_bind_inv in H as [(at2 & s3 & [= <- <-] & H)|(e & [= <-] & _)].
  apply M_bind_inv in H as [(u2 & s4 & [(Hrm4 & Hrp4 & _ & Hf4) Hrec4]%complete_spec & H)|
                            (e & [(Hrm4 & Hrp4 & _ & Hf4) _]%complete_spec & ->)]; simpl in Hrm4, Hrp4, Hf4.
  2:{ apply removed_one; try done; [by rewrite Hrm4, Hrm|by etrans|].
      destruct Hrec as (value & Hv & Hve & _). destruct (Hf4 _ _ Hv) as (value' & Hv' & E & _).
      exists value'. split_and!; [done|congruence|done]. }
  specialize (Hrec4 eq_refl) as (value & Hv & Hve & Hvs).
  apply M_bind_inv in H as [(u3 & s5 & [= <- <-] & H)|(e & [= <-] & _)].
  apply M_bind_inv in H as [(u4 & s6 & [= <- <-] & H)|(e & [= <-] & _)].
  apply Hrest in H as (ids & Hr & HF & Hl & Hfe & Hn). simpl in *. rewrite Hrp4, Hrp in *.
  exists (en_QueueID c :: ids). split_and!.
  - rewrite Hr, Hrm4, Hrm, <- app_assoc. done.
  - constructor.
    + exists c. split_and!; try done; [left|]. destruct (Hfe _ _ Hv) as (value' & Hv' & E & C).
      exists value'. split_and!; [done|congruence|]. intros _. by rewrite C.
    + eapply Forall_impl; [exact HF|]. intros id. apply removed_entry_mono; [by right|done|reflexivity].
  - simpl. lia.
  - etrans; [exact Hf|]. by etrans.
  - intros Hok. rewrite (Hn Hok). simpl. lia.
Qed.

Lemma finalize_spec byID limit ordered s r s' :
  finalize byID limit ordered s = (r, s') -> run_effect byID limit ordered s r s'.
Proof.
  revert s. induction ordered as [|c ordered IH]; intros s; cbn [queuefinalize.finalize].
  { intros [= <- <-]. by apply run_effect_none. }
  destruct (bool_decide (limit <= _)) eqn:Hlim.
  { intros [= <- <-]. by apply run_effect_none. }
  apply bool_decide_eq_false in Hlim. destruct (byID !! en_QueueID c) as [observed|] eqn:Hb.
  2:{ intros [(u & s1 & [= <- <-] & H)|(e & [= <-] & _)]%M_bind_inv. apply IH in H.
      by eapply run_effect_cons; [..|exact H]. }
  destruct (negb (bool_decide (observed = c)) || negb (Eligible observed)) eqn:Hok.
  { intros [(u & s1 & [= <- <-] & H)|(e & [= <-] & _)]%M_bind_inv. apply IH in H.
    by eapply run_effect_cons; [..|exact H]. }
  apply orb_false_iff in Hok as [Heq%negb_false_iff%bool_decide_eq_true Hel%negb_false_iff]. subst observed.
  apply finalize_one; [done|done|lia|]. intros s1. apply IH.
Qed.

Lemma index_queue_elem byID current byID' id entry :
  index_queue byID current = Ok byID' -> byID' !! id = Some entry ->
  entry ∈ current \/ byID !! id = Some entry.
Proof.
  revert byID. induction current as [|e current IH]; intros byID; simpl; [intros [= <-]; by right|].
  intros H Hl. apply bind_Ok in H as (u & _ & H). apply bind_Ok in H as (u1 & _ & H).
  destruct (IH _ H Hl) as [Hin|Hin]; [left; by right|].
  destruct (decide (en_QueueID e = id)) as [<-|Hne].
  - rewrite lookup_insert_eq in Hin. injection Hin as ->. left. left.
  - rewrite lookup_insert_ne in Hin by done. by right.
Qed.

Lemma run_spec current candidates limit s r s' :
  run service clock Remove Replace (Ok current) candidates limit s = (r, s') ->
  exists byID, (forall id c, byID !! id = Some c -> c ∈ current) /\
    run_effect byID limit candidates s r s'.
Proof.
  unfold run. intros [(u & s1 & [-> _]%check_inv & H)|(e & [-> _]%check_inv & ->)]%M_bind_inv.
  2:{ exists ∅. split; [done|]. by apply run_effect_none. }
  apply M_bind_inv in H as [(u1 & s1 & [-> _]%check_inv & H)|(e & [-> _]%check_inv & ->)].
  2:{ exists ∅. split; [done|]. by apply run_effect_none. }
  apply M_bind_inv in H as [(c & s1 & [= <- <-] & H)|(e & H & _)]; [|done].
  apply M_bind_inv in H as [(byID & s1 & H1 & H)|(e & H1 & ->)]; injection H1 as H1 <-.
  2:{ exists ∅. split; [done|]. by apply run_effect_none. }
  exists byID. split; [intros id c Hc; by destruct (index_queue_elem _ _ _ _ _ H1 Hc)|].
  apply M_bind_inv in H as [(records & s1 & H2 & H)|(e & H2 & ->)]; injection H2 as _ <-.
  2:{ by apply run_effect_none. }
  apply M_bind_inv in H as [(u2 & s1 & (Hrm & Hrp & Hf)%reconcile_spec & H)|
                            (e & (Hrm & Hrp & Hf)%reconcile_spec & ->)].
  2:{ by apply run_effect_none. }
  apply finalize_spec in H as (ids & Hr & HF & Hl & Hfe & Hn). exists ids. rewrite Hrm, Hrp in *.
  split_and!; try done; [|by etrans].
  eapply Forall_impl; [exact HF|]. intros id. apply removed_entry_mono; [|done|reflexivity].
  intros c. by rewrite merge_sort_Permutation.
Qed.

(** C24. What a run of the finalizer does to the queue and to its records, whether it
    succeeds or fails on the way, also to write a record. It asks for at most [limit] removals, each of an
    eligible candidate that the queue it had read contains unchanged, and whose
    record is on disk; after a run without error those records are completed and
    the report counts the removals. No record of an earlier run is dropped or
    changes its entry, and completed ones stay as they were. *)
Theorem finalizer_removes_exactly current candidates limit files :
  let '(r, s) := Run service clock Remove Replace (Ok current) candidates limit files in
  Z.of_nat (length (fs_removed s)) <= Z.max 0 limit /\
  Forall (fun id => exists c value, c ∈ candidates /\ c ∈ current /\ en_QueueID c = id /\
            Eligible c = true /\ fs_files s !! id = Some value /\ fr_Entry value = c /\
            (is_ok r = true -> fr_State value = Completed)) (fs_removed s) /\
  (is_ok r = true -> rp_Finalized (fs_report s) = Z.of_nat (length (fs_removed s))) /\
  (forall id value, files !! id = Some value ->
     exists value', fs_files s !! id = Some value' /\ fr_Entry value' = fr_Entry value /\
       (fr_State value = Completed -> value' = value)).
Proof.
  destruct (Run service clock Remove Replace (Ok current) candidates limit files) as [r s] eqn:E.
  apply run_spec in E as (byID & Hin & ids & Hr & HF & Hl & Hf & Hn). simpl in *.
  rewrite Hr. split_and!.
  - lia.
  - eapply Forall_impl; [exact HF|]. intros id (c & Hc & Hid & Hb & He & value & Hv & Hve & Hvs).
    exists c, value. rewrite Hid in Hv. split_and!; eauto.
  - intros Hok. rewrite (Hn Hok). lia.
  - exact Hf.
Qed.
End finalizer.

(** ** Complete albums *)
Section candidates.
Import lidarr finalization.
Context (ReadQueue : result (list QueueRecord))
  (RecoverAlbumIdentity : string -> result (option (Z * Z)))
  (ReadAlbum : Z -> result Album) (ReadReleaseTracks : Z -> Z -> result (list Track)).

(** Every track of the one monitored release of a monitored album has a file. *)
Definition album_complete (albumID : Z) : Prop :=
  exists album release tracks, ReadAlbum albumID = Ok album /\ al_Monitored album = true /\
    List.filter r_Monitored (al_Releases album) = [release] /\
    ReadReleaseTracks (al_ID album) (r_ID release) = Ok tracks /\
    Z.of_nat (length tracks) = r_TrackCount release /\
    Forall (fun track => t_HasFile track = true /\ 0 < t_TrackFileID track) tracks.

Lemma monitoredReleaseComplete_true albumID :
  monitoredReleaseComplete ReadAlbum ReadReleaseTracks albumID = Ok true <-> album_complete albumID.
Proof.
  unfold monitoredReleaseComplete. split.
  - intros H. apply bind_Ok in H as (album & Ha & H). destruct (al_Monitored album) eqn:Hm; [|done].
    simpl in H. destruct (List.filter _ _) as [|release [|]] eqn:Hf; [done| |done].
    apply bind_Ok in H as (tracks & Ht & H). destruct (bool_decide _) eqn:Hn; [|done].
    apply bool_decide_eq_true in Hn. simpl in H. injection H as H. exists album, release, tracks.
    split_and!; try done. apply forallb_Forall in H. eapply Forall_impl; [exact H|].
    intros t. by rewrite andb_true_iff, bool_decide_eq_true.
  - intros (album & release & tracks & -> & Hm & Hf & Ht & Hn & HF). simpl. rewrite Hm. simpl. rewrite Hf, Ht.
    simpl. rewrite bool_decide_true by done. simpl. f_equal. apply forallb_Forall.
    eapply Forall_impl; [exact HF|]. intros t. by rewrite andb_true_iff, bool_decide_eq_true.
Qed.

(** What has been checked is what the album says. *)
Definition checked (complete : gmap Z bool) : Prop :=
  forall albumID done, complete !! albumID = Some done ->
    monitoredReleaseComplete ReadAlbum ReadReleaseTracks albumID = Ok done.

Definition is_candidate (record : QueueRecord) (entry : Entry) : Prop :=
  entry = FinalizationEntry record /\ Eligible entry = true /\
  exists albumID artistID, q_AlbumID record = Some albumID /\ q_ArtistID record = Some artistID /\
    album_complete albumID.

Lemma candidates_loop_elem complete records entries entry :
  checked complete -> candidates_loop ReadAlbum ReadReleaseTracks complete records = Ok entries ->
  entry ∈ entries <-> exists record, record ∈ records /\ is_candidate record entry.
Proof.
  revert complete entries. induction records as [|record records IH]; intros complete entries Hc H.
  { injection H as <-. split; [by intros ?%elem_of_nil|]. by intros (r & ?%elem_of_nil & _). }
  cbn [candidates_loop] in H.
  assert (forall entries0 : list Entry, (entry ∈ entries0 <-> exists r, r ∈ records /\ is_candidate r entry) ->
    ~ is_candidate record entry ->
    (entry ∈ entries0 <-> exists r, r ∈ record :: records /\ is_candidate r entry)) as Hskip.
  { intros entries0 Hiff Hno. rewrite Hiff. setoid_rewrite elem_of_cons. naive_solver. }
  destruct (Eligible (FinalizationEntry record)) eqn:He.
  2:{ apply Hskip; [by eapply IH|]. intros (-> & ? & _). congruence. }
  destruct (q_AlbumID record) as [albumID|] eqn:Ha.
  2:{ apply Hskip; [by eapply IH|]. intros (_ & _ & a & b & ? & _). congruence. }
  destruct (q_ArtistID record) as [artistID|] eqn:Hr.
  2:{ apply Hskip; [by eapply IH|]. intros (_ & _ & a & b & _ & ? & _). congruence. }
  apply bind_Ok in H as (complete' & Hc' & H). apply bind_Ok in H as (rest & Hrest & H). injection H as <-.
  assert (checked complete' /\ exists done, complete' !! albumID = Some done) as (Hck & done & Hd).
  { destruct (complete !! albumID) as [done|] eqn:Hl; [injection Hc' as <-; eauto|].
    apply bind_Ok in Hc' as (done & Hm & Hc'). injection Hc' as <-. split.
    - intros id d. destruct (decide (albumID = id)) as [<-|Hne].
      + rewrite lookup_insert_eq. by intros [= <-].
      + rewrite lookup_insert_ne by done. apply Hc.
    - exists done. apply lookup_insert_eq. }
  specialize (IH _ _ Hck Hrest). pose proof (Hck _ _ Hd) as Hm. rewrite Hd. simpl.
  destruct done; simpl.
  - rewrite elem_of_cons, IH. setoid_rewrite elem_of_cons. apply monitoredReleaseComplete_true in Hm.
    split; [intros [->|(r & Hin & Hcand)]|intros (r & [->|Hin] & Hcand)].
    + exists record. split; [by left|]. repeat split; eauto 10.
    + eauto.
    + left. by destruct Hcand.
    + right. eauto.
  - apply Hskip; [done|]. intros (_ & _ & a & b & Ha' & _ & Hcomp). rewrite Ha in Ha'. injection Ha' as <-.
    apply monitoredReleaseComplete_true in Hcomp. congruence.
Qed.

(** C35. The Lidarr entries proposed for removal are exactly the eligible entries of
    the queue, with recovered identities, whose album is monitored and has a file
    for every track of its one monitored release. *)
Theorem lidarr_candidates_complete records entries entry :
  readFinalizationQueue ReadQueue RecoverAlbumIdentity = Ok records ->
  FinalizationCandidates ReadQueue RecoverAlbumIdentity ReadAlbum ReadReleaseTracks = Ok entries ->
  entry ∈ entries <-> exists record, record ∈ records /\ entry = FinalizationEntry record /\
    Eligible entry = true /\ exists albumID artistID, q_AlbumID record = Some albumID /\
      q_ArtistID record = Some artistID /\ album_complete albumID.
Proof.
  intros Hq H. unfold FinalizationCandidates in H. rewrite Hq in H.
  apply (candidates_loop_elem _ _ _ entry) in H; [exact H|]. by intros albumID done ?.
Qed.
End candidates.

(** ** The entry of a job *)

(** Removing the entry of a job asks for the removal of at most one entry, an
    eligible one of the queue; when it succeeds, no entry with the download of
    the job remains. *)
Lemma RemoveTracking_removes entries FinalizeQueue Remaining job r selected :
  removal.RemoveTracking (Ok entries) FinalizeQueue Remaining job = (r, Some selected) ->
  selected ∈ entries /\ Eligible selected = true /\
  (is_ok r = true -> FinalizeQueue (en_QueueID selected) = Ok tt /\
     exists remaining, Remaining = Ok remaining /\
       Forall (fun entry => en_DownloadID entry <> Jobs.jobs.job_DownloadID job) remaining).
Proof.
  unfold removal.RemoveTracking. cbn [mbind result_bind].
  destruct (Jobs.jobs.MatchQueue _ _) as [[index|]|]; simpl; [|done..].
  destruct (entries !! index) as [entry|] eqn:E; [|done]. destruct (Eligible entry) eqn:He; simpl; [|done].
  intros [= <- <-]. split_and!; [by eapply list_elem_of_lookup_2|done|].
  intros (u & H)%is_ok_true. apply bind_Ok in H as (u1 & -> & H). apply bind_Ok in H as (remaining & Hr & H).
  destruct_units. split; [done|]. exists remaining. split; [done|]. apply fail_if_Ok in H.
  apply Forall_forall. intros e Hin Hd. assert (existsb (fun entry0 =>
    bool_decide (en_DownloadID entry0 = Jobs.jobs.job_DownloadID job)) remaining = true) as Hx; [|congruence].
  apply existsb_bool. exists e. split; [done|]. by apply bool_decide_eq_true.
Qed.
