(* ===== verification/ExecutionCheck.v ===== *)
(** * Checking a decision before it is executed

    [internal/executioncheck]: the decision must be authorized by the policy of
    its kind, against the stored and the freshly inspected case alike, must not
    replace a better file, and must be about an unchanged case. *)
From stdpp Require Import base strings list gmap.
From S2P Require Import Prelude GoStrings FileIdentity Probe Streams Media Radarr JoinFeasibility.
From S2P Require Import WorkerContracts CaseContracts Decisions ManualImportPolicy JoinPolicy DiscPolicy.
From S2P Require Import ExecutionRecords PlanningRunner CaseCodec CaseEvidence CaseAssembly Inspection.

Module executioncheck.

Inductive RejectionReason :=
| DecisionRejected | StabilizationPending | CaseUnavailable | CaseChanged | AuthorizationChanged
| SupersededReplacement | UnprovedReplacement | JoinExecutionPresent.

Record StabilizationAssessment := mkStabilization
  { sa_StableSince : time; sa_CheckedAt : time; sa_RequiredAge : Z; sa_ActualAge : Z }.

Record Rejection := mkRejection
  { rj_Reason : RejectionReason; rj_DecisionReason : string;
    rj_Stabilization : option StabilizationAssessment;
    rj_Runtime : option ManualImportRuntimeAssessment }.

Record Authorization := mkAuthorization
  { au_Join : option AuthorizedJoin; au_ManualImport : option AuthorizedManualImport;
    au_Remux : option AuthorizedRemux; au_DVD : option AuthorizedDVD }.

#[global] Instance Authorization_eq_dec : EqDecision Authorization.
Proof. solve_decision. Defined.

Definition no_authorization : Authorization := mkAuthorization None None None None.

Record Result := mkResult { res_Authorization : Authorization; res_Rejections : list Rejection }.

Definition selected {A} (o : option A) : Z := match o with Some _ => 1 | None => 0 end.

Definition Accepted (result : Result) : bool :=
  let a := res_Authorization result in
  bool_decide (length (res_Rejections result) = 0%nat) &&
  bool_decide (selected (au_Join a) + selected (au_ManualImport a) + selected (au_Remux a) +
               selected (au_DVD a) = 1).

Definition rejected (reason : RejectionReason) : Result :=
  mkResult no_authorization [mkRejection reason "" None None].

Definition rejectedDecision (reason : RejectionReason) (decisionReason : string)
    (runtime : option ManualImportRuntimeAssessment) : Result :=
  mkResult no_authorization [mkRejection reason decisionReason None runtime].

(** The strings of the policies' reasons. *)
Definition join_reason_name (reason : JoinRejectionReason) : string :=
  match reason with
  | JoinWrongDecisionAction => "wrong_decision_action"
  | JoinCaseMismatch => "case_mismatch"
  | JoinCapabilityNotFound => "capability_not_found"
  | JoinCapabilityWrongAction => "capability_wrong_action"
  | JoinTooFewSelectedFiles => "too_few_selected_files"
  | JoinDuplicateSelectedFile => "duplicate_selected_file"
  | JoinFileNotOffered => "file_not_offered"
  | JoinFileNotInSnapshot => "file_not_in_snapshot"
  | JoinFileNotActionable => "file_not_actionable"
  | JoinProbeUnavailable => "probe_unavailable"
  | JoinTechnicalChecksRejected => "technical_checks_rejected"
  end.

Definition manual_reason_name (reason : ManualImportRejectionReason) : string :=
  match reason with
  | ManualImportWrongDecisionAction => "wrong_decision_action"
  | ManualImportCaseMismatch => "case_mismatch"
  | ManualImportCapabilityNotFound => "capability_not_found"
  | ManualImportCapabilityWrongAction => "capability_wrong_action"
  | ManualImportFileMismatch => "file_mismatch"
  | ManualImportBindingNotFound => "binding_not_found"
  | ManualImportBindingIncomplete => "binding_incomplete"
  | ManualImportFileNotInSnapshot => "file_not_in_snapshot"
  | ManualImportFileNotActionable => "file_not_actionable"
  | ManualImportFingerprintChanged => "fingerprint_changed"
  | ManualImportPathChanged => "path_changed"
  | ManualImportDownloadMismatch => "download_mismatch"
  | ManualImportMovieMismatch => "movie_mismatch"
  | ManualImportProbeUnavailable => "probe_unavailable"
  | ManualImportVideoMissing => "video_missing"
  | ManualImportDurationUnavailable => "duration_unavailable"
  | ManualImportRuntimeMismatch => "runtime_mismatch"
  end.

Definition remux_reason_name (reason : RemuxRejectionReason) : string :=
  match reason with
  | RemuxWrongDecision => "wrong_decision"
  | RemuxCaseMismatch => "case_mismatch"
  | RemuxCapabilityMissing => "capability_missing"
  | RemuxPlaylistMismatch => "playlist_mismatch"
  | RemuxFileUnavailable => "file_unavailable"
  | RemuxRuntimeMissing => "runtime_missing"
  | RemuxRuntimeMismatch => "runtime_mismatch"
  end.

(** The answer of [Authorize]: the authorization, the reason of a rejection,
    the runtime comparison, and whether the decision is accepted. *)
Record Answer := mkAnswer
  { an_Authorization : Authorization; an_Reason : string;
    an_Runtime : option ManualImportRuntimeAssessment; an_Accepted : bool }.

Definition no_answer : Answer := mkAnswer no_authorization "" None false.

Definition answer_of {R} (accepted : bool) (authorization : Authorization) (name : R -> string)
    (rejections : list R) (runtime : option ManualImportRuntimeAssessment) : Answer :=
  if accepted then mkAnswer authorization "" runtime true
  else match rejections with
  | reason :: _ => mkAnswer no_authorization (name reason) runtime false
  | [] => no_answer
  end.

(** [None] is a panic of a validation. *)
Definition Authorize (assembly : Assembly) (decision : RepairDecisionV3) (policy : RuntimePolicy)
    : option Answer :=
  if bool_decide (rdv_Kind decision = ActionJoinParts) then
    validation ← ValidateJoin assembly decision;
    Some (answer_of (join_Accepted validation)
            (mkAuthorization (jv_Authorized validation) None None None)
            (fun r => join_reason_name (jr_Reason r)) (jv_Rejections validation) None)
  else if bool_decide (rdv_Kind decision = ActionManualImportFile) then
    let validation := ValidateManualImportWithPolicy assembly decision policy in
    Some (answer_of (manual_Accepted validation)
            (mkAuthorization None (miv_Authorized validation) None None)
            manual_reason_name (miv_Rejections validation) (miv_Runtime validation))
  else if bool_decide (rdv_Kind decision = ActionRemuxBluray) then
    validation ← ValidateRemuxWithPolicy assembly decision policy;
    Some (answer_of (disc_Accepted validation)
            (mkAuthorization None None (dv_Authorized validation) None)
            remux_reason_name (dv_Rejections validation) (dv_Runtime validation))
  else if bool_decide (rdv_Kind decision = ActionRemuxDVD) then
    let validation := ValidateDVDWithPolicy assembly decision policy in
    Some (answer_of (disc_Accepted validation)
            (mkAuthorization None None None (dv_Authorized validation))
            remux_reason_name (dv_Rejections validation) (dv_Runtime validation))
  else Some no_answer.

(** ** Replacing a movie file (replacement.go) *)

(** The only listed import of a path, if there is exactly one. *)
Definition replacementForPath (assembly : Assembly) (path : string) : ReplacementSafety :=
  let observation := ls_Observation (as_LocalSnapshot assembly) in
  match List.filter (fun candidate => bool_decide (mi_Path candidate = path))
          (ob_ManualImports observation) with
  | [matched] => ClassifyReplacement (ob_Movie observation) matched
  | _ => ReplacementUnproved
  end.

Definition inventoryPath (assembly : Assembly) (fileID : FileID) : option string :=
  match List.filter (fun candidate => bool_decide (fpm_FileID candidate = fileID))
          (fi_Paths (ob_Inventory (ls_Observation (as_LocalSnapshot assembly)))) with
  | [candidate] => Some (fpm_AbsolutePath candidate)
  | _ => None
  end.

Definition rejectionForReplacement (safety : ReplacementSafety) : option RejectionReason :=
  match safety with
  | ReplacementAllowed => None
  | ReplacementSuperseded => Some SupersededReplacement
  | _ => Some UnprovedReplacement
  end.

Fixpoint parts_replacement (assembly : Assembly) (parts : list AuthorizedJoinPart) (unproved : bool)
    : option RejectionReason :=
  match parts with
  | [] => if unproved then Some UnprovedReplacement else None
  | part :: rest =>
      match inventoryPath assembly (ap_FileID part) with
      | None => parts_replacement assembly rest true
      | Some path =>
          match replacementForPath assembly path with
          | ReplacementSuperseded => Some SupersededReplacement
          | ReplacementAllowed => parts_replacement assembly rest unproved
          | _ => parts_replacement assembly rest true
          end
      end
  end.

Definition ReplacementRejection (assembly : Assembly) (authorization : Authorization)
    : option RejectionReason :=
  match ob_Movie (ls_Observation (as_LocalSnapshot assembly)) with
  | None => None
  | Some movie =>
      if negb (mv_HasFile movie) then None
      else match au_ManualImport authorization with
      | Some manual =>
          rejectionForReplacement (replacementForPath assembly (cf_Path (am_File manual)))
      | None =>
          match au_Join authorization with
          | None => Some UnprovedReplacement
          | Some join => parts_replacement assembly (aj_OrderedParts join) false
          end
      end
  end.

(** ** The checker (check.go) *)

(** [InspectJoinResponseV1]: the state of a success, or the reason of a failure. *)
Record InspectJoinResponse := mkInspectJoinResponse
  { ij_State : option string; ij_Failure : option string }.

Definition InspectJoinAbsent : string := "absent".

Record Dependencies := mkDependencies
  { chk_Inspect : Z -> inspection.inspected Assembly;
    chk_Now : time;
    chk_InspectJoin : string -> result InspectJoinResponse;
    chk_StableSince : string -> result time;
    chk_Stabilization : Z }.

(** The state of a download that Radarr may still import by itself. *)
Definition importPending : string := "importPending".

(** The check of [StableSince]: a pending rejection, or nothing to wait for. *)
Definition check_stability (deps : Dependencies) (stored : Assembly) (now : time)
    : result (option Result) :=
  if negb (bool_decide (q_TrackedDownloadState
       (dc_Radarr (ob_Correlation (ls_Observation (as_LocalSnapshot stored)))) = importPending))
  then mret None
  else
    stableSince ← chk_StableSince deps (rc_CaseID (as_Request stored));
    _ ← fail_if (IsZero stableSince || negb (bool_decide (t_zone stableSince = None)))
          "repair case stability time is invalid";
    if Before now stableSince ||
       bool_decide (runner.Sub now stableSince < chk_Stabilization deps)
    then mret (Some (mkResult no_authorization
           [mkRejection StabilizationPending ""
              (Some (mkStabilization stableSince now (chk_Stabilization deps)
                 (runner.Sub now stableSince))) None]))
    else mret None.

(** The worker must not have seen the join before. *)
Definition check_join (deps : Dependencies) (authorization : Authorization)
    : result (option Result) :=
  match au_Join authorization with
  | None => mret None
  | Some join =>
      response ← chk_InspectJoin deps (JoinExecutionID join);
      match ij_Failure response, ij_State response with
      | Some _, _ => Err "inspect join execution: worker failed"
      | None, None => Err "inspect join execution: worker returned no result"
      | None, Some state =>
          if bool_decide (state = InspectJoinAbsent) then mret None
          else mret (Some (rejected JoinExecutionPresent))
      end
  end.

Definition panics {A} (o : option A) : result A :=
  match o with Some a => Ok a | None => Err "panic" end.

(** The checks against the freshly inspected case. *)
Definition check_fresh (deps : Dependencies) (stored fresh : Assembly) (decision : RepairDecisionV3)
    (policy : RuntimePolicy) (storedAuthorization : Authorization) : result Result :=
  if negb (bool_decide (rc_CaseID (as_Request fresh) = rc_CaseID (as_Request stored)))
  then mret (rejected CaseChanged)
  else
    answer ← panics (Authorize fresh decision policy);
    if negb (an_Accepted answer)
    then mret (rejectedDecision AuthorizationChanged (an_Reason answer) (an_Runtime answer))
    else match ReplacementRejection fresh (an_Authorization answer) with
    | Some reason => mret (rejected reason)
    | None =>
        if negb (bool_decide (an_Authorization answer = storedAuthorization))
        then mret (rejected AuthorizationChanged)
        else if negb (assemble.SameCaseState stored fresh) then mret (rejected CaseChanged)
        else
          present ← check_join deps (an_Authorization answer);
          match present with
          | Some result => mret result
          | None => mret (mkResult (an_Authorization answer) [])
          end
    end.

Definition CheckWithPolicy (deps : Dependencies) (stored : Assembly) (decision : RepairDecisionV3)
    (policy : RuntimePolicy) : result Result :=
  answer ← panics (Authorize stored decision policy);
  if negb (an_Accepted answer)
  then mret (rejectedDecision DecisionRejected (an_Reason answer) (an_Runtime answer))
  else
    let now := UTC (chk_Now deps) in
    _ ← fail_if (IsZero now) "clock returned a zero time";
    pending ← check_stability deps stored now;
    match pending with
    | Some result => mret result
    | None =>
        match chk_Inspect deps
                (q_ID (dc_Radarr (ob_Correlation (ls_Observation (as_LocalSnapshot stored))))) with
        | inr (inspection.CandidateUnavailable _ _ _) => mret (rejected CaseUnavailable)
        | inr (inspection.InspectFailed e) => Err e
        | inl fresh =>
            check_fresh deps stored fresh decision policy (an_Authorization answer)
        end
    end.

Definition Check (deps : Dependencies) (stored : Assembly) (decision : RepairDecisionV3)
    : result Result := CheckWithPolicy deps stored decision (mkRuntimePolicy 0).

End executioncheck.
