(* ===== verification/RadarrAdapter.v ===== *)
(** * The Radarr adapter of the repair engine

    [internal/repairradarr] with the import history of
    [internal/radarr/imported_files.go] and the removal candidates of
    [internal/radarr/finalize.go]: how the engine observes Radarr, plans,
    prepares an import from a decision, and learns whether it happened. The
    answers of Radarr, of the worker and of the planner are arguments; the JSON
    of the stored evidence and commands is the interface [AdapterCodec]. *)
From stdpp Require Import base strings list gmap pretty.
From coqutil Require Import Datatypes.RecordSetters.
From S2P Require Import Prelude GoStrings FileIdentity Probe Streams Media Radarr JoinFeasibility.
From S2P Require Import WorkerContracts CaseContracts Decisions ManualImportPolicy JoinPolicy DiscPolicy.
From S2P Require Import PlanningRunner CaseCodec CaseEvidence CaseAssembly Inspection ExecutionCheck.
From S2P Require Import Jobs RepairEngine LidarrRepair QueueFinalize.
Import DoubleBraceUpdate.

(** ** Import history and removal candidates (internal/radarr) *)
Module radarr.

Definition HighestImportedFileHistoryID (imports : list RadarrImportedFile) : Z :=
  foldl (fun highest imported =>
    if bool_decide (highest < imp_HistoryID imported) then imp_HistoryID imported else highest) 0 imports.

Record ImportedFileMatch := mkImportedFileMatch
  { ifm_MovieID : Z; ifm_DownloadID : string; ifm_DroppedPath : string; ifm_AfterHistoryID : Z }.

Definition matches (m : ImportedFileMatch) (imported : RadarrImportedFile) : bool :=
  bool_decide (imp_MovieID imported = ifm_MovieID m) &&
  bool_decide (imp_DownloadID imported = ifm_DownloadID m) &&
  bool_decide (imp_DroppedPath imported = ifm_DroppedPath m) &&
  bool_decide (ifm_AfterHistoryID m < imp_HistoryID imported).

Definition find_step (m : ImportedFileMatch) (found : option RadarrImportedFile)
    (imported : RadarrImportedFile) : option RadarrImportedFile :=
  if negb (matches m imported) then found
  else match found with
  | None => Some imported
  | Some first => if bool_decide (imp_HistoryID imported < imp_HistoryID first) then Some imported else found
  end.

Definition FindImportedFile (imports : list RadarrImportedFile) (m : ImportedFileMatch)
    : option RadarrImportedFile := foldl (find_step m) None imports.

Definition validHistoryPath (path : string) : bool :=
  negb (bool_decide (path = "")) && negb (ContainsByte path nul) && filepath.IsAbs path &&
  bool_decide (filepath.Clean path = path) && negb (bool_decide (filepath.Dir path = path)).

Definition FinalizationEntry (record : RadarrQueueRecord) : queuefinalize.Entry :=
  queuefinalize.mkEntry (q_ID record) (q_DownloadID record) (default 0 (q_MovieID record))
    (q_Status record) (q_TrackedDownloadStatus record).

(** [checked] and [complete] are one map: a movie is read once. *)
Fixpoint finalization_loop (ReadMovie : Z -> result RadarrMovie) (records : list RadarrQueueRecord)
    (complete : gmap Z bool) : result (list queuefinalize.Entry) :=
  match records with
  | [] => Ok []
  | record :: rest =>
      let entry := FinalizationEntry record in
      match q_MovieID record with
      | None => finalization_loop ReadMovie rest complete
      | Some movieID =>
          if negb (queuefinalize.Eligible entry) then finalization_loop ReadMovie rest complete
          else
            hasFile ← match complete !! movieID with
                      | Some hasFile => mret hasFile
                      | None => movie ← ReadMovie movieID; mret (mv_HasFile movie)
                      end;
            others ← finalization_loop ReadMovie rest (<[movieID := hasFile]> complete);
            mret (if hasFile : bool then entry :: others else others)
      end
  end.

Definition FinalizationCandidates (ReadQueue : result (list RadarrQueueRecord))
    (ReadMovie : Z -> result RadarrMovie) : result (list queuefinalize.Entry) :=
  records ← ReadQueue;
  finalization_loop ReadMovie records ∅.
End radarr.

(** ** The adapter *)
Module repairradarr.
Import executioncheck.

Record Evidence := mkEvidence { ev_Case : RepairCaseV3; ev_Snapshot : LocalSnapshot }.

Definition evidence_Assembly (evidence : Evidence) : Assembly :=
  mkAssembly (ev_Case evidence) "" (ev_Snapshot evidence).

Class AdapterCodec :=
  { MarshalEvidence : Evidence -> result string;
    UnmarshalEvidence : string -> result Evidence;
    MarshalCommand : RadarrManualImportCommand -> result string;
    UnmarshalCommand : string -> result RadarrManualImportCommand;
    MarshalImported : RadarrImportedFile -> result string }.

(** [mediaoperation.Transform] and [Output]; the engine reads the path only. *)
Record Transform := mkTransform
  { tf_JobID : Z; tf_Attempt : Z; tf_Paths : gmap FileID string;
    tf_Join : option AuthorizedJoin; tf_Bluray : option AuthorizedRemux;
    tf_DVD : option AuthorizedDVD }.

Definition transform_ID (request : Transform) : string :=
  "job-" +:+ pretty (tf_JobID request) +:+ "-attempt-" +:+ pretty (tf_Attempt request).

Record Output := mkOutput { out_Path : string; out_Fingerprint : string; out_Evidence : ProbeEvidence }.

(** [planning.Options], as [repair.Guidance] fills it. *)
Record Options := mkOptions
  { opt_PriorDecision : string; opt_Guidance : string; opt_MaximumRuntimeDifferenceMS : Z }.

Definition Guidance (job : jobs.Job) : Options :=
  mkOptions (jobs.job_Plan job) (jobs.job_Guidance job) (jobs.job_RuntimeToleranceMS job).

Record Adapter := mkAdapter
  { ad_Inspect : Z -> inspection.inspected Assembly;
    ad_ReadQueue : result (list RadarrQueueRecord);
    ad_ReadMovie : Z -> result RadarrMovie;
    ad_RecoverMovieID : string -> result (option Z);
    ad_RequestManualImport : RadarrManualImportCommand -> result servarr.Command;
    ad_ReadManualImportCommand : Z -> result servarr.Command;
    ad_ReadImportedFiles : Z -> string -> result (list RadarrImportedFile);
    ad_Transform : Transform -> result Output;
    ad_Planner : RepairCaseV3 -> Options -> result RepairDecisionV3;
    ad_Stabilization : Z;
    ad_Now : time }.

Definition RepairError := repair.RepairError.
Definition blocked (reason : string) : RepairError := repair.mkRepairError true reason.
Definition failed (e : error) : RepairError := repair.mkRepairError false e.

Definition attempted (A : Type) : Type := A + RepairError.
Definition lift {A} (r : result A) : attempted A :=
  match r with Ok a => inl a | Err e => inr (failed e) end.
Definition next {A B} (m : attempted A) (f : A -> attempted B) : attempted B :=
  match m with inl a => f a | inr e => inr e end.
Definition block_if (condition : bool) (reason : string) : attempted unit :=
  if condition then inr (blocked reason) else inl tt.

Definition rejection_name (reason : RejectionReason) : string :=
  match reason with
  | DecisionRejected => "decision_rejected"
  | StabilizationPending => "stabilization_pending"
  | CaseUnavailable => "case_unavailable"
  | CaseChanged => "case_changed"
  | AuthorizationChanged => "authorization_changed"
  | SupersededReplacement => "superseded_replacement"
  | UnprovedReplacement => "unproved_replacement"
  | JoinExecutionPresent => "join_execution_present"
  end.

Section adapter.
Context {codec : RepairCodec} {json : AdapterCodec} (adapter : Adapter).

Definition queue_keys (entries : list RadarrQueueRecord) : list jobs.QueueKey :=
  map (fun entry => jobs.mkQueueKey (q_ID entry) (q_DownloadID entry)) entries.

(** The queue entry of the job, by [jobs.MatchQueue]. *)
Definition current_entry (job : jobs.Job) : attempted RadarrQueueRecord :=
  next (lift (ad_ReadQueue adapter)) (fun entries =>
  match jobs.MatchQueue (jobs.job_QueueKey job) (queue_keys entries) with
  | Err e => inr (blocked e)
  | Ok None => inr (blocked "download is no longer queued")
  | Ok (Some index) =>
      match entries !! index with
      | Some entry => inl entry
      | None => inr (failed "panic: index out of range")
      end
  end).

Definition inspect (queueID : Z) : attempted Assembly :=
  match ad_Inspect adapter queueID with
  | inl fresh => inl fresh
  | inr e => inr (failed (inspection.error_text e))
  end.

Definition observed_queue (assembly : Assembly) : RadarrQueueRecord :=
  dc_Radarr (ob_Correlation (ls_Observation (as_LocalSnapshot assembly))).

Definition authorize (job : jobs.Job) (plan : string) : attempted (Assembly * Authorization) :=
  next (lift (UnmarshalEvidence (jobs.job_Evidence job))) (fun evidence =>
  next (lift (DecodeDecision plan)) (fun decision =>
  next (current_entry job) (fun entry =>
  next (inspect (q_ID entry)) (fun fresh =>
  let queue := observed_queue fresh in
  next (block_if (negb (bool_decide (q_DownloadID queue = jobs.job_DownloadID job)) ||
                  negb (assemble.SameCaseState (evidence_Assembly evidence) fresh))
          "source or queue identity changed; collect a new plan") (fun _ =>
  next (block_if (bool_decide (q_TrackedDownloadState queue = importPending) &&
                  bool_decide (runner.Sub (ad_Now adapter) (jobs.job_StableSince job) <
                               ad_Stabilization adapter))
          "source is still stabilizing") (fun _ =>
  next (lift (panics (Authorize fresh decision
                (mkRuntimePolicy (jobs.job_RuntimeToleranceMS job))))) (fun answer =>
  next (block_if (negb (an_Accepted answer)) ("decision rejected: " +:+ an_Reason answer)) (fun _ =>
  match ReplacementRejection fresh (an_Authorization answer) with
  | Some reason => inr (blocked (rejection_name reason))
  | None => inl (fresh, an_Authorization answer)
  end)))))))).

(** The local paths given to the worker; a later mapping of a file wins. *)
Definition transform_paths (fresh : Assembly) : gmap FileID string :=
  indexPaths (ob_Inventory (ls_Observation (as_LocalSnapshot fresh))).

Definition importCommand (job : jobs.Job) (attempt : jobs.Attempt) (fresh : Assembly)
    (authorized : Authorization) : result RadarrManualImportCommand :=
  match au_ManualImport authorized with
  | Some manual => Ok (mkImportCommand (am_ImportMode manual) (am_File manual))
  | None =>
      output ← ad_Transform adapter
        (mkTransform (jobs.job_ID job) (jobs.att_Number attempt) (transform_paths fresh)
           (au_Join authorized) (au_Remux authorized) (au_DVD authorized));
      let queue := observed_queue fresh in
      match q_MovieID queue with
      | None => Err "queue item has no movie identity"
      | Some movieID =>
          match BuildRadarrPublishedFileImport (out_Path output) movieID (q_DownloadID queue)
                  (ob_History (ls_Observation (as_LocalSnapshot fresh))) with
          | (Some command, true) => Ok command
          | _ => Err "movie has no matching grab metadata for import"
          end
      end
  end.

Definition Repair (job : jobs.Job) (attempt : jobs.Attempt) : attempted repair.PreparedImport :=
  next (authorize job (jobs.att_Plan attempt)) (fun '(fresh, authorized) =>
  next (lift (importCommand job attempt fresh authorized)) (fun command =>
  next (lift (ad_ReadImportedFiles adapter (cf_MovieID (cmd_File command))
                (cf_DownloadID (cmd_File command)))) (fun history =>
  next (lift (MarshalCommand command)) (fun request =>
  inl (repair.mkPreparedImport (cf_Path (cmd_File command)) request
         (radarr.HighestImportedFileHistoryID history)))))).

Definition Submit (request : string) : result Z :=
  command ← UnmarshalCommand request;
  submitted ← ad_RequestManualImport adapter command;
  mret (servarr.com_ID submitted).

Definition CheckImport (attempt : jobs.Attempt) : result repair.ImportStatus :=
  request ← UnmarshalCommand (jobs.att_ImportRequest attempt);
  let file := cmd_File request in
  history ← ad_ReadImportedFiles adapter (cf_MovieID file) (cf_DownloadID file);
  match radarr.FindImportedFile history
          (radarr.mkImportedFileMatch (cf_MovieID file) (cf_DownloadID file) (cf_Path file)
             (jobs.att_HistoryIDBefore attempt)) with
  | Some imported =>
      receipt ← MarshalImported imported;
      mret (repair.mkImportStatus receipt "")
  | None =>
      if bool_decide (jobs.att_CommandID attempt = 0) then mret (repair.mkImportStatus "" "")
      else
        command ← ad_ReadManualImportCommand adapter (jobs.att_CommandID attempt);
        status ← lidarrrepair.CommandStatus command true;
        mret (repair.mkImportStatus "" (lidarrrepair.st_Failure status))
  end.

(** ** Observation and planning (planning.go) *)

Definition zero_job : jobs.Job :=
  jobs.mkJob 0 jobs.Radarr 0 "" "" "" "" "" "" jobs.zero_time "" "" "" "" 0 jobs.zero_time 0 "" 0 false
    jobs.Observed "" jobs.zero_time.

(** The job reported for one queue record. *)
Definition observe_record (entry : RadarrQueueRecord) : result jobs.Job :=
  let job := zero_job {{ jobs.job_QueueID := q_ID entry }}
    {{ jobs.job_DownloadID := q_DownloadID entry }} {{ jobs.job_Title := q_Title entry }} in
  match ad_Inspect adapter (q_ID entry) with
  | inr e => mret (job {{ jobs.job_CollectionError := inspection.error_text e }})
  | inl assembly =>
      evidence ← MarshalEvidence (mkEvidence (as_Request assembly) (as_LocalSnapshot assembly));
      mret (job {{ jobs.job_SourceFingerprint := rc_CaseID (as_Request assembly) }}
              {{ jobs.job_Evidence := evidence }})
  end.

Fixpoint observe_records (entries : list RadarrQueueRecord) : result (list jobs.Job) :=
  match entries with
  | [] => Ok []
  | entry :: rest =>
      job ← observe_record entry;
      others ← observe_records rest;
      mret (job :: others)
  end.

(** The removal candidates come from a second reading of the queue. *)
Definition Observe (ReadQueueAgain : result (list RadarrQueueRecord)) : result repair.Observation :=
  queue ← ad_ReadQueue adapter;
  complete ← radarr.FinalizationCandidates ReadQueueAgain (ad_ReadMovie adapter);
  observed ← observe_records queue;
  mret (repair.mkObservation observed (queue_keys queue)
    (map (fun entry => jobs.mkQueueKey (queuefinalize.en_QueueID entry)
            (queuefinalize.en_DownloadID entry)) complete)).

Definition Plan (job : jobs.Job) : result repair.PlanDecision :=
  evidence ← UnmarshalEvidence (jobs.job_Evidence job);
  decision ← ad_Planner adapter (ev_Case evidence) (Guidance job);
  data ← EncodeDecision decision;
  mret (repair.mkPlanDecision data (negb (bool_decide (rdv_Kind decision = ActionNoRepair)))
          (match rdv_NoRepair decision with Some d => nr_Reason d | None => "" end)).

Definition Ready (job : jobs.Job) : bool :=
  match UnmarshalEvidence (jobs.job_Evidence job) with
  | Err _ => false
  | Ok evidence =>
      negb (bool_decide (q_TrackedDownloadState (observed_queue (evidence_Assembly evidence)) =
                         importPending)) ||
      bool_decide (ad_Stabilization adapter <=
                   runner.Sub (ad_Now adapter) (jobs.job_StableSince job))
  end.

(** ** Removal (removal.go) *)

Definition removal_entry (record : RadarrQueueRecord) : result queuefinalize.Entry :=
  match q_MovieID record with
  | Some _ => mret (radarr.FinalizationEntry record)
  | None =>
      found ← ad_RecoverMovieID adapter (q_DownloadID record);
      mret (radarr.FinalizationEntry
              (match found with Some movieID => inspection.with_movie movieID record | None => record end))
  end.

Fixpoint removal_entries (records : list RadarrQueueRecord) : result (list queuefinalize.Entry) :=
  match records with
  | [] => Ok []
  | record :: rest =>
      entry ← removal_entry record;
      others ← removal_entries rest;
      mret (entry :: others)
  end.

Definition RemovalQueue : result (list queuefinalize.Entry) :=
  queue ← ad_ReadQueue adapter;
  removal_entries queue.
End adapter.
End repairradarr.
