(* ===== verification/WorkerFiles.v ===== *)
(** * Files of the media worker

    [worker/mediafile]: opening the media files below a root, and the private
    staging directory from which a finished artifact is published. The worker
    is a program of system calls and media tools, whose answers are events. A
    directory is named by its place below the root: [openat2] resolves no
    symbolic links there and does not leave the root, so that a path of
    components names one directory. An open file is its inode. Closing a
    descriptor is left out where the code ignores the result, and
    [syncDirectory], which opens the directory once more, is one event. *)
From ITree Require Import ITree.
From stdpp Require Import base strings list gmap countable.
From S2P Require Import Prelude GoStrings GoCrypto FileIdentity Probe Media WorkerContracts Decisions.
From S2P Require Import Programs.

Module mediafile.

(** ** Errors *)

Inductive FailureKind :=
| FailureUnknownRoot | FailureInvalidPath | FailureFileUnavailable | FailureNotRegularFile
| FailureFingerprintMismatch | FailureInsufficientSpace | FailureArtifactExists
| FailureDestinationExists | FailureInternal.

(** The error numbers that the code tells apart. *)
Inductive errno :=
| ENOENT | EEXIST | ELOOP | EXDEV | ENAMETOOLONG | ENOTDIR | EACCES | EPERM | EAGAIN | OtherErrno (n : Z).
#[global] Instance errno_eq_dec : EqDecision errno.
Proof. solve_decision. Defined.

Inductive ToolFailureKind := FailureTimeout | FailureExecution | FailureInvalidOutput.

(** Errors by their Go types; a typed failure stands without its cause, since
    [errors.As] finds the failure first. *)
Inductive worker_error :=
| Failure (kind : FailureKind)
| StageFailure (reason : string)
| JoinFailure (kind : ToolFailureKind)
| ProbeFailure (kind : ToolFailureKind)
| ContextDone
| Errno (e : errno)
| OtherError (text : string)
| Joined (errors : list worker_error).

(** ** Events *)

(** The directories of a root. *)
Inductive directory :=
| RootDirectory (rootID : string)
| WorkspaceDirectory (rootID : string)
| StagedDirectory (rootID : string)
| MediaDirectory (rootID : string) (components : list string).
#[global] Instance directory_eq_dec : EqDecision directory.
Proof. solve_decision. Defined.
#[global] Instance directory_countable : Countable directory.
Proof.
  refine (inj_countable'
    (fun d => match d with
              | RootDirectory r => (0%nat, r, []) | WorkspaceDirectory r => (1%nat, r, [])
              | StagedDirectory r => (2%nat, r, []) | MediaDirectory r c => (3%nat, r, c)
              end)
    (fun '(n, r, c) => match n with
              | O => RootDirectory r | 1%nat => WorkspaceDirectory r | 2%nat => StagedDirectory r
              | _ => MediaDirectory r c
              end) _).
  by intros [].
Defined.

Abbreviation file := Z (only parsing).

(** What [fstat] reports. [sd_Own] says that the owner is the worker. *)
Record Stat := mkStat
  { sd_Regular : bool; sd_Directory : bool; sd_Own : bool; sd_Mode : Z; sd_Gid : Z;
    sd_Dev : Z; sd_Ino : Z; sd_Size : Z; sd_MTimeNS : Z }.

Definition answer (A : Type) : Type := A + errno.

Variant workerE : Type -> Type :=
| Mkdirat (d : directory) (mode : Z) : workerE (option errno)
| OpenDir (d : directory) : workerE (option errno)
| FstatDir (d : directory) : workerE (answer Stat)
| FchmodDir (d : directory) (mode : Z) : workerE (option errno)
| FsyncDir (d : directory) : workerE (option errno)
| Fstatfs (d : directory) : workerE (answer (Z * Z))
| OpenFile (d : directory) (name : string) : workerE (answer file)
| CreateFile (d : directory) (name : string) : workerE (answer file)
| Fstat (f : file) : workerE (answer Stat)
| Fchown (f : file) (gid : Z) : workerE (option errno)
| Fchmod (f : file) (mode : Z) : workerE (option errno)
| Fsync (f : file) : workerE (option errno)
| SetNonblock (f : file) : workerE (option errno)
| Close (f : file) : workerE (option errno)
| Linkat (d : directory) (name : string) (d' : directory) (name' : string) : workerE (option errno)
| Unlinkat (d : directory) (name : string) : workerE (option errno)
| ReadDir (path : string) : workerE (answer (list (string * option bool)))
| ContextErr : workerE (option worker_error)
| JoinParts (parts : list file) (output : file) (container : string) : workerE (Z * option worker_error)
| RemuxPlaylist (path : string) (output : file) : workerE (Z * option worker_error)
| RemuxTitle (path : string) (title : Z) (output : file) : workerE (Z * option worker_error)
| ProbeFile (f : file) : workerE (ProbeEvidence + worker_error)
| IdentifyPlaylist (path fingerprint : string) : workerE (Playlist + worker_error)
| IdentifyTitles (path fingerprint : string) : workerE (list Title + worker_error).

(** Programs that may fail. *)
Definition worker (A : Type) : Type := itree workerE (A + worker_error).

#[global] Instance worker_ret : MRet worker := fun _ a => Ret (inl a).
#[global] Instance worker_bind : MBind worker := fun _ _ f p =>
  ITree.bind p (fun r => match r with inl a => f a | inr e => Ret (inr e) end).

Definition call {A} (e : workerE A) : worker A := ITree.bind (ITree.trigger e) (fun a => Ret (inl a)).
Definition throw {A} (e : worker_error) : worker A := Ret (inr e).
Definition fail_when (condition : bool) (e : worker_error) : worker unit :=
  if condition then throw e else mret tt.

(** The outcome of a program as a value, for code that inspects its error. *)
Definition attempt {A} (p : worker A) : worker (A + worker_error) := ITree.bind p (fun r => Ret (inl r)).

(** A system call without a result, and the error it is turned into. *)
Definition check {A} (e : workerE (option A)) (failure : A -> worker_error) : worker unit :=
  r ← call e;
  match r with None => mret tt | Some e => throw (failure e) end.

Definition internal (e : errno) : worker_error := Failure FailureInternal.

(** [errors.Join]; [None] is nil. *)
Definition join_errors (errors : list (option worker_error)) : option worker_error :=
  match omap id errors with [] => None | es => Some (Joined es) end.

(** ** Roots (roots_linux.go) *)

(** The configured roots with their paths. *)
Definition RootSet : Type := gmap string string.

(** What [NewRootSet] requires of the path of a root. *)
Definition validRootPath (path : string) : bool :=
  negb (bool_decide (path = "")) && negb (ContainsByte path nul) && filepath.IsAbs path &&
  bool_decide (filepath.Clean path = path).

Definition validComponents (components : list string) : bool :=
  negb (bool_decide (components = [])) &&
  forallb (fun component =>
    negb (bool_decide (component = "") || bool_decide (component = ".") || bool_decide (component = "..") ||
          ContainsByte component slash || ContainsByte component nul)) components.

Definition classifyOpenFailure (e : errno) : worker_error :=
  match e with
  | ELOOP | EXDEV | ENAMETOOLONG => Failure FailureInvalidPath
  | ENOENT | ENOTDIR | EACCES | EPERM | EAGAIN => Failure FailureFileUnavailable
  | _ => Failure FailureInternal
  end.

Section roots.
Context (roots : RootSet).

Definition require_root (rootID : string) : worker string :=
  match roots !! rootID with
  | Some path => mret path
  | None => throw (Failure FailureUnknownRoot)
  end.

Definition AbsolutePath (rootID : string) (components : list string) : worker string :=
  path ← require_root rootID;
  _ ← fail_when (negb (validComponents components)) (Failure FailureInvalidPath);
  mret (filepath.Clean (join_slash (path :: components))).

Definition snapshot (media : file) : worker Snapshot :=
  r ← call (Fstat media);
  match r with
  | inr _ => throw (Failure FailureFileUnavailable)
  | inl stat =>
      _ ← fail_when (negb (sd_Regular stat)) (Failure FailureNotRegularFile);
      mret (mkSnapshot (sd_Dev stat) (sd_Ino stat) (sd_Size stat) (sd_MTimeNS stat))
  end.

Definition Verify (media : file) (expectedFingerprint : string) : worker unit :=
  current ← snapshot media;
  fail_when (negb (bool_decide (StrictFingerprint current = expectedFingerprint)))
    (Failure FailureFingerprintMismatch).

(** The directory and the name of a path of components. *)
Definition media_place (rootID : string) (components : list string) : directory * string :=
  (MediaDirectory rootID (removelast components), List.last components "").

Definition Open (rootID : string) (pathComponents : list string) (expectedFingerprint : string)
    : worker file :=
  _ ← require_root rootID;
  _ ← fail_when (negb (validComponents pathComponents)) (Failure FailureInvalidPath);
  let '(d, name) := media_place rootID pathComponents in
  opened ← call (OpenFile d name);
  match opened with
  | inr e => throw (classifyOpenFailure e)
  | inl media =>
      _ ← Verify media expectedFingerprint;
      _ ← check (SetNonblock media) internal;
      mret media
  end.

(** ** Directories (staging_linux.go) *)

Definition workspaceDirectoryName : string := ".media-repair".
Definition stagedNameDomain : string := "radarr-repair-worker-staged-name-v1" +:+ bytes [0%nat].

Definition stagedExtension (container : OutputContainer) : worker string :=
  if bool_decide (container = OutputContainerAVI) then mret ".avi"
  else if bool_decide (container = OutputContainerMKV) then mret ".mkv"
  else if bool_decide (container = OutputContainerMP4) then mret ".mp4"
  else throw (OtherError "unsupported staged media container").

Definition stagedName (artifactID extension : string) : string :=
  sha256_hex (string_bytes (stagedNameDomain +:+ artifactID)) +:+ extension.

Definition partialStagedName (completedName : string) : string := completedName +:+ ".partial".

Definition syncDirectory (d : directory) : worker unit := check (FsyncDir d) internal.

(** Whether the directory exists; one that is not as expected is a failure. *)
Definition openWorkspaceDirectoryChecked (rootID : string) (initializeMode : bool) : worker bool :=
  let d := WorkspaceDirectory rootID in
  opened ← call (OpenDir d);
  match opened with
  | Some ENOENT => mret false
  | Some _ => throw (Failure FailureInternal)
  | None =>
      _ ← (if initializeMode then check (FchmodDir d 488) internal else mret tt);
      r ← call (FstatDir d);
      match r with
      | inr _ => throw (Failure FailureInternal)
      | inl stat =>
          let mode := Z.land (sd_Mode stat) 4095 in
          _ ← fail_when (negb (sd_Directory stat) || negb (sd_Own stat) ||
                         negb (bool_decide (mode = 488) || bool_decide (mode = 1512)))
                (Failure FailureInternal);
          mret true
      end
  end.

Definition openWorkspaceDirectory (rootID : string) : worker bool :=
  openWorkspaceDirectoryChecked rootID false.

(** [Mkdirat]: whether the directory was created, or was there before. *)
Definition make_directory (d : directory) (mode : Z) : worker bool :=
  made ← call (Mkdirat d mode);
  match made with
  | None => mret true
  | Some EEXIST => mret false
  | Some _ => throw (Failure FailureInternal)
  end.

Definition ensureWorkspaceDirectory (rootID : string) : worker unit :=
  created ← make_directory (WorkspaceDirectory rootID) 488;
  found ← openWorkspaceDirectoryChecked rootID created;
  _ ← fail_when (negb found) (Failure FailureInternal);
  if (created : bool) then syncDirectory (RootDirectory rootID) else mret tt.

Definition validatePrivateDirectory (d : directory) : worker unit :=
  r ← call (FstatDir d);
  match r with
  | inr _ => throw (Failure FailureInternal)
  | inl stat =>
      fail_when (negb (sd_Directory stat) || negb (sd_Own stat) ||
                 negb (bool_decide (Z.land (sd_Mode stat) 63 = 0))) (Failure FailureInternal)
  end.

Definition openPrivateDirectory (rootID : string) : worker bool :=
  let d := StagedDirectory rootID in
  opened ← call (OpenDir d);
  match opened with
  | Some ENOENT => mret false
  | Some _ => throw (Failure FailureInternal)
  | None => _ ← validatePrivateDirectory d; mret true
  end.

Definition ensurePrivateDirectory (rootID : string) : worker unit :=
  created ← make_directory (StagedDirectory rootID) 448;
  found ← openPrivateDirectory rootID;
  _ ← fail_when (negb found) (Failure FailureInternal);
  if (created : bool) then syncDirectory (WorkspaceDirectory rootID) else mret tt.

Definition openStagedDirectory (rootID : string) : worker bool :=
  found ← openWorkspaceDirectory rootID;
  if (found : bool) then openPrivateDirectory rootID else mret false.

Definition openMediaDirectory (rootID : string) (components : list string) : worker unit :=
  check (OpenDir (MediaDirectory rootID components)) classifyOpenFailure.

Definition permissions (stat : Stat) : Z := Z.land (sd_Mode stat) 511.

(** The artifact of a name in the staging directory, if there is one. *)
Definition openArtifact (rootID name : string) : worker (option file) :=
  opened ← call (OpenFile (StagedDirectory rootID) name);
  match opened with
  | inr ENOENT => mret None
  | inr _ => throw (Failure FailureInternal)
  | inl f =>
      r ← call (Fstat f);
      match r with
      | inr _ => throw (Failure FailureInternal)
      | inl stat =>
          _ ← fail_when (negb (sd_Regular stat) || negb (sd_Own stat) ||
                 negb (bool_decide (permissions stat = 384) || bool_decide (permissions stat = 416)))
                (Failure FailureInternal);
          mret (Some f)
      end
  end.

Definition openPublishedArtifact (d : directory) (name : string) : worker (option file) :=
  s ← call (FstatDir d);
  match s with
  | inr _ => throw (Failure FailureInternal)
  | inl directoryStat =>
      opened ← call (OpenFile d name);
      match opened with
      | inr ENOENT => mret None
      | inr _ => throw (Failure FailureDestinationExists)
      | inl f =>
          r ← call (Fstat f);
          match r with
          | inr _ => throw (Failure FailureDestinationExists)
          | inl stat =>
              _ ← fail_when (negb (sd_Regular stat) || negb (sd_Own stat) ||
                     (negb (bool_decide (permissions stat = 384)) &&
                      (negb (bool_decide (permissions stat = 416)) ||
                       negb (bool_decide (sd_Gid stat = sd_Gid directoryStat)))))
                    (Failure FailureDestinationExists);
              mret (Some f)
          end
      end
  end.

Definition makePublishedArtifactReadable (d : directory) (artifact : file) : worker unit :=
  s ← call (FstatDir d);
  match s with
  | inr _ => throw (Failure FailureInternal)
  | inl stat =>
      _ ← check (Fchown artifact (sd_Gid stat)) internal;
      _ ← check (Fchmod artifact 416) internal;
      check (Fsync artifact) internal
  end.

Definition verifyArtifactFingerprint (artifact : file) (expected : string) : worker unit :=
  current ← snapshot artifact;
  fail_when (negb (bool_decide (StrictFingerprint current = expected)))
    (Failure FailureFingerprintMismatch).

Definition requireAvailableSpace (rootID : string) (requiredBytes : Z) : worker unit :=
  r ← call (Fstatfs (StagedDirectory rootID));
  match r with
  | inr _ => throw (Failure FailureInternal)
  | inl (blockSize, available) =>
      _ ← fail_when (bool_decide (blockSize <= 0) || bool_decide (available < 0)) (Failure FailureInternal);
      let requiredBlocks := requiredBytes / blockSize +
        (if bool_decide (requiredBytes mod blockSize = 0) then 0 else 1) in
      fail_when (bool_decide (available < requiredBlocks)) (Failure FailureInsufficientSpace)
  end.

(** The error of a program, or nil. *)
Definition error_of (p : worker unit) : worker (option worker_error) :=
  r ← attempt p;
  mret (match r with inl _ => None | inr e => Some e end).

(** Removing a name that may be gone. *)
Definition unlink_error (d : directory) (name : string) : worker (option worker_error) :=
  r ← call (Unlinkat d name);
  mret (match r with None | Some ENOENT => None | Some e => Some (Errno e) end).

Definition rollback (d : directory) (name : string) : worker (option worker_error) :=
  unlinkErr ← unlink_error d name;
  syncErr ← error_of (syncDirectory d);
  mret (join_errors [unlinkErr; syncErr]).

Definition moveNoReplace (sourceDirectory : directory) (sourceName : string)
    (destinationDirectory : directory) (destinationName : string) : worker unit :=
  _ ← check (Linkat sourceDirectory sourceName destinationDirectory destinationName) Errno;
  synced ← error_of (syncDirectory destinationDirectory);
  match synced with
  | Some e =>
      undone ← rollback destinationDirectory destinationName;
      throw (Joined (e :: match undone with Some u => [u] | None => [] end))
  | None =>
      removed ← call (Unlinkat sourceDirectory sourceName);
      match removed with
      | Some e =>
          undone ← rollback destinationDirectory destinationName;
          throw (Joined (Errno e :: match undone with Some u => [u] | None => [] end))
      | None => syncDirectory sourceDirectory
      end
  end.

(** [errors.Is] for an error number. *)
Fixpoint is_errno (number : errno) (e : worker_error) : bool :=
  match e with
  | Errno n => bool_decide (n = number)
  | Joined es => existsb (is_errno number) es
  | _ => false
  end.

(** ** Staging *)

Record stagedArtifact := mkStagedArtifact
  { sa_file : file; sa_root : string; sa_name : string; sa_completedName : string }.

Definition CreateStaged (rootID artifactID : string) (container : OutputContainer) (requiredBytes : Z)
    : worker stagedArtifact :=
  _ ← require_root rootID;
  _ ← fail_when (bool_decide (artifactID = "") || bool_decide (requiredBytes <= 0)) (Failure FailureInternal);
  extension ← stagedExtension container;
  _ ← ensureWorkspaceDirectory rootID;
  _ ← ensurePrivateDirectory rootID;
  _ ← requireAvailableSpace rootID requiredBytes;
  let completedName := stagedName artifactID extension in
  existing ← openArtifact rootID completedName;
  _ ← fail_when (bool_decide (is_Some existing)) (Failure FailureArtifactExists);
  let name := partialStagedName completedName in
  created ← call (CreateFile (StagedDirectory rootID) name);
  match created with
  | inr EEXIST => throw (Failure FailureArtifactExists)
  | inr _ => throw (Failure FailureInternal)
  | inl f =>
      synced ← call (FsyncDir (StagedDirectory rootID));
      match synced with
      | Some _ => _ ← call (Unlinkat (StagedDirectory rootID) name); throw (Failure FailureInternal)
      | None => mret (mkStagedArtifact f rootID name completedName)
      end
  end.

(** [Snapshot] of a staged or completed artifact. *)
Definition Snapshot_ (f : file) : worker (string * Z) :=
  current ← snapshot f;
  mret (StrictFingerprint current, SizeBytes current).

Definition Retain (artifact : stagedArtifact) : worker unit :=
  let d := StagedDirectory (sa_root artifact) in
  _ ← check (Fsync (sa_file artifact)) internal;
  moved ← attempt (moveNoReplace d (sa_name artifact) d (sa_completedName artifact));
  match moved with
  | inl _ => mret tt
  | inr e => throw (Failure (if is_errno EEXIST e then FailureArtifactExists else FailureInternal))
  end.

(** The error of [Discard], which is called on an artifact that is not retained. *)
Definition Discard (artifact : stagedArtifact) : worker (option worker_error) :=
  let d := StagedDirectory (sa_root artifact) in
  closed ← call (Close (sa_file artifact));
  unlinkErr ← unlink_error d (sa_name artifact);
  syncErr ← error_of (syncDirectory d);
  mret (join_errors [option_map Errno closed; unlinkErr; syncErr]).

Inductive StagedStatus := StagedMissing | StagedPartial | StagedComplete (completed : file).

Definition InspectStaged (rootID artifactID : string) (container : OutputContainer) : worker StagedStatus :=
  _ ← require_root rootID;
  _ ← fail_when (bool_decide (artifactID = "")) (Failure FailureInternal);
  extension ← stagedExtension container;
  found ← openStagedDirectory rootID;
  if negb found then mret StagedMissing
  else
    let completedName := stagedName artifactID extension in
    completed ← openArtifact rootID completedName;
    partial ← openArtifact rootID (partialStagedName completedName);
    match completed, partial with
    | Some _, Some _ => throw (Failure FailureArtifactExists)
    | Some f, None => mret (StagedComplete f)
    | None, Some _ => mret StagedPartial
    | None, None => mret StagedMissing
    end.

(** Whether the name was removed; a fingerprint that is not empty must match. *)
Definition removeStagedName (rootID name expectedFingerprint : string) : worker bool :=
  _ ← require_root rootID;
  found ← openStagedDirectory rootID;
  if negb found then mret false
  else
    opened ← openArtifact rootID name;
    match opened with
    | None => mret false
    | Some artifact =>
        _ ← (if bool_decide (expectedFingerprint = "") then mret tt
             else verifyArtifactFingerprint artifact expectedFingerprint);
        _ ← check (Close artifact) internal;
        removed ← call (Unlinkat (StagedDirectory rootID) name);
        match removed with
        | Some ENOENT => mret false
        | Some _ => throw (Failure FailureInternal)
        | None => _ ← check (FsyncDir (StagedDirectory rootID)) internal; mret true
        end
    end.

Definition RemovePartial (rootID artifactID : string) (container : OutputContainer) : worker bool :=
  status ← InspectStaged rootID artifactID container;
  match status with
  | StagedPartial =>
      extension ← stagedExtension container;
      removeStagedName rootID (partialStagedName (stagedName artifactID extension)) ""
  | _ => mret false
  end.

Definition RemoveCompleted (rootID artifactID : string) (container : OutputContainer)
    (expectedFingerprint : string) : worker bool :=
  _ ← fail_when (bool_decide (expectedFingerprint = "")) (Failure FailureInternal);
  status ← InspectStaged rootID artifactID container;
  match status with
  | StagedComplete _ =>
      extension ← stagedExtension container;
      removeStagedName rootID (stagedName artifactID extension) expectedFingerprint
  | _ => mret false
  end.

(** [PrepareStage] (preparation_linux.go). *)
Definition PrepareStage (rootID artifactID : string) (container : OutputContainer)
    : worker (option file) :=
  status ← InspectStaged rootID artifactID container;
  match status with
  | StagedComplete completed => mret (Some completed)
  | StagedPartial =>
      removed ← RemovePartial rootID artifactID container;
      _ ← fail_when (negb removed) (Failure FailureArtifactExists);
      mret None
  | StagedMissing => mret None
  end.

(** ** Publishing *)

Fixpoint common_prefix (a b : list string) : list string :=
  match a, b with
  | x :: a, y :: b => if bool_decide (x = y) then x :: common_prefix a b else []
  | _, _ => []
  end.

Definition in_workspace (components : list string) : bool :=
  bool_decide (head components = Some workspaceDirectoryName).

Definition commonInputDirectory (inputPaths : list (list string)) : worker (list string) :=
  match inputPaths with
  | first :: ((_ :: _) as rest) =>
      _ ← fail_when (negb (forallb validComponents inputPaths)) (Failure FailureInvalidPath);
      let common := foldl (fun common path => common_prefix common (removelast path)) (removelast first) rest in
      _ ← fail_when (in_workspace common) (Failure FailureInvalidPath);
      mret common
  | _ => throw (Failure FailureInvalidPath)
  end.

Definition publishCompletedAt (rootID artifactID : string) (container : OutputContainer)
    (expectedFingerprint : string) (directoryComponents : list string) : worker (list string) :=
  _ ← require_root rootID;
  _ ← fail_when (bool_decide (artifactID = "") || bool_decide (expectedFingerprint = ""))
        (Failure FailureInternal);
  extension ← stagedExtension container;
  let name := PublishedName artifactID extension in
  let destination := MediaDirectory rootID directoryComponents in
  found ← openStagedDirectory rootID;
  _ ← fail_when (negb found) (Failure FailureFileUnavailable);
  _ ← openMediaDirectory rootID directoryComponents;
  staged ← openArtifact rootID (stagedName artifactID extension);
  published ← openPublishedArtifact destination name;
  _ ← match staged with
      | Some artifact =>
          _ ← verifyArtifactFingerprint artifact expectedFingerprint;
          _ ← fail_when (bool_decide (is_Some published)) (Failure FailureDestinationExists);
          _ ← makePublishedArtifactReadable destination artifact;
          moved ← attempt (moveNoReplace (StagedDirectory rootID) (stagedName artifactID extension)
                             destination name);
          match moved with
          | inl _ => mret tt
          | inr e =>
              throw (Failure (if is_errno EEXIST e then FailureDestinationExists
                              else if is_errno ENOENT e then FailureFileUnavailable
                              else FailureInternal))
          end
      | None =>
          match published with
          | None => throw (Failure FailureFileUnavailable)
          | Some artifact =>
              _ ← verifyArtifactFingerprint artifact expectedFingerprint;
              makePublishedArtifactReadable destination artifact
          end
      end;
  first ← error_of (syncDirectory destination);
  second ← error_of (syncDirectory (StagedDirectory rootID));
  match join_errors [first; second] with
  | Some e => throw e
  | None => mret (directoryComponents ++ [name])
  end.

Definition PublishCompleted (rootID artifactID : string) (container : OutputContainer)
    (expectedFingerprint : string) (inputPaths : list (list string)) : worker (list string) :=
  directoryComponents ← commonInputDirectory inputPaths;
  publishCompletedAt rootID artifactID container expectedFingerprint directoryComponents.

Definition PublishCompletedAt (rootID artifactID : string) (container : OutputContainer)
    (expectedFingerprint : string) (directoryComponents : list string) : worker (list string) :=
  _ ← fail_when (negb (bool_decide (directoryComponents = [])) &&
                 (negb (validComponents directoryComponents) || in_workspace directoryComponents))
        (Failure FailureInvalidPath);
  publishCompletedAt rootID artifactID container expectedFingerprint directoryComponents.
End roots.
End mediafile.
