(* ===== verification/WorkerJoinStage.v ===== *)
(** * Staging joins in the worker

    [worker/joinstage/executor_linux.go]: joining parts into a staged artifact,
    probing the result, and recovering an artifact that an earlier run
    completed. The diagnostics of the tools are left out. *)
From ITree Require Import ITree.
From stdpp Require Import base strings list gmap.
From S2P Require Import Prelude GoStrings GoCrypto FileIdentity Probe Media WorkerContracts Decisions.
From S2P Require Import Programs WorkerFiles.
Import mediafile.

(** A [defer] that runs after the body and may replace its outcome. *)
Definition finally {A} (body : worker A) (cleanup : A + worker_error -> worker (A + worker_error))
    : worker A :=
  r ← attempt body;
  r ← cleanup r;
  match r with inl a => mret a | inr e => throw e end.

(** ** Joins (joinstage/executor_linux.go) *)
Module joinstage.

Record Part := mkPart
  { jp_FileID : string; jp_PathComponents : list string; jp_ExpectedFingerprint : string }.

(** [joinstate.Specification]. *)
Record Specification := mkSpecification
  { js_ExecutionID : string; js_CaseID : string; js_CapabilityID : string; js_RootID : string;
    js_Parts : list Part; js_OutputContainer : OutputContainer; js_ExpectedSourceBytes : Z;
    js_ExpectedDurationMS : Z; js_DurationToleranceMS : Z; js_ExpectedStreamCount : Z }.

Inductive State := Prepared | Staged | Published | Discarded | Failed.

(** [joinstate.Execution] without what the store adds to it: the version, the
    times and the outcome, which staging does not read. *)
Record Execution := mkExecution
  { je_State : State; je_ArtifactID : string; je_Specification : Specification }.

Record Result := mkResult { jr_Fingerprint : string; jr_SizeBytes : Z; jr_Evidence : ProbeEvidence }.

Definition StageJoinUnknownRoot : string := "unknown_root".
Definition StageJoinInvalidPath : string := "invalid_path".
Definition StageJoinFileUnavailable : string := "file_unavailable".
Definition StageJoinNotRegularFile : string := "not_regular_file".
Definition StageJoinFingerprintMismatch : string := "fingerprint_mismatch".
Definition StageJoinSourceSizeMismatch : string := "source_size_mismatch".
Definition StageJoinInsufficientSpace : string := "insufficient_space".
Definition StageJoinExecutionConflict : string := "execution_conflict".
Definition StageJoinJoinError : string := "join_error".
Definition StageJoinTimeout : string := "timeout".
Definition StageJoinProbeError : string := "probe_error".
Definition StageJoinInvalidOutput : string := "invalid_output".
Definition StageJoinInternalError : string := "internal_error".

(** [errors.As]: the first error of a type, outermost first. *)
Fixpoint find_error {A} (select : worker_error -> option A) (e : worker_error) : option A :=
  match select e with
  | Some a => Some a
  | None =>
      match e with
      | Joined es => foldr (fun e found => match find_error select e with Some a => Some a | None => found end) None es
      | _ => None
      end
  end.

Definition file_reason (kind : FailureKind) : string :=
  match kind with
  | FailureUnknownRoot => StageJoinUnknownRoot
  | FailureInvalidPath => StageJoinInvalidPath
  | FailureFileUnavailable => StageJoinFileUnavailable
  | FailureNotRegularFile => StageJoinNotRegularFile
  | FailureFingerprintMismatch => StageJoinFingerprintMismatch
  | FailureInsufficientSpace => StageJoinInsufficientSpace
  | FailureArtifactExists => StageJoinExecutionConflict
  | _ => StageJoinInternalError
  end.

Definition tool_reason (otherwise : string) (kind : ToolFailureKind) : string :=
  match kind with
  | FailureTimeout => StageJoinTimeout
  | FailureInvalidOutput => StageJoinInvalidOutput
  | FailureExecution => otherwise
  end.

Definition failureFor (e : worker_error) : worker_error :=
  StageFailure
    (match find_error (fun e => match e with StageFailure r => Some r | _ => None end) e with
     | Some reason => reason
     | None =>
     match find_error (fun e => match e with Failure k => Some k | _ => None end) e with
     | Some kind => file_reason kind
     | None =>
     match find_error (fun e => match e with JoinFailure k => Some k | _ => None end) e with
     | Some kind => tool_reason StageJoinJoinError kind
     | None =>
     match find_error (fun e => match e with ProbeFailure k => Some k | _ => None end) e with
     | Some kind => tool_reason StageJoinProbeError kind
     | None =>
     match find_error (fun e => match e with ContextDone => Some tt | _ => None end) e with
     | Some _ => StageJoinTimeout
     | None => StageJoinInternalError
     end end end end end).

(** A program whose errors are classified. *)
Definition classified {A} (p : worker A) : worker A :=
  r ← attempt p;
  match r with inl a => mret a | inr e => throw (failureFor e) end.

Section executor.
Context (roots : RootSet).

Definition validateExecution (execution : Execution) : worker unit :=
  _ ← classified (check ContextErr id);
  match je_State execution with
  | Prepared => fail_when (bool_decide (je_ArtifactID execution = "")) (StageFailure StageJoinInternalError)
  | _ => throw (StageFailure StageJoinInternalError)
  end.

Fixpoint open_parts (rootID : string) (parts : list Part) (total : Z) : worker (list file * Z) :=
  match parts with
  | [] => mret ([], total)
  | part :: rest =>
      media ← classified (Open roots rootID (jp_PathComponents part) (jp_ExpectedFingerprint part));
      r ← call (Fstat media);
      match r with
      | inr _ => throw (StageFailure StageJoinFileUnavailable)
      | inl stat =>
          _ ← fail_when (bool_decide (sd_Size stat < 0) || bool_decide (max_int64 - sd_Size stat < total))
                (StageFailure StageJoinInternalError);
          '(files, bytes) ← open_parts rootID rest (total + sd_Size stat);
          mret (media :: files, bytes)
      end
  end.

Definition openParts (specification : Specification) : worker (list file * Z) :=
  open_parts (js_RootID specification) (js_Parts specification) 0.

Fixpoint verify_parts (files : list file) (parts : list Part) : worker unit :=
  match files, parts with
  | f :: files, part :: parts =>
      _ ← classified (Verify f (jp_ExpectedFingerprint part));
      verify_parts files parts
  | _, _ => mret tt
  end.

Definition verifyParts (files : list file) (parts : list Part) : worker unit :=
  if negb (bool_decide (length files = length parts)) then throw (StageFailure StageJoinInternalError)
  else verify_parts files parts.

(** The body of [Stage] after the artifact was created. *)
Definition stage_into (execution : Execution) (files : list file) (artifact : stagedArtifact)
    : worker Result :=
  let specification := je_Specification execution in
  '(joinedBytes, joinErr) ← call (JoinParts files (sa_file artifact) (js_OutputContainer specification));
  _ ← verifyParts files (js_Parts specification);
  _ ← match joinErr with Some e => throw (failureFor e) | None => mret tt end;
  probed ← call (ProbeFile (sa_file artifact));
  match probed with
  | inr e => throw (failureFor e)
  | inl evidence =>
      _ ← classified (check ContextErr id);
      '(fingerprint, sizeBytes) ← classified (Snapshot_ (sa_file artifact));
      _ ← fail_when (bool_decide (sizeBytes <= 0) || negb (bool_decide (sizeBytes = joinedBytes)))
            (StageFailure StageJoinInvalidOutput);
      _ ← classified (Retain artifact);
      mret (mkResult fingerprint sizeBytes evidence)
  end.

(** An artifact that is not retained is discarded. *)
Definition discard_failed {A} (artifact : stagedArtifact) (failure : worker_error -> worker_error -> worker_error)
    (r : A + worker_error) : worker (A + worker_error) :=
  match r with
  | inl _ => mret r
  | inr e =>
      discarded ← Discard artifact;
      mret (match discarded with Some d => inr (failure e d) | None => inr e end)
  end.

Definition Stage (execution : Execution) : worker Result :=
  let specification := je_Specification execution in
  _ ← validateExecution execution;
  '(files, sourceBytes) ← openParts specification;
  _ ← fail_when (negb (bool_decide (sourceBytes = js_ExpectedSourceBytes specification)))
        (StageFailure StageJoinSourceSizeMismatch);
  artifact ← classified (CreateStaged roots (js_RootID specification) (je_ArtifactID execution)
    (js_OutputContainer specification) (mul64 2 (js_ExpectedSourceBytes specification)));
  finally (stage_into execution files artifact)
    (discard_failed artifact (fun _ _ => StageFailure StageJoinInternalError)).

(** What recovery found wrong, in the order of the tests. *)
Definition recovery_error (before after : (string * Z) + worker_error) (probed : option (ProbeEvidence + worker_error))
    (closed : option worker_error) (context : option worker_error) : option worker_error :=
  match before with
  | inr e => Some e
  | inl (fingerprintBefore, sizeBefore) =>
      if bool_decide (sizeBefore <= 0) then Some (StageFailure StageJoinInvalidOutput)
      else
        match probed with
        | Some (inr e) => Some (failureFor e)
        | _ =>
            match after with
            | inr e => Some e
            | inl (fingerprintAfter, sizeAfter) =>
                if negb (bool_decide (fingerprintBefore = fingerprintAfter)) ||
                   negb (bool_decide (sizeBefore = sizeAfter))
                then Some (StageFailure StageJoinInvalidOutput)
                else match closed with Some e => Some e | None => context end
            end
        end
  end.

Definition probe_nonempty (before : (string * Z) + worker_error) (artifact : file)
    : worker (option (ProbeEvidence + worker_error)) :=
  match before with
  | inl (_, size) =>
      if bool_decide (0 < size) then r ← call (ProbeFile artifact); mret (Some r) else mret None
  | inr _ => mret None
  end.

Definition recoverCompleted (execution : Execution) (artifact : file) : worker Result :=
  let specification := je_Specification execution in
  before ← attempt (Snapshot_ artifact);
  probed ← probe_nonempty before artifact;
  after ← attempt (Snapshot_ artifact);
  closed ← call (Close artifact);
  let closeErr := option_map internal closed in
  context ← call ContextErr;
  match recovery_error before after probed closeErr context, after, probed with
  | None, inl (fingerprint, size), Some (inl evidence) => mret (mkResult fingerprint size evidence)
  | None, _, _ => throw (StageFailure StageJoinInternalError)
  | Some e, inl (fingerprint, _), _ =>
      if bool_decide (fingerprint = "") then throw (failureFor (Joined (e :: option_list closeErr)))
      else
        removed ← attempt (RemoveCompleted roots (js_RootID specification) (je_ArtifactID execution)
          (js_OutputContainer specification) fingerprint);
        match removed with
        | inl true => throw (failureFor (Joined (e :: option_list closeErr)))
        | _ => throw (StageFailure StageJoinInternalError)
        end
  | Some e, inr _, _ => throw (failureFor (Joined (e :: option_list closeErr)))
  end.

Definition StageOrRecover (execution : Execution) : worker Result :=
  let specification := je_Specification execution in
  _ ← validateExecution execution;
  completed ← classified (PrepareStage roots (js_RootID specification) (je_ArtifactID execution)
    (js_OutputContainer specification));
  match completed with
  | Some artifact => recoverCompleted execution artifact
  | None => Stage execution
  end.
End executor.
End joinstage.
