(* ===== verification/WorkerDisc.v ===== *)
(** * Staging discs in the worker

    What [worker/bluraystage] and [worker/dvdstage] share: both run a tool into
    a staged artifact, verify their inputs, probe and validate the output, and
    recover an artifact that an earlier run completed. *)
From ITree Require Import ITree.
From stdpp Require Import base strings list gmap.
From S2P Require Import Prelude GoStrings GoCrypto FileIdentity Probe Media WorkerContracts Decisions.
From S2P Require Import DiscCandidates RemuxVerification Programs WorkerFiles WorkerJoinStage.
Import mediafile.

(** [Source] of bluraystage and of dvdstage. *)
Record Source := mkSource { so_PathComponents : list string; so_ExpectedFingerprint : string; so_SizeBytes : Z }.

Definition validSource (source : Source) : bool :=
  negb (bool_decide (so_ExpectedFingerprint source = "")) && bool_decide (0 < so_SizeBytes source) &&
  forallb (fun part =>
    negb (bool_decide (part = "") || bool_decide (part = ".") || bool_decide (part = "..") ||
          ContainsByte part slash || ContainsByte part nul) &&
    bool_decide (filepath.Base part = part)) (so_PathComponents source).

(** The component at a distance from the end. *)
Definition from_end (n : nat) (components : list string) : string :=
  nth (length components - n) components "".

Record DiscResult := mkDiscResult
  { dr_ArtifactID : string; dr_Fingerprint : string; dr_SizeBytes : Z; dr_Evidence : ProbeEvidence }.

Section disc.
Context (roots : RootSet).

Fixpoint verify_inputs (rootID : string) (sources : list Source) (opened : list file) : worker unit :=
  match sources, opened with
  | source :: sources, f :: opened =>
      _ ← Verify f (so_ExpectedFingerprint source);
      fresh ← Open roots rootID (so_PathComponents source) (so_ExpectedFingerprint source);
      _ ← check (Close fresh) Errno;
      verify_inputs rootID sources opened
  | _, _ => mret tt
  end.

(** [verifyInputs], with the text of its own error. *)
Definition verifyInputs (rootID changed : string) (sources : list Source) (opened : list file) : worker unit :=
  if negb (bool_decide (length sources = length opened)) then throw (OtherError changed)
  else verify_inputs rootID sources opened.

(** A source that still has its fingerprint and size, and its absolute path. *)
Definition open_source (rootID changed : string) (source : Source) : worker (file * string) :=
  media ← Open roots rootID (so_PathComponents source) (so_ExpectedFingerprint source);
  r ← call (Fstat media);
  match r with
  | inr _ => throw (OtherError changed)
  | inl stat =>
      _ ← fail_when (negb (bool_decide (sd_Size stat = so_SizeBytes source))) (OtherError changed);
      path ← AbsolutePath roots rootID (so_PathComponents source);
      mret (media, path)
  end.

(** The body of [stage] after the artifact was created: a tool writes it, the
    inputs are verified, and the output is probed and validated. *)
Definition remux_into (tool : file -> workerE (Z * option worker_error)) (verify : worker unit)
    (validate : ProbeEvidence -> result unit) (sizeChanged artifactID : string) (artifact : stagedArtifact)
    : worker DiscResult :=
  '(size, remuxErr) ← call (tool (sa_file artifact));
  _ ← verify;
  _ ← match remuxErr with Some e => throw e | None => mret tt end;
  probed ← call (ProbeFile (sa_file artifact));
  match probed with
  | inr e => throw e
  | inl evidence =>
      match validate evidence with
      | Err e => throw (OtherError e)
      | Ok _ =>
          '(fingerprint, snapshotSize) ← Snapshot_ (sa_file artifact);
          _ ← fail_when (bool_decide (size <= 0) || negb (bool_decide (size = snapshotSize)))
                (OtherError sizeChanged);
          _ ← Retain artifact;
          mret (mkDiscResult artifactID fingerprint snapshotSize evidence)
      end
  end.

Definition remux_stage (rootID : string) (sourceBytes : Z) (tool : file -> workerE (Z * option worker_error))
    (verify : worker unit) (validate : ProbeEvidence -> result unit) (sizeChanged artifactID : string)
    : worker DiscResult :=
  artifact ← CreateStaged roots rootID artifactID OutputContainerMKV sourceBytes;
  finally (remux_into tool verify validate sizeChanged artifactID artifact)
    (joinstage.discard_failed artifact (fun e d => Joined [e; d])).

Definition remux_recover (rootID : string) (verify : worker unit) (validate : ProbeEvidence -> result unit)
    (changed artifactID : string) (artifact : file) : worker DiscResult :=
  '(before, sizeBefore) ← Snapshot_ artifact;
  probed ← call (ProbeFile artifact);
  match probed with
  | inr e => throw e
  | inl evidence =>
      match validate evidence with
      | Err e =>
          removed ← attempt (RemoveCompleted roots rootID artifactID OutputContainerMKV before);
          match removed with
          | inl true => throw (OtherError e)
          | inl false => throw (Joined [OtherError e; OtherError "invalid staged artifact was not removed"])
          | inr r => throw (Joined [OtherError e; r; OtherError "invalid staged artifact was not removed"])
          end
      | Ok _ =>
          '(after, sizeAfter) ← Snapshot_ artifact;
          _ ← fail_when (negb (bool_decide (before = after)) || negb (bool_decide (sizeBefore = sizeAfter)) ||
                         bool_decide (sizeAfter <= 0)) (OtherError changed);
          _ ← verify;
          mret (mkDiscResult artifactID after sizeAfter evidence)
      end
  end.
End disc.

(** [json.Marshal] and the canonical form of a specification. *)
Class SpecificationCodec (Specification : Type) := CanonicalSpecification : Specification -> result string.

Definition artifact_digest (domain canonical : string) : string :=
  "artifact:" +:+ sha256_hex (string_bytes (domain +:+ canonical)).

(** The sum of sizes stays within 64 bits, when read from the left. *)
Fixpoint sizes_fit (sources : list Source) (total : Z) : bool :=
  match sources with
  | [] => true
  | source :: rest =>
      negb (bool_decide (max_int64 - total < so_SizeBytes source)) && sizes_fit rest (total + so_SizeBytes source)
  end.

Definition source_bytes (sources : list Source) : Z := foldl (fun total source => add64 total (so_SizeBytes source)) 0 sources.
