(* ===== verification/WorkerBlurayStage.v ===== *)
(** * Staging Blu-ray discs in the worker

    [worker/bluraystage/executor_linux.go]. *)
From ITree Require Import ITree.
From stdpp Require Import base strings list gmap.
From S2P Require Import Prelude GoStrings GoCrypto FileIdentity Probe Media WorkerContracts Decisions.
From S2P Require Import DiscCandidates RemuxVerification Programs WorkerFiles WorkerJoinStage WorkerDisc.
Import mediafile.

Module bluraystage.

Definition artifactDomain : string := "radarr-repair-worker-bluray-artifact-v1" +:+ bytes [0%nat].

Record Specification := mkSpecification
  { bs_ExecutionID : string; bs_CaseID : string; bs_CapabilityID : string; bs_RootID : string;
    bs_Playlist : Source; bs_Clips : list Source; bs_ExpectedDurationMS : Z; bs_ExpectedChapterCount : Z;
    bs_ExpectedTracks : list RemuxTrack }.

Definition valid_playlist (source : Source) : bool :=
  let parts := so_PathComponents source in
  bool_decide (3 <= length parts)%nat && bool_decide (from_end 3 parts = "BDMV") &&
  bool_decide (from_end 2 parts = "PLAYLIST") && NumberedPlaylist (from_end 1 parts) && validSource source.

Definition valid_clip (parts : list string) (clip : Source) : bool :=
  let path := so_PathComponents clip in
  let disc := take (length parts - 3) parts in
  bool_decide (length path = length parts) && bool_decide (take (length disc) path = disc) &&
  bool_decide (from_end 3 path = "BDMV") && bool_decide (from_end 2 path = "STREAM") &&
  NumberedClip (from_end 1 path) && validSource clip.

Definition valid_track (track : RemuxTrack) : bool :=
  negb (bool_decide (tr_Codec track = "")) &&
  (bool_decide (tr_Kind track = "video") || bool_decide (tr_Kind track = "audio") ||
   bool_decide (tr_Kind track = "subtitles")).

Definition count_within (low high : nat) {A} (l : list A) : bool :=
  bool_decide (low <= length l)%nat && bool_decide (length l <= high)%nat.

Definition validateSpecification (spec : Specification) : worker unit :=
  _ ← fail_when (bool_decide (bs_ExecutionID spec = "") || bool_decide (bs_CaseID spec = "") ||
        bool_decide (bs_CapabilityID spec = "") || bool_decide (bs_RootID spec = "") ||
        bool_decide (bs_ExpectedDurationMS spec <= 0) ||
        bool_decide (7 * 24 * 60 * 60 * 1000 < bs_ExpectedDurationMS spec) ||
        bool_decide (bs_ExpectedChapterCount spec < 0) || bool_decide (4096 < bs_ExpectedChapterCount spec) ||
        negb (count_within 1 1024 (bs_Clips spec)) || negb (count_within 1 32 (bs_ExpectedTracks spec)))
        (OtherError "invalid Blu-ray remux specification");
  _ ← fail_when (negb (valid_playlist (bs_Playlist spec))) (OtherError "invalid Blu-ray playlist input");
  _ ← fail_when (negb (forallb (valid_clip (so_PathComponents (bs_Playlist spec))) (bs_Clips spec)) ||
                 negb (sizes_fit (bs_Clips spec) 0)) (OtherError "invalid Blu-ray clip input");
  _ ← fail_when (negb (forallb valid_track (bs_ExpectedTracks spec)))
        (OtherError "invalid Blu-ray track expectation");
  fail_when (negb (existsb (fun track => bool_decide (tr_Kind track = "video")) (bs_ExpectedTracks spec)))
    (OtherError "Blu-ray track expectation has no video").

Section executor.
Context (roots : RootSet) `{!SpecificationCodec Specification}.

Definition ArtifactID (spec : Specification) : worker string :=
  _ ← validateSpecification spec;
  match CanonicalSpecification spec with
  | Err e => throw (OtherError e)
  | Ok canonical => mret (artifact_digest artifactDomain canonical)
  end.

Definition inputs (spec : Specification) : list Source := bs_Playlist spec :: bs_Clips spec.

Definition verify (spec : Specification) (opened : list file) : worker unit :=
  verifyInputs roots (bs_RootID spec) "Blu-ray input count changed" (inputs spec) opened.

Fixpoint open_inputs (rootID : string) (sources : list Source) : worker (list file * list string) :=
  match sources with
  | [] => mret ([], [])
  | source :: rest =>
      '(media, path) ← open_source roots rootID "Blu-ray source size changed" source;
      '(files, paths) ← open_inputs rootID rest;
      mret (media :: files, path :: paths)
  end.

Definition openAndIdentify (spec : Specification) : worker (list file * string) :=
  '(opened, paths) ← open_inputs (bs_RootID spec) (inputs spec);
  let playlistPath := default "" (head paths) in
  identified ← call (IdentifyPlaylist playlistPath (so_ExpectedFingerprint (bs_Playlist spec)));
  match identified with
  | inr e => throw e
  | inl details =>
      _ ← fail_when (negb (bool_decide (pl_DurationMS details = bs_ExpectedDurationMS spec)) ||
             negb (bool_decide (pl_Chapters details = bs_ExpectedChapterCount spec)) ||
             negb (bool_decide (pl_Tracks details = bs_ExpectedTracks spec)) ||
             negb (bool_decide (pl_ClipPaths details = tail paths)))
            (OtherError "Blu-ray playlist metadata changed");
      _ ← verify spec opened;
      mret (opened, playlistPath)
  end.

Definition validate (spec : Specification) (evidence : ProbeEvidence) : result unit :=
  ValidateRemuxOutput (bs_ExpectedDurationMS spec) (bs_ExpectedChapterCount spec) (bs_ExpectedTracks spec) evidence.

Definition StageOrRecover (spec : Specification) : worker DiscResult :=
  _ ← check ContextErr id;
  artifactID ← ArtifactID spec;
  '(opened, playlistPath) ← openAndIdentify spec;
  completed ← PrepareStage roots (bs_RootID spec) artifactID OutputContainerMKV;
  match completed with
  | Some artifact =>
      remux_recover roots (bs_RootID spec) (verify spec opened) (validate spec)
        "completed Blu-ray artifact changed during probe" artifactID artifact
  | None =>
      remux_stage roots (bs_RootID spec) (source_bytes (bs_Clips spec)) (RemuxPlaylist playlistPath)
        (verify spec opened) (validate spec) "Blu-ray remux output size changed" artifactID
  end.
End executor.
End bluraystage.
