(* ===== verification/WorkerDVDStage.v ===== *)
(** * Staging DVDs in the worker

    [worker/dvdstage/executor_linux.go]. *)
From ITree Require Import ITree.
From stdpp Require Import base strings list gmap.
From S2P Require Import Prelude GoStrings GoCrypto FileIdentity Probe Media WorkerContracts Decisions.
From S2P Require Import DiscCandidates RemuxVerification Programs WorkerFiles WorkerJoinStage WorkerDisc.
From S2P Require Import WorkerBlurayStage.
Import mediafile.

Module dvdstage.
Import bluraystage.

Definition artifactDomain : string := "radarr-repair-worker-dvd-artifact-v1" +:+ bytes [0%nat].

Record Specification := mkSpecification
  { ds_ExecutionID : string; ds_CaseID : string; ds_CapabilityID : string; ds_RootID : string;
    ds_Navigation : Source; ds_Sources : list Source; ds_TitleNumber : Z; ds_ExpectedDurationMS : Z;
    ds_ExpectedChapterCount : Z; ds_ExpectedTracks : list RemuxTrack }.

(** The files of the directory in the order of their names. *)
Fixpoint valid_sources (parts : list string) (lastName : string) (sources : list Source) : bool :=
  match sources with
  | [] => true
  | source :: rest =>
      let path := so_PathComponents source in
      let folder := removelast parts in
      let name := from_end 1 path in
      bool_decide (length path = length parts) && bool_decide (take (length folder) path = folder) &&
      validSource source && dvdvideo.ValidFileName name && negb (bool_decide (string_le name lastName)) &&
      valid_sources parts name rest
  end.

(** The last source at the path of the navigation file decides. *)
Definition found_navigation (navigation : Source) (sources : list Source) : bool :=
  foldl (fun found source =>
    if bool_decide (so_PathComponents source = so_PathComponents navigation)
    then bool_decide (so_ExpectedFingerprint source = so_ExpectedFingerprint navigation) &&
         bool_decide (so_SizeBytes source = so_SizeBytes navigation)
    else found) false sources.

Definition has_kind (kind : string) (tracks : list RemuxTrack) : bool :=
  existsb (fun track => bool_decide (tr_Kind track = kind)) tracks.

Definition validateSpecification (spec : Specification) : worker unit :=
  _ ← fail_when (bool_decide (ds_ExecutionID spec = "") || bool_decide (ds_CaseID spec = "") ||
        bool_decide (ds_CapabilityID spec = "") || bool_decide (ds_RootID spec = "") ||
        bool_decide (ds_TitleNumber spec < 1) || bool_decide (128 < ds_TitleNumber spec) ||
        bool_decide (ds_ExpectedDurationMS spec <= 0) ||
        bool_decide (7 * 24 * 60 * 60 * 1000 < ds_ExpectedDurationMS spec) ||
        bool_decide (ds_ExpectedChapterCount spec <= 0) || bool_decide (4096 < ds_ExpectedChapterCount spec) ||
        negb (count_within 3 1024 (ds_Sources spec)) || negb (count_within 2 32 (ds_ExpectedTracks spec)))
        (OtherError "invalid DVD remux specification");
  let parts := so_PathComponents (ds_Navigation spec) in
  _ ← fail_when (negb (bool_decide (1 <= length parts)%nat && bool_decide (from_end 1 parts = "VIDEO_TS.IFO") &&
                       validSource (ds_Navigation spec))) (OtherError "invalid DVD navigation source");
  _ ← fail_when (negb (valid_sources parts "" (ds_Sources spec)) || negb (sizes_fit (ds_Sources spec) 0))
        (OtherError "invalid DVD source list");
  _ ← fail_when (negb (found_navigation (ds_Navigation spec) (ds_Sources spec)))
        (OtherError "DVD navigation file is not among the sources");
  _ ← fail_when (negb (forallb valid_track (ds_ExpectedTracks spec)))
        (OtherError "invalid DVD track expectation");
  fail_when (negb (has_kind "video" (ds_ExpectedTracks spec)) || negb (has_kind "audio" (ds_ExpectedTracks spec)))
    (OtherError "DVD track expectation lacks video or audio").

Section executor.
Context (roots : RootSet) `{!SpecificationCodec Specification}.

Definition ArtifactID (spec : Specification) : worker string :=
  _ ← validateSpecification spec;
  match CanonicalSpecification spec with
  | Err e => throw (OtherError e)
  | Ok canonical => mret (artifact_digest artifactDomain canonical)
  end.

Definition verify (spec : Specification) (opened : list file) : worker unit :=
  verifyInputs roots (ds_RootID spec) "DVD source count changed" (ds_Sources spec) opened.

(** The opened files, their directory and the names seen in it. *)
Fixpoint open_sources (rootID : string) (sources : list Source) (folder : string) (seen : list string)
    : worker (list file * string * list string) :=
  match sources with
  | [] => mret ([], folder, seen)
  | source :: rest =>
      '(media, path) ← open_source roots rootID "DVD source size changed" source;
      let folder := if bool_decide (folder = "") then filepath.Dir path else folder in
      _ ← fail_when (negb (bool_decide (filepath.Dir path = folder)) ||
                     bool_decide (filepath.Base path ∈ seen))
            (OtherError "DVD sources do not form one directory");
      '(files, folder, seen) ← open_sources rootID rest folder (filepath.Base path :: seen);
      mret (media :: files, folder, seen)
  end.

(** An entry of the directory is a regular file that was seen. *)
Definition bound_entry (seen : list string) (entry : string * option bool) : bool :=
  bool_decide (entry.1 ∈ seen) && match entry.2 with Some regular => regular | None => false end.

Definition title_unchanged (spec : Specification) (title : Title) : bool :=
  bool_decide (tt_Number title = ds_TitleNumber spec) &&
  bool_decide (tt_DurationMS title = ds_ExpectedDurationMS spec) &&
  bool_decide (tt_Chapters title = ds_ExpectedChapterCount spec) && bool_decide (tt_Angles title = 1) &&
  bool_decide (tt_Tracks title = ds_ExpectedTracks spec).

Definition openAndIdentify (spec : Specification) : worker (list file * string) :=
  '(opened, folder, seen) ← open_sources (ds_RootID spec) (ds_Sources spec) "" [];
  r ← call (ReadDir folder);
  match r with
  | inr _ => throw (OtherError "DVD source directory changed")
  | inl entries =>
      _ ← fail_when (negb (bool_decide (length entries = length seen))) (OtherError "DVD source directory changed");
      _ ← fail_when (negb (forallb (bound_entry seen) entries))
            (OtherError "DVD source directory contains an unbound file");
      identified ← call (IdentifyTitles (filepath.Clean (folder +:+ "/VIDEO_TS.IFO"))
        (so_ExpectedFingerprint (ds_Navigation spec)));
      match identified with
      | inr e => throw e
      | inl titles =>
          _ ← fail_when (negb (existsb (title_unchanged spec) titles)) (OtherError "DVD title metadata changed");
          _ ← verify spec opened;
          mret (opened, folder)
      end
  end.

Definition validate (spec : Specification) (evidence : ProbeEvidence) : result unit :=
  ValidateDVDOutput (ds_ExpectedDurationMS spec) (ds_ExpectedChapterCount spec) (ds_ExpectedTracks spec) evidence.

Definition StageOrRecover (spec : Specification) : worker DiscResult :=
  _ ← check ContextErr id;
  artifactID ← ArtifactID spec;
  '(opened, folder) ← openAndIdentify spec;
  completed ← PrepareStage roots (ds_RootID spec) artifactID OutputContainerMKV;
  match completed with
  | Some artifact =>
      remux_recover roots (ds_RootID spec) (verify spec opened) (validate spec)
        "completed DVD artifact changed during probe" artifactID artifact
  | None =>
      remux_stage roots (ds_RootID spec) (source_bytes (ds_Sources spec)) (RemuxTitle folder (ds_TitleNumber spec))
        (verify spec opened) (validate spec) "DVD remux output changed after probing" artifactID
  end.
End executor.
End dvdstage.
