(* ===== verification/WorkerTransform.v ===== *)
(** * Media operations of the worker

    [worker/operation/transform_linux.go]: one authorized join or remux, from
    the paths of its sources to the published file. *)
From ITree Require Import ITree.
From stdpp Require Import base strings list gmap sorting.
From S2P Require Import Prelude GoStrings GoCrypto FileIdentity Probe Media WorkerContracts Decisions.
From S2P Require Import DiscCandidates JoinPolicy DiscPolicy JoinVerification RemuxVerification.
From S2P Require Import RadarrAdapter Programs WorkerFiles WorkerJoinStage WorkerDisc.
From S2P Require Import WorkerBlurayStage WorkerDVDStage.
Import mediafile repairradarr.

Module operation.

Record Transformer := mkTransformer
  { wt_Roots : gmap string string; wt_Files : RootSet; wt_FFmpeg : string; wt_MKVmerge : string;
    wt_LSDVD : string; wt_Timeout : Z }.

(** ** Paths below a root *)

(** The components of a path below a root. [filepath.Rel] fails for a root that
    is not rooted, when the path is. *)
Definition local_components (root path : string) : option (list string) :=
  if filepath.IsAbs path && filepath.IsAbs root then
    let relative := filepath.Rel root path in
    if filepath.IsLocal relative && negb (bool_decide (relative = ".")) then Some (split_on slash relative) else None
  else None.

(** The loop over the paths stops at the first one outside the root. *)
Fixpoint components_below (root : string) (paths : list string) : list (list string) :=
  match paths with
  | [] => []
  | path :: rest =>
      match local_components root path with
      | Some components => components :: components_below root rest
      | None => []
      end
  end.

Fixpoint resolve_in (roots : gmap string string) (rootIDs paths : list string)
    : option (string * list (list string)) :=
  match rootIDs with
  | [] => None
  | id :: rest =>
      let components := components_below (default "" (roots !! id)) paths in
      if bool_decide (length components = length paths) && negb (bool_decide (paths = []))
      then Some (id, components) else resolve_in roots rest paths
  end.

Definition sorted_keys (roots : gmap string string) : list string :=
  merge_sort string_le (map fst (map_to_list roots)).

Example local_examples :
  filepath.Rel "/data/movies" "/data/movies/Film/a.avi" = "Film/a.avi" /\ filepath.Rel "/data/movies" "/data/tv/b" = "../tv/b" /\
  local_components "/data/movies" "/data/tv/b" = None /\
  local_components "/" "/data//x/../b" = Some ["data"; "b"] /\ filepath.Rel "/data" "/" = "..".
Proof. vm_compute. done. Qed.

Section transformer.
Context (wt : Transformer) `{!SpecificationCodec bluraystage.Specification}
  `{!SpecificationCodec dvdstage.Specification}.

Definition resolve (paths : list string) : worker (string * list (list string)) :=
  match resolve_in (wt_Roots wt) (sorted_keys (wt_Roots wt)) paths with
  | Some found => mret found
  | None => throw (OtherError "media inputs must share a configured root")
  end.

Definition sourcePaths (sources : list AuthorizedRemuxFile) (paths : gmap FileID string)
    : worker (string * list (list string)) :=
  resolve (map (fun source => default "" (paths !! arf_FileID source)) sources).

Definition output (root : string) (components : list string) (fingerprint : string)
    (evidence : ProbeEvidence) : worker Output :=
  path ← AbsolutePath (wt_Files wt) root components;
  mret (mkOutput path fingerprint evidence).

(** [NewRunner] of the tools, with the texts of its errors. *)
Definition NewRunner (executable invalidPath invalidTimeout : string) : worker unit :=
  _ ← fail_when (bool_decide (executable = "") || ContainsByte executable nul ||
        negb (filepath.IsAbs executable) || negb (bool_decide (filepath.Clean executable = executable)))
        (OtherError invalidPath);
  fail_when (bool_decide (wt_Timeout wt <= 0)) (OtherError invalidTimeout).

(** ** Joins *)

Definition join_parts (authorized : AuthorizedJoin) (components : list (list string)) : list joinstage.Part :=
  zip_with (fun part path =>
    joinstage.mkPart (ap_FileID part) path (StrictFingerprint (ap_Fingerprint part)))
    (aj_OrderedParts authorized) components.

Definition join_specification (authorized : AuthorizedJoin) (root : string) (components : list (list string))
    : joinstage.Specification :=
  joinstage.mkSpecification "" "" "" root (join_parts authorized components) (aj_OutputContainer authorized)
    (aj_SourceBytes authorized) 0 0 0.

Definition join (request : Transform) (authorized : AuthorizedJoin) : worker Output :=
  let id := transform_ID request in
  let container := aj_OutputContainer authorized in
  '(root, components) ← resolve
    (map (fun part => default "" (tf_Paths request !! ap_FileID part)) (aj_OrderedParts authorized));
  _ ← NewRunner (wt_FFmpeg wt) "ffmpeg executable must be an absolute clean path"
        "media join timeout must be positive";
  result ← joinstage.Stage (wt_Files wt)
    (joinstage.mkExecution joinstage.Prepared id (join_specification authorized root components));
  let evidence := joinstage.jr_Evidence result in
  match ValidateOutput authorized evidence (joinstage.jr_SizeBytes result) with
  | _ :: _ =>
      _ ← RemoveCompleted (wt_Files wt) root id container (joinstage.jr_Fingerprint result);
      throw (OtherError "joined output rejected")
  | [] =>
      published ← PublishCompleted (wt_Files wt) root id container (joinstage.jr_Fingerprint result) components;
      output root published (joinstage.jr_Fingerprint result) evidence
  end.

(** ** Discs *)

Definition disc_sources (files : list AuthorizedRemuxFile) (components : list (list string)) : list Source :=
  zip_with (fun file path =>
    mkSource path (StrictFingerprint (arf_Fingerprint file)) (SizeBytes (arf_Fingerprint file)))
    files components.

Definition no_source : Source := mkSource [] "" 0.

Definition bluray_specification (id : string) (authorized : AuthorizedRemux) (root : string)
    (sources : list Source) : bluraystage.Specification :=
  bluraystage.mkSpecification id (ar_CaseID authorized) (ar_CapabilityID authorized) root
    (default no_source (head sources)) (tail sources) (ar_ExpectedDurationMS authorized)
    (ar_ExpectedChapters authorized) (ar_ExpectedTracks authorized).

Definition bluray (request : Transform) (authorized : AuthorizedRemux) : worker Output :=
  let files := ar_Playlist authorized :: ar_Clips authorized in
  '(root, components) ← sourcePaths files (tf_Paths request);
  let spec := bluray_specification (transform_ID request) authorized root (disc_sources files components) in
  _ ← NewRunner (wt_MKVmerge wt) "mkvmerge executable must be an absolute clean path"
        "Blu-ray remux timeout must be positive";
  result ← bluraystage.StageOrRecover (wt_Files wt) spec;
  let path := so_PathComponents (bluraystage.bs_Playlist spec) in
  let directory := take (length path - 3) path in
  published ← PublishCompletedAt (wt_Files wt) root (dr_ArtifactID result) OutputContainerMKV
    (dr_Fingerprint result) directory;
  output root published (dr_Fingerprint result) (dr_Evidence result).

Definition dvd_specification (id : string) (authorized : AuthorizedDVD) (root : string)
    (sources : list Source) : dvdstage.Specification :=
  dvdstage.mkSpecification id (ad_CaseID authorized) (ad_CapabilityID authorized) root
    (default no_source (head sources)) (tail sources) (ad_TitleNumber authorized)
    (ad_ExpectedDurationMS authorized) (ad_ExpectedChapters authorized) (ad_ExpectedTracks authorized).

(** The directory of the disc, above VIDEO_TS. *)
Definition dvd_directory (navigation : list string) : list string :=
  let directory := removelast navigation in
  if bool_decide (last directory = Some "VIDEO_TS") then removelast directory else directory.

Definition dvd (request : Transform) (authorized : AuthorizedDVD) : worker Output :=
  let files := ad_Navigation authorized :: ad_Sources authorized in
  '(root, components) ← sourcePaths files (tf_Paths request);
  let spec := dvd_specification (transform_ID request) authorized root (disc_sources files components) in
  _ ← NewRunner (wt_FFmpeg wt) "DVD remux requires an absolute ffmpeg path and positive timeout"
        "DVD remux requires an absolute ffmpeg path and positive timeout";
  result ← dvdstage.StageOrRecover (wt_Files wt) spec;
  published ← PublishCompletedAt (wt_Files wt) root (dr_ArtifactID result) OutputContainerMKV
    (dr_Fingerprint result) (dvd_directory (so_PathComponents (dvdstage.ds_Navigation spec)));
  output root published (dr_Fingerprint result) (dr_Evidence result).

(** [Transform]. *)
Definition perform (request : Transform) : worker Output :=
  _ ← fail_when (bool_decide (tf_JobID request <= 0) || bool_decide (tf_Attempt request <= 0))
        (OtherError "job and attempt must be positive");
  match tf_Join request, tf_Bluray request, tf_DVD request with
  | Some authorized, None, None => join request authorized
  | None, Some authorized, None => bluray request authorized
  | None, None, Some authorized => dvd request authorized
  | _, _, _ => throw (OtherError "select exactly one media operation")
  end.
End transformer.
End operation.
