(* ===== verification/FileSystem.v ===== *)
(** * A file system for the worker

    What the system calls and the media tools of [worker/] do to names and
    files. Every call may fail with any error and then changes nothing; other
    processes keep out of the directories of the worker while it runs. The
    metadata of files is not tracked, but for their size. Rules for programs
    that keep an invariant at every moment, so also if they are stopped. *)
From ITree Require Import ITree.
From stdpp Require Import base strings list gmap.
From S2P Require Import Prelude GoStrings FileIdentity Probe Media WorkerContracts Decisions.
From S2P Require Import Programs WorkerFiles WorkerJoinStage.
Import mediafile.

(** Names of files, and what the files hold. *)
Record world := mkWorld { w_names : gmap (directory * string) file; w_files : gmap file string }.

Definition with_names (f : gmap (directory * string) file -> gmap (directory * string) file) (s : world) : world :=
  mkWorld (f (w_names s)) (w_files s).
Definition write_file (f : file) (content : string) (s : world) : world :=
  mkWorld (w_names s) (<[f:=content]> (w_files s)).

(** The directory [.media-repair] below a root is also the workspace. *)
Definition plain (d : directory) : bool :=
  match d with MediaDirectory _ components => negb (in_workspace components) | _ => true end.

Definition unnamed (f : file) (s : world) : Prop := forall k, w_names s !! k <> Some f.

Section answers.
(** What [ffprobe] may say of a content. *)
Context (describes : string -> ProbeEvidence -> Prop).

(** A media tool may leave anything in its output. The scratch directory of a
    join, [.normalize-*] beside the output, which [worker/mediajoin/normalize_linux.go]
    creates with copies of the parts and removes afterwards, is not part of the
    world: no operation uses names of this form, nor looks into the directory, and
    a join that is stopped may leave one behind. *)
Definition written (f : file) (s s' : world) : Prop := exists content, s' = write_file f content s.

Definition answers (X : Type) (e : workerE X) (s : world) : X -> world -> Prop :=
  match e in workerE X return X -> world -> Prop with
  | OpenFile d name => fun x s' =>
      s' = s /\ (plain d = true ->
        match x with
        | inl f => w_names s !! (d, name) = Some f
        | inr ENOENT => w_names s !! (d, name) = None
        | inr _ => True
        end)
  | CreateFile d name => fun x s' =>
      match x with
      | inl f => w_names s !! (d, name) = None /\ w_files s !! f = None /\ unnamed f s /\
          s' = write_file f "" (with_names <[(d, name) := f]> s)
      | inr _ => s' = s
      end
  | Fstat f => fun x s' =>
      s' = s /\ forall stat content, x = inl stat -> w_files s !! f = Some content ->
        sd_Size stat = Z.of_nat (String.length content)
  | Linkat d name d' name' => fun x s' =>
      match x with
      | None => exists f, w_names s !! (d, name) = Some f /\ w_names s !! (d', name') = None /\
          s' = with_names <[(d', name') := f]> s
      | Some _ => s' = s
      end
  | Unlinkat d name => fun x s' =>
      match x with
      | None => s' = with_names (delete (d, name)) s
      | Some _ => s' = s
      end
  | JoinParts _ output _ => fun _ s' => written output s s'
  | RemuxPlaylist _ output => fun _ s' => written output s s'
  | RemuxTitle _ _ output => fun _ s' => written output s s'
  | ProbeFile f => fun x s' =>
      s' = s /\ forall evidence, x = inl evidence ->
        exists content, w_files s !! f = Some content /\ describes content evidence
  | _ => fun _ s' => s' = s
  end.

(** A program that runs within an invariant, and how it ends. *)
Definition runs (I : world -> Prop) {A} (p : worker A) (Q : A + worker_error -> world -> Prop) (s : world) : Prop :=
  safe (fun X (_ : workerE X) s => I s) answers p Q s.

Implicit Types (I : world -> Prop) (s : world).

Lemma runs_mono I {A} (p : worker A) (P Q : A + worker_error -> world -> Prop) s :
  runs I p P s -> (forall r s, P r s -> Q r s) -> runs I p Q s.
Proof. intros H HPQ. by eapply safe_conseq. Qed.

Lemma runs_ret I {A} (a : A) (Q : A + worker_error -> world -> Prop) s : Q (inl a) s -> runs I (mret a) Q s.
Proof. apply safe_ret. Qed.

Lemma runs_throw I {A} e (Q : A + worker_error -> world -> Prop) s : Q (inr e) s -> runs I (throw e) Q s.
Proof. apply safe_ret. Qed.

Lemma runs_bind I {A B} (p : worker A) (f : A -> worker B) Q s :
  runs I p (fun r s' => match r with inl a => runs I (f a) Q s' | inr e => Q (inr e) s' end) s ->
  runs I (p ≫= f) Q s.
Proof.
  intros H. apply safe_bind. eapply safe_conseq; [|exact H].
  intros [a|e] s'; [done|]. apply safe_ret.
Qed.

Lemma runs_call I {A} (e : workerE A) (Q : A + worker_error -> world -> Prop) s :
  I s -> (forall x s', answers _ e s x s' -> Q (inl x) s') -> runs I (call e) Q s.
Proof. intros HI H. apply safe_bind, safe_trigger; [done|]. intros x s' Hx. apply safe_ret, H, Hx. Qed.

Lemma runs_attempt I {A} (p : worker A) (Q : (A + worker_error) + worker_error -> world -> Prop) s :
  runs I p (fun r s' => Q (inl r) s') s -> runs I (attempt p) Q s.
Proof. intros H. apply safe_bind. eapply safe_conseq; [|exact H]. intros r s' Hr. by apply safe_ret. Qed.

(** ** Programs that change nothing *)

Definition quiet {A} (p : worker A) : Prop :=
  forall I s, I s -> runs I p (fun _ s' => s' = s) s.

Lemma quiet_ret {A} (a : A) : quiet (mret a).
Proof. intros I s HI. by apply runs_ret. Qed.
Lemma quiet_throw {A} e : quiet (throw (A := A) e).
Proof. intros I s HI. by apply runs_throw. Qed.

Lemma quiet_bind {A B} (p : worker A) (f : A -> worker B) :
  quiet p -> (forall a, quiet (f a)) -> quiet (p ≫= f).
Proof.
  intros Hp Hf I s HI. apply runs_bind. eapply runs_mono; [by apply Hp|].
  intros [a|e] s' ->; [by apply Hf|done].
Qed.

Lemma quiet_call {A} (e : workerE A) : (forall s x s', answers _ e s x s' -> s' = s) -> quiet (call e).
Proof. intros He I s HI. apply runs_call; [done|]. intros x s'. apply He. Qed.

Lemma quiet_attempt {A} (p : worker A) : quiet p -> quiet (attempt p).
Proof. intros Hp I s HI. apply runs_attempt. by apply Hp. Qed.

Lemma quiet_if {A} (b : bool) (p q : worker A) : quiet p -> quiet q -> quiet (if b then p else q).
Proof. by destruct b. Qed.
End answers.

Create HintDb quiet.
#[export] Hint Resolve quiet_ret quiet_throw : quiet.

(** Decides that a program changes nothing by following its text. *)
Ltac quiet_step :=
  lazymatch goal with
  | |- quiet _ (mret _) => apply quiet_ret
  | |- quiet _ (throw _) => apply quiet_throw
  | |- quiet _ (mbind _ _) => apply quiet_bind; [|intros ?]
  | |- quiet _ (call _) => first [assumption | apply quiet_call; intros ? ? ?; cbn [answers]; (done || by intros [])]
  | |- quiet _ (attempt _) => apply quiet_attempt
  | |- quiet _ (match ?x with _ => _ end) => destruct x
  | |- quiet _ ((match ?x with _ => _ end) _) => destruct x; cbv beta
  | |- _ => first [progress cbv zeta | solve [eauto with quiet]]
  end.
Ltac quiet := repeat quiet_step.

Section quiet_programs.
Context (describes : string -> ProbeEvidence -> Prop) (roots : RootSet).
Abbreviation quiet := (quiet describes).

Lemma quiet_fail_when b e : quiet (fail_when b e).
Proof. unfold fail_when. quiet. Qed.

Lemma quiet_check {A} (e : workerE (option A)) failure : quiet (call e) -> quiet (check e failure).
Proof. intros He. unfold check. quiet. Qed.

Lemma quiet_require_root r : quiet (require_root roots r).
Proof. unfold require_root. quiet. Qed.
End quiet_programs.
#[export] Hint Resolve quiet_fail_when quiet_require_root : quiet.
#[export] Hint Extern 1 (quiet _ (check _ _)) => apply quiet_check; quiet_step : quiet.

Section quiet_files.
Context (describes : string -> ProbeEvidence -> Prop) (roots : RootSet).
Abbreviation quiet := (quiet describes).

Lemma quiet_snapshot f : quiet (snapshot f).
Proof. unfold snapshot. quiet. Qed.
Lemma quiet_syncDirectory d : quiet (syncDirectory d).
Proof. unfold syncDirectory. quiet. Qed.
Lemma quiet_stagedExtension c : quiet (stagedExtension c).
Proof. unfold stagedExtension. quiet. Qed.
Lemma quiet_make_directory d m : quiet (make_directory d m).
Proof. unfold make_directory. quiet. Qed.
Lemma quiet_openWorkspaceDirectoryChecked r i : quiet (openWorkspaceDirectoryChecked r i).
Proof. unfold openWorkspaceDirectoryChecked. quiet. Qed.
Lemma quiet_validatePrivateDirectory d : quiet (validatePrivateDirectory d).
Proof. unfold validatePrivateDirectory. quiet. Qed.
Lemma quiet_openMediaDirectory r c : quiet (openMediaDirectory r c).
Proof. unfold openMediaDirectory. quiet. Qed.
Lemma quiet_openPublishedArtifact d n : quiet (openPublishedArtifact d n).
Proof. unfold openPublishedArtifact. quiet. Qed.
Lemma quiet_makePublishedArtifactReadable d f : quiet (makePublishedArtifactReadable d f).
Proof. unfold makePublishedArtifactReadable. quiet. Qed.
Lemma quiet_requireAvailableSpace r n : quiet (requireAvailableSpace r n).
Proof. unfold requireAvailableSpace. quiet. Qed.
Lemma quiet_AbsolutePath r c : quiet (AbsolutePath roots r c).
Proof. unfold AbsolutePath. quiet. Qed.
Lemma quiet_openArtifact r n : quiet (openArtifact r n).
Proof. unfold openArtifact. quiet. Qed.
Lemma quiet_commonInputDirectory paths : quiet (commonInputDirectory paths).
Proof. unfold commonInputDirectory. quiet. Qed.
End quiet_files.
#[export] Hint Resolve quiet_snapshot quiet_syncDirectory quiet_stagedExtension quiet_make_directory
  quiet_openWorkspaceDirectoryChecked quiet_validatePrivateDirectory quiet_openMediaDirectory
  quiet_openPublishedArtifact quiet_makePublishedArtifactReadable quiet_requireAvailableSpace
  quiet_AbsolutePath quiet_openArtifact quiet_commonInputDirectory : quiet.

Section quiet_stages.
Context (describes : string -> ProbeEvidence -> Prop) (roots : RootSet).
Abbreviation quiet := (quiet describes).

Lemma quiet_Verify f e : quiet (Verify f e).
Proof. unfold Verify. quiet. Qed.
Lemma quiet_verifyArtifactFingerprint f e : quiet (verifyArtifactFingerprint f e).
Proof. unfold verifyArtifactFingerprint. quiet. Qed.
Lemma quiet_Snapshot f : quiet (Snapshot_ f).
Proof. unfold Snapshot_. quiet. Qed.
Lemma quiet_ensureWorkspaceDirectory r : quiet (ensureWorkspaceDirectory r).
Proof. unfold ensureWorkspaceDirectory. quiet. Qed.
Lemma quiet_openPrivateDirectory r : quiet (openPrivateDirectory r).
Proof. unfold openPrivateDirectory. quiet. Qed.
Lemma quiet_error_of p : quiet p -> quiet (error_of p).
Proof. intros Hp. unfold error_of. quiet. Qed.
End quiet_stages.
#[export] Hint Resolve quiet_Verify quiet_verifyArtifactFingerprint quiet_Snapshot
  quiet_ensureWorkspaceDirectory quiet_openPrivateDirectory : quiet.
#[export] Hint Extern 1 (quiet _ (error_of _)) => apply quiet_error_of; quiet_step : quiet.

Section quiet_opened.
Context (describes : string -> ProbeEvidence -> Prop) (roots : RootSet).
Abbreviation quiet := (quiet describes).

Lemma quiet_Open r c e : quiet (Open roots r c e).
Proof. unfold Open. quiet. Qed.
Lemma quiet_ensurePrivateDirectory r : quiet (ensurePrivateDirectory r).
Proof. unfold ensurePrivateDirectory. quiet. Qed.
Lemma quiet_openStagedDirectory r : quiet (openStagedDirectory r).
Proof. unfold openStagedDirectory, openWorkspaceDirectory. quiet. Qed.
End quiet_opened.
#[export] Hint Resolve quiet_Open quiet_ensurePrivateDirectory quiet_openStagedDirectory : quiet.
