(* ===== verification/WorkerSafety.v ===== *)
(** * The worker keeps the media safe

    What the programs of [worker/] do to the names and files of a root: what
    they do in the private staging directory, how a file moves, and which
    content a published file has. *)
From ITree Require Import ITree.
From stdpp Require Import base strings list gmap.
From S2P Require Import Prelude GoStrings GoCrypto FileIdentity Probe Media WorkerContracts Decisions.
From S2P Require Import DiscCandidates JoinPolicy DiscPolicy JoinVerification RemuxVerification.
From S2P Require Import RadarrAdapter Programs WorkerFiles WorkerJoinStage WorkerDisc.
From S2P Require Import WorkerBlurayStage WorkerDVDStage WorkerTransform FileSystem.
Import mediafile repairradarr.

(** ** Moving a file *)

Definition linked (k' : directory * string) (f : file) (s : world) : world := with_names <[k' := f]> s.
Definition moved (k k' : directory * string) (f : file) (s : world) : world :=
  with_names (delete k) (linked k' f s).

Section moving.
Context (describes : string -> ProbeEvidence -> Prop).
Implicit Types (I : world -> Prop) (s : world).

Lemma runs_error_of I p (Q : option worker_error + worker_error -> world -> Prop) s :
  quiet describes p -> I s -> (forall e, Q (inl e) s) -> runs describes I (error_of p) Q s.
Proof.
  intros Hp HI HQ. apply runs_bind, runs_attempt. eapply runs_mono; [by apply Hp|].
  intros r s' ->. by apply runs_ret.
Qed.

(** What a rollback of the link leaves: the link, or what was there before. *)
Lemma rollback_runs I k' f s :
  w_names s !! k' = None -> I s -> I (linked k' f s) ->
  runs describes I (rollback k'.1 k'.2)
    (fun r s' => exists e, r = inl e /\ (s' = s \/ s' = linked k' f s)) (linked k' f s).
Proof.
  intros Hk Hs Hl. destruct k' as [d' n']. apply runs_bind. unfold unlink_error. apply runs_bind, runs_call; [done|].
  intros x s' Hx. apply runs_ret.
  assert (s' = s \/ s' = linked (d', n') f s) as Hor.
  { cbn in Hx. destruct x; [by right|left]. subst s'. destruct s as [names files].
    unfold with_names, linked; cbn in *. by rewrite delete_insert_id. }
  assert (I s') by (by destruct Hor as [->| ->]).
  apply runs_bind. apply runs_error_of; [auto with quiet|done|].
  intros e. apply runs_ret. eauto.
Qed.

(** [moveNoReplace] either moves the file to a name that was free, or leaves
    it where it was; a failure may leave it under both names, or moved. *)
Lemma moveNoReplace_runs I k k' s :
  I s ->
  (forall f, w_names s !! k = Some f -> w_names s !! k' = None -> I (linked k' f s) /\ I (moved k k' f s)) ->
  runs describes I (moveNoReplace k.1 k.2 k'.1 k'.2)
    (fun r s' =>
      (exists f, w_names s !! k = Some f /\ w_names s !! k' = None /\
        (s' = moved k k' f s \/ (exists e, r = inr e) /\ s' = linked k' f s)) \/
      (exists e, r = inr e) /\ s' = s) s.
Proof.
  intros HI Hsteps. destruct k as [d n], k' as [d' n']. apply runs_bind. unfold check. apply runs_bind, runs_call; [done|].
  intros [e|] s' Hx; cbn in Hx.
  { subst s'. apply runs_throw. right. eauto. }
  destruct Hx as (f & Hf & Hnone & ->). destruct (Hsteps f Hf Hnone) as [Hl Hm].
  apply runs_ret, runs_bind. apply runs_error_of; [auto with quiet|done|].
  assert (forall e, runs describes I
    (undone ← rollback d' n'; throw (A := unit) (Joined (e :: match undone with Some u => [u] | None => [] end)))
    (fun r s' => (exists f, w_names s !! (d, n) = Some f /\ w_names s !! (d', n') = None /\
        (s' = moved (d, n) (d', n') f s \/ (exists e, r = inr e) /\ s' = linked (d', n') f s)) \/
      (exists e, r = inr e) /\ s' = s) (linked (d', n') f s)) as Hundo.
  { intros e. apply runs_bind. eapply runs_mono; [by apply (rollback_runs I (d', n') f s)|].
    intros r s' (u & -> & [-> | ->]); apply runs_throw; [right|left]; eauto 10. }
  intros [e|]; [apply Hundo|]. apply runs_bind, runs_call; [done|]. intros [e|] s' Hx; cbn in Hx; subst s'.
  { apply Hundo. }
  eapply runs_mono; [by apply quiet_syncDirectory|]. intros r s' ->. left. eauto 10.
Qed.
End moving.

(** ** The staging directory *)

(** Only names of staged artifacts change, and no file is written that was
    there before. *)
Definition private (s s' : world) : Prop :=
  (forall k, (forall r, k.1 <> StagedDirectory r) -> w_names s' !! k = w_names s !! k) /\
  (forall f content, w_files s !! f = Some content -> w_files s' !! f = Some content).

#[global] Instance private_preorder : PreOrder private.
Proof.
  split; [by intros s|]. intros s1 s2 s3 [Hn Hf] [Hn' Hf']. split; [|by auto].
  intros k Hk. rewrite Hn' by done. by apply Hn.
Qed.

Definition keeps_private (I : world -> Prop) : Prop := forall s s', I s -> private s s' -> I s'.

Lemma private_names g s r :
  (forall m k, k.1 <> StagedDirectory r -> g m !! k = m !! k) -> private s (with_names g s).
Proof. intros Hg. split; [|done]. intros k Hk. apply Hg, Hk. Qed.

Lemma private_delete r name s : private s (with_names (delete (StagedDirectory r, name)) s).
Proof. apply (private_names _ _ r). intros m k Hk. apply lookup_delete_ne. by intros <-. Qed.

Lemma private_linked r name f s : private s (linked (StagedDirectory r, name) f s).
Proof. apply (private_names _ _ r). intros m k Hk. apply lookup_insert_ne. by intros <-. Qed.

Lemma private_moved r name r' name' f s :
  private s (moved (StagedDirectory r, name) (StagedDirectory r', name') f s).
Proof. etransitivity; [apply private_linked|apply private_delete]. Qed.

Lemma private_create r name f s :
  w_files s !! f = None -> private s (write_file f "" (linked (StagedDirectory r, name) f s)).
Proof.
  intros Hf. destruct (private_linked r name f s) as [Hn _]. split; [exact Hn|].
  intros g content Hg. cbn. rewrite lookup_insert_ne; [done|]. by intros ->; rewrite Hf in Hg.
Qed.

Section staging.
Context (describes : string -> ProbeEvidence -> Prop) (roots : RootSet).
Implicit Types (I : world -> Prop) (s : world).
Abbreviation runs := (runs describes).

Definition tidy {A} (p : worker A) : Prop :=
  forall I s, keeps_private I -> I s -> runs I p (fun _ s' => private s s') s.

Lemma quiet_tidy {A} (p : worker A) : quiet describes p -> tidy p.
Proof. intros Hp I s _ HI. eapply runs_mono; [by apply Hp|]. by intros r s' ->. Qed.

Lemma tidy_bind {A B} (p : worker A) (f : A -> worker B) :
  tidy p -> (forall a, tidy (f a)) -> tidy (p ≫= f).
Proof.
  intros Hp Hf I s Hk HI. apply runs_bind. eapply runs_mono; [by apply Hp|].
  intros [a|e] s' Hs; [|done]. eapply runs_mono; [apply Hf; eauto|]. intros r s'' Hs'. by etransitivity.
Qed.

Lemma tidy_call {A} (e : workerE A) : (forall s x s', answers describes _ e s x s' -> private s s') -> tidy (call e).
Proof. intros He I s _ HI. apply runs_call; [done|]. intros x s'. apply He. Qed.

Lemma tidy_unlink r name : tidy (call (Unlinkat (StagedDirectory r) name)).
Proof. apply tidy_call. intros s [e|] s' Hx; cbn in Hx; subst s'; [done|]. apply private_delete. Qed.

(** A step of a program that changes nothing. *)
Lemma runs_quiet I {A B} (p : worker A) (f : A -> worker B) Q s :
  quiet describes p -> I s -> (forall a, runs I (f a) Q s) -> (forall e, Q (inr e) s) ->
  runs I (p ≫= f) Q s.
Proof. intros Hp HI Hf He. apply runs_bind. eapply runs_mono; [by apply Hp|]. by intros [a|e] s' ->. Qed.

Lemma openArtifact_runs I r name s :
  I s ->
  runs I (openArtifact r name)
    (fun x s' => s' = s /\ match x with
       | inl (Some f) => w_names s !! (StagedDirectory r, name) = Some f
       | inl None => w_names s !! (StagedDirectory r, name) = None
       | inr _ => True
       end) s.
Proof.
  intros HI. apply runs_bind, runs_call; [done|]. intros x s' [-> Hx]. specialize (Hx eq_refl).
  destruct x as [f|e]; [|destruct e; [by apply runs_ret|by apply runs_throw..]].
  apply runs_quiet; [quiet|done| |done]. intros [stat|e]; [|by apply runs_throw].
  apply runs_quiet; [auto with quiet|done| |done]. intros _. by apply runs_ret.
Qed.

(** The name of a completed artifact. *)
Definition completed_key (r artifactID extension : string) : directory * string :=
  (StagedDirectory r, stagedName artifactID extension).

Lemma quiet_InspectStaged r a c : quiet describes (InspectStaged roots r a c).
Proof. unfold InspectStaged. quiet. Qed.

Lemma tidy_removeStagedName r name fp : tidy (removeStagedName roots r name fp).
Proof.
  apply tidy_bind; [apply quiet_tidy; auto with quiet|intros _].
  apply tidy_bind; [apply quiet_tidy; auto with quiet|intros [|]; cbn [negb]; [|apply quiet_tidy; quiet]].
  apply tidy_bind; [apply quiet_tidy; auto with quiet|intros [artifact|]; [|apply quiet_tidy; quiet]].
  apply tidy_bind; [apply quiet_tidy; quiet|intros _].
  apply tidy_bind; [apply quiet_tidy; quiet|intros _].
  apply tidy_bind; [apply tidy_unlink|intros x; apply quiet_tidy; quiet].
Qed.

Lemma tidy_RemovePartial r a c : tidy (RemovePartial roots r a c).
Proof.
  apply tidy_bind; [apply quiet_tidy, quiet_InspectStaged|intros [| |f]; try solve [apply quiet_tidy; quiet]].
  apply tidy_bind; [apply quiet_tidy; auto with quiet|intros extension]. apply tidy_removeStagedName.
Qed.

Lemma tidy_RemoveCompleted r a c fp : tidy (RemoveCompleted roots r a c fp).
Proof.
  apply tidy_bind; [apply quiet_tidy; auto with quiet|intros _].
  apply tidy_bind; [apply quiet_tidy, quiet_InspectStaged|intros [| |f]; try solve [apply quiet_tidy; quiet]].
  apply tidy_bind; [apply quiet_tidy; auto with quiet|intros extension]. apply tidy_removeStagedName.
Qed.

Lemma tidy_unlink_error r name : tidy (unlink_error (StagedDirectory r) name).
Proof. apply tidy_bind; [apply tidy_unlink|]. intros x. apply quiet_tidy. quiet. Qed.

Lemma tidy_Discard artifact : tidy (Discard artifact).
Proof.
  apply tidy_bind; [apply quiet_tidy; quiet|intros closed].
  apply tidy_bind; [apply tidy_unlink_error|intros x]. apply quiet_tidy. quiet.
Qed.

(** The extension that a container has in every program of the worker. *)
Definition extension_of (container : OutputContainer) (extension : string) : Prop :=
  forall I s, I s -> runs I (stagedExtension container)
    (fun r s' => s' = s /\ forall e, r = inl e -> e = extension) s.

Lemma extension_of_some container : exists extension, extension_of container extension.
Proof.
  unfold extension_of, stagedExtension.
  destruct (bool_decide (container = OutputContainerAVI)); [exists ".avi"|].
  2: destruct (bool_decide (container = OutputContainerMKV)); [exists ".mkv"|].
  3: destruct (bool_decide (container = OutputContainerMP4)); [exists ".mp4"|exists ""].
  1-3: intros I s HI; apply runs_ret; split; [done|congruence].
  intros I s HI. by apply runs_throw.
Qed.

Lemma InspectStaged_runs I r a c extension s :
  extension_of c extension -> I s ->
  runs I (InspectStaged roots r a c)
    (fun x s' => s' = s /\ forall f, x = inl (StagedComplete f) ->
       w_names s !! completed_key r a extension = Some f) s.
Proof.
  intros Hext HI. do 2 (apply runs_quiet; [auto with quiet|done|intros _|done]).
  apply runs_bind. eapply runs_mono; [by apply Hext|]. intros [e|e] s' [-> He]; [|done]. rewrite (He e eq_refl).
  apply runs_quiet; [auto with quiet|done| |done]. intros [|]; cbn [negb]; [|by apply runs_ret].
  apply runs_bind. eapply runs_mono; [by apply openArtifact_runs|]. intros [completed|] s' [-> Hc]; [|done].
  apply runs_quiet; [auto with quiet|done| |done]. intros partial.
  destruct completed as [f|], partial as [g|]; cbn -[stagedName].
  - by apply runs_throw.
  - apply runs_ret. split; [done|]. intros ? [= ->]. exact Hc.
  - by apply runs_ret.
  - by apply runs_ret.
Qed.

Lemma PrepareStage_runs I r a c extension s :
  extension_of c extension -> keeps_private I -> I s ->
  runs I (PrepareStage roots r a c)
    (fun x s' => private s s' /\ forall f, x = inl (Some f) ->
       w_names s' !! completed_key r a extension = Some f) s.
Proof.
  intros Hext Hk HI. apply runs_bind. eapply runs_mono; [by apply InspectStaged_runs|].
  intros [[| |f]|e] s' [-> Hx].
  - by apply runs_ret.
  - apply runs_bind. eapply runs_mono; [by apply tidy_RemovePartial|]. intros [b|e] s' Hs; [|done].
    apply runs_quiet; [auto with quiet|by eapply Hk| |done]. intros _. by apply runs_ret.
  - apply runs_ret. split; [done|]. intros ? [= ->]. by apply Hx.
  - done.
Qed.
End staging.

(** ** Creating and retaining an artifact *)

Lemma partial_ne name : partialStagedName name <> name.
Proof.
  intros H. apply (f_equal String.length) in H. unfold partialStagedName in H.
  rewrite string_length_app in H. cbn in H. lia.
Qed.

Section artifact.
Context (describes : string -> ProbeEvidence -> Prop) (roots : RootSet).
Implicit Types (I : world -> Prop) (s : world).
Abbreviation runs := (runs describes).
Abbreviation tidy := (tidy describes).

Definition partial_key (artifact : stagedArtifact) : directory * string :=
  (StagedDirectory (sa_root artifact), sa_name artifact).
Definition retained_key (artifact : stagedArtifact) : directory * string :=
  (StagedDirectory (sa_root artifact), sa_completedName artifact).

(** The state right after the artifact was created. *)
Definition created (r a extension : string) (artifact : stagedArtifact) (s s' : world) : Prop :=
  let f := sa_file artifact in
  retained_key artifact = completed_key r a extension /\
  sa_name artifact = partialStagedName (sa_completedName artifact) /\
  w_files s !! f = None /\ unnamed f s /\ s' = write_file f "" (linked (partial_key artifact) f s).

Lemma CreateStaged_runs I r a c n extension s :
  extension_of describes c extension -> keeps_private I -> I s ->
  runs I (CreateStaged roots r a c n)
    (fun x s' => private s s' /\ forall artifact, x = inl artifact -> created r a extension artifact s s') s.
Proof.
  intros Hext Hk HI. do 2 (apply runs_quiet; [auto with quiet|done|intros _|done]).
  apply runs_bind. eapply runs_mono; [by apply Hext|]. intros [e|e] s' [-> He]; [|done]. rewrite (He e eq_refl).
  do 3 (apply runs_quiet; [auto with quiet|done|intros _|done]). cbv zeta.
  apply runs_quiet; [auto with quiet|done| |done]. intros existing.
  apply runs_quiet; [auto with quiet|done| |done]. intros _.
  apply runs_bind, runs_call; [done|]. intros [f|failed] s' Hx; cbn -[stagedName] in Hx.
  2: { subst s'. destruct failed; by apply runs_throw. }
  destruct Hx as (Hnone & Hfresh & Hun & ->). pose proof (private_create r (partialStagedName (stagedName a extension)) f s Hfresh) as Hp.
  set (s1 := write_file f "" _) in *. assert (I s1) by by eapply Hk.
  apply runs_quiet; [quiet|done| |done]. intros [failed|].
  - apply runs_bind. eapply runs_mono; [by apply tidy_unlink|]. intros [x|e'] s' Hs'; [apply runs_throw|];
      (split; [by etransitivity|done]).
  - apply runs_ret. split; [done|]. intros artifact [= <-]. done.
Qed.

Lemma Retain_runs I artifact s :
  keeps_private I -> I s -> sa_name artifact = partialStagedName (sa_completedName artifact) ->
  w_names s !! partial_key artifact = Some (sa_file artifact) ->
  runs I (Retain artifact)
    (fun x s' => private s s' /\ w_files s' = w_files s /\
       (x = inl tt -> w_names s' !! retained_key artifact = Some (sa_file artifact))) s.
Proof.
  intros Hk HI Hname Hf. apply runs_quiet; [auto with quiet|done|intros _|done].
  apply runs_bind, runs_attempt. eapply runs_mono.
  { apply (moveNoReplace_runs describes I (partial_key artifact) (retained_key artifact)); [done|].
    intros f _ _. split; (eapply Hk; [done|]); [apply private_linked|apply private_moved]. }
  intros r s' [(f & Hf' & _ & Hs')|[[e ->] ->]]; [|by apply runs_throw].
  rewrite Hf in Hf'. injection Hf' as <-.
  destruct Hs' as [-> |[[e ->] ->]]; [|by apply runs_throw; split; [apply private_linked|]].
  destruct r as [[]|e]; [apply runs_ret|apply runs_throw]; (split; [apply private_moved|split; [done|]]); [|done].
  intros _. cbn. rewrite lookup_delete_ne; [apply lookup_insert_eq|].
  unfold partial_key, retained_key. intros [= Heq]. rewrite Hname in Heq. by apply (partial_ne (sa_completedName artifact)).
Qed.
End artifact.
