(* ===== verification/WorkerPublish.v ===== *)
(** * What the worker publishes

    The invariant of the media under a run of the worker, the artifacts its
    stages leave behind, and publishing one of them. *)
From ITree Require Import ITree.
From stdpp Require Import base strings list gmap.
From S2P Require Import Prelude GoStrings GoCrypto FileIdentity Probe Media WorkerContracts Decisions.
From S2P Require Import DiscCandidates JoinPolicy DiscPolicy JoinVerification RemuxVerification.
From S2P Require Import RadarrAdapter Programs WorkerFiles WorkerJoinStage WorkerDisc.
From S2P Require Import WorkerBlurayStage WorkerDVDStage WorkerTransform FileSystem WorkerSafety.
Import mediafile repairradarr.

(** A directory of media outside the workspace. *)
Definition public (d : directory) : Prop :=
  match d with MediaDirectory _ components => in_workspace components = false | _ => False end.

(** What may be known of the media and files while the worker runs, from the
    state it started in: no file that was there is written, no entry of the
    media is removed or replaced, and a new entry has accepted content. *)
Record intact (accepted : string -> Prop) (s0 s : world) : Prop := mkIntact
  { intact_files f content : w_files s0 !! f = Some content -> w_files s !! f = Some content;
    intact_media k f : public k.1 -> w_names s0 !! k = Some f -> w_names s !! k = Some f;
    intact_new k f : public k.1 -> w_names s !! k = Some f ->
      w_names s0 !! k = Some f \/ exists content, w_files s !! f = Some content /\ accepted content }.

Section invariant.
Context (accepted : string -> Prop) (s0 : world).
Implicit Types (s : world).
Abbreviation intact := (intact accepted s0).

Lemma public_not_staged (k : directory * string) r : public k.1 -> k.1 <> StagedDirectory r.
Proof. by destruct k as [[] name]. Qed.

Lemma intact_refl : intact s0.
Proof. split; eauto. Qed.

Lemma intact_private : keeps_private intact.
Proof.
  intros s s' [Hf Hm Hn] [Hnames Hfiles]. split.
  - auto.
  - intros k f Hk H0. rewrite Hnames by (intros r; by apply public_not_staged). auto.
  - intros k f Hk H. rewrite Hnames in H by (intros r; by apply public_not_staged).
    destruct (Hn k f Hk H) as [?|(content & ? & ?)]; eauto 6.
Qed.

(** Writing a file that was created in the staging directory. *)
Lemma intact_write f r name content content' s :
  intact s -> w_files s !! f = None -> unnamed f s ->
  intact (write_file f content (write_file f content' (linked (StagedDirectory r, name) f s))).
Proof.
  intros [Hf Hm Hn] Hfresh Hun.
  assert (forall k, public k.1 -> w_names (linked (StagedDirectory r, name) f s) !! k = w_names s !! k) as Hnames.
  { intros k Hk. cbn. apply lookup_insert_ne. intros <-. by apply (public_not_staged _ r) in Hk. }
  split; cbn [write_file w_names w_files].
  - intros g c H0. pose proof (Hf g c H0) as Hg. assert (g <> f) by (intros ->; congruence).
    by rewrite !lookup_insert_ne.
  - intros k g Hk H0. rewrite Hnames by done. auto.
  - intros k g Hk H. rewrite Hnames in H by done. assert (g <> f) by (intros ->; by apply (Hun k)).
    destruct (Hn k g Hk H) as [?|(c & ? & ?)]; [by left|right]. exists c. by rewrite !lookup_insert_ne.
Qed.

(** Publishing a file with accepted content. *)
Lemma intact_linked k f content s :
  intact s -> w_names s !! k = None -> w_files s !! f = Some content -> accepted content -> intact (linked k f s).
Proof.
  intros [Hf Hm Hn] Hnone Hc Hacc. split.
  - done.
  - intros k' g Hk H0. cbn. destruct (decide (k' = k)) as [->|]; [|rewrite lookup_insert_ne by done; auto].
    rewrite (Hm k g Hk H0) in Hnone. done.
  - intros k' g Hk H. cbn in H. destruct (decide (k' = k)) as [->|].
    + rewrite lookup_insert_eq in H. injection H as <-. eauto.
    + rewrite lookup_insert_ne in H by done. auto.
Qed.

Lemma intact_unstage r name s : intact s -> intact (with_names (delete (StagedDirectory r, name)) s).
Proof. intros H. eapply intact_private; [exact H|apply private_delete]. Qed.
End invariant.

(** A name of a file whose content was probed. *)
Definition holds (describes : string -> ProbeEvidence -> Prop) (k : directory * string) (evidence : ProbeEvidence)
    (size : Z) (s : world) : Prop :=
  exists f content, w_names s !! k = Some f /\ w_files s !! f = Some content /\ describes content evidence /\
    size = Z.of_nat (String.length content).

Section stage.
Context (describes : string -> ProbeEvidence -> Prop) (roots : RootSet) (accepted : string -> Prop) (s0 : world).
Implicit Types (s : world).
Abbreviation intact := (intact accepted s0).
Abbreviation runs := (runs describes intact).

Lemma Snapshot_runs f s :
  intact s ->
  runs (Snapshot_ f) (fun x s' => s' = s /\ forall fp size content, x = inl (fp, size) ->
    w_files s !! f = Some content -> size = Z.of_nat (String.length content)) s.
Proof.
  intros HI. apply runs_bind, runs_bind, runs_call; [done|]. intros x s' [-> Hx].
  destruct x as [stat|e]; [|by apply runs_throw].
  apply runs_quiet; [auto with quiet|done| |done]. intros _. apply runs_ret, runs_ret. split; [done|].
  intros fp size content [= _ <-] Hc. by apply (Hx stat).
Qed.

Lemma runs_classified {A} (p : worker A) Q s :
  runs p (fun r s' => match r with inl a => Q (inl a) s' | inr e => Q (inr (joinstage.failureFor e)) s' end) s ->
  runs (joinstage.classified p) Q s.
Proof.
  intros H. apply runs_bind, runs_attempt. eapply runs_mono; [exact H|].
  intros [a|e] s' Hq; [by apply runs_ret|by apply runs_throw].
Qed.

Lemma quiet_classified {A} (p : worker A) : quiet describes p -> quiet describes (joinstage.classified p).
Proof. intros Hp. unfold joinstage.classified. quiet. Qed.

Lemma quiet_verify_parts files parts : quiet describes (joinstage.verify_parts files parts).
Proof.
  revert parts. induction files as [|f files IH]; intros [|part parts]; cbn; [quiet..|].
  apply quiet_bind; [apply quiet_classified; auto with quiet|intros _; apply IH].
Qed.

Lemma quiet_verifyParts files parts : quiet describes (joinstage.verifyParts files parts).
Proof. unfold joinstage.verifyParts. destruct (negb _); [quiet|apply quiet_verify_parts]. Qed.

Lemma quiet_open_parts r parts total : quiet describes (joinstage.open_parts roots r parts total).
Proof.
  revert total. induction parts as [|part parts IH]; intros total; cbn; [quiet|].
  apply quiet_bind; [apply quiet_classified; auto with quiet|intros media]. quiet.
Qed.

Lemma quiet_validateExecution execution : quiet describes (joinstage.validateExecution execution).
Proof.
  apply quiet_bind; [apply quiet_classified; auto with quiet|intros _]. quiet.
Qed.

(** An artifact with a probed content, right after a tool wrote it. *)
Definition drafted (artifact : stagedArtifact) (s : world) : Prop :=
  sa_name artifact = partialStagedName (sa_completedName artifact) /\
  w_names s !! partial_key artifact = Some (sa_file artifact).

Lemma created_drafted r a extension artifact content s s' :
  created r a extension artifact s s' -> drafted artifact (write_file (sa_file artifact) content s').
Proof. intros (_ & Hname & _ & _ & ->). split; [done|]. cbn. apply lookup_insert_eq. Qed.

Lemma created_intact r a extension artifact content s s' :
  intact s -> created r a extension artifact s s' -> intact (write_file (sa_file artifact) content s').
Proof. intros HI (_ & _ & Hfresh & Hun & ->). by apply intact_write. Qed.

(** Retaining the drafted artifact under its completed name. *)
Lemma retain_drafted artifact content s :
  drafted artifact s -> intact s -> w_files s !! sa_file artifact = Some content ->
  runs (Retain artifact)
    (fun x s' => intact s' /\ (x = inl tt -> w_names s' !! retained_key artifact = Some (sa_file artifact) /\
       w_files s' !! sa_file artifact = Some content)) s.
Proof.
  intros [Hname Hf] HI Hc. eapply runs_mono; [apply Retain_runs; [apply intact_private|done..]|].
  intros x s' (Hp & Hfiles & Hx). split; [by eapply intact_private|]. intros ->. rewrite Hfiles. auto.
Qed.

(** A failure is followed by discarding the artifact. *)
Lemma runs_finally_discard {A} (body : worker A) artifact failure (P : A -> world -> Prop) s :
  runs body (fun x s' => intact s' /\ forall a, x = inl a -> P a s') s ->
  runs (finally body (joinstage.discard_failed artifact failure))
    (fun x s' => intact s' /\ forall a, x = inl a -> P a s') s.
Proof.
  intros Hb. apply runs_bind, runs_attempt. eapply runs_mono; [exact Hb|]. intros x s' [HI Hx].
  apply runs_bind. destruct x as [a|e]; cbn [joinstage.discard_failed].
  - apply runs_ret, runs_ret. split; [done|]. intros ? [= <-]. auto.
  - apply runs_bind. eapply runs_mono; [apply tidy_Discard; [apply intact_private|done]|].
    intros [d|e'] s'' Hs.
    + apply runs_ret. destruct d; apply runs_throw; (split; [by eapply intact_private|done]).
    + split; [by eapply intact_private|done].
Qed.

(** A step that changes nothing, before a program that keeps the invariant. *)
Lemma runs_then {A B} (p : worker A) (f : A -> worker B) (P : B -> world -> Prop) s :
  quiet describes p -> intact s ->
  (forall a, runs (f a) (fun x s' => intact s' /\ forall b, x = inl b -> P b s') s) ->
  runs (p ≫= f) (fun x s' => intact s' /\ forall b, x = inl b -> P b s') s.
Proof. intros Hp HI Hf. by apply runs_quiet. Qed.

Lemma stage_into_runs r a extension execution files artifact s s' :
  intact s -> created r a extension artifact s s' -> intact s' ->
  runs (joinstage.stage_into execution files artifact)
    (fun x s' => intact s' /\ forall result, x = inl result ->
       holds describes (completed_key r a extension) (joinstage.jr_Evidence result) (joinstage.jr_SizeBytes result) s') s'.
Proof.
  intros HI Hcr HI'. apply runs_bind, runs_call; [done|]. intros [joined joinErr] s1 [content ->].
  pose proof (created_drafted _ _ _ _ content _ _ Hcr) as Hd. pose proof (created_intact _ _ _ _ content _ _ HI Hcr) as HI1.
  destruct Hcr as (<- & _). set (s1 := write_file _ _ _) in *.
  assert (w_files s1 !! sa_file artifact = Some content) as Hc by apply lookup_insert_eq.
  clearbody s1. apply runs_then; [apply quiet_verifyParts|done|intros _].
  apply runs_then; [quiet|done|intros _]. apply runs_bind, runs_call; [done|]. intros probed s2 [-> Hprobe].
  destruct probed as [evidence|e]; [|by apply runs_throw].
  destruct (Hprobe evidence eq_refl) as (content' & Hc' & Hdesc). rewrite Hc in Hc'. injection Hc' as <-.
  apply runs_then; [apply quiet_classified; auto with quiet|done|intros _].
  apply runs_bind, runs_classified. eapply runs_mono; [by apply Snapshot_runs|].
  intros [[fp size]|e] s2 [-> Hsize]; [|done]. specialize (Hsize fp size content eq_refl Hc).
  apply runs_then; [auto with quiet|done|intros _]. apply runs_bind, runs_classified.
  eapply runs_mono; [by eapply retain_drafted|]. intros [[]|e] s2 [HI2 Hx]; [|done].
  apply runs_ret. split; [done|]. intros result [= <-]. destruct (Hx eq_refl) as [Hn Hf]. by exists (sa_file artifact), content.
Qed.

Lemma Stage_runs execution extension s :
  let specification := joinstage.je_Specification execution in
  extension_of describes (joinstage.js_OutputContainer specification) extension -> intact s ->
  runs (joinstage.Stage roots execution)
    (fun x s' => intact s' /\ forall result, x = inl result ->
       holds describes (completed_key (joinstage.js_RootID specification) (joinstage.je_ArtifactID execution) extension)
         (joinstage.jr_Evidence result) (joinstage.jr_SizeBytes result) s') s.
Proof.
  intros specification Hext HI. apply runs_then; [apply quiet_validateExecution|done|intros _].
  apply runs_then; [apply quiet_open_parts|done|intros [files bytes]].
  apply runs_then; [auto with quiet|done|intros _].
  apply runs_bind, runs_classified. eapply runs_mono; [apply CreateStaged_runs; [done|apply intact_private|done]|].
  intros [artifact|e] s' [Hp Hcr]; [|split; [by eapply intact_private|done]].
  apply runs_finally_discard. eapply stage_into_runs; [done|by apply Hcr|by eapply intact_private].
Qed.

(** ** Discs *)

Section disc_stage.
Context (verify : worker unit) (validate : ProbeEvidence -> result unit) (r a extension : string).
Hypothesis quiet_verify : quiet describes verify.
Hypothesis extension_mkv : extension_of describes OutputContainerMKV extension.

(** A result that was validated, and the staged artifact it is about. *)
Definition disc_staged (result : DiscResult) (s : world) : Prop :=
  dr_ArtifactID result = a /\ validate (dr_Evidence result) = Ok tt /\
  holds describes (completed_key r a extension) (dr_Evidence result) (dr_SizeBytes result) s.

(** The events that write the output of a tool. *)
Definition writes (tool : file -> workerE (Z * option worker_error)) : Prop :=
  forall f s x s', answers describes _ (tool f) s x s' -> written f s s'.

Lemma remux_into_runs tool sizeChanged artifact s s' :
  writes tool -> intact s -> created r a extension artifact s s' -> intact s' ->
  runs (remux_into tool verify validate sizeChanged a artifact)
    (fun x s' => intact s' /\ forall result, x = inl result -> disc_staged result s') s'.
Proof.
  intros Hw HI Hcr HI'. apply runs_bind, runs_call; [done|]. intros [written err] s1 Hs1.
  apply Hw in Hs1 as [content ->].
  pose proof (created_drafted _ _ _ _ content _ _ Hcr) as Hd. pose proof (created_intact _ _ _ _ content _ _ HI Hcr) as HI1.
  destruct Hcr as (Hkey & _). set (s1 := write_file _ _ _) in *.
  assert (w_files s1 !! sa_file artifact = Some content) as Hc by apply lookup_insert_eq.
  clearbody s1. apply runs_then; [exact quiet_verify|done|intros _].
  apply runs_then; [quiet|done|intros _]. apply runs_bind, runs_call; [done|]. intros probed s2 [-> Hprobe].
  destruct probed as [evidence|e]; [|by apply runs_throw].
  destruct (Hprobe evidence eq_refl) as (content' & Hc' & Hdesc). rewrite Hc in Hc'. injection Hc' as <-.
  destruct (validate evidence) as [[]|e] eqn:Hv; [|by apply runs_throw].
  apply runs_bind. eapply runs_mono; [by apply Snapshot_runs|].
  intros [[fp size]|e] s2 [-> Hsize]; [|done]. specialize (Hsize fp size content eq_refl Hc).
  apply runs_then; [auto with quiet|done|intros _]. apply runs_bind.
  eapply runs_mono; [by eapply retain_drafted|]. intros [[]|e] s2 [HI2 Hx]; [|done].
  apply runs_ret. split; [done|]. intros result [= <-]. destruct (Hx eq_refl) as [Hn Hf].
  split; [done|split; [done|]]. exists (sa_file artifact), content. by rewrite <- Hkey.
Qed.

Lemma remux_stage_runs sourceBytes tool sizeChanged s :
  writes tool -> intact s ->
  runs (remux_stage roots r sourceBytes tool verify validate sizeChanged a)
    (fun x s' => intact s' /\ forall result, x = inl result -> disc_staged result s') s.
Proof.
  intros Hw HI. apply runs_bind.
  eapply runs_mono; [apply CreateStaged_runs; [done|apply intact_private|done]|].
  intros [artifact|e] s' [Hp Hcr]; [|split; [by eapply intact_private|done]].
  apply runs_finally_discard. eapply remux_into_runs; [done..|by apply Hcr|by eapply intact_private].
Qed.

Lemma remux_recover_runs changed artifact s :
  intact s -> w_names s !! completed_key r a extension = Some artifact ->
  runs (remux_recover roots r verify validate changed a artifact)
    (fun x s' => intact s' /\ forall result, x = inl result -> disc_staged result s') s.
Proof.
  intros HI Hk. apply runs_then; [auto with quiet|done|intros [before sizeBefore]].
  apply runs_bind, runs_call; [done|]. intros probed s2 [-> Hprobe].
  destruct probed as [evidence|e]; [|by apply runs_throw].
  destruct (Hprobe evidence eq_refl) as (content & Hc & Hdesc).
  destruct (validate evidence) as [[]|e] eqn:Hv.
  - apply runs_bind. eapply runs_mono; [by apply Snapshot_runs|].
    intros [[fp size]|e] s2 [-> Hsize]; [|done]. specialize (Hsize fp size content eq_refl Hc).
    apply runs_then; [auto with quiet|done|intros _].
    apply runs_then; [exact quiet_verify|done|intros _]. apply runs_ret. split; [done|].
    intros result [= <-]. split; [done|split; [done|]]. by exists artifact, content.
  - apply runs_bind, runs_attempt.
    eapply runs_mono; [apply tidy_RemoveCompleted; [apply intact_private|done]|].
    intros [[]|e'] s' Hs; apply runs_throw; (split; [by eapply intact_private|done]).
Qed.

(** Staging or recovering, whichever [PrepareStage] asks for. *)
Lemma remux_or_recover_runs sourceBytes tool sizeChanged changed s :
  writes tool -> intact s ->
  runs (completed ← PrepareStage roots r a OutputContainerMKV;
        match completed with
        | Some artifact => remux_recover roots r verify validate changed a artifact
        | None => remux_stage roots r sourceBytes tool verify validate sizeChanged a
        end)
    (fun x s' => intact s' /\ forall result, x = inl result -> disc_staged result s') s.
Proof.
  intros Hw HI. apply runs_bind.
  eapply runs_mono; [apply PrepareStage_runs; [done|apply intact_private|done]|].
  intros [[artifact|]|e] s' [Hp Hx]; [| |split; [by eapply intact_private|done]].
  - apply remux_recover_runs; [by eapply intact_private|by apply Hx].
  - apply remux_stage_runs; [done|by eapply intact_private].
Qed.
End disc_stage.

(** ** Publishing *)

Lemma publishCompletedAt_runs r a container extension fp components evidence size s :
  extension_of describes container extension -> in_workspace components = false ->
  (forall content, describes content evidence -> size = Z.of_nat (String.length content) -> accepted content) ->
  intact s -> holds describes (completed_key r a extension) evidence size s ->
  runs (publishCompletedAt roots r a container fp components)
    (fun x s' => intact s' /\ forall published, x = inl published ->
       published = components ++ [PublishedName a extension] /\
       holds describes (media_place r published) evidence size s') s.
Proof.
  intros Hext Hws Hacc HI (f & content & Hf & Hc & Hdesc & Hsize).
  do 2 (apply runs_then; [auto with quiet|done|intros _]).
  apply runs_bind. eapply runs_mono; [by apply Hext|]. intros [e|e] s' [-> He]; [|done]. rewrite (He e eq_refl).
  cbv zeta. apply runs_then; [auto with quiet|done|intros found]. apply runs_then; [auto with quiet|done|intros _].
  apply runs_then; [auto with quiet|done|intros _].
  apply runs_bind. eapply runs_mono; [by apply openArtifact_runs|]. intros [staged|e'] s' [-> Hst]; [|done].
  apply runs_then; [auto with quiet|done|intros published]. unfold completed_key in Hf.
  destruct staged as [artifact|]; [|congruence]. rewrite Hf in Hst. injection Hst as <-.
  set (dest := (MediaDirectory r components, PublishedName a extension)).
  apply runs_bind. do 3 (apply runs_quiet; [auto with quiet|done|intros _|done]).
  apply runs_bind, runs_attempt. eapply runs_mono.
  { apply (moveNoReplace_runs describes intact (StagedDirectory r, stagedName a extension) dest); [done|].
    intros g Hg Hnone. rewrite Hf in Hg. injection Hg as <-.
    assert (intact (linked dest f s)) by (eapply intact_linked; eauto). split; [done|by apply intact_unstage]. }
  intros x s' [(g & Hg & Hnone & Hs')|[[e' ->] ->]]; [|by apply runs_throw].
  rewrite Hf in Hg. injection Hg as <-.
  assert (intact (linked dest f s)) as HIl by (eapply intact_linked; eauto).
  destruct Hs' as [-> |[[e' ->] ->]]; [|by apply runs_throw].
  assert (intact (moved (StagedDirectory r, stagedName a extension) dest f s)) as HIm by (by apply intact_unstage).
  destruct x as [[]|e']; [|by apply runs_throw]. apply runs_ret.
  apply runs_bind, runs_error_of; [auto with quiet|done|intros e1]. apply runs_bind, runs_error_of; [auto with quiet|done|intros e2].
  destruct (join_errors [e1; e2]); [by apply runs_throw|]. apply runs_ret. split; [done|].
  intros ? [= <-]. split; [done|]. exists f, content. split; [|done].
  unfold media_place. rewrite removelast_last, last_last. fold dest. cbn.
  rewrite lookup_delete_ne by done. apply lookup_insert_eq.
Qed.
End stage.
