(* ===== verification/TransformSafety.v ===== *)
(** * Media operations are safe

    A run of [Transform], stopped at any moment, on any file system and with
    any failures, leaves the media that was there as it was, and publishes
    only a file whose content was accepted for the request. *)
From ITree Require Import ITree.
From stdpp Require Import base strings list gmap.
From S2P Require Import Prelude GoStrings GoCrypto FileIdentity Probe Media WorkerContracts Decisions.
From S2P Require Import DiscCandidates JoinPolicy DiscPolicy JoinVerification RemuxVerification.
From S2P Require Import RadarrAdapter Programs WorkerFiles WorkerJoinStage WorkerDisc.
From S2P Require Import WorkerBlurayStage WorkerDVDStage WorkerTransform FileSystem WorkerSafety WorkerPublish.
Import mediafile repairradarr operation.

(** What the validation of the operation says of the evidence of its output. *)
Definition accepts (request : Transform) (evidence : ProbeEvidence) (size : Z) : Prop :=
  match tf_Join request, tf_Bluray request, tf_DVD request with
  | Some authorized, None, None => ValidateOutput authorized evidence size = []
  | None, Some authorized, None =>
      ValidateRemuxOutput (ar_ExpectedDurationMS authorized) (ar_ExpectedChapters authorized)
        (ar_ExpectedTracks authorized) evidence = Ok tt
  | None, None, Some authorized =>
      ValidateDVDOutput (ad_ExpectedDurationMS authorized) (ad_ExpectedChapters authorized)
        (ad_ExpectedTracks authorized) evidence = Ok tt
  | _, _, _ => False
  end.

(** A content with evidence that is accepted. *)
Definition accepted (describes : string -> ProbeEvidence -> Prop) (request : Transform) (content : string) : Prop :=
  exists evidence, describes content evidence /\ accepts request evidence (Z.of_nat (String.length content)).

Section quiet_discs.
Context (describes : string -> ProbeEvidence -> Prop) (roots : RootSet).
Abbreviation quiet := (quiet describes).

Lemma quiet_verifyInputs r text sources opened : quiet (verifyInputs roots r text sources opened).
Proof.
  unfold verifyInputs. destruct (negb _); [quiet|].
  revert opened. induction sources as [|source sources IH]; intros [|f opened]; cbn; quiet.
Qed.

Lemma quiet_open_source r text source : quiet (open_source roots r text source).
Proof. unfold open_source. quiet. Qed.

Lemma quiet_open_inputs r sources : quiet (bluraystage.open_inputs roots r sources).
Proof.
  induction sources as [|source sources IH]; cbn; [quiet|].
  apply quiet_bind; [apply quiet_open_source|intros [media path]]. quiet.
Qed.

Lemma quiet_open_sources r sources folder seen : quiet (dvdstage.open_sources roots r sources folder seen).
Proof.
  revert folder seen. induction sources as [|source sources IH]; intros folder seen; cbn; [quiet|].
  apply quiet_bind; [apply quiet_open_source|intros [media path]]. quiet.
Qed.

Lemma quiet_bluray_openAndIdentify spec : quiet (bluraystage.openAndIdentify roots spec).
Proof.
  apply quiet_bind; [apply quiet_open_inputs|intros [opened paths]]. cbv zeta.
  apply quiet_bind; [quiet|intros [details|e]; [|quiet]].
  apply quiet_bind; [quiet|intros _]. apply quiet_bind; [apply quiet_verifyInputs|intros _; quiet].
Qed.

Lemma quiet_dvd_openAndIdentify spec : quiet (dvdstage.openAndIdentify roots spec).
Proof.
  apply quiet_bind; [apply quiet_open_sources|intros [[opened folder] seen]].
  apply quiet_bind; [quiet|intros [entries|e]; [|quiet]]. do 2 (apply quiet_bind; [quiet|intros _]).
  apply quiet_bind; [quiet|intros [titles|e]; [|quiet]].
  apply quiet_bind; [quiet|intros _]. apply quiet_bind; [apply quiet_verifyInputs|intros _; quiet].
Qed.

Lemma quiet_bluray_ArtifactID `{!SpecificationCodec bluraystage.Specification} spec :
  quiet (bluraystage.ArtifactID spec).
Proof. unfold bluraystage.ArtifactID, bluraystage.validateSpecification. quiet. Qed.

Lemma quiet_dvd_ArtifactID `{!SpecificationCodec dvdstage.Specification} spec :
  quiet (dvdstage.ArtifactID spec).
Proof. unfold dvdstage.ArtifactID, dvdstage.validateSpecification. quiet. Qed.
End quiet_discs.

Section transform.
Context (describes : string -> ProbeEvidence -> Prop) (wt : Transformer).
Context `{!SpecificationCodec bluraystage.Specification} `{!SpecificationCodec dvdstage.Specification}.
Context (request : Transform) (s0 : world).
Implicit Types (s : world).
Abbreviation intact := (intact (accepted describes request) s0).
Abbreviation runs := (runs describes intact).

(** An output that names a published file with accepted evidence. *)
Definition reported (output : Output) (s : world) : Prop :=
  exists r path components size, wt_Files wt !! r = Some path /\
    out_Path output = filepath.Clean (join_slash (path :: components)) /\
    holds describes (media_place r components) (out_Evidence output) size s /\
    accepts request (out_Evidence output) size.

Lemma quiet_resolve paths : quiet describes (resolve wt paths).
Proof. unfold resolve. quiet. Qed.
Lemma quiet_NewRunner executable path timeout : quiet describes (NewRunner wt executable path timeout).
Proof. unfold NewRunner. quiet. Qed.

Lemma AbsolutePath_runs r components s :
  intact s -> runs (AbsolutePath (wt_Files wt) r components)
    (fun x s' => s' = s /\ forall p, x = inl p -> exists path, wt_Files wt !! r = Some path /\
       p = filepath.Clean (join_slash (path :: components))) s.
Proof.
  intros HI. apply runs_bind. unfold require_root.
  destruct (wt_Files wt !! r) as [path|] eqn:Hr; [apply runs_ret|by apply runs_throw].
  apply runs_quiet; [auto with quiet|done|intros _|done]. apply runs_ret. split; [done|].
  intros p [= <-]. by exists path.
Qed.

(** How a program that publishes ends. *)
Definition published (r : string) (evidence : ProbeEvidence) (size : Z) (x : list string + worker_error) s : Prop :=
  intact s /\ forall components, x = inl components -> holds describes (media_place r components) evidence size s.

Lemma report_runs (p : worker (list string)) r fp evidence size s :
  runs p (published r evidence size) s -> accepts request evidence size ->
  runs (components ← p; output wt r components fp evidence)
    (fun x s' => intact s' /\ forall o, x = inl o -> reported o s') s.
Proof.
  intros Hp Hacc. apply runs_bind. eapply runs_mono; [exact Hp|]. intros [components|e] s' [HI Hx]; [|done].
  specialize (Hx components eq_refl). apply runs_bind. eapply runs_mono; [by apply AbsolutePath_runs|].
  intros [o|e] s'' [-> Ho]; [|done]. apply runs_ret. split; [done|]. intros ? [= <-].
  destruct (Ho o eq_refl) as (path & Hr & ->). by exists r, path, components, size.
Qed.

Lemma publish_runs r a container extension fp components evidence size s :
  extension_of describes container extension -> in_workspace components = false ->
  intact s -> holds describes (completed_key r a extension) evidence size s -> accepts request evidence size ->
  runs (publishCompletedAt (wt_Files wt) r a container fp components) (published r evidence size) s.
Proof.
  intros Hext Hws HI Hh Hacc. eapply runs_mono.
  { apply publishCompletedAt_runs with (extension := extension) (evidence := evidence) (size := size); try done.
    intros content Hd ->. by exists evidence. }
  intros x s' [HI' Hx]. split; [done|]. intros ? ->. by apply Hx.
Qed.

Lemma commonInputDirectory_runs paths s :
  intact s -> runs (commonInputDirectory paths)
    (fun x s' => s' = s /\ forall c, x = inl c -> in_workspace c = false) s.
Proof.
  intros HI. unfold commonInputDirectory. destruct paths as [|first [|second rest]]; [by apply runs_throw..|].
  apply runs_quiet; [auto with quiet|done|intros _|done]. cbv zeta. set (common := foldl _ _ _).
  apply runs_bind. destruct (in_workspace common) eqn:Hws; [by apply runs_throw|].
  apply runs_ret, runs_ret. split; [done|]. by intros c [= <-].
Qed.

Lemma PublishCompleted_runs r a container extension fp paths evidence size s :
  extension_of describes container extension ->
  intact s -> holds describes (completed_key r a extension) evidence size s -> accepts request evidence size ->
  runs (PublishCompleted (wt_Files wt) r a container fp paths) (published r evidence size) s.
Proof.
  intros Hext HI Hh Hacc. apply runs_bind. eapply runs_mono; [by apply commonInputDirectory_runs|].
  intros [c|e] s' [-> Hc]; [|done]. by eapply publish_runs; eauto.
Qed.

Lemma PublishCompletedAt_runs r a extension fp components evidence size s :
  extension_of describes OutputContainerMKV extension ->
  intact s -> holds describes (completed_key r a extension) evidence size s -> accepts request evidence size ->
  runs (PublishCompletedAt (wt_Files wt) r a OutputContainerMKV fp components) (published r evidence size) s.
Proof.
  intros Hext HI Hh Hacc. apply runs_bind. destruct (in_workspace components) eqn:Hws.
  - rewrite bool_decide_false by (by intros ->). rewrite orb_true_r. by apply runs_throw.
  - eapply runs_mono; [by apply quiet_fail_when|]. intros [[]|e] s' ->; [|done]. by eapply publish_runs; eauto.
Qed.

(** ** The operations *)

Lemma join_runs authorized s :
  tf_Join request = Some authorized -> tf_Bluray request = None -> tf_DVD request = None -> intact s ->
  runs (join wt request authorized) (fun x s' => intact s' /\ forall o, x = inl o -> reported o s') s.
Proof.
  intros Hj Hb Hd HI. destruct (extension_of_some describes (aj_OutputContainer authorized)) as [extension Hext].
  apply runs_then; [apply quiet_resolve|done|intros [r components]].
  apply runs_then; [apply quiet_NewRunner|done|intros _]. apply runs_bind.
  eapply runs_mono; [by apply Stage_runs with (extension := extension)|]. intros [result|e] s' [HI' Hx]; [|done].
  specialize (Hx result eq_refl). cbv zeta.
  destruct (ValidateOutput _ _ _) as [|reason reasons] eqn:Hv.
  - apply report_runs with (size := joinstage.jr_SizeBytes result).
    + by apply PublishCompleted_runs with (extension := extension); [..|unfold accepts; rewrite Hj, Hb, Hd].
    + unfold accepts. by rewrite Hj, Hb, Hd.
  - apply runs_bind. eapply runs_mono; [apply tidy_RemoveCompleted; [apply intact_private|done]|].
    intros [b|e] s'' Hs; [apply runs_throw|]; (split; [by eapply intact_private|done]).
Qed.

(** A disc: what its stage leaves is published. *)
Lemma disc_runs (stage : worker DiscResult) r extension validate directory s :
  extension_of describes OutputContainerMKV extension ->
  (forall evidence size, validate evidence = Ok tt -> accepts request evidence size) ->
  runs stage (fun x s' => intact s' /\ forall result, x = inl result ->
    exists a, disc_staged describes validate r a extension result s') s ->
  runs (result ← stage;
        published ← PublishCompletedAt (wt_Files wt) r (dr_ArtifactID result) OutputContainerMKV
          (dr_Fingerprint result) directory;
        output wt r published (dr_Fingerprint result) (dr_Evidence result))
    (fun x s' => intact s' /\ forall o, x = inl o -> reported o s') s.
Proof.
  intros Hext Hacc Hstage. apply runs_bind. eapply runs_mono; [exact Hstage|]. intros [result|e] s' [HI Hx]; [|done].
  destruct (Hx result eq_refl) as (a & -> & Hv & Hh). pose proof (Hacc _ (dr_SizeBytes result) Hv) as Ha.
  apply report_runs with (size := dr_SizeBytes result); [|done].
  by apply PublishCompletedAt_runs with (extension := extension).
Qed.

Lemma bluray_StageOrRecover_runs spec extension s :
  extension_of describes OutputContainerMKV extension -> intact s ->
  runs (bluraystage.StageOrRecover (wt_Files wt) spec)
    (fun x s' => intact s' /\ forall result, x = inl result ->
       exists a, disc_staged describes (bluraystage.validate spec) (bluraystage.bs_RootID spec) a extension result s') s.
Proof.
  intros Hext HI. apply runs_then; [auto with quiet|done|intros _].
  apply runs_then; [apply quiet_bluray_ArtifactID|done|intros a].
  apply runs_then; [apply quiet_bluray_openAndIdentify|done|intros [opened path]].
  eapply runs_mono; [apply remux_or_recover_runs; [apply quiet_verifyInputs|exact Hext|by intros f ? ? ?|done]|].
  intros x s' [HI' Hx]. split; [done|]. intros result Hr. exists a. by apply Hx.
Qed.

Lemma dvd_StageOrRecover_runs spec extension s :
  extension_of describes OutputContainerMKV extension -> intact s ->
  runs (dvdstage.StageOrRecover (wt_Files wt) spec)
    (fun x s' => intact s' /\ forall result, x = inl result ->
       exists a, disc_staged describes (dvdstage.validate spec) (dvdstage.ds_RootID spec) a extension result s') s.
Proof.
  intros Hext HI. apply runs_then; [auto with quiet|done|intros _].
  apply runs_then; [apply quiet_dvd_ArtifactID|done|intros a].
  apply runs_then; [apply quiet_dvd_openAndIdentify|done|intros [opened path]].
  eapply runs_mono; [apply remux_or_recover_runs; [apply quiet_verifyInputs|exact Hext|by intros f ? ? ?|done]|].
  intros x s' [HI' Hx]. split; [done|]. intros result Hr. exists a. by apply Hx.
Qed.

Lemma bluray_runs authorized s :
  tf_Join request = None -> tf_Bluray request = Some authorized -> tf_DVD request = None -> intact s ->
  runs (bluray wt request authorized) (fun x s' => intact s' /\ forall o, x = inl o -> reported o s') s.
Proof.
  intros Hj Hb Hd HI. destruct (extension_of_some describes OutputContainerMKV) as [extension Hext].
  apply runs_then; [apply quiet_resolve|done|intros [r components]].
  apply runs_then; [apply quiet_NewRunner|done|intros _]. cbv zeta.
  eapply disc_runs; [exact Hext| |by apply bluray_StageOrRecover_runs].
  intros evidence size Hv. unfold accepts. rewrite Hj, Hb, Hd. exact Hv.
Qed.

Lemma dvd_runs authorized s :
  tf_Join request = None -> tf_Bluray request = None -> tf_DVD request = Some authorized -> intact s ->
  runs (dvd wt request authorized) (fun x s' => intact s' /\ forall o, x = inl o -> reported o s') s.
Proof.
  intros Hj Hb Hd HI. destruct (extension_of_some describes OutputContainerMKV) as [extension Hext].
  apply runs_then; [apply quiet_resolve|done|intros [r components]].
  apply runs_then; [apply quiet_NewRunner|done|intros _]. cbv zeta.
  eapply disc_runs; [exact Hext| |by apply dvd_StageOrRecover_runs].
  intros evidence size Hv. unfold accepts. rewrite Hj, Hb, Hd. exact Hv.
Qed.

(** C2. A media operation of the worker, on any file system, whatever calls and
    tools fail and wherever it is stopped, never writes a file that was there,
    never removes or replaces an entry of the media, and adds to the media only
    files whose content has evidence that the validation of this request
    accepts. When it succeeds, the path it reports names such a file, and the
    evidence it reports describes the content of that file. *)
Theorem transform_publishes_accepted :
  safe (fun X (_ : workerE X) s => intact s) (answers describes) (perform wt request)
    (fun x s => intact s /\ forall o, x = inl o -> reported o s) s0.
Proof.
  pose proof (intact_refl (accepted describes request) s0) as HI.
  apply runs_then; [auto with quiet|done|intros _].
  destruct (tf_Join request) as [j|] eqn:Hj, (tf_Bluray request) as [b|] eqn:Hb, (tf_DVD request) as [d|] eqn:Hd;
    try (by apply runs_throw).
  - by apply join_runs.
  - by apply bluray_runs.
  - by apply dvd_runs.
Qed.
End transform.

(** ** Moving without replacing *)

(** While a file moves: it has one of the two names or both, the contents are
    as they were, and so is every other name. *)
Record moving (k k' : directory * string) (f : file) (s s' : world) : Prop := mkMoving
  { moving_files : w_files s' = w_files s;
    moving_kept : w_names s' !! k = Some f \/ w_names s' !! k' = Some f;
    moving_old name g : name <> k -> w_names s !! name = Some g -> w_names s' !! name = Some g;
    moving_new name g : name <> k' -> w_names s' !! name = Some g -> w_names s !! name = Some g }.

Lemma moving_linked k k' f s :
  w_names s !! k = Some f -> w_names s !! k' = None -> moving k k' f s (linked k' f s).
Proof.
  intros Hf Hnone. split; [done|right; apply lookup_insert_eq| |]; cbn.
  - intros name g _ Hg. rewrite lookup_insert_ne; [done|]. intros <-. by rewrite Hnone in Hg.
  - intros name g Hne Hg. by rewrite lookup_insert_ne in Hg by done.
Qed.

Lemma moving_moved k k' f s :
  w_names s !! k = Some f -> w_names s !! k' = None -> moving k k' f s (moved k k' f s).
Proof.
  intros Hf Hnone. assert (k <> k') by (intros ->; by rewrite Hf in Hnone).
  destruct (moving_linked k k' f s Hf Hnone) as [_ _ Hold Hnew]. split; [done|right| |]; cbn in *.
  - rewrite lookup_delete_ne by done. apply lookup_insert_eq.
  - intros name g Hne Hg. rewrite lookup_delete_ne by done. by apply Hold.
  - intros name g Hne Hg. apply lookup_delete_Some in Hg as [_ Hg]. by apply Hnew.
Qed.

(** C17. [moveNoReplace], stopped anywhere and with any failures, never replaces
    the destination, never loses the file and changes no other name. It
    succeeds only if the destination was free, and then has moved the file. *)
Theorem move_keeps_file describes k k' f s :
  w_names s !! k = Some f ->
  safe (fun X (_ : workerE X) => moving k k' f s) (answers describes) (moveNoReplace k.1 k.2 k'.1 k'.2)
    (fun x s' => moving k k' f s s' /\
       (x = inl tt -> w_names s !! k' = None /\ w_names s' !! k = None /\ w_names s' !! k' = Some f)) s.
Proof.
  intros Hf. assert (moving k k' f s s) as Hrefl by (split; auto).
  eapply runs_mono.
  { apply moveNoReplace_runs; [exact Hrefl|]. intros g Hg Hnone. rewrite Hf in Hg. injection Hg as <-.
    split; [by apply moving_linked|by apply moving_moved]. }
  intros x s' [(g & Hg & Hnone & Hs')|[[e ->] ->]]; [|done].
  rewrite Hf in Hg. injection Hg as <-. destruct Hs' as [-> |[[e ->] ->]].
  - split; [by apply moving_moved|]. intros _. split; [done|]. cbn. split; [apply lookup_delete_eq|].
    rewrite lookup_delete_ne by (intros ->; by rewrite Hf in Hnone). apply lookup_insert_eq.
  - split; [by apply moving_linked|done].
Qed.
