(* ===== verification/RadarrSafety.v ===== *)
(** * What the Radarr adapter guarantees

    Theorems about [internal/repairradarr] and [internal/executioncheck]: an
    import is prepared only from a decision that is authorized against the
    current, unchanged case and that replaces no better file; and its
    completion is read off the history that followed it. *)
From stdpp Require Import base strings list gmap.
From S2P Require Import Prelude GoStrings FileIdentity Probe Streams Media Radarr JoinFeasibility.
From S2P Require Import WorkerContracts CaseContracts Decisions ManualImportPolicy JoinPolicy DiscPolicy.
From S2P Require Import ExecutionRecords PlanningRunner CaseCodec CaseEvidence CaseAssembly Inspection.
From S2P Require Import Jobs RepairEngine LidarrRepair QueueFinalize ExecutionCheck RadarrAdapter.
Import executioncheck repairradarr.

(** ** Sameness of cases *)

(** What of a case the comparison keeps: everything but the two times of
    observation, the encoded request and the codes of rejections. *)
Definition case_state (assembly : Assembly) : RepairCaseV3 * LocalSnapshot :=
  (assemble.request_observed_at jobs.zero_time (as_Request assembly),
   assemble.withoutManualImportRejectionCodes
     (assemble.snapshot_observed_at jobs.zero_time (as_LocalSnapshot assembly))).

Lemma SameCaseState_spec left right :
  assemble.SameCaseState left right = true <-> case_state left = case_state right.
Proof.
  unfold assemble.SameCaseState, case_state, assemble.request_observed_at,
    assemble.snapshot_observed_at, assemble.withoutManualImportRejectionCodes.
  destruct left as [[lv li lt lr ld lf lc] le [lid [lot lco lm lh lmi linv lp lb ldv] lbs]],
    right as [[rv ri rt rr rd rf rc] re [rid [rot rco rm rh rmi rinv rp rb rdv] rbs]].
  cbn. rewrite andb_true_iff, !bool_decide_eq_true. split.
  - intros [[= -> -> -> -> -> ->] [= -> -> -> -> Hm -> -> -> -> ->]]. by rewrite Hm.
  - intros [= -> -> -> -> -> -> -> -> -> -> Hm -> -> -> -> ->]. by rewrite Hm.
Qed.

(** ** Replacements *)

(** Every file that the authorized action imports is listed once by Radarr,
    which finds nothing against it but what a repair overcomes. *)
Definition replacement_safe (assembly : Assembly) (authorization : Authorization) : Prop :=
  forall movie, ob_Movie (ls_Observation (as_LocalSnapshot assembly)) = Some movie ->
    mv_HasFile movie = true ->
    match au_ManualImport authorization, au_Join authorization with
    | Some manual, _ =>
        replacementForPath assembly (cf_Path (am_File manual)) = ReplacementAllowed
    | None, Some join =>
        Forall (fun part => exists path, inventoryPath assembly (ap_FileID part) = Some path /\
          replacementForPath assembly path = ReplacementAllowed) (aj_OrderedParts join)
    | None, None => False
    end.

Lemma parts_replacement_None assembly parts unproved :
  parts_replacement assembly parts unproved = None <->
  unproved = false /\ Forall (fun part => exists path,
    inventoryPath assembly (ap_FileID part) = Some path /\
    replacementForPath assembly path = ReplacementAllowed) parts.
Proof.
  revert unproved. induction parts as [|part parts IH]; intros unproved; cbn [parts_replacement].
  { destruct unproved; split; try done; by intros [? _]. }
  rewrite Forall_cons.
  destruct (inventoryPath assembly (ap_FileID part)) as [path|] eqn:Hp.
  - destruct (replacementForPath assembly path) eqn:Hr; rewrite ?IH.
    + split; [by intros [? _]|]. intros (_ & (p & [= <-] & Hp') & _). congruence.
    + split; [intros [-> ?]; split_and!; eauto|]. by intros (-> & _ & ?).
    + split; [done|]. intros (_ & (p & [= <-] & Hp') & _). congruence.
    + split; [by intros [? _]|]. intros (_ & (p & [= <-] & Hp') & _). congruence.
  - rewrite IH. split; [by intros [? _]|]. by intros (_ & (p & ? & _) & _).
Qed.

Lemma ReplacementRejection_None assembly authorization :
  ReplacementRejection assembly authorization = None <-> replacement_safe assembly authorization.
Proof.
  unfold ReplacementRejection, replacement_safe. destruct (ob_Movie _) as [movie|]; [|by split].
  destruct (mv_HasFile movie) eqn:Hf; cbn [negb].
  2: split; [|done]; intros _ m [= <-]; congruence.
  destruct (au_ManualImport authorization) as [manual|].
  - destruct (replacementForPath assembly (cf_Path (am_File manual))); cbn;
      split; try done; intros H; try by intros ? [= <-].
    all: discriminate (H movie eq_refl Hf).
  - destruct (au_Join authorization) as [join|].
    + rewrite parts_replacement_None. split; [by intros [_ ?] ? [= <-] _|].
      intros H. split; [done|]. by apply (H movie).
    + split; [done|]. intros H. destruct (H movie eq_refl Hf).
Qed.

(** ** Authorization *)

(** The one policy that accepted the decision, with what it authorized. *)
Inductive authorizes (assembly : Assembly) (decision : RepairDecisionV3) (policy : RuntimePolicy)
    : Authorization -> Prop :=
| authorizes_join v join :
    ValidateJoin assembly decision = Some v -> jv_Authorized v = Some join -> jv_Rejections v = [] ->
    authorizes assembly decision policy (mkAuthorization (Some join) None None None)
| authorizes_manual manual :
    miv_Authorized (ValidateManualImportWithPolicy assembly decision policy) = Some manual ->
    authorizes assembly decision policy (mkAuthorization None (Some manual) None None)
| authorizes_remux v remux :
    ValidateRemuxWithPolicy assembly decision policy = Some v -> dv_Authorized v = Some remux ->
    dv_Rejections v = [] ->
    authorizes assembly decision policy (mkAuthorization None None (Some remux) None)
| authorizes_dvd dvd :
    dv_Authorized (ValidateDVDWithPolicy assembly decision policy) = Some dvd ->
    dv_Rejections (ValidateDVDWithPolicy assembly decision policy) = [] ->
    authorizes assembly decision policy (mkAuthorization None None None (Some dvd)).

Lemma answer_of_Accepted {R} accepted authorization (name : R -> string) rejections runtime :
  an_Accepted (answer_of accepted authorization name rejections runtime) = true ->
  accepted = true /\ an_Authorization (answer_of accepted authorization name rejections runtime) =
    authorization.
Proof. unfold answer_of. destruct accepted; [done|]. by destruct rejections. Qed.

Lemma Authorize_accepted assembly decision policy answer :
  Authorize assembly decision policy = Some answer -> an_Accepted answer = true ->
  authorizes assembly decision policy (an_Authorization answer).
Proof.
  unfold Authorize. intros H Ha.
  destruct (bool_decide (rdv_Kind decision = ActionJoinParts)).
  { apply bind_Some in H as (v & Hv & [= <-]). apply answer_of_Accepted in Ha as [Ha ->].
    unfold join_Accepted in Ha. destruct (jv_Authorized v) as [join|] eqn:Hj; [|done].
    apply bool_decide_eq_true, nil_length_inv in Ha. by econstructor. }
  destruct (bool_decide (rdv_Kind decision = ActionManualImportFile)).
  { injection H as <-. apply answer_of_Accepted in Ha as [Ha ->]. unfold manual_Accepted in Ha.
    destruct (miv_Authorized _) as [manual|] eqn:Hm; [|done]. by constructor. }
  destruct (bool_decide (rdv_Kind decision = ActionRemuxBluray)).
  { apply bind_Some in H as (v & Hv & [= <-]). apply answer_of_Accepted in Ha as [Ha ->].
    unfold disc_Accepted in Ha. destruct (dv_Authorized v) as [remux|] eqn:Hr; [|done].
    apply bool_decide_eq_true, nil_length_inv in Ha. by econstructor. }
  destruct (bool_decide (rdv_Kind decision = ActionRemuxDVD)).
  - injection H as <-. apply answer_of_Accepted in Ha as [Ha ->]. unfold disc_Accepted in Ha.
    destruct (dv_Authorized _) as [dvd|] eqn:Hd; [|done].
    apply bool_decide_eq_true, nil_length_inv in Ha. by constructor.
  - by injection H as <-.
Qed.

Lemma next_inl {A B} (m : attempted A) (f : A -> attempted B) b :
  next m f = inl b <-> exists a, m = inl a /\ f a = inl b.
Proof. destruct m; cbn; naive_solver. Qed.

Lemma lift_inl {A} (r : result A) a : lift r = inl a <-> r = Ok a.
Proof. destruct r; cbn; naive_solver. Qed.

Lemma block_if_inl condition reason u : block_if condition reason = inl u <-> condition = false.
Proof. destruct condition, u; cbn; naive_solver. Qed.

Section safety.
Context {codec : RepairCodec} {json : AdapterCodec}.

(** Radarr's queue still has the job's download, and the case inspected from
    that entry is the case the decision was made on. *)
Record import_authorized (adapter : Adapter) (job : jobs.Job) (plan : string) (fresh : Assembly)
    (authorized : Authorization) : Prop :=
  { ia_queue : exists entries entry index, ad_ReadQueue adapter = Ok entries /\
      jobs.MatchQueue (jobs.job_QueueKey job) (queue_keys entries) = Ok (Some index) /\
      entries !! index = Some entry /\ ad_Inspect adapter (q_ID entry) = inl fresh;
    ia_download : q_DownloadID (observed_queue fresh) = jobs.job_DownloadID job;
    ia_unchanged : exists evidence, UnmarshalEvidence (jobs.job_Evidence job) = Ok evidence /\
      case_state (evidence_Assembly evidence) = case_state fresh;
    ia_stable : q_TrackedDownloadState (observed_queue fresh) = importPending ->
      ad_Stabilization adapter <= runner.Sub (ad_Now adapter) (jobs.job_StableSince job);
    ia_decision : exists decision, DecodeDecision plan = Ok decision /\
      authorizes fresh decision (mkRuntimePolicy (jobs.job_RuntimeToleranceMS job)) authorized;
    ia_replacement : replacement_safe fresh authorized }.

Lemma authorize_inl adapter job plan fresh authorized :
  authorize adapter job plan = inl (fresh, authorized) ->
  import_authorized adapter job plan fresh authorized.
Proof.
  unfold authorize.
  intros (evidence & He%lift_inl & (decision & Hd%lift_inl & H)%next_inl)%next_inl.
  apply next_inl in H as (entry & Hentry & (fresh' & Hfresh & H)%next_inl). cbv zeta in H.
  apply next_inl in H as (? & Hsame%block_if_inl & (? & Hstable%block_if_inl & H)%next_inl).
  apply next_inl in H as (answer & Ha%lift_inl & (? & Hacc%block_if_inl & H)%next_inl).
  destruct (ReplacementRejection fresh' (an_Authorization answer)) eqn:Hr; [done|].
  injection H as -> <-. apply ReplacementRejection_None in Hr.
  apply orb_false_iff in Hsame as [Hdl%negb_false_iff%bool_decide_eq_true Hsame%negb_false_iff].
  apply negb_false_iff in Hacc.
  unfold panics in Ha. destruct (Authorize _ _ _) as [answer'|] eqn:Hau; [|done].
  injection Ha as ->. apply Authorize_accepted in Hau; [|done].
  split; try done.
  - unfold current_entry in Hentry. apply next_inl in Hentry as (entries & Hq%lift_inl & Hentry).
    destruct (jobs.MatchQueue _ _) as [[index|]|] eqn:Hm; try done.
    destruct (entries !! index) as [entry'|] eqn:Hi; [|done]. injection Hentry as ->.
    exists entries, entry, index. split_and!; try done.
    unfold inspect in Hfresh. destruct (ad_Inspect adapter (q_ID entry)); [|done]. by injection Hfresh as ->.
  - exists evidence. split; [done|]. by apply SameCaseState_spec.
  - intros Hp. rewrite (bool_decide_eq_true_2 _ Hp), andb_true_l in Hstable.
    apply bool_decide_eq_false in Hstable. lia.
  - by exists decision.
Qed.

(** An import of the current movie and download, by copying one file. *)
Record import_of (fresh : Assembly) (command : RadarrManualImportCommand) : Prop :=
  { io_complete : command_Complete command = true;
    io_mode : cmd_ImportMode command = RadarrImportModeCopy;
    io_download : cf_DownloadID (cmd_File command) = q_DownloadID (observed_queue fresh);
    io_movie : q_MovieID (observed_queue fresh) = Some (cf_MovieID (cmd_File command)) }.

Lemma binding_Complete_command binding :
  binding_Complete binding = true ->
  command_Complete (mkImportCommand (bd_ImportMode binding) (bd_File binding)) = true /\
  bd_ImportMode binding = RadarrImportModeCopy.
Proof.
  unfold binding_Complete. intros [_ H]%andb_true_iff. split; [done|].
  unfold command_Complete in H. cbv zeta in H. rewrite !andb_true_iff in H.
  destruct H as [[[[[[[H _] _] _] _] _] _] _]. by apply bool_decide_eq_true in H.
Qed.

(** The file that a command imports: the one whose manual import was
    authorized, or the output of the authorized transformation. *)
Definition import_source (adapter : Adapter) (job : jobs.Job) (attempt : jobs.Attempt)
    (fresh : Assembly) (authorized : Authorization) (path : string) : Prop :=
  match au_ManualImport authorized with
  | Some manual => path = cf_Path (am_File manual) /\
      mkFilePathMapping (am_FileID manual) path ∈
        fi_Paths (ob_Inventory (ls_Observation (as_LocalSnapshot fresh)))
  | None => exists output, path = out_Path output /\
      ad_Transform adapter (mkTransform (jobs.job_ID job) (jobs.att_Number attempt)
        (transform_paths fresh) (au_Join authorized) (au_Remux authorized) (au_DVD authorized)) =
      Ok output
  end.

Lemma importCommand_Ok adapter job attempt plan fresh authorized command :
  import_authorized adapter job plan fresh authorized ->
  importCommand adapter job attempt fresh authorized = Ok command ->
  import_of fresh command /\
  import_source adapter job attempt fresh authorized (cf_Path (cmd_File command)).
Proof.
  intros [_ _ _ _ (decision & _ & Ha) _]. unfold importCommand, import_source.
  destruct (au_ManualImport authorized) as [manual|] eqn:Hm.
  - intros [= <-]. cbn [cmd_File].
    assert (miv_Authorized (ValidateManualImportWithPolicy fresh decision
      (mkRuntimePolicy (jobs.job_RuntimeToleranceMS job))) = Some manual) as [Hs _]%authorized_manual_import_supported.
    { destruct Ha; cbn in Hm; try done. by injection Hm as ->. }
    destruct (binding_Complete_command _ (ms_complete _ _ _ Hs)) as [Hc Hmode].
    pose proof (ms_download _ _ _ Hs) as Hdl. destruct (ms_movie _ _ _ Hs) as (movie & _ & Hmv & Hq & _).
    split; [|split; [done|by eapply ms_path]].
    split; [done..|]. unfold observed_queue. cbn. by rewrite Hq, Hmv.
  - intros (output & Ho & H)%bind_Ok. cbv zeta in H.
    destruct (q_MovieID (observed_queue fresh)) as [movieID|] eqn:Hmv; [|done].
    destruct (BuildRadarrPublishedFileImport _ _ _ _) as [[c|] []] eqn:Hb; try done.
    injection H as ->. unfold BuildRadarrPublishedFileImport in Hb.
    destruct (latestMatchingGrab _ _ _) as [grab|]; [|done].
    destruct (he_Quality grab) as [quality|]; [|done]. injection Hb as <- Hc.
    split; [by split|]. by exists output.
Qed.
End safety.

(** ** Import history *)

Lemma foldl_highest imports highest :
  let r := foldl (fun h i => if bool_decide (h < imp_HistoryID i) then imp_HistoryID i else h)
    highest imports in
  highest <= r /\ Forall (fun i => imp_HistoryID i <= r) imports.
Proof.
  revert highest. induction imports as [|i imports IH]; intros highest; cbn; [split; [lia|done]|].
  destruct (IH (if bool_decide (highest < imp_HistoryID i) then imp_HistoryID i else highest))
    as [Hle Hall].
  destruct (bool_decide_reflect (highest < imp_HistoryID i)); (split; [lia|constructor; [lia|done]]).
Qed.

Lemma HighestImportedFileHistoryID_bound imports :
  Forall (fun i => imp_HistoryID i <= radarr.HighestImportedFileHistoryID imports) imports.
Proof. apply foldl_highest. Qed.

(** The first of the matches, by history ID. *)
Definition first_import (imports : list RadarrImportedFile) (m : radarr.ImportedFileMatch)
    (i : RadarrImportedFile) : Prop :=
  i ∈ imports /\ radarr.matches m i = true /\
  forall j, j ∈ imports -> radarr.matches m j = true -> imp_HistoryID i <= imp_HistoryID j.

Lemma FindImportedFile_spec imports m :
  match radarr.FindImportedFile imports m with
  | Some i => first_import imports m i
  | None => forall i, i ∈ imports -> radarr.matches m i = false
  end.
Proof.
  unfold radarr.FindImportedFile, first_import.
  induction imports as [|i imports IH] using rev_ind; [by intros ? ?%not_elem_of_nil|].
  rewrite foldl_snoc. unfold radarr.find_step at 1. set (found := foldl _ _ _) in *. clearbody found.
  destruct (radarr.matches m i) eqn:Hm; cbn [negb].
  - destruct found as [first|].
    + destruct IH as (Hin & Hf & Hleast).
      destruct (bool_decide_reflect (imp_HistoryID i < imp_HistoryID first)).
      * split_and!; [set_solver|done|]. intros j [Hj| ->%list_elem_of_singleton]%elem_of_app Hmj; [|lia].
        specialize (Hleast j Hj Hmj). lia.
      * split_and!; [set_solver|done|]. intros j [Hj| ->%list_elem_of_singleton]%elem_of_app Hmj; [auto|lia].
    + split_and!; [set_solver|done|]. intros j [Hj| ->%list_elem_of_singleton]%elem_of_app Hmj; [|lia].
      rewrite (IH j Hj) in Hmj. done.
  - destruct found as [first|].
    + destruct IH as (Hin & Hf & Hleast). split_and!; [set_solver|done|].
      intros j [Hj| ->%list_elem_of_singleton]%elem_of_app Hmj; [auto|congruence].
    + intros j [Hj| ->%list_elem_of_singleton]%elem_of_app; auto.
Qed.

Section theorems.
Context {codec : RepairCodec} {json : AdapterCodec}.

(** C3. An import is prepared only when Radarr's queue still has the job's
    download, the case inspected now equals the case the plan was made on but
    for times and rejection codes, a download that Radarr may still import has
    been stable long enough, the policy of the decision's kind accepts it on
    the current case within the operator's tolerance, and no better file is
    replaced. The prepared request copies one file, the authorized one or the
    output of the authorized transformation, for the movie and download of the
    current queue record, and the recorded history boundary is not below any
    import of them that Radarr lists. *)
Theorem radarr_import_authorized (adapter : Adapter) (job : jobs.Job) (attempt : jobs.Attempt)
    (prepared : repair.PreparedImport) :
  Repair adapter job attempt = inl prepared ->
  exists fresh authorized command history,
    import_authorized adapter job (jobs.att_Plan attempt) fresh authorized /\
    import_of fresh command /\
    cf_DownloadID (cmd_File command) = jobs.job_DownloadID job /\
    import_source adapter job attempt fresh authorized (repair.pi_OutputPath prepared) /\
    repair.pi_OutputPath prepared = cf_Path (cmd_File command) /\
    MarshalCommand command = Ok (repair.pi_Request prepared) /\
    ad_ReadImportedFiles adapter (cf_MovieID (cmd_File command)) (cf_DownloadID (cmd_File command)) =
      Ok history /\
    Forall (fun i => imp_HistoryID i <= repair.pi_HistoryIDBefore prepared) history.
Proof.
  unfold Repair. intros ([fresh authorized] & Hau%authorize_inl & H)%next_inl.
  apply next_inl in H as (command & Hc%lift_inl & (history & Hh%lift_inl & H)%next_inl).
  apply next_inl in H as (request & Hr%lift_inl & [= <-]).
  pose proof (importCommand_Ok _ _ _ _ _ _ _ Hau Hc) as [Hof Hsource].
  exists fresh, authorized, command, history. split_and!; try done.
  - rewrite (io_download _ _ Hof). by eapply ia_download.
  - apply HighestImportedFileHistoryID_bound.
Qed.

(** encoding/json decodes the command that it encoded. *)
Definition command_round_trip : Prop :=
  forall command data, MarshalCommand command = Ok data -> UnmarshalCommand data = Ok command.

(** An attempt that records a prepared import is reported as imported exactly
    when Radarr's history has an import of that file, for that movie and
    download, that was not in the history when the import was prepared; the
    receipt is of the first one. Whatever the command reports, there is no
    receipt otherwise. *)
Theorem radarr_receipt_exact (before after : Adapter) (job : jobs.Job)
    (attempt recorded : jobs.Attempt) (prepared : repair.PreparedImport) (status : repair.ImportStatus) :
  command_round_trip ->
  (forall imported data, MarshalImported imported = Ok data -> data <> "") ->
  Repair before job attempt = inl prepared ->
  jobs.att_ImportRequest recorded = repair.pi_Request prepared ->
  jobs.att_HistoryIDBefore recorded = repair.pi_HistoryIDBefore prepared ->
  CheckImport after recorded = Ok status ->
  exists command earlier history,
    MarshalCommand command = Ok (repair.pi_Request prepared) /\
    ad_ReadImportedFiles before (cf_MovieID (cmd_File command)) (cf_DownloadID (cmd_File command)) =
      Ok earlier /\
    ad_ReadImportedFiles after (cf_MovieID (cmd_File command)) (cf_DownloadID (cmd_File command)) =
      Ok history /\
    let m := radarr.mkImportedFileMatch (cf_MovieID (cmd_File command))
      (cf_DownloadID (cmd_File command)) (cf_Path (cmd_File command))
      (repair.pi_HistoryIDBefore prepared) in
    (repair.is_Receipt status <> "" <->
      exists imported, imported ∈ history /\ radarr.matches m imported = true) /\
    (repair.is_Receipt status <> "" ->
      exists first, MarshalImported first = Ok (repair.is_Receipt status) /\
        first_import history m first /\ first ∉ earlier).
Proof.
  intros Hround Hnonempty Hrepair Hrequest Hboundary Hcheck.
  unfold Repair in Hrepair. apply next_inl in Hrepair as ([fresh authorized] & _ & H).
  apply next_inl in H as (command & _ & (earlier & He%lift_inl & H)%next_inl).
  apply next_inl in H as (request & Hm%lift_inl & [= <-]).
  cbn [repair.pi_Request repair.pi_HistoryIDBefore] in *.
  unfold CheckImport in Hcheck. rewrite Hrequest, (Hround _ _ Hm), Hboundary in Hcheck.
  cbn [mbind result_bind] in Hcheck. cbv zeta in Hcheck.
  apply bind_Ok in Hcheck as (history & Hh & H).
  exists command, earlier, history. do 3 (split; [done|]). cbv zeta.
  set (m := radarr.mkImportedFileMatch _ _ _ _) in *.
  pose proof (FindImportedFile_spec history m) as Hspec.
  destruct (radarr.FindImportedFile history m) as [first|].
  - apply bind_Ok in H as (receipt & Hreceipt & [= <-]). cbn [repair.is_Receipt]. split.
    + split; [intros _; exists first; split; apply Hspec|]. intros _. by eapply Hnonempty.
    + intros _. exists first. split; [done|]. split; [done|]. intros Hin.
      pose proof (HighestImportedFileHistoryID_bound earlier) as Hb.
      rewrite Forall_forall in Hb. specialize (Hb first Hin).
      destruct Hspec as (_ & Hmatch & _). unfold radarr.matches in Hmatch.
      rewrite !andb_true_iff, !bool_decide_eq_true in Hmatch. subst m. cbn in Hmatch. lia.
  - assert (repair.is_Receipt status = "") as ->.
    { destruct (bool_decide (jobs.att_CommandID recorded = 0)); [by injection H as <-|].
      apply bind_Ok in H as (c & _ & (s & _ & [= <-])%bind_Ok). done. }
    split; [|done]. split; [done|]. intros (i & Hi & Hmi). by rewrite (Hspec i Hi) in Hmi.
Qed.
End theorems.

(** ** The execution check *)

(** The conditions under which the checker lets a decision be executed. *)
Record execution_allowed (deps : Dependencies) (stored fresh : Assembly)
    (decision : RepairDecisionV3) (policy : RuntimePolicy) (authorization : Authorization) : Prop :=
  { ea_stored : authorizes stored decision policy authorization;
    ea_fresh : authorizes fresh decision policy authorization;
    ea_case : rc_CaseID (as_Request fresh) = rc_CaseID (as_Request stored);
    ea_state : case_state stored = case_state fresh;
    ea_inspected : chk_Inspect deps (q_ID (observed_queue stored)) = inl fresh;
    ea_stable : q_TrackedDownloadState (observed_queue stored) = importPending ->
      exists since, chk_StableSince deps (rc_CaseID (as_Request stored)) = Ok since /\
        t_ns since <= t_ns (chk_Now deps) /\
        chk_Stabilization deps <= runner.Sub (UTC (chk_Now deps)) since;
    ea_replacement : replacement_safe fresh authorization;
    ea_join : forall join, au_Join authorization = Some join ->
      exists response, chk_InspectJoin deps (JoinExecutionID join) = Ok response /\
        ij_Failure response = None /\ ij_State response = Some InspectJoinAbsent }.

Lemma authorizes_one assembly decision policy authorization :
  authorizes assembly decision policy authorization ->
  selected (au_Join authorization) + selected (au_ManualImport authorization) +
  selected (au_Remux authorization) + selected (au_DVD authorization) = 1.
Proof. by destruct 1. Qed.

Lemma check_join_None deps authorization :
  check_join deps authorization = Ok None ->
  forall join, au_Join authorization = Some join ->
    exists response, chk_InspectJoin deps (JoinExecutionID join) = Ok response /\
      ij_Failure response = None /\ ij_State response = Some InspectJoinAbsent.
Proof.
  unfold check_join. intros H join Hj. rewrite Hj in H.
  apply bind_Ok in H as (response & Hr & H). exists response. split; [done|].
  destruct (ij_Failure response); [done|]. destruct (ij_State response) as [state|]; [|done].
  destruct (bool_decide_reflect (state = InspectJoinAbsent)); [by subst|done].
Qed.

Lemma check_join_rejects deps authorization r :
  check_join deps authorization = Ok (Some r) -> res_Rejections r <> [].
Proof.
  unfold check_join. destruct (au_Join authorization); [|done].
  intros (response & _ & H)%bind_Ok. destruct (ij_Failure response); [done|].
  destruct (ij_State response) as [state|]; [|done].
  destruct (bool_decide (state = InspectJoinAbsent)); [done|by injection H as <-].
Qed.

Lemma check_stability_rejects deps stored now r :
  check_stability deps stored now = Ok (Some r) -> res_Rejections r <> [].
Proof.
  unfold check_stability. destruct (negb _); [done|].
  intros (since & _ & (? & _ & H)%bind_Ok)%bind_Ok.
  destruct (Before now since || _); [by injection H as <-|done].
Qed.

Lemma check_stability_None deps stored now :
  check_stability deps stored now = Ok None ->
  q_TrackedDownloadState (observed_queue stored) = importPending ->
  exists since, chk_StableSince deps (rc_CaseID (as_Request stored)) = Ok since /\
    t_ns since <= t_ns now /\ chk_Stabilization deps <= runner.Sub now since.
Proof.
  unfold check_stability, observed_queue. intros H Hp. rewrite Hp in H.
  rewrite bool_decide_eq_true_2 in H by done. cbn [negb] in H.
  apply bind_Ok in H as (since & Hs & (? & _ & H)%bind_Ok). exists since. split; [done|].
  destruct (Before now since || _) eqn:Hb; [done|]. apply orb_false_iff in Hb as [Hb Ha].
  unfold Before in Hb. apply bool_decide_eq_false in Hb, Ha. lia.
Qed.

(** A decision passes the check only if it is authorized, in the same way, by
    the stored case and by the case inspected now, which are the same but for
    times and rejection codes; if a download that Radarr may still import has
    been stable long enough; if no better file is replaced; and if the worker
    has never seen the join. *)
Theorem check_accepts_current (deps : Dependencies) (stored : Assembly)
    (decision : RepairDecisionV3) (policy : RuntimePolicy) (r : Result) :
  CheckWithPolicy deps stored decision policy = Ok r -> res_Rejections r = [] ->
  Accepted r = true /\
  exists fresh, execution_allowed deps stored fresh decision policy (res_Authorization r).
Proof.
  unfold CheckWithPolicy. intros H Hr.
  apply bind_Ok in H as (answer & Ha & H). unfold panics in Ha.
  destruct (Authorize stored decision policy) as [a|] eqn:Hstored; [|done]. injection Ha as ->.
  destruct (an_Accepted answer) eqn:Hacc; cbn [negb] in H; [|by injection H as <-].
  apply bind_Ok in H as (? & _ & (pending & Hp & H)%bind_Ok).
  destruct pending as [p|]; [injection H as ->; by apply check_stability_rejects in Hp|].
  destruct (chk_Inspect deps _) as [fresh|[|]] eqn:Hi; [|by injection H as <-|done].
  unfold check_fresh in H.
  destruct (bool_decide_reflect (rc_CaseID (as_Request fresh) = rc_CaseID (as_Request stored)))
    as [Hid|]; cbn [negb] in H; [|by injection H as <-].
  apply bind_Ok in H as (answer' & Hf & H). unfold panics in Hf.
  destruct (Authorize fresh decision policy) as [a|] eqn:Hfresh; [|done]. injection Hf as ->.
  destruct (an_Accepted answer') eqn:Hacc'; cbn [negb] in H; [|by injection H as <-].
  destruct (ReplacementRejection fresh _) eqn:Hrep; [by injection H as <-|].
  destruct (bool_decide_reflect (an_Authorization answer' = an_Authorization answer)) as [Heq|];
    cbn [negb] in H; [|by injection H as <-].
  destruct (assemble.SameCaseState stored fresh) eqn:Hsame; cbn [negb] in H; [|by injection H as <-].
  apply bind_Ok in H as ([present|] & Hj & H);
    [injection H as ->; by apply check_join_rejects in Hj|].
  injection H as <-. cbn [res_Authorization].
  apply Authorize_accepted in Hstored, Hfresh; [|done..]. rewrite <-Heq in Hstored. split.
  - unfold Accepted. cbn. by rewrite (authorizes_one _ _ _ _ Hfresh).
  - exists fresh. split; try done.
    + by apply SameCaseState_spec.
    + by apply (check_stability_None deps stored (UTC (chk_Now deps))).
    + by apply ReplacementRejection_None.
    + by apply check_join_None.
Qed.

(** ** Removal candidates *)

(** The movie of a queue record has a file. *)
Definition movie_present (ReadMovie : Z -> result RadarrMovie) (record : RadarrQueueRecord) : Prop :=
  exists movieID movie, q_MovieID record = Some movieID /\ ReadMovie movieID = Ok movie /\
    mv_HasFile movie = true.

Lemma finalization_loop_Ok ReadMovie records complete entries entry :
  (forall movieID hasFile, complete !! movieID = Some hasFile ->
     exists movie, ReadMovie movieID = Ok movie /\ mv_HasFile movie = hasFile) ->
  radarr.finalization_loop ReadMovie records complete = Ok entries ->
  entry ∈ entries <-> exists record, record ∈ records /\ entry = radarr.FinalizationEntry record /\
    queuefinalize.Eligible entry = true /\ movie_present ReadMovie record.
Proof.
  revert complete entries. induction records as [|record records IH]; intros complete entries Hc;
    cbn [radarr.finalization_loop].
  { intros [= <-]. split; [by intros ?%not_elem_of_nil|by intros (? & ?%not_elem_of_nil & _)]. }
  assert (forall entries' : list queuefinalize.Entry, (entry ∈ entries' <-> exists record, record ∈ records /\
      entry = radarr.FinalizationEntry record /\ queuefinalize.Eligible entry = true /\
      movie_present ReadMovie record) ->
    ~ (entry = radarr.FinalizationEntry record /\ queuefinalize.Eligible entry = true /\
       movie_present ReadMovie record) ->
    entry ∈ entries' <-> exists r, r ∈ record :: records /\ entry = radarr.FinalizationEntry r /\
      queuefinalize.Eligible entry = true /\ movie_present ReadMovie r) as Hskip.
  { intros entries' -> Hno. split; intros (r & Hr & Hrest).
    - exists r. split; [by right|done].
    - apply elem_of_cons in Hr as [->|Hr]; [by destruct Hno|]. by exists r. }
  destruct (q_MovieID record) as [movieID|] eqn:Hm.
  2: { intros H. apply Hskip; [by eapply IH|]. intros (_ & _ & id & movie & Hid & _). congruence. }
  destruct (queuefinalize.Eligible (radarr.FinalizationEntry record)) eqn:He; cbn [negb].
  2: { intros H. apply Hskip; [by eapply IH|]. intros (-> & ? & _). congruence. }
  intros (hasFile & Hf & (others & Ho & [= <-])%bind_Ok)%bind_Ok.
  assert (exists movie, ReadMovie movieID = Ok movie /\ mv_HasFile movie = hasFile) as Hmovie.
  { destruct (complete !! movieID) as [known|] eqn:Hk.
    - injection Hf as ->. by apply Hc.
    - apply bind_Ok in Hf as (movie & Hr & [= <-]). by exists movie. }
  eapply IH in Ho.
  2: { intros id has [[<- <-]|[_ H]]%lookup_insert_Some; [done|]. by apply Hc. }
  destruct Hmovie as (movie & Hr & Hhas). destruct hasFile.
  - rewrite elem_of_cons, Ho. split.
    + intros [->|(r & ? & ?)]; [|exists r; split; [by right|done]].
      exists record. split_and!; [by left|done|done|]. by exists movieID, movie.
    + intros (r & [->|Hin]%elem_of_cons & Hrest); [left; apply Hrest|]. right. by exists r.
  - apply Hskip; [done|]. intros (_ & _ & id & m & Hid & Hrm & Hh). congruence.
Qed.

(** The Radarr entries proposed for removal are exactly the eligible ones whose
    movie has a file. *)
Lemma radarr_candidates_complete records ReadMovie entries entry :
  radarr.FinalizationCandidates (Ok records) ReadMovie = Ok entries ->
  entry ∈ entries <-> exists record, record ∈ records /\ entry = radarr.FinalizationEntry record /\
    queuefinalize.Eligible entry = true /\ movie_present ReadMovie record.
Proof.
  unfold radarr.FinalizationCandidates. intros (rs & [= <-] & H)%bind_Ok.
  eapply finalization_loop_Ok; [|done]. intros id has Hl. by rewrite lookup_empty in Hl.
Qed.
