(* ===== verification/Materialize.v ===== *)
(** * Materialising a download

    [worker/materialize]: extracting a tar or RAR archive, or copying the audio
    of a directory, into a workspace below the root, from which the controller
    imports; [worker/cuesheet], which splits an audio image. The executor is a
    program of system calls and tools whose answers are events. Paths are the
    texts the code builds. Closing a descriptor whose result is ignored is left
    out, an error is the list of the errors that [errors.Is] finds in it, and a
    manifest file is the manifest it decodes to. *)
From ITree Require Import ITree.
From stdpp Require Import base strings list gmap sorting pretty.
From Stdlib Require Import Ascii.
From S2P Require Import Prelude GoStrings GoCrypto FileIdentity Probe JsonSchema ProbeDocument Programs.
From S2P Require Import WorkerFiles Inventory.

(** ** Messages (model.go) *)
Module materialize.

Definition SchemaVersion : string := "media-repair-worker/v1".
Definition OperationMaterializeTar : string := "materialize_tar_audio_v1".
Definition OperationMaterializeDirectory : string := "materialize_directory_audio_v1".
Definition OperationMaterializeTarVideo : string := "materialize_tar_video_v1".
Definition OperationMaterializeRAR : string := "materialize_rar_audio_v1".
Definition OperationMaterializeRARVideo : string := "materialize_rar_video_v1".
Definition FailureNoSupportedAudio : string := "no_supported_audio".
Definition FailureInvalidArchive : string := "invalid_archive".
Definition FailureEncryptedArchive : string := "encrypted_archive".
Definition FailureInvalidCueSheet : string := "invalid_cue_sheet".

Definition artifactIdentityDomain : string := "media-repair-artifact-v2" +:+ bytes [0%nat].

Definition ArtifactID (relativePath contentFingerprint : string) : string :=
  "artifact:" +:+ sha256_hex (string_bytes (artifactIdentityDomain +:+ relativePath +:+ bytes [0%nat] +:+
                                            contentFingerprint)).

Record Request := mkRequest
  { rq_SchemaVersion : string; rq_RequestID : string; rq_Operation : string; rq_RootID : string;
    rq_SourceComponents : list string; rq_ExpectedFingerprint : string; rq_WorkspaceID : string }.

(** The evidence stands for the message that [mediaevidence.FromProbe] makes of it. *)
Record Artifact := mkArtifact
  { ar_ArtifactID : string; ar_PathComponents : list string; ar_RelativePath : string;
    ar_SizeBytes : Z; ar_Fingerprint : string; ar_Evidence : option ProbeEvidence }.

Record Success := mkSuccess
  { su_SchemaVersion : string; su_RequestID : string; su_Operation : string; su_RootID : string;
    su_SourceFingerprint : string; su_WorkspaceComponents : list string; su_Artifacts : list Artifact }.

Definition validOperation (operation : string) : bool :=
  bool_decide (operation ∈ [OperationMaterializeTar; OperationMaterializeDirectory;
    OperationMaterializeTarVideo; OperationMaterializeRAR; OperationMaterializeRARVideo]).

(** The characters that [strings.ContainsAny] looks for. *)
Definition contains_any (s : string) (forbidden : list ascii) : bool :=
  existsb (ContainsByte s) forbidden.

Definition backslash : ascii := byte 92.

Definition validComponents (components : list string) : bool :=
  negb (bool_decide (components = [])) && bool_decide (Z.of_nat (length components) <= 64) &&
  forallb (fun component =>
    negb (bool_decide (component = "") || bool_decide (component = ".") || bool_decide (component = "..") ||
          contains_any component [slash; backslash; nul])) components.

(** The pattern [^[a-z][a-z0-9_:-]{0,127}$]. *)
Definition opaque_tail (c : ascii) : bool :=
  let n := Z.of_nat (nat_of_ascii c) in
  (bool_decide (97 <= n <= 122) || bool_decide (48 <= n <= 57) || bool_decide (n = 95) ||
   bool_decide (n = 58) || bool_decide (n = 45)).
Definition opaqueID (s : string) : bool :=
  match s with
  | String c rest =>
      bool_decide (97 <= Z.of_nat (nat_of_ascii c) <= 122) && s_forall opaque_tail rest &&
      bool_decide (String.length rest <= 127)%nat
  | EmptyString => false
  end.

(** The pattern [^sha256:[0-9a-f]{64}$]. *)
Definition fingerprint (s : string) : bool := wire.sha256_pattern s.

Definition archive_operation (operation : string) : bool :=
  bool_decide (operation ∈ [OperationMaterializeTar; OperationMaterializeTarVideo;
    OperationMaterializeRAR; OperationMaterializeRARVideo]).

Definition validateRequest (request : Request) : result unit :=
  _ ← fail_if (negb (bool_decide (rq_SchemaVersion request = SchemaVersion)) ||
               negb (validOperation (rq_Operation request))) "unsupported materialization contract";
  _ ← fail_if (negb (opaqueID (rq_RequestID request)) || negb (opaqueID (rq_RootID request)) ||
               negb (opaqueID (rq_WorkspaceID request))) "invalid materialization identity";
  _ ← fail_if (negb (validComponents (rq_SourceComponents request))) "invalid source path";
  if archive_operation (rq_Operation request)
  then fail_if (negb (fingerprint (rq_ExpectedFingerprint request))) "invalid materialization identity"
  else fail_if (negb (bool_decide (rq_ExpectedFingerprint request = "")))
         "directory materialization cannot supply a fingerprint".

Fixpoint validate_artifacts (seen : list string) (artifacts : list Artifact) : result unit :=
  match artifacts with
  | [] => Ok tt
  | artifact :: rest =>
      _ ← fail_if (negb (opaqueID (ar_ArtifactID artifact)) || negb (fingerprint (ar_Fingerprint artifact)) ||
                   bool_decide (ar_SizeBytes artifact <= 0) || bool_decide (ar_RelativePath artifact = "") ||
                   negb (validComponents (ar_PathComponents artifact)))
            "materialization artifact is incomplete";
      _ ← fail_if (bool_decide (ar_ArtifactID artifact ∈ seen)) "materialization artifact is duplicated";
      validate_artifacts (ar_ArtifactID artifact :: seen) rest
  end.

Record Failure := mkFailure
  { fa_SchemaVersion : string; fa_RequestID : string; fa_Operation : string; fa_Reason : string }.
Record Response := mkResponse
  { rs_Status : string; rs_Success : option Success; rs_Failure : option Failure }.

Definition validateResponse (response : Response) : result unit :=
  match rs_Success response, rs_Failure response with
  | Some success, None =>
      _ ← fail_if (negb (bool_decide (rs_Status response = "ok")))
            "materialization response must contain exactly one result";
      _ ← fail_if (negb (bool_decide (su_SchemaVersion success = SchemaVersion)) ||
                   negb (validOperation (su_Operation success)) || negb (opaqueID (su_RequestID success)) ||
                   negb (opaqueID (su_RootID success)) || negb (fingerprint (su_SourceFingerprint success)) ||
                   negb (validComponents (su_WorkspaceComponents success)) ||
                   bool_decide (su_Artifacts success = []))
            "materialization success is incomplete";
      validate_artifacts [] (su_Artifacts success)
  | None, Some failure =>
      _ ← fail_if (negb (bool_decide (rs_Status response = "failed")))
            "materialization response must contain exactly one result";
      fail_if (negb (bool_decide (fa_SchemaVersion failure = SchemaVersion)) ||
               negb (validOperation (fa_Operation failure)) || negb (opaqueID (fa_RequestID failure)) ||
               bool_decide (fa_Reason failure = ""))
        "materialization failure is incomplete"
  | _, _ => Err "materialization response must contain exactly one result"
  end.

(** The response of an execution. *)
Definition respond (request : Request) (operation : string) (r : Success + string) : Response :=
  match r with
  | inl success => mkResponse "ok" (Some success) None
  | inr reason => mkResponse "failed" None (Some (mkFailure SchemaVersion (rq_RequestID request) operation reason))
  end.

(** ** Errors *)

#[global] Instance FailureKind_eq_dec : EqDecision mediafile.FailureKind.
Proof. solve_decision. Defined.

Inductive mat_atom :=
| FileFailure (kind : mediafile.FailureKind)
| ContextDone
| Sentinel (text : string)
| OtherError (text : string).
#[global] Instance mat_atom_eq_dec : EqDecision mat_atom.
Proof. solve_decision. Defined.

(** The errors in the tree of an error, the first one first. *)
Definition mat_error : Type := list mat_atom.
Definition other (text : string) : mat_error := [OtherError text].
(** [fmt.Errorf("%w: %v", sentinel, err)] keeps only the sentinel. *)
Definition sentinel (text : string) : mat_error := [Sentinel text].

Definition errNoSupportedAudio : string := "source contains no supported audio".
Definition errDirectoryRead : string := "read source directory".
Definition errDirectoryEntry : string := "invalid source directory entry".
Definition errDirectorySymlink : string := "source directory contains a symbolic link".
Definition errDirectorySpecial : string := "source directory contains a special file".
Definition errDirectoryLimit : string := "source directory exceeds limits".
Definition errDirectoryEntryInfo : string := "read source directory entry metadata".
Definition errDirectoryCopy : string := "copy directory audio".
Definition errDirectoryProbe : string := "probe directory audio".
Definition errDirectoryChanged : string := "source directory changed".
Definition errDirectoryCue : string := "invalid cue-backed audio image".
Definition errRARListing : string := "invalid RAR listing".
Definition errRARExtract : string := "RAR extraction failed".
Definition errRARContent : string := "invalid extracted RAR content".
Definition errRAREncrypted : string := "encrypted RAR archive".
Definition ErrInvalid : string := "invalid cue sheet".

Definition Is (e : mat_error) (text : string) : bool := bool_decide (Sentinel text ∈ e).
Definition IsContext (e : mat_error) : bool := bool_decide (ContextDone ∈ e).

(** [errors.As] finds the first failure of [mediafile]. *)
Fixpoint As_failure (e : mat_error) : option mediafile.FailureKind :=
  match e with
  | [] => None
  | FileFailure kind :: _ => Some kind
  | _ :: rest => As_failure rest
  end.

Definition file_reason (e : mat_error) : option string :=
  match As_failure e with
  | Some mediafile.FailureUnknownRoot => Some "unknown_root"
  | Some mediafile.FailureInvalidPath => Some "invalid_path"
  | Some mediafile.FailureFileUnavailable => Some "file_unavailable"
  | Some mediafile.FailureNotRegularFile => Some "not_regular_file"
  | Some mediafile.FailureFingerprintMismatch => Some "fingerprint_mismatch"
  | _ => None
  end.

Definition reasonForError (e : mat_error) : string :=
  match file_reason e with
  | Some reason => reason
  | None => if IsContext e then "timeout" else FailureInvalidArchive
  end.

Definition directory_reasons : list (string * string) :=
  [(errNoSupportedAudio, FailureNoSupportedAudio); (errDirectoryRead, "directory_read_failed");
   (errDirectoryEntry, "invalid_directory_entry"); (errDirectorySymlink, "directory_contains_symlink");
   (errDirectorySpecial, "directory_contains_special_file"); (errDirectoryLimit, "directory_limit_exceeded");
   (errDirectoryEntryInfo, "directory_entry_info_failed"); (errDirectoryCopy, "copy_failed");
   (errDirectoryProbe, "probe_failed"); (errDirectoryChanged, "source_changed");
   (errDirectoryCue, FailureInvalidCueSheet)].

Definition reasonForDirectoryError (e : mat_error) : string :=
  match List.find (fun p => Is e p.1) directory_reasons with
  | Some p => p.2
  | None =>
      match file_reason e with
      | Some reason => reason
      | None => if IsContext e then "timeout" else "invalid_directory"
      end
  end.

Definition reasonForRARError (e : mat_error) : string :=
  if IsContext e then "timeout"
  else if Is e errRAREncrypted then FailureEncryptedArchive
  else if Is e errRARListing then FailureInvalidArchive
  else if Is e errRARExtract then "extract_failed"
  else FailureInvalidArchive.

(** ** Names in archives *)

Definition unsafe_component (component : string) : bool :=
  bool_decide (component = "") || bool_decide (component = ".") || bool_decide (component = "..") ||
  bool_decide (255 < String.length component)%nat.

Definition trim_suffix (s : string) : string :=
  if HasSuffix s "/" then s_take (String.length s - 1) s else s.

Definition safeArchiveName (name : string) (directory : bool) : result string :=
  let name := if directory then trim_suffix name else name in
  _ ← fail_if (bool_decide (name = "") || contains_any name [backslash; nul] || HasPrefix name "/")
        "archive path is unsafe";
  let clean := filepath.Clean name in
  _ ← fail_if (bool_decide (clean = ".") || bool_decide (clean = "..") || HasPrefix clean "../" ||
               negb (bool_decide (clean = name))) "archive path is unsafe";
  _ ← fail_if (existsb unsafe_component (split_on slash clean)) "archive path is unsafe";
  mret clean.

Definition audioExtensions : list string :=
  [".flac"; ".wav"; ".ape"; ".wv"; ".wvp"; ".m4a"; ".mp3"; ".ogg"; ".opus"].
Definition videoExtensions : list string := [".ts"; ".m2ts"; ".mp4"; ".mkv"; ".avi"].

Definition supported (extensions : list string) (name : string) : bool :=
  bool_decide (ToLower (filepath.Ext name) ∈ extensions).

Definition workspaceDirectory : string := ".media-repair".
Definition workspaceManifest : string := ".materialization.json".
Definition manifestVersion : string := "media-repair-workspace/v3".
Definition maximumEntries : Z := 4096.
Definition maximumFileBytes : Z := 8 * 2 ^ 30.
Definition maximumTotalBytes : Z := 32 * 2 ^ 30.

Record manifest := mkManifest
  { ma_Version : string; ma_SourceOperation : string; ma_SourceFingerprint : string; ma_Success : Success }.

(** ** Events *)

Abbreviation handle := Z (only parsing).

Record PathInfo := mkPathInfo
  { pi_Type : filesystem.file_type; pi_Size : Z; pi_Gid : option Z }.

Inductive path_error := NotExist | PathError.

(** What [fstatat] says of an entry of a source directory. *)
Record ChildStat := mkChildStat { cs_Type : filesystem.file_type; cs_Snapshot : Snapshot }.

Inductive typeflag := TypeDir | TypeReg | OtherType.
Record Header := mkHeader { hd_Name : string; hd_Type : typeflag; hd_Size : Z }.

(** Where the bytes of a copy come from. *)
Inductive source := TarMember (archive : handle) | OpenedFile (f : handle) | ExtractedFile (path : string).

(** One call of the function that [filepath.WalkDir] is given. *)
Record WalkCall := mkWalkCall
  { wk_Path : string; wk_Error : option mat_error; wk_IsDir : bool; wk_Info : PathInfo + mat_error }.

(** The tool fails, and may say that the image has no cue sheet. *)
Inductive wavpack_error := TagNotFound | WavPackError.

Variant materializeE : Type -> Type :=
| ContextErr : materializeE (option mat_error)
| OpenSource (rootID : string) (components : list string) (expected : string) : materializeE (handle + mat_error)
| OpenSourceDirectory (rootID : string) (components : list string) : materializeE (handle + mat_error)
| ReadChildren (d : handle) : materializeE (list string + mat_error)
| Fstatat (d : handle) (name : string) : materializeE (ChildStat + mat_error)
| CloseSource (f : handle) : materializeE (option mat_error)
| StatSource (f : handle) : materializeE (Snapshot + mat_error)
| VerifySource (f : handle) (expected : string) : materializeE (option mat_error)
| RootPath (rootID : string) : materializeE (string + mat_error)
| Lstat (path : string) : materializeE (PathInfo + path_error)
| ReadManifest (path : string) : materializeE (manifest + mat_error)
| WriteManifest (path : string) (m : manifest) : materializeE (option mat_error)
| MkdirAll (path : string) (mode : Z) : materializeE (option mat_error)
| Mkdir (path : string) (mode : Z) : materializeE (option mat_error)
| Chown (path : string) (gid : Z) : materializeE (option mat_error)
| Chmod (path : string) (mode : Z) : materializeE (option mat_error)
| RemoveAll (path : string) : materializeE (option mat_error)
| Rename (old new : string) : materializeE (option mat_error)
| CreateExcl (path : string) : materializeE (option mat_error)
| OpenExtracted (path : string) : materializeE (option mat_error)
| Copy (from : source) (limit : option Z) (path : string) : materializeE (string * option mat_error)
| ReadBack (path : string) : materializeE (string * option mat_error)
| TarNext (archive : handle) : materializeE (option Header + mat_error)
| Probe (path : string) : materializeE (ProbeEvidence + mat_error)
| ListRAR (archive : handle) : materializeE (string + mat_error)
| UnpackRAR (archive : handle) (destination : string) : materializeE (option mat_error)
| WalkNext (path : string) : materializeE (option WalkCall)
| CueConvert (f : handle) : materializeE (string + mat_error)
| CueBreakpoints (f : handle) : materializeE (string + mat_error)
| ExtractWavPackCue (f : handle) : materializeE (string + wavpack_error)
| StoreTemporary (cue : string) : materializeE (handle + mat_error)
| RemoveTemporary (f : handle) : materializeE (option mat_error)
| CutTrack (f : handle) (start : string) (length : option string) (output : string)
    : materializeE (option mat_error).

(** Programs that return a value or fail with an [Err]. *)
Definition program (Err A : Type) : Type := itree materializeE (A + Err).

#[global] Instance program_ret Err : MRet (program Err) := fun _ a => Ret (inl a).
#[global] Instance program_bind Err : MBind (program Err) := fun _ _ f p =>
  ITree.bind p (fun r => match r with inl a => f a | inr e => Ret (inr e) end).

Definition throw {Err A} (e : Err) : program Err A := Ret (inr e).
Definition fail_when {Err} (condition : bool) (e : Err) : program Err unit :=
  if condition then throw e else mret tt.
Definition perform {Err A} (e : materializeE A) : program Err A :=
  ITree.bind (ITree.trigger e) (fun a => Ret (inl a)).
(** A call with an error, which [f] turns into that of the caller. *)
Definition call {Err E A} (f : E -> Err) (e : materializeE (A + E)) : program Err A :=
  r ← perform e; match r with inl a => mret a | inr e => throw (f e) end.
Definition check {Err E} (f : E -> Err) (e : materializeE (option E)) : program Err unit :=
  r ← perform e; match r with None => mret tt | Some e => throw (f e) end.
Definition attempt {Err Err' A} (p : program Err A) : program Err' (A + Err) :=
  ITree.bind p (fun r => Ret (inl r)).
Definition with_error {Err Err' A} (f : Err -> Err') (p : program Err A) : program Err' A :=
  ITree.bind p (fun r => Ret (match r with inl a => inl a | inr e => inr (f e) end)).
Definition loop {Err A B} (body : A -> program Err (A + B)) (a : A) : program Err B :=
  ITree.iter (fun a => ITree.bind (body a) (fun r => Ret
    (match r with inl (inl a) => inl a | inl (inr b) => inr (inl b) | inr e => inr (inr e) end))) a.
Definition of_result {Err A} (f : error -> Err) (r : result A) : program Err A :=
  match r with Ok a => mret a | Err e => throw (f e) end.
(** [errors.Join] of what may be nil. *)
Definition join_errors (errors : list (option mat_error)) : option mat_error :=
  match omap id errors with [] => None | es => Some (concat es) end.

(** [filepath.Join] of several elements. *)
Definition join_path (elements : list string) : string :=
  match List.filter (fun e => negb (bool_decide (e = ""))) elements with
  | [] => ""
  | kept => filepath.Clean (join_slash kept)
  end.

(** ** Workspaces *)

Definition ensureWorkspaceDirectory (directory : string) (groupID : Z) : program mat_error unit :=
  _ ← check id (MkdirAll directory 488);
  _ ← check id (Chown directory groupID);
  check id (Chmod directory 488).

Definition is_directory (info : PathInfo) : bool := bool_decide (pi_Type info = filesystem.Directory).
Definition is_regular (info : PathInfo) : bool := bool_decide (pi_Type info = filesystem.Regular).

Definition workspaceGroup (rootPath : string) : program mat_error Z :=
  info ← call (fun _ : path_error => other "inspect workspace base")
           (Lstat (filepath.Join rootPath workspaceDirectory));
  _ ← fail_when (negb (is_directory info)) (other "workspace base is unsafe");
  match pi_Gid info with
  | None => throw (other "workspace base has unsupported metadata")
  | Some gid => mret gid
  end.

Definition prepareWorkspace (rootPath partialPath completedPath : string) (groupID : Z)
    : program mat_error unit :=
  _ ← workspaceGroup rootPath;
  _ ← ensureWorkspaceDirectory (filepath.Dir partialPath) groupID;
  r ← perform (Lstat completedPath);
  _ ← match r with
      | inl _ => throw (other "workspace already exists")
      | inr PathError => throw (other "inspect workspace")
      | inr NotExist => mret tt
      end;
  _ ← check id (RemoveAll partialPath);
  _ ← check id (Mkdir partialPath 488);
  _ ← check id (Chown partialPath groupID);
  check id (Chmod partialPath 488).

Definition clearWorkspace (workspacePath : string) : program mat_error unit :=
  r ← perform (Lstat workspacePath);
  match r with
  | inr NotExist => mret tt
  | inr PathError => throw (other "inspect workspace")
  | inl info =>
      _ ← fail_when (negb (is_directory info)) (other "completed workspace is unsafe");
      check id (RemoveAll workspacePath)
  end.

Definition writeManifest (workspacePath operation sourceFingerprint : string) (success : Success)
    : program mat_error unit :=
  let path := filepath.Join workspacePath workspaceManifest in
  _ ← check id (WriteManifest path (mkManifest manifestVersion operation sourceFingerprint success));
  check id (Chmod path 384).

Definition with_request (requestID : string) (success : Success) : Success :=
  mkSuccess (su_SchemaVersion success) requestID (su_Operation success) (su_RootID success)
    (su_SourceFingerprint success) (su_WorkspaceComponents success) (su_Artifacts success).

Fixpoint load_artifacts (workspacePath : string) (workspaceComponents : list string)
    (artifacts : list Artifact) : program mat_error unit :=
  match artifacts with
  | [] => mret tt
  | artifact :: rest =>
      name ← of_result other (safeArchiveName (ar_RelativePath artifact) false);
      _ ← fail_when (negb (bool_decide (ar_PathComponents artifact =
                             workspaceComponents ++ split_on slash name)))
            (other "workspace artifact identity is invalid");
      info ← call (fun _ : path_error => other "workspace artifact is unavailable")
               (Lstat (filepath.Join workspacePath name));
      _ ← fail_when (negb (is_regular info) || negb (bool_decide (pi_Size info = ar_SizeBytes artifact)))
            (other "workspace artifact is unavailable");
      load_artifacts workspacePath workspaceComponents rest
  end.

Definition loadWorkspace (workspacePath : string) (request : Request) (workspaceComponents : list string)
    (sourceFingerprint : string) : program mat_error (option Success) :=
  r ← perform (Lstat workspacePath);
  match r with
  | inr NotExist => mret None
  | inr PathError => throw (other "inspect workspace")
  | inl info =>
      _ ← fail_when (negb (is_directory info)) (other "completed workspace is unsafe");
      stored ← call (fun e : mat_error => e) (ReadManifest (filepath.Join workspacePath workspaceManifest));
      let success := ma_Success stored in
      _ ← fail_when (negb (bool_decide (ma_Version stored = manifestVersion)) ||
                     negb (bool_decide (ma_SourceOperation stored = rq_Operation request)) ||
                     negb (bool_decide (ma_SourceFingerprint stored = sourceFingerprint)) ||
                     negb (bool_decide (su_Operation success = rq_Operation request)) ||
                     negb (bool_decide (su_SourceFingerprint success = sourceFingerprint)) ||
                     negb (bool_decide (su_RootID success = rq_RootID request)) ||
                     negb (bool_decide (su_WorkspaceComponents success = workspaceComponents)))
            (other "workspace manifest identity does not match request");
      _ ← load_artifacts workspacePath workspaceComponents (su_Artifacts success);
      let success := with_request (rq_RequestID request) success in
      _ ← of_result other (validateResponse (mkResponse "ok" (Some success) None));
      mret (Some success)
  end.

(** ** Copying a file into the workspace *)

(** The file is created, filled and given to the group; its digest is of what
    was written. *)
Definition store_file (from : source) (limit : option Z) (destination : string) (size groupID : Z)
    : program mat_error string :=
  _ ← check id (CreateExcl destination);
  r ← perform (Copy from limit destination);
  let '(content, copyErr) := r in
  _ ← fail_when (bool_decide (copyErr <> None) || negb (bool_decide (Z.of_nat (String.length content) = size)))
        (match copyErr with Some e => (e ++ other "short member")%list | None => other "short member" end);
  _ ← check id (Chmod destination 416);
  _ ← check id (Chown destination groupID);
  mret ("sha256:" +:+ sha256_hex (string_bytes content)).

Definition copied (workspaceComponents : list string) (name : string) (size : Z) (content_fingerprint : string)
    : Artifact :=
  mkArtifact (ArtifactID name content_fingerprint) (workspaceComponents ++ split_on slash name)%list name size
    content_fingerprint None.

Definition with_evidence (evidence : ProbeEvidence) (artifact : Artifact) : Artifact :=
  mkArtifact (ar_ArtifactID artifact) (ar_PathComponents artifact) (ar_RelativePath artifact)
    (ar_SizeBytes artifact) (ar_Fingerprint artifact) (Some evidence).

(** [copyDirectoryFile] and, with a limit, [extractFile]. *)
Definition place_file (from : source) (limit : option Z) (workspacePath : string)
    (workspaceComponents : list string) (name : string) (size groupID : Z) : program mat_error Artifact :=
  let destination := filepath.Join workspacePath name in
  _ ← ensureWorkspaceDirectory (filepath.Dir destination) groupID;
  content_fingerprint ← store_file from limit destination size groupID;
  mret (copied workspaceComponents name size content_fingerprint).

Definition copyDirectoryFile (input : source) (workspacePath : string) (workspaceComponents : list string)
    (relative : string) (size groupID : Z) : program mat_error Artifact :=
  place_file input None workspacePath workspaceComponents relative size groupID.

(** The flag says that the member has one of the extensions. *)
Definition extractFile (archive : handle) (workspacePath : string) (workspaceComponents : list string)
    (name : string) (size groupID : Z) (extensions : list string) : program mat_error (Artifact * bool) :=
  artifact ← place_file (TarMember archive) (Some size) workspacePath workspaceComponents name size groupID;
  mret (artifact, supported extensions name).

Definition artifact_le (a b : Artifact) : Prop := string_le (ar_RelativePath a) (ar_RelativePath b).
#[global] Instance artifact_le_dec : RelDecision artifact_le.
Proof. intros a b. unfold artifact_le. apply _. Defined.

(** ** Tar archives *)

Record tar_state := mktar_state
  { ts_entries : Z; ts_total : Z; ts_seen : list string; ts_artifacts : list Artifact }.

Definition extract_member (archive : handle) (workspacePath : string) (workspaceComponents : list string)
    (groupID : Z) (extensions : list string) (header : Header) (st : tar_state)
    : program mat_error tar_state :=
  let entries := ts_entries st + 1 in
  _ ← fail_when (bool_decide (maximumEntries < entries)) (other "archive contains too many entries");
  name ← of_result other (safeArchiveName (hd_Name header) (match hd_Type header with TypeDir => true | _ => false end));
  _ ← fail_when (bool_decide (name ∈ ts_seen st)) (other "archive repeats path");
  let seen := name :: ts_seen st in
  match hd_Type header with
  | TypeDir =>
      _ ← ensureWorkspaceDirectory (filepath.Join workspacePath name) groupID;
      mret (mktar_state entries (ts_total st) seen (ts_artifacts st))
  | TypeReg =>
      let size := hd_Size header in
      _ ← fail_when (bool_decide (size < 0) || bool_decide (maximumFileBytes < size) ||
                     bool_decide (maximumTotalBytes - size < ts_total st))
            (other "archive expansion exceeds limits");
      let total := ts_total st + size in
      r ← extractFile archive workspacePath workspaceComponents name size groupID extensions;
      let '(artifact, audio) := r in
      if negb audio then mret (mktar_state entries total seen (ts_artifacts st))
      else
        evidence ← call (fun e : mat_error => e) (Probe (filepath.Join workspacePath name));
        mret (mktar_state entries total seen (ts_artifacts st ++ [with_evidence evidence artifact])%list)
  | OtherType => throw (other "archive entry is not a regular file or directory")
  end.

Definition extractAndProbe (archive : handle) (workspacePath : string) (workspaceComponents : list string)
    (groupID : Z) (extensions : list string) : program mat_error (list Artifact) :=
  artifacts ← loop (fun st =>
    _ ← check id ContextErr;
    header ← call id (TarNext archive);
    match header with
    | None => mret (inr (ts_artifacts st))
    | Some header =>
        st ← extract_member archive workspacePath workspaceComponents groupID extensions header st;
        mret (inl st)
    end) (mktar_state 0 0 [] []);
  _ ← fail_when (bool_decide (artifacts = [])) (other "archive contains no supported media");
  mret (merge_sort artifact_le artifacts).

(** ** RAR archives (rar_linux.go) *)

Record rarEntry := mkrarEntry
  { re_FileName : string; re_FileSize : option Z; re_IsDirectory : bool; re_IsLink : bool;
    re_IsEncrypted : bool }.
Record rarListing := mkrarListing { rl_FormatVersion : Z; rl_Contents : list rarEntry }.

Fixpoint validate_entries (seen : list string) (total : Z) (entries : list rarEntry) : unit + mat_error :=
  match entries with
  | [] => inl tt
  | entry :: rest =>
      match safeArchiveName (re_FileName entry) (re_IsDirectory entry) with
      | Err _ => inr (sentinel errRARListing)
      | Ok name =>
          if bool_decide (name ∈ seen) then inr (sentinel errRARListing)
          else if re_IsEncrypted entry then inr (sentinel errRAREncrypted)
          else if re_IsLink entry then inr (sentinel errRARListing)
          else if re_IsDirectory entry then validate_entries (name :: seen) total rest
          else
            match re_FileSize entry with
            | None => inr (sentinel errRARListing)
            | Some size =>
                if bool_decide (size < 0) || bool_decide (maximumFileBytes < size) ||
                   bool_decide (maximumTotalBytes - size < total)
                then inr (sentinel errRARListing)
                else validate_entries (name :: seen) (total + size) rest
            end
      end
  end.

(** What [encoding/json] makes of a listing. *)
Class ListingCodec := UnmarshalListing : string -> result rarListing.

Section executor.
Context {listings : ListingCodec}.

Definition validateRARListing (data : string) : unit + mat_error :=
  match UnmarshalListing data with
  | Err _ => inr (sentinel errRARListing)
  | Ok listing =>
      let count := Z.of_nat (length (rl_Contents listing)) in
      if negb (bool_decide (rl_FormatVersion listing = 2)) || bool_decide (count = 0) ||
         bool_decide (maximumEntries < count)
      then inr (sentinel errRARListing)
      else validate_entries [] 0 (rl_Contents listing)
  end.

Definition of_sum {Err A} (r : A + Err) : program Err A :=
  match r with inl a => mret a | inr e => throw e end.

Definition Extract (archive : handle) (destination : string) : program mat_error unit :=
  data ← call (fun _ : mat_error => sentinel errRARListing) (ListRAR archive);
  _ ← of_sum (validateRARListing data);
  check (fun _ : mat_error => sentinel errRARExtract) (UnpackRAR archive destination).

Record walk_state := mkwalk_state { ws_entries : Z; ws_total : Z; ws_artifacts : list Artifact }.

(** A file below the quarantine, copied into the workspace if it is media. *)
Definition collect_file (quarantine workspacePath : string) (workspaceComponents : list string)
    (groupID : Z) (extensions : list string) (st : walk_state) (call_ : WalkCall)
    : program mat_error walk_state :=
  let entries := ws_entries st + 1 in
  _ ← fail_when (bool_decide (maximumEntries < entries)) (sentinel errRARContent);
  name ← of_result (fun _ => sentinel errRARContent)
           (safeArchiveName (filepath.Rel quarantine (wk_Path call_)) (wk_IsDir call_));
  info ← of_sum (match wk_Info call_ with inl info => inl info | inr _ => inr (sentinel errRARContent) end);
  _ ← fail_when (negb (is_directory info) && negb (is_regular info)) (sentinel errRARContent);
  if is_directory info then mret (mkwalk_state entries (ws_total st) (ws_artifacts st))
  else
    let size := pi_Size info in
    _ ← fail_when (bool_decide (size < 0) || bool_decide (maximumFileBytes < size) ||
                   bool_decide (maximumTotalBytes - size < ws_total st)) (sentinel errRARContent);
    let total := ws_total st + size in
    if negb (supported extensions name) then mret (mkwalk_state entries total (ws_artifacts st))
    else
      _ ← check id (OpenExtracted (wk_Path call_));
      artifact ← copyDirectoryFile (ExtractedFile (wk_Path call_)) workspacePath workspaceComponents name
                   size groupID;
      evidence ← call id (Probe (filepath.Join workspacePath name));
      mret (mkwalk_state entries total (ws_artifacts st ++ [with_evidence evidence artifact])%list).

(** The function that [filepath.WalkDir] is given. *)
Definition visit_extracted (quarantine workspacePath : string) (workspaceComponents : list string)
    (groupID : Z) (extensions : list string) (st : walk_state) (call_ : WalkCall)
    : program mat_error walk_state :=
  _ ← of_sum (match wk_Error call_ with Some e => inr e | None => inl tt end);
  _ ← check id ContextErr;
  if bool_decide (wk_Path call_ = quarantine) then mret st
  else collect_file quarantine workspacePath workspaceComponents groupID extensions st call_.

(** The walk calls it until it fails or there are no more files. *)
Definition collectExtractedMedia (quarantine workspacePath : string) (workspaceComponents : list string)
    (groupID : Z) (extensions : list string) : program mat_error (list Artifact) :=
  artifacts ← loop (fun st =>
    next ← perform (WalkNext quarantine);
    match next with
    | None => mret (inr (ws_artifacts st))
    | Some call_ =>
        st ← visit_extracted quarantine workspacePath workspaceComponents groupID extensions st call_;
        mret (inl st)
    end) (mkwalk_state 0 0 []);
  _ ← fail_when (bool_decide (artifacts = [])) (sentinel errRARContent);
  mret (merge_sort artifact_le artifacts).

(** ** Cue sheets (worker/cuesheet) *)

Definition maximumTracks : Z := 99.
Definition MaximumBytes : Z := 2 ^ 20.
Definition maximum_line : Z := 65536.
Definition second : Z := 10 ^ 9.

Record Plan := mkPlan { pl_Starts : list Z }.

Definition newline : ascii := byte 10.

(** The lines of [bufio.Scanner]; white space is trimmed by the callers. *)
Definition lines (data : string) : list string :=
  let parts := split_on newline data in
  match rev parts with
  | EmptyString :: rest => rev rest
  | _ => parts
  end.

(** A line that does not fit in the buffer ends the scan with an error. *)
Definition too_long (line : string) : bool := bool_decide (maximum_line <= Z.of_nat (String.length line)).

Fixpoint count_tracks (tracks : Z) (lines : list string) : result Z :=
  match lines with
  | [] => Ok tracks
  | line :: rest =>
      if too_long line then Err ErrInvalid
      else
        let line := TrimSpace line in
        if negb (HasPrefix line "TRACK ") then count_tracks tracks rest
        else if negb (bool_decide (line = "TRACK AUDIO")) then Err ErrInvalid
        else count_tracks (tracks + 1) rest
  end.

Definition audioTrackCount (toc : string) : result Z :=
  tracks ← count_tracks 0 (lines toc);
  _ ← fail_if (bool_decide (tracks < 2) || bool_decide (maximumTracks < tracks)) ErrInvalid;
  mret tracks.

Definition colon : ascii := byte 58.

(** Minutes, seconds and frames of a seventy-fifth of a second; the sum of
    durations is computed in 64 bits. *)
Definition parse_breakpoint (line : string) : result Z :=
  match split_on colon line with
  | [minutes; rest] =>
      match split_on dot rest with
      | [seconds; frames] =>
          match ffprobe.ParseInt minutes, ffprobe.ParseInt seconds, ffprobe.ParseInt frames with
          | Some minutes, Some seconds, Some frames =>
              if bool_decide (minutes < 0) || bool_decide (seconds < 0) || bool_decide (60 <= seconds) ||
                 bool_decide (frames < 0) || bool_decide (75 <= frames)
              then Err ErrInvalid
              else Ok (add64 (add64 (mul64 minutes (60 * second)) (seconds * second)) (frames * second `quot` 75))
          | _, _, _ => Err ErrInvalid
          end
      | _ => Err ErrInvalid
      end
  | _ => Err ErrInvalid
  end.

(** The starts so far, the last one first. *)
Fixpoint breakpoints (found : list Z) (lines : list string) : result (list Z) :=
  match lines with
  | [] => Ok (rev found)
  | line :: rest =>
      if too_long line then Err ErrInvalid
      else
        start ← parse_breakpoint (TrimSpace line);
        _ ← fail_if (bool_decide (start <= default 0 (head found)) ||
                     bool_decide (maximumTracks - 1 <= Z.of_nat (length found))) ErrInvalid;
        breakpoints (start :: found) rest
  end.

Definition parseBreakpoints (data : string) : result (list Z) := breakpoints [] (lines data).

Definition invalid_cue {A} (_ : A) : mat_error := sentinel ErrInvalid.

Definition Inspect (input : handle) : program mat_error Plan :=
  toc ← call (@invalid_cue mat_error) (CueConvert input);
  tracks ← of_result invalid_cue (audioTrackCount toc);
  output ← call (@invalid_cue mat_error) (CueBreakpoints input);
  starts ← of_result invalid_cue (parseBreakpoints output);
  _ ← fail_when (negb (bool_decide (Z.of_nat (length starts) = tracks - 1))) (sentinel ErrInvalid);
  mret (mkPlan (0 :: starts)).

(** Without a cue sheet in the image there is no plan. *)
Definition InspectEmbedded (input : handle) : program mat_error (option Plan) :=
  r ← perform (ExtractWavPackCue input);
  match r with
  | inr e =>
      done ← perform ContextErr;
      match done, e with
      | Some e, _ => throw e
      | None, TagNotFound => mret None
      | None, WavPackError => throw (sentinel ErrInvalid)
      end
  | inl cue =>
      _ ← fail_when (bool_decide (cue = "")) (sentinel ErrInvalid);
      temporary ← call id (StoreTemporary cue);
      inspected ← attempt (Inspect temporary);
      closed ← perform (CloseSource temporary);
      _ ← perform (RemoveTemporary temporary);
      match inspected, closed with
      | inl plan, None => mret (Some plan)
      | inl _, Some e => throw e
      | inr e, None => throw e
      | inr e, Some e' => throw (e ++ e')%list
      end
  end.

Definition pad (width : nat) (n : Z) : string :=
  let digits := pretty n in
  String.concat "" (replicate (width - String.length digits) "0") +:+ digits.

(** [%d.%06d] of the microseconds of a time that is not negative. *)
Definition cueTime (value : Z) : string :=
  let microseconds := value `quot` 1000 in
  pretty (microseconds `quot` 1000000) +:+ "." +:+ pad 6 (microseconds `rem` 1000000).

Definition track_name (index : nat) : string := pad 2 (Z.of_nat index + 1) +:+ ".flac".

Fixpoint cut_tracks (input : handle) (destination : string) (index : nat) (starts : list Z)
    (outputs : list string) : program mat_error (list string) :=
  match starts with
  | [] => mret outputs
  | start :: rest =>
      _ ← check id ContextErr;
      let name := track_name index in
      let length := match rest with next :: _ => Some (cueTime (sub64 next start)) | [] => None end in
      _ ← check id (CutTrack input (cueTime start) length (filepath.Join destination name));
      cut_tracks input destination (S index) rest (outputs ++ [name])%list
  end.

Definition Split (input : handle) (plan : Plan) (destination : string) : program mat_error (list string) :=
  let count := Z.of_nat (length (pl_Starts plan)) in
  _ ← fail_when (bool_decide (count < 2) || bool_decide (maximumTracks < count) ||
                 negb (filepath.IsAbs destination)) (sentinel ErrInvalid);
  cut_tracks input destination 0 (pl_Starts plan) [].

(** ** Directories *)

Record directoryFile := mkdirectoryFile
  { df_components : list string; df_relative : string; df_snapshot : Snapshot }.
Record cuePlan := mkcuePlan { cp_plan : Plan; cp_image : directoryFile }.
Record directorySource := mkdirectorySource
  { ds_files : list directoryFile; ds_cueFiles : list directoryFile; ds_cue : option cuePlan;
    ds_fingerprint : string }.

Record scan_state := mkscan_state
  { sc_entries : Z; sc_files : list directoryFile; sc_cueFiles : list directoryFile; sc_bytes : Z }.

Definition cueCandidate (name : string) : bool :=
  let lower := ToLower name in HasSuffix lower ".cue" || HasSuffix lower ".cue.txt".

Definition bad_child (name : string) : bool :=
  bool_decide (name = "") || bool_decide (name = ".") || bool_decide (name = "..") ||
  contains_any name [slash; nul] || bool_decide (255 < String.length name)%nat.

(** A regular file, if it is audio or a cue sheet. *)
Definition scan_file (name : string) (absolute relative : list string) (snapshot : Snapshot)
    (st : scan_state) : scan_state + mat_error :=
  let audio := supported audioExtensions name in
  let isCue := cueCandidate name in
  if negb audio && negb isCue then inl st
  else
    match safeArchiveName name false with
    | Err _ => inr (sentinel errDirectoryEntry)
    | Ok _ =>
        let maximumBytes := if isCue then MaximumBytes else maximumFileBytes in
        let size := SizeBytes snapshot in
        if bool_decide (size <= 0) || bool_decide (maximumBytes < size) ||
           bool_decide (maximumTotalBytes - size < sc_bytes st)
        then inr (sentinel errDirectoryLimit)
        else
          let observed := mkdirectoryFile absolute (join_slash relative) snapshot in
          inl (if audio
               then mkscan_state (sc_entries st) (sc_files st ++ [observed])%list (sc_cueFiles st) (sc_bytes st + size)
               else mkscan_state (sc_entries st) (sc_files st) (sc_cueFiles st ++ [observed])%list (sc_bytes st + size))
    end.

(** The visit of a directory whose children are visited by [visit_child]. *)
Fixpoint visit_children (visit_child : list string -> list string -> scan_state -> program mat_error scan_state)
    (d : handle) (absoluteComponents relativeComponents : list string) (children : list string)
    (st : scan_state) : program mat_error scan_state :=
  match children with
  | [] => mret st
  | name :: rest =>
      let entries := sc_entries st + 1 in
      _ ← fail_when (bool_decide (maximumEntries < entries)) (sentinel errDirectoryLimit);
      _ ← fail_when (bad_child name) (sentinel errDirectoryEntry);
      stat ← call (fun _ : mat_error => sentinel errDirectoryEntryInfo) (Fstatat d name);
      let st := mkscan_state entries (sc_files st) (sc_cueFiles st) (sc_bytes st) in
      let absolute := (absoluteComponents ++ [name])%list in
      let relative := (relativeComponents ++ [name])%list in
      st ← match cs_Type stat with
           | filesystem.Directory =>
               _ ← of_result (fun _ => sentinel errDirectoryEntry) (safeArchiveName name false);
               visit_child absolute relative st
           | filesystem.Symlink => throw (sentinel errDirectorySymlink)
           | filesystem.Special => throw (sentinel errDirectorySpecial)
           | filesystem.Regular => of_sum (scan_file name absolute relative (cs_Snapshot stat) st)
           end;
      visit_children visit_child d absoluteComponents relativeComponents rest st
  end.

(** At most 64 levels, the number of those below being the recursion. *)
Fixpoint visit (rootID : string) (below : nat) (absoluteComponents relativeComponents : list string)
    (st : scan_state) : program mat_error scan_state :=
  _ ← check id ContextErr;
  d ← call id (OpenSourceDirectory rootID absoluteComponents);
  visited ← attempt
    (children ← call (fun _ : mat_error => sentinel errDirectoryRead) (ReadChildren d);
     visit_children
       (match below with
        | O => fun _ _ _ => throw (sentinel errDirectoryLimit)
        | S below => visit rootID below
        end) d absoluteComponents relativeComponents (merge_sort string_le children) st);
  closed ← perform (CloseSource d);
  match visited, closed with
  | inl st, None => mret st
  | inl _, Some _ => throw (sentinel errDirectoryRead)
  | inr e, None => throw e
  | inr e, Some _ => throw (e ++ sentinel errDirectoryRead)%list
  end.

(** Opening a source, reading it with [p], and verifying that it is unchanged. *)
Definition read_source {A} (rootID : string) (file : directoryFile) (p : handle -> program mat_error A)
    : program mat_error ((A + mat_error) * option mat_error * option mat_error) :=
  input ← call (fun _ : mat_error => sentinel errDirectoryCue)
            (OpenSource rootID (df_components file) (StrictFingerprint (df_snapshot file)));
  inspected ← attempt (p input);
  verified ← perform (VerifySource input (StrictFingerprint (df_snapshot file)));
  closed ← perform (CloseSource input);
  mret (inspected, verified, closed).

Definition is_wavpack (name : string) : bool :=
  let extension := ToLower (filepath.Ext name) in
  bool_decide (extension = ".wv") || bool_decide (extension = ".wvp").

(** Whether the executor has a handler of cue sheets, and one of RAR archives. *)
Context (has_cue has_rar : bool).

Definition readEmbeddedCuePlan (rootID : string) (audioFiles : list directoryFile)
    : program mat_error (option cuePlan) :=
  match audioFiles with
  | [image] =>
      if negb (is_wavpack (df_relative image)) then mret None
      else
        _ ← fail_when (negb has_cue) (sentinel errDirectoryCue);
        r ← read_source rootID image InspectEmbedded;
        match r with
        | (inl None, None, None) => mret None
        | (inl (Some plan), None, None) => mret (Some (mkcuePlan plan image))
        | _ => throw (sentinel errDirectoryCue)
        end
  | _ => mret None
  end.

Fixpoint read_cue_files (rootID : string) (audioFiles : list directoryFile) (selected : option cuePlan)
    (cueFiles : list directoryFile) : program mat_error (option cuePlan) :=
  match cueFiles with
  | [] => mret selected
  | cueFile :: rest =>
      _ ← check id ContextErr;
      r ← read_source rootID cueFile Inspect;
      match r with
      | (inr _, verified, closed) =>
          if bool_decide (verified = None) && bool_decide (closed = None) &&
             HasSuffix (ToLower (df_relative cueFile)) ".cue.txt"
          then read_cue_files rootID audioFiles selected rest
          else throw (sentinel errDirectoryCue)
      | (inl plan, None, None) =>
          match selected, audioFiles with
          | None, [image] => read_cue_files rootID audioFiles (Some (mkcuePlan plan image)) rest
          | _, _ => throw (sentinel errDirectoryCue)
          end
      | (inl _, _, _) => throw (sentinel errDirectoryCue)
      end
  end.

Definition readCuePlan (rootID : string) (audioFiles cueFiles : list directoryFile)
    : program mat_error (option cuePlan) :=
  if bool_decide (cueFiles = []) then readEmbeddedCuePlan rootID audioFiles
  else
    _ ← fail_when (negb has_cue) (sentinel errDirectoryCue);
    read_cue_files rootID audioFiles None cueFiles.

Definition directoryFingerprint (files : list directoryFile) : string :=
  "sha256:" +:+ sha256_hex (flat_map (fun file =>
    string_bytes (df_relative file) ++ [0] ++ string_bytes (StableFingerprint (df_snapshot file)) ++ [0])%list files).

Definition scanDirectory (rootID : string) (sourceComponents : list string)
    : program mat_error directorySource :=
  st ← visit rootID 64 sourceComponents [] (mkscan_state 0 [] [] 0);
  _ ← fail_when (bool_decide (sc_files st = [])) (sentinel errNoSupportedAudio);
  plan ← readCuePlan rootID (sc_files st) (sc_cueFiles st);
  mret (mkdirectorySource (sc_files st) (sc_cueFiles st) plan
          (directoryFingerprint (sc_files st ++ sc_cueFiles st)%list)).

Definition generatedArtifact (filename relative : string) (workspaceComponents : list string) (size : Z)
    : program mat_error Artifact :=
  r ← perform (ReadBack filename);
  let '(content, failure) := r in
  _ ← fail_when (bool_decide (failure <> None) || negb (bool_decide (Z.of_nat (String.length content) = size)))
        (other "short generated file");
  let content_fingerprint := "sha256:" +:+ sha256_hex (string_bytes content) in
  mret (mkArtifact (ArtifactID relative content_fingerprint) (workspaceComponents ++ [relative])%list relative
          size content_fingerprint None).

Fixpoint collect_outputs (workspacePath : string) (workspaceComponents : list string) (groupID : Z)
    (total : Z) (outputs : list string) : program mat_error (list Artifact) :=
  match outputs with
  | [] => mret []
  | name :: rest =>
      _ ← of_result (fun _ => sentinel errDirectoryCue) (safeArchiveName name false);
      _ ← fail_when (ContainsByte name slash) (sentinel errDirectoryCue);
      let output := filepath.Join workspacePath name in
      info ← call (fun _ : path_error => sentinel errDirectoryCue) (Lstat output);
      let size := pi_Size info in
      _ ← fail_when (negb (is_regular info) || bool_decide (size <= 0) || bool_decide (maximumFileBytes < size) ||
                     bool_decide (maximumTotalBytes - size < total)) (sentinel errDirectoryCue);
      _ ← check (fun _ : mat_error => sentinel errDirectoryCopy) (Chmod output 416);
      _ ← check (fun _ : mat_error => sentinel errDirectoryCopy) (Chown output groupID);
      artifact ← with_error (fun _ : mat_error => sentinel errDirectoryCopy)
                   (generatedArtifact output name workspaceComponents size);
      evidence ← call (fun _ : mat_error => sentinel errDirectoryProbe) (Probe output);
      others ← collect_outputs workspacePath workspaceComponents groupID (total + size) rest;
      mret (with_evidence evidence artifact :: others)
  end.

Definition splitAndProbeDirectory (rootID : string) (plan : cuePlan) (workspacePath : string)
    (workspaceComponents : list string) (groupID : Z) : program mat_error (list Artifact) :=
  image ← call (fun _ : mat_error => sentinel errDirectoryCopy)
            (OpenSource rootID (df_components (cp_image plan)) (StrictFingerprint (df_snapshot (cp_image plan))));
  split ← attempt (Split image (cp_plan plan) workspacePath);
  verified ← perform (VerifySource image (StrictFingerprint (df_snapshot (cp_image plan))));
  match split, verified with
  | inl outputs, None =>
      artifacts ← collect_outputs workspacePath workspaceComponents groupID 0 outputs;
      _ ← fail_when (negb (bool_decide (length artifacts = length (pl_Starts (cp_plan plan)))))
            (sentinel errDirectoryCue);
      mret artifacts
  | _, _ => throw (sentinel errDirectoryCue)
  end.

Fixpoint copy_files (rootID workspacePath : string) (workspaceComponents : list string) (groupID : Z)
    (files : list directoryFile) : program mat_error (list Artifact) :=
  match files with
  | [] => mret []
  | file :: rest =>
      _ ← check id ContextErr;
      input ← call id (OpenSource rootID (df_components file) (StrictFingerprint (df_snapshot file)));
      copy ← attempt (copyDirectoryFile (OpenedFile input) workspacePath workspaceComponents
                        (df_relative file) (SizeBytes (df_snapshot file)) groupID);
      verified ← perform (VerifySource input (StrictFingerprint (df_snapshot file)));
      closed ← perform (CloseSource input);
      match copy, verified, closed with
      | inl artifact, None, None =>
          evidence ← call (fun _ : mat_error => sentinel errDirectoryProbe)
                       (Probe (filepath.Join workspacePath (df_relative file)));
          others ← copy_files rootID workspacePath workspaceComponents groupID rest;
          mret (with_evidence evidence artifact :: others)
      | _, _, _ => throw (sentinel errDirectoryCopy)
      end
  end.

Definition copyAndProbeDirectory (rootID : string) (source : directorySource) (workspacePath : string)
    (workspaceComponents : list string) (groupID : Z) : program mat_error (list Artifact) :=
  match ds_cue source with
  | Some plan => splitAndProbeDirectory rootID plan workspacePath workspaceComponents groupID
  | None => copy_files rootID workspacePath workspaceComponents groupID (ds_files source)
  end.

(** ** The executor: a reason is the failure of the response *)

Definition workspace_error {A} (_ : A) : string := "workspace_error".

(** On failure the partial workspace is removed. *)
Definition or_remove {A} (partialPath : string) (p : program string A) : program string A :=
  ITree.bind p (fun r =>
    match r with
    | inl a => Ret (inl a)
    | inr reason => _ ← perform (RemoveAll partialPath); throw reason
    end).

(** A workspace that was completed before; one that is not as it should be is
    removed. *)
Definition resume (workspacePath : string) (request : Request) (workspaceComponents : list string)
    (sourceFingerprint : string) (verify : program string unit) : program string (option Success) :=
  loaded ← attempt (loadWorkspace workspacePath request workspaceComponents sourceFingerprint);
  match loaded with
  | inr _ => _ ← with_error workspace_error (clearWorkspace workspacePath); mret None
  | inl None => mret None
  | inl (Some success) => _ ← verify; mret (Some success)
  end.

Definition finish_workspace (partialPath workspacePath : string) (request : Request) (operation : string)
    (sourceFingerprint : string) (workspaceComponents : list string) (artifacts : list Artifact)
    : program string Success :=
  let success := mkSuccess SchemaVersion (rq_RequestID request) operation
    (rq_RootID request) sourceFingerprint workspaceComponents artifacts in
  _ ← with_error workspace_error
        (writeManifest partialPath (rq_Operation request) sourceFingerprint success);
  _ ← check workspace_error (Rename partialPath workspacePath);
  mret success.

Definition workspace_components (request : Request) : list string :=
  [workspaceDirectory; "workspaces"; rq_WorkspaceID request].

(** The extensions of an operation on archives. *)
Definition operation_extensions (audio video operation : string) : option (list string) :=
  if bool_decide (operation = audio) then Some audioExtensions
  else if bool_decide (operation = video) then Some videoExtensions else None.

(** What [Execute] and [ExecuteRAR] share; [extract] fills the partial
    workspace. *)
Definition execute_archive (request : Request) (extract : handle -> string -> Z -> program string (list Artifact))
    : program string Success :=
  _ ← check (fun _ : mat_error => "timeout") ContextErr;
  archive ← call reasonForError
    (OpenSource (rq_RootID request) (rq_SourceComponents request) (rq_ExpectedFingerprint request));
  snapshot ← call reasonForError (StatSource archive);
  let sourceFingerprint := StableFingerprint snapshot in
  rootPath ← call reasonForError (RootPath (rq_RootID request));
  let workspaceComponents := workspace_components request in
  let workspacePath := join_path (rootPath :: workspaceComponents) in
  let partialPath := workspacePath +:+ ".partial" in
  groupID ← with_error workspace_error (workspaceGroup rootPath);
  let verify := check reasonForError (VerifySource archive (rq_ExpectedFingerprint request)) in
  resumed ← resume workspacePath request workspaceComponents sourceFingerprint verify;
  match resumed with
  | Some success => mret success
  | None =>
      _ ← with_error workspace_error (prepareWorkspace rootPath partialPath workspacePath groupID);
      or_remove partialPath
        (artifacts ← extract archive partialPath groupID;
         _ ← verify;
         finish_workspace partialPath workspacePath request (rq_Operation request) sourceFingerprint
           workspaceComponents artifacts)
  end.

Definition Execute (request : Request) : program string Success :=
  match operation_extensions OperationMaterializeTar OperationMaterializeTarVideo (rq_Operation request) with
  | None => throw "invalid_operation"
  | Some extensions =>
      execute_archive request (fun archive partialPath groupID =>
        with_error reasonForError
          (extractAndProbe archive partialPath (workspace_components request) groupID extensions))
  end.

Definition quarantineName : string := ".rar-extract".

Definition unpack_rar (request : Request) (extensions : list string) (archive : handle)
    (partialPath : string) (groupID : Z) : program string (list Artifact) :=
  let quarantine := filepath.Join partialPath quarantineName in
  _ ← check (fun _ : mat_error => "workspace_error") (Mkdir quarantine 448);
  _ ← with_error reasonForRARError (Extract archive quarantine);
  artifacts ← with_error reasonForRARError
    (collectExtractedMedia quarantine partialPath (workspace_components request) groupID extensions);
  _ ← check (fun _ : mat_error => "workspace_error") (RemoveAll quarantine);
  mret artifacts.

Definition ExecuteRAR (request : Request) : program string Success :=
  if negb has_rar then throw "rar_unavailable"
  else
    match operation_extensions OperationMaterializeRAR OperationMaterializeRARVideo (rq_Operation request) with
    | None => throw "invalid_operation"
    | Some extensions => execute_archive request (unpack_rar request extensions)
    end.

Definition ExecuteDirectory (request : Request) : program string Success :=
  _ ← check (fun _ : mat_error => "timeout") ContextErr;
  source ← with_error reasonForDirectoryError (scanDirectory (rq_RootID request) (rq_SourceComponents request));
  rootPath ← call reasonForDirectoryError (RootPath (rq_RootID request));
  let workspaceComponents := workspace_components request in
  let workspacePath := join_path (rootPath :: workspaceComponents) in
  let partialPath := workspacePath +:+ ".partial" in
  groupID ← with_error workspace_error (workspaceGroup rootPath);
  resumed ← resume workspacePath request workspaceComponents (ds_fingerprint source) (mret tt);
  match resumed with
  | Some success => mret success
  | None =>
      _ ← with_error workspace_error (prepareWorkspace rootPath partialPath workspacePath groupID);
      or_remove partialPath
        (artifacts ← with_error reasonForDirectoryError
           (copyAndProbeDirectory (rq_RootID request) source partialPath workspaceComponents groupID);
         current ← with_error (fun _ : mat_error => "source_changed")
           (scanDirectory (rq_RootID request) (rq_SourceComponents request));
         _ ← fail_when (negb (bool_decide (ds_fingerprint current = ds_fingerprint source))) "source_changed";
         finish_workspace partialPath workspacePath request OperationMaterializeDirectory
           (ds_fingerprint source) workspaceComponents artifacts)
  end.
End executor.

(** The helper's dispatch of an operation; the tools of archives and cue
    sheets are configured. *)
Definition execution {listings : ListingCodec} (operation : string) (request : Request)
    : program string Success :=
  if bool_decide (operation ∈ ["/v1/materialize/rar-audio"; "/v1/materialize/rar-video"])
  then ExecuteRAR true request
  else if bool_decide (operation = "/v1/materialize/directory-audio") then ExecuteDirectory true request
  else Execute request.

Definition materialize {listings : ListingCodec} (operation : string) (request : Request)
    : itree materializeE Response :=
  let operation' := if bool_decide (operation = "/v1/materialize/directory-audio")
                    then OperationMaterializeDirectory else rq_Operation request in
  ITree.bind (execution operation request) (fun r => Ret (respond request operation' r)).
End materialize.
