(* ===== verification/MaterializeSafety.v ===== *)
(** * What materialising a download does to files

    A workspace and the partial workspace beside it are the only places where
    a materialization writes, whatever an archive contains and whatever fails;
    what it reports is in the workspace, with the content that it reports. It
    always ends. *)
From ITree Require Import ITree.
From stdpp Require Import base strings list gmap sorting pretty.
From Stdlib Require Import Ascii Lia.
From S2P Require Import Prelude GoStrings GoCrypto FileIdentity Probe JsonSchema Programs WorkerFiles Inventory.
From S2P Require Import Materialize.
Import materialize.

(** ** Names *)

Lemma join_path_rooted cs ds :
  Forall element cs -> Forall element ds -> ds <> [] -> join_path (rooted cs :: ds) = rooted (cs ++ ds).
Proof.
  intros Hc Hd Hne. unfold join_path.
  assert (List.filter (fun e => negb (bool_decide (e = ""))) (rooted cs :: ds) = rooted cs :: ds) as ->.
  { cbn [List.filter]. rewrite (bool_decide_false (rooted cs = "")) by done. cbn [negb]. f_equal.
    clear -Hd. induction Hd as [|x l (Hx & _) _ IH]; [done|]. cbn [List.filter].
    rewrite bool_decide_false by done. cbn [negb]. by rewrite IH. }
  rewrite join_slash_cons by done. by apply Clean_append.
Qed.

Lemma rooted_suffix cs d s : rooted (cs ++ [d]) +:+ s = rooted (cs ++ [d +:+ s]).
Proof.
  unfold rooted. change (String slash (join_slash (cs ++ [d])) +:+ s) with
    (String slash (join_slash (cs ++ [d]) +:+ s)). f_equal.
  induction cs as [|c cs IH]; [done|]. cbn [app]. rewrite !join_slash_cons by (by destruct cs).
  rewrite <- IH.
  change (String slash (join_slash (cs ++ [d]) +:+ s)) with (String slash (join_slash (cs ++ [d])) +:+ s).
  by rewrite string_app_assoc.
Qed.

Lemma safeArchiveName_Ok name directory n :
  safeArchiveName name directory = Ok n ->
  n = join_slash (split_on slash n) /\ Forall element (split_on slash n).
Proof.
  unfold safeArchiveName. cbv zeta. intros H. apply bind_Ok in H as (u & _ & H).
  apply bind_Ok in H as (u1 & _ & H). apply bind_Ok in H as (u2 & Hu%fail_if_Ok & H). injection H as <-.
  set (n := filepath.Clean _) in *. split; [by rewrite join_split_slash|].
  pose proof (split_on_elements slash n) as Hs. rewrite Forall_forall in Hs. apply Forall_forall.
  intros c Hc. assert (unsafe_component c = false) as Hsafe.
  { destruct (unsafe_component c) eqn:E; [|done]. exfalso. apply (eq_true_false_abs _ (proj2 (existsb_exists _ _)
      (ex_intro _ c (conj (proj1 (list_elem_of_In _ _) Hc) E))) Hu). }
  unfold unsafe_component in Hsafe. split_bool. by split_and!; try apply Hs.
Qed.

(** The name of an entry that is accepted, but for the slash at the end of a
    directory. *)
Lemma trim_suffix_cases name : trim_suffix name = name \/ name = trim_suffix name +:+ "/".
Proof.
  unfold trim_suffix. destruct (HasSuffix name "/") eqn:E; [|by left]. right.
  destruct (HasSuffix_split name "/" E) as [t ->]. f_equal.
  replace (String.length (t +:+ "/") - 1)%nat with (String.length t) by (rewrite string_length_app; cbn; lia).
  by rewrite s_take_app.
Qed.

Lemma safeArchiveName_input name directory n :
  safeArchiveName name directory = Ok n ->
  (name = n \/ name = n +:+ "/") /\ n <> "" /\ filepath.IsAbs n = false.
Proof.
  unfold safeArchiveName. cbv zeta. set (name' := if directory then trim_suffix name else name).
  intros (u & Hu%fail_if_Ok & H)%bind_Ok. apply bind_Ok in H as (u1 & Hc%fail_if_Ok & H).
  apply bind_Ok in H as (u2 & _ & H). injection H as H.
  apply orb_false_iff in Hu as [[Hne%bool_decide_eq_false _]%orb_false_iff Ha].
  apply orb_false_iff in Hc as [_ Hc]. apply negb_false_iff, bool_decide_eq_true in Hc.
  assert (n = name') as -> by congruence. split; [|done]. unfold name'.
  destruct directory; [|by left]. destruct (trim_suffix_cases name) as [E|E]; [by left|by right].
Qed.

Lemma IsAbs_app n t : n <> "" -> filepath.IsAbs (n +:+ t) = filepath.IsAbs n.
Proof.
  destruct n as [|c n]; [done|]. intros _. unfold filepath.IsAbs, HasPrefix.
  change (String c n +:+ t) with (String c (n +:+ t)). cbn [String.prefix].
  match goal with |- context [Ascii.ascii_dec ?a c] => destruct (Ascii.ascii_dec a c) end; [|done].
  by destruct n, t.
Qed.

(** An accepted entry is unpacked below the destination. *)
Lemma Join_slash cs ds :
  Forall element cs -> Forall element ds -> filepath.Join (rooted cs) (join_slash ds +:+ "/") = rooted (cs ++ ds).
Proof.
  intros Hc Hd. unfold filepath.Join. rewrite (bool_decide_false (rooted cs = "")) by done.
  rewrite bool_decide_false.
  2: { intros E. apply (f_equal String.length) in E. rewrite string_length_app in E. cbn in E. lia. }
  unfold rooted at 1. cbn [String.append]. apply Clean_elements.
  change ("/" +:+ (join_slash ds +:+ "/")) with (String slash (join_slash ds +:+ String slash "")).
  rewrite !split_on_app, !fold_left_app. rewrite !fold_clean_join by done.
  by rewrite app_nil_r, rev_app_distr.
Qed.

Lemma opaque_no_slash s : s_forall opaque_tail s = true -> ContainsByte s slash = false.
Proof.
  intros H. unfold ContainsByte. rewrite (s_forall_mono opaque_tail); [done| |done].
  intros c Hc. destruct (Ascii.eqb_spec c slash) as [->|]; [|done]. by vm_compute in Hc.
Qed.

Lemma opaqueID_element wid :
  opaqueID wid = true -> element wid /\ element (wid +:+ ".partial").
Proof.
  destruct wid as [|c rest]; [done|]. cbn [opaqueID]. intros [[Hc%bool_decide_eq_true Hr]%andb_prop _]%andb_prop.
  assert (c <> dot) as Hdot by (intros ->; destruct Hc as [Hc _]; vm_compute in Hc; by apply Hc).
  assert (c <> slash) as Hslash by (intros ->; destruct Hc as [Hc _]; vm_compute in Hc; by apply Hc).
  assert (Ascii.eqb c slash = false) as Eslash by by destruct (Ascii.eqb_spec c slash).
  pose proof (opaque_no_slash _ Hr) as Hns. unfold ContainsByte in Hns. apply negb_false_iff in Hns.
  change (String c rest +:+ ".partial") with (String c (rest +:+ ".partial")).
  split; (split_and!; [done|intros [=]; subst; done|intros [=]; subst; done|]);
    unfold ContainsByte; cbn [s_forall]; rewrite Eslash; cbn [negb andb]; [by rewrite Hns|].
  rewrite s_forall_app, Hns. done.
Qed.

Lemma validateRequest_identity request :
  validateRequest request = Ok tt -> opaqueID (rq_WorkspaceID request) = true.
Proof.
  unfold validateRequest. intros H. apply bind_Ok in H as (u1 & _ & H).
  apply bind_Ok in H as (u2 & H%fail_if_Ok & _). apply orb_false_iff in H as [_ H]. by apply negb_false_iff.
Qed.

(** ** The file system

    Files by the elements of their paths; directories are not tracked. *)
Abbreviation world :=
  (@gmap (list string) (@list_eq_dec string String.eq_dec)
     (@list_countable string String.eq_dec String.countable) string).

Definition key (path : string) : list string := filepath.path_elements path.

Definition below (path k : list string) : Prop := path `prefix_of` k.

(** Only files at and below a path change. *)
Definition changes_below (path : list string) (s s' : world) : Prop :=
  forall k, ~ below path k -> s' !! k = s !! k.

Lemma changes_below_refl path s : changes_below path s s.
Proof. done. Qed.

Lemma changes_below_trans path s s' s'' :
  changes_below path s s' -> changes_below path s' s'' -> changes_below path s s''.
Proof. intros H H' k Hk. by rewrite H', H. Qed.

(** What the code relies on: the configured roots, what a probe says of a
    content, which content decodes to a manifest, what [lsar] prints of an
    archive, and the directory of temporary files. *)
Record Environment := mkEnvironment
  { en_roots : mediafile.RootSet;
    en_describes : string -> ProbeEvidence -> Prop;
    en_decodes : string -> manifest -> Prop;
    en_listing : handle -> string;
    en_temporary : list string }.

(** Where a tool that unpacks an archive puts the entry with this name. *)
Definition entry_path (destination name : string) : list string :=
  key (if filepath.IsAbs name then name else filepath.Join destination name).

Section answers.
Context (env : Environment) {listings : ListingCodec}.

(** Unpacking an archive that was listed changes files at and below the paths
    of its entries, unless an entry is a link: then it may change any file. *)
Definition unpacks (archive : handle) (destination : string) (s s' : world) : Prop :=
  forall listing, UnmarshalListing (en_listing env archive) = Ok listing ->
    (forall entry, entry ∈ rl_Contents listing -> re_IsLink entry = false) ->
    forall k, (forall entry, entry ∈ rl_Contents listing ->
                 ~ below (entry_path destination (re_FileName entry)) k) -> s' !! k = s !! k.

Definition answers (X : Type) (e : materializeE X) (s : world) : X -> world -> Prop :=
  match e in materializeE X return X -> world -> Prop with
  | RootPath rootID => fun x s' => s' = s /\ forall path, x = inl path -> en_roots env !! rootID = Some path
  | Lstat path => fun x s' =>
      s' = s /\ forall info, x = inl info -> pi_Type info = filesystem.Regular ->
        exists content, s !! key path = Some content /\ pi_Size info = Z.of_nat (String.length content)
  | ReadManifest path => fun x s' =>
      s' = s /\ forall m, x = inl m -> exists content, s !! key path = Some content /\ en_decodes env content m
  | WriteManifest path m => fun x s' =>
      match x with
      | None => exists content, s' = <[key path := content]> s /\ en_decodes env content m
      | Some _ => s' = s \/ exists content, s' = <[key path := content]> s
      end
  | RemoveAll path => fun x s' =>
      changes_below (key path) s s' /\
      forall k, s' !! k = s !! k \/ s' !! k = None
  | Rename old new => fun x s' =>
      match x with
      | None => (forall k, ~ below (key old) k -> ~ below (key new) k -> s' !! k = s !! k) /\
          (forall r, s' !! (key new ++ r)%list = s !! (key old ++ r)%list)
      | Some _ => s' = s
      end
  | CreateExcl path => fun x s' =>
      match x with
      | None => s !! key path = None /\ s' = <[key path := ""]> s
      | Some _ => s' = s
      end
  | Copy _ _ path => fun x s' =>
      exists written, s' = <[key path := written]> s /\ (snd x = None -> written = fst x)
  | ReadBack path => fun x s' => s' = s /\ (snd x = None -> s !! key path = Some (fst x))
  | Probe path => fun x s' =>
      s' = s /\ forall evidence, x = inl evidence ->
        exists content, s !! key path = Some content /\ en_describes env content evidence
  | ListRAR archive => fun x s' => s' = s /\ forall data, x = inl data -> data = en_listing env archive
  | UnpackRAR archive destination => fun _ s' => unpacks archive destination s s'
  | ExtractWavPackCue _ => fun _ s' => changes_below (en_temporary env) s s'
  | StoreTemporary _ => fun _ s' => changes_below (en_temporary env) s s'
  | RemoveTemporary _ => fun _ s' => changes_below (en_temporary env) s s'
  | CutTrack _ _ _ output => fun _ s' => changes_below (key output) s s'
  | _ => fun _ s' => s' = s
  end.
End answers.

(** ** Rules for programs that keep an invariant at every moment *)
Section runs.
Context (env : Environment) {listings : ListingCodec} (I : world -> Prop).

Definition runs {Err A} (p : program Err A) (Q : A + Err -> world -> Prop) (s : world) : Prop :=
  safe (fun X (_ : materializeE X) s => I s) (answers env) p Q s.

Lemma mruns_mono {Err A} (p : program Err A) (P Q : A + Err -> world -> Prop) s :
  runs p P s -> (forall r s, P r s -> Q r s) -> runs p Q s.
Proof. intros H HPQ. by eapply safe_conseq. Qed.

Lemma mruns_ret {Err A} (a : A) (Q : A + Err -> world -> Prop) s : Q (inl a) s -> runs (mret a) Q s.
Proof. apply safe_ret. Qed.

Lemma mruns_throw {Err A} (e : Err) (Q : A + Err -> world -> Prop) s : Q (inr e) s -> runs (throw e) Q s.
Proof. apply safe_ret. Qed.

Lemma mruns_bind {Err A B} (p : program Err A) (f : A -> program Err B) Q s :
  runs p (fun r s' => match r with inl a => runs (f a) Q s' | inr e => Q (inr e) s' end) s ->
  runs (p ≫= f) Q s.
Proof.
  intros H. apply safe_bind. eapply safe_conseq; [|exact H]. intros [a|e] s'; [done|]. apply safe_ret.
Qed.

Lemma mruns_perform {Err A} (e : materializeE A) (Q : A + Err -> world -> Prop) s :
  I s -> (forall x s', answers env _ e s x s' -> Q (inl x) s') -> runs (perform e) Q s.
Proof. intros HI H. apply safe_bind, safe_trigger; [done|]. intros x s' Hx. apply safe_ret, H, Hx. Qed.

Lemma mruns_call {Err E A} (f : E -> Err) (e : materializeE (A + E)) (Q : A + Err -> world -> Prop) s :
  I s -> (forall x s', answers env _ e s x s' ->
            match x with inl a => Q (inl a) s' | inr e => Q (inr (f e)) s' end) -> runs (call f e) Q s.
Proof.
  intros HI H. apply mruns_bind, mruns_perform; [done|]. intros [a|err] s' Hx; apply H in Hx;
    [by apply mruns_ret|by apply mruns_throw].
Qed.

Lemma mruns_check {Err E} (f : E -> Err) (e : materializeE (option E)) (Q : unit + Err -> world -> Prop) s :
  I s -> (forall x s', answers env _ e s x s' ->
            match x with None => Q (inl tt) s' | Some e => Q (inr (f e)) s' end) -> runs (check f e) Q s.
Proof.
  intros HI H. apply mruns_bind, mruns_perform; [done|]. intros [err|] s' Hx; apply H in Hx;
    [by apply mruns_throw|by apply mruns_ret].
Qed.

Lemma mruns_attempt {Err Err' A} (p : program Err A) (Q : (A + Err) + Err' -> world -> Prop) s :
  runs p (fun r s' => Q (inl r) s') s -> runs (attempt p) Q s.
Proof. intros H. apply safe_bind. eapply safe_conseq; [|exact H]. intros r s' Hr. by apply safe_ret. Qed.

Lemma mruns_with_error {Err Err' A} (f : Err -> Err') (p : program Err A) (Q : A + Err' -> world -> Prop) s :
  runs p (fun r s' => Q (match r with inl a => inl a | inr e => inr (f e) end) s') s -> runs (with_error f p) Q s.
Proof. intros H. apply safe_bind. eapply safe_conseq; [|exact H]. intros r s' Hr. by apply safe_ret. Qed.

Lemma mruns_fail_when {Err} (b : bool) (e : Err) (Q : unit + Err -> world -> Prop) s :
  (b = true -> Q (inr e) s) -> (b = false -> Q (inl tt) s) -> runs (fail_when b e) Q s.
Proof. destruct b; intros H1 H2; [by apply mruns_throw, H1|by apply mruns_ret, H2]. Qed.

Lemma mruns_of_result {Err A} (f : error -> Err) (r : result A) (Q : A + Err -> world -> Prop) s :
  match r with Ok a => Q (inl a) s | Err e => Q (inr (f e)) s end -> runs (of_result f r) Q s.
Proof. destruct r; [apply mruns_ret|apply mruns_throw]. Qed.

Lemma mruns_of_sum {Err A} (r : A + Err) (Q : A + Err -> world -> Prop) s : Q r s -> runs (of_sum r) Q s.
Proof. destruct r; [apply mruns_ret|apply mruns_throw]. Qed.

Lemma mruns_loop {Err A B} (body : A -> program Err (A + B)) (L : A -> world -> Prop)
    (Q : B + Err -> world -> Prop) a s :
  (forall a s, L a s -> runs (body a) (fun r s' =>
     match r with inl (inl a) => L a s' | inl (inr b) => Q (inl b) s' | inr e => Q (inr e) s' end) s) ->
  L a s -> runs (loop body a) Q s.
Proof.
  intros Hb Ha. apply (safe_iter _ _ _ L); [|done]. intros a' s' HL. apply safe_bind.
  eapply safe_conseq; [|by apply Hb]. intros [[?|?]|?] s'' H; by apply safe_ret.
Qed.

(** A program all of whose calls keep [J], which implies the invariant. *)
Definition keeps (J : world -> Prop) {Err A} (p : program Err A) : Prop :=
  forall s, J s -> runs p (fun _ s' => J s') s.

Section keeps.
Context (J : world -> Prop) (HJ : forall s, J s -> I s).

Lemma keeps_ret {Err A} (a : A) : keeps J (mret a : program Err A).
Proof. intros s H. by apply mruns_ret. Qed.
Lemma keeps_throw {Err A} (e : Err) : keeps J (throw e : program Err A).
Proof. intros s H. by apply mruns_throw. Qed.
Lemma keeps_bind {Err A B} (p : program Err A) (f : A -> program Err B) :
  keeps J p -> (forall a, keeps J (f a)) -> keeps J (p ≫= f).
Proof.
  intros Hp Hf s H. apply mruns_bind. eapply mruns_mono; [by apply Hp|]. intros [a|e] s' Hs; [by apply Hf|done].
Qed.

(** A call under which [J] is stable. *)
Definition stable {X} (e : materializeE X) : Prop :=
  forall s x s', J s -> answers env _ e s x s' -> J s'.

Lemma keeps_perform {Err A} (e : materializeE A) : stable e -> keeps J (perform e : program Err A).
Proof. intros He s H. apply mruns_perform; [by apply HJ|]. intros x s' Hx. by eapply He. Qed.
Lemma keeps_call {Err E A} (f : E -> Err) (e : materializeE (A + E)) : stable e -> keeps J (call f e).
Proof. intros He s H. apply mruns_call; [by apply HJ|]. intros [a|err] s' Hx; by eapply He. Qed.
Lemma keeps_check {Err E} (f : E -> Err) (e : materializeE (option E)) : stable e -> keeps J (check f e).
Proof. intros He s H. apply mruns_check; [by apply HJ|]. intros [err|] s' Hx; by eapply He. Qed.
Lemma keeps_attempt {Err Err' A} (p : program Err A) : keeps J p -> keeps J (attempt p : program Err' _).
Proof. intros Hp s H. apply mruns_attempt. by apply Hp. Qed.
Lemma keeps_with_error {Err Err' A} (f : Err -> Err') (p : program Err A) :
  keeps J p -> keeps J (with_error f p).
Proof. intros Hp s H. apply mruns_with_error. eapply mruns_mono; [by apply Hp|done]. Qed.
Lemma keeps_fail_when {Err} (b : bool) (e : Err) : keeps J (fail_when b e).
Proof. intros s H. by apply mruns_fail_when. Qed.
Lemma keeps_of_result {Err A} (f : error -> Err) (r : result A) : keeps J (of_result f r).
Proof. intros s H. apply mruns_of_result. by destruct r. Qed.
Lemma keeps_of_sum {Err A} (r : A + Err) : keeps J (of_sum r).
Proof. intros s H. by apply mruns_of_sum. Qed.
End keeps.

(** Using that a program keeps [J] inside a longer one. *)
Lemma mruns_keeps (J : world -> Prop) {Err A} (p : program Err A) (Q : A + Err -> world -> Prop) s :
  keeps J p -> J s -> (forall r s', J s' -> Q r s') -> runs p Q s.
Proof. intros Hp H HQ. eapply mruns_mono; [by apply Hp|]. apply HQ. Qed.
End runs.

(** Follows the text of a program whose calls all keep a predicate; calls that
    change files are left. *)
Ltac keeps_step HJ :=
  lazymatch goal with
  | |- keeps _ _ _ (mret _) => apply keeps_ret
  | |- keeps _ _ _ (throw _) => apply keeps_throw
  | |- keeps _ _ _ (mbind _ _) => apply keeps_bind; [|intros ?]
  | |- keeps _ _ _ (perform _) => apply (keeps_perform _ _ _ HJ)
  | |- keeps _ _ _ (call _ _) => apply (keeps_call _ _ _ HJ)
  | |- keeps _ _ _ (check _ _) => apply (keeps_check _ _ _ HJ)
  | |- keeps _ _ _ (attempt _) => apply keeps_attempt
  | |- keeps _ _ _ (with_error _ _) => apply keeps_with_error
  | |- keeps _ _ _ (fail_when _ _) => apply keeps_fail_when
  | |- keeps _ _ _ (of_result _ _) => apply keeps_of_result
  | |- keeps _ _ _ (of_sum _) => apply keeps_of_sum
  | |- keeps _ _ _ (match ?x with _ => _ end) => destruct x
  | |- keeps _ _ _ (if ?b then _ else _) => destruct b
  | |- keeps _ _ _ (let _ := _ in _) => cbv zeta
  | |- stable _ _ _ => first [assumption | by intros ? ? ? ? ->| by intros ? ? ? ? [-> _]]
  end.
Ltac keeps_tac HJ := repeat keeps_step HJ.

(** ** Workspaces *)
Section workspace.
Context (env : Environment) {listings : ListingCodec}.
Context (request : Request) (root : list string) (s0 : world).

(** The elements of the paths of the workspace and of the partial workspace. *)
Definition complete : list string := (root ++ workspace_components request)%list.
Definition partial : list string :=
  (root ++ [workspaceDirectory; "workspaces"; rq_WorkspaceID request +:+ ".partial"])%list.

(** No other file changed, but temporary ones. *)
Definition others_kept (s : world) : Prop :=
  forall k, ~ below complete k -> ~ below partial k -> ~ below (en_temporary env) k -> s !! k = s0 !! k.

(** Nothing changed, but temporary files. *)
Definition untouched (s : world) : Prop := changes_below (en_temporary env) s0 s.

Lemma untouched_kept (s : world) : untouched s -> others_kept s.
Proof. intros H k _ _ Hk. by apply H. Qed.

(** An artifact is the file below [base] that it says, with its content. *)
Record held (base : list string) (a : Artifact) (content : string) (s : world) : Prop :=
  { he_elements : Forall element (split_on slash (ar_RelativePath a));
    he_components : ar_PathComponents a =
      (workspace_components request ++ split_on slash (ar_RelativePath a))%list;
    he_file : s !! (base ++ split_on slash (ar_RelativePath a))%list = Some content;
    he_size : ar_SizeBytes a = Z.of_nat (String.length content);
    he_fingerprint : ar_Fingerprint a = "sha256:" +:+ sha256_hex (string_bytes content);
    he_identity : ar_ArtifactID a = ArtifactID (ar_RelativePath a) (ar_Fingerprint a) }.

(** And its evidence is a probe of that content. *)
Definition stored (base : list string) (a : Artifact) (s : world) : Prop :=
  ar_RelativePath a <> workspaceManifest /\
  exists content evidence, held base a content s /\ ar_Evidence a = Some evidence /\ en_describes env content evidence.

Definition filled (artifacts : list Artifact) (s : world) : Prop :=
  others_kept s /\ Forall (fun a => stored partial a s) artifacts.

Lemma filled_kept (artifacts : list Artifact) (s : world) : filled artifacts s -> others_kept s.
Proof. by intros [? _]. Qed.

Lemma held_same base a content s s' :
  s' !! (base ++ split_on slash (ar_RelativePath a))%list = s !! (base ++ split_on slash (ar_RelativePath a))%list ->
  held base a content s -> held base a content s'.
Proof. intros E []. split; try done. by rewrite E. Qed.

Lemma others_kept_below (path : list string) (s s' : world) :
  below partial path \/ below complete path \/ path = en_temporary env ->
  changes_below path s s' -> others_kept s -> others_kept s'.
Proof.
  intros Hp Hc Hs k Hk1 Hk2 Hk3. rewrite Hc; [by apply Hs|]. intros Hb.
  destruct Hp as [Hp|[Hp| ->]]; [apply Hk2|apply Hk1|by apply Hk3]; by etrans.
Qed.

Lemma insert_below (path : list string) (s : world) (content : string) : changes_below path s (<[path := content]> s).
Proof. intros k Hk. apply lookup_insert_ne. intros ->. by apply Hk. Qed.

(** A new file does not change the files there are. *)
Lemma filled_insert (artifacts : list Artifact) (path : list string) (content : string) (s : world) :
  below partial path -> s !! path = None -> filled artifacts s -> filled artifacts (<[path := content]> s).
Proof.
  intros Hb Hn [Hs Hf]. split; [eapply others_kept_below; [by left|apply insert_below|done]|].
  eapply Forall_impl; [exact Hf|]. intros a (Hm & c & ev & Hh & He). split; [done|]. exists c, ev. split; [|done].
  eapply held_same; [|exact Hh]. apply lookup_insert_ne. intros E. rewrite E in Hn. destruct Hh. congruence.
Qed.

Context (Hroot : Forall element root) (Hid : opaqueID (rq_WorkspaceID request) = true).
Context (Htmp : ~ below (en_temporary env) root) (Htmp' : ~ below root (en_temporary env)).

(** Temporary files are apart from the root. *)
Lemma temporary_apart k : below root k -> ~ below (en_temporary env) k.
Proof.
  intros [r1 ->] [r2 H]. destruct (app_eq_inv _ _ _ _ H) as [(l & E & _)|(l & E & _)].
  - apply Htmp. by exists l.
  - apply Htmp'. by exists l.
Qed.

Lemma partial_root r : below root (partial ++ r).
Proof. unfold partial. rewrite <- app_assoc. by eexists. Qed.

Lemma stored_partial_temporary a (s s' : world) :
  changes_below (en_temporary env) s s' -> stored partial a s -> stored partial a s'.
Proof.
  intros Hc (Hm & c & ev & Hh & He). split; [done|]. exists c, ev. split; [|done].
  eapply held_same; [|exact Hh]. apply Hc, temporary_apart, partial_root.
Qed.

Lemma workspace_elements : Forall element complete /\ Forall element partial.
Proof.
  destruct (opaqueID_element _ Hid) as [H1 H2]. unfold complete, partial.
  assert (element workspaceDirectory /\ element "workspaces") as [H3 H4] by (by repeat split).
  split; apply Forall_app; (split; [done|]); repeat (apply Forall_cons; split; [assumption|]); apply Forall_nil_2.
Qed.

Lemma partial_path : rooted complete +:+ ".partial" = rooted partial.
Proof.
  unfold complete, partial, workspace_components.
  change [workspaceDirectory; "workspaces"; rq_WorkspaceID request] with
    ([workspaceDirectory; "workspaces"] ++ [rq_WorkspaceID request])%list.
  rewrite app_assoc, rooted_suffix, <- app_assoc. done.
Qed.

Lemma complete_path : join_path (rooted root :: workspace_components request) = rooted complete.
Proof.
  pose proof workspace_elements as [H _]. apply Forall_app in H as [_ H]. by apply join_path_rooted.
Qed.

Lemma partial_not_complete k : below partial k -> ~ below complete k.
Proof.
  unfold partial, complete, workspace_components. intros [r1 ->] [r2 H]. rewrite <- !app_assoc in H.
  apply app_inv_head in H. injection H as H. apply (f_equal String.length) in H.
  rewrite string_length_app in H. simpl in H. lia.
Qed.

Lemma key_partial ds : Forall element ds -> key (rooted (partial ++ ds)) = (partial ++ ds)%list.
Proof. intros H. apply path_elements_rooted, Forall_app. split; [apply workspace_elements|done]. Qed.

Lemma key_complete ds : Forall element ds -> key (rooted (complete ++ ds)) = (complete ++ ds)%list.
Proof. intros H. apply path_elements_rooted, Forall_app. split; [apply workspace_elements|done]. Qed.

Lemma join_partial name :
  name = join_slash (split_on slash name) -> Forall element (split_on slash name) ->
  filepath.Join (rooted partial) name = rooted (partial ++ split_on slash name).
Proof.
  intros E H. rewrite E at 1. apply Join_rooted; [apply workspace_elements|done|apply split_on_nonempty].
Qed.

Lemma join_complete name :
  name = join_slash (split_on slash name) -> Forall element (split_on slash name) ->
  filepath.Join (rooted complete) name = rooted (complete ++ split_on slash name).
Proof.
  intros E H. rewrite E at 1. apply Join_rooted; [apply workspace_elements|done|apply split_on_nonempty].
Qed.

(** ** Placing a file *)

Abbreviation runs := (runs env others_kept).
Abbreviation keeps := (keeps env others_kept).

Lemma ensure_keeps (artifacts : list Artifact) directory gid : keeps (filled artifacts) (ensureWorkspaceDirectory directory gid).
Proof. unfold ensureWorkspaceDirectory. keeps_tac (filled_kept artifacts). Qed.

Lemma place_file_runs (artifacts : list Artifact) from limit name size gid (s : world) :
  name = join_slash (split_on slash name) -> Forall element (split_on slash name) ->
  filled artifacts s ->
  runs (place_file from limit (rooted partial) (workspace_components request) name size gid)
    (fun r s' => filled artifacts s' /\
       forall a, r = inl a -> ar_RelativePath a = name /\ ar_SizeBytes a = size /\
         exists content, held partial a content s') s.
Proof.
  intros E Hel Hf. unfold place_file. cbv zeta. rewrite (join_partial _ E Hel).
  set (k := (partial ++ split_on slash name)%list).
  assert (below partial k) as Hb by by exists (split_on slash name).
  apply mruns_bind. eapply (mruns_keeps _ _ (filled artifacts)); [apply ensure_keeps|done|].
  intros [[]|e] s1 H1; [|by split]. apply mruns_bind. unfold store_file.
  apply mruns_bind, mruns_check; [by apply filled_kept in H1|]. intros [e|] s2 Ha; cbn [answers] in Ha.
  { subst s2. by split. }
  unfold k in Ha. rewrite (key_partial _ Hel) in Ha. fold k in Ha. destruct Ha as [Hn ->].
  apply (filled_insert _ _ "" _ Hb Hn) in H1 as H2.
  apply mruns_bind, mruns_perform; [by apply filled_kept in H2|]. intros [content copyErr] s3 Ha.
  cbn [answers] in Ha. unfold k in Ha. rewrite (key_partial _ Hel) in Ha. fold k in Ha.
  destruct Ha as (written & -> & Hw). rewrite insert_insert_eq.
  apply (filled_insert _ _ written _ Hb Hn) in H1 as H3. clear H2.
  apply mruns_bind, mruns_fail_when; [intros _; by split|]. intros Hok.
  apply orb_false_iff in Hok as [Hc%bool_decide_eq_false Hs%negb_false_iff%bool_decide_eq_true].
  destruct copyErr as [e|]; [by destruct Hc|]. specialize (Hw eq_refl). cbn in Hw. subst written.
  apply mruns_bind, mruns_check; [by apply filled_kept in H3|]. intros [e|] s4 ->; [by split|].
  apply mruns_bind, mruns_check; [by apply filled_kept in H3|]. intros [e|] s5 ->; [by split|].
  apply mruns_ret, mruns_ret. split; [done|]. intros a [= <-]. cbn. split_and!; [done|done|].
  exists content. split; cbn; try done. apply lookup_insert_eq.
Qed.

Lemma supported_name extensions name :
  extensions = audioExtensions \/ extensions = videoExtensions -> supported extensions name = true ->
  name <> workspaceManifest.
Proof. by intros [-> | ->] H ->. Qed.

(** An artifact that was placed is stored once it is probed. *)
Lemma probe_runs artifacts f a name content Q (s : world) :
  filled artifacts s -> ar_RelativePath a = name -> name <> workspaceManifest -> held partial a content s ->
  name = join_slash (split_on slash name) ->
  (forall evidence, filled (artifacts ++ [with_evidence evidence a]) s -> Q (inl evidence) s) ->
  (forall e, Q (inr e) s) ->
  runs (call f (Probe (filepath.Join (rooted partial) name)) : program mat_error ProbeEvidence) Q s.
Proof.
  intros Hf En Hne Hh E HQ He. pose proof (he_elements _ _ _ _ Hh) as Hel. rewrite En in Hel.
  rewrite (join_partial _ E Hel). apply mruns_call; [by apply filled_kept in Hf|].
  intros x s' Ha. cbn [answers] in Ha. rewrite (key_partial _ Hel) in Ha. destruct Ha as [-> Ha].
  destruct x as [evidence|e]; [|apply He]. apply HQ. destruct (Ha _ eq_refl) as (c & Hc & Hd).
  split; [apply Hf|]. apply Forall_app. split; [apply Hf|]. apply Forall_singleton.
  split; [cbn; by rewrite En|]. exists content, evidence.
  pose proof (he_file _ _ _ _ Hh) as Hk. rewrite En, Hc in Hk. injection Hk as ->.
  split; [|done]. destruct Hh. by split.
Qed.

(** ** Tar archives *)

(** Limits of what was extracted. *)
Record within_limits (artifacts : list Artifact) (entries total : Z) : Prop :=
  { wl_entries : Z.of_nat (length artifacts) <= entries <= maximumEntries;
    wl_total : sum_Z (map ar_SizeBytes artifacts) <= total <= maximumTotalBytes;
    wl_size : Forall (fun a => 0 <= ar_SizeBytes a <= maximumFileBytes) artifacts }.

Lemma sum_Z_snoc l x : sum_Z (l ++ [x]) = sum_Z l + x.
Proof.
  induction l as [|y l IH]; [cbn; lia|]. change ((y :: l) ++ [x])%list with (y :: (l ++ [x]))%list.
  rewrite !sum_Z_cons. lia.
Qed.

Lemma within_limits_nil : within_limits [] 0 0.
Proof. split; cbn; [unfold maximumEntries; lia|unfold maximumTotalBytes; lia|constructor]. Qed.

Lemma within_limits_snoc artifacts entries total a size :
  within_limits artifacts entries total -> entries + 1 <= maximumEntries ->
  0 <= size <= maximumFileBytes -> total + size <= maximumTotalBytes -> ar_SizeBytes a = size ->
  within_limits (artifacts ++ [a]) (entries + 1) (total + size).
Proof.
  intros [He Ht Hs] Hn Hz Hm Ea. split.
  - rewrite length_app. cbn. lia.
  - rewrite map_app. cbn. rewrite sum_Z_snoc. lia.
  - apply Forall_app. split; [done|]. apply Forall_singleton. lia.
Qed.

Lemma within_limits_skip artifacts entries total size :
  within_limits artifacts entries total -> entries + 1 <= maximumEntries ->
  0 <= size -> total + size <= maximumTotalBytes ->
  within_limits artifacts (entries + 1) (total + size).
Proof. intros [He Ht Hs] Hn Hz Hm. split; [lia|lia|done]. Qed.

Definition tar_ok (st : tar_state) (s : world) : Prop :=
  filled (ts_artifacts st) s /\ within_limits (ts_artifacts st) (ts_entries st) (ts_total st).

Lemma extract_member_runs archive gid extensions header st (s : world) :
  extensions = audioExtensions \/ extensions = videoExtensions -> tar_ok st s ->
  runs (extract_member archive (rooted partial) (workspace_components request) gid extensions header st)
    (fun r s' => match r with inl st' => tar_ok st' s' | inr _ => others_kept s' end) s.
Proof.
  intros Hext [Hf Hl]. unfold extract_member. cbv zeta.
  apply mruns_bind, mruns_fail_when; [intros _; apply Hf|]. intros Hn%bool_decide_eq_false.
  apply mruns_bind, mruns_of_result. destruct (safeArchiveName _ _) as [name|e] eqn:Hname; [|apply Hf].
  apply safeArchiveName_Ok in Hname as [E Hel].
  apply mruns_bind, mruns_fail_when; [intros _; apply Hf|]. intros _.
  destruct (hd_Type header).
  - apply mruns_bind. eapply mruns_keeps; [apply ensure_keeps|exact Hf|]. intros [[]|e] s1 H1; [|apply H1].
    apply mruns_ret. split; [done|]. cbn. rewrite <- (Z.add_0_r (ts_total st)).
    apply within_limits_skip; [done|lia|lia|]. pose proof (wl_total _ _ _ Hl). lia.
  - apply mruns_bind, mruns_fail_when; [intros _; apply Hf|]. intros Hs.
    apply orb_false_iff in Hs as [[Hs1%bool_decide_eq_false Hs2%bool_decide_eq_false]%orb_false_iff Hs3%bool_decide_eq_false].
    apply mruns_bind. unfold extractFile. apply mruns_bind. eapply mruns_mono; [by apply place_file_runs|].
    intros [a|e] s1 [H1 Ha]; [|by destruct H1]. destruct (Ha _ eq_refl) as (Er & Ez & content & Hh).
    apply mruns_ret. destruct (supported extensions name) eqn:Hsup; cbn [negb].
    + apply mruns_bind. eapply probe_runs; try done; [by eapply supported_name| |by intros e; destruct H1].
      intros evidence H2. apply mruns_ret. split; [done|]. apply within_limits_snoc; try done; lia.
    + apply mruns_ret. split; [done|]. apply within_limits_skip; try done; lia.
  - apply mruns_throw, Hf.
Qed.

(** What an extraction leaves in the partial workspace. *)
Definition extracted (artifacts : list Artifact) (s : world) : Prop :=
  filled artifacts s /\ artifacts <> [] /\
  exists entries total, within_limits artifacts entries total.

Lemma sort_within artifacts entries total :
  within_limits artifacts entries total -> within_limits (merge_sort artifact_le artifacts) entries total.
Proof.
  intros [He Ht Hs]. pose proof (merge_sort_Permutation artifact_le artifacts) as P. split.
  - by rewrite P.
  - assert (sum_Z (map ar_SizeBytes (merge_sort artifact_le artifacts)) = sum_Z (map ar_SizeBytes artifacts)) as ->; [|done].
    generalize P. generalize (merge_sort artifact_le artifacts). clear.
    intros l P. induction P; cbn [map]; rewrite ?sum_Z_cons; lia.
  - by rewrite P.
Qed.

Lemma sort_extracted artifacts s entries total :
  filled artifacts s -> artifacts <> [] -> within_limits artifacts entries total ->
  extracted (merge_sort artifact_le artifacts) s.
Proof.
  intros [Hk Hf] Hne Hl. split_and!.
  - split; [done|]. by rewrite merge_sort_Permutation.
  - intros E. apply Hne. apply Permutation_nil_r. rewrite <- E. symmetry. apply merge_sort_Permutation.
  - exists entries, total. by apply sort_within.
Qed.

Lemma extractAndProbe_runs archive gid extensions (s : world) :
  extensions = audioExtensions \/ extensions = videoExtensions -> filled [] s ->
  runs (extractAndProbe archive (rooted partial) (workspace_components request) gid extensions)
    (fun r s' => match r with inl artifacts => extracted artifacts s' | inr _ => others_kept s' end) s.
Proof.
  intros Hext Hf. unfold extractAndProbe. apply mruns_bind.
  eapply (mruns_mono _ _ _ (fun r s' => match r with
    | inl artifacts => filled artifacts s' /\ exists entries total, within_limits artifacts entries total
    | inr _ => others_kept s' end)).
  - apply (mruns_loop _ _ _ tar_ok).
    + clear s Hf. intros st s Hst. apply mruns_bind, mruns_check; [apply Hst|].
      intros [e|] s1 ->; [apply Hst|]. apply mruns_bind, mruns_call; [apply Hst|].
      intros [[header|]|e] s1 ->; [|apply mruns_ret; split; [apply Hst|]; do 2 eexists; apply Hst|apply Hst].
      apply mruns_bind. eapply mruns_mono; [by apply extract_member_runs|].
      intros [st'|e] s1 H1; [by apply mruns_ret|done].
    + by split; [|apply within_limits_nil].
  - intros [artifacts|e] s1 H1; [|done]. destruct H1 as (H1 & entries & total & Hl).
    apply mruns_bind, mruns_fail_when; [intros _; apply H1|]. intros Hne%bool_decide_eq_false.
    apply mruns_ret. by eapply sort_extracted.
Qed.

(** ** RAR archives *)

(** The directory where the archive is unpacked is removed at the end, with
    what was copied to the same place. *)
Definition quarantined (a : Artifact) : Prop :=
  head (split_on slash (ar_RelativePath a)) = Some quarantineName.

Definition left_in (base : list string) (lost : Artifact -> Prop) (artifacts : list Artifact) (s : world) : Prop :=
  others_kept s /\ Forall (fun a => lost a \/ stored base a s) artifacts /\
  exists entries total, within_limits artifacts entries total.

Definition quarantine : list string := (partial ++ [quarantineName])%list.

Lemma quarantine_path : filepath.Join (rooted partial) quarantineName = rooted quarantine.
Proof.
  assert (Forall element [quarantineName]) as H by (constructor; [by repeat split|constructor]).
  apply (Join_rooted partial [quarantineName]); [apply workspace_elements|done|done].
Qed.

Lemma key_quarantine : key (rooted quarantine) = quarantine.
Proof. apply key_partial. constructor; [by repeat split|constructor]. Qed.

Lemma quarantine_below : below partial quarantine.
Proof. by exists [quarantineName]. Qed.

Lemma validate_entries_Ok seen total entries :
  validate_entries seen total entries = inl tt ->
  Forall (fun entry => re_IsLink entry = false /\
    exists n, safeArchiveName (re_FileName entry) (re_IsDirectory entry) = Ok n) entries.
Proof.
  revert seen total. induction entries as [|entry entries IH]; intros seen total; [constructor|].
  cbn [validate_entries]. destruct (safeArchiveName _ _) as [n|] eqn:Hn; [|done].
  destruct (bool_decide _); [done|]. destruct (re_IsEncrypted entry); [done|].
  destruct (re_IsLink entry) eqn:Hl; [done|]. intros H. constructor; [eauto|].
  destruct (re_IsDirectory entry); [by eapply IH|]. destruct (re_FileSize entry) as [size|]; [|done].
  destruct (_ || _ || _); [done|by eapply IH].
Qed.

(** The archive of a listing that is accepted unpacks below its directory. *)
Lemma unpacks_below archive (s s' : world) :
  validateRARListing (en_listing env archive) = inl tt ->
  unpacks env archive (rooted quarantine) s s' -> changes_below quarantine s s'.
Proof.
  unfold validateRARListing. destruct (UnmarshalListing _) as [listing|] eqn:Hl; [|done]. cbv zeta.
  destruct (_ || _ || _); [done|]. intros Hv%validate_entries_Ok Hu k Hk. rewrite Forall_forall in Hv.
  apply (Hu listing Hl); [intros entry Hin; by apply Hv|]. intros entry Hin Hb. apply Hk.
  destruct (Hv entry Hin) as (_ & n & Hn). etrans; [|exact Hb]. unfold entry_path.
  apply safeArchiveName_input in Hn as Hname. destruct Hname as (Hname & Hne & Ha).
  apply safeArchiveName_Ok in Hn as [E Hel].
  assert (filepath.IsAbs (re_FileName entry) = false) as ->.
  { destruct Hname as [-> | ->]; [done|]. by rewrite IsAbs_app. }
  assert (filepath.Join (rooted quarantine) (re_FileName entry) = rooted (quarantine ++ split_on slash n)) as ->.
  { assert (Forall element quarantine) as Hq.
    { apply Forall_app. split; [apply workspace_elements|]. constructor; [by repeat split|constructor]. }
    destruct Hname as [-> | ->].
    - rewrite E at 1. apply Join_rooted; [done|done|apply split_on_nonempty].
    - rewrite E at 1. by apply Join_slash. }
  unfold key. rewrite path_elements_rooted; [by eexists|]. apply Forall_app. split; [|done].
  apply Forall_app. split; [apply workspace_elements|]. constructor; [by repeat split|constructor].
Qed.

Definition walk_ok (st : walk_state) (s : world) : Prop :=
  filled (ws_artifacts st) s /\ within_limits (ws_artifacts st) (ws_entries st) (ws_total st).

Lemma collect_file_runs gid extensions st call_ (s : world) :
  extensions = audioExtensions \/ extensions = videoExtensions -> walk_ok st s ->
  runs (collect_file (rooted quarantine) (rooted partial) (workspace_components request) gid extensions st call_)
    (fun r s' => match r with inl st' => walk_ok st' s' | inr _ => others_kept s' end) s.
Proof.
  intros Hext [Hf Hl]. unfold collect_file. cbv zeta.
  apply mruns_bind, mruns_fail_when; [intros _; apply Hf|]. intros Hn%bool_decide_eq_false.
  apply mruns_bind, mruns_of_result. destruct (safeArchiveName _ _) as [name|e] eqn:Hname; [|apply Hf].
  apply safeArchiveName_Ok in Hname as [E Hel].
  apply mruns_bind, mruns_of_sum. destruct (wk_Info call_) as [info|e]; [|apply Hf].
  apply mruns_bind, mruns_fail_when; [intros _; apply Hf|]. intros _.
  destruct (is_directory info).
  { apply mruns_ret. split; [done|]. cbn. rewrite <- (Z.add_0_r (ws_total st)).
    apply within_limits_skip; [done|lia|lia|]. pose proof (wl_total _ _ _ Hl). lia. }
  apply mruns_bind, mruns_fail_when; [intros _; apply Hf|]. intros Hs.
  apply orb_false_iff in Hs as [[Hs1%bool_decide_eq_false Hs2%bool_decide_eq_false]%orb_false_iff Hs3%bool_decide_eq_false].
  destruct (supported extensions name) eqn:Hsup; cbn [negb].
  - apply mruns_bind, mruns_check; [apply Hf|]. intros [e|] s1 ->; [apply Hf|].
    apply mruns_bind. unfold copyDirectoryFile. eapply mruns_mono; [by apply place_file_runs|].
    intros [a|e] s1 [H1 Ha]; [|by destruct H1]. destruct (Ha _ eq_refl) as (Er & Ez & content & Hh).
    apply mruns_bind. eapply probe_runs; try done; [by eapply supported_name| |by intros e; destruct H1].
    intros evidence H2. apply mruns_ret. split; [done|]. apply within_limits_snoc; try done; lia.
  - apply mruns_ret. split; [done|]. apply within_limits_skip; try done; lia.
Qed.

Lemma visit_extracted_runs gid extensions st call_ (s : world) :
  extensions = audioExtensions \/ extensions = videoExtensions -> walk_ok st s ->
  runs (visit_extracted (rooted quarantine) (rooted partial) (workspace_components request) gid extensions st call_)
    (fun r s' => match r with inl st' => walk_ok st' s' | inr _ => others_kept s' end) s.
Proof.
  intros Hext Hst. unfold visit_extracted.
  apply mruns_bind, mruns_of_sum. destruct (wk_Error call_); [apply Hst|].
  apply mruns_bind, mruns_check; [apply Hst|]. intros [e|] s1 ->; [apply Hst|].
  case_bool_decide; [by apply mruns_ret|by apply collect_file_runs].
Qed.

Lemma collectExtractedMedia_runs gid extensions (s : world) :
  extensions = audioExtensions \/ extensions = videoExtensions -> filled [] s ->
  runs (collectExtractedMedia (rooted quarantine) (rooted partial) (workspace_components request) gid extensions)
    (fun r s' => match r with inl artifacts => extracted artifacts s' | inr _ => others_kept s' end) s.
Proof.
  intros Hext Hf. unfold collectExtractedMedia. apply mruns_bind.
  eapply (mruns_mono _ _ _ (fun r s' => match r with
    | inl artifacts => filled artifacts s' /\ exists entries total, within_limits artifacts entries total
    | inr _ => others_kept s' end)).
  - apply (mruns_loop _ _ _ walk_ok); [|by split; [|apply within_limits_nil]].
    clear s Hf. intros st s Hst. apply mruns_bind, mruns_perform; [apply Hst|].
    intros [call_|] s1 ->; [|apply mruns_ret; split; [apply Hst|]; do 2 eexists; apply Hst].
    apply mruns_bind. eapply mruns_mono; [by apply visit_extracted_runs|].
    intros [st'|e] s1 H1; [by apply mruns_ret|done].
  - intros [artifacts|e] s1 H1; [|done]. destruct H1 as (H1 & entries & total & Hl).
    apply mruns_bind, mruns_fail_when; [intros _; apply H1|]. intros Hne%bool_decide_eq_false.
    apply mruns_ret. by eapply sort_extracted.
Qed.

Lemma unpack_rar_runs extensions archive gid (s : world) :
  extensions = audioExtensions \/ extensions = videoExtensions -> filled [] s ->
  runs (unpack_rar request extensions archive (rooted partial) gid)
    (fun r s' => match r with inl artifacts => left_in partial quarantined artifacts s' | inr _ => others_kept s' end) s.
Proof.
  intros Hext Hf. unfold unpack_rar. cbv zeta. rewrite quarantine_path.
  apply mruns_bind, mruns_check; [apply Hf|]. intros [e|] s1 ->; [apply Hf|].
  apply mruns_bind, mruns_with_error. unfold Extract.
  apply mruns_bind, mruns_call; [apply Hf|]. intros [data|e] s1 [-> Hd]; [|apply Hf].
  rewrite (Hd _ eq_refl). clear data Hd.
  apply mruns_bind, mruns_of_sum. destruct (validateRARListing _) as [[]|] eqn:Hlist; [|apply Hf].
  apply mruns_check; [apply Hf|]. intros x s1 Hb. cbn [answers] in Hb. apply (unpacks_below _ _ _ Hlist) in Hb.
  assert (others_kept s1) as H1 by (eapply others_kept_below; [left; apply quarantine_below|exact Hb|apply Hf]).
  destruct x as [e|]; [done|]. clear s Hf Hb.
  apply mruns_bind, mruns_with_error. eapply mruns_mono; [by apply collectExtractedMedia_runs|].
  intros [artifacts|e] s2 H2; [|done]. destruct H2 as (H3 & _ & Hl').
  apply mruns_bind, mruns_check; [apply H3|]. intros x s3 [Hc _]. rewrite key_quarantine in Hc.
  assert (others_kept s3) as H4 by (eapply others_kept_below; [left; apply quarantine_below|exact Hc|apply H3]).
  destruct x as [e|]; [done|]. apply mruns_ret. split_and!; [done| |done].
  eapply Forall_impl; [apply H3|]. intros a Ha.
  destruct (decide (head (split_on slash (ar_RelativePath a)) = Some quarantineName)) as [Hq|Hq]; [by left|].
  right. destruct Ha as (Hm & content & evidence & Hh & He). split; [done|]. exists content, evidence. split; [|done].
  eapply held_same; [|exact Hh]. apply Hc. unfold below, quarantine. intros [r Hr].
  rewrite <- app_assoc in Hr. apply app_inv_head in Hr. apply Hq. by rewrite Hr.
Qed.

(** ** From the partial workspace to the workspace *)

(** The manifest file of a workspace. *)
Definition has_manifest (base : list string) (m : manifest) (s : world) : Prop :=
  exists content, s !! (base ++ [workspaceManifest])%list = Some content /\ en_decodes env content m.

Lemma manifest_element : Forall element [workspaceManifest].
Proof. constructor; [by repeat split|constructor]. Qed.

Lemma remove_partial s x s' :
  others_kept s -> answers env _ (RemoveAll (rooted partial)) s x s' -> others_kept s'.
Proof.
  intros H [Hc _]. eapply others_kept_below; [|exact Hc|done]. left.
  pose proof (key_partial [] ltac:(constructor)) as E. rewrite app_nil_r in E. by rewrite E.
Qed.

Lemma remove_complete s x s' :
  others_kept s -> answers env _ (RemoveAll (rooted complete)) s x s' -> others_kept s'.
Proof.
  intros H [Hc _]. eapply others_kept_below; [|exact Hc|done]. right. left.
  pose proof (key_complete [] ltac:(constructor)) as E. rewrite app_nil_r in E. by rewrite E.
Qed.

Lemma prepareWorkspace_keeps rootPath gid :
  keeps others_kept (prepareWorkspace rootPath (rooted partial) (rooted complete) gid).
Proof.
  assert (forall s, others_kept s -> others_kept s) as HJ by done.
  assert (stable env others_kept (RemoveAll (rooted partial))) as Hr by (intros s x s'; apply remove_partial).
  unfold prepareWorkspace, workspaceGroup, ensureWorkspaceDirectory. keeps_tac HJ.
Qed.

Lemma clearWorkspace_keeps : keeps others_kept (clearWorkspace (rooted complete)).
Proof.
  assert (forall s, others_kept s -> others_kept s) as HJ by done.
  assert (stable env others_kept (RemoveAll (rooted complete))) as Hr by (intros s x s'; apply remove_complete).
  unfold clearWorkspace. keeps_tac HJ.
Qed.

Lemma workspaceGroup_keeps (J : world -> Prop) rootPath :
  (forall s, J s -> others_kept s) -> keeps J (workspaceGroup rootPath).
Proof. intros HJ. unfold workspaceGroup. keeps_tac HJ. Qed.

Lemma or_remove_runs {A} (p : program string A) (Q : A + string -> world -> Prop) s :
  runs p (fun r s' => match r with inl a => Q (inl a) s' | inr _ => others_kept s' end) s ->
  (forall e s', others_kept s' -> Q (inr e) s') ->
  runs (or_remove (rooted partial) p) Q s.
Proof.
  intros H HQ. apply safe_bind. eapply safe_conseq; [|exact H]. intros [a|e] s' Hs; [by apply safe_ret|].
  apply (mruns_bind env others_kept), mruns_perform; [done|].
  intros x s'' Ha. apply mruns_throw, HQ. by eapply remove_partial.
Qed.

Lemma finish_workspace_runs operation sourceFingerprint artifacts lost (s : world) :
  left_in partial lost artifacts s ->
  runs (finish_workspace (rooted partial) (rooted complete) request operation sourceFingerprint
          (workspace_components request) artifacts)
    (fun r s' => match r with
       | inl success => left_in complete lost artifacts s' /\
           has_manifest complete (mkManifest manifestVersion (rq_Operation request) sourceFingerprint success) s' /\
           success = mkSuccess SchemaVersion (rq_RequestID request) operation (rq_RootID request)
                       sourceFingerprint (workspace_components request) artifacts
       | inr _ => others_kept s' end) s.
Proof.
  intros (Hk & Hf & Hl). unfold finish_workspace, writeManifest. cbv zeta.
  pose proof manifest_element as Hm.
  assert (filepath.Join (rooted partial) workspaceManifest = rooted (partial ++ [workspaceManifest])) as ->
    by (apply (Join_rooted partial [workspaceManifest]); [apply workspace_elements|done|done]).
  set (success := mkSuccess _ _ _ _ _ _ _).
  set (m := mkManifest manifestVersion (rq_Operation request) sourceFingerprint success).
  apply mruns_bind, mruns_with_error, mruns_bind, mruns_check; [done|]. intros x s1 Ha. cbn [answers] in Ha.
  rewrite (key_partial _ Hm) in Ha.
  assert (left_in partial lost artifacts s1 /\ (x = None -> has_manifest partial m s1)) as [(Hk1 & Hf1 & _) Hman].
  { assert (s1 = s \/ exists content, s1 = <[(partial ++ [workspaceManifest])%list := content]> s) as Hs1.
    { destruct x; [done|]. destruct Ha as (content & -> & _). right. by exists content. }
    split.
    - destruct Hs1 as [-> |[content ->]]; [done|]. split_and!; [|clear Hl|done].
      + eapply others_kept_below; [left|apply insert_below|done]. by exists [workspaceManifest].
      + eapply Forall_impl; [exact Hf|]. intros a [?|(Hn & c & ev & Hh & He)]; [by left|]. right.
        split; [done|]. exists c, ev. split; [|done]. eapply held_same; [|exact Hh].
        apply lookup_insert_ne. intros E%app_inv_head. apply Hn.
        rewrite <- (join_split_slash (ar_RelativePath a)), <- E. done.
    - intros ->. destruct Ha as (content & -> & Hd). exists content. by rewrite lookup_insert_eq. }
  destruct x as [e|]; [done|]. specialize (Hman eq_refl). clear s Hk Hf Ha.
  apply mruns_check; [done|]. intros [e|] s2 ->; [done|].
  apply mruns_bind, mruns_check; [done|]. intros [e|] s2 Ha; cbn [answers] in Ha; [by subst|].
  pose proof (key_partial [] ltac:(constructor)) as Ep. pose proof (key_complete [] ltac:(constructor)) as Ec.
  rewrite app_nil_r in Ep, Ec. rewrite Ep, Ec in Ha. destruct Ha as [Ho Hn].
  apply mruns_ret. split; [|split; [|done]]. 1: split_and!; [|clear Hl|done].
  - intros k Hk1' Hk2' Hk3'. rewrite Ho by done. by apply Hk1.
  - eapply Forall_impl; [exact Hf1|]. intros a [?|(Hne & c & ev & [] & He)]; [by left|]. right.
    split; [done|]. exists c, ev. split; [|done]. split; try done. by rewrite Hn.
  - destruct Hman as (content & Hc & Hd). exists content. by rewrite Hn.
Qed.

(** ** A workspace that was completed before *)

(** Its files are there with the sizes that its manifest says. *)
Definition present (success : Success) (s : world) : Prop :=
  Forall (fun a => ar_PathComponents a =
      (workspace_components request ++ split_on slash (ar_RelativePath a))%list /\
      Forall element (split_on slash (ar_RelativePath a)) /\
      exists content, s !! (complete ++ split_on slash (ar_RelativePath a))%list = Some content /\
        ar_SizeBytes a = Z.of_nat (String.length content)) (su_Artifacts success).

Lemma load_artifacts_runs artifacts (s : world) :
  others_kept s ->
  runs (load_artifacts (rooted complete) (workspace_components request) artifacts)
    (fun r s' => s' = s /\ forall u, r = inl u -> Forall (fun a => ar_PathComponents a =
      (workspace_components request ++ split_on slash (ar_RelativePath a))%list /\
      Forall element (split_on slash (ar_RelativePath a)) /\
      exists content, s !! (complete ++ split_on slash (ar_RelativePath a))%list = Some content /\
        ar_SizeBytes a = Z.of_nat (String.length content)) artifacts) s.
Proof.
  intros Hk. induction artifacts as [|a artifacts IH]; [by apply mruns_ret|]. cbn [load_artifacts].
  apply mruns_bind, mruns_of_result. destruct (safeArchiveName _ _) as [name|e] eqn:Hname; [|done].
  assert (name = ar_RelativePath a) as En.
  { unfold safeArchiveName in Hname. cbv zeta in Hname. apply bind_Ok in Hname as (u & _ & Hname).
    apply bind_Ok in Hname as (u1 & Hc%fail_if_Ok & Hname). apply bind_Ok in Hname as (u2 & _ & Hname).
    injection Hname as <-. apply orb_false_iff in Hc as [_ Hc]. by apply negb_false_iff, bool_decide_eq_true in Hc. }
  apply safeArchiveName_Ok in Hname as [E Hel].
  apply mruns_bind, mruns_fail_when; [done|]. intros Hc%negb_false_iff%bool_decide_eq_true.
  apply mruns_bind, mruns_call; [done|]. intros x s1 [-> Hx]. rewrite (join_complete _ E Hel) in Hx.
  rewrite (key_complete _ Hel) in Hx. destruct x as [info|e]; [|done].
  apply mruns_bind, mruns_fail_when; [done|]. intros Hs.
  apply orb_false_iff in Hs as [Hr%negb_false_iff Hs%negb_false_iff%bool_decide_eq_true].
  eapply mruns_mono; [exact IH|]. intros r s2 [-> H]. split; [done|]. intros u Hu. constructor; [|by eapply H].
  rewrite En in Hc, Hel, Hx. split_and!; [done|done|]. unfold is_regular in Hr. apply bool_decide_eq_true in Hr.
  destruct (Hx _ eq_refl Hr) as (content & Hf & Hz). exists content. split; [done|congruence].
Qed.

(** A workspace that was complete before: the response is that of its manifest,
    and it has its files. *)
Record resumed (sourceFingerprint : string) (success : Success) (s : world) : Prop :=
  { re_manifest : exists m, has_manifest complete m s /\ ma_Version m = manifestVersion /\
      ma_SourceOperation m = rq_Operation request /\ ma_SourceFingerprint m = sourceFingerprint /\
      su_Operation (ma_Success m) = rq_Operation request /\
      success = with_request (rq_RequestID request) (ma_Success m);
    re_present : present success s }.

(** What a successful response says. *)
Definition about (success : Success) (sourceFingerprint : string) : Prop :=
  su_RequestID success = rq_RequestID request /\ su_RootID success = rq_RootID request /\
  su_SourceFingerprint success = sourceFingerprint /\
  su_WorkspaceComponents success = workspace_components request.

Lemma loadWorkspace_runs sourceFingerprint (s : world) :
  others_kept s ->
  runs (loadWorkspace (rooted complete) request (workspace_components request) sourceFingerprint)
    (fun r s' => s' = s /\ forall success, r = inl (Some success) ->
       about success sourceFingerprint /\ resumed sourceFingerprint success s') s.
Proof.
  intros Hk. unfold loadWorkspace. apply mruns_bind, mruns_perform; [done|]. intros [info|[|]] s1 [-> _];
    [|by apply mruns_ret|by apply mruns_throw].
  apply mruns_bind, mruns_fail_when; [done|]. intros _.
  pose proof manifest_element as Hme.
  assert (filepath.Join (rooted complete) workspaceManifest = rooted (complete ++ [workspaceManifest])) as ->
    by (apply (Join_rooted complete [workspaceManifest]); [apply workspace_elements|done|done]).
  apply mruns_bind, mruns_call; [done|]. intros [stored_|e] s1 [-> Hst]; [|done]. cbv zeta.
  specialize (Hst _ eq_refl). rewrite (key_complete _ Hme) in Hst.
  apply mruns_bind, mruns_fail_when; [done|]. intros Hm. split_bool.
  apply mruns_bind. eapply mruns_mono; [by apply load_artifacts_runs|]. intros [u|e] s1 [-> Ha]; [|done].
  specialize (Ha _ eq_refl). apply mruns_bind, mruns_of_result. destruct (validateResponse _); [|done].
  apply mruns_ret. split; [done|]. intros success [= <-]. split; [by split_and!|]. split; [|done].
  exists stored_. by split_and!.
Qed.

Lemma resume_runs sourceFingerprint verify (s : world) :
  untouched s -> (forall s', others_kept s' -> runs verify (fun _ s'' => s'' = s') s') ->
  runs (resume (rooted complete) request (workspace_components request) sourceFingerprint verify)
    (fun r s' => others_kept s' /\ forall success, r = inl (Some success) ->
       untouched s' /\ about success sourceFingerprint /\ resumed sourceFingerprint success s') s.
Proof.
  intros Hu Hv. pose proof (untouched_kept _ Hu) as Hk.
  unfold resume. apply mruns_bind, mruns_attempt. eapply mruns_mono; [by apply loadWorkspace_runs|].
  intros [[success|]|e] s1 [-> Hl].
  - apply mruns_bind. eapply mruns_mono; [by apply Hv|]. intros [u|e] s1 ->; [|done].
    apply mruns_ret. split; [done|]. intros success' [= <-]. by split; [|apply Hl].
  - by apply mruns_ret.
  - apply mruns_bind, mruns_with_error. eapply mruns_keeps; [apply clearWorkspace_keeps|done|].
    intros [u|e'] s1 H1; [|done]. by apply mruns_ret.
Qed.

(** ** The executors *)

(** The response is of a workspace that was there, and then no other than
    temporary files changed, or of a new one, which has a manifest of it. *)
Definition published (lost : Artifact -> Prop) (success : Success) (s : world) : Prop :=
  exists sourceFingerprint, about success sourceFingerprint /\
    (untouched s /\ resumed sourceFingerprint success s \/
     left_in complete lost (su_Artifacts success) s /\
     has_manifest complete (mkManifest manifestVersion (rq_Operation request) sourceFingerprint success) s).

Definition outcome (lost : Artifact -> Prop) (r : Success + string) (s : world) : Prop :=
  others_kept s /\ forall success, r = inl success -> published lost success s.

Lemma published_mono (lost lost' : Artifact -> Prop) success (s : world) :
  (forall a, lost a -> lost' a) -> published lost success s -> published lost' success s.
Proof.
  intros Hl (fp & Ha & [Hp|[(Hk & Hf & Hw) Hm]]); exists fp; (split; [done|]); [by left|right].
  split; [|done]. split_and!; [done| |done]. eapply Forall_impl; [exact Hf|].
  intros a [?|?]; [left; by apply Hl|by right].
Qed.

Context (Hpath : forall path, en_roots env !! rq_RootID request = Some path -> path = rooted root).

Lemma outcome_inr lost e s : others_kept s -> outcome lost (inr e) s.
Proof. by split. Qed.

Lemma execute_archive_runs extract lost (s : world) :
  (forall archive gid s', filled [] s' -> runs (extract archive (rooted partial) gid)
     (fun r s'' => match r with inl artifacts => left_in partial lost artifacts s'' | inr _ => others_kept s'' end) s') ->
  untouched s -> runs (execute_archive request extract) (outcome lost) s.
Proof.
  intros Hext Hu. pose proof (untouched_kept _ Hu) as Hk. unfold execute_archive.
  apply mruns_bind, mruns_check; [done|]. intros [e|] s1 ->; [by apply outcome_inr|].
  apply mruns_bind, mruns_call; [done|]. intros [archive|e] s1 ->; [|by apply outcome_inr].
  apply mruns_bind, mruns_call; [done|]. intros [snapshot|e] s1 ->; [|by apply outcome_inr]. cbv zeta.
  apply mruns_bind, mruns_call; [done|]. intros [path|e] s1 [-> Hp]; [|by apply outcome_inr].
  specialize (Hp _ eq_refl). apply Hpath in Hp as ->. rewrite complete_path, partial_path.
  apply mruns_bind, mruns_with_error. eapply mruns_keeps; [apply workspaceGroup_keeps, untouched_kept|exact Hu|].
  intros [gid|e] s1 H1; [|by apply outcome_inr, untouched_kept]. clear s Hu Hk.
  assert (forall s', others_kept s' -> runs (check reasonForError (VerifySource archive (rq_ExpectedFingerprint request)))
    (fun _ s'' => s'' = s') s') as Hv by (intros s' H; apply mruns_check; [done|]; by intros [e|] s'' ->).
  apply mruns_bind. eapply mruns_mono; [by apply resume_runs|].
  intros [[success|]|e] s2 [H2 Hs]; [|clear Hs|by apply outcome_inr].
  { apply mruns_ret. split; [done|]. intros success' [= <-]. destruct (Hs _ eq_refl) as (Hu2 & Hab & Hpr).
    eexists. split; [exact Hab|by left]. }
  apply mruns_bind, mruns_with_error. eapply mruns_keeps; [apply prepareWorkspace_keeps|done|].
  intros [[]|e] s3 H3; [|by apply outcome_inr]. apply or_remove_runs; [|intros; by apply outcome_inr].
  apply mruns_bind. eapply mruns_mono; [apply Hext; by split|]. intros [artifacts|e] s4 H4; [|done].
  apply mruns_bind. eapply mruns_mono; [apply Hv; apply H4|]. intros [[]|e] s5 ->; [|apply H4].
  eapply mruns_mono; [by apply finish_workspace_runs|]. intros [success|e] s6 H6; [|done].
  destruct H6 as (H6 & Hm & E). split; [apply H6|]. intros success' [= <-].
  exists (StableFingerprint snapshot). rewrite E in *. split; [done|]. by right.
Qed.

Lemma operation_extensions_cases audio video operation extensions :
  operation_extensions audio video operation = Some extensions ->
  extensions = audioExtensions \/ extensions = videoExtensions.
Proof.
  unfold operation_extensions. destruct (bool_decide _); [intros [= <-]; by left|].
  destruct (bool_decide _); [intros [= <-]; by right|done].
Qed.

Lemma Execute_runs (s : world) : untouched s -> runs (Execute request) (outcome (fun _ => False)) s.
Proof.
  intros Hk. unfold Execute. destruct (operation_extensions _ _ _) as [extensions|] eqn:Ho;
    [|by apply mruns_throw, outcome_inr, untouched_kept].
  apply operation_extensions_cases in Ho. apply execute_archive_runs; [|done]. intros archive gid s' Hf.
  apply mruns_with_error. eapply mruns_mono; [by apply extractAndProbe_runs|].
  intros [artifacts|e] s'' H; [|done]. destruct H as ([H1 H2] & _ & H3). split_and!; [done| |done].
  eapply Forall_impl; [exact H2|]. intros a Ha. by right.
Qed.

Lemma ExecuteRAR_runs has_rar (s : world) : untouched s -> runs (ExecuteRAR has_rar request) (outcome quarantined) s.
Proof.
  intros Hk. unfold ExecuteRAR.
  destruct has_rar; cbn [negb]; [|by apply mruns_throw, outcome_inr, untouched_kept].
  destruct (operation_extensions _ _ _) as [extensions|] eqn:Ho;
    [|by apply mruns_throw, outcome_inr, untouched_kept].
  apply operation_extensions_cases in Ho. apply execute_archive_runs; [|done]. intros archive gid s' Hf.
  by apply unpack_rar_runs.
Qed.

(** ** Directories *)

(** A file that was scanned, by the elements of its path below the source. *)
Definition scanned_file (f : directoryFile) : Prop :=
  df_relative f = join_slash (split_on slash (df_relative f)) /\
  Forall element (split_on slash (df_relative f)) /\ df_relative f <> workspaceManifest /\
  0 <= SizeBytes (df_snapshot f) <= maximumFileBytes.

Record scan_ok (st : scan_state) : Prop :=
  { so_files : Forall scanned_file (sc_files st);
    so_count : Z.of_nat (length (sc_files st)) <= sc_entries st <= maximumEntries;
    so_bytes : sum_Z (map (fun f => SizeBytes (df_snapshot f)) (sc_files st)) <= sc_bytes st <= maximumTotalBytes }.

Lemma child_element name n :
  bad_child name = false -> safeArchiveName name false = Ok n -> element name.
Proof.
  unfold bad_child. intros Hb Hs.
  apply orb_false_iff in Hb as [[[[H1%bool_decide_eq_false H2%bool_decide_eq_false]%orb_false_iff
    H3%bool_decide_eq_false]%orb_false_iff H4]%orb_false_iff _].
  cbn [contains_any existsb] in H4. apply orb_false_iff in H4 as [H4 _]. by split_and!.
Qed.

Lemma scan_file_ok name absolute relative snapshot st st' :
  scan_file name absolute (relative ++ [name]) snapshot
    (mkscan_state (sc_entries st + 1) (sc_files st) (sc_cueFiles st) (sc_bytes st)) = inl st' ->
  sc_entries st + 1 <= maximumEntries ->
  bad_child name = false -> Forall element relative -> scan_ok st -> scan_ok st'.
Proof.
  unfold scan_file. intros H Hn Hb Hr [Hf Hc Ht].
  destruct (supported audioExtensions name) eqn:Ha; cbn [negb andb] in H.
  2: { destruct (cueCandidate name); cbn [negb] in H; [|injection H as <-; split; cbn; [done|lia|done]].
       destruct (safeArchiveName name false); [|done]. destruct (_ || _) eqn:El; [done|]. injection H as <-.
       apply orb_false_iff in El as [[E1%bool_decide_eq_false E2]%orb_false_iff E3%bool_decide_eq_false].
       assert (0 < SizeBytes snapshot) as Hsz by lia. clear E1 E2.
       cbn [sc_files sc_entries sc_bytes] in *.
       split; cbn [sc_files sc_entries sc_bytes]; [done|lia|lia]. }
  destruct (safeArchiveName name false) eqn:Hs; [|done]. pose proof (child_element _ _ Hb Hs) as He.
  destruct (_ || _) eqn:El; [done|]. injection H as <-.
  apply orb_false_iff in El as [[E1%bool_decide_eq_false E2%bool_decide_eq_false]%orb_false_iff E3%bool_decide_eq_false].
  assert (Forall element (relative ++ [name])) as Hel by (apply Forall_app; split; [done|by constructor]).
  assert (split_on slash (join_slash (relative ++ [name])) = (relative ++ [name])%list) as Esp
    by (apply split_join; [by destruct relative|done]).
  cbn [sc_files sc_entries sc_bytes] in *. split; cbn [sc_files sc_entries sc_bytes].
  - apply Forall_app. split; [done|]. apply Forall_singleton. unfold scanned_file.
    cbn [df_relative df_snapshot]. rewrite Esp. split_and!; [done|done| |lia|].
    + intros E. rewrite E in Esp. destruct relative as [|x l].
      * injection Esp as <-. by vm_compute in Ha.
      * by destruct l.
    + assert (MaximumBytes <= maximumFileBytes) by (unfold MaximumBytes, maximumFileBytes; lia).
      destruct (cueCandidate name); lia.
  - rewrite length_app. cbn [length]. lia.
  - rewrite map_app. cbn [map df_snapshot]. rewrite sum_Z_snoc. lia.
Qed.

Definition quiet_scan (p : program mat_error scan_state) : Prop :=
  forall s, others_kept s -> runs p (fun r s' => s' = s /\ forall st, r = inl st -> scan_ok st) s.

Lemma visit_children_quiet visit_child d absolute relative children st :
  (forall absolute relative st, Forall element relative -> scan_ok st -> quiet_scan (visit_child absolute relative st)) ->
  Forall element relative -> scan_ok st ->
  quiet_scan (visit_children visit_child d absolute relative children st).
Proof.
  intros Hv Hr. revert st. induction children as [|name children IH]; intros st Hst s Hk.
  { apply mruns_ret. split; [done|]. by intros st' [= <-]. }
  cbn [visit_children]. cbv zeta. apply mruns_bind, mruns_fail_when; [done|]. intros Hn%bool_decide_eq_false.
  apply mruns_bind, mruns_fail_when; [done|]. intros Hb.
  apply mruns_bind, mruns_call; [done|]. intros [stat|e] s1 ->; [|done].
  assert (scan_ok (mkscan_state (sc_entries st + 1) (sc_files st) (sc_cueFiles st) (sc_bytes st))) as Hst'.
  { destruct Hst as [Hf Hc Ht]. split; cbn; [done|lia|done]. }
  apply mruns_bind. destruct (cs_Type stat).
  - apply mruns_bind, mruns_of_result. destruct (safeArchiveName name false) eqn:Hs; [|done].
    eapply mruns_mono; [apply Hv; [|exact Hst'|done]|].
    + apply Forall_app. split; [done|]. apply Forall_singleton. by eapply child_element.
    + intros [st1|e] s2 [-> H]; [|done]. by apply IH; [apply H|].
  - apply mruns_of_sum. destruct (scan_file _ _ _ _ _) as [st1|e] eqn:Hs; [|done].
    apply IH; [|done]. eapply scan_file_ok; [exact Hs|lia|done|done|done].
  - by apply mruns_throw.
  - by apply mruns_throw.
Qed.

Lemma visit_quiet rootID below absolute relative st :
  Forall element relative -> scan_ok st -> quiet_scan (visit rootID below absolute relative st).
Proof.
  revert absolute relative st. induction below as [|below IH]; intros absolute relative st Hr Hst s Hk; cbn [visit];
    (apply mruns_bind, mruns_check; [done|]; intros [e|] s1 ->; [done|];
     apply mruns_bind, mruns_call; [done|]; intros [d|e] s1 ->; [|done];
     apply mruns_bind, mruns_attempt, mruns_bind, mruns_call; [done|]; intros [children|e] s1 ->;
     [eapply mruns_mono; [apply visit_children_quiet; [|done|done|done]|]|]).
  1: { intros a r st' _ _ s' _. by apply mruns_throw. }
  3: { intros a r st' Hr' Hst'. by apply IH. }
  1, 3: intros r s1 [-> H]; apply mruns_bind, mruns_perform; [done|];
    intros closed s1 ->; destruct r as [st1|e], closed as [e'|];
    first [by apply mruns_throw|apply mruns_ret; split; [done|]; intros st2 [= <-]; by apply H].
  all: apply mruns_bind, mruns_perform; [done|]; intros [e'|] s1 ->; by apply mruns_throw.
Qed.

(** What [scanDirectory] finds are files of the directory, within the limits. *)
Definition source_ok (source : directorySource) : Prop :=
  exists st, scan_ok st /\ ds_files source = sc_files st.

Lemma read_source_keeps (J : world -> Prop) {A} rootID file (p : handle -> program mat_error A) :
  (forall s, J s -> others_kept s) -> (forall f, keeps J (p f)) -> keeps J (read_source rootID file p).
Proof. intros HJ Hp. unfold read_source. keeps_tac HJ. apply Hp. Qed.

Lemma Inspect_keeps (J : world -> Prop) f : (forall s, J s -> others_kept s) -> keeps J (Inspect f).
Proof. intros HJ. unfold Inspect. keeps_tac HJ. Qed.

(** A predicate that temporary files do not matter to. *)
Definition ignores_temporary (J : world -> Prop) : Prop :=
  forall s s', J s -> changes_below (en_temporary env) s s' -> J s'.

Lemma InspectEmbedded_keeps (J : world -> Prop) f :
  (forall s, J s -> others_kept s) -> ignores_temporary J -> keeps J (InspectEmbedded f).
Proof.
  intros HJ Ht. assert (stable env J (ExtractWavPackCue f)) as He by (intros s x s' H Ha; by eapply Ht).
  assert (forall cue, stable env J (StoreTemporary cue)) as Hs by (intros cue s x s' H Ha; by eapply Ht).
  assert (forall g, stable env J (RemoveTemporary g)) as Hr by (intros g s x s' H Ha; by eapply Ht).
  unfold InspectEmbedded. keeps_tac HJ; first [by apply Inspect_keeps|apply Hs|apply Hr].
Qed.

Lemma readCuePlan_keeps (J : world -> Prop) has_cue rootID audio cues :
  (forall s, J s -> others_kept s) -> ignores_temporary J -> keeps J (readCuePlan has_cue rootID audio cues).
Proof.
  intros HJ Ht. unfold readCuePlan, readEmbeddedCuePlan.
  keeps_tac HJ; try (apply read_source_keeps; [done|]; intros f;
    first [by apply InspectEmbedded_keeps|by apply Inspect_keeps]); keeps_tac HJ.
  generalize (None : option cuePlan). induction cues as [|c cues IH]; intros selected; cbn [read_cue_files];
    keeps_tac HJ; try apply IH. apply read_source_keeps; [done|]. intros f. by apply Inspect_keeps.
Qed.

Lemma scanDirectory_runs has_cue rootID components (s : world) :
  others_kept s ->
  runs (scanDirectory has_cue rootID components)
    (fun r s' => changes_below (en_temporary env) s s' /\ forall source, r = inl source -> source_ok source) s.
Proof.
  intros Hk. unfold scanDirectory. apply mruns_bind. eapply mruns_mono; [apply visit_quiet; [constructor| |done]|].
  { split; cbn; [constructor|unfold maximumEntries; lia|unfold maximumTotalBytes; lia]. }
  intros [st|e] s1 [-> Hst]; [|done]. specialize (Hst _ eq_refl).
  apply mruns_bind, mruns_fail_when; [done|]. intros _.
  apply mruns_bind. eapply (mruns_keeps _ _ (changes_below (en_temporary env) s)); [|done|].
  { apply readCuePlan_keeps.
    - intros s1 Hs1. eapply others_kept_below; [by right; right|exact Hs1|done].
    - intros s1 s2. apply changes_below_trans. }
  intros [plan|e] s1 Hs1; [|done]. apply mruns_ret. split; [done|]. intros source [= <-]. by exists st.
Qed.

(** *** Copying the files of a directory *)

Lemma scanned_within st artifacts :
  scan_ok st -> map ar_SizeBytes artifacts = map (fun f => SizeBytes (df_snapshot f)) (sc_files st) ->
  within_limits artifacts (sc_entries st) (sc_bytes st).
Proof.
  intros [Hf Hc Ht] E. pose proof (f_equal length E) as El. rewrite !length_map in El.
  split; [by rewrite El|by rewrite E|].
  clear Hc Ht El. revert Hf E. generalize (sc_files st). induction artifacts as [|a artifacts IH]; [constructor|].
  intros [|f files] Hf E; [done|]. injection E as Ea E. apply Forall_cons in Hf as [(_ & _ & _ & Hz) Hf].
  constructor; [lia|by eapply IH].
Qed.

Lemma copy_files_runs rootID gid files artifacts (s : world) :
  Forall scanned_file files -> filled artifacts s ->
  runs (copy_files rootID (rooted partial) (workspace_components request) gid files)
    (fun r s' => match r with
       | inl others => filled (artifacts ++ others)%list s' /\
           map ar_SizeBytes others = map (fun f => SizeBytes (df_snapshot f)) files
       | inr _ => others_kept s' end) s.
Proof.
  intros Hfiles. revert artifacts s. induction Hfiles as [|f files (E & Hel & Hne & _) Hfiles IH];
    intros artifacts s Hf; cbn [copy_files].
  { apply mruns_ret. by rewrite app_nil_r. }
  apply mruns_bind, mruns_check; [apply Hf|]. intros [e|] s1 ->; [apply Hf|].
  apply mruns_bind, mruns_call; [apply Hf|]. intros [input|e] s1 ->; [|apply Hf].
  apply mruns_bind, mruns_attempt. unfold copyDirectoryFile. eapply mruns_mono; [by apply place_file_runs|].
  intros r s1 [H1 Hr]. apply mruns_bind, mruns_perform; [apply H1|]. intros verified s2 ->.
  apply mruns_bind, mruns_perform; [apply H1|]. intros closed s2 ->.
  destruct r as [a|e]; [|apply mruns_throw, H1].
  destruct verified; [apply mruns_throw, H1|]. destruct closed; [apply mruns_throw, H1|].
  destruct (Hr _ eq_refl) as (Er & Ez & content & Hh).
  apply mruns_bind. eapply probe_runs; try done; [|by intros e; destruct H1].
  intros evidence H2. apply mruns_bind. eapply mruns_mono; [by apply IH|].
  intros [others|e] s3 H3; [|done]. apply mruns_ret. destruct H3 as [H3 H4]. split; [by rewrite <- app_assoc in H3|].
  cbn [map ar_SizeBytes with_evidence]. by f_equal.
Qed.

(** *** Splitting an image *)

Definition track_ok (name : string) : Prop :=
  element name /\ name <> workspaceManifest /\ split_on slash name = [name].

Lemma track_name_ok i : (i < 99)%nat -> track_ok (track_name i).
Proof.
  intros Hi. assert (Forall track_ok (map track_name (seq 0 99))) as H.
  { unfold track_ok, element. apply (bool_decide_unpack _). vm_compute. exact I. }
  rewrite Forall_forall in H. apply H, list_elem_of_In, in_map, in_seq. lia.
Qed.

Lemma key_track name : track_ok name ->
  filepath.Join (rooted partial) name = rooted (partial ++ [name]) /\
  key (rooted (partial ++ [name])) = (partial ++ [name])%list.
Proof.
  intros (He & _ & _). assert (Forall element [name]) as H by by constructor.
  split; [apply (Join_rooted partial [name]); [apply workspace_elements|done|done]|by apply key_partial].
Qed.

Lemma cut_tracks_runs input index starts outputs (s : world) :
  (index + length starts <= 99)%nat -> Forall track_ok outputs -> others_kept s ->
  runs (cut_tracks input (rooted partial) index starts outputs)
    (fun r s' => others_kept s' /\ forall names, r = inl names ->
       Forall track_ok names /\ length names = (length outputs + length starts)%nat) s.
Proof.
  revert index outputs s. induction starts as [|start starts IH]; intros index outputs s Hi Ho Hk; cbn [cut_tracks].
  { apply mruns_ret. split; [done|]. intros names [= <-]. split; [done|]. cbn. lia. }
  cbn [length] in Hi. assert (track_ok (track_name index)) as Ht by (apply track_name_ok; lia).
  apply mruns_bind, mruns_check; [done|]. intros [e|] s1 ->; [done|]. cbv zeta.
  destruct (key_track _ Ht) as [-> Ek].
  apply mruns_bind, mruns_check; [done|]. intros x s1 Hc. cbn [answers] in Hc. rewrite Ek in Hc.
  assert (others_kept s1) as H1.
  { eapply others_kept_below; [left|exact Hc|done]. by exists [track_name index]. }
  destruct x as [e|]; [done|]. eapply mruns_mono; [apply IH; [lia| |done]|].
  - apply Forall_app. split; [done|]. by constructor.
  - intros r s2 [H2 Hr]. split; [done|]. intros names Hn. destruct (Hr _ Hn) as [Hf Hl]. split; [done|].
    rewrite Hl, length_app. cbn [length]. lia.
Qed.

Lemma Split_runs input plan (s : world) :
  others_kept s ->
  runs (Split input plan (rooted partial))
    (fun r s' => others_kept s' /\ forall names, r = inl names ->
       Forall track_ok names /\ (length names <= 99)%nat) s.
Proof.
  intros Hk. unfold Split. cbv zeta. apply mruns_bind, mruns_fail_when; [done|]. intros Hc.
  apply orb_false_iff in Hc as [[_ Hc%bool_decide_eq_false]%orb_false_iff _]. unfold maximumTracks in Hc.
  eapply mruns_mono; [apply cut_tracks_runs; [lia|constructor|done]|].
  intros r s1 [H1 Hr]. split; [done|]. intros names Hn. destruct (Hr _ Hn) as [Hf Hl]. split; [done|].
  rewrite Hl. cbn [length]. lia.
Qed.

Lemma collect_outputs_runs gid total names artifacts entries (s : world) :
  Forall track_ok names -> filled artifacts s -> within_limits artifacts entries total ->
  entries + Z.of_nat (length names) <= maximumEntries ->
  runs (collect_outputs (rooted partial) (workspace_components request) gid total names)
    (fun r s' => match r with
       | inl others => filled (artifacts ++ others)%list s' /\
           exists entries total, within_limits (artifacts ++ others)%list entries total
       | inr _ => others_kept s' end) s.
Proof.
  intros Hn. revert artifacts entries total s. induction Hn as [|name names Ht Hn IH];
    intros artifacts entries total s Hf Hl Hm; cbn [collect_outputs].
  { apply mruns_ret. rewrite app_nil_r. eauto. }
  cbn [length] in Hm. pose proof (key_track _ Ht) as [Ej Ek]. pose proof Ht as (He & Hne & Es).
  apply mruns_bind, mruns_of_result. destruct (safeArchiveName name false); [|apply Hf].
  apply mruns_bind, mruns_fail_when; [intros _; apply Hf|]. intros _. cbv zeta. rewrite !Ej.
  apply mruns_bind, mruns_call; [apply Hf|]. intros [info|e] s1 [-> _]; [|apply Hf].
  apply mruns_bind, mruns_fail_when; [intros _; apply Hf|]. intros Hs.
  apply orb_false_iff in Hs as [[[_ Hs1%bool_decide_eq_false]%orb_false_iff Hs2%bool_decide_eq_false]%orb_false_iff
    Hs3%bool_decide_eq_false].
  apply mruns_bind, mruns_check; [apply Hf|]. intros [e|] s1 ->; [apply Hf|].
  apply mruns_bind, mruns_check; [apply Hf|]. intros [e|] s1 ->; [apply Hf|].
  apply mruns_bind, mruns_with_error. unfold generatedArtifact.
  apply mruns_bind, mruns_perform; [apply Hf|]. intros [content failure] s1 Ha. cbn [answers] in Ha.
  rewrite Ek in Ha. destruct Ha as [-> Ha].
  apply mruns_bind, mruns_fail_when; [intros _; apply Hf|]. intros Hok.
  apply orb_false_iff in Hok as [Hc%bool_decide_eq_false Hsz%negb_false_iff%bool_decide_eq_true].
  destruct failure as [e|]; [by destruct Hc|]. specialize (Ha eq_refl). cbn [fst] in Ha. cbv zeta. apply mruns_ret.
  set (art := mkArtifact _ _ _ _ _ _).
  assert (held partial art content s) as Hh by (split; cbn [ar_RelativePath ar_PathComponents art]; rewrite ?Es;
    try done; by constructor).
  apply mruns_bind. rewrite <- Ej.
  eapply (probe_runs artifacts _ art name); try done; [by rewrite join_split_slash|intros evidence H2|by intros e; destruct Hf].
  apply mruns_bind. eapply mruns_mono; [eapply IH; [exact H2| |]|].
  - apply within_limits_snoc; try done; lia.
  - lia.
  - intros [others|e] s3 H3; [|done]. apply mruns_ret. by rewrite <- app_assoc in H3.
Qed.

Lemma copyAndProbeDirectory_runs rootID source gid (s : world) :
  source_ok source -> filled [] s ->
  runs (copyAndProbeDirectory rootID source (rooted partial) (workspace_components request) gid)
    (fun r s' => match r with
       | inl artifacts => left_in partial (fun _ => False) artifacts s'
       | inr _ => others_kept s' end) s.
Proof.
  intros (st & Hst & Efiles) Hf. unfold copyAndProbeDirectory.
  assert (forall artifacts s', filled artifacts s' -> (exists entries total, within_limits artifacts entries total) ->
    left_in partial (fun _ => False) artifacts s') as Hleft.
  { intros artifacts s' [H1 H2] H3. split_and!; [done| |done]. eapply Forall_impl; [exact H2|]. by right. }
  destruct (ds_cue source) as [plan|].
  - unfold splitAndProbeDirectory. apply mruns_bind, mruns_call; [apply Hf|]. intros [image|e] s1 ->; [|apply Hf].
    apply mruns_bind, mruns_attempt. eapply mruns_mono; [apply Split_runs, Hf|]. intros r s1 [H1 Hr].
    apply mruns_bind, mruns_perform; [done|]. intros verified s2 ->.
    destruct r as [names|e]; [|by apply mruns_throw]. destruct verified; [by apply mruns_throw|].
    destruct (Hr _ eq_refl) as [Hn Hlen].
    apply mruns_bind. eapply mruns_mono; [apply (collect_outputs_runs _ _ _ [] 0)|].
    + done.
    + by split.
    + apply within_limits_nil.
    + unfold maximumEntries. lia.
    + intros [others|e] s3 H3; [|done]. destruct H3 as [H3 H4].
      apply mruns_bind, mruns_fail_when; [intros _; apply H3|]. intros _. apply mruns_ret. by apply Hleft.
  - rewrite Efiles. eapply mruns_mono; [apply (copy_files_runs _ _ _ []); [apply Hst|done]|].
    intros [artifacts|e] s1 H1; [|done]. destruct H1 as [H1 H2]. apply Hleft; [done|].
    do 2 eexists. by eapply scanned_within.
Qed.

Lemma left_in_temporary lost artifacts (s s' : world) :
  changes_below (en_temporary env) s s' -> left_in partial lost artifacts s -> left_in partial lost artifacts s'.
Proof.
  intros Hc (Hk & Hf & Hl). split_and!; [|clear Hl|done].
  - eapply others_kept_below; [by right; right|exact Hc|done].
  - eapply Forall_impl; [exact Hf|]. intros a [?|Ha]; [by left|right]. by eapply stored_partial_temporary.
Qed.

Lemma ExecuteDirectory_runs has_cue (s : world) :
  untouched s -> runs (ExecuteDirectory has_cue request) (outcome (fun _ => False)) s.
Proof.
  intros Hu. pose proof (untouched_kept _ Hu) as Hk. unfold ExecuteDirectory.
  apply mruns_bind, mruns_check; [done|]. intros [e|] s1 ->; [by apply outcome_inr|].
  apply mruns_bind, mruns_with_error. eapply mruns_mono; [by apply scanDirectory_runs|].
  intros r s1 [Hs1 Hsrc]. assert (untouched s1) as Hu1 by by eapply changes_below_trans.
  clear s Hu Hk Hs1. pose proof (untouched_kept _ Hu1) as Hk1.
  destruct r as [source|e]; [|by apply outcome_inr]. specialize (Hsrc _ eq_refl).
  apply mruns_bind, mruns_call; [done|]. intros [path|e] s2 [-> Hp]; [|by apply outcome_inr]. cbv zeta.
  specialize (Hp _ eq_refl). apply Hpath in Hp as ->. rewrite complete_path, partial_path.
  apply mruns_bind, mruns_with_error. eapply mruns_keeps; [apply workspaceGroup_keeps, untouched_kept|exact Hu1|].
  intros [gid|e] s2 H1; [|by apply outcome_inr, untouched_kept]. clear s1 Hu1 Hk1.
  apply mruns_bind. eapply mruns_mono; [apply resume_runs; [exact H1|]|].
  { intros s' H. by apply mruns_ret. }
  intros [[success|]|e] s3 [H2 Hs]; [|clear Hs|by apply outcome_inr].
  { apply mruns_ret. split; [done|]. intros success' [= <-]. destruct (Hs _ eq_refl) as (Hu2 & Hab & Hpr).
    eexists. split; [exact Hab|by left]. }
  clear s2 H1. apply mruns_bind, mruns_with_error. eapply mruns_keeps; [apply prepareWorkspace_keeps|done|].
  intros [[]|e] s2 H3; [|by apply outcome_inr]. apply or_remove_runs; [|intros; by apply outcome_inr].
  apply mruns_bind, mruns_with_error. eapply mruns_mono; [apply copyAndProbeDirectory_runs; [done|by split]|].
  intros [artifacts|e] s4 H4; [|done].
  apply mruns_bind, mruns_with_error. eapply mruns_mono; [apply scanDirectory_runs, H4|].
  intros r s5 [H5 _]. apply (left_in_temporary _ _ _ _ H5) in H4. clear H5.
  destruct r as [current|e]; [|apply H4].
  apply mruns_bind, mruns_fail_when; [intros _; apply H4|]. intros _.
  eapply mruns_mono; [by apply finish_workspace_runs|]. intros [success|e] s6 H6; [|done].
  destruct H6 as (H6 & Hm & E). split; [apply H6|]. intros success' [= <-].
  exists (ds_fingerprint source). rewrite E in *. split; [done|]. by right.
Qed.
End workspace.

(** ** The helper *)

(** The files of a RAR archive that are lost. *)
Definition lost (operation : string) (a : Artifact) : Prop :=
  operation ∈ ["/v1/materialize/rar-audio"; "/v1/materialize/rar-video"] /\ quarantined a.

Lemma execution_runs (env : Environment) (listings : ListingCodec) (operation : string) (request : Request)
    (root : list string) (s0 : world) :
  Forall element root -> opaqueID (rq_WorkspaceID request) = true ->
  ~ below (en_temporary env) root -> ~ below root (en_temporary env) ->
  (forall path, en_roots env !! rq_RootID request = Some path -> path = rooted root) ->
  runs env (others_kept env request root s0) (execution operation request)
    (outcome env request root s0 (lost operation)) s0.
Proof.
  intros He Hid Ht Ht' Hpath.
  assert (untouched env s0 s0) as Hk by done.
  assert (forall l, (forall a, l a -> lost operation a) -> forall r s,
    outcome env request root s0 l r s -> outcome env request root s0 (lost operation) r s) as Hmono.
  { intros l Hl r s [Hs1 Hs2]. split; [done|]. intros success Hs. eapply published_mono; [exact Hl|by apply Hs2]. }
  unfold execution. case_bool_decide as Hrar; [|case_bool_decide].
  - eapply mruns_mono; [by apply ExecuteRAR_runs|]. apply Hmono. by split.
  - eapply mruns_mono; [by apply ExecuteDirectory_runs|]. by apply Hmono.
  - eapply mruns_mono; [by apply Execute_runs|]. by apply Hmono.
Qed.

(** C18. Whatever an archive, a directory or a tool makes of it and wherever it
    is stopped, a materialization changes no file outside its workspace and its
    partial workspace below the root, but temporary files. When it reports
    success, either it resumed a workspace: no other than temporary files
    changed, the workspace has a manifest of this operation and source, of which
    the response is, and every artifact is a file of the workspace of the
    reported size. Or it made the workspace: its manifest is of the response,
    and every artifact is a file of it with the reported size, digest and
    identity, was probed, and is within the limits. The exception are members of
    a RAR archive below the directory where it is unpacked, whose files may be
    lost, although they are reported. *)
Theorem materialization_confined (env : Environment) (listings : ListingCodec) (operation : string)
    (request : Request) (path : string) (s0 : world) :
  validateRequest request = Ok tt ->
  en_roots env !! rq_RootID request = Some path -> mediafile.validRootPath path = true ->
  let root := key path in
  ~ below (en_temporary env) root -> ~ below root (en_temporary env) ->
  safe (fun X (_ : materializeE X) s => others_kept env request root s0 s) (answers env)
    (materialize operation request)
    (fun response s => others_kept env request root s0 s /\
       forall success, rs_Success response = Some success ->
         published env request root s0 (lost operation) success s) s0.
Proof.
  intros Hv Hr Hp root Ht Ht'. unfold mediafile.validRootPath in Hp. split_bool.
  destruct (rooted_clean path) as [E He]; [done..|].
  apply safe_bind. eapply safe_conseq; [|eapply (execution_runs env listings operation request root s0)].
  - intros r s [Hk Hs]. apply safe_ret. split; [done|]. destruct r as [success|reason]; [|done].
    intros success' [= <-]. by apply Hs.
  - done.
  - by apply validateRequest_identity.
  - done.
  - done.
  - intros p Hp'. rewrite Hr in Hp'. by injection Hp' as <-.
Qed.

(** ** Cue sheets *)

Lemma breakpoints_sorted found lines starts :
  breakpoints found lines = Ok starts ->
  Sorted Z.lt (0 :: rev found) -> Sorted Z.lt (0 :: starts).
Proof.
  revert found. induction lines as [|line lines IH]; intros found; cbn [breakpoints].
  { by intros [= <-]. }
  destruct (too_long line); [done|]. intros H Hs. apply bind_Ok in H as (start & _ & H).
  apply bind_Ok in H as (u & Hc%fail_if_Ok & H). apply (IH _ H). clear IH H.
  apply orb_false_iff in Hc as [Hc%bool_decide_eq_false _]. cbn [rev].
  change (0 :: (rev found ++ [start]))%list with ((0 :: rev found) ++ [start])%list.
  apply Sorted_snoc; [done|]. destruct found as [|last found]; cbn in Hc |- *.
  - apply (TlRel_cons _ _ 0 []). lia.
  - change (0 :: (rev found ++ [last]))%list with ((0 :: rev found) ++ [last])%list. apply TlRel_cons. lia.
Qed.

(** The starts of the tracks of a cue sheet: the first one at the beginning of
    the image, each later than the one before. *)
Definition well_cut (plan : Plan) : Prop :=
  head (pl_Starts plan) = Some 0 /\ Sorted Z.lt (pl_Starts plan) /\
  2 <= Z.of_nat (length (pl_Starts plan)) <= maximumTracks.

(** Whatever the tools print, a plan that inspecting a cue sheet returns has
    between two and ninety-nine tracks, the first one at the beginning of the
    image and each later than the one before. *)
Theorem Inspect_well_cut (env : Environment) (listings : ListingCodec) (input : Z) (s : world) :
  runs env (fun _ => True) (Inspect input)
    (fun r _ => forall plan, r = inl plan -> well_cut plan) s.
Proof.
  unfold Inspect. apply mruns_bind, mruns_call; [done|]. intros [toc|e] s1 _; [|done].
  apply mruns_bind, mruns_of_result. destruct (audioTrackCount toc) as [tracks|e] eqn:Ht; [|done].
  apply mruns_bind, mruns_call; [done|]. intros [output|e] s2 _; [|done].
  apply mruns_bind, mruns_of_result. destruct (parseBreakpoints output) as [starts|e] eqn:Hb; [|done].
  apply mruns_bind, mruns_fail_when; [done|]. intros Hn%negb_false_iff%bool_decide_eq_true.
  apply mruns_ret. intros plan [= <-]. unfold audioTrackCount in Ht. apply bind_Ok in Ht as (n & _ & Ht).
  apply bind_Ok in Ht as (u & Hc%fail_if_Ok & Ht). injection Ht as <-.
  apply orb_false_iff in Hc as [Hc1%bool_decide_eq_false Hc2%bool_decide_eq_false].
  apply breakpoints_sorted in Hb; [|by repeat constructor].
  split; [done|]. split; [done|]. cbn [pl_Starts length]. lia.
Qed.

(** ** Every materialization ends

    Whatever a stream of archive members is answered: the number of entries is
    limited. Only [filepath.WalkDir] must not visit the root of its walk for
    ever, which [visits] counts. *)
Section termination.
Context {S : Type} (h : forall X, materializeE X -> S -> X * S) (visits : S -> nat).

(** The program returns, as [Q] says. *)
Definition ends {R} (p : itree materializeE R) (Q : R -> S -> Prop) (s : S) : Prop :=
  exists r s', returns h p s r s' /\ Q r s'.

Lemma ends_bind {R R'} (p : itree materializeE R) (k : R -> itree materializeE R') Q s :
  ends p (fun r s' => ends (k r) Q s') s -> ends (ITree.bind p k) Q s.
Proof.
  intros (r & s1 & H1 & r' & s2 & H2 & HQ). exists r', s2. split; [|done]. by eapply returns_bind.
Qed.

Lemma ends_ret {R} (r : R) (Q : R -> S -> Prop) s : Q r s -> ends (Ret r) Q s.
Proof. intros H. exists r, s. split; [by exists 1%nat|done]. Qed.

Lemma ends_trigger {X} (e : materializeE X) (Q : X -> S -> Prop) s :
  Q (h X e s).1 (h X e s).2 -> ends (ITree.trigger e) Q s.
Proof.
  intros H. exists (h X e s).1, (h X e s).2. split; [|done]. exists 2%nat. cbn. by destruct (h X e s).
Qed.

Lemma ends_mono {R} (p : itree materializeE R) (P Q : R -> S -> Prop) s :
  ends p P s -> (forall r s', P r s' -> Q r s') -> ends p Q s.
Proof. intros (r & s' & H & HP) HPQ. exists r, s'. split; [done|by apply HPQ]. Qed.

(** A loop ends when a number gets smaller in every round. *)
Lemma ends_loop {Err A B} (body : A -> program Err (A + B)) (I : A -> S -> Prop) (m : A -> S -> nat)
    (Q : B + Err -> S -> Prop) a s :
  (forall a s, I a s -> ends (body a) (fun r s' =>
     match r with
     | inl (inl a') => I a' s' /\ (m a' s' < m a s)%nat
     | inl (inr b) => Q (inl b) s'
     | inr e => Q (inr e) s'
     end) s) ->
  I a s -> ends (loop body a) Q s.
Proof.
  intros Hb. remember (m a s) as k eqn:Ek. revert a s Ek. induction (lt_wf k) as [k _ IH]. intros a s -> HI.
  destruct (Hb a s HI) as (r & s1 & Hr & Hs).
  assert (forall lr, (match r with inl (inl a) => inl a | inl (inr b) => inr (inl b) | inr e => inr (inr e) end = lr) ->
    returns h (ITree.bind (body a) (fun r => Ret
      (match r with inl (inl a) => inl a | inl (inr b) => inr (inl b) | inr e => inr (inr e) end))) s lr s1) as Hstep.
  { intros lr <-. eapply returns_bind; [exact Hr|]. by exists 1%nat. }
  destruct r as [[a'|b]|e]; specialize (Hstep _ eq_refl).
  - destruct Hs as [HI' Hlt]. destruct (IH _ Hlt a' s1 eq_refl HI') as (r & s2 & Hr2 & HQ).
    exists r, s2. split; [|done]. by eapply returns_iter.
  - exists (inl b), s1. split; [by apply returns_iter_end|done].
  - exists (inr e), s1. split; [by apply returns_iter_end|done].
Qed.

Context (Hkeep : forall X (e : materializeE X) s, (visits (h X e s).2 <= visits s)%nat).
Context (Hwalk : forall path s call_, (h _ (WalkNext path) s).1 = Some call_ -> wk_Path call_ = path ->
  (visits (h _ (WalkNext path) s).2 < visits s)%nat).

(** The program ends, and what it returns satisfies [P]. *)
Definition bound (n : nat) {Err A} (P : A -> Prop) (p : program Err A) : Prop :=
  forall s, (visits s <= n)%nat ->
    ends p (fun r s' => (visits s' <= n)%nat /\ forall a, r = inl a -> P a) s.

Section bound.
Context (n : nat).

Lemma bound_ret {Err A} (P : A -> Prop) (a : A) : P a -> bound n P (mret a : program Err A).
Proof. intros H s Hs. apply ends_ret. split; [done|]. by intros a' [= <-]. Qed.
Lemma bound_throw {Err A} (P : A -> Prop) (e : Err) : bound n P (throw e : program Err A).
Proof. intros s Hs. by apply ends_ret. Qed.
Lemma bound_bind {Err A B} (P : A -> Prop) (Q : B -> Prop) (p : program Err A) (f : A -> program Err B) :
  bound n P p -> (forall a, P a -> bound n Q (f a)) -> bound n Q (p ≫= f).
Proof.
  intros Hp Hf s Hs. apply ends_bind. eapply ends_mono; [by apply Hp|]. intros [a|e] s1 [H1 HP]; cbn beta.
  - apply Hf; [by apply HP|done].
  - apply ends_ret. by split.
Qed.
Lemma bound_perform {Err A} (e : materializeE A) : bound n (fun _ => True) (perform e : program Err A).
Proof.
  intros s Hs. apply ends_bind, ends_trigger, ends_ret. split; [|done]. etrans; [apply Hkeep|done].
Qed.
Lemma bound_call {Err E A} (f : E -> Err) (e : materializeE (A + E)) : bound n (fun _ => True) (call f e).
Proof.
  apply (bound_bind (fun _ => True)); [apply bound_perform|]. intros [a|err] _; [by apply bound_ret|apply bound_throw].
Qed.
Lemma bound_check {Err E} (f : E -> Err) (e : materializeE (option E)) : bound n (fun _ => True) (check f e).
Proof.
  apply (bound_bind (fun _ => True)); [apply bound_perform|]. intros [err|] _; [apply bound_throw|by apply bound_ret].
Qed.
Lemma bound_attempt {Err Err' A} (P : A -> Prop) (p : program Err A) :
  bound n P p -> bound n (fun _ => True) (attempt p : program Err' _).
Proof.
  intros Hp s Hs. apply ends_bind. eapply ends_mono; [by apply Hp|]. intros r s1 [H1 _]. apply ends_ret. by split.
Qed.
Lemma bound_with_error {Err Err' A} (P : A -> Prop) (f : Err -> Err') (p : program Err A) :
  bound n P p -> bound n P (with_error f p).
Proof.
  intros Hp s Hs. apply ends_bind. eapply ends_mono; [by apply Hp|]. intros r s1 [H1 H2]. apply ends_ret.
  split; [done|]. destruct r; [|done]. intros a' [= <-]. by apply H2.
Qed.
Lemma bound_fail_when {Err} (b : bool) (e : Err) : bound n (fun _ => b = false) (fail_when b e).
Proof. destruct b; [apply bound_throw|by apply bound_ret]. Qed.
Lemma bound_of_result {Err A} (f : error -> Err) (r : result A) : bound n (fun _ => True) (of_result f r).
Proof. destruct r; [by apply bound_ret|apply bound_throw]. Qed.
Lemma bound_of_sum {Err A} (r : A + Err) : bound n (fun a => r = inl a) (of_sum r).
Proof. destruct r; [by apply bound_ret|apply bound_throw]. Qed.
Lemma bound_or_remove {A} (P : A -> Prop) path (p : program string A) : bound n P p -> bound n P (or_remove path p).
Proof.
  intros Hp s Hs. apply ends_bind. eapply ends_mono; [by apply Hp|]. intros [a|e] s1 [H1 H2].
  - apply ends_ret. split; [done|]. intros a' [= <-]. by apply H2.
  - eapply (bound_bind (fun _ => True) P); [apply bound_perform|intros _ _; apply bound_throw|done].
Qed.
Lemma bound_weaken {Err A} (P Q : A -> Prop) (p : program Err A) :
  bound n P p -> (forall a, P a -> Q a) -> bound n Q p.
Proof. intros Hp H s Hs. eapply ends_mono; [by apply Hp|]. intros r s1 [H1 H2]. split; [done|]. auto. Qed.
End bound.

Ltac bound_step :=
  lazymatch goal with
  | |- bound _ _ (mret _) => apply bound_ret
  | |- bound _ _ (throw _) => apply bound_throw
  | |- bound _ _ (mbind _ (fail_when ?b _)) => eapply bound_bind; [apply bound_fail_when|intros ? ?]
  | |- bound _ _ (mbind _ (of_sum _)) => eapply bound_bind; [apply bound_of_sum|intros ? ?]
  | |- bound _ _ (mbind _ _) => apply (bound_bind _ (fun _ => True)); [|intros ? _]
  | |- bound _ _ (perform _) => apply bound_perform
  | |- bound _ _ (call _ _) => apply bound_call
  | |- bound _ _ (check _ _) => apply bound_check
  | |- bound _ _ (attempt _) => apply (bound_attempt _ (fun _ => True))
  | |- bound _ _ (with_error _ _) => apply bound_with_error
  | |- bound _ _ (fail_when _ _) => eapply bound_weaken; [apply bound_fail_when|done]
  | |- bound _ _ (of_result _ _) => apply bound_of_result
  | |- bound _ _ (of_sum _) => eapply bound_weaken; [apply bound_of_sum|done]
  | |- bound _ _ (or_remove _ _) => apply bound_or_remove
  | |- bound _ _ (match ?x with _ => _ end) => destruct x
  | |- bound _ _ ((match ?x with _ => _ end) _) => destruct x; cbv beta
  | |- bound _ _ ((match ?x with _ => _ end) _ _) => destruct x; cbv beta
  | |- bound _ _ (let _ := _ in _) => cbv zeta
  | |- True => exact I
  end.
Ltac bound_tac := repeat bound_step.

Lemma workspaceGroup_ends n root : bound n (fun _ => True) (workspaceGroup root).
Proof. unfold workspaceGroup. bound_tac. Qed.
Lemma ensure_ends n directory gid : bound n (fun _ => True) (ensureWorkspaceDirectory directory gid).
Proof. unfold ensureWorkspaceDirectory. bound_tac. Qed.
Lemma prepareWorkspace_ends n root p c gid : bound n (fun _ => True) (prepareWorkspace root p c gid).
Proof. unfold prepareWorkspace. bound_tac; auto using workspaceGroup_ends, ensure_ends. Qed.
Lemma load_artifacts_ends n path components artifacts : bound n (fun _ => True) (load_artifacts path components artifacts).
Proof. induction artifacts as [|a artifacts IH]; cbn [load_artifacts]; bound_tac; auto. Qed.
Lemma resume_ends n path request components fp verify :
  bound n (fun _ => True) verify -> bound n (fun _ => True) (resume path request components fp verify).
Proof. intros Hv. unfold resume, loadWorkspace, clearWorkspace. bound_tac; auto using load_artifacts_ends. Qed.
Lemma place_file_ends n from limit path components name size gid :
  bound n (fun _ => True) (place_file from limit path components name size gid).
Proof. unfold place_file, store_file. bound_tac; auto using ensure_ends. Qed.
Lemma finish_workspace_ends n p c request operation fp components artifacts :
  bound n (fun _ => True) (finish_workspace p c request operation fp components artifacts).
Proof. unfold finish_workspace, writeManifest. bound_tac. Qed.

(** A member that was extracted counts. *)
Lemma extract_member_ends n archive path components gid extensions header st :
  bound n (fun st' => ts_entries st' = ts_entries st + 1 /\ ts_entries st' <= maximumEntries)
    (extract_member archive path components gid extensions header st).
Proof.
  unfold extract_member, extractFile. cbv zeta. bound_step. apply bool_decide_eq_false in H. bound_tac;
    try apply place_file_ends; try apply ensure_ends; cbn [ts_entries]; lia.
Qed.

Lemma extractAndProbe_ends n archive path components gid extensions :
  bound n (fun _ => True) (extractAndProbe archive path components gid extensions).
Proof.
  unfold extractAndProbe. bound_tac. intros s Hs.
  apply (ends_loop _ (fun st s => ts_entries st <= maximumEntries /\ (visits s <= n)%nat)
    (fun st _ => Z.to_nat (maximumEntries - ts_entries st))).
  - clear s Hs. intros st s [Hst Hs]. unfold bound in *.
    apply ends_bind. eapply ends_mono; [apply (bound_check n); exact Hs|]. intros [u|e] s1 [H1 _]; [|by apply ends_ret].
    apply ends_bind. eapply ends_mono; [apply (bound_call n); exact H1|].
    intros [[header|]|e] s2 [H2 _]; [|by apply ends_ret|by apply ends_ret].
    apply ends_bind. eapply ends_mono; [apply (extract_member_ends n); exact H2|].
    intros [st'|e] s3 [H3 Hst']; apply ends_ret; [|done]. destruct (Hst' _ eq_refl). split; [done|lia].
  - split; [unfold maximumEntries; cbn; lia|done].
Qed.

(** So does a file below the directory that is walked. *)
Lemma collect_file_ends n q path components gid extensions st call_ :
  bound n (fun st' => ws_entries st' = ws_entries st + 1 /\ ws_entries st' <= maximumEntries)
    (collect_file q path components gid extensions st call_).
Proof.
  unfold collect_file, copyDirectoryFile. cbv zeta. bound_step. apply bool_decide_eq_false in H. bound_tac;
    try apply place_file_ends; cbn [ws_entries]; lia.
Qed.

Lemma collectExtractedMedia_ends n q path components gid extensions :
  bound n (fun _ => True) (collectExtractedMedia q path components gid extensions).
Proof.
  unfold collectExtractedMedia. bound_tac. intros s Hs.
  apply (ends_loop _ (fun st s => ws_entries st <= maximumEntries /\ (visits s <= n)%nat)
    (fun st s => Z.to_nat (maximumEntries - ws_entries st) + visits s)%nat).
  - clear s Hs. intros st s [Hst Hs]. apply ends_bind, ends_bind, ends_trigger, ends_ret.
    pose proof (Hkeep _ (WalkNext q) s) as Hk.
    destruct ((h _ (WalkNext q) s).1) as [call_|] eqn:Hc; [|apply ends_ret; cbn beta iota; split; [lia|done]].
    pose proof (Hwalk q s call_ Hc) as Hw. set (s1 := (h _ (WalkNext q) s).2) in *. clearbody s1.
    apply ends_bind. unfold visit_extracted. apply ends_bind.
    eapply ends_mono; [apply (bound_of_sum (visits s1)); done|]. intros [u|e] s2 [H2 _]; [|apply ends_ret, ends_ret; split; [lia|done]].
    apply ends_bind. eapply ends_mono; [apply (bound_check (visits s1)); exact H2|].
    intros [u'|e] s3 [H3 _]; [|apply ends_ret, ends_ret; split; [lia|done]].
    case_bool_decide as Hq.
    + apply ends_ret, ends_ret. specialize (Hw Hq). split; [split; [done|lia]|lia].
    + eapply ends_mono; [apply (collect_file_ends (visits s1)); exact H3|].
      intros [st'|e] s4 [H4 Hst']; apply ends_ret; [|split; [lia|done]]. destruct (Hst' _ eq_refl).
      split; [split; [done|lia]|lia].
  - split; [unfold maximumEntries; cbn; lia|done].
Qed.

(** *** Directories *)

Lemma visit_children_ends n visit_child d absolute relative children st :
  (forall a r st, bound n (fun _ => True) (visit_child a r st)) ->
  bound n (fun _ => True) (visit_children visit_child d absolute relative children st).
Proof.
  intros Hv. revert st. induction children as [|name children IH]; intros st; cbn [visit_children]; bound_tac; auto.
Qed.

Lemma visit_ends n rootID below_ absolute relative st :
  bound n (fun _ => True) (visit rootID below_ absolute relative st).
Proof.
  revert absolute relative st. induction below_ as [|below_ IH]; intros absolute relative st; cbn [visit];
    bound_tac; apply visit_children_ends; intros; [apply bound_throw|apply IH].
Qed.

Lemma Inspect_ends n f : bound n (fun _ => True) (Inspect f).
Proof. unfold Inspect. bound_tac. Qed.
Lemma InspectEmbedded_ends n f : bound n (fun _ => True) (InspectEmbedded f).
Proof. unfold InspectEmbedded. bound_tac. apply Inspect_ends. Qed.
Lemma read_source_ends n {A} rootID file (p : Z -> program mat_error A) :
  (forall f, bound n (fun _ => True) (p f)) -> bound n (fun _ => True) (read_source rootID file p).
Proof. intros Hp. unfold read_source. bound_tac. apply Hp. Qed.
Lemma read_cue_files_ends n rootID audio selected cues :
  bound n (fun _ => True) (read_cue_files rootID audio selected cues).
Proof.
  revert selected. induction cues as [|c cues IH]; intros selected; cbn [read_cue_files]; bound_tac;
    auto using read_source_ends, Inspect_ends.
Qed.
Lemma readCuePlan_ends n has_cue rootID audio cues : bound n (fun _ => True) (readCuePlan has_cue rootID audio cues).
Proof.
  unfold readCuePlan, readEmbeddedCuePlan. bound_tac;
    auto using read_source_ends, InspectEmbedded_ends, read_cue_files_ends.
Qed.
Lemma scanDirectory_ends n has_cue rootID components :
  bound n (fun _ => True) (scanDirectory has_cue rootID components).
Proof. unfold scanDirectory. bound_tac; auto using visit_ends, readCuePlan_ends. Qed.
Lemma copy_files_ends n rootID path components gid files :
  bound n (fun _ => True) (copy_files rootID path components gid files).
Proof.
  induction files as [|f files IH]; cbn [copy_files]; unfold copyDirectoryFile; bound_tac; auto using place_file_ends.
Qed.
Lemma cut_tracks_ends n input destination index starts outputs :
  bound n (fun _ => True) (cut_tracks input destination index starts outputs).
Proof. revert index outputs. induction starts as [|x starts IH]; intros; cbn [cut_tracks]; bound_tac; auto. Qed.
Lemma collect_outputs_ends n path components gid total names :
  bound n (fun _ => True) (collect_outputs path components gid total names).
Proof.
  revert total. induction names as [|x names IH]; intros total; cbn [collect_outputs]; unfold generatedArtifact;
    bound_tac; auto.
Qed.
Lemma copyAndProbeDirectory_ends n rootID source path components gid :
  bound n (fun _ => True) (copyAndProbeDirectory rootID source path components gid).
Proof.
  unfold copyAndProbeDirectory, splitAndProbeDirectory, Split. bound_tac;
    auto using cut_tracks_ends, collect_outputs_ends, copy_files_ends.
Qed.

Lemma execute_archive_ends n request extract :
  (forall f path gid, bound n (fun _ => True) (extract f path gid)) ->
  bound n (fun _ => True) (execute_archive request extract).
Proof.
  intros He. unfold execute_archive. bound_tac;
    auto using workspaceGroup_ends, prepareWorkspace_ends, finish_workspace_ends, resume_ends, bound_check.
Qed.

Lemma execution_ends {listings : ListingCodec} n operation request :
  bound n (fun _ => True) (execution operation request).
Proof.
  unfold execution, ExecuteRAR, ExecuteDirectory, Execute. bound_tac;
    auto using workspaceGroup_ends, prepareWorkspace_ends, finish_workspace_ends, resume_ends, bound_ret,
      scanDirectory_ends, copyAndProbeDirectory_ends.
  - apply execute_archive_ends. intros. unfold unpack_rar, Extract. bound_tac. apply collectExtractedMedia_ends.
  - apply execute_archive_ends. intros. bound_tac. apply extractAndProbe_ends.
Qed.

(** C40. a materialization always ends with a response, whatever the archive,
    the directory and the tools are, even if the archive goes on for ever,
    provided that walking a directory visits its root only finitely often. *)
Theorem materialize_ends (listings : ListingCodec) (operation : string) (request : Request) (s : S) :
  exists response s', returns h (materialize operation request) s response s'.
Proof.
  assert (ends (materialize operation request) (fun _ _ => True) s) as (response & s' & H & _); [|by eauto].
  apply ends_bind. eapply ends_mono; [by apply (execution_ends (visits s))|]. intros r s1 _. by apply ends_ret.
Qed.
End termination.
