(* ===== verification/LidarrAdapter.v ===== *)
(** * The Lidarr adapter of the repair engine

    [internal/repairlidarr] with the [EvidenceCollector] of
    [internal/lidarrrepair/runner.go], the verification of stored files of
    [stored_artifacts.go] and the workspace identifiers of [assemble.go]: how the
    engine observes Lidarr, plans, prepares an import from a decision and learns
    whether it happened. The answers of Lidarr, of the media worker, of the file
    system and of the planner are arguments; the JSON of the stored evidence, of
    commands and of receipts is the interface [AdapterCodec]. The [Run] loop of
    [runner.go] is used by no program and not modelled. *)
From stdpp Require Import base strings list gmap sorting pretty.
From coqutil Require Import Datatypes.RecordSetters.
From S2P Require Import Prelude GoStrings GoCrypto FileIdentity LidarrContracts LidarrState LidarrRepair.
From S2P Require Import Jobs JobQueue RepairEngine RadarrAdapter QueueFinalize Inventory LidarrSafety RadarrSafety.
From S2P Require Import Materialize.
Import DoubleBraceUpdate lidarrcontracts lidarrstate lidarr lidarrcontracts servarr lidarrrepair.

Module repairlidarr.

(** ** The host ([os.Lstat], [os.ReadDir], [os.Open]) *)

(** An error of the file system; the flag is [errors.Is(err, os.ErrNotExist)]. *)
Record fs_error := mkFsError { fe_NotExist : bool; fe_Text : error }.

(** [os.FileInfo]; its metadata are the identity of the file and its owner. *)
Record HostInfo := mkHostInfo { hi_Mode : filesystem.FileMode; hi_Stat : option (Snapshot * Z) }.

Definition IsDir (info : HostInfo) : bool :=
  bool_decide (filesystem.mode_type (hi_Mode info) = filesystem.Directory).
Definition IsRegular (info : HostInfo) : bool :=
  bool_decide (filesystem.mode_type (hi_Mode info) = filesystem.Regular).
Definition IsSymlink (info : HostInfo) : bool :=
  bool_decide (filesystem.mode_type (hi_Mode info) = filesystem.Symlink).

Record DirEntry := mkDirEntry { de_Name : string; de_Info : HostInfo + fs_error }.

Record Host := mkHost
  { Lstat : string -> HostInfo + fs_error;
    ReadDir : string -> list DirEntry + fs_error;
    ReadFile : string -> result string }.

(** ** The archive of a download ([findArchive]) *)

Inductive archiveKind := archiveTar | archiveRAR.

Inductive discovery_error := NoArchive | Discovery (e : fs_error).

Definition archive_kind (name : string) : option archiveKind :=
  let extension := ToLower (filepath.Ext name) in
  if bool_decide (extension = ".tar") then Some archiveTar
  else if bool_decide (extension = ".rar") then Some archiveRAR else None.

(** The loop over the entries, with the candidate found so far. *)
Fixpoint archive_loop (outputPath : string) (entries : list DirEntry)
    (found : option (string * HostInfo * archiveKind))
    : option (string * HostInfo * archiveKind) + discovery_error :=
  match entries with
  | [] => inl found
  | entry :: rest =>
      match archive_kind (de_Name entry) with
      | None => archive_loop outputPath rest found
      | Some kind =>
          match de_Info entry with
          | inr e => inr (Discovery e)
          | inl info =>
              if negb (IsRegular info) || IsSymlink info
              then inr (Discovery (mkFsError false "archive candidate is not a regular file"))
              else match found with
                   | Some _ =>
                       inr (Discovery (mkFsError false "download contains multiple supported archives"))
                   | None =>
                       archive_loop outputPath rest
                         (Some (filepath.Join outputPath (de_Name entry), info, kind))
                   end
          end
      end
  end.

Definition findArchive (host : Host) (outputPath : string)
    : (string * Snapshot * archiveKind) + discovery_error :=
  if bool_decide (outputPath = "") || negb (filepath.IsAbs outputPath) ||
     negb (bool_decide (filepath.Clean outputPath = outputPath))
  then inr (Discovery (mkFsError false "download output path is invalid"))
  else
    match Lstat host outputPath with
    | inr e => inr (Discovery e)
    | inl rootInfo =>
        if negb (IsDir rootInfo) || IsSymlink rootInfo
        then inr (Discovery (mkFsError false "download output is not a regular directory"))
        else
          match ReadDir host outputPath with
          | inr e => inr (Discovery e)
          | inl entries =>
              match archive_loop outputPath entries None with
              | inr e => inr e
              | inl None => inr NoArchive
              | inl (Some (archivePath, archiveInfo, kind)) =>
                  match hi_Stat archiveInfo with
                  | None => inr (Discovery (mkFsError false "unsupported filesystem metadata"))
                  | Some (snapshot, _) => inl (archivePath, snapshot, kind)
                  end
              end
          end
    end.

(** ** The files of a stored case ([stored_artifacts.go]) *)

Definition group_or_other_write : Z := 18.

Definition immutableWorkspaceEntry (host : Host) (path : string) (directory : bool)
    (wantedOwner : option Z) : result (Snapshot * Z) :=
  match Lstat host path with
  | inr e => Err (fe_Text e)
  | inl info =>
      _ ← fail_if (IsSymlink info || negb (eqb directory (IsDir info)) ||
                   (negb directory && negb (IsRegular info)) ||
                   negb (bool_decide (Z.land (filesystem.mode_permissions (hi_Mode info))
                                        group_or_other_write = 0)))
            "not an immutable workspace entry";
      match hi_Stat info with
      | None => Err "unsupported ownership metadata"
      | Some (snapshot, owner) =>
          _ ← fail_if (match wantedOwner with
                       | Some wanted => negb (bool_decide (owner = wanted))
                       | None => false
                       end) "changed owner";
          mret (snapshot, owner)
      end
  end.

(** The directories between the workspace and the file, from the top. *)
Fixpoint verify_directories (host : Host) (owner : Z) (current : string) (components : list string)
    : result unit :=
  match components with
  | [] => Ok tt
  | component :: rest =>
      let current := filepath.Join current component in
      _ ← immutableWorkspaceEntry host current true (Some owner);
      verify_directories host owner current rest
  end.

Definition verifyStoredArtifact (host : Host) (workspaceRoot relativePath : string) (artifact : Artifact)
    (caseID : string) (owner : Z) : result unit :=
  _ ← verify_directories host owner workspaceRoot (removelast (split_on slash relativePath));
  let path := filepath.Join workspaceRoot relativePath in
  entry ← immutableWorkspaceEntry host path false (Some owner);
  _ ← fail_if (negb (bool_decide (SizeBytes (fst entry) = lf_SizeBytes artifact)))
        "stored Lidarr artifact changed size";
  content ← ReadFile host path;
  let digest := sha256_hex (string_bytes content) in
  fail_if (negb (bool_decide ("sha256:" +:+ digest = lf_Fingerprint artifact)) ||
           (negb (bool_decide (lf_ArtifactID artifact = caseID)) &&
            negb (bool_decide (lf_ArtifactID artifact = "artifact:" +:+ digest)) &&
            negb (bool_decide (lf_ArtifactID artifact =
                               materialize.ArtifactID (lf_RelativePath artifact) (lf_Fingerprint artifact)))))
    "stored Lidarr artifact changed contents".

(** Host separators are slashes, so that [filepath.FromSlash] is the identity. *)
Fixpoint verify_artifacts {Quality} (host : Host) (workspaceRoot : string) (owner : Z)
    (bindings : gmap string (ImportBinding Quality)) (index : nat) (artifacts : list Artifact)
    : result unit :=
  match artifacts with
  | [] => Ok tt
  | artifact :: rest =>
      match bindings !! lf_ArtifactID artifact with
      | None => Err "stored Lidarr artifact has no binding"
      | Some binding =>
          let relativePath := lf_RelativePath artifact in
          _ ← fail_if (unsafe_relative relativePath) "stored Lidarr artifact has an unsafe path";
          _ ← fail_if (negb (bool_decide (filepath.Join workspaceRoot relativePath = ib_Path binding)))
                "stored Lidarr artifact changed path";
          _ ← verifyStoredArtifact host workspaceRoot relativePath artifact (caseArtifactID index) owner;
          verify_artifacts host workspaceRoot owner bindings (S index) rest
      end
  end.

(** The map of bindings, when no artifact has two. *)
Fixpoint unique_bindings {Quality} (bindings : list (ImportBinding Quality))
    (found : gmap string (ImportBinding Quality)) : result (gmap string (ImportBinding Quality)) :=
  match bindings with
  | [] => Ok found
  | binding :: rest =>
      match found !! ib_ArtifactID binding with
      | Some _ => Err "stored Lidarr binding is duplicated"
      | None => unique_bindings rest (<[ib_ArtifactID binding := binding]> found)
      end
  end.

Definition verifyStoredArtifacts {Quality} (host : Host) (workspaceRoot : string)
    (artifacts : list Artifact) (bindings : list (ImportBinding Quality)) : result unit :=
  root ← immutableWorkspaceEntry host workspaceRoot true None;
  _ ← fail_if (bool_decide (length artifacts = 0%nat) ||
               negb (bool_decide (length bindings = length artifacts)))
        "stored Lidarr artifacts and bindings do not match";
  bindingsByArtifact ← unique_bindings bindings ∅;
  verify_artifacts host workspaceRoot (snd root) bindingsByArtifact 0 artifacts.

(** ** Collecting the current evidence ([runner.go]) *)

(** [materialize.Success]. *)
Record Materialization := mkMaterialization
  { mz_Operation : string; mz_SourceFingerprint : string; mz_WorkspaceComponents : list string;
    mz_Success : Success }.

(** The worker rejects a request, or the exchange with it fails. *)
Inductive worker_error := Rejection (reason : string) | WorkerFailure (text : error).

Definition worker_text (e : worker_error) : error :=
  match e with
  | Rejection reason => "media worker rejected materialization: " +:+ reason
  | WorkerFailure text => text
  end.

Definition IsNoSupportedAudio (e : worker_error) : bool :=
  match e with Rejection reason => bool_decide (reason = materialize.FailureNoSupportedAudio) | _ => false end.

Definition workspaceID (queueID : Z) (fingerprint : string) : string :=
  stableID "workspace"
    ("v2" +:+ bytes [0%nat] +:+ "tar" +:+ bytes [0%nat] +:+ pretty queueID +:+ bytes [0%nat] +:+ fingerprint).
Definition directoryWorkspaceID (queueID : Z) (sourcePath : string) : string :=
  stableID "workspace"
    ("v2" +:+ bytes [0%nat] +:+ "directory" +:+ bytes [0%nat] +:+ pretty queueID +:+ bytes [0%nat] +:+ sourcePath).

Definition validateMaterializedSource (sourceKind : string) (materialized : Materialization) : result unit :=
  let expected :=
    if bool_decide (sourceKind = SourceDirectoryAudio) then materialize.OperationMaterializeDirectory
    else if bool_decide (sourceKind = SourceRARAudio) then materialize.OperationMaterializeRAR
    else materialize.OperationMaterializeTar in
  fail_if (negb (bool_decide (mz_Operation materialized = expected)))
    "worker returned the wrong materialization operation".

Section client.
Context {Quality : Type}.

(** The service client and the worker, an answer for each call. *)
Record Client := mkClient
  { ReadQueue : result (list QueueRecord);
    RecoverAlbumIdentity : string -> result (option (Z * Z));
    ReadAlbum : Z -> result lidarr.Album;
    ReadReleaseTracks : Z -> Z -> result (list lidarr.Track);
    ReadManualImports : string -> Z -> result (list (ManualImport Quality));
    ReadImportedTracks : Z -> string -> result (list ImportedTrack);
    RequestManualImport : list (ManualImportCommandFile Quality) -> result Command;
    ReadManualImportCommand : Z -> result Command }.

Record Worker := mkWorker
  { MaterializeTarAudio : string -> Snapshot -> string -> Materialization + worker_error;
    MaterializeRARAudio : string -> Snapshot -> string -> Materialization + worker_error;
    MaterializeDirectoryAudio : string -> string -> Materialization + worker_error;
    ResolvePublishedPath : string -> list string -> result string }.

Record EvidenceCollector := mkEvidenceCollector
  { co_lidarr : Client; co_worker : Worker; co_host : Host; co_now : time }.
End client.

Section collector.
Context {Quality : Type} `{!EqDecision Quality} {codec : Codec}.
Context (runner : EvidenceCollector (Quality := Quality)).

Definition recoverQueueIdentity (queue : QueueRecord) : result QueueRecord :=
  match q_AlbumID queue, q_ArtistID queue with
  | Some _, Some _ => Ok queue
  | _, _ =>
      if negb (eligibleQueueWithoutIdentity queue) then Ok queue
      else finalization.RecoverQueueIdentity (RecoverAlbumIdentity (co_lidarr runner)) queue
  end.

(** What follows a materialization, from its workspace. *)
Definition materializedEvidence (queue : QueueRecord) (sourceKind sourcePath : string)
    (materialized : Materialization) : result (Evidence Quality) :=
  assembleMaterializedEvidence (ReadAlbum (co_lidarr runner)) (ReadReleaseTracks (co_lidarr runner))
    (ReadManualImports (co_lidarr runner)) (ResolvePublishedPath (co_worker runner)) (co_now runner)
    queue sourceKind sourcePath (mz_SourceFingerprint materialized) (mz_WorkspaceComponents materialized)
    (is_ok (validateMaterializedSource sourceKind materialized)) (mz_Success materialized).

Definition buildArchiveEvidence (queue : QueueRecord) (archivePath : string) (snapshot : Snapshot)
    (kind : archiveKind) : result (Evidence Quality) :=
  let workspace := workspaceID (q_ID queue) (StableFingerprint snapshot) in
  let '(sourceKind, answer) :=
    match kind with
    | archiveTar => (SourceTarAudio, MaterializeTarAudio (co_worker runner) archivePath snapshot workspace)
    | archiveRAR => (SourceRARAudio, MaterializeRARAudio (co_worker runner) archivePath snapshot workspace)
    end in
  match answer with
  | inr e => Err (worker_text e)
  | inl materialized => materializedEvidence queue sourceKind archivePath materialized
  end.

(** The error keeps whether the worker found no supported audio. *)
Definition buildDirectoryEvidence (queue : QueueRecord) : Evidence Quality + worker_error :=
  match MaterializeDirectoryAudio (co_worker runner) (q_OutputPath queue)
          (directoryWorkspaceID (q_ID queue) (q_OutputPath queue)) with
  | inr e => inr e
  | inl materialized =>
      match materializedEvidence queue SourceDirectoryAudio (q_OutputPath queue) materialized with
      | Ok evidence => inl evidence
      | Err e => inr (WorkerFailure e)
      end
  end.

(** Evidence of a source that is gone, from the files kept when it was planned. *)
Definition storedEvidence (queue : QueueRecord) (planned : Record_ Quality) : result (Evidence Quality) :=
  plannedCase ← DecodeCase (rec_Case planned);
  buildStoredEvidence (ReadAlbum (co_lidarr runner)) (ReadReleaseTracks (co_lidarr runner))
    (ReadManualImports (co_lidarr runner)) (co_now runner)
    (verifyStoredArtifacts (co_host runner) (rec_WorkspaceRoot planned) (lc_Artifacts plannedCase)
       (rec_Bindings planned)) queue planned.

Definition recover_previous (queue : QueueRecord) (previous : option (Record_ Quality))
    : result (Evidence Quality) :=
  match previous with
  | None => Err "discover archive"
  | Some planned => storedEvidence queue planned
  end.

Definition Inspect (queue : QueueRecord) (previous : option (Record_ Quality)) : result (Evidence Quality) :=
  queue ← recoverQueueIdentity queue;
  _ ← fail_if (negb (eligibleQueue queue)) "Lidarr queue item is not eligible for repair";
  match findArchive (co_host runner) (q_OutputPath queue) with
  | inl (archivePath, snapshot, kind) => buildArchiveEvidence queue archivePath snapshot kind
  | inr NoArchive =>
      match buildDirectoryEvidence queue with
      | inl evidence => Ok evidence
      | inr e => if IsNoSupportedAudio e then recover_previous queue previous else Err (worker_text e)
      end
  | inr (Discovery e) =>
      if fe_NotExist e then recover_previous queue previous else Err (fe_Text e)
  end.
End collector.

(** ** The adapter (adapter.go) *)

(** What decides whether a case is planned again ([planning.go]). *)
Record planningInputs := mkplanningInputs
  { in_Album : Album; in_Releases : list Release; in_Tracks : list Track; in_Artifacts : list Artifact }.

Section adapter.
Context {Quality : Type} `{!EqDecision Quality} {codec : Codec}.

Class AdapterCodec :=
  { MarshalRecord : Record_ Quality -> result string;
    UnmarshalRecord : string -> result (Record_ Quality);
    MarshalCommand : list (ManualImportCommandFile Quality) -> result string;
    UnmarshalCommand : string -> result (list (ManualImportCommandFile Quality));
    MarshalImported : list ImportedTrack -> result string;
    MarshalInputs : planningInputs -> result string }.
Context {json : AdapterCodec}.

Record Adapter := mkAdapter
  { ad_Client : Client (Quality := Quality);
    ad_Inspector : QueueRecord -> option (Record_ Quality) -> result (Evidence Quality);
    ad_Planner : Case -> repairradarr.Options -> result Decision }.
Context (adapter : Adapter).

Definition queue_keys (queue : list QueueRecord) : list jobs.QueueKey :=
  map (fun entry => jobs.mkQueueKey (q_ID entry) (q_DownloadID entry)) queue.

Definition findQueue (job : jobs.Job) : repairradarr.attempted QueueRecord :=
  repairradarr.next (repairradarr.lift (ReadQueue (ad_Client adapter))) (fun queue =>
  match jobs.MatchQueue (jobs.job_QueueKey job) (queue_keys queue) with
  | Err e => inr (repairradarr.blocked e)
  | Ok None => inr (repairradarr.blocked "queue item disappeared or changed download identity")
  | Ok (Some index) =>
      match queue !! index with
      | Some entry => inl entry
      | None => inr (repairradarr.failed "panic: index out of range")
      end
  end).

Definition with_decision (decision : string) (record : Record_ Quality) : Record_ Quality :=
  mkRecord (rec_Version record) (rec_QueueID record) (rec_SourceKind record) (rec_SourcePath record)
    (rec_SourceFingerprint record) (rec_WorkspaceRoot record) (rec_Case record) decision
    (rec_Bindings record).

Definition Repair (job : jobs.Job) (attempt : jobs.Attempt) : repairradarr.attempted repair.PreparedImport :=
  repairradarr.next (repairradarr.lift (UnmarshalRecord (jobs.job_Evidence job))) (fun record =>
  let planned := with_decision (jobs.att_Plan attempt) record in
  repairradarr.next (findQueue job) (fun queue =>
  repairradarr.next (repairradarr.lift (ad_Inspector adapter queue (Some planned))) (fun current =>
  match AuthorizeImport planned current with
  | Err e => inr (repairradarr.blocked e)
  | Ok None => inr (repairradarr.blocked "no missing-track import authorized")
  | Ok (Some authorized) =>
      repairradarr.next
        (repairradarr.lift (ReadImportedTracks (ad_Client adapter) (ai_AlbumID authorized) ""))
        (fun history =>
      repairradarr.next (repairradarr.lift (MarshalCommand (importCommand authorized))) (fun request =>
      inl (repair.mkPreparedImport (ev_WorkspaceRoot current) request
             (HighestImportedTrackHistoryID history))))
  end))).

Definition Submit (data : string) : result Z :=
  request ← UnmarshalCommand data;
  command ← RequestManualImport (ad_Client adapter) request;
  mret (com_ID command).

(** [lidarrrepair.CheckImport] is the same function on decoded values. *)
Definition CheckImport (attempt : jobs.Attempt) : result repair.ImportStatus :=
  request ← UnmarshalCommand (jobs.att_ImportRequest attempt);
  status ← lidarrrepair.CheckImport (fun albumID => ReadImportedTracks (ad_Client adapter) albumID "")
             (ReadManualImportCommand (ad_Client adapter)) request (jobs.att_HistoryIDBefore attempt)
             (jobs.att_CommandID attempt) (jobs.att_ImportStartedAt attempt);
  match st_Receipt status with
  | Some confirmed => receipt ← MarshalImported confirmed; mret (repair.mkImportStatus receipt "")
  | None => mret (repair.mkImportStatus "" (st_Failure status))
  end.

(** ** Observation and planning (planning.go) *)

Definition release_le (a b : Release) : Prop := lr_ReleaseID a <= lr_ReleaseID b.
Definition track_id_le (a b : Track) : Prop := lt_TrackID a <= lt_TrackID b.
Definition artifact_le (a b : Artifact) : Prop := string_le (lf_ArtifactID a) (lf_ArtifactID b).
#[global] Instance release_le_dec : RelDecision release_le.
Proof. intros a b. unfold release_le. apply _. Defined.
#[global] Instance track_id_le_dec : RelDecision track_id_le.
Proof. intros a b. unfold track_id_le. apply _. Defined.
#[global] Instance artifact_le_dec : RelDecision artifact_le.
Proof. intros a b. unfold artifact_le. apply _. Defined.

(** The identifiers of a case are distinct, so that sorting is determined. *)
Definition planningCaseInputs (repairCase : Case) : planningInputs :=
  mkplanningInputs (lc_Album repairCase) (merge_sort release_le (lc_Releases repairCase))
    (merge_sort track_id_le (lc_Tracks repairCase)) (merge_sort artifact_le (lc_Artifacts repairCase)).

Definition planningFingerprint (repairCase : Case) : result string :=
  data ← MarshalInputs (planningCaseInputs repairCase);
  mret ("sha256:" +:+ sha256_hex (string_bytes data)).

Definition planningChange (previous current : Case) : string :=
  let before := planningCaseInputs previous in
  let after := planningCaseInputs current in
  let when (changed : bool) (what : string) := if changed then [what] else [] in
  String.concat ", "
    (when (negb (bool_decide (in_Artifacts before = in_Artifacts after))) "audio files" ++
     when (negb (bool_decide (in_Album before = in_Album after))) "target album" ++
     when (negb (bool_decide (in_Releases before = in_Releases after))) "release catalog" ++
     when (negb (bool_decide (in_Tracks before = in_Tracks after))) "track catalog/status")%list.

Definition encodeEvidence (evidence : Evidence Quality) : result string :=
  data ← EncodeCase (ev_Case evidence);
  MarshalRecord (mkRecord "" (q_ID (ev_Queue evidence)) (ev_SourceKind evidence) (ev_SourcePath evidence)
    (ev_SourceFingerprint evidence) (ev_WorkspaceRoot evidence) data "" (ev_Bindings evidence)).

Definition zero_job : jobs.Job :=
  jobs.mkJob 0 jobs.Lidarr 0 "" "" "" "" "" "" jobs.zero_time "" "" "" "" 0 jobs.zero_time 0 "" 0 false
    jobs.Observed "" jobs.zero_time.

(** Under repair, or imported. *)
Definition settled (prior : jobs.Job) : bool :=
  match jobs.job_State prior with jobs.Running | jobs.Importing | jobs.Imported => true | _ => false end.

(** The evidence of a job, when there is a plan to compare it with. *)
Definition compared (prior : jobs.Job) (record : option (Record_ Quality)) (current : Case)
    (job : jobs.Job) : result jobs.Job :=
  match record with
  | None => Ok job
  | Some record =>
      priorCase ← DecodeCase (rec_Case record);
      previous ← (if bool_decide (jobs.job_PlanningFingerprint prior = "")
                  then planningFingerprint priorCase else Ok "");
      mret (job {{ jobs.job_PreviousPlanningFingerprint := previous }}
              {{ jobs.job_PlanningChange := planningChange priorCase current }})
  end.

Definition observe_entry (previous : list jobs.Job) (entry : QueueRecord) : result jobs.Job :=
  let key := jobs.mkQueueKey (q_ID entry) (q_DownloadID entry) in
  let job := zero_job {{ jobs.job_QueueID := q_ID entry }}
    {{ jobs.job_DownloadID := q_DownloadID entry }} {{ jobs.job_Title := lidarr.q_Title entry }} in
  index ← jobs.MatchQueue key (map jobs.job_QueueKey previous);
  let prior := default zero_job (index ≫= fun i => previous !! i) in
  if settled prior then mret job
  else
    record ← (if bool_decide (jobs.job_Evidence prior = "") then Ok None
              else record ← UnmarshalRecord (jobs.job_Evidence prior); mret (Some record));
    match ad_Inspector adapter entry record with
    | Err e => mret (job {{ jobs.job_CollectionError := e }})
    | Ok evidence =>
        fingerprint ← planningFingerprint (ev_Case evidence);
        job ← compared prior record (ev_Case evidence)
                (job {{ jobs.job_SourceFingerprint := lc_CaseID (ev_Case evidence) }}
                     {{ jobs.job_PlanningFingerprint := fingerprint }});
        data ← encodeEvidence evidence;
        mret (job {{ jobs.job_Evidence := data }})
    end.

(** The removal candidates come from a second reading of the queue. *)
Definition Observe (ReadQueueAgain : result (list QueueRecord)) (previous : list jobs.Job)
    : result repair.Observation :=
  queue ← ReadQueue (ad_Client adapter);
  complete ← finalization.FinalizationCandidates ReadQueueAgain
               (RecoverAlbumIdentity (ad_Client adapter)) (ReadAlbum (ad_Client adapter))
               (ReadReleaseTracks (ad_Client adapter));
  observed ← mapM (observe_entry previous) queue;
  mret (repair.mkObservation observed (queue_keys queue)
    (map (fun entry => jobs.mkQueueKey (queuefinalize.en_QueueID entry)
            (queuefinalize.en_DownloadID entry)) complete)).

Definition Plan (job : jobs.Job) : result repair.PlanDecision :=
  record ← UnmarshalRecord (jobs.job_Evidence job);
  repairCase ← DecodeCase (rec_Case record);
  decision ← ad_Planner adapter repairCase (repairradarr.Guidance job);
  _ ← ValidateDecision repairCase decision;
  data ← EncodeDecision decision;
  mret (repair.mkPlanDecision data (negb (bool_decide (ld_Kind decision = ActionNoRepair)))
          (match ld_NoRepair decision with Some d => nr_Explanation d | None => "" end)).

Definition Ready (job : jobs.Job) : bool := true.

(** ** Removal (removal.go) *)

Definition RemovalQueue : result (list queuefinalize.Entry) :=
  finalization.ReadFinalizationEntries (ReadQueue (ad_Client adapter))
    (RecoverAlbumIdentity (ad_Client adapter)).
End adapter.
End repairlidarr.

(** * What the adapter promises the engine

    Evidence is inspected afresh for the queue entry of the job; a source that
    is gone is replaced only by files that are still what was planned; an import
    is of missing tracks from files bound at planning; and it is complete when the
    history of the album says so. *)
Import repairlidarr.

(** ** Stored files *)

(** A directory or file that only its owner writes. *)
Definition owned_entry (host : Host) (owner : Z) (directory : bool) (path : string)
    (snapshot : Snapshot) : Prop :=
  exists info, Lstat host path = inl info /\
    filesystem.mode_type (hi_Mode info) = (if directory then filesystem.Directory else filesystem.Regular) /\
    Z.land (filesystem.mode_permissions (hi_Mode info)) group_or_other_write = 0 /\
    hi_Stat info = Some (snapshot, owner).

(** The file of an artifact is in place with its content, below directories of
    the same owner. *)
Record artifact_intact (host : Host) (root : string) (owner : Z) (artifact : Artifact) : Prop :=
  { ai_below : unsafe_relative (lf_RelativePath artifact) = false;
    ai_directories : forall k, (0 < k < length (split_on slash (lf_RelativePath artifact)))%nat ->
      exists snapshot, owned_entry host owner true
        (foldl filepath.Join root (take k (split_on slash (lf_RelativePath artifact)))) snapshot;
    ai_file : exists snapshot,
      owned_entry host owner false (filepath.Join root (lf_RelativePath artifact)) snapshot /\
      SizeBytes snapshot = lf_SizeBytes artifact;
    ai_content : exists content,
      ReadFile host (filepath.Join root (lf_RelativePath artifact)) = Ok content /\
      lf_Fingerprint artifact = "sha256:" +:+ sha256_hex (string_bytes content) }.

(** Every artifact is intact and bound to its file, by a binding of its own. *)
Definition workspace_intact {Quality} (host : Host) (root : string) (artifacts : list Artifact)
    (bindings : list (ImportBinding Quality)) : Prop :=
  exists owner snapshot, owned_entry host owner true root snapshot /\
    artifacts <> [] /\ length bindings = length artifacts /\ NoDup (map ib_ArtifactID bindings) /\
    Forall (fun artifact => artifact_intact host root owner artifact /\
      exists binding, binding ∈ bindings /\ ib_ArtifactID binding = lf_ArtifactID artifact /\
        ib_Path binding = filepath.Join root (lf_RelativePath artifact)) artifacts.

Lemma immutableWorkspaceEntry_Ok host path directory wanted snapshot owner :
  immutableWorkspaceEntry host path directory wanted = Ok (snapshot, owner) ->
  owned_entry host owner directory path snapshot /\ (forall o, wanted = Some o -> owner = o).
Proof.
  unfold immutableWorkspaceEntry. destruct (Lstat host path) as [info|] eqn:El; [|done]. intros H.
  apply bind_Ok in H as (u & Hm%fail_if_Ok & H). destruct (hi_Stat info) as [[s o]|] eqn:Es; [|done].
  apply bind_Ok in H as (u1 & Ho%fail_if_Ok & H). injection H as -> ->.
  apply orb_false_iff in Hm as [[[Hl Hd%negb_false_iff%eqb_prop]%orb_false_iff Hr]%orb_false_iff Hp].
  apply negb_false_iff, bool_decide_eq_true in Hp. split.
  - exists info. split_and!; try done. destruct directory.
    + symmetry in Hd. unfold IsDir in Hd. by apply bool_decide_eq_true in Hd.
    + apply negb_false_iff in Hr. unfold IsRegular in Hr. by apply bool_decide_eq_true in Hr.
  - intros o' ->. by apply negb_false_iff, bool_decide_eq_true in Ho.
Qed.

Lemma verify_directories_Ok host owner components current :
  verify_directories host owner current components = Ok tt ->
  forall k, (0 < k <= length components)%nat ->
    exists snapshot, owned_entry host owner true (foldl filepath.Join current (take k components)) snapshot.
Proof.
  revert current. induction components as [|c rest IH]; intros current H k Hk; [simpl in Hk; lia|].
  cbn [verify_directories] in H. apply bind_Ok in H as ([snapshot o] & He & H).
  apply immutableWorkspaceEntry_Ok in He as [He Ho]. specialize (Ho _ eq_refl) as ->.
  destruct k as [|k]; [lia|]. cbn [take foldl]. destruct k as [|k].
  - rewrite take_0. by exists snapshot.
  - apply (IH _ H). simpl in Hk. lia.
Qed.

Lemma take_removelast {A} (l : list A) k : (k < length l)%nat -> take k (removelast l) = take k l.
Proof.
  revert k. induction l as [|x l IH]; intros k Hk; simpl in Hk; [lia|].
  destruct l as [|y l]; [destruct k; [done|simpl in Hk; lia]|].
  change (removelast (x :: y :: l)) with (x :: removelast (y :: l)).
  destruct k as [|k]; [done|]. cbn [take]. f_equal. apply IH. lia.
Qed.

Lemma length_removelast {A} (l : list A) : length (removelast l) = pred (length l).
Proof.
  induction l as [|x l IH]; [done|]. destruct l as [|y l]; [done|].
  change (removelast (x :: y :: l)) with (x :: removelast (y :: l)). simpl in *. by rewrite IH.
Qed.

Lemma verifyStoredArtifact_Ok host root artifact caseID owner :
  unsafe_relative (lf_RelativePath artifact) = false ->
  verifyStoredArtifact host root (lf_RelativePath artifact) artifact caseID owner = Ok tt ->
  artifact_intact host root owner artifact.
Proof.
  intros Hsafe. unfold verifyStoredArtifact. intros H. apply bind_Ok in H as ([] & Hd & H).
  apply bind_Ok in H as ([snapshot o] & He & H). apply bind_Ok in H as (u1 & Hs%fail_if_Ok & H).
  apply bind_Ok in H as (content & Hc & H%fail_if_Ok).
  apply immutableWorkspaceEntry_Ok in He as [He Ho]. specialize (Ho _ eq_refl) as ->.
  apply negb_false_iff, bool_decide_eq_true in Hs.
  apply orb_false_iff in H as [Hf%negb_false_iff%bool_decide_eq_true _].
  split; [done| | |]; eauto.
  intros k Hk. rewrite <- take_removelast by lia. apply (verify_directories_Ok _ _ _ _ Hd).
  rewrite length_removelast. lia.
Qed.

Lemma unique_bindings_Ok {Quality} (bindings : list (ImportBinding Quality)) found m :
  unique_bindings bindings found = Ok m ->
  NoDup (map ib_ArtifactID bindings) /\
  Forall (fun binding => found !! ib_ArtifactID binding = None) bindings /\
  forall id binding, m !! id = Some binding ->
    found !! id = Some binding \/ (binding ∈ bindings /\ ib_ArtifactID binding = id).
Proof.
  revert found. induction bindings as [|b bindings IH]; intros found; cbn [unique_bindings map].
  { intros [= ->]. split_and!; [constructor|constructor|by left]. }
  destruct (found !! ib_ArtifactID b) eqn:E; [done|]. intros (Hn & Hf & Hm)%IH.
  rewrite Forall_forall in Hf. split_and!.
  - constructor; [|done]. intros (x & Hx & Hin)%elem_of_map_inv. specialize (Hf _ Hin).
    by rewrite Hx, lookup_insert_eq in Hf.
  - constructor; [done|]. rewrite Forall_forall. intros x Hx. specialize (Hf _ Hx).
    by apply lookup_insert_None in Hf as [? _].
  - intros id binding H. destruct (Hm _ _ H) as [[[<- <-]|[_ ?]]%lookup_insert_Some|[? ?]].
    + right. split; [left|done].
    + by left.
    + right. split; [by right|done].
Qed.

Lemma verifyStoredArtifacts_Ok {Quality} host root artifacts (bindings : list (ImportBinding Quality)) :
  verifyStoredArtifacts host root artifacts bindings = Ok tt -> workspace_intact host root artifacts bindings.
Proof.
  unfold verifyStoredArtifacts. intros H. apply bind_Ok in H as ([snapshot owner] & He & H).
  apply immutableWorkspaceEntry_Ok in He as [He _]. apply bind_Ok in H as (u & Hl%fail_if_Ok & H).
  apply bind_Ok in H as (m & (Hn & _ & Hm)%unique_bindings_Ok & H).
  apply orb_false_iff in Hl as [Hne%bool_decide_eq_false Hlen%negb_false_iff%bool_decide_eq_true].
  exists owner, snapshot. split_and!; try done; [by destruct artifacts|].
  cbn [snd] in H. clear Hne Hlen. revert H. generalize 0%nat as index.
  induction artifacts as [|artifact artifacts IH]; intros index H; [constructor|].
  cbn [verify_artifacts] in H. destruct (m !! lf_ArtifactID artifact) as [binding|] eqn:Eb; [|done].
  apply bind_Ok in H as (u1 & Hsafe%fail_if_Ok & H). apply bind_Ok in H as (u2 & Hp%fail_if_Ok & H).
  apply bind_Ok in H as ([] & Hv & H). apply negb_false_iff, bool_decide_eq_true in Hp.
  constructor; [|by eapply IH]. split; [by eapply verifyStoredArtifact_Ok|].
  exists binding. destruct (Hm _ _ Eb) as [Hb|[? ?]]; [by rewrite lookup_empty in Hb|]. done.
Qed.

(** ** Current evidence *)
Section fresh.
Context {Quality : Type} `{!EqDecision Quality} {codec : Codec}.

(** Evidence of a queue entry was collected now from Lidarr; when its source is
    gone, from the files of the earlier record, which are intact. *)
Record fresh (runner : EvidenceCollector (Quality := Quality)) (queue : QueueRecord)
    (previous : option (Record_ Quality)) (current : Evidence Quality) : Prop :=
  { fr_collected : collected (ReadAlbum (co_lidarr runner)) (ReadReleaseTracks (co_lidarr runner))
      (ReadManualImports (co_lidarr runner)) (ResolvePublishedPath (co_worker runner)) current;
    fr_queue : q_ID (ev_Queue current) = q_ID queue;
    fr_download : q_DownloadID (ev_Queue current) = q_DownloadID queue;
    fr_eligible : eligibleQueue (ev_Queue current) = true;
    fr_stored : ev_Recovered current = true ->
      exists planned plannedCase, previous = Some planned /\ DecodeCase (rec_Case planned) = Ok plannedCase /\
        lc_Artifacts (ev_Case current) = lc_Artifacts plannedCase /\
        ev_WorkspaceRoot current = rec_WorkspaceRoot planned /\
        workspace_intact (co_host runner) (rec_WorkspaceRoot planned) (lc_Artifacts plannedCase)
          (rec_Bindings planned) }.

(** What the adapter relies on of its [Inspector]. *)
Class FreshInspector (runner : EvidenceCollector (Quality := Quality))
    (inspector : QueueRecord -> option (Record_ Quality) -> result (Evidence Quality)) : Prop :=
  fresh_inspected queue previous current :
    inspector queue previous = Ok current -> fresh runner queue previous current.

Context (runner : EvidenceCollector (Quality := Quality)).

Lemma recoverQueueIdentity_Ok queue queue' :
  recoverQueueIdentity runner queue = Ok queue' ->
  q_ID queue' = q_ID queue /\ q_DownloadID queue' = q_DownloadID queue.
Proof.
  unfold recoverQueueIdentity, finalization.RecoverQueueIdentity.
  assert (forall r : result QueueRecord, (r = Ok queue' -> q_ID queue' = q_ID queue /\ q_DownloadID queue' = q_DownloadID queue) ->
    (if negb (eligibleQueueWithoutIdentity queue) then Ok queue else r) = Ok queue' ->
    q_ID queue' = q_ID queue /\ q_DownloadID queue' = q_DownloadID queue) as Hif.
  { intros r Hr. destruct (negb _); [by intros [= <-]|done]. }
  destruct (q_AlbumID queue), (q_ArtistID queue); [by intros [= <-]|apply Hif..];
    intros H; apply bind_Ok in H as ([[album artist]|] & _ & H); [|by injection H as <-| |by injection H as <-| |by injection H as <-];
    apply bind_Ok in H as (u & _ & H); apply bind_Ok in H as (u1 & _ & H); by injection H as <-.
Qed.

Lemma assembleCase_artifacts observedAt queue album tracks artifacts assessments bindings artifactIDs r :
  assembleCase (Quality := Quality) observedAt queue album tracks artifacts assessments bindings artifactIDs = Ok r ->
  lc_Artifacts r.1 = artifacts.
Proof.
  unfold assembleCase. intros H. apply bind_Ok in H as (u & _ & H). apply bind_Ok in H as (u1 & _ & H).
  apply bind_Ok in H as (u2 & _ & H). apply bind_Ok in H as (caps & _ & H).
  apply bind_Ok in H as (id & _ & H). apply bind_Ok in H as (data & _ & H). by injection H as <-.
Qed.

Lemma materialized_fresh queue kind path materialized previous current :
  materializedEvidence runner queue kind path materialized = Ok current ->
  eligibleQueue queue = true -> fresh runner queue previous current.
Proof.
  unfold materializedEvidence. intros H He. pose proof (from_materialized _ _ _ _ _ _ _ _ _ _ _ _ _ H) as Hc.
  unfold assembleMaterializedEvidence in H. apply bind_Ok in H as (u & _ & H).
  apply bind_Ok in H as (root & _ & H). apply bind_Ok in H as ([album tracks] & _ & H).
  destruct (q_ArtistID queue); [|done]. apply bind_Ok in H as (imports & _ & H).
  apply bind_Ok in H as ([repairCase bindings] & _ & H). injection H as <-. by split.
Qed.

Lemma stored_fresh queue planned current :
  storedEvidence runner queue planned = Ok current ->
  eligibleQueue queue = true -> fresh runner queue (Some planned) current.
Proof.
  unfold storedEvidence. intros H He. apply bind_Ok in H as (plannedCase & Hd & H).
  pose proof (from_stored _ _ _ (ResolvePublishedPath (co_worker runner)) _ _ _ _ _ H) as Hc.
  unfold buildStoredEvidence in H. rewrite Hd in H. cbn [mbind result_bind] in H.
  apply bind_Ok in H as (u & _ & H). apply bind_Ok in H as (u1 & _ & H). apply bind_Ok in H as ([] & Hv & H).
  apply bind_Ok in H as ([album tracks] & _ & H). destruct (q_ArtistID queue); [|done].
  apply bind_Ok in H as (imports & _ & H). apply bind_Ok in H as ([repairCase bindings] & Ha & H).
  injection H as <-. split; try done. intros _. exists planned, plannedCase. split_and!; try done.
  - unfold AssembleStored in Ha. apply bind_Ok in Ha as (u2 & _ & Ha). apply bind_Ok in Ha as (assessed & _ & Ha).
    by apply assembleCase_artifacts in Ha.
  - by apply verifyStoredArtifacts_Ok.
Qed.

Lemma recover_previous_fresh queue previous current :
  recover_previous runner queue previous = Ok current ->
  eligibleQueue queue = true -> fresh runner queue previous current.
Proof. destruct previous as [planned|]; [apply stored_fresh|done]. Qed.

Lemma fresh_queue queue queue' previous current :
  q_ID queue' = q_ID queue -> q_DownloadID queue' = q_DownloadID queue ->
  fresh runner queue' previous current -> fresh runner queue previous current.
Proof. intros E1 E2 [? ? ? ? ?]. split; [done|congruence|congruence|done|done]. Qed.

#[export] Instance Inspect_fresh : FreshInspector runner (Inspect runner).
Proof.
  intros queue previous current H. unfold Inspect in H. apply bind_Ok in H as (queue' & Hq & H).
  apply recoverQueueIdentity_Ok in Hq as [Hid Hdl]. apply bind_Ok in H as (u & He%fail_if_Ok & H).
  apply negb_false_iff in He. apply (fresh_queue queue queue'); [done|done|].
  destruct (findArchive _ _) as [[[path snapshot] kind]|[|e]].
  - unfold buildArchiveEvidence in H.
    destruct kind; cbn -[materializedEvidence] in H;
      (match type of H with context [match ?a with inl _ => _ | inr _ => _ end] => destruct a end; [|done]);
      by eapply materialized_fresh.
  - unfold buildDirectoryEvidence in H. destruct (MaterializeDirectoryAudio _ _ _) as [materialized|e].
    + destruct (materializedEvidence _ _ _ _ _) as [evidence|e] eqn:Em.
      * injection H as <-. by eapply materialized_fresh.
      * cbn [IsNoSupportedAudio worker_text] in H. done.
    + destruct (IsNoSupportedAudio e); [|done]. by apply recover_previous_fresh.
  - destruct (fe_NotExist e); [|done]. by apply recover_previous_fresh.
Qed.
End fresh.

(** ** Prepared imports *)

Lemma HighestImportedTrackHistoryID_bound history :
  Forall (fun imported => it_HistoryID imported <= HighestImportedTrackHistoryID history) history.
Proof.
  pose proof (highest_lt history (HighestImportedTrackHistoryID history + 1)) as [H _].
  destruct H as [_ H]; [lia|]. eapply Forall_impl; [exact H|]. simpl. lia.
Qed.

Section adapter_safety.
Context {Quality : Type} `{!EqDecision Quality} {codec : Codec} {json : AdapterCodec (Quality := Quality)}.

(** The queue of Lidarr has the job's download, in this entry. *)
Definition queued (queue : result (list QueueRecord)) (job : jobs.Job) (entry : QueueRecord) : Prop :=
  exists entries, queue = Ok entries /\ entry ∈ entries /\ q_DownloadID entry = jobs.job_DownloadID job /\
    (q_ID entry = jobs.job_QueueID job \/
     forall other, other ∈ entries -> q_DownloadID other = jobs.job_DownloadID job -> q_ID other <> jobs.job_QueueID job).

Lemma findQueue_queued adapter job entry :
  findQueue (Quality := Quality) adapter job = inl entry -> queued (ReadQueue (ad_Client adapter)) job entry.
Proof.
  unfold findQueue. intros (entries & Hq%lift_inl & H)%next_inl.
  pose proof (MatchQueue_correct (jobs.job_QueueKey job) (queue_keys entries)) as Hm.
  destruct (jobs.MatchQueue _ _) as [[index|]|]; [|done..].
  destruct (entries !! index) as [e|] eqn:He; [|done]. injection H as ->.
  exists entries. split; [done|]. destruct Hm as (c & Hc & Hor).
  assert (c = jobs.mkQueueKey (q_ID entry) (q_DownloadID entry)) as ->.
  { unfold queue_keys in Hc. change (map ?f entries) with (f <$> entries) in Hc.
    rewrite list_lookup_fmap, He in Hc. by injection Hc as <-. }
  split; [by eapply list_elem_of_lookup_2|].
  destruct Hor as [[E _]|(Hn & [Hne E] & _)]; [injection E as -> ->; by split; [|left]|].
  cbn in E. split; [done|]. right. intros other Ho Hd Hid. apply Hn.
  unfold queue_keys. change (map ?f entries) with (f <$> entries). apply list_elem_of_fmap.
  exists other. split; [|done]. unfold jobs.job_QueueKey. congruence.
Qed.

(** What an import was prepared from. *)
Record prepared_from (adapter : Adapter) (job : jobs.Job) (attempt : jobs.Attempt)
    (prepared : repair.PreparedImport) (entry : QueueRecord) (planned : Record_ Quality)
    (current : Evidence Quality) (authorized : AuthorizedImport Quality)
    (history : list ImportedTrack) : Prop :=
  { pf_planned : exists record, UnmarshalRecord (jobs.job_Evidence job) = Ok record /\
      planned = with_decision (jobs.att_Plan attempt) record;
    pf_queued : queued (ReadQueue (ad_Client adapter)) job entry;
    pf_current : ad_Inspector adapter entry (Some planned) = Ok current;
    pf_authorized : AuthorizeImport planned current = Ok (Some authorized);
    pf_request : MarshalCommand (importCommand authorized) = Ok (repair.pi_Request prepared);
    pf_output : repair.pi_OutputPath prepared = ev_WorkspaceRoot current;
    pf_history : ReadImportedTracks (ad_Client adapter) (ai_AlbumID authorized) "" = Ok history;
    pf_boundary : repair.pi_HistoryIDBefore prepared = HighestImportedTrackHistoryID history }.

Lemma Repair_prepared adapter job attempt prepared :
  Repair (Quality := Quality) adapter job attempt = inl prepared ->
  exists entry planned current authorized history,
    prepared_from adapter job attempt prepared entry planned current authorized history.
Proof.
  unfold Repair. intros (record & Hr%lift_inl & H)%next_inl. cbv zeta in H.
  apply next_inl in H as (entry & Hq%findQueue_queued & (current & Hc%lift_inl & H)%next_inl).
  destruct (AuthorizeImport _ _) as [[authorized|]|] eqn:Ha; [|done..].
  apply next_inl in H as (history & Hh%lift_inl & (request & Hm%lift_inl & [= <-])%next_inl).
  exists entry, (with_decision (jobs.att_Plan attempt) record), current, authorized, history.
  split; try done. by exists record.
Qed.

(** C8. An import that the Lidarr adapter prepares is for a queue entry that
    still has the job's download, whose evidence was collected now: it is eligible,
    and if its source is gone every artifact lies unchanged in its workspace, by
    size and content, where only its owner writes. The import adds missing tracks
    of one release of the entry's album from files bound when the repair was
    planned, and nothing else; the request encodes exactly that import, and the
    recorded history boundary is not below any import of the album that Lidarr
    lists. *)
Theorem lidarr_import_authorized (runner : EvidenceCollector (Quality := Quality)) inspector
    `{!FreshInspector runner inspector} planner (job : jobs.Job) (attempt : jobs.Attempt)
    (prepared : repair.PreparedImport) :
  Repair (mkAdapter (co_lidarr runner) inspector planner) job attempt = inl prepared ->
  exists record entry current authorized history,
    UnmarshalRecord (jobs.job_Evidence job) = Ok record /\
    let planned := with_decision (jobs.att_Plan attempt) record in
    queued (ReadQueue (co_lidarr runner)) job entry /\
    fresh runner entry (Some planned) current /\
    AuthorizeImport planned current = Ok (Some authorized) /\
    adds_missing (ReadAlbum (co_lidarr runner)) (ReadReleaseTracks (co_lidarr runner)) planned current authorized /\
    repair.pi_OutputPath prepared = rec_WorkspaceRoot record /\
    MarshalCommand (importCommand authorized) = Ok (repair.pi_Request prepared) /\
    ReadImportedTracks (co_lidarr runner) (ai_AlbumID authorized) "" = Ok history /\
    Forall (fun i => it_HistoryID i <= repair.pi_HistoryIDBefore prepared) history.
Proof.
  intros (entry & planned & current & authorized & history & [(record & Hr & ->) Hq Hc Ha Hm Ho Hh Hb])%Repair_prepared.
  cbn in Hq, Hc, Hh. apply fresh_inspected in Hc as Hf.
  exists record, entry, current, authorized, history. split; [done|]. split_and!; try done.
  - eapply authorized_import_adds_missing; [by apply fr_collected in Hf|done].
  - rewrite Ho. by apply AuthorizeImport_root in Ha.
  - rewrite Hb. apply HighestImportedTrackHistoryID_bound.
Qed.

(** C25. An attempt that records a prepared import is reported as imported
    exactly when the history of the album has, for every file of the import, an
    entry of its track and path that is not earlier than the request and newer
    than all that was listed when the import was prepared; the receipt encodes
    these entries. Whatever the command reports, there is no receipt otherwise. *)
Theorem lidarr_receipt_exact (before after : Adapter (Quality := Quality)) (job : jobs.Job)
    (attempt recorded : jobs.Attempt) (prepared : repair.PreparedImport) (status : repair.ImportStatus) :
  (forall files data, MarshalCommand files = Ok data -> UnmarshalCommand data = Ok files) ->
  (forall imported data, MarshalImported imported = Ok data -> data <> "") ->
  Repair before job attempt = inl prepared ->
  jobs.att_ImportRequest recorded = repair.pi_Request prepared ->
  jobs.att_HistoryIDBefore recorded = repair.pi_HistoryIDBefore prepared ->
  CheckImport after recorded = Ok status ->
  exists authorized earlier history,
    MarshalCommand (importCommand authorized) = Ok (repair.pi_Request prepared) /\
    ReadImportedTracks (ad_Client before) (ai_AlbumID authorized) "" = Ok earlier /\
    ReadImportedTracks (ad_Client after) (ai_AlbumID authorized) "" = Ok history /\
    let imported_now file imported :=
      imported ∈ history /\ confirms earlier (jobs.att_ImportStartedAt recorded) file imported in
    (repair.is_Receipt status <> "" <->
       Forall (fun file => exists imported, imported_now file imported) (importCommand authorized)) /\
    (repair.is_Receipt status <> "" ->
       exists confirmed, MarshalImported confirmed = Ok (repair.is_Receipt status) /\
         Forall2 imported_now (importCommand authorized) confirmed).
Proof.
  intros Hround Hnonempty (entry & planned & current & authorized & earlier & [_ _ _ _ Hm _ Hh Hb])%Repair_prepared
    Hrequest Hboundary H.
  unfold CheckImport in H. rewrite Hrequest, (Hround _ _ Hm), Hboundary, Hb in H. cbn [mbind result_bind] in H.
  apply bind_Ok in H as (checked & Hchecked & H).
  destruct (importCommand authorized) as [|first rest] eqn:Ef; [done|].
  assert (cf_AlbumID first = ai_AlbumID authorized) as Hal.
  { unfold importCommand in Ef. destruct (ai_Tracks authorized); [done|]. by injection Ef as <- _. }
  pose proof Hchecked as Hhist. unfold lidarrrepair.CheckImport in Hhist.
  apply bind_Ok in Hhist as (history & Hhist & _). rewrite Hal in Hhist.
  exists authorized, earlier, history. rewrite Ef. do 3 (split; [done|]). cbv zeta.
  pose proof (import_receipt_exact (fun albumID => ReadImportedTracks (ad_Client after) albumID "")
    (ReadManualImportCommand (ad_Client after)) (first :: rest) first earlier (jobs.att_CommandID recorded)
    (jobs.att_ImportStartedAt recorded) history eq_refl ltac:(cbv beta; by rewrite Hal)) as [Hsound Hcomplete].
  rewrite Hchecked in Hsound, Hcomplete.
  destruct (st_Receipt checked) as [confirmed|] eqn:Er.
  - apply bind_Ok in H as (receipt & Hrec & H). injection H as <-. cbn [repair.is_Receipt].
    pose proof (Hsound _ _ eq_refl Er) as HF. pose proof (Hnonempty _ _ Hrec). split; [|by exists confirmed].
    split; [|done]. intros _. eapply Forall2_Forall_l; [exact HF|]. apply Forall_forall. eauto.
  - injection H as <-. cbn [repair.is_Receipt]. split; [|done]. split; [done|]. intros HF.
    destruct (Hcomplete HF) as (s & c & [= <-] & Hs). congruence.
Qed.
End adapter_safety.

(** ** Observations *)

Lemma merge_sort_key_eq {A K} (key : A -> K) (R : relation A) `{!RelDecision R, !Transitive R, !Total R}
    (l1 l2 : list A) :
  (forall x y, R x y -> R y x -> key x = key y) -> NoDup (map key l1) ->
  merge_sort R l1 = merge_sort R l2 <-> l1 ≡ₚ l2.
Proof.
  intros Hanti Hnd. split.
  - intros E. rewrite <- (merge_sort_Permutation R l1), E. apply merge_sort_Permutation.
  - intros Hp. apply (StronglySorted_unique_strong R);
      [|by apply StronglySorted_merge_sort|by apply StronglySorted_merge_sort|by rewrite !merge_sort_Permutation].
    intros x y Hx Hy Hxy Hyx. rewrite merge_sort_Permutation in Hx, Hy. rewrite <- Hp in Hy.
    apply (Hanti _ _ Hxy) in Hyx.
    apply list_elem_of_lookup in Hx as [i Hi], Hy as [j Hj].
    assert (i = j) as ->; [|congruence].
    apply (NoDup_lookup (map key l1) i j (key x)); [done| |].
    + change (map key l1) with (key <$> l1). by rewrite list_lookup_fmap, Hi.
    + change (map key l1) with (key <$> l1). rewrite list_lookup_fmap, Hj. simpl. congruence.
Qed.

#[local] Instance release_le_trans : Transitive release_le.
Proof. intros a b c. unfold release_le. lia. Qed.
#[local] Instance release_le_total : Total release_le.
Proof. intros a b. unfold release_le. lia. Qed.
#[local] Instance track_id_le_trans : Transitive track_id_le.
Proof. intros a b c. unfold track_id_le. lia. Qed.
#[local] Instance track_id_le_total : Total track_id_le.
Proof. intros a b. unfold track_id_le. lia. Qed.
#[local] Instance artifact_le_trans : Transitive artifact_le.
Proof. intros a b c. unfold artifact_le. rewrite !string_le_le. apply transitivity. Qed.
#[local] Instance artifact_le_total : Total artifact_le.
Proof. intros a b. unfold artifact_le. rewrite !string_le_le. apply total, _. Qed.

(** What decides about planning is the same, in any order. *)
Definition same_inputs (a b : Case) : Prop :=
  lc_Album a = lc_Album b /\ lc_Releases a ≡ₚ lc_Releases b /\ lc_Tracks a ≡ₚ lc_Tracks b /\
  lc_Artifacts a ≡ₚ lc_Artifacts b.

(** No two releases, tracks or artifacts of a case have one identifier. Lidarr's
    own identifiers are distinct; nothing in this code checks it, and the sorts
    by identifier keep entries of one identifier in an order of their own. *)
Definition distinct_inputs (a : Case) : Prop :=
  NoDup (map lr_ReleaseID (lc_Releases a)) /\ NoDup (map lt_TrackID (lc_Tracks a)) /\
  NoDup (map lf_ArtifactID (lc_Artifacts a)).

Lemma planningCaseInputs_eq a b :
  distinct_inputs a -> planningCaseInputs a = planningCaseInputs b <-> same_inputs a b.
Proof.
  intros (Hr & Ht & Hf). unfold same_inputs.
  rewrite <- (merge_sort_key_eq lr_ReleaseID release_le), <- (merge_sort_key_eq lt_TrackID track_id_le),
    <- (merge_sort_key_eq lf_ArtifactID artifact_le); try done.
  - unfold planningCaseInputs. split; [intros [= -> -> -> ->]|intros (-> & -> & -> & ->)]; done.
  - intros x y. unfold artifact_le. rewrite !string_le_le. intros. by apply (anti_symm String.le).
  - intros x y. unfold track_id_le. lia.
  - intros x y. unfold release_le. lia.
Qed.

Lemma planningCaseInputs_same a b : planningCaseInputs a = planningCaseInputs b -> same_inputs a b.
Proof.
  intros H. unfold planningCaseInputs in H. injection H as Ha Hr Ht Hf. unfold same_inputs.
  rewrite <- (merge_sort_Permutation release_le (lc_Releases a)), Hr, merge_sort_Permutation.
  rewrite <- (merge_sort_Permutation track_id_le (lc_Tracks a)), Ht, merge_sort_Permutation.
  by rewrite <- (merge_sort_Permutation artifact_le (lc_Artifacts a)), Hf, merge_sort_Permutation.
Qed.

Lemma planningChange_empty a b :
  planningChange a b = "" <-> planningCaseInputs a = planningCaseInputs b.
Proof.
  unfold planningChange. cbv zeta.
  destruct (planningCaseInputs a) as [al rs ts fs], (planningCaseInputs b) as [al' rs' ts' fs'].
  cbn [in_Album in_Releases in_Tracks in_Artifacts].
  destruct (bool_decide_reflect (fs = fs')), (bool_decide_reflect (al = al')),
    (bool_decide_reflect (rs = rs')), (bool_decide_reflect (ts = ts')); cbn; subst; split; intros H;
    try done; try (injection H as -> -> -> ->; done); naive_solver.
Qed.

Section observation.
Context {Quality : Type} `{!EqDecision Quality} {codec : Codec} {json : AdapterCodec (Quality := Quality)}.

(** The earlier job of a queue entry, if it has one. *)
Definition prior_job (previous : list jobs.Job) (entry : QueueRecord) (prior : jobs.Job) : Prop :=
  exists index, jobs.MatchQueue (jobs.mkQueueKey (q_ID entry) (q_DownloadID entry))
                  (map jobs.job_QueueKey previous) = Ok index /\
    prior = default zero_job (index ≫= fun i => previous !! i).

(** A job that is not under repair or imported carries the evidence collected
    for it now, and what became different since the evidence it had. *)
Definition reported (adapter : Adapter (Quality := Quality)) (previous : list jobs.Job)
    (entry : QueueRecord) (job : jobs.Job) : Prop :=
  jobs.job_QueueKey job = jobs.mkQueueKey (q_ID entry) (q_DownloadID entry) /\
  jobs.job_Title job = lidarr.q_Title entry /\
  exists prior, prior_job previous entry prior /\
    if settled prior
    then jobs.job_Evidence job = "" /\ jobs.job_CollectionError job = "" /\ jobs.job_PlanningFingerprint job = ""
    else exists record,
      (jobs.job_Evidence prior = "" /\ record = None \/
       jobs.job_Evidence prior <> "" /\ exists r, UnmarshalRecord (jobs.job_Evidence prior) = Ok r /\ record = Some r) /\
      match ad_Inspector adapter entry record with
      | Err e => jobs.job_CollectionError job = e /\ jobs.job_Evidence job = ""
      | Ok evidence =>
          jobs.job_CollectionError job = "" /\
          jobs.job_SourceFingerprint job = lc_CaseID (ev_Case evidence) /\
          encodeEvidence evidence = Ok (jobs.job_Evidence job) /\
          planningFingerprint (ev_Case evidence) = Ok (jobs.job_PlanningFingerprint job) /\
          forall r, record = Some r -> exists priorCase, DecodeCase (rec_Case r) = Ok priorCase /\
            (jobs.job_PlanningChange job = "" -> same_inputs priorCase (ev_Case evidence)) /\
            (distinct_inputs priorCase -> same_inputs priorCase (ev_Case evidence) ->
               jobs.job_PlanningChange job = "") /\
            (jobs.job_PlanningChange job = "" ->
               planningFingerprint priorCase = Ok (jobs.job_PlanningFingerprint job)) /\
            (jobs.job_PlanningFingerprint prior = "" ->
               planningFingerprint priorCase = Ok (jobs.job_PreviousPlanningFingerprint job))
      end.

Lemma observe_entry_reported adapter previous entry job :
  observe_entry (Quality := Quality) adapter previous entry = Ok job -> reported adapter previous entry job.
Proof.
  unfold observe_entry. cbv zeta. intros H. apply bind_Ok in H as (index & Hi & H).
  set (prior := default zero_job _) in H. cbv beta in H.
  assert (prior_job previous entry prior) as Hp by by exists index.
  destruct (settled prior) eqn:Es.
  { injection H as <-. split_and!; try done. exists prior. by rewrite Es. }
  apply bind_Ok in H as (record & Hr & H).
  assert (jobs.job_Evidence prior = "" /\ record = None \/
     jobs.job_Evidence prior <> "" /\ exists r, UnmarshalRecord (jobs.job_Evidence prior) = Ok r /\ record = Some r) as Hrec.
  { destruct (bool_decide_reflect (jobs.job_Evidence prior = "")) as [E|E]; [by injection Hr as <-; left|].
    apply bind_Ok in Hr as (r & Hr & Hs). injection Hs as <-. right. split; [done|by exists r]. }
  clear Hr. destruct (ad_Inspector adapter entry record) as [evidence|e] eqn:Ei.
  2: { injection H as <-. split_and!; try done. exists prior. rewrite Es. split; [done|].
       exists record. by rewrite Ei. }
  apply bind_Ok in H as (fp & Hfp & H). apply bind_Ok in H as (job' & Hc & H).
  apply bind_Ok in H as (data & Hd & H). injection H as <-.
  destruct record as [r|]; cbn [compared] in Hc.
  - apply bind_Ok in Hc as (priorCase & Hpc & Hc). apply bind_Ok in Hc as (pfp & Hpfp & Hc).
    injection Hc as <-. split_and!; try done. exists prior. rewrite Es. split; [done|].
    exists (Some r). rewrite Ei. do 5 (split; [done|]). intros r' [= <-]. exists priorCase. split; [done|].
    split_and!.
    + change (planningChange priorCase (ev_Case evidence) = "" -> same_inputs priorCase (ev_Case evidence)).
      rewrite planningChange_empty. apply planningCaseInputs_same.
    + change (distinct_inputs priorCase -> same_inputs priorCase (ev_Case evidence) ->
        planningChange priorCase (ev_Case evidence) = "").
      intros Hdist Hsame. by apply planningChange_empty, planningCaseInputs_eq.
    + change (planningChange priorCase (ev_Case evidence) = "" -> planningFingerprint priorCase = Ok fp).
      rewrite planningChange_empty. unfold planningFingerprint in *. by intros ->.
    + change (jobs.job_PlanningFingerprint prior = "" -> planningFingerprint priorCase = Ok pfp).
      intros E. by rewrite (bool_decide_eq_true_2 _ E) in Hpfp.
  - injection Hc as <-. split_and!; try done. exists prior. rewrite Es. split; [done|].
    exists None. rewrite Ei. do 5 (split; [done|]). done.
Qed.

(** C34. An observation of Lidarr has one job for every queue entry, in order.
    An entry whose job is under repair or imported is left alone; for every other
    the evidence collected now is reported, or why there is none. With earlier
    evidence, a planning change is reported whenever the album, releases, tracks
    or artifacts are not the same up to order. In the other direction the earlier
    case has to name each release, track and artifact once ([distinct_inputs],
    which the code takes from Lidarr and does not check): then none is reported
    when they are the same up to order. When none is reported the planning
    fingerprint is that of the earlier case. *)
Theorem lidarr_observation_complete (adapter : Adapter (Quality := Quality)) again previous observation :
  Observe adapter again previous = Ok observation ->
  exists queue, ReadQueue (ad_Client adapter) = Ok queue /\
    repair.ob_Queue observation = queue_keys queue /\
    Forall2 (reported adapter previous) queue (repair.ob_Jobs observation).
Proof.
  unfold Observe. intros H. apply bind_Ok in H as (queue & Hq & H). apply bind_Ok in H as (complete & _ & H).
  apply bind_Ok in H as (observed & Ho%mapM_Ok & H). injection H as <-. exists queue. split_and!; try done.
  cbn. eapply Forall2_impl; [exact Ho|]. intros entry job. apply observe_entry_reported.
Qed.
End observation.
