(* ===== verification/LidarrWitnesses.v ===== *)
(** * Concrete planning results and Lidarr imports

    Inputs at which the theorems on planning results, the planning runner and
    the Lidarr adapter apply, with a codec whose messages carry nothing but the
    choice they encode. *)
From stdpp Require Import base strings list gmap sorting relations.
From S2P Require Import Materialize.
From S2P Require Import Prelude GoStrings Probe LidarrContracts PlanningState PlanningRunner LidarrState.
From S2P Require Import Jobs RepairEngine LidarrRepair LidarrSafety QueueFinalize QueueRemoval Inventory.
From S2P Require Import FileIdentity LidarrAdapter.
Import planning lidarrcontracts lidarrstate lidarr lidarrcontracts servarr lidarrrepair.

(** ** Planning results *)

Definition example_case_id : string :=
  "sha256:1111111111111111111111111111111111111111111111111111111111111111".
Definition example_validator : DecisionValidator := fun data => Ok (example_case_id, data).
Definition example_instant (n : Z) : time := mkTime (n * 10 ^ 9) None.

(** A failure, and then a decision. *)
Definition example_failed : result (StoredResult * bool * ResultStore.Files) :=
  ResultStore.PutFailure example_validator ∅ (fun _ => Ok true) example_case_id
    (mkFailure FailureTimeout 0) (example_instant 1000) (example_instant 2000).
Definition result_files (put : result (StoredResult * bool * ResultStore.Files)) : ResultStore.Files :=
  match put with Ok (_, _, files) => files | Err _ => ∅ end.
Definition example_decided : result (StoredResult * bool * ResultStore.Files) :=
  ResultStore.PutDecision example_validator (result_files example_failed) (fun _ => Ok true)
    example_case_id "{}" (example_instant 3000).

Definition first_result : StoredResult :=
  mkStoredResult ResultVersionV1 example_case_id 1 (example_instant 1000) (Some (example_instant 2000))
    (Some (mkFailure FailureTimeout 0)) "".

Lemma result_files_Ok put :
  is_ok put = true -> exists r changed, put = Ok (r, changed, result_files put).
Proof. destruct put as [[[r changed] files]|]; [|done]. intros _. by exists r, changed. Qed.

Lemma planning_results_bound_witness :
  sr_CaseID first_result = example_case_id /\ 1 <= sr_Attempts first_result <= max_uint64 /\
  exists r', ResultStore.Get example_validator (result_files example_decided) example_case_id = Ok (Some r') /\
    (r' = first_result \/ (HasDecision first_result = false /\ sr_Attempts first_result < sr_Attempts r')).
Proof.
  apply (planning_results_bound example_validator (result_files example_failed)).
  - apply rtc_once. destruct (result_files_Ok example_failed) as (r & changed & E); [vm_compute; reflexivity|].
    exact (put_failure _ _ _ _ _ _ _ _ _ _ E).
  - apply rtc_once. destruct (result_files_Ok example_decided) as (r & changed & E); [vm_compute; reflexivity|].
    exact (put_decision _ _ _ _ _ _ _ _ _ E).
  - vm_compute. reflexivity.
Defined.

(** ** A codec and a catalogue *)

Definition example_mapping : TrackMapping := mkTrackMapping "artifact:1" 12.

Definition example_message (caseID : string) : ImportMissingTracksDecision :=
  mkImportMissingTracks SchemaVersion caseID ActionImportMissingTracks
    "capability:import_missing_tracks:7" 5 7 [example_mapping] [] "the second track is missing".

Definition example_catalog_album : lidarr.Album :=
  lidarr.mkAlbum 5 3 "Artist" "Album" true
    [lidarr.mkRelease 7 "release" "Album" "" "CD" [] [] 2 1 true].

Definition example_catalog_tracks : list lidarr.Track :=
  [lidarr.mkTrack 11 5 7 3 1 "1" 1 "First" 180000 true 90;
   lidarr.mkTrack 12 5 7 3 2 "2" 1 "Second" 200000 false 0].

Definition example_queue : QueueRecord :=
  mkQueueRecord 42 (Some 3) (Some 5) "Artist - Album" "completed" "warning" [] "" "download-1"
    "/downloads/album".

Definition example_evidence : ProbeEvidence :=
  mkProbeEvidence (mkProbeFormat ["flac"] None None None None (Some 200000) None None None []) [] [] [].

Definition example_materialized : Success :=
  mkSuccess "downloads" [mkMaterialized "artifact:x" "02.flac" ["work"; "02.flac"] "sha256:00" 1000 example_evidence].

Definition example_import : ManualImport nat :=
  mkManualImport "/work/02.flac" 5 7 [12] (Some 1%nat) 0 false None [].

Definition example_resolve (root : string) (components : list string) : result string :=
  Ok (if bool_decide (length components = 1%nat) then "/work" else "/work/02.flac").

(** The case ID of every case is the digest of the empty text. *)
Definition example_digest : string :=
  "sha256:e3b0c44298fc1c149afbf4c8996fb92427ae41e4649b934ca495991b7852b855".

Definition example_repair_case : Case :=
  mkCase SchemaVersion example_digest zero_time (mkQueue 42 "" "" []) (mkAlbum 5 3 "" "" true) [] [] [] [] [].

Definition example_codec : Codec :=
  {| MarshalCase := fun _ => Ok "case"; MarshalIdentity := fun _ => Ok ""; Canonicalize := Ok;
     MarshalMessage := fun m => match m with NoRepair _ => Ok "none" | ImportMissingTracks _ => Ok "import" end;
     ValidCase := fun _ => Ok tt; ValidDecision := fun _ => Ok tt;
     UnmarshalCase := fun _ => Ok example_repair_case;
     UnmarshalAction := fun _ => Ok ActionImportMissingTracks;
     UnmarshalNoRepair := fun _ => Err "not a decision against repair";
     UnmarshalImport := fun _ => Ok (example_message example_digest) |}.
#[local] Existing Instance example_codec.

Definition example_binding : ImportBinding nat :=
  mkBinding "artifact:1" "/work/02.flac" (Some 1%nat) 0 "download-1" false.

Definition example_record : Record_ nat :=
  mkRecord stateVersion 42 SourceDirectoryAudio "/downloads/album" "sha256:00" "/work" "case" "import"
    [example_binding].

(** ** The runner on an empty store *)

Definition example_dependencies : runner.Dependencies (Case := Record_ nat) (Decision := Decision) (E := Failure) :=
  runner.mkDependencies (fun _ => example_digest) decision_CaseID (fun _ => false) id
    (runner.mkBackoff (5 * 60 * 10 ^ 9) (6 * 60 * 60 * 10 ^ 9)).

Definition example_planner (record : Record_ nat) (s : Store nat) : (Decision + Failure) * Store nat :=
  (inr (mkFailure FailureTimeout 0), s).

Definition empty_store : Store nat := mkStore ∅ ∅ ∅.

Definition example_run : runner.answer :=
  runner.Process example_dependencies None (example_instant 1000) (example_instant 1010) example_planner
    example_record empty_store.

Lemma process_outcome_witness :
  runner.evolves empty_store example_run.2 /\ outcome_ok example_dependencies example_digest example_run /\
  (forall decision s', runner.re_Decision example_run.1.1 = Some decision -> runner.evolves example_run.2 s' ->
     exists stored, GetDecision s' example_digest = Ok stored /\ EncodeDecision decision = EncodeDecision stored) /\
  (runner.re_Submitted example_run.1.1 = true ->
     exists previous,
       runner.GetStatus (runner.PutCase empty_store example_record).2 example_digest = Ok previous /\
       may_plan (example_instant 1000) previous /\
       retry_scheduled example_dependencies example_digest previous (UTC (example_instant 1010)) example_run).
Proof.
  assert (backoff_ok (runner.dep_Backoff example_dependencies)) as Hb
    by (split; simpl; unfold max_int64; lia).
  assert (runner.consistent empty_store) as Hc by apply map_Forall_empty.
  assert (forall s1, runner.evolves s1 (example_planner example_record s1).2) as Hp
    by (intros s1; apply rtc_refl).
  exact (process_outcome example_dependencies None (example_instant 1000) (example_instant 1010)
           example_planner example_record empty_store Hb Hc Hp).
Defined.

(** ** An authorized import *)

(** An empty download directory, whose audio the worker materialized. *)
Definition example_host : repairlidarr.Host :=
  repairlidarr.mkHost
    (fun _ => inl (repairlidarr.mkHostInfo (filesystem.mkFileMode filesystem.Directory 493)
                     (Some (mkSnapshot 1 2 0 0, 1000))))
    (fun _ => inl []) (fun _ => Err "no such file").

Definition example_client (imported : list ImportedTrack) : repairlidarr.Client (Quality := nat) :=
  repairlidarr.mkClient (Ok [example_queue]) (fun _ => Ok None) (fun _ => Ok example_catalog_album)
    (fun _ _ => Ok example_catalog_tracks) (fun _ _ => Ok [example_import]) (fun _ _ => Ok imported)
    (fun _ => Err "no command") (fun _ => Err "no command").

Definition example_worker : repairlidarr.Worker :=
  repairlidarr.mkWorker (fun _ _ _ => inr (repairlidarr.WorkerFailure "no archive"))
    (fun _ _ _ => inr (repairlidarr.WorkerFailure "no archive"))
    (fun _ _ => inl (repairlidarr.mkMaterialization materialize.OperationMaterializeDirectory "sha256:00"
                       ["work"] example_materialized)) example_resolve.

Definition example_entry (id : Z) : ImportedTrack :=
  mkImportedTrack id 5 3 12 "download-1" "/work/02.flac" "/music/02.flac" (example_instant 2000).

Definition example_collector : repairlidarr.EvidenceCollector :=
  repairlidarr.mkEvidenceCollector (example_client [example_entry 100]) example_worker example_host
    (example_instant 1000).

Definition example_file : ManualImportCommandFile nat :=
  mkCommandFile "/work/02.flac" 3 5 7 12 (Some 1%nat) 0 "" true.

#[local] Instance command_file_eq_dec : EqDecision (ManualImportCommandFile nat).
Proof. solve_decision. Defined.

(** JSON of the one record and of the one command of the example. *)
Definition example_json : repairlidarr.AdapterCodec (Quality := nat) :=
  {| repairlidarr.MarshalRecord := fun _ => Ok "record";
     repairlidarr.UnmarshalRecord := fun _ => Ok example_record;
     repairlidarr.MarshalCommand := fun files =>
       if bool_decide (files = [example_file]) then Ok "command" else Err "unexpected command";
     repairlidarr.UnmarshalCommand := fun _ => Ok [example_file];
     repairlidarr.MarshalImported := fun _ => Ok "receipt";
     repairlidarr.MarshalInputs := fun _ => Ok "inputs" |}.
#[local] Existing Instance example_json.

Definition example_adapter (imported : list ImportedTrack) : repairlidarr.Adapter :=
  repairlidarr.mkAdapter (example_client imported) (repairlidarr.Inspect example_collector)
    (fun _ _ => Err "no planner").

Definition example_job : jobs.Job :=
  jobs.mkJob 1 jobs.Lidarr 42 "download-1" "Artist - Album" "" "" "" "" jobs.zero_time "record" "" "import" ""
    0 jobs.zero_time 0 "" 0 true jobs.Ready "" jobs.zero_time.

Definition example_attempt (request : string) (boundary : Z) : jobs.Attempt :=
  jobs.mkAttempt 1 1 jobs.Running "import" "" request boundary 0 (example_instant 1500) jobs.zero_time "" ""
    jobs.zero_time jobs.zero_time.

Definition example_prepared : repair.PreparedImport := repair.mkPreparedImport "/work" "command" 100.

Lemma example_prepared_ok :
  repairlidarr.Repair (example_adapter [example_entry 100]) example_job (example_attempt "" 0) =
  inl example_prepared.
Proof. vm_compute. reflexivity. Qed.

Lemma lidarr_import_authorized_witness :
  exists entry current authorized,
    queued (Ok [example_queue]) example_job entry /\
    fresh example_collector entry (Some example_record) current /\
    AuthorizeImport example_record current = Ok (Some authorized) /\
    adds_missing (fun _ => Ok example_catalog_album) (fun _ _ => Ok example_catalog_tracks)
      example_record current authorized.
Proof.
  destruct (lidarr_import_authorized example_collector (repairlidarr.Inspect example_collector)
              (fun _ _ => Err "no planner") example_job (example_attempt "" 0) example_prepared
              example_prepared_ok)
    as (record & entry & current & authorized & history & Hr & Hq & Hf & Ha & Hadds & _).
  injection Hr as <-. exists entry, current, authorized.
  split; [exact Hq|]. split; [exact Hf|]. split; [exact Ha|exact Hadds].
Defined.

(** ** A receipt *)

Definition example_checked : repair.ImportStatus := repair.mkImportStatus "receipt" "".

Lemma lidarr_receipt_exact_witness :
  exists authorized earlier (history : list ImportedTrack),
    repairlidarr.MarshalCommand (importCommand authorized) = Ok "command" /\
    Forall (fun file => exists imported, imported ∈ history /\
              confirms earlier (example_instant 1500) file imported) (importCommand authorized).
Proof.
  destruct (lidarr_receipt_exact (example_adapter [example_entry 100])
              (example_adapter [example_entry 100; example_entry 101]) example_job
              (example_attempt "" 0) (example_attempt "command" 100) example_prepared example_checked)
    as (authorized & earlier & history & Hm & _ & _ & [Hall _] & _).
  - intros files data. cbn. case_bool_decide as E; [|done]. by rewrite E.
  - intros imported data [= <-]. done.
  - apply example_prepared_ok.
  - reflexivity.
  - reflexivity.
  - vm_compute. reflexivity.
  - exists authorized, earlier, history. split; [done|]. by apply Hall.
Defined.

(** ** An observation *)

Definition example_observation : result repair.Observation :=
  repairlidarr.Observe (example_adapter []) (Ok []) [example_job].

Lemma example_observation_ok :
  match example_observation with
  | Ok observation => bool_decide (map jobs.job_PlanningChange (repair.ob_Jobs observation) =
                        ["audio files, target album, release catalog, track catalog/status"])
  | Err _ => false
  end = true.
Proof. vm_compute. reflexivity. Qed.

Lemma lidarr_observation_complete_witness :
  exists observation, example_observation = Ok observation /\
    Forall2 (reported (example_adapter []) [example_job]) [example_queue] (repair.ob_Jobs observation).
Proof.
  pose proof example_observation_ok as H. destruct example_observation as [observation|] eqn:E; [|done].
  exists observation. split; [done|].
  destruct (lidarr_observation_complete (example_adapter []) (Ok []) [example_job] observation E)
    as (queue & Hq & _ & HF).
  by injection Hq as <-.
Defined.

(** ** A complete album *)

Definition complete_track : lidarr.Track := lidarr.mkTrack 12 5 7 3 2 "2" 1 "Second" 200000 true 91.
Definition complete_tracks : list lidarr.Track :=
  [lidarr.mkTrack 11 5 7 3 1 "1" 1 "First" 180000 true 90; complete_track].
Definition complete_entry : queuefinalize.Entry :=
  queuefinalize.mkEntry 42 "download-1" 5 "completed" "warning".

Lemma lidarr_candidates_complete_witness :
  complete_entry ∈ [complete_entry] <->
  exists record, record ∈ [example_queue] /\ complete_entry = finalization.FinalizationEntry record /\
    queuefinalize.Eligible complete_entry = true /\
    exists albumID artistID, q_AlbumID record = Some albumID /\ q_ArtistID record = Some artistID /\
      album_complete (fun _ => Ok example_catalog_album) (fun _ _ => Ok complete_tracks) albumID.
Proof.
  apply (lidarr_candidates_complete (Ok [example_queue]) (fun _ => Ok None)
    (fun _ => Ok example_catalog_album) (fun _ _ => Ok complete_tracks) [example_queue] [complete_entry]);
    vm_compute; reflexivity.
Defined.
