(* ===== verification/Scenarios.v ===== *)
(** * Concrete cases

    Small cases on which the definitions are run: a two-part join, the manual
    import of one file, a Blu-ray playlist and a DVD title, with a store that
    keeps its planned cases in memory. *)
From stdpp Require Import base strings list gmap.
From S2P Require Import Prelude GoStrings FileIdentity Probe Streams Media Radarr JoinFeasibility.
From S2P Require Import WorkerContracts CaseContracts Decisions ManualImportPolicy JoinPolicy DiscPolicy.
From S2P Require Import JoinVerification RemuxVerification ExecutionRecords ExecutionStore.
From S2P Require Import ManualExecution JoinExecution RemuxExecution.

(** ** Planned cases in memory *)

Fixpoint find_planned (plans : list PlannedCase) (caseID : string) : result PlannedCase :=
  match plans with
  | [] => Err "case is not stored"
  | planned :: rest =>
      if bool_decide (rc_CaseID (as_Request (pc_Assembly planned)) = caseID) then Ok planned
      else find_planned rest caseID
  end.

Lemma find_planned_case plans caseID planned :
  find_planned plans caseID = Ok planned -> rc_CaseID (as_Request (pc_Assembly planned)) = caseID.
Proof.
  induction plans as [|p plans IH]; simpl; [done|]. case_bool_decide; [by intros [= <-]|done].
Qed.

#[global] Instance memory_plans : PlanSource (list PlannedCase) :=
  {| GetPlannedCase := find_planned; GetExecutionPlan := find_planned;
     GetPlannedCase_case := find_planned_case; GetExecutionPlan_case := find_planned_case |}.

(** ** Media *)

Definition hour_ms : Z := 3600000.
Definition minute_ns : Z := 60 * 10 ^ 9.
(** Minutes after 2025-01-01, in UTC. *)
Definition clock (minutes : Z) : time := mkTime (739251 * day_ns + minutes * minute_ns) None.

Definition video_stream (index : Z) (codec : string) (durationMS : Z) : ProbeStream :=
  mkProbeStream index (Some ProbeStreamVideo) (Some codec) None (Some "High") None (Some 1920)
    (Some 1080) (Some "yuv420p") None None None None (Some (mkRational 24 1))
    (Some (mkRational 24 1)) (Some (mkRational 1 1000)) None None None (Some durationMS) None None
    None [].
Definition audio_stream (index : Z) (codec : string) (durationMS : Z) : ProbeStream :=
  mkProbeStream index (Some ProbeStreamAudio) (Some codec) None (Some "LC") None None None None
    (Some "fltp") (Some 48000) (Some 2) (Some "stereo") None None (Some (mkRational 1 1000)) None None
    None (Some durationMS) None None None [].

Definition movie_evidence (durationMS sizeBytes : Z) : ProbeEvidence :=
  mkProbeEvidence
    (mkProbeFormat ["matroska"; "webm"] None (Some 2) (Some 0) None (Some durationMS) (Some sizeBytes)
       None None [])
    [video_stream 0 "h264" durationMS; audio_stream 1 "aac" durationMS] [] [].

Definition fingerprint (inode sizeBytes : Z) : Snapshot := mkSnapshot 1 inode sizeBytes 1700000000.
Definition inventory_file (id name : string) (inode sizeBytes : Z) : InventoryFile :=
  mkInventoryFile id ["movie"; name] (fingerprint inode sizeBytes)
    (Some (mkDownloadFileReference inode true sizeBytes sizeBytes true)).
Definition probed (id : string) (evidence : ProbeEvidence) : FileProbe :=
  mkFileProbe id (mkMediaProbeOutcome MediaProbeSucceeded (Some evidence) "").

(** ** Radarr *)

Definition queue_record : RadarrQueueRecord :=
  mkQueueRecord 5 (Some 7) "Movie" (float_of_int 0) (float_of_int 0) "" None "completed" "warning"
    "importPending" [] "" "download-1" "torrent" "client" "indexer" "/downloads/movie" false.
Definition download : Download :=
  mkDownload "client" "torrent" "download-1" DownloadIDExact "Movie" true true "/downloads/movie" []
    None None None 3000 DownloadContentManifest [].
Definition correlation : DownloadCorrelation := mkCorrelation queue_record download "/downloads/movie" [].
Definition movie : RadarrMovie := mkMovie 7 77 false None "Movie" None [] 2020 (Some 120).
Definition quality : RadarrQualityModel := mkQualityModel (mkQuality 9 "Bluray-1080p" "bluray" 1080 "none")
  (Some (mkQualityRevision 1 0 false)).
Definition grabbed : RadarrHistoryEvent :=
  mkHistoryEvent 40 7 "download-1" "grabbed" (clock 0) "Movie" (Some quality) [mkLanguage 1 "English"].

Definition observation (inventory : FileInventory) (probes : list FileProbe)
    (playlists : list PlaylistCandidate) (titles : list TitleCandidate) : Observation :=
  mkObservation (clock 1) correlation (Some movie) [grabbed] [] inventory probes playlists titles.

(** A planner request about that observation, with the capabilities that matter. *)
Definition example_case (caseID : string) (capabilities : list Capability) : RepairCaseV3 :=
  mkRepairCase contracts.RadarrRepairV3 caseID (clock 1)
    (contracts.mkRadarr
       (contracts.mkFailure 5 "download:example" "Movie" "" "completed" "warning" "importPending" [] 0)
       (Some (contracts.mkMovieClass 7 77 None "Movie" None [] 2020 (Some 120))) [] [])
    (contracts.mkDownload "torrent" "client" "download:example" "Movie" "manifest" 3000 1 true None [])
    [] capabilities.

(** ** A two-part join *)

Definition join_case : string :=
  "sha256:1111111111111111111111111111111111111111111111111111111111111111".

Definition join_assembly : Assembly :=
  mkAssembly
    (example_case join_case
       [mkCapability "capability:join" CapabilityActionJoinParts None ["file:1"; "file:2"] None [] None []
          None None None None None None []]) ""
    (mkLocalSnapshot join_case
       (observation
          (mkFileInventory
             [inventory_file "file:1" "part1.mkv" 11 1000; inventory_file "file:2" "part2.mkv" 12 2000]
             [mkFilePathMapping "file:1" "/downloads/movie/part1.mkv";
              mkFilePathMapping "file:2" "/downloads/movie/part2.mkv"])
          [probed "file:1" (movie_evidence hour_ms 1000); probed "file:2" (movie_evidence hour_ms 2000)]
          [] []) ∅).

Definition join_decision : RepairDecisionV3 :=
  mkRepairDecision ActionJoinParts None
    (Some (mkJoinDecision "v3" join_case "capability:join" ActionJoinParts ["file:1"; "file:2"] [] ""))
    None None None.

(** The authorization the policy gives for the case. *)
Definition join_layout : StreamLayout :=
  match AssessStreamCompatibility [movie_evidence hour_ms 1000; movie_evidence hour_ms 2000] with
  | Some a => match sa_Layout a with Some l => l | None => mkStreamLayout [] end
  | None => mkStreamLayout []
  end.
Definition join_authorized : AuthorizedJoin :=
  mkAuthorizedJoin join_case "capability:join"
    [mkAuthorizedPart "file:1" (fingerprint 11 1000); mkAuthorizedPart "file:2" (fingerprint 12 2000)]
    3000 (2 * hour_ms) 1000 OutputContainerMKV join_layout.

Example join_is_authorized :
  (v ← ValidateJoin join_assembly join_decision; jv_Authorized v) = Some join_authorized.
Proof. vm_compute. reflexivity. Qed.

Definition join_request : StageJoinRequestV1 :=
  mkStageJoinRequest RadarrRepairWorkerV1 StageJoinV1 "request:1" (JoinExecutionID join_authorized)
    join_case "capability:join" "root:1"
    [mkStageJoinPart "file:1" ["movie"; "part1.mkv"] (StrictFingerprint (fingerprint 11 1000));
     mkStageJoinPart "file:2" ["movie"; "part2.mkv"] (StrictFingerprint (fingerprint 12 2000))]
    "mkv" 3000 (2 * hour_ms) 1000 2.
Definition artifact_fingerprint : string :=
  "sha256:2222222222222222222222222222222222222222222222222222222222222222".
Definition join_success : StageSuccessV1 :=
  mkStageSuccess RadarrRepairWorkerV1 StageJoinV1 "request:1" status_ok "artifact:1"
    artifact_fingerprint 3100 (movie_evidence (2 * hour_ms) 3100).
Definition join_response : StageJoinResponseV1 :=
  mkResponse ProbeResponseSucceeded (Some join_success) None.

Example join_is_verified :
  staged_Accepted (ValidateStagedJoin join_authorized join_request join_response) = true.
Proof. vm_compute. reflexivity. Qed.

(** ** The manual import of one file *)

Definition manual_case : string :=
  "sha256:3333333333333333333333333333333333333333333333333333333333333333".

Definition manual_file : RadarrManualImportCommandFile :=
  mkCommandFile "/downloads/movie/movie.mkv" "movie" quality [mkLanguage 1 "English"] "" 0 "download-1" 7.
Definition manual_binding : RadarrManualImportBinding :=
  mkBinding "file:1" (fingerprint 11 1000) RadarrImportModeCopy manual_file.

Definition manual_assembly : Assembly :=
  mkAssembly
    (example_case manual_case
       [mkCapability "capability:manual" CapabilityActionManualImportFile (Some "file:1") [] None [] None
          [] None None None None None None []]) ""
    (mkLocalSnapshot manual_case
       (observation
          (mkFileInventory [inventory_file "file:1" "movie.mkv" 11 1000]
             [mkFilePathMapping "file:1" "/downloads/movie/movie.mkv"])
          [probed "file:1" (movie_evidence (2 * hour_ms) 1000)] [] [])
       {[ "capability:manual" := manual_binding ]}).

Definition manual_decision : RepairDecisionV3 :=
  mkRepairDecision ActionManualImportFile None None
    (Some (mkManualDecision "v3" manual_case "capability:manual" ActionManualImportFile "file:1" [] ""))
    None None.

Definition manual_authorized : AuthorizedManualImport :=
  mkAuthorizedManualImport manual_case "capability:manual" "file:1" (fingerprint 11 1000)
    RadarrImportModeCopy manual_file (2 * hour_ms) 720000.

Example manual_is_authorized :
  miv_Authorized (ValidateManualImportWithPolicy manual_assembly manual_decision (mkRuntimePolicy 0)) =
  Some manual_authorized.
Proof. vm_compute. reflexivity. Qed.

(** ** A Blu-ray playlist *)

Definition bluray_case : string :=
  "sha256:4444444444444444444444444444444444444444444444444444444444444444".

Definition disc_file (id : string) (path : list string) (inode sizeBytes : Z) : InventoryFile :=
  mkInventoryFile id path (fingerprint inode sizeBytes)
    (Some (mkDownloadFileReference inode true sizeBytes sizeBytes true)).
Definition bluray_tracks : list RemuxTrack := [mkRemuxTrack "video" "h264" ""; mkRemuxTrack "audio" "aac" "eng"].
Definition offered_tracks : list TrackElement :=
  [mkTrackElement "video" "h264" None; mkTrackElement "audio" "aac" (Some "eng")].

Definition bluray_assembly : Assembly :=
  mkAssembly
    (example_case bluray_case
       [mkCapability "capability:bluray" CapabilityActionRemuxBluray None [] (Some "file:1") ["file:2"] None
          [] None None None None (Some (2 * hour_ms)) (Some 0) offered_tracks]) ""
    (mkLocalSnapshot bluray_case
       (observation
          (mkFileInventory
             [disc_file "file:1" ["BDMV"; "PLAYLIST"; "00001.mpls"] 11 100;
              disc_file "file:2" ["BDMV"; "STREAM"; "00001.m2ts"] 12 5000]
             [mkFilePathMapping "file:1" "/downloads/movie/BDMV/PLAYLIST/00001.mpls";
              mkFilePathMapping "file:2" "/downloads/movie/BDMV/STREAM/00001.m2ts"]) []
          [mkPlaylistCandidate "file:1" ["file:2"]
             (mkPlaylist (2 * hour_ms) 0 ["/downloads/movie/BDMV/STREAM/00001.m2ts"] bluray_tracks)] [])
       ∅).

Definition bluray_decision : RepairDecisionV3 :=
  mkRepairDecision ActionRemuxBluray None None None
    (Some (mkRemuxDecision "v3" bluray_case "capability:bluray" ActionRemuxBluray [] "")) None.

Definition bluray_authorized : AuthorizedRemux :=
  mkAuthorizedRemux bluray_case "capability:bluray" (mkRemuxFile "file:1" (fingerprint 11 100))
    [mkRemuxFile "file:2" (fingerprint 12 5000)] 5000 (2 * hour_ms) 0 bluray_tracks 720000.

Definition bluray_validation : DiscValidation AuthorizedRemux :=
  match ValidateRemuxWithPolicy bluray_assembly bluray_decision (mkRuntimePolicy 0) with
  | Some v => v | None => rejectDisc RemuxWrongDecision
  end.

Example bluray_is_authorized : dv_Authorized bluray_validation = Some bluray_authorized.
Proof. vm_compute. reflexivity. Qed.

(** ** A DVD title *)

Definition dvd_case : string :=
  "sha256:5555555555555555555555555555555555555555555555555555555555555555".

Definition dvd_tracks : list RemuxTrack :=
  [mkRemuxTrack "video" "mpeg2video" ""; mkRemuxTrack "audio" "ac3" "eng"].
Definition dvd_assembly : Assembly :=
  mkAssembly
    (example_case dvd_case
       [mkCapability "capability:dvd" CapabilityActionRemuxDVD None [] None [] (Some "file:1")
          ["file:1"; "file:2"; "file:3"] (Some 1) (Some 1) (Some 1) (Some 1) (Some (2 * hour_ms)) (Some 1)
          [mkTrackElement "video" "mpeg2video" None; mkTrackElement "audio" "ac3" (Some "eng")]]) ""
    (mkLocalSnapshot dvd_case
       (observation
          (mkFileInventory
             [disc_file "file:1" ["VIDEO_TS"; "VIDEO_TS.IFO"] 11 100;
              disc_file "file:2" ["VIDEO_TS"; "VTS_01_0.IFO"] 12 200;
              disc_file "file:3" ["VIDEO_TS"; "VTS_01_1.VOB"] 13 5000]
             [mkFilePathMapping "file:1" "/downloads/movie/VIDEO_TS/VIDEO_TS.IFO";
              mkFilePathMapping "file:2" "/downloads/movie/VIDEO_TS/VTS_01_0.IFO";
              mkFilePathMapping "file:3" "/downloads/movie/VIDEO_TS/VTS_01_1.VOB"]) [] []
          [mkTitleCandidate "file:1" ["file:1"; "file:2"; "file:3"]
             (mkTitle 1 (2 * hour_ms) 1 1 1 1 dvd_tracks)]) ∅).

Definition dvd_decision : RepairDecisionV3 :=
  mkRepairDecision ActionRemuxDVD None None None None
    (Some (mkRemuxDecision "v3" dvd_case "capability:dvd" ActionRemuxDVD [] "")).

Definition dvd_authorized : AuthorizedDVD :=
  mkAuthorizedDVD dvd_case "capability:dvd" (mkRemuxFile "file:1" (fingerprint 11 100))
    [mkRemuxFile "file:1" (fingerprint 11 100); mkRemuxFile "file:2" (fingerprint 12 200);
     mkRemuxFile "file:3" (fingerprint 13 5000)] 1 (2 * hour_ms) 1 dvd_tracks 5300 720000.

Example dvd_is_authorized :
  dv_Authorized (ValidateDVDWithPolicy dvd_assembly dvd_decision (mkRuntimePolicy 0)) =
  Some dvd_authorized.
Proof. vm_compute. reflexivity. Qed.

(** ** A store and its history *)

Definition plans : list PlannedCase :=
  [mkPlannedCase join_assembly join_decision "" None; mkPlannedCase manual_assembly manual_decision "" None;
   mkPlannedCase bluray_assembly bluray_decision "" None; mkPlannedCase dvd_assembly dvd_decision "" None].

Definition new_store : Store (list PlannedCase) := mkStore plans ∅.

Definition prepared_join : JoinExecution :=
  mkJoinExecution JoinExecutionVersionV2 (JoinExecutionID join_authorized) join_authorized JoinPrepared
    (clock 2) (clock 2) None None None None None None.
Definition ready_join : JoinExecution :=
  mkJoinExecution JoinExecutionVersionV2 (JoinExecutionID join_authorized) join_authorized
    JoinArtifactReady (clock 2) (clock 3) (Some (mkJoinStage [])) (Some (staged_artifact join_success))
    None None None None.
Definition prepared_manual : ManualImportExecution :=
  mkManualImportExecution ManualImportExecutionVersionV1 manual_case "capability:manual" "file:1"
    (fingerprint 11 1000) ManualImportPrepared 40 (clock 2) (clock 2) None None.

Definition joining_store : Store (list PlannedCase) :=
  mkStore plans {[ "1111111111111111111111111111111111111111111111111111111111111111" :=
                   JoinFile prepared_join ]}.
Definition joined_store : Store (list PlannedCase) :=
  mkStore plans {[ "1111111111111111111111111111111111111111111111111111111111111111" :=
                   JoinFile ready_join ]}.
Definition importing_store : Store (list PlannedCase) :=
  mkStore plans {[ "3333333333333333333333333333333333333333333333333333333333333333" :=
                   ManualFile prepared_manual ]}.

Example join_prepares :
  run_join new_store (OpPrepareJoin join_authorized (clock 2)) =
  Ok (prepared_join, true, joining_store).
Proof. vm_compute. reflexivity. Qed.

Example join_stages :
  run_join joining_store (OpJoinStage join_authorized join_request join_response (clock 3)) =
  Ok (ready_join, true, joined_store).
Proof. vm_compute. reflexivity. Qed.

Example manual_prepares :
  run_manual new_store (OpPrepareManual manual_authorized 40 (clock 2)) =
  Ok (prepared_manual, true, importing_store).
Proof. vm_compute. reflexivity. Qed.

(** The imported file, and the end of the manual import. *)
Definition imported_file : RadarrImportedFile :=
  mkImportedFile 41 3 7 "download-1" (clock 4) "/downloads/movie/movie.mkv" "/movies/Movie/movie.mkv".
Definition imported_manual : ManualImportExecution :=
  mkManualImportExecution ManualImportExecutionVersionV1 manual_case "capability:manual" "file:1"
    (fingerprint 11 1000) ManualImportImported 40 (clock 2) (clock 5) None
    (Some (radarrImportConfirmation imported_file)).
Definition imported_store : Store (list PlannedCase) :=
  mkStore plans {[ "3333333333333333333333333333333333333333333333333333333333333333" :=
                   ManualFile imported_manual ]}.

Example manual_imports :
  run_manual importing_store (OpManualImported manual_authorized imported_file (clock 5)) =
  Ok (imported_manual, true, imported_store).
Proof. vm_compute. reflexivity. Qed.

(** The DVD title, prepared. *)
Definition prepared_dvd : RemuxExecution :=
  mkRemuxExecution DVDExecutionVersionV1
    (match DVDExecutionID dvd_authorized with Ok id => id | Err e => e end) zero_AuthorizedRemux
    (Some dvd_authorized) RemuxPrepared (clock 2) (clock 2) None None None None None None None.
Definition disc_store : Store (list PlannedCase) :=
  mkStore plans {[ "5555555555555555555555555555555555555555555555555555555555555555" :=
                   RemuxFile prepared_dvd ]}.

Example dvd_prepares :
  run_remux new_store (OpPrepareDVD dvd_authorized (clock 2)) = Ok (prepared_dvd, true, disc_store).
Proof. vm_compute. reflexivity. Qed.

(** ** Download identifiers *)

(** An identifier that is said to be compared without regard to ASCII case
    also matches one spelled with the Kelvin sign. *)
Example MatchesID_folds_kelvin_sign :
  MatchesID (mkDownload "client" "torrent" "k1" DownloadIDASCIIInsensitive "Movie" true true
    "/downloads/movie" [] None None None 0 DownloadContentManifest [])
    (bytes [226; 132; 170]%nat +:+ "1") = true.
Proof. vm_compute. reflexivity. Qed.
