(* ===== verification/Witnesses.v ===== *)
(** * The theorems at concrete inputs

    Each hypothesis of a theorem is met by one of the scenarios, so that none
    of the theorems holds for want of a case. *)
From stdpp Require Import base strings list gmap.
From Stdlib Require Import Permutation.
From S2P Require Import Prelude GoStrings FileIdentity Probe Streams Media Radarr JoinFeasibility.
From S2P Require Import WorkerContracts Decisions ManualImportPolicy JoinPolicy DiscPolicy.
From S2P Require Import JoinVerification RemuxVerification ExecutionRecords ExecutionStore.
From S2P Require Import ManualExecution JoinExecution RemuxExecution ExecutionProtocol.
From S2P Require Import ExecutionProgress Scenarios.

(** ** File identity, media and Radarr *)

Lemma strict_payload_injective_witness :
  fingerprint 11 1000 = mkSnapshot 1 11 1000 1700000000.
Proof.
  apply (strict_payload_injective (fingerprint 11 1000) (mkSnapshot 1 11 1000 1700000000));
    [vm_compute; split_and!; discriminate || done..|reflexivity].
Defined.

Lemma PublishedName_recognised_witness : IsPublishedName (PublishedName "artifact:1" ".mkv") = true.
Proof. apply (PublishedName_recognised "artifact:1" ".mkv"). right. left. Defined.

Lemma movie_evidence_range durationMS sizeBytes :
  int64_range durationMS -> evidence_range (movie_evidence durationMS sizeBytes).
Proof.
  intros Hd. split; simpl; [by intros d [= <-]|].
  by repeat (apply Forall_cons; split; [by intros d [= <-]|]).
Qed.

Lemma hours_range hours : 0 <= hours <= 100 -> int64_range (hours * hour_ms).
Proof. unfold int64_range, hour_ms. lia. Qed.

Definition two_parts : list ProbeEvidence :=
  [movie_evidence (1 * hour_ms) 1000; movie_evidence (1 * hour_ms) 2000].

Lemma AssessJoinDuration_tolerance_witness :
  jd_ToleranceMS (AssessJoinDuration two_parts) = Some 1000 /\ 1000 <= 1000 <= 1000 * (1 + 2).
Proof.
  split; [reflexivity|]. apply (AssessJoinDuration_tolerance two_parts 1000); [|reflexivity].
  repeat (apply Forall_cons; split; [apply movie_evidence_range, hours_range; lia|]). apply Forall_nil. exact I.
Defined.

Lemma MatchesMuxedOutput_permutation_witness :
  MatchesMuxedOutput join_layout [video_stream 0 "h264" 10; audio_stream 1 "aac" 10] =
  MatchesMuxedOutput join_layout [audio_stream 1 "aac" 10; video_stream 0 "h264" 10].
Proof.
  apply (MatchesMuxedOutput_permutation join_layout
    [video_stream 0 "h264" 10; audio_stream 1 "aac" 10]
    [audio_stream 1 "aac" 10; video_stream 0 "h264" 10]).
  - apply perm_swap.
  - apply (bool_decide_unpack _). vm_compute. exact I.
Defined.

Definition two_parts_assessment : StreamCompatibilityAssessment :=
  match AssessStreamCompatibility two_parts with
  | Some a => a | None => mkStreamAssessment StreamsUnknown None None
  end.

Lemma layout_matches_parts_witness :
  MatchesMuxedOutput join_layout (pe_Streams (movie_evidence (1 * hour_ms) 2000)) = true.
Proof.
  apply (layout_matches_parts two_parts two_parts_assessment join_layout
    (movie_evidence (1 * hour_ms) 2000)).
  - vm_compute. reflexivity.
  - vm_compute. reflexivity.
  - vm_compute. reflexivity.
  - right. left.
  - apply (bool_decide_unpack _). vm_compute. exact I.
Defined.

Definition listed_import : RadarrManualImport :=
  mkManualImport "/downloads/movie/movie.mkv" "movie.mkv" "movie" 1000 7 "download-1" (Some quality)
    [mkLanguage 1 "English"] "" 0 [].

Lemma BindRadarrManualImportFile_sound_witness :
  exists binding, Some manual_binding = Some binding /\
    bd_FileID binding = "file:1" /\ bd_ImportMode binding = RadarrImportModeCopy.
Proof.
  destruct (BindRadarrManualImportFile_sound (inventory_file "file:1" "movie.mkv" 11 1000)
    "/downloads/movie/movie.mkv" listed_import [grabbed] (Some manual_binding))
    as (binding & H & _ & _ & _ & Hid & _ & Hmode & _); [vm_compute; reflexivity|].
  exists binding. split; [exact H|]. split; [exact Hid|exact Hmode].
Defined.

(** ** Policies and verification *)

Lemma ValidateManualImportWithPolicy_sound_witness :
  manual_import_supported manual_assembly (mkRuntimePolicy 0) manual_authorized /\
  decision_CaseID manual_decision = manual_case.
Proof.
  destruct (ValidateManualImportWithPolicy_sound manual_assembly manual_decision (mkRuntimePolicy 0)
    manual_authorized) as (H & _ & Hc); [vm_compute; reflexivity|]. split; [exact H|exact Hc].
Defined.

Lemma ValidateJoin_correct_witness :
  exists v, ValidateJoin join_assembly join_decision = Some v /\
    join_outcome join_assembly join_decision v.
Proof.
  apply (ValidateJoin_correct join_assembly join_decision).
  repeat (apply Forall_cons; split; [apply movie_evidence_range, (hours_range 1); lia|]).
  apply Forall_nil. exact I.
Defined.

Lemma ValidateStagedJoin_correct_witness :
  output_authorized join_authorized (ss_Evidence join_success) 3100 /\
  request_authorized join_request join_authorized.
Proof.
  destruct (proj1 (ValidateStagedJoin_correct join_authorized join_request join_response
    ltac:(split; discriminate)
    ltac:(intros success [= <-]; apply movie_evidence_range, (hours_range 2); lia)))
    as (_ & _ & Hq & _ & success & Hs & Ho); [vm_compute; reflexivity|].
  injection Hs as <-. split; [exact Ho|exact Hq].
Defined.

Lemma ValidateRemuxWithPolicy_sound_witness :
  disc_Accepted bluray_validation = true /\ decision_CaseID bluray_decision = bluray_case.
Proof.
  destruct (ValidateRemuxWithPolicy_sound bluray_assembly bluray_decision (mkRuntimePolicy 0)
    bluray_validation bluray_authorized) as (Ha & Hc & _); [vm_compute; reflexivity..|].
  split; [exact Ha|exact Hc].
Defined.

Lemma ValidateDVDWithPolicy_sound_witness :
  decision_CaseID dvd_decision = dvd_case /\
  exists title : TitleCandidate, tt_Angles (tc_Details title) = 1.
Proof.
  destruct (ValidateDVDWithPolicy_sound dvd_assembly dvd_decision (mkRuntimePolicy 0) dvd_authorized)
    as (_ & Hc & _ & _ & _ & title & _ & _ & _ & Ht & _); [vm_compute; reflexivity|].
  split; [exact Hc|]. exists title. exact Ht.
Defined.

Lemma movie_evidence_durations durationMS expected sizeBytes :
  duration_range durationMS -> duration_range expected ->
  evidence_durations (movie_evidence durationMS sizeBytes) expected.
Proof. intros Hd He. split; [exact He|]. by intros d [= <-]. Qed.

Lemma ValidateRemuxOutput_correct_witness :
  ValidateRemuxOutput (2 * hour_ms) 0 bluray_tracks (movie_evidence (2 * hour_ms) 5000) = Ok tt /\
  remux_format (movie_evidence (2 * hour_ms) 5000) (2 * hour_ms) 0 5000.
Proof.
  destruct (ValidateRemuxOutput_correct (2 * hour_ms) 0 bluray_tracks
    (movie_evidence (2 * hour_ms) 5000)) as [H _].
  - apply movie_evidence_durations; unfold duration_range; vm_compute; split; discriminate.
  - vm_compute. discriminate.
  - vm_compute. discriminate.
  - split; [vm_compute; reflexivity|]. apply H. vm_compute. reflexivity.
Defined.

Definition dvd_evidence : ProbeEvidence :=
  mkProbeEvidence
    (mkProbeFormat ["matroska"; "webm"] None (Some 2) (Some 0) None (Some (2 * hour_ms)) (Some 5000)
       None None [])
    [video_stream 0 "mpeg2video" 10; audio_stream 1 "ac3" 10] []
    [mkProbeChapter 1 None None (Some 0) None (Some (2 * hour_ms)) []].

Lemma ValidateDVDOutput_correct_witness :
  ValidateDVDOutput (2 * hour_ms) 1 dvd_tracks dvd_evidence = Ok tt /\
  remux_format dvd_evidence (2 * hour_ms) 1 15000.
Proof.
  destruct (ValidateDVDOutput_correct (2 * hour_ms) 1 dvd_tracks dvd_evidence) as [H _].
  - split; [vm_compute; split; discriminate|]. intros d [= <-]. vm_compute. split; discriminate.
  - vm_compute. discriminate.
  - vm_compute. discriminate.
  - split; [vm_compute; reflexivity|]. apply H. vm_compute. reflexivity.
Defined.

(** ** Executions *)

Lemma run_manual_refines_witness :
  execution_effect manual_creates manual_moves importing_store imported_manual true imported_store.
Proof.
  apply (run_manual_refines importing_store
    (OpManualImported manual_authorized imported_file (clock 5)) imported_manual true imported_store).
  exact manual_imports.
Defined.

Lemma run_join_refines_witness :
  execution_effect join_creates join_moves joining_store ready_join true joined_store.
Proof.
  apply (run_join_refines joining_store
    (OpJoinStage join_authorized join_request join_response (clock 3)) ready_join true joined_store).
  exact join_stages.
Defined.

Lemma run_remux_refines_witness :
  execution_effect remux_creates remux_moves new_store prepared_dvd true disc_store.
Proof.
  apply (run_remux_refines new_store (OpPrepareDVD dvd_authorized (clock 2)) prepared_dvd true
    disc_store).
  exact dvd_prepares.
Defined.

Lemma joining_reachable : reachable [plans; plans] joining_store.
Proof.
  apply (reachable_step [plans] new_store joining_store); [apply reachable_new|].
  eapply step_join. exact join_prepares.
Qed.

Lemma joined_reachable : reachable [plans; plans; plans] joined_store.
Proof.
  apply (reachable_step [plans; plans] joining_store joined_store); [apply joining_reachable|].
  eapply step_join. exact join_stages.
Qed.

Definition join_digest : string := "1111111111111111111111111111111111111111111111111111111111111111".
Definition manual_digest : string := "3333333333333333333333333333333333333333333333333333333333333333".

Lemma reachable_valid_witness : store_valid joined_store.
Proof. apply (reachable_valid [plans; plans; plans] joined_store). exact joined_reachable. Defined.

Lemma reachable_authorized_witness : was_authorized [plans; plans; plans] (JoinFile ready_join).
Proof.
  apply (reachable_authorized [plans; plans; plans] joined_store join_digest (JoinFile ready_join)).
  - exact joined_reachable.
  - vm_compute. reflexivity.
Defined.

Lemma reachable_evidence_witness : join_verified ready_join.
Proof.
  apply (reachable_evidence [plans; plans; plans] joined_store join_digest (JoinFile ready_join)).
  - exact joined_reachable.
  - vm_compute. reflexivity.
  - reflexivity.
Defined.

Lemma step_keeps_repair_witness :
  exists file', st_executions joined_store !! join_digest = Some file' /\
    same_repair (JoinFile prepared_join) file'.
Proof.
  apply (step_keeps_repair joining_store joined_store join_digest (JoinFile prepared_join)).
  - eapply step_join. exact join_stages.
  - vm_compute. reflexivity.
Defined.

Lemma ended_final_witness :
  st_executions (mkStore ([] : list PlannedCase) (st_executions imported_store)) !! manual_digest =
  Some (ManualFile imported_manual).
Proof.
  apply (ended_final imported_store (mkStore ([] : list PlannedCase) (st_executions imported_store)) manual_digest
    (ManualFile imported_manual)).
  - eapply rtc_l; [apply step_plans|apply rtc_refl].
  - vm_compute. reflexivity.
  - reflexivity.
Defined.

Lemma importing_valid : store_valid importing_store.
Proof.
  intros digest file H. unfold importing_store, joining_store in H. cbn [st_executions] in H. apply lookup_singleton_Some in H as [<- <-].
  split; vm_compute; reflexivity.
Qed.

Lemma joining_valid : store_valid joining_store.
Proof.
  intros digest file H. unfold importing_store, joining_store in H. cbn [st_executions] in H. apply lookup_singleton_Some in H as [<- <-].
  split; vm_compute; reflexivity.
Qed.

Lemma manual_import_progress_witness :
  exists store', MarkManualImportRequested importing_store manual_case 12 (clock 3) =
    Ok (set_UpdatedAt (UTC (clock 3))
          (manual_with prepared_manual ManualImportRequested (Some 12) None), true, store').
Proof.
  apply (manual_import_progress importing_store prepared_manual (clock 3)).
  - exact importing_valid.
  - vm_compute. reflexivity.
  - split; [reflexivity|]. split; [vm_compute; discriminate|vm_compute; reflexivity].
  - reflexivity.
  - reflexivity.
Defined.

Lemma RecordJoinStage_progress_witness :
  exists r' store', RecordJoinStage joining_store join_authorized join_request join_response (clock 3) =
    Ok (r', true, store') /\ jx_State r' = JoinArtifactReady.
Proof.
  destruct (RecordJoinStage_progress joining_store prepared_join join_request join_response join_success
    (clock 3)) as (r' & store' & H & Hs & _).
  - exact joining_valid.
  - vm_compute. reflexivity.
  - reflexivity.
  - split; [reflexivity|]. split; [vm_compute; discriminate|vm_compute; reflexivity].
  - split; [|split; [|split; [|split]]]; vm_compute; reflexivity.
  - reflexivity.
  - exists r', store'. split; [exact H|]. rewrite Hs. vm_compute. reflexivity.
Defined.

Lemma run_join_replay_witness :
  run_join joined_store (OpJoinStage join_authorized join_request join_response (clock 9)) =
  Ok (ready_join, false, joined_store).
Proof.
  apply (run_join_replay joining_store (OpJoinStage join_authorized join_request join_response (clock 3))
    ready_join joined_store (clock 9)).
  - exact join_stages.
  - reflexivity.
  - vm_compute. discriminate.
Defined.
