(* ===== verification/RadarrWitnesses.v ===== *)
(** * A Radarr download, from its observation to its import

    Inputs at which the theorems on case assembly, disc listings, the execution
    check, the Radarr adapter and the case store apply, with codecs that write
    every text of a message and read back the one message of the example. *)
From stdpp Require Import base strings list gmap.
From S2P Require Import Prelude GoStrings GoCrypto FileIdentity Probe Streams Media Radarr JoinFeasibility.
From S2P Require Import WorkerContracts CaseContracts Decisions ManualImportPolicy JoinPolicy DiscPolicy.
From S2P Require Import ExecutionRecords ExecutionStore ManualExecution JoinExecution RemuxExecution.
From S2P Require Import PlanningRunner DiscCandidates CaseCodec CaseEvidence CaseAssembly.
From S2P Require Import CaseIdentity CaseSafety Inspection ExecutionCheck.
From S2P Require Import Jobs RepairEngine LidarrRepair QueueFinalize RadarrAdapter RadarrSafety Scenarios.
From S2P Require Import PlanningState CaseStorage CaseStorageSafety.
Import casebuilder assemble.

(** ** A codec *)

Definition written (texts : list string) : result string :=
  Ok (json.text (json.Arr (map json.Str texts))).

Definition identity_request (i : caseIdentity) : RepairCaseV3 :=
  mkRepairCase (ci_SchemaVersion i) "" (clock 0) (ci_Radarr i) (ci_Download i) (ci_Files i)
    (ci_Capabilities i).

(** Decisions are to import the file of the capability that the text names. *)
Definition example_codec (caseID : string) : RepairCodec :=
  {| MarshalCase request := written (request_strings request);
     MarshalIdentity i := written (request_strings (identity_request i));
     MarshalDecision _ := Ok "";
     ValidCase _ := Ok tt;
     ValidDecision _ := Ok tt;
     UnmarshalCase _ := Err "not read";
     UnmarshalAction _ := Ok ActionManualImportFile;
     UnmarshalNoRepair _ := Err "not read";
     UnmarshalJoinParts _ := Err "not read";
     UnmarshalManualImportFile capabilityID :=
       Ok (mkManualDecision "v3" caseID capabilityID ActionManualImportFile "file:1" [] "");
     UnmarshalRemux _ := Err "not read";
     Canonicalize text := Ok text |}.

Lemma concat_contains s v l : v ∈ l -> Contains (String.concat s l) v = true.
Proof.
  induction l as [|x l IH]; [by intros ?%not_elem_of_nil|]. intros [->|Hin]%elem_of_cons.
  - destruct l as [|y l]; apply Contains_spec.
    + exists "", "". by rewrite string_app_nil_r.
    + exists "". by eexists.
  - destruct l as [|y l]; [by apply not_elem_of_nil in Hin|].
    specialize (IH Hin). apply Contains_spec in IH as (a & b & Heq). apply Contains_spec.
    change (String.concat s (x :: y :: l)) with (x +:+ s +:+ String.concat s (y :: l)).
    rewrite Heq. exists (x +:+ s +:+ a), b. by rewrite !string_app_assoc.
Qed.

#[global] Instance example_codec_strings caseID : @StringMarshaler (example_codec caseID).
Proof.
  intros request data v [= <-] Hv _. unfold json.text. cbn [json.text].
  eapply Contains_trans with (p := String.concat "," (map json.text (map json.Str (request_strings request)))).
  - apply Contains_spec. exists "[", "]". done.
  - apply concat_contains. rewrite map_map. by apply (list_elem_of_fmap_2 json.string_text).
Qed.

(** ** An observed download with one importable file *)

Definition listed_import : RadarrManualImport :=
  mkManualImport "/downloads/movie/movie.mkv" "movie.mkv" "movie" 1000 7 "download-1" (Some quality)
    [mkLanguage 1 "English"] "group" 0 [mkManualImportRejection "sample" "permanent" "Sample"].

Definition observed_download : Observation :=
  mkObservation (clock 1) correlation (Some movie) [grabbed] [listed_import]
    (mkFileInventory [inventory_file "file:1" "movie.mkv" 11 1000]
       [mkFilePathMapping "file:1" "/downloads/movie/movie.mkv"])
    [probed "file:1" (movie_evidence (2 * hour_ms) 1000)] [] [].

Definition assembled_or (r : result Assembly) : Assembly :=
  match r with Ok assembly => assembly | Err _ => manual_assembly end.

(** The identity of the case does not depend on the decisions of the codec. *)
Definition example_assembly : Assembly := assembled_or (@Assemble (example_codec "") observed_download).
Definition example_case_id : string := rc_CaseID (as_Request example_assembly).

Lemma assembled_or_Ok (r : result Assembly) : is_ok r = true -> r = Ok (assembled_or r).
Proof. by destruct r. Qed.

Lemma example_assembled : @Assemble (example_codec "") observed_download = Ok example_assembly.
Proof. apply assembled_or_Ok. vm_compute. reflexivity. Qed.

Lemma assembled_capabilities_backed_witness :
  exists assembly, @Assemble (example_codec "") observed_download = Ok assembly /\
    Forall (backed observed_download (ls_ManualImportBindings (as_LocalSnapshot assembly)))
      (rc_Capabilities (as_Request assembly)).
Proof.
  exists example_assembly. split; [exact example_assembled|].
  destruct (@assembled_capabilities_backed (example_codec "") _ _ example_assembled)
    as (_ & Hbacked & _).
  exact Hbacked.
Defined.

Lemma request_hides_paths_witness :
  exists assembly, @Assemble (example_codec "") observed_download = Ok assembly /\
    Forall (fun v => Contains v "/downloads/movie/movie.mkv" = false)
      (request_strings (as_Request assembly)).
Proof.
  exists example_assembly. split; [exact example_assembled|]. apply Forall_forall. intros v Hv.
  apply (@request_hides_paths (example_codec "") (example_codec_strings "") _ _ _ _ example_assembled);
    [|discriminate|reflexivity|exact Hv].
  apply (bool_decide_unpack _). vm_compute. reflexivity.
Defined.

(** The same file seen on another device. *)
Definition moved_binding : RadarrManualImportBinding :=
  mkBinding "file:1" (mkSnapshot 2 11 1000 1700000000) RadarrImportModeCopy manual_file.

Lemma capability_identifies_import_witness :
  same_import manual_binding moved_binding \/
  sha256_collision (opaque_payload "capability" (manual_import_identity manual_binding))
    (opaque_payload "capability" (manual_import_identity moved_binding)).
Proof. apply capability_identifies_import. vm_compute. reflexivity. Defined.

(** ** A path that escapes the check

    The download lies under a directory whose name holds an ampersand, and
    Radarr quotes its path in the error message. *)
Definition escaped_root : string := "/downloads/Tom & Jerry".
Definition escaped_record : RadarrQueueRecord :=
  mkQueueRecord 5 (Some 7) "Movie" (float_of_int 0) (float_of_int 0) "" None "completed" "warning"
    "importPending" [] ("No files found in " +:+ escaped_root) "download-1" "torrent" "client" "indexer"
    escaped_root false.
Definition escaped_download : Download :=
  mkDownload "client" "torrent" "download-1" DownloadIDExact "Movie" true true escaped_root []
    None None None 3000 DownloadContentManifest [].
Definition escaped_observation : Observation :=
  mkObservation (clock 1) (mkCorrelation escaped_record escaped_download escaped_root []) (Some movie)
    [grabbed] []
    (mkFileInventory [inventory_file "file:1" "movie.mkv" 11 1000]
       [mkFilePathMapping "file:1" (escaped_root +:+ "/movie.mkv")])
    [probed "file:1" (movie_evidence (2 * hour_ms) 1000)] [] [].

(** The case is assembled although a text of its request holds a local path. *)
Lemma escaped_path_disclosed :
  exists assembly, @Assemble (example_codec "") escaped_observation = Ok assembly /\
    escaped_root ∈ localPaths escaped_observation /\
    existsb (fun v => Contains v escaped_root) (request_strings (as_Request assembly)) = true.
Proof.
  exists (assembled_or (@Assemble (example_codec "") escaped_observation)). split.
  - apply assembled_or_Ok. vm_compute. reflexivity.
  - split; [by left|]. vm_compute. reflexivity.
Qed.

(** ** The import of the observed download *)

Section adapter.
Import executioncheck repairradarr.

Definition example_binding_id : string :=
  manualImportCapabilityID
    (mkBinding "file:1" (fingerprint 11 1000) RadarrImportModeCopy
       (mkCommandFile "/downloads/movie/movie.mkv" "movie" quality [mkLanguage 1 "English"] "group" 0
          "download-1" 7)).

Definition example_command : RadarrManualImportCommand :=
  mkImportCommand RadarrImportModeCopy
    (mkCommandFile "/downloads/movie/movie.mkv" "movie" quality [mkLanguage 1 "English"] "group" 0
       "download-1" 7).

Definition example_json : AdapterCodec :=
  {| MarshalEvidence _ := Ok "evidence";
     UnmarshalEvidence _ :=
       Ok (mkEvidence (as_Request example_assembly) (as_LocalSnapshot example_assembly));
     MarshalCommand command :=
       if bool_decide (command = example_command) then Ok "command" else Err "another command";
     UnmarshalCommand _ := Ok example_command;
     MarshalImported _ := Ok "imported" |}.

Definition imported_file (historyID : Z) : RadarrImportedFile :=
  mkImportedFile historyID 9 7 "download-1" (clock historyID) "/downloads/movie/movie.mkv"
    "/movies/Movie/movie.mkv".

Definition example_adapter (history : list RadarrImportedFile) : Adapter :=
  mkAdapter (fun _ => inl example_assembly) (Ok [queue_record]) (fun _ => Ok movie)
    (fun _ => Ok None) (fun _ => Ok (servarr.mkCommand 3 "" "queued" ""))
    (fun _ => Ok (servarr.mkCommand 3 "" "completed" "successful")) (fun _ _ => Ok history)
    (fun _ => Err "no transformation") (fun _ _ => Err "no planner") (600 * 10 ^ 9) (clock 30).

Definition example_job : jobs.Job :=
  jobs.mkJob 1 jobs.Radarr 5 "download-1" "Movie" example_case_id "" "" "" (clock 1) "evidence" ""
    example_binding_id "" 0 jobs.zero_time 0 "" 0 true jobs.Ready "" (clock 1).

Definition example_attempt (request : string) (historyID : Z) : jobs.Attempt :=
  jobs.mkAttempt 1 1 jobs.Running example_binding_id "" request historyID 0 jobs.zero_time jobs.zero_time
    "" "" (clock 2) (clock 2).

Definition example_prepared : repair.PreparedImport :=
  repair.mkPreparedImport "/downloads/movie/movie.mkv" "command" 41.

(** An earlier import of the same file is in the history. *)
Lemma example_repair :
  @Repair (example_codec example_case_id) example_json (example_adapter [imported_file 41]) example_job
    (example_attempt "" 0) = inl example_prepared.
Proof. vm_compute. reflexivity. Qed.

Lemma radarr_import_authorized_witness :
  exists fresh authorized command,
    @import_authorized (example_codec example_case_id) example_json (example_adapter [imported_file 41])
      example_job example_binding_id fresh authorized /\
    import_of fresh command /\ cf_DownloadID (cmd_File command) = "download-1".
Proof.
  destruct (@radarr_import_authorized _ _ _ _ _ _ example_repair)
    as (fresh & authorized & command & history & Hau & Hof & Hdl & _).
  exists fresh, authorized, command. exact (conj Hau (conj Hof Hdl)).
Defined.

(** The history gained two imports, of which the first is confirmed. *)
Lemma radarr_receipt_exact_witness :
  exists first, first_import [imported_file 43; imported_file 41; imported_file 42]
    (radarr.mkImportedFileMatch 7 "download-1" "/downloads/movie/movie.mkv" 41) first /\
    first ∉ [imported_file 41].
Proof.
  destruct (@radarr_receipt_exact (example_codec example_case_id) example_json
    (example_adapter [imported_file 41])
    (example_adapter [imported_file 43; imported_file 41; imported_file 42]) example_job
    (example_attempt "" 0) (example_attempt "command" 41) example_prepared
    (repair.mkImportStatus "imported" "")) as (command & earlier & history & Hm & He & Hh & _ & Hfirst).
  - intros command data. cbn. case_bool_decide; [|done]. by subst.
  - intros imported data [= <-]. done.
  - exact example_repair.
  - reflexivity.
  - reflexivity.
  - vm_compute. reflexivity.
  - injection He as <-. injection Hh as <-. cbn in Hm.
    destruct (bool_decide_reflect (command = example_command)) as [Hc|Hc]; [|discriminate Hm].
    rewrite Hc in Hfirst. destruct Hfirst as (first & _ & Hf & Hn); [discriminate|]. exists first. exact (conj Hf Hn).
Defined.

(** ** The check before execution *)

Definition example_decision : RepairDecisionV3 :=
  mkRepairDecision ActionManualImportFile None None
    (Some (mkManualDecision "v3" example_case_id example_binding_id ActionManualImportFile "file:1" [] ""))
    None None.

Definition example_checks : executioncheck.Dependencies :=
  executioncheck.mkDependencies (fun _ => inl example_assembly) (clock 30)
    (fun _ => Err "no join") (fun _ => Ok (clock 1)) (600 * 10 ^ 9).

Definition passed (r : result executioncheck.Result) : bool :=
  match r with Ok r => bool_decide (length (res_Rejections r) = 0%nat) | Err _ => false end.

Lemma passed_Ok r : passed r = true -> exists a, r = Ok (executioncheck.mkResult a []).
Proof.
  destruct r as [[a [|]]|]; cbn; [by exists a|done|done].
Qed.

Lemma check_accepts_current_witness :
  exists r fresh, CheckWithPolicy example_checks example_assembly example_decision (mkRuntimePolicy 0) = Ok r /\
    execution_allowed example_checks example_assembly fresh example_decision (mkRuntimePolicy 0)
      (res_Authorization r).
Proof.
  destruct (passed_Ok (CheckWithPolicy example_checks example_assembly example_decision
    (mkRuntimePolicy 0))) as [a Ha]; [vm_compute; reflexivity|].
  destruct (check_accepts_current _ _ _ _ _ Ha eq_refl) as [_ [fresh Hfresh]].
  exists (executioncheck.mkResult a []), fresh. exact (conj Ha Hfresh).
Defined.
End adapter.

(** ** A DVD *)

Definition dvd_file (id name : string) (inode : Z) : InventoryFile :=
  disc_file id ["VIDEO_TS"; name] inode 1000.

Definition dvd_inventory : FileInventory :=
  mkFileInventory
    [dvd_file "file:1" "VIDEO_TS.IFO" 1; dvd_file "file:2" "VTS_01_0.IFO" 2; dvd_file "file:3" "VTS_01_1.VOB" 3]
    [mkFilePathMapping "file:1" "/downloads/movie/VIDEO_TS/VIDEO_TS.IFO";
     mkFilePathMapping "file:2" "/downloads/movie/VIDEO_TS/VTS_01_0.IFO";
     mkFilePathMapping "file:3" "/downloads/movie/VIDEO_TS/VTS_01_1.VOB"].

Definition dvd_titles : list Title :=
  [mkTitle 1 (2 * hour_ms) 12 1 1 1 [mkRemuxTrack "video" "mpeg2video" ""; mkRemuxTrack "audio" "ac3" "eng"];
   mkTitle 2 60000 1 1 1 2 [mkRemuxTrack "video" "mpeg2video" ""]].

Lemma listed_titles_complete_witness :
  exists candidates paths,
    dvdvideo.ListFeatureTitles (fun _ => None) (fun _ _ => Ok dvd_titles) dvd_inventory = Ok candidates /\
    length candidates = 1%nat /\
    Forall (fun c => exists navigation files, listed_title dvd_inventory c navigation files paths) candidates.
Proof.
  destruct (dvdvideo.ListFeatureTitles (fun _ => None) (fun _ _ => Ok dvd_titles) dvd_inventory)
    as [candidates|] eqn:E; [|vm_compute in E; discriminate E].
  destruct (listed_titles_complete _ _ _ _ E) as (paths & _ & Hall).
  exists candidates, paths. split; [reflexivity|]. split; [|exact Hall].
  vm_compute in E. injection E as <-. reflexivity.
Defined.

(** ** A stored case with a bound plan

    The codec reads back the case and a decision of the example. *)
Import planning casestore.

Definition storage_codec : RepairCodec :=
  {| MarshalCase request := written (request_strings request);
     MarshalIdentity i := written (request_strings (identity_request i));
     MarshalDecision message :=
       match message with ManualImportFileMessage d => Ok (md_CapabilityID d) | _ => Err "not written" end;
     ValidCase _ := Ok tt;
     ValidDecision _ := Ok tt;
     UnmarshalCase _ := Ok (as_Request example_assembly);
     UnmarshalAction _ := Ok ActionManualImportFile;
     UnmarshalNoRepair _ := Err "not read";
     UnmarshalJoinParts _ := Err "not read";
     UnmarshalManualImportFile capabilityID :=
       Ok (mkManualDecision "v3" example_case_id capabilityID ActionManualImportFile "file:1" [] "");
     UnmarshalRemux _ := Err "not read";
     Canonicalize text := Ok text |}.

Definition stored_digest : string := s_drop 7 example_case_id.

Definition stored_case (since : time) (snapshot : LocalSnapshot) : CaseRecord :=
  mkCaseRecord RecordVersionV4 example_case_id (as_EncodedRequest example_assembly) snapshot since.
Definition first_record : CaseRecord := stored_case (clock 1) (as_LocalSnapshot example_assembly).
Definition later_record : CaseRecord :=
  stored_case (clock 5) (assemble.snapshot_observed_at (clock 5) (as_LocalSnapshot example_assembly)).

Definition stored_result : StoredResult :=
  mkStoredResult ResultVersionV1 example_case_id 1 (clock 2) None None example_binding_id.

(** The plan of a reconsideration with a larger runtime difference. *)
Definition reconsidered : PlannedCase :=
  mkPlannedCase example_assembly example_decision example_case_id (Some (mkPolicyOverrides 60000)).
Definition bound_record : executionPlanRecord :=
  mkPlanRecord executionPlanVersion example_case_id example_binding_id example_case_id (Some (mkPolicyOverrides 60000)).

Definition planned_store : Store Directories :=
  mkStore (mkDirectories {[stored_digest := first_record]} {[stored_digest := stored_result]} ∅) ∅.

Example reconsidered_bound : is_ok (@BindExecutionPlan storage_codec planned_store reconsidered) = true.
Proof. vm_compute. reflexivity. Qed.

Lemma bound_plan_is_read_witness :
  exists store' p, @BindExecutionPlan storage_codec planned_store reconsidered = Ok store' /\
    @GetExecutionPlan storage_codec (st_plans store') example_case_id = Ok p /\
    pc_ReconsiderationID p = example_case_id /\ pc_PolicyOverrides p = Some (mkPolicyOverrides 60000).
Proof.
  pose proof reconsidered_bound as Hb. apply is_ok_true in Hb as [store' Hb].
  destruct (@bound_plan_is_read storage_codec planned_store store' reconsidered Hb)
    as (p & Hp & _ & _ & Hid & Ho & _).
  exists store', p. exact (conj Hb (conj Hp (conj Hid Ho))).
Defined.

(** The case is executed, and then observed again. *)
Definition executing_store : Store Directories :=
  mkStore (mkDirectories {[stored_digest := first_record]} {[stored_digest := stored_result]}
             {[stored_digest := bound_record]}) {[stored_digest := ManualFile prepared_manual]}.
Definition observed_again : result bool * Directories :=
  @Put storage_codec (st_plans executing_store) later_record.

Example later_observation : (fun r : result bool => match r with Ok created => negb created | _ => false end)
  observed_again.1 = true.
Proof. vm_compute. reflexivity. Qed.

Lemma executing_plan : is_ok (@GetExecutionPlan storage_codec (st_plans executing_store) example_case_id) = true.
Proof. vm_compute. reflexivity. Qed.

Lemma example_digest : caseDigest example_case_id = Ok stored_digest.
Proof. vm_compute. reflexivity. Qed.

Lemma executed_plan_final_witness :
  exists p p', @GetExecutionPlan storage_codec (st_plans executing_store) example_case_id = Ok p /\
    @GetExecutionPlan storage_codec observed_again.2 example_case_id = Ok p' /\ @same_plan storage_codec p p'.
Proof.
  pose proof executing_plan as Hp. apply is_ok_true in Hp as [p Hp].
  destruct (@executed_plan_final storage_codec executing_store
    (mkStore observed_again.2 (st_executions executing_store)) example_case_id stored_digest bound_record p)
    as (p' & Hp' & Hsame).
  - exact example_digest.
  - apply lookup_singleton_eq.
  - exists (ManualFile prepared_manual). apply lookup_singleton_eq.
  - exact Hp.
  - apply rtc_once. apply (@step_put storage_codec _ later_record observed_again.1). apply surjective_pairing.
  - exists p, p'. exact (conj Hp (conj Hp' Hsame)).
Defined.

(** ** A plan that is bound too late

    A case that is executed under its original plan, which no file binds, can
    still be bound to another plan. *)
Definition unbound_store : Store Directories :=
  mkStore (st_plans planned_store) {[stored_digest := ManualFile prepared_manual]}.

Definition overrides_of (plan : result PlannedCase) : option (option PolicyOverrides) :=
  match plan with Ok p => Some (pc_PolicyOverrides p) | Err _ => None end.

Example executed_plan_replaced :
  overrides_of (@GetExecutionPlan storage_codec (st_plans unbound_store) example_case_id) = Some None /\
  overrides_of
    (store' ← @BindExecutionPlan storage_codec unbound_store reconsidered;
     @GetExecutionPlan storage_codec (st_plans store') example_case_id) =
    Some (Some (mkPolicyOverrides 60000)).
Proof. split; vm_compute; reflexivity. Qed.
