(* ===== verification/ImportWitnesses.v ===== *)
(** * A Lidarr import from its plan to its confirmation

    Inputs at which the theorems on the ledger and the executor of Lidarr
    imports apply. *)
From ITree Require Import ITree.
From stdpp Require Import base strings list gmap sorting relations.
From S2P Require Import Prelude GoStrings LidarrContracts PlanningState LidarrState LidarrRepair.
From S2P Require Import Programs LidarrWitnesses LidarrLedger LedgerSafety ImportFlow ImportSafety.
Import planning lidarrcontracts lidarrstate lidarr servarr lidarrrepair importstate importexecutor.
#[local] Existing Instance example_codec.

Definition planned_record : Record_ nat :=
  mkRecord stateVersion 42 SourceDirectoryAudio "/downloads/album" example_digest "/work" "case" "import"
    [example_binding].

Definition planned_store : Store nat := (Put empty_store planned_record (example_instant 1000)).2.

Definition track_import : AuthorizedImport nat :=
  mkAuthorizedImport example_digest "capability:import_missing_tracks:7" 42 3 5 7
    [mkAuthorizedTrack "artifact:1" "sha256:00" 12 "/work/02.flac" 1%nat 0 "download-1" true].

(** ** The ledger *)

Definition ledger_of (r : result (ImportExecution * bool * Ledger)) : Ledger :=
  match r with Ok (_, _, ledger) => ledger | Err _ => ∅ end.

Definition op_prepare : @ledger_op nat := OpPrepare planned_store track_import 100 (example_instant 1500).
Definition op_requested : @ledger_op nat := OpRequested example_digest 9 (example_instant 1600).
Definition op_imported : @ledger_op nat := OpImported example_digest [example_entry 101] (example_instant 2100).

Definition prepared_ledger : Ledger := ledger_of (run_ledger op_prepare ∅).
Definition requested_ledger : Ledger := ledger_of (run_ledger op_requested prepared_ledger).
Definition imported_ledger : Ledger := ledger_of (run_ledger op_imported requested_ledger).

Definition digest_name : string := s_drop 7 example_digest.

Lemma ledger_of_Ok r :
  is_ok r = true -> exists record changed, r = Ok (record, changed, ledger_of r).
Proof. destruct r as [[[record changed] ledger]|]; [|done]. intros _. by exists record, changed. Qed.

Lemma empty_reachable : reachable_ledger (Quality := nat) [] ∅.
Proof. apply (reachable_migrated []). constructor. Qed.

Lemma imported_reached : reached_by [] [op_prepare; op_requested; op_imported] imported_ledger.
Proof.
  destruct (ledger_of_Ok (run_ledger op_prepare ∅)) as (r1 & c1 & H1); [vm_compute; reflexivity|].
  destruct (ledger_of_Ok (run_ledger op_requested prepared_ledger)) as (r2 & c2 & H2); [vm_compute; reflexivity|].
  destruct (ledger_of_Ok (run_ledger op_imported requested_ledger)) as (r3 & c3 & H3); [vm_compute; reflexivity|].
  eapply (reached_operation _ [op_prepare; op_requested]); [|exact H3].
  eapply (reached_operation _ [op_prepare]); [|exact H2].
  eapply (reached_operation _ []); [|exact H1]. apply (reached_migrated []). constructor.
Qed.

Lemma imported_reachable : reachable_ledger (Quality := nat) [] imported_ledger.
Proof. apply reachable_reached. eexists. exact imported_reached. Qed.

Definition in_state (state : ImportExecutionState) (found : option ImportExecution) : bool :=
  match found with Some record => bool_decide (ie_State record = state) | None => false end.

Lemma in_state_Some state found :
  in_state state found = true -> exists record, found = Some record /\ ie_State record = state.
Proof. destruct found as [record|]; [|done]. intros H%bool_decide_eq_true. by exists record. Qed.

Lemma only_preparation (store store' : Store nat) authorized authorized' history history' at_ at_' ops :
  OpPrepare store authorized history at_ ∈ OpPrepare store' authorized' history' at_' :: ops ->
  Forall (fun op => match op with OpPrepare _ _ _ _ => False | _ => True end) ops -> store = store'.
Proof.
  intros [[= -> _ _ _]|Hin]%elem_of_cons Hops; [done|]. rewrite Forall_forall in Hops.
  by destruct (Hops _ Hin).
Qed.

Lemma ledger_records_sound_witness :
  exists record, imported_ledger !! digest_name = Some record /\ valid_execution record /\
    plan_selects planned_store record /\ confirmed record.
Proof.
  destruct (in_state_Some Imported (imported_ledger !! digest_name)) as (record & Hl & Hs); [vm_compute; reflexivity|].
  exists record. split; [exact Hl|].
  destruct (ledger_records_sound [] _ imported_ledger digest_name record imported_reached Hl)
    as ([_ Hvalid] & [(store & authorized & history & at_ & Hin & Hplan & _)|(legacy & Hin & _)] & _ & Hconfirmed).
  - split; [exact Hvalid|]. split; [|exact (Hconfirmed Hs)].
    apply (only_preparation _ _ _ _ _ _ _ _ [op_requested; op_imported]) in Hin as ->; [exact Hplan|].
    repeat constructor.
  - exfalso. exact (not_elem_of_nil _ Hin).
Defined.

(** The import cannot be marked as failed any more. *)
Lemma ledger_records_final_witness :
  exists record, imported_ledger !! digest_name = Some record /\
    forall ledger', rtc (ledger_step (Quality := nat)) imported_ledger ledger' ->
      ledger' !! digest_name = Some record.
Proof.
  destruct (in_state_Some Imported (imported_ledger !! digest_name)) as (record & Hl & Hs); [vm_compute; reflexivity|].
  exists record. split; [exact Hl|]. intros ledger' Hsteps.
  destruct (ledger_records_final [] imported_ledger ledger' digest_name record imported_reachable Hsteps Hl)
    as (record' & Hl' & _ & _ & Hfinal).
  rewrite Hfinal in Hl'; [exact Hl'|]. unfold active. rewrite Hs. reflexivity.
Defined.

(** ** An executor about to submit *)

Definition start_world : ImportWorld := mkImportWorld planned_store ∅ [].
Definition prepared_world : ImportWorld := with_ledger start_world prepared_ledger.
Definition prepared_import : ImportExecution :=
  executionFromAuthorization track_import 100 (example_instant 1500).

Lemma import_prepared : run_ledger op_prepare ∅ = Ok (prepared_import, true, prepared_ledger).
Proof.
  destruct (ledger_of_Ok (run_ledger op_prepare ∅)) as (record & changed & H); [vm_compute; reflexivity|].
  pose proof H as (path & _ & _ & [(-> & _ & Hl & _)|(-> & -> & _)])%PrepareImport_Ok; [|exact H].
  by rewrite lookup_empty in Hl.
Qed.

(** The executor after a call that was answered. *)
Lemma answered w w' t X (e : importE nat X) k x :
  reachable_imports (mkImportSystem w {[0%nat := (track_import, t)]}) -> observe t = VisF e k ->
  answers e w x w' -> reachable_imports (mkImportSystem w' {[0%nat := (track_import, k x)]}).
Proof.
  intros Hr Ho Ha. eapply reachable_next; [exact Hr|].
  pose proof (import_call w {[0%nat := (track_import, t)]} 0%nat track_import t X e k x w'
    (lookup_singleton_eq _ _) Ho Ha) as H.
  by rewrite insert_singleton_eq in H.
Qed.

Ltac next_call := match goal with |- ?t = _ => let v := eval hnf in t in exact (eq_refl v) end.

Lemma submitting_reachable :
  exists t k, reachable_imports (mkImportSystem prepared_world {[0%nat := (track_import, t)]}) /\
    observe t = VisF (RequestManualImport track_import) k.
Proof.
  assert (reachable_imports (mkImportSystem start_world {[0%nat := (track_import, Execute track_import)]})) as H.
  { eapply reachable_next; [exact (reachable_start [] planned_store ∅ empty_reachable)|].
    exact (import_start start_world ∅ 0%nat track_import (lookup_empty _)). }
  eapply (answered _ start_world _ _ _ _ (Ok tt)) in H; [|next_call|reflexivity].
  eapply (answered _ start_world _ _ _ _ (Ok [example_entry 100])) in H; [|next_call|reflexivity].
  eapply (answered _ start_world _ _ _ _ (example_instant 1500)) in H; [|next_call|reflexivity].
  eapply (answered _ prepared_world _ _ _ _ (Ok (prepared_import, true))) in H; [|next_call|].
  2: { left. exists prepared_import, true, prepared_ledger. split; [exact import_prepared|].
       split; [reflexivity|]. left. reflexivity. }
  eapply (answered _ prepared_world _ _ _ _ (Ok tt)) in H; [|next_call|reflexivity].
  eexists. eexists. split; [exact H|next_call].
Qed.

Lemma import_submitted_once_witness :
  recorded prepared_ledger track_import /\ ~ submitted_case prepared_world example_digest.
Proof.
  destruct submitting_reachable as (t & k & Hr & Ho).
  destruct (import_submitted_once _ Hr) as (_ & _ & H).
  destruct (H 0%nat track_import t track_import k (lookup_singleton_eq _ _) Ho) as (_ & Hrec & Hn).
  exact (conj Hrec Hn).
Defined.

(** ** A command that completes in the fourth round without an import *)

Definition requested_import : ImportExecution :=
  mkImportExecution importExecutionVersion example_digest "capability:import_missing_tracks:7" 42 3 5 7
    (ie_Tracks prepared_import) ImportRequested 100 (example_instant 1500) (example_instant 1600) (Some 9) [].
Definition failed_import : ImportExecution :=
  mkImportExecution importExecutionVersion example_digest "capability:import_missing_tracks:7" 42 3 5 7
    (ie_Tracks prepared_import) ImportFailed 100 (example_instant 1500) (example_instant 5000) (Some 9) [].

Definition round_command (n : nat) : Command :=
  if (n <? 3)%nat then mkCommand 9 "" "started" "unknown" else mkCommand 9 "" "completed" "".

Definition silent_service (X : Type) (e : importE nat X) (n : nat) : X * nat :=
  match e in importE _ X return X * nat with
  | ContextErr => (Ok tt, n)
  | ClockNow => (example_instant 5000, n)
  | Wait => (Ok tt, n)
  | RequestManualImport _ => (Err "not requested again", n)
  | ReadManualImportCommand _ => (Ok (round_command n), S n)
  | ReadImportedTracks _ => (Ok [], n)
  | StorePrepareImport _ _ _ => (Err "not prepared again", n)
  | StoreImportRequested _ _ _ => (zero_execution, Some "not requested again", n)
  | StoreImported _ _ _ => (zero_execution, Some "not imported", n)
  | StoreImportFailed _ _ => (failed_import, None, n)
  end.

Lemma follow_gives_up_witness :
  exists rounds, (12 <= rounds <= 15)%nat /\
    returns silent_service (importflow.follow (dependencies track_import) requested_import) 0%nat
      (failed_import, None) rounds.
Proof.
  assert (unconfirmed (dependencies track_import) silent_service requested_import failed_import 9 round_command
    (example_instant 5000)) as Hun.
  { split; [split; [reflexivity|lia]|..]; intros; try (exists 2%nat; reflexivity); reflexivity. }
  assert (forall m, (3 <= m)%nat -> ended_command (dependencies track_import) round_command m) as Hend.
  { intros m Hm. left. unfold disposition, round_command.
    rewrite (proj2 (Nat.ltb_ge m 3) Hm). reflexivity. }
  destruct (follow_gives_up (dependencies track_import) silent_service requested_import failed_import 9
    round_command (example_instant 5000) Hun 3) as (rounds & Hle & _ & Hr); [|exact Hend|].
  - intros m. unfold disposition, round_command. destruct (m <? 3)%nat; eexists; reflexivity.
  - exists rounds. split; [lia|exact Hr].
Defined.
