(* ===== verification/WorkerWitnesses.v ===== *)
(** * Instances of the worker's properties

    The hypotheses of the worker's theorems hold for a staged file and for a
    request to extract an archive, and a run of that program ends. *)
From ITree Require Import ITree.
From stdpp Require Import base strings list gmap.
From S2P Require Import Prelude GoStrings FileIdentity Probe Inventory Programs WorkerFiles Materialize MaterializeSafety FileSystem TransformSafety.
Import mediafile.

(** A finished file in the staging directory, and where it is to go. *)
Definition staged_key : directory * string := (StagedDirectory "media", "a.mkv").
Definition media_key : directory * string := (MediaDirectory "media" ["Film"], "b.mkv").
Definition staged_world : world := mkWorld {[staged_key := 7%Z]} {[7%Z := "content"]}.

Lemma move_keeps_file_witness :
  safe (fun X (_ : workerE X) => moving staged_key media_key 7%Z staged_world)
    (answers (fun _ _ => True)) (moveNoReplace staged_key.1 staged_key.2 media_key.1 media_key.2)
    (fun x s' => moving staged_key media_key 7%Z staged_world s' /\
       (x = inl tt -> w_names staged_world !! media_key = None /\ w_names s' !! staged_key = None /\
          w_names s' !! media_key = Some 7%Z)) staged_world.
Proof. apply (move_keeps_file (fun _ _ => True)). apply lookup_singleton_eq. Defined.

(** ** Materialising a download *)

(** A root with a file outside the workspace, and a request to extract a tar
    archive below it. *)
Definition download_roots : RootSet := {["media" := "/srv/media"]}.
Definition tar_request : materialize.Request :=
  materialize.mkRequest materialize.SchemaVersion "request:1" materialize.OperationMaterializeTar "media"
    ["album.tar"] (String.concat "" ("sha256:" :: replicate 64 "0")) "workspace:1".
Definition other_file : MaterializeSafety.world := {[["srv"; "media"; "other.flac"] := "music"]}.

(** Manifests are the text that says so, and temporary files are below [/tmp]. *)
Definition download_environment : MaterializeSafety.Environment :=
  MaterializeSafety.mkEnvironment download_roots (fun content _ => content <> "")
    (fun content _ => content = "manifest") (fun _ => "listing") ["tmp"].

Lemma materialization_confined_witness :
  materialize.validateRequest tar_request = Ok tt /\
  safe (fun X (_ : materialize.materializeE X) s =>
          MaterializeSafety.others_kept download_environment tar_request ["srv"; "media"] other_file s)
    (MaterializeSafety.answers download_environment (listings := fun _ => Err "not read"))
    (materialize.materialize (listings := fun _ => Err "not read") "/v1/materialize/tar-audio" tar_request)
    (fun response s =>
       MaterializeSafety.others_kept download_environment tar_request ["srv"; "media"] other_file s /\
       forall success, materialize.rs_Success response = Some success ->
         MaterializeSafety.published download_environment tar_request ["srv"; "media"] other_file
           (MaterializeSafety.lost "/v1/materialize/tar-audio") success s) other_file.
Proof.
  split; [by vm_compute|].
  apply (MaterializeSafety.materialization_confined download_environment (fun _ => Err "not read")
    "/v1/materialize/tar-audio" tar_request "/srv/media" other_file).
  - by vm_compute.
  - by vm_compute.
  - by vm_compute.
  - intros [r [=]].
  - intros [r [=]].
Defined.

(** ** A machine for materializations

    Files by the elements of their paths, the calls that a walk still makes,
    and an archive of which one member is unpacked. Directories exist, and
    files belong to the group that they are given. *)
Record machine := mkMachine { mc_files : MaterializeSafety.world; mc_walk : list materialize.WalkCall }.

Definition in_files (f : MaterializeSafety.world -> MaterializeSafety.world) (m : machine) : machine :=
  mkMachine (f (mc_files m)) (mc_walk m).

Definition is_below (path : list string) (k : list string) : bool :=
  bool_decide (take (length path) k = path).

Definition without (path : list string) (files : MaterializeSafety.world) : MaterializeSafety.world :=
  filter (fun p => is_below path p.1 = false) files.

Definition renamed (old new : list string) (files : MaterializeSafety.world) : MaterializeSafety.world :=
  list_to_map (map (fun p => (if is_below old p.1 then (new ++ drop (length old) p.1)%list else p.1, p.2))
    (map_to_list files)).

Definition regular (content : string) : materialize.PathInfo :=
  materialize.mkPathInfo filesystem.Regular (Z.of_nat (String.length content)) (Some 100).

(** What is unpacked. *)
Definition unpacked_name : string := "/.rar-extract/song.flac".

Definition answer (X : Type) (e : materialize.materializeE X) (m : machine) : X * machine :=
  match e in materialize.materializeE X return X * machine with
  | materialize.ContextErr => (None, m)
  | materialize.OpenSource _ _ _ => (inl 3, m)
  | materialize.OpenSourceDirectory _ _ => (inl 3, m)
  | materialize.ReadChildren _ => (inl [], m)
  | materialize.Fstatat _ _ => (inr (materialize.other "absent"), m)
  | materialize.CloseSource _ => (None, m)
  | materialize.StatSource _ => (inl (mkSnapshot 1 2 3 4), m)
  | materialize.VerifySource _ _ => (None, m)
  | materialize.RootPath _ => (inl "/srv/media", m)
  | materialize.Lstat path =>
      (match mc_files m !! filepath.path_elements path with
       | Some content => inl (regular content)
       | None => if HasSuffix path ".media-repair"
                 then inl (materialize.mkPathInfo filesystem.Directory 0 (Some 100))
                 else inr materialize.NotExist
       end, m)
  | materialize.ReadManifest _ => (inr (materialize.other "absent"), m)
  | materialize.WriteManifest path _ => (None, in_files <[filepath.path_elements path := "manifest"]> m)
  | materialize.MkdirAll _ _ => (None, m)
  | materialize.Mkdir _ _ => (None, m)
  | materialize.Chown _ _ => (None, m)
  | materialize.Chmod _ _ => (None, m)
  | materialize.RemoveAll path => (None, in_files (without (filepath.path_elements path)) m)
  | materialize.Rename old new =>
      (None, in_files (renamed (filepath.path_elements old) (filepath.path_elements new)) m)
  | materialize.CreateExcl path =>
      match mc_files m !! filepath.path_elements path with
      | Some _ => (Some (materialize.other "exists"), m)
      | None => (None, in_files <[filepath.path_elements path := ""]> m)
      end
  | materialize.OpenExtracted _ => (None, m)
  | materialize.Copy from _ path =>
      let content := match from with
        | materialize.ExtractedFile source => default "" (mc_files m !! filepath.path_elements source)
        | _ => "music" end in
      ((content, None), in_files <[filepath.path_elements path := content]> m)
  | materialize.ReadBack path => ((default "" (mc_files m !! filepath.path_elements path), None), m)
  | materialize.TarNext _ => (inl None, m)
  | materialize.Probe _ => (inl zero_ProbeEvidence, m)
  | materialize.ListRAR _ => (inl "listing", m)
  | materialize.UnpackRAR _ destination =>
      (None, in_files <[filepath.path_elements (destination +:+ unpacked_name) := "music"]> m)
  | materialize.WalkNext _ =>
      match mc_walk m with
      | [] => (None, m)
      | call_ :: rest => (Some call_, mkMachine (mc_files m) rest)
      end
  | materialize.CueConvert _ => (inr (materialize.other "absent"), m)
  | materialize.CueBreakpoints _ => (inr (materialize.other "absent"), m)
  | materialize.ExtractWavPackCue _ => (inr materialize.TagNotFound, m)
  | materialize.StoreTemporary _ => (inr (materialize.other "full"), m)
  | materialize.RemoveTemporary _ => (None, m)
  | materialize.CutTrack _ _ _ _ => (Some (materialize.other "absent"), m)
  end.

(** A request to extract a RAR archive, and the machine before it. *)
Definition rar_request : materialize.Request :=
  materialize.mkRequest materialize.SchemaVersion "request:2" materialize.OperationMaterializeRAR "media"
    ["album.rar"] (String.concat "" ("sha256:" :: replicate 64 "0")) "workspace:1".
Definition workspace_path : list string := ["srv"; "media"; ".media-repair"; "workspaces"; "workspace:1"].
Definition rar_machine : machine :=
  mkMachine {[["srv"; "media"; "other.flac"] := "other music"]}
    [materialize.mkWalkCall ("/srv/media/.media-repair/workspaces/workspace:1.partial/.rar-extract" +:+ unpacked_name)
       None false (inl (regular "music"))].
Definition rar_listing : materialize.ListingCodec := fun _ =>
  Ok (materialize.mkrarListing 2 [materialize.mkrarEntry ".rar-extract/song.flac" (Some 5) false false false]).

Lemma materialize_ends_witness : exists response m,
  returns answer (materialize.materialize (listings := rar_listing) "/v1/materialize/rar-audio" rar_request)
    rar_machine response m.
Proof.
  apply (MaterializeSafety.materialize_ends answer (fun m => length (mc_walk m))).
  - intros X e mc; destruct e; cbn [answer snd in_files mc_walk]; try done;
      [by destruct (mc_files mc !! _)|destruct (mc_walk mc) eqn:Ew; cbn; rewrite ?Ew; cbn; lia].
  - intros path m call_ H _. cbn [answer] in *. destruct (mc_walk m) eqn:E; cbn in *; [done|lia].
Defined.

(** A response that reports the member, without its file. *)
Definition reports_lost (r : materialize.Response * machine) : bool :=
  match materialize.rs_Success r.1 with
  | Some success =>
      bool_decide (map materialize.ar_RelativePath (materialize.su_Artifacts success) = [".rar-extract/song.flac"]) &&
      bool_decide (mc_files r.2 !! (workspace_path ++ [".rar-extract"; "song.flac"])%list = None) &&
      bool_decide (mc_files r.2 !! ["srv"; "media"; "other.flac"] = Some "other music")
  | None => false
  end.

(** The only member of this archive is below a directory with the name of the
    one that it is unpacked into: the response reports it as an artifact, but
    its file was removed with that directory. *)
Lemma rar_member_lost : exists response m,
  returns answer (materialize.materialize (listings := rar_listing) "/v1/materialize/rar-audio" rar_request)
    rar_machine response m /\ reports_lost (response, m) = true.
Proof.
  apply (returns_checked answer 400). vm_compute. reflexivity.
Qed.
